(* ===== verification/_CoqProject ===== *)
-Q . S2P
Prelude.v
PyDict.v
Resources.v
NodeTypes.v
BinPacking.v
NodesFor.v
NodeProvider.v
DemandScheduler.v
SchedulerProps.v
LoadMetrics.v
NodeTracker.v
EventSummarizer.v
ClusterConfig.v
NodeLauncher.v
Autoscaler.v
AutoscalerProps.v
SegmentTree.v
ServeAutoscaling.v
ActorPool.v
MlDict.v
Heapq.v
CheckpointManager.v
Hoare.v
AsyncGoals.v
LongPoll.v
ServeVersion.v
ServeReplica.v
DeploymentState.v
DeploymentSafety.v
DeploymentRollout.v
DeploymentConverge.v
ServeController.v
ControllerProps.v
HttpProxy.v
EndpointProps.v
DeploymentExamples.v
Router.v
RunningFilter.v
ReplayBuffer.v
TrialScheduler.v
Asha.v
HyperBand.v
HyperBandProps.v
HyperBandSafety.v
HyperBandExamples.v
VariantGenerator.v
VariantProps.v
BasicVariant.v
BasicVariantProps.v
BasicVariantExamples.v
WorkflowFs.v
WorkflowStorage.v
WorkflowManager.v
WorkflowExec.v
WorkflowFiles.v
WorkflowInv.v
WorkflowDag.v
WorkflowAlive.v
WorkflowCommit.v
WorkflowRecovery.v
WorkflowManagerProps.v
WorkflowExamples.v
