(* ===== verification/Prelude.v ===== *)
(** * Ray's Python control plane

    This library models the parts of the repository's Python code that decide
    things, and proves what they decide: the cluster autoscaler, Serve's
    controller, router and proxy, Tune's search variants, schedulers and
    checkpoints, RLlib's replay buffers and filters, durable workflows, and
    the actor pool. The root directory of the source names below is [src/python/ray/] ([src/] for [rllib/]).

    ** The program's parts

    The cluster autoscaler is a loop in the head node's monitor process.
    Raylets report their resources, queues and placement groups; the monitor
    puts the reports into [LoadMetrics] and calls [StandardAutoscaler.update].
    An update lists the nodes of the cloud ([NodeProvider]), forgets the
    metrics of nodes that are gone, terminates nodes that violate the config,
    are idle or outdated, asks [ResourceDemandScheduler] which nodes to
    launch, queues the launches for the [NodeLauncher] threads (a
    [ConcurrentCounter] holds what is pending), starts and collects the
    updater threads, recovers or terminates nodes without heartbeats
    ([NodeTracker] remembers failed ones) and collects messages in
    [EventSummarizer].

    Ray Serve runs a controller actor. [deploy] and [delete] set the target of
    a deployment, write a checkpoint and give the client a goal to wait on
    ([AsyncGoalManager]); the control loop moves the replicas of every
    deployment towards its target, scales them by the metrics they report,
    and tells proxies and handles of changes through long polls. A proxy finds
    the endpoint of a request by the longest route; the router of a handle
    spreads queries over replicas within their limits.

    Tune's search algorithm makes trials of the variants of a search space,
    grid searches and samples; its trial runner asks a scheduler what to do
    with each result of a
    trial: go on, pause or stop; its checkpoint manager keeps the best
    checkpoints. RLlib's replay buffers hold and sample experience through
    segment trees, and its filters keep running statistics of observations
    that are merged over workers. [ActorPool] spreads tasks over actors.

    A workflow is a graph of steps whose functions may return further
    workflows. It is stored before it runs, every step stores its output or
    the workflow that gives it, and a process that resumes the workflow
    finds in the storage which steps are left. The management actor hands out
    step ids, tracks the steps that run and keeps the status of each workflow.

    ** Files

    - [Prelude]: Python's exceptions as the error monad [result], methods as
      the state monad [ST] (the object after the call, also when it raised),
      loops, [sorted], numbers, the tactics [st_simpl], [preserves_tac],
      [by_compute] and the hint databases [ray] and [preserves]. [PyDict]:
      Python's insertion-ordered [dict]. [Hoare]: triples for [ST].
    - Autoscaler. [Resources], [BinPacking], [NodesFor], [DemandScheduler]
      model [autoscaler/_private/resource_demand_scheduler.py]: resource
      arithmetic, [get_bin_pack_residual], [_utilization_score] and
      [get_nodes_for], and the class [ResourceDemandScheduler];
      [SchedulerProps] proves properties of the class. [NodeTypes]: YAML
      values and [available_node_types]. [NodeProvider]: the interface of
      [autoscaler/node_provider.py] as a class with laws, with the fake and
      the read-only provider as instances; the scheduler, the launchers and
      the autoscaler are defined over the interface. [LoadMetrics],
      [NodeTracker], [EventSummarizer]: the classes of the files of the same
      names. [ClusterConfig]: the functions of [util.py] that check and
      complete a config. [NodeLauncher]: [ConcurrentCounter] and
      [_launch_node], interleaved by [sys_step]. [Autoscaler]:
      [StandardAutoscaler] ([autoscaler.py]), one definition per method,
      composed as in [update]; [AutoscalerProps] proves properties of it.
    - Serve. [ServeAutoscaling]: [serve/autoscaling_metrics.py] and
      [serve/autoscaling_policy.py]. [AsyncGoals]: [async_goal_manager.py].
      [LongPoll]: [long_poll.py]. [ServeVersion]: [version.py] and the names
      of [common.py]. [ServeReplica], [DeploymentState]: the replicas and the
      control loop of one deployment ([deployment_state.py]), against an
      oracle for what the cluster answers; [DeploymentSafety],
      [DeploymentRollout] and [DeploymentConverge] prove what a step and what
      many steps do. [ServeController]: all deployments, [endpoint_state.py]
      and [controller.py], with [ControllerProps] and, over the routes of
      [HttpProxy], [EndpointProps]; [DeploymentExamples] applies the theorems
      to a concrete cluster. [HttpProxy]: the routes of [http_proxy.py].
      [Router]: [router.py] as a system of queries, announced replicas and
      answers; an actor handle is an object of its own at every announcement.
    - Tune. [MlDict]: [flatten_dict] and [unflatten_dict] of
      [util/ml_utils/dict.py]; [Heapq]: the standard library's binary heap;
      [CheckpointManager]: [tune/checkpoint_manager.py], over both.
      [TrialScheduler]: what the schedulers share; [Asha]:
      [tune/schedulers/async_hyperband.py]; [HyperBand]: [hyperband.py] with
      the hooks of [tune/trial_runner.py] that call it and that it calls;
      [HyperBandProps] proves what one round does, [HyperBandSafety] what a
      history does, [HyperBandExamples] shows histories that fail.
      [VariantGenerator]: [tune/suggest/variant_generator.py], with
      [VariantProps]; [BasicVariant]: [basic_variant.py] over it, with
      [BasicVariantProps], whose iterators are proved against the class
      [CountedVariants], with grid searches over resolved values as the
      instance the property is about, and [BasicVariantExamples].
    - RLlib. [SegmentTree]: [rllib/execution/segment_tree.py];
      [ReplayBuffer]: [rllib/execution/replay_buffer.py] over it;
      [RunningFilter]: [rllib/utils/filter.py], [filter_manager.py] and the
      filter methods of [rllib/evaluation/rollout_worker.py], with the calls of
      a synchronization interleaved with observations.
    - Workflows. [WorkflowFs]: [workflow/storage/filesystem.py] on a disk that
      the process may stop changing at any point; [WorkflowStorage]:
      [workflow_storage.py]; [WorkflowManager]: [workflow_access.py] and the
      calls of [execution.py] that go through it, over the class [StoreOps];
      [WorkflowExec]: [step_executor.py], [recovery.py], [run] and [resume] of
      [execution.py] and the graph walk of [common.py], over the manager and
      the storage, with the storage-free semantics [eval]. [WorkflowFiles]
      lifts atomic files to the files of steps, [WorkflowInv] states what the
      storage holds at every moment, [WorkflowDag] is about the graph walk,
      [WorkflowAlive] about processes that are not killed, [WorkflowCommit]
      about storing steps, [WorkflowRecovery] about running and resuming, all
      over the class [StepNames] of names whose ids do not collide.
      [WorkflowManagerProps] is about the manager over any storage that obeys
      the laws of the class [Store], and shows that the file system does;
      [WorkflowExamples]: runs that crash, and the histories behind the
      findings.
    - [ActorPool]: [util/actor_pool.py].

    ** What the theorems show

    - Packing and choosing nodes ([BinPacking], [NodesFor]): what
      [get_bin_pack_residual] places really fits and nothing is lost;
      [get_nodes_for] terminates, respects the limits, hosts what it does not
      return, and gives up only when no type helps.
    - The scheduler ([SchedulerProps]): [get_nodes_to_launch] keeps every type
      and the cluster within the limits and returns, for configs that are not
      legacy ones and positive amounts, launches at most the allowed number at
      a time, and converts every placement group by its strategy.
    - Metrics and config ([LoadMetrics], [ClusterConfig]): what the reports
      hold after any updates; which limits of node types are filled in.
    - Launching and the control loop ([NodeLauncher], [AutoscalerProps]): in
      every interleaving the pending counter is what is queued or in flight;
      which nodes the config constraints terminate and which limits hold
      after them, with and without resource requests.
    - Serve deployments ([DeploymentSafety], [DeploymentRollout],
      [DeploymentConverge], [ControllerProps], [EndpointProps]): operations
      never raise, no replica is lost, never more replicas than the target
      asks for, a rolling update takes a bounded share of the capacity and
      reaches its target, no goal is orphaned, a new controller recovers the
      state of the one before it, routes lead to one endpoint unless an
      explicit route is also the default one of another.
    - Serve's clients ([LongPoll], [HttpProxy], [Router]): a client is called
      with every object the host sends it and catches up with the host, a
      request takes the longest route, a replica never has more queries than
      its limit from those sent since it was last announced, and no query
      waits while a replica is free.
    - Serve autoscaling ([ServeAutoscaling]): window averages against the log
      of all points; when the policy scales.
    - Tune ([VariantProps], [BasicVariantProps], [Asha], [HyperBandSafety],
      [MlDict], [CheckpointManager]): a grid search yields the cartesian
      product, once each; the default search algorithm hands out the trials
      of grid searches, as many as it announced, with distinct ids and within
      the limit of live ones, for any order of requests and completions; a
      rung stops trials only by their rank; a round of HyperBand keeps the
      best trials and HyperBand does not get stuck, when trials follow its
      milestones, its factor exceeds two and none leaves the last round of its
      bracket as the only one that the others wait for (histories where it
      does otherwise are examples); flattening and unflattening are inverse; the best
      checkpoints are kept.
    - RLlib ([SegmentTree], [ReplayBuffer], [RunningFilter]): a tree refines an
      array with reductions, the search finds the highest index; the buffer
      is a queue of the latest items, bounded up to one item, and samples in
      proportion to the priorities; running statistics equal a two-pass
      computation; every observation of a remote worker is counted exactly once
      by the synchronized filters, unless it is made between the worker's two
      calls of one synchronization, when it is lost.
    - Workflows ([WorkflowFs], [WorkflowRecovery], [WorkflowManagerProps]): a
      file is replaced atomically; after any number of processes that died at
      any point a run returns exactly what the workflow computes, for
      deterministic steps whose names give ids that do not collide; the
      manager refines one tracker per workflow, outputs included.
    - Actor pool ([ActorPool]): a pool refines a queue, and no sequence of
      calls loses or doubly uses an actor.

    ** Conventions

    - Python's [int] is [Z] and a [float] an exact rational [Q]: rounding,
      [nan] and infinities are not modelled ([None] stands for infinity where
      the code uses it). Strings are Rocq strings; a message with
      placeholders is the concatenation it formats to.
    - An exception is a value; a [try] is [st_try] with the exceptions it
      catches. Objects that the code shares and changes through several
      references are kept in one place and referred to by position or key
      (brackets, goals, replicas); a dictionary that two objects share is
      copied only where no later write through one alias is read through the
      other.
    - [time.time()] and random numbers are arguments of the operations that
      read them.
    - A loop that is not structural has fuel, with [OutOfFuel] as a value of
      its own; the bounds are the number of demands for [get_nodes_for], the
      node count for the launch batches, the distance of the indices for
      [bisect], the heap and the tree walks, the number of values for
      [ActorPool.map], the nesting for [flatten_dict], the queries in flight
      and one more for the router's loop, the capacity for the width of the
      replay buffer's trees, the brackets of a band and two more for a new
      HyperBand bracket, the halvings left and one more for rounds inside
      rounds, the number of choices and one more for a grid search, and the
      nesting of unresolved values for variants; a workflow runs and resumes
      with the fuel with which its storage-free semantics has a result. The
      theorems about these functions prove that the fuel given suffices.
    - [KeyboardInterrupt] is not caught by [except Exception]. A process that
      dies is the exception [Crashed], which no [try] catches;
      it is raised before a change of the disk once the changes the process
      is given are used up; the manager and the executor die together. The
      steps of a workflow run one after the other; a step is recorded as
      running before it runs.
    - Code outside the model is an argument: hashes of configs and files, the
      file system, [repr], the JSON schema, the outcome of an updater thread,
      the GCS call that drains nodes, [ray.wait] (which returns at most one of
      the references it is given) and the outcome of a task, the answers of
      the cluster to Serve, numpy's logarithm, percentile (between the
      neighbours of its position, as documented) and powers (positive, and
      antitone in the base for exponents up to zero), what sampling a domain or
      evaluating an expression of a search space gives, what the function of a
      workflow's step returns, the random names of temporary files (of
      hexadecimal digits). A remote call returns a
      new reference, the number of calls made before it.

    ** Not modelled

    Log lines, Prometheus metrics and the text reports; the updaters and
    command runners (ssh, rsync, docker); the cloud providers; the monitor's
    polling; the C++ raylet, GCS and object store and their bindings; HTTP,
    gRPC and dashboard services; Tune's event loop, the other
    search algorithms, population based training and the median rule; the algorithms of RLlib,
    Train and Datasets; of workflows the virtual actors, dynamic references,
    events, pickling of object references and concurrent steps.

    ** What could follow

    Variants with sampled domains beside grid searches, the multi-agent
    replay buffer, the rest of [util/ml_utils/dict.py], virtual actors.
*)

From Stdlib Require Import ZArith QArith Qround Lqa Lia.
From stdpp Require Import base list strings option sorting.

(** ** Python exceptions and the error monad

    A Python statement that can raise is modelled by a value of [result]:
    [Ok] carries what the statement returns, [Err] the exception. *)

Inductive exn : Type :=
| AssertionError
| KeyError
| ValueError
| TypeError
| IndexError
| RuntimeError
| StopIteration
| ZeroDivisionError
| TimeoutError
| NameError
| AttributeError
| ValidationError    (* of pydantic *)
| SchemaValidationError  (* [ValidationError] of jsonschema *)
| MaxRetryError      (* of urllib3 *)
| TuneError          (* of ray.tune *)
| KeyNotFoundError   (* of ray.workflow, as the next five *)
| DataLoadError
| DataSaveError
| WorkflowStepNotRecoverableError
| WorkflowNotResumableError
| WorkflowNotFoundError
| FileExistsError
| FileNotFoundError
| NotADirectoryError
| PyException        (* a plain [Exception] *)
| KeyboardInterrupt  (* a [BaseException] that is no [Exception], as [SystemExit] *)
| Crashed            (* the process died: no handler runs *)
| OutOfFuel.

#[global] Instance exn_eq_dec : EqDecision exn.
Proof. solve_decision. Defined.

Inductive result (A : Type) : Type :=
| Ok (a : A)
| Err (e : exn).
Arguments Ok {A} _.
Arguments Err {A} _.

#[global] Instance result_ret : MRet result := @Ok.
#[global] Instance result_bind : MBind result :=
  fun A B f r => match r with Ok a => f a | Err e => Err e end.
#[global] Instance result_fmap : FMap result :=
  fun A B f r => match r with Ok a => Ok (f a) | Err e => Err e end.

Definition is_ok {A} (r : result A) : bool :=
  match r with Ok _ => true | Err _ => false end.

(** [assert b] *)
Definition py_assert (b : bool) : result unit :=
  if b then Ok tt else Err AssertionError.

(** The value of an option, or the given exception. *)
Definition or_raise {A} (e : exn) (o : option A) : result A :=
  match o with Some a => Ok a | None => Err e end.

(** [for x in l: s := f s x], where the body can raise. *)
Fixpoint foldM {A S} (f : S -> A -> result S) (s : S) (l : list A) : result S :=
  match l with
  | [] => Ok s
  | x :: l' => s' ← f s x; foldM f s' l'
  end.

(** [[f(x) for x in l]], where [f] can raise. *)
Fixpoint mapM_r {A B} (f : A -> result B) (l : list A) : result (list B) :=
  match l with
  | [] => Ok []
  | x :: l' => y ← f x; ys ← mapM_r f l'; Ok (y :: ys)
  end.

(** Methods that change [self] and can raise: the object after the call, also
    when the call raised, and the result. *)
Definition ST (S A : Type) : Type := S -> S * result A.

#[global] Instance ST_ret {S} : MRet (ST S) := fun A a s => (s, Ok a).
#[global] Instance ST_bind {S} : MBind (ST S) :=
  fun A B f m s => match m s with
                   | (s', Ok a) => f a s'
                   | (s', Err e) => (s', Err e)
                   end.

Definition st_get {S} : ST S S := fun s => (s, Ok s).
Definition st_gets {S A} (f : S -> A) : ST S A := fun s => (s, Ok (f s)).
Definition st_put {S} (s : S) : ST S unit := fun _ => (s, Ok tt).
Definition st_modify {S} (f : S -> S) : ST S unit := fun s => (f s, Ok tt).
Definition st_raise {S A} (e : exn) : ST S A := fun s => (s, Err e).
Definition st_lift {S A} (r : result A) : ST S A := fun s => (s, r).

(** [try: m except ...: h e], for the exceptions that [catches] accepts *)
Definition st_try {S A} (m : ST S A) (catches : exn -> bool) (h : exn -> ST S A) : ST S A :=
  fun s => match m s with
           | (s', Err e) => if catches e then h e s' else (s', Err e)
           | r => r
           end.

(** An operation on a part of the object *)
Definition st_zoom {S T A} (part : S -> T) (set_part : T -> S -> S) (m : ST T A) : ST S A :=
  fun s => let '(t, r) := m (part s) in (set_part t s, r).

(** A loop that updates local variables *)
Fixpoint st_fold {S A B} (f : B -> A -> ST S B) (b : B) (l : list A) : ST S B :=
  match l with
  | [] => mret b
  | x :: l' => b' ← f b x; st_fold f b' l'
  end.

(** [for x in l: f(x)] *)
Fixpoint st_for {S A} (l : list A) (f : A -> ST S unit) : ST S unit :=
  match l with
  | [] => mret tt
  | x :: l' => _ ← f x; st_for l' f
  end.

(** ** Python's [sorted]

    [sorted] compares with [<] only and is stable. With [reverse=True] the
    list is reversed, sorted and reversed again, which keeps the order of
    equal elements. *)

Section Sorted.
Context {A : Type} (lt : A -> A -> bool).

Fixpoint py_insert (x : A) (l : list A) : list A :=
  match l with
  | [] => [x]
  | y :: l' => if lt y x then y :: py_insert x l' else x :: y :: l'
  end.

Definition py_sorted (l : list A) : list A := foldr py_insert [] l.

Definition py_sorted_reverse (l : list A) : list A :=
  reverse (py_sorted (reverse l)).

End Sorted.

(** Python's tuple and list order: the first component that differs decides. *)
Definition cmp_then (c1 c2 : comparison) : comparison :=
  match c1 with Eq => c2 | _ => c1 end.

Fixpoint list_compare {A} (cmp : A -> A -> comparison) (l1 l2 : list A) : comparison :=
  match l1, l2 with
  | [], [] => Eq
  | [], _ :: _ => Lt
  | _ :: _, [] => Gt
  | x :: l1', y :: l2' => cmp_then (cmp x y) (list_compare cmp l1' l2')
  end.

Definition is_lt (c : comparison) : bool :=
  match c with Lt => true | _ => false end.

(** ** Numbers

    Python's [int] is [Z]; a [float] or [Real] is an exact rational. *)

Definition Qlt_bool (a b : Q) : bool := negb (Qle_bool b a).
Definition Qmin_py (a b : Q) : Q := if Qlt_bool b a then b else a.
Definition Qmax_py (a b : Q) : Q := if Qlt_bool a b then b else a.
Definition Qsum (l : list Q) : Q := foldr Qplus 0%Q l.
Definition Zsum (l : list Z) : Z := foldr Z.add 0%Z l.

(** [int(x)] truncates towards zero. *)
Definition int_of_Q (q : Q) : Z := Z.quot (Qnum q) (Zpos (Qden q)).

(** [l[:n]] and [l[-n:]] for [n >= 0] as Python slices them. *)
Definition slice_to {A} (n : nat) (l : list A) : list A := take n l.
Definition slice_last {A} (n : nat) (l : list A) : list A := drop (length l - n) l.

(** ** Automation *)

Create HintDb ray discriminated.

(** Case analysis on a [result] that is bound in a hypothesis. *)
Ltac bind_inv H :=
  match type of H with
  | mbind _ ?r = Ok _ =>
      let E := fresh "E" in
      destruct r eqn:E; cbn [mbind result_bind] in H; [| discriminate H]
  end.

Ltac simpl_result :=
  repeat match goal with
  | H : Ok _ = Ok _ |- _ => injection H as H; subst
  | H : Ok _ = Err _ |- _ => discriminate H
  | H : Err _ = Ok _ |- _ => discriminate H
  | H : mbind _ _ = Ok _ |- _ => bind_inv H
  | H : (_, _) = (_, _) |- _ => injection H as H; subst
  end.

(** Unfolds the state monad's operations. *)
Tactic Notation "st_simpl" :=
  cbv beta iota zeta delta [mbind mret ST_bind ST_ret st_get st_gets st_put st_modify st_raise
                            st_lift st_try st_zoom result_bind result_ret].
Tactic Notation "st_simpl" "in" hyp(H) :=
  cbv beta iota zeta delta [mbind mret ST_bind ST_ret st_get st_gets st_put st_modify st_raise
                            st_lift st_try st_zoom result_bind result_ret] in H.

(** ** Generic lemmas *)

Section ResultLemmas.
Context {A B S : Type}.

Lemma foldM_app (f : S -> A -> result S) s l1 l2 :
  foldM f s (l1 ++ l2) = (s' ← foldM f s l1; foldM f s' l2).
Proof.
  revert s; induction l1 as [|x l1 IH]; intros s; [done|]. cbn.
  destruct (f s x); cbn; [apply IH | done].
Qed.

(** A loop invariant: it holds at the end when every step preserves it. *)
Lemma foldM_inv (P : S -> Prop) (f : S -> A -> result S) s l s' :
  foldM f s l = Ok s' -> P s ->
  (forall x t t', x ∈ l -> P t -> f t x = Ok t' -> P t') -> P s'.
Proof.
  revert s; induction l as [|x l IH]; intros s HF HP Hstep; cbn in HF; simpl_result; [done|].
  eapply IH; [eassumption| |].
  - eapply Hstep; [left | exact HP | eassumption].
  - intros y t t' Hy; apply Hstep; by right.
Qed.

(** A loop whose body never raises while the invariant holds does not raise. *)
Lemma foldM_ok (P : S -> Prop) (f : S -> A -> result S) s l :
  P s ->
  (forall x t, x ∈ l -> P t -> exists t', f t x = Ok t' /\ P t') ->
  exists s', foldM f s l = Ok s' /\ P s'.
Proof.
  revert s; induction l as [|x l IH]; intros s HP Hstep; cbn; [by exists s|].
  destruct (Hstep x s) as (t & Et & Ht); [left | done |].
  rewrite Et; cbn. apply IH; [done|]. intros y u Hy; apply Hstep; by right.
Qed.

Lemma mapM_r_length (f : A -> result B) l l' :
  mapM_r f l = Ok l' -> length l' = length l.
Proof.
  revert l'; induction l as [|x l IH]; intros l' H; cbn in H; simpl_result; [done|].
  cbn. by rewrite (IH a0).
Qed.

Lemma mapM_r_ok (f : A -> result B) l :
  (forall x, x ∈ l -> exists y, f x = Ok y) -> exists l', mapM_r f l = Ok l'.
Proof.
  induction l as [|x l IH]; intros H; cbn; [by eexists|].
  destruct (H x) as [y ->]; [left|]. cbn.
  destruct IH as [l' ->]; [intros; apply H; by right|]. cbn; eauto.
Qed.

Lemma mapM_r_Forall2 (f : A -> result B) l l' :
  mapM_r f l = Ok l' -> Forall2 (fun x y => f x = Ok y) l l'.
Proof.
  revert l'; induction l as [|x l IH]; intros l' H; cbn in H; simpl_result; constructor; eauto.
Qed.

End ResultLemmas.

(** A relation that every iteration establishes holds across a loop, whether
    or not it raises. *)
Lemma st_for_inv {S A} (R : S -> S -> Prop) (l : list A) (f : A -> ST S unit) s s' r :
  (forall s, R s s) -> (forall a b c, R a b -> R b c -> R a c) ->
  (forall x s s' r, x ∈ l -> f x s = (s', r) -> R s s') -> st_for l f s = (s', r) -> R s s'.
Proof.
  intros Hrefl Htrans. revert s. induction l as [|x l IH]; intros s Hstep H; cbn [st_for] in H; st_simpl in H.
  - injection H as <- <-. apply Hrefl.
  - destruct (f x s) as [s1 [u|e]] eqn:E.
    + eapply Htrans; [eapply Hstep; [left | exact E]|]. apply IH; [|done].
      intros y a b q Hy. apply Hstep. by right.
    + injection H as <- <-. eapply Hstep; [left | exact E].
Qed.

(** ** What a method leaves unchanged *)

(** The method keeps the observation [f] of the object, also when it raises. *)
Definition st_preserves {S X A} (f : S -> X) (m : ST S A) : Prop := forall s, f (m s).1 = f s.

Section Preserves.
Context {S X : Type} (f : S -> X).

Lemma preserves_ret {A} (a : A) : st_preserves f (mret a : ST S A).
Proof. by intros s. Qed.
Lemma preserves_get : st_preserves f (st_get (S := S)).
Proof. by intros s. Qed.
Lemma preserves_gets {A} (g : S -> A) : st_preserves f (st_gets g).
Proof. by intros s. Qed.
Lemma preserves_lift {A} (r : result A) : st_preserves f (st_lift r : ST S A).
Proof. by intros s. Qed.
Lemma preserves_raise {A} e : st_preserves f (st_raise e : ST S A).
Proof. by intros s. Qed.
Lemma preserves_modify g : (forall s, f (g s) = f s) -> st_preserves f (st_modify g).
Proof. intros H s. apply H. Qed.

Lemma preserves_bind {A B} (m : ST S A) (k : A -> ST S B) :
  st_preserves f m -> (forall a, st_preserves f (k a)) -> st_preserves f (m ≫= k).
Proof.
  intros Hm Hk s. st_simpl. specialize (Hm s). destruct (m s) as [s' [a|e]]; [|done].
  rewrite Hk. exact Hm.
Qed.

Lemma preserves_try {A} (m : ST S A) c h :
  st_preserves f m -> (forall e, st_preserves f (h e)) -> st_preserves f (st_try m c h).
Proof.
  intros Hm Hh s. st_simpl. specialize (Hm s). destruct (m s) as [s' [a|e]]; [done|].
  destruct (c e); [|done]. rewrite Hh. exact Hm.
Qed.

Lemma preserves_zoom {T A} (part : S -> T) (put : T -> S -> S) (m : ST T A) :
  (forall t s, f (put t s) = f s) -> st_preserves f (st_zoom part put m).
Proof. intros H s. st_simpl. destruct (m (part s)). apply H. Qed.

Lemma preserves_for {A} (l : list A) (k : A -> ST S unit) :
  (forall x, st_preserves f (k x)) -> st_preserves f (st_for l k).
Proof.
  intros H. induction l as [|x l IH]; cbn [st_for]; [apply preserves_ret|]. by apply preserves_bind.
Qed.

Lemma preserves_fold {A B} (l : list A) (k : B -> A -> ST S B) b :
  (forall b x, st_preserves f (k b x)) -> st_preserves f (st_fold k b l).
Proof.
  intros H. revert b. induction l as [|x l IH]; intros b; cbn [st_fold]; [apply preserves_ret|].
  apply preserves_bind; [done | intros; apply IH].
Qed.

End Preserves.

(** Proves [st_preserves] by following the structure of the method; the
    database [preserves] holds the methods it calls. *)
Create HintDb preserves.
Ltac preserves_step :=
  first [ solve [eauto with preserves nocore]
        | apply preserves_ret | apply preserves_get | apply preserves_gets | apply preserves_lift
        | apply preserves_raise
        | apply preserves_modify; intros ?; reflexivity
        | apply preserves_zoom; intros ? ?; reflexivity
        | apply preserves_try; [|intros ?]
        | apply preserves_for; intros ?
        | apply preserves_fold; intros ? ?
        | apply preserves_bind; [|intros ?]
        | match goal with
          | |- st_preserves _ (match ?x with _ => _ end) => destruct x
          | |- st_preserves _ (let _ := ?x in _) => cbv zeta
          end ].
Ltac preserves_tac := repeat preserves_step.

Section SortedLemmas.
Context {A : Type} (lt : A -> A -> bool).

Lemma py_insert_Permutation x l : py_insert lt x l ≡ₚ x :: l.
Proof.
  induction l as [|y l IH]; cbn; [done|].
  destruct (lt y x); [|done]. rewrite IH. apply Permutation_swap.
Qed.

Lemma py_sorted_Permutation l : py_sorted lt l ≡ₚ l.
Proof.
  induction l as [|x l IH]; cbn; [done|]. by rewrite py_insert_Permutation, IH.
Qed.

Lemma py_sorted_reverse_Permutation l : py_sorted_reverse lt l ≡ₚ l.
Proof.
  unfold py_sorted_reverse. by rewrite reverse_Permutation, py_sorted_Permutation, reverse_Permutation.
Qed.

Context (Htrans : forall x y z, lt y x = false -> lt z y = false -> lt z x = false).
Context (Hasym : forall x y, lt x y = true -> lt y x = false).

Lemma py_insert_sorted x l :
  StronglySorted (fun a b => lt b a = false) l ->
  StronglySorted (fun a b => lt b a = false) (py_insert lt x l).
Proof.
  induction l as [|y l IH]; cbn; intros H; [by repeat constructor|].
  apply StronglySorted_inv in H as [Hl Hy]. destruct (lt y x) eqn:E.
  - constructor; [by apply IH|].
    rewrite py_insert_Permutation. constructor; auto.
  - constructor; [by constructor|]. constructor; [done|].
    eapply Forall_impl; [exact Hy|]. eauto.
Qed.

Lemma py_sorted_sorted l : StronglySorted (fun a b => lt b a = false) (py_sorted lt l).
Proof. induction l; cbn; [constructor | by apply py_insert_sorted]. Qed.

Lemma StronglySorted_reverse (R : A -> A -> Prop) l :
  StronglySorted R l -> StronglySorted (fun a b => R b a) (reverse l).
Proof.
  induction 1 as [|x l Hl IH Hx]; [constructor|]. rewrite reverse_cons.
  apply StronglySorted_app_2; [|done | by repeat constructor].
  intros a b Ha Hb. apply list_elem_of_singleton in Hb as ->. rewrite elem_of_reverse in Ha.
  rewrite List.Forall_forall in Hx. apply Hx. by apply list_elem_of_In.
Qed.

Lemma py_sorted_reverse_sorted l : StronglySorted (fun a b => lt a b = false) (py_sorted_reverse lt l).
Proof. apply (StronglySorted_reverse (fun a b => lt b a = false)), py_sorted_sorted. Qed.

(** The head of the descending sort is a maximum. *)
Lemma py_sorted_reverse_head l x l' :
  py_sorted_reverse lt l = x :: l' -> forall y, y ∈ l -> lt x y = false.
Proof.
  intros H y Hy. assert (Hs := py_sorted_reverse_sorted l). rewrite H in Hs.
  apply StronglySorted_inv in Hs as [_ Hx]. rewrite <- (py_sorted_reverse_Permutation l), H in Hy.
  apply elem_of_cons in Hy as [->|Hy].
  - destruct (lt x x) eqn:Exx; [|done]. by rewrite (Hasym x x Exx) in Exx.
  - rewrite List.Forall_forall in Hx. apply Hx. by apply list_elem_of_In.
Qed.

End SortedLemmas.

Section FilterLemmas.
Context {A : Type} (P : A -> Prop) `{!forall x, Decision (P x)}.

Lemma filter_all l : Forall P l -> filter P l = l.
Proof. induction 1 as [|x l Hx _ IH]; [done|]. by rewrite filter_cons_True, IH. Qed.

Lemma filter_none l : Forall (fun x => ~ P x) l -> filter P l = [].
Proof. induction 1 as [|x l Hx _ IH]; [done|]. by rewrite filter_cons_False, IH. Qed.

End FilterLemmas.

Section NumLemmas.

Lemma Qlt_bool_iff a b : Qlt_bool a b = true <-> (a < b)%Q.
Proof.
  unfold Qlt_bool. rewrite negb_true_iff. split; intros H.
  - apply Qnot_le_lt. intros C. apply Qle_bool_iff in C. congruence.
  - destruct (Qle_bool b a) eqn:E; [|done]. apply Qle_bool_iff in E. lra.
Qed.

Lemma Qlt_bool_false a b : Qlt_bool a b = false <-> (b <= a)%Q.
Proof. unfold Qlt_bool. rewrite negb_false_iff. apply Qle_bool_iff. Qed.

Lemma Qle_bool_false a b : Qle_bool a b = false <-> (b < a)%Q.
Proof. rewrite <- Qlt_bool_iff. unfold Qlt_bool. by destruct (Qle_bool a b). Qed.

Lemma Zsum_app l1 l2 : Zsum (l1 ++ l2) = (Zsum l1 + Zsum l2)%Z.
Proof. unfold Zsum. induction l1; cbn; [done|]. rewrite IHl1. lia. Qed.

Lemma Zsum_cons x l : Zsum (x :: l) = (x + Zsum l)%Z.
Proof. done. Qed.

Lemma Zsum_nonneg l : Forall (fun z => 0 <= z)%Z l -> (0 <= Zsum l)%Z.
Proof. unfold Zsum. induction 1; cbn; lia. Qed.

Lemma Zsum_map_le {A} (f g : A -> Z) l :
  (forall x, x ∈ l -> f x <= g x)%Z -> (Zsum (map f l) <= Zsum (map g l))%Z.
Proof.
  unfold Zsum. induction l as [|x l IH]; intros H; cbn [map foldr]; [lia|].
  pose proof (H x ltac:(left)). specialize (IH (fun y Hy => H y ltac:(by right))). lia.
Qed.

Lemma Zsum_map_add {A} (f g : A -> Z) l :
  Zsum (map (fun x => f x + g x)%Z l) = (Zsum (map f l) + Zsum (map g l))%Z.
Proof. unfold Zsum. induction l as [|x l IH]; cbn [map foldr]; lia. Qed.

#[global] Instance Qsum_Permutation : Proper ((≡ₚ) ==> Qeq) Qsum.
Proof.
  intros l1 l2 H. unfold Qsum. induction H; cbn [foldr]; [done | rewrite IHPermutation; lra | lra | lra].
Qed.

Lemma Qsum_app l1 l2 : (Qsum (l1 ++ l2) == Qsum l1 + Qsum l2)%Q.
Proof. unfold Qsum. induction l1; cbn; [lra|]. rewrite IHl1. lra. Qed.

End NumLemmas.

(** Comparisons of rationals are decided by computation. *)
#[global] Instance Qle_decision (a b : Q) : Decision (a <= b)%Q.
Proof.
  refine (match Qle_bool a b as c return Qle_bool a b = c -> _ with
          | true => fun H => left (proj1 (Qle_bool_iff a b) H)
          | false => fun H => right _
          end eq_refl).
  intros C. apply Qle_bool_iff in C. congruence.
Defined.

#[global] Instance Qlt_decision (a b : Q) : Decision (a < b)%Q.
Proof.
  refine (match Qlt_bool a b as c return Qlt_bool a b = c -> _ with
          | true => fun H => left (proj1 (Qlt_bool_iff a b) H)
          | false => fun H => right _
          end eq_refl).
  intros C. apply Qlt_bool_iff in C. congruence.
Defined.

(** Closes a decidable goal about concrete values by evaluation. *)
Ltac by_compute := apply (bool_decide_unpack _); vm_compute; exact I.

#[export] Hint Resolve py_insert_Permutation py_sorted_Permutation
  py_sorted_reverse_Permutation : ray.

(** ** Strings *)

Lemma app_string_assoc (a b d : string) : (a +:+ b) +:+ d = a +:+ (b +:+ d).
Proof. induction a as [|x a IH]; [done|]. change (String x ((a +:+ b) +:+ d) = String x (a +:+ b +:+ d)). by rewrite IH. Qed.

Lemma app_string_nil (s : string) : s +:+ "" = s.
Proof. induction s as [|x s IH]; [done|]. change (String x (s +:+ "") = String x s). by rewrite IH. Qed.

Lemma app_string_length (a b : string) : String.length (a +:+ b) = (String.length a + String.length b)%nat.
Proof. induction a as [|x a IH]; [done|]. change (S (String.length (a +:+ b)) = S (String.length a + String.length b)). by rewrite IH. Qed.

Lemma app_string_inj_r (a b c : string) : a +:+ c = b +:+ c -> a = b.
Proof.
  revert b. induction a as [|x a IH]; intros [|y b] E; [done | | |].
  - exfalso. apply (f_equal String.length) in E. rewrite !app_string_length in E. cbn [String.length] in E. lia.
  - exfalso. apply (f_equal String.length) in E. rewrite !app_string_length in E. cbn [String.length] in E. lia.
  - injection E as -> E. f_equal. by apply IH.
Qed.
