(* ===== verification/PyDict.v ===== *)
(** Python's [dict]: an insertion-ordered association list without duplicate
    keys. Iteration follows insertion order, an assignment to an existing key
    keeps its place, and a deleted key that is set again goes to the end. *)

From Stdlib Require Import ZArith QArith Lqa Lia.
From stdpp Require Import base list strings option.
From S2P Require Import Prelude.

Abbreviation dict K V := (list (K * V)).

Section Dict.
Context {K V : Type} `{!EqDecision K}.
Implicit Types (d : dict K V) (k : K) (v : V).

(** [d.get(k)] *)
Fixpoint dget k d : option V :=
  match d with
  | [] => None
  | (k', v) :: d' => if decide (k = k') then Some v else dget k d'
  end.

(** [d.get(k, dflt)] *)
Definition dget_or k (dflt : V) d : V := default dflt (dget k d).

(** [d[k]], which raises [KeyError] *)
Definition dgetitem k d : result V := or_raise KeyError (dget k d).

(** [k in d] *)
Definition dmem k d : bool :=
  match dget k d with Some _ => true | None => false end.

(** [d[k] = v] *)
Fixpoint dset k v d : dict K V :=
  match d with
  | [] => [(k, v)]
  | (k', v') :: d' => if decide (k = k') then (k', v) :: d' else (k', v') :: dset k v d'
  end.

(** [d.pop(k, None)], and [del d[k]] when [k] is a key *)
Fixpoint ddel k d : dict K V :=
  match d with
  | [] => []
  | (k', v') :: d' => if decide (k = k') then d' else (k', v') :: ddel k d'
  end.

(** [del d[k]], which raises [KeyError] *)
Definition ddelitem k d : result (dict K V) :=
  if dmem k d then Ok (ddel k d) else Err KeyError.

Definition dkeys d : list K := d.*1.
Definition dvalues d : list V := d.*2.

(** [d1.update(d2)] *)
Definition dupdate d1 d2 : dict K V :=
  foldl (fun d kv => dset kv.1 kv.2 d) d1 d2.

(** [d.setdefault(k, v)], as a statement *)
Definition dsetdefault k v d : dict K V :=
  if dmem k d then d else dset k v d.

(** [d1 == d2]: the same keys with equal values, in any order *)
Definition deqb (eqb : V -> V -> bool) d1 d2 : bool :=
  (length d1 =? length d2)%nat &&
  forallb (fun kv => match dget kv.1 d2 with Some v => eqb kv.2 v | None => false end) d1.

(** What every Python dict satisfies: no key occurs twice. *)
Definition dwf d : Prop := NoDup (dkeys d).

End Dict.

#[global] Instance dwf_decision {K V} `{!EqDecision K} (d : dict K V) : Decision (dwf d).
Proof. unfold dwf. apply _. Defined.

(** [collections.defaultdict(int)]: reading [d[k]] creates the key. *)
Definition dincr {K} `{!EqDecision K} (k : K) (n : Z) (d : dict K Z) : dict K Z :=
  dset k (dget_or k 0%Z d + n)%Z d.

(** [sum(d.values())] *)
Definition dsum {K} (d : dict K Z) : Z := Zsum (dvalues d).

#[global] Arguments dget_or {K V _} k dflt d : simpl never.
#[global] Arguments dsum {K} d : simpl never.
#[global] Arguments dincr {K _} k n d : simpl never.
#[global] Arguments dkeys {K V} d : simpl never.
#[global] Arguments dwf {K V} d : simpl never.

Section DictLemmas.
Context {K V : Type} `{!EqDecision K}.
Implicit Types (d : dict K V) (k : K) (v : V).

Lemma dkeys_nil : dkeys (@nil (K * V)) = [].
Proof. done. Qed.

Lemma dkeys_cons k v d : dkeys ((k, v) :: d) = k :: dkeys d.
Proof. done. Qed.

Lemma dwf_cons k v d : dwf ((k, v) :: d) <-> (k ∉ dkeys d) /\ dwf d.
Proof. unfold dwf. rewrite dkeys_cons. apply list.NoDup_cons. Qed.


Lemma dget_dset_eq k v d : dget k (dset k v d) = Some v.
Proof.
  induction d as [|[k' v'] d IH]; cbn; [by rewrite decide_True|].
  case_decide; cbn; [by rewrite decide_True | by rewrite decide_False].
Qed.

Lemma dget_dset_ne k k' v d : k <> k' -> dget k' (dset k v d) = dget k' d.
Proof.
  intros Hne. induction d as [|[k2 v2] d IH]; cbn; [by rewrite decide_False|].
  destruct (decide (k = k2)); cbn; [|by rewrite IH].
  subst. by rewrite !decide_False.
Qed.

Lemma dget_dset k k' v d :
  dget k' (dset k v d) = if decide (k = k') then Some v else dget k' d.
Proof. case_decide; subst; [apply dget_dset_eq | by apply dget_dset_ne]. Qed.

Lemma dget_or_dset k k' v w d :
  dget_or k' w (dset k v d) = if decide (k = k') then v else dget_or k' w d.
Proof. unfold dget_or. rewrite dget_dset. by case_decide. Qed.

Lemma dget_or_nil k v : dget_or k v (@nil (K * V)) = v.
Proof. done. Qed.

Lemma dget_or_cons k k' v w d :
  dget_or k w ((k', v) :: d) = if decide (k = k') then v else dget_or k w d.
Proof. unfold dget_or. cbn. by case_decide. Qed.

Lemma dget_None k d : dget k d = None <-> k ∉ dkeys d.
Proof.
  induction d as [|[k' v'] d IH]; cbn.
  - split; [intros _; apply not_elem_of_nil | done].
  - rewrite dkeys_cons, not_elem_of_cons. case_decide; [naive_solver|]. rewrite IH. naive_solver.
Qed.

Lemma dget_elem k v d : dget k d = Some v -> (k, v) ∈ d.
Proof.
  induction d as [|[k' v'] d IH]; cbn; [done|].
  case_decide; [intros [= ->]; subst; left | right; auto].
Qed.

Lemma elem_dget k v d : dwf d -> (k, v) ∈ d -> dget k d = Some v.
Proof.
  induction d as [|[k' v'] d IH]; cbn; [by intros _ ?%elem_of_nil|].
  rewrite dwf_cons. intros [Hn Hd] Hin. apply elem_of_cons in Hin as [[= -> ->]|Hin].
  - by rewrite decide_True.
  - rewrite decide_False; [auto|]. intros ->. apply Hn.
    apply list_elem_of_fmap. by exists (k', v).
Qed.

Lemma dget_is_Some k d : is_Some (dget k d) <-> k ∈ dkeys d.
Proof.
  rewrite <- not_eq_None_Some, dget_None. split; [|naive_solver].
  intros H. destruct (decide (k ∈ dkeys d)); naive_solver.
Qed.

Lemma dmem_true k d : dmem k d = true <-> k ∈ dkeys d.
Proof. rewrite <- dget_is_Some. unfold dmem. destruct (dget k d); split; naive_solver. Qed.

Lemma dmem_false k d : dmem k d = false <-> k ∉ dkeys d.
Proof. rewrite <- dget_None. unfold dmem. destruct (dget k d); naive_solver. Qed.

Lemma dkeys_dset k v d :
  dkeys (dset k v d) = if decide (k ∈ dkeys d) then dkeys d else dkeys d ++ [k].
Proof.
  induction d as [|[k' v'] d IH]; cbn.
  { rewrite decide_False; [done | apply not_elem_of_nil]. }
  destruct (decide (k = k')) as [->|Hne]; cbn.
  { rewrite decide_True; [done | left]. }
  rewrite !dkeys_cons, IH.
  destruct (decide (k ∈ dkeys d)) as [Hi|Hi].
  - rewrite decide_True; [done | by right].
  - rewrite decide_False; [done|]. rewrite not_elem_of_cons. done.
Qed.

Lemma elem_dkeys_dset k k' v d : k' ∈ dkeys (dset k v d) <-> k' = k \/ k' ∈ dkeys d.
Proof.
  rewrite <- !dget_is_Some, dget_dset. case_decide; naive_solver.
Qed.

Lemma dwf_nil : dwf (@nil (K * V)).
Proof. constructor. Qed.

Lemma dwf_dset k v d : dwf d -> dwf (dset k v d).
Proof.
  unfold dwf. rewrite dkeys_dset. case_decide; [done|].
  intros Hd. apply list.NoDup_app. split; [done|]. split; [|apply NoDup_singleton].
  intros x Hx Hx'%list_elem_of_singleton. by subst.
Qed.

Lemma dget_ddel_ne k k' d : k <> k' -> dget k' (ddel k d) = dget k' d.
Proof.
  intros Hne. induction d as [|[k2 v2] d IH]; cbn; [done|].
  destruct (decide (k = k2)); cbn; [|by rewrite IH].
  subst. by rewrite decide_False.
Qed.

Lemma dkeys_ddel_subset k k' d : k' ∈ dkeys (ddel k d) -> k' ∈ dkeys d.
Proof.
  induction d as [|[k2 v2] d IH]; cbn; [done|].
  destruct (decide (k = k2)); cbn; rewrite !dkeys_cons, !elem_of_cons; naive_solver.
Qed.

Lemma dget_ddel_eq k d : dwf d -> dget k (ddel k d) = None.
Proof.
  induction d as [|[k2 v2] d IH]; cbn; [done|].
  rewrite dwf_cons. intros [Hn Hd]. case_decide; subst; cbn.
  - by apply dget_None.
  - rewrite decide_False by done. auto.
Qed.

Lemma dwf_ddel k d : dwf d -> dwf (ddel k d).
Proof.
  induction d as [|[k2 v2] d IH]; cbn; [done|].
  rewrite dwf_cons. intros [Hn Hd]. case_decide; cbn; [done|].
  rewrite dwf_cons. split; [|auto]. intros C. apply Hn. by eapply dkeys_ddel_subset.
Qed.

Lemma elem_dkeys_ddel k k' d : dwf d -> k' ∈ dkeys (ddel k d) <-> k' <> k /\ k' ∈ dkeys d.
Proof.
  intros Hwf. rewrite <- !dget_is_Some. destruct (decide (k' = k)) as [->|Hne].
  - rewrite dget_ddel_eq by done. split; [intros []|]; naive_solver.
  - rewrite dget_ddel_ne by done. naive_solver.
Qed.

Lemma ddel_length k d : k ∈ dkeys d -> length d = S (length (ddel k d)).
Proof.
  induction d as [|[k2 v2] d IH]; cbn; [by intros ?%elem_of_nil|].
  intros Hk. case_decide; [done|]. cbn. rewrite <- IH; [done|].
  apply elem_of_cons in Hk as [|]; [by subst | done].
Qed.

Lemma dwf_dupdate d1 d2 : dwf d1 -> dwf (dupdate d1 d2).
Proof.
  unfold dupdate. revert d1; induction d2 as [|[k v] d2 IH]; cbn; intros d1 H; [done|].
  by apply IH, dwf_dset.
Qed.

Lemma elem_dkeys_dupdate k d1 d2 :
  k ∈ dkeys (dupdate d1 d2) <-> k ∈ dkeys d1 \/ k ∈ dkeys d2.
Proof.
  unfold dupdate. revert d1; induction d2 as [|[k2 v2] d2 IH]; intros d1; cbn.
  - rewrite elem_of_nil. naive_solver.
  - rewrite IH, elem_dkeys_dset, dkeys_cons, elem_of_cons. naive_solver.
Qed.

Lemma dget_dupdate k d1 d2 :
  dwf d2 -> dget k (dupdate d1 d2) = match dget k d2 with Some v => Some v | None => dget k d1 end.
Proof.
  unfold dupdate. revert d1; induction d2 as [|[k2 v2] d2 IH]; intros d1; cbn; [done|].
  rewrite dwf_cons. intros [Hn Hd]. rewrite IH by done. rewrite dget_dset.
  destruct (decide (k = k2)) as [->|Hne].
  - rewrite (proj2 (dget_None k2 d2)) by done. by rewrite decide_True.
  - rewrite (decide_False (P := k2 = k)) by naive_solver. done.
Qed.

Lemma dget_app k d1 d2 :
  dget k (d1 ++ d2) = match dget k d1 with Some v => Some v | None => dget k d2 end.
Proof. induction d1 as [|[k' v'] d1 IH]; cbn; [done|]. by case_decide. Qed.

Lemma dset_fresh (k : K) (v : V) d : k ∉ dkeys d -> dset k v d = d ++ [(k, v)].
Proof.
  induction d as [|[k' v'] d IH]; intros Hk; [done|]. rewrite dkeys_cons, not_elem_of_cons in Hk. cbn.
  destruct Hk as [Hne Hk]. rewrite decide_False by done. by rewrite IH.
Qed.

Lemma dset_dset (k : K) (v w : V) d : dset k v (dset k w d) = dset k v d.
Proof.
  induction d as [|[k' x] d IH]; cbn; [by rewrite decide_True|].
  destruct (decide (k = k')) as [->|Hne]; cbn; [by rewrite decide_True|]. by rewrite decide_False, IH.
Qed.

Lemma dset_id (k : K) (v : V) d : dget k d = Some v -> dset k v d = d.
Proof.
  induction d as [|[k1 v1] d IH]; cbn; [done|]. destruct (decide (k = k1)) as [->|]; [by intros [= ->]|].
  intros H. by rewrite IH.
Qed.

Lemma ddel_fresh (k : K) d : k ∉ dkeys d -> ddel k d = d.
Proof.
  induction d as [|[k1 v1] d IH]; [done|]. rewrite dkeys_cons, not_elem_of_cons.
  intros [Hk Hd]. cbn.
  rewrite decide_False by done. by rewrite IH.
Qed.

Lemma dget_ddel (k k' : K) d : dwf d -> dget k' (ddel k d) = if decide (k = k') then None else dget k' d.
Proof. intros Hw. case_decide; subst; [by apply dget_ddel_eq | by apply dget_ddel_ne]. Qed.

Lemma ddel_dset_ne (k k' : K) (v : V) d :
  k <> k' -> ddel k (dset k' v d) = dset k' v (ddel k d).
Proof.
  intros Hne. induction d as [|[k1 v1] d IH]; [cbn; by rewrite decide_False|].
  destruct (decide (k' = k1)) as [->|Hk]; cbn [dset ddel].
  - rewrite (decide_True (P := k1 = k1)) by done. cbn [ddel]. rewrite !(decide_False (P := k = k1)) by done.
    cbn [dset]. by rewrite decide_True.
  - rewrite (decide_False (P := k' = k1)) by done. cbn [ddel]. destruct (decide (k = k1)) as [->|]; [done|].
    cbn [dset]. rewrite (decide_False (P := k' = k1)) by done. by rewrite IH.
Qed.

Lemma ddel_Permutation (k : K) (v : V) d :
  dget k d = Some v -> d ≡ₚ (k, v) :: ddel k d.
Proof.
  induction d as [|[k1 v1] d IH]; cbn; [done|]. destruct (decide (k = k1)) as [->|]; intros E.
  - by injection E as ->.
  - rewrite (IH E) at 1. apply Permutation_swap.
Qed.

(** [for k in l: del d[k]] *)
Lemma ddelitem_all (l : list K) (mp : dict K V) :
  dwf mp -> NoDup l -> (forall k0, k0 ∈ l -> k0 ∈ dkeys mp) ->
  exists mp', foldM (fun mp k0 => ddelitem k0 mp) mp l = Ok mp' /\ dwf mp' /\
    forall k0, dget k0 mp' = if decide (k0 ∈ l) then None else dget k0 mp.
Proof.
  revert mp. induction l as [|k l IH]; intros mp Hw Hn Hin; cbn [foldM].
  - exists mp. split_and!; [done..|]. intros k0. rewrite decide_False; [done | apply not_elem_of_nil].
  - apply list.NoDup_cons in Hn as [Hk Hn].
    assert (E : ddelitem k mp = Ok (ddel k mp)).
    { unfold ddelitem. rewrite (proj2 (dmem_true k mp)); [done | apply Hin; left]. }
    rewrite E. cbn [mbind result_bind].
    destruct (IH (ddel k mp)) as (mp' & -> & Hw' & Hg); [by apply dwf_ddel | done | |].
    { intros k0 Hk0. apply elem_dkeys_ddel; [done|]. split; [by intros ->|]. apply Hin. by right. }
    exists mp'. split_and!; [done..|]. intros k0. rewrite Hg.
    destruct (decide (k0 = k)) as [->|Hne].
    + rewrite dget_ddel_eq by done. destruct (decide (k ∈ k :: l)) as [|Hf]; [by case_decide|].
      destruct Hf. left.
    + rewrite dget_ddel_ne by done. destruct (decide (k0 ∈ l)).
      * rewrite decide_True; [done | by right].
      * rewrite decide_False; [done|]. rewrite not_elem_of_cons. done.
Qed.

(** [d[k] = v] for a list in which a key has one value *)
Lemma dget_dupdate_functional (l : list (K * V)) k v :
  (forall k v v', (k, v) ∈ l -> (k, v') ∈ l -> v = v') ->
  dget k (dupdate [] l) = Some v <-> (k, v) ∈ l.
Proof.
  unfold dupdate. induction l as [|[k0 v0] l IH] using rev_ind; intros Hf.
  - cbn. rewrite elem_of_nil. naive_solver.
  - rewrite foldl_app. cbn [foldl fst snd]. rewrite dget_dset, elem_of_app, list_elem_of_singleton.
    assert (dget k (foldl (fun d kv => dset kv.1 kv.2 d) [] l) = Some v <-> (k, v) ∈ l) as IH'.
    { apply IH. intros k1 v1 v2 H1 H2. eapply Hf; apply elem_of_app; by left. }
    case_decide as E.
    + subst. split; [intros [= ->]; by right|]. intros [H|[= ->]]; [|done]. f_equal.
      eapply Hf; apply elem_of_app; [right; by apply list_elem_of_singleton | by left].
    + rewrite IH'. naive_solver.
Qed.

End DictLemmas.

Section DictSum.
Context {K : Type} `{!EqDecision K}.
Implicit Types (d : dict K Z) (k : K).

Lemma dsum_nil : dsum (@nil (K * Z)) = 0%Z.
Proof. done. Qed.

Lemma dget_or_not_key k w d : k ∉ dkeys d -> dget_or k w d = w.
Proof. intros H. unfold dget_or. by rewrite (proj2 (dget_None k d)). Qed.

Lemma dget_or_nonneg k d : (forall k v, (k, v) ∈ d -> 0 <= v)%Z -> (0 <= dget_or k 0 d)%Z.
Proof.
  intros H. unfold dget_or. destruct (dget k d) as [v|] eqn:E; cbn; [|lia].
  apply dget_elem in E. eauto.
Qed.

Lemma dsum_cons k v d : dsum ((k, v) :: d) = (v + dsum d)%Z.
Proof. done. Qed.

Lemma dsum_dset k v d : dwf d -> dsum (dset k v d) = (dsum d - dget_or k 0 d + v)%Z.
Proof.
  unfold dget_or. induction d as [|[k' v'] d IH]; [unfold dsum; cbn; lia|].
  rewrite dwf_cons. intros [Hn Hd]. cbn [dset dget]. case_decide; rewrite !dsum_cons.
  - subst. cbn. lia.
  - rewrite IH by done. lia.
Qed.

Lemma dsum_dincr k n d : dwf d -> dsum (dincr k n d) = (dsum d + n)%Z.
Proof. intros H. unfold dincr. rewrite dsum_dset by done. lia. Qed.

Lemma dget_or_dincr k k' n d :
  dget_or k' 0%Z (dincr k n d) = (dget_or k' 0 d + if decide (k = k') then n else 0)%Z.
Proof. unfold dincr. rewrite dget_or_dset. case_decide; subst; lia. Qed.

Lemma dwf_dincr k n d : dwf d -> dwf (dincr k n d).
Proof. apply dwf_dset. Qed.

Lemma dsum_nonneg d : (forall k v, (k, v) ∈ d -> 0 <= v)%Z -> (0 <= dsum d)%Z.
Proof.
  intros H. apply Zsum_nonneg. apply list.Forall_forall. intros v Hv.
  apply list_elem_of_fmap in Hv as ([k w] & -> & Hin). eauto.
Qed.

End DictSum.

#[export] Hint Resolve dwf_nil dwf_dset dwf_ddel dwf_dincr dwf_dupdate : ray.
#[export] Hint Rewrite @dget_dset_eq @dget_dset @dget_or_dset @dget_or_dincr using done : ray.
