(* ===== verification/Resources.v ===== *)
(** Resource dictionaries: the helpers of [resource_demand_scheduler.py] and
    [load_metrics.py] that compare, subtract and add bundles of resources. *)

From Stdlib Require Import ZArith QArith Lqa Lia.
From stdpp Require Import base list strings option.
From S2P Require Import Prelude PyDict.

(** [ResourceDict = Dict[str, Real]] *)
Abbreviation ResourceDict := (dict string Q).

(** [r.get(k, 0.0)] *)
Definition rget (k : string) (r : ResourceDict) : Q := dget_or k 0%Q r.

(** [_fits(node, resources)] *)
Definition _fits (node resources : ResourceDict) : bool :=
  forallb (fun kv => negb (Qlt_bool (rget kv.1 node) kv.2)) resources.

(** The body of [_inplace_subtract]'s loop *)
Definition _subtract_one (node : ResourceDict) (kv : string * Q) : result ResourceDict :=
  let '(k, v) := kv in
  old ← or_raise AssertionError (dget k node);
  let new := (old - v)%Q in
  _ ← py_assert (Qle_bool 0 new);
  Ok (dset k new node).

(** [_inplace_subtract(node, resources)]: the node after the call *)
Definition _inplace_subtract (node resources : ResourceDict) : result ResourceDict :=
  foldM _subtract_one node resources.

(** [_inplace_add(a, b)] on counts by node type: [a] after the call *)
Definition _inplace_add (a b : dict string Z) : dict string Z :=
  foldl (fun a kv => dincr kv.1 kv.2 a) a b.

(** [add_resources(dict1, dict2)] *)
Definition add_resources (dict1 dict2 : ResourceDict) : ResourceDict :=
  foldl (fun d kv => dset kv.1 (kv.2 + rget kv.1 d)%Q d) dict1 dict2.

(** [d1 == d2] on resource dictionaries *)
Definition resources_eqb : ResourceDict -> ResourceDict -> bool := deqb Qeq_bool.

(** Every quantity of the bundle is positive. *)
Definition positive_demand (d : ResourceDict) : Prop :=
  Forall (fun kv => 0 < kv.2)%Q d.

(** Every quantity of the bundle is at least zero. *)
Definition nonneg_resources (d : ResourceDict) : Prop :=
  Forall (fun kv => 0 <= kv.2)%Q d.

(** The bundle only names resources of the node. *)
Definition names_within (d node : ResourceDict) : Prop :=
  forall k, k ∈ dkeys d -> k ∈ dkeys node.

#[global] Arguments rget k r : simpl never.

#[global] Instance positive_demand_decision d : Decision (positive_demand d).
Proof. unfold positive_demand. apply _. Defined.

#[global] Instance nonneg_resources_decision d : Decision (nonneg_resources d).
Proof. unfold nonneg_resources. apply _. Defined.

Section Lemmas.
Implicit Types (node d r : ResourceDict).

Lemma rget_dset k k' v r :
  rget k' (dset k v r) = if decide (k = k') then v else rget k' r.
Proof. apply dget_or_dset. Qed.

Lemma rget_not_key k r : k ∉ dkeys r -> rget k r = 0%Q.
Proof. intros H. unfold rget, dget_or. by rewrite (proj2 (dget_None k r)). Qed.

Lemma rget_cons k k' v r :
  rget k ((k', v) :: r) = if decide (k = k') then v else rget k r.
Proof. unfold rget, dget_or. cbn. by case_decide. Qed.

Lemma rget_elem k v r : dwf r -> (k, v) ∈ r -> rget k r = v.
Proof. intros Hwf Hin. unfold rget, dget_or. by rewrite (elem_dget k v r). Qed.

Lemma fits_spec node d :
  _fits node d = true <-> forall k v, (k, v) ∈ d -> (v <= rget k node)%Q.
Proof.
  unfold _fits. rewrite <- Is_true_true, forallb_True, list.Forall_forall. split; intros H.
  - intros k v Hin. specialize (H (k, v) Hin). cbn in H.
    rewrite Is_true_true, negb_true_iff, Qlt_bool_false in H. done.
  - intros [k v] Hin. cbn. rewrite Is_true_true, negb_true_iff, Qlt_bool_false. auto.
Qed.

Lemma nonneg_rget d k : nonneg_resources d -> (0 <= rget k d)%Q.
Proof.
  intros H. unfold rget, dget_or. destruct (dget k d) as [v|] eqn:E; cbn; [|lra].
  apply dget_elem in E. unfold nonneg_resources in H. rewrite list.Forall_forall in H. exact (H _ E).
Qed.

Lemma positive_nonneg d : positive_demand d -> nonneg_resources d.
Proof. apply Forall_impl. intros [k v]; cbn; lra. Qed.

(** A bundle that fits, on a node with non-negative amounts, fits pointwise. *)
Lemma fits_rget node d :
  dwf d -> nonneg_resources node -> _fits node d = true -> forall k, (rget k d <= rget k node)%Q.
Proof.
  intros Hwf Hn Hf k. unfold rget at 1, dget_or. destruct (dget k d) as [v|] eqn:E; cbn.
  - rewrite fits_spec in Hf. apply Hf. by apply dget_elem.
  - by apply nonneg_rget.
Qed.

(** A smaller node fits fewer bundles. *)
Lemma fits_mono node node' d :
  (forall k, rget k node' <= rget k node)%Q -> _fits node' d = true -> _fits node d = true.
Proof.
  intros Hle. rewrite !fits_spec. intros H k v Hin.
  specialize (H k v Hin). specialize (Hle k). lra.
Qed.

(** Positive bundles that fit only name resources of the node. *)
Lemma fits_positive_within node d :
  positive_demand d -> _fits node d = true -> names_within d node.
Proof.
  intros Hp Hf k Hk. apply list_elem_of_fmap in Hk as ([k' v] & -> & Hin). cbn.
  rewrite fits_spec in Hf. specialize (Hf k' v Hin).
  unfold positive_demand in Hp. rewrite list.Forall_forall in Hp. specialize (Hp _ Hin). cbn in Hp.
  destruct (decide (k' ∈ dkeys node)) as [|Hn]; [done|].
  rewrite (rget_not_key k' node Hn) in Hf. lra.
Qed.

Lemma subtract_one_ok node k v :
  k ∈ dkeys node -> (v <= rget k node)%Q ->
  _subtract_one node (k, v) = Ok (dset k (rget k node - v)%Q node).
Proof.
  intros Hk Hv. unfold _subtract_one, rget, dget_or in *.
  apply dget_is_Some in Hk as [w Hw]. rewrite Hw in *. cbn in *.
  replace (Qle_bool 0 (w - v)) with true; [done|].
  symmetry. apply Qle_bool_iff. lra.
Qed.

Lemma subtract_one_inv node k v node' :
  _subtract_one node (k, v) = Ok node' ->
  k ∈ dkeys node /\ (0 <= rget k node - v)%Q /\ node' = dset k (rget k node - v)%Q node.
Proof.
  unfold _subtract_one, rget, dget_or.
  destruct (dget k node) as [w|] eqn:E; cbn; [|done].
  destruct (Qle_bool 0 (w - v)) eqn:Eq; cbn; [|done]. intros [= <-].
  split; [apply dget_is_Some; by eexists|]. split; [by apply Qle_bool_iff | done].
Qed.

(** [_inplace_subtract] succeeds on a bundle that fits and only names
    resources of the node. *)
Lemma subtract_ok node d :
  dwf d -> _fits node d = true -> names_within d node ->
  exists node', _inplace_subtract node d = Ok node'.
Proof.
  unfold _inplace_subtract. revert node.
  induction d as [|[k v] d IH]; intros node Hwf Hf Hin; [by eexists|].
  rewrite dwf_cons in Hwf. destruct Hwf as [Hk Hwf].
  cbn [foldM]. rewrite subtract_one_ok; cbn [mbind result_bind].
  - apply IH; [done| |].
    + rewrite fits_spec in *. intros k' v' Hin'.
      rewrite rget_dset, decide_False; [apply Hf; by right|].
      intros <-. apply Hk. apply list_elem_of_fmap. by exists (k, v').
    + intros k' Hk'. apply elem_dkeys_dset. right. apply Hin.
      rewrite dkeys_cons, elem_of_cons. by right.
  - apply Hin. rewrite dkeys_cons. left.
  - rewrite fits_spec in Hf. apply Hf. left.
Qed.

(** What [_inplace_subtract] leaves: the same keys, each reduced by the
    bundle's amount, and no touched amount below zero. *)
Lemma subtract_spec node d node' :
  dwf d -> _inplace_subtract node d = Ok node' ->
  dkeys node' = dkeys node /\ names_within d node /\
  (forall k, rget k node' == rget k node - rget k d)%Q.
Proof.
  unfold _inplace_subtract. revert node.
  induction d as [|[k v] d IH]; intros node Hwf H; cbn [foldM] in H.
  { simpl_result. split; [done|]. split; [by intros k Hk; apply elem_of_nil in Hk|].
    intros k. rewrite (rget_not_key k []) by apply not_elem_of_nil. lra. }
  rewrite dwf_cons in Hwf. destruct Hwf as [Hk Hwf].
  destruct (_subtract_one node (k, v)) as [n1|] eqn:E; cbn [mbind result_bind] in H; [|done].
  apply subtract_one_inv in E as (Hkn & Hge & ->).
  apply IH in H as (Hkeys & Hin & Hget); [|done].
  assert (Hkk : dkeys (dset k (rget k node - v)%Q node) = dkeys node).
  { rewrite dkeys_dset. by rewrite decide_True. }
  rewrite Hkk in Hkeys. split; [done|]. split.
  - intros k' Hk'. rewrite dkeys_cons, elem_of_cons in Hk'. destruct Hk' as [->|Hk']; [done|].
    rewrite <- Hkk. by apply Hin.
  - intros k'. rewrite Hget, rget_dset, rget_cons.
    destruct (decide (k = k')) as [<-|Hne].
    + rewrite decide_True by done. rewrite (rget_not_key k d Hk). lra.
    + rewrite decide_False by naive_solver. lra.
Qed.

(** The only exception [_inplace_subtract] raises is a failed assertion. *)
Lemma subtract_err node d e : _inplace_subtract node d = Err e -> e = AssertionError.
Proof.
  unfold _inplace_subtract. revert node.
  induction d as [|[k v] d IH]; intros node; cbn [foldM]; [done|].
  destruct (_subtract_one node (k, v)) as [n|e'] eqn:E; cbn [mbind result_bind]; [apply IH|].
  intros [= ->]. unfold _subtract_one in E. destruct (dget k node) as [w|]; cbn in E; [|congruence].
  destruct (Qle_bool 0 (w - v)); cbn in E; congruence.
Qed.

Lemma subtract_nonneg node d node' :
  nonneg_resources node -> _inplace_subtract node d = Ok node' -> nonneg_resources node'.
Proof.
  intros Hn H. eapply (foldM_inv nonneg_resources); [exact H | exact Hn |].
  intros [k v] t t' _ Ht E. apply subtract_one_inv in E as (_ & Hge & ->).
  clear -Ht Hge. revert Hge. generalize (rget k t - v)%Q. intros q Hq.
  induction t as [|[k2 v2] t IH]; cbn; [by repeat constructor|].
  inversion Ht; subst. case_decide; constructor; auto. by apply IH.
Qed.

Lemma inplace_add_get a b k :
  dwf b -> dget_or k 0%Z (_inplace_add a b) = (dget_or k 0 a + dget_or k 0 b)%Z.
Proof.
  unfold _inplace_add. revert a. induction b as [|[k' v] b IH]; intros a Hb; cbn [foldl fst snd].
  - rewrite dget_or_nil. lia.
  - rewrite dwf_cons in Hb. destruct Hb as [Hk Hb]. rewrite IH by done.
    rewrite dget_or_dincr, dget_or_cons.
    destruct (decide (k' = k)) as [<-|Hne].
    + rewrite decide_True by done. rewrite (dget_or_not_key k' 0%Z b) by done. lia.
    + rewrite decide_False by naive_solver. lia.
Qed.

Lemma inplace_add_wf a b : dwf a -> dwf (_inplace_add a b).
Proof.
  unfold _inplace_add. revert a. induction b as [|[k v] b IH]; intros a Ha; cbn; [done|].
  apply IH. by apply dwf_dincr.
Qed.

Lemma inplace_add_sum a b : dwf a -> dsum (_inplace_add a b) = (dsum a + dsum b)%Z.
Proof.
  unfold _inplace_add. revert a. induction b as [|[k v] b IH]; intros a Ha; cbn [foldl fst snd].
  - rewrite dsum_nil. lia.
  - rewrite IH by (by apply dwf_dincr). rewrite dsum_dincr, dsum_cons by done. lia.
Qed.

Lemma inplace_add_keys a b k :
  k ∈ dkeys (_inplace_add a b) <-> k ∈ dkeys a \/ k ∈ dkeys b.
Proof.
  unfold _inplace_add. revert a. induction b as [|[k' v] b IH]; intros a; cbn [foldl fst snd].
  - rewrite dkeys_nil, elem_of_nil. naive_solver.
  - rewrite IH. unfold dincr. rewrite elem_dkeys_dset, dkeys_cons, elem_of_cons. naive_solver.
Qed.

Lemma add_resources_get d1 d2 k :
  dwf d2 -> (rget k (add_resources d1 d2) == rget k d1 + rget k d2)%Q.
Proof.
  unfold add_resources. revert d1. induction d2 as [|[k' v] d2 IH]; intros d1 Hwf; cbn [foldl fst snd].
  - rewrite (rget_not_key k []) by apply not_elem_of_nil. lra.
  - rewrite dwf_cons in Hwf. destruct Hwf as [Hk Hwf]. rewrite IH by done.
    rewrite rget_dset, rget_cons. destruct (decide (k' = k)) as [<-|Hne].
    + rewrite decide_True by done. rewrite (rget_not_key k' d2 Hk). lra.
    + rewrite decide_False by naive_solver. lra.
Qed.

Lemma add_resources_keys d1 d2 k :
  k ∈ dkeys (add_resources d1 d2) <-> k ∈ dkeys d1 \/ k ∈ dkeys d2.
Proof.
  unfold add_resources. revert d1. induction d2 as [|[k' v] d2 IH]; intros d1; cbn [foldl fst snd].
  - rewrite dkeys_nil, elem_of_nil. naive_solver.
  - rewrite IH. rewrite elem_dkeys_dset, dkeys_cons, elem_of_cons. naive_solver.
Qed.

Lemma add_resources_wf d1 d2 : dwf d1 -> dwf (add_resources d1 d2).
Proof.
  unfold add_resources. revert d1. induction d2 as [|[k v] d2 IH]; intros d1 H; cbn; [done|].
  apply IH. by apply dwf_dset.
Qed.

End Lemmas.

#[export] Hint Resolve inplace_add_wf add_resources_wf positive_nonneg : ray.
