(* ===== verification/NodeTypes.v ===== *)
(** YAML values and the entries of a cluster config's [available_node_types]. *)

From Stdlib Require Import ZArith QArith Lqa Lia.
From stdpp Require Import base list strings option.
From S2P Require Import Prelude PyDict Resources.

(** A parsed YAML or JSON value *)
Inductive yaml : Type :=
| YNull
| YBool (b : bool)
| YNum (q : Q)
| YStr (s : string)
| YList (l : list yaml)
| YDict (d : list (string * yaml)).

(** [a == b] on such values: dicts compare without regard to order *)
Fixpoint yaml_eqb (a b : yaml) {struct a} : bool :=
  match a, b with
  | YNull, YNull => true
  | YBool x, YBool y => Bool.eqb x y
  | YNum x, YNum y => Qeq_bool x y
  | YStr x, YStr y => String.eqb x y
  | YList l1, YList l2 =>
      (fix go (l1 l2 : list yaml) : bool :=
         match l1, l2 with
         | [], [] => true
         | x :: l1', y :: l2' => yaml_eqb x y && go l1' l2'
         | _, _ => false
         end) l1 l2
  | YDict d1, YDict d2 =>
      (length d1 =? length d2)%nat &&
      (fix go (d1 : list (string * yaml)) : bool :=
         match d1 with
         | [] => true
         | (k, x) :: d1' =>
             match dget k d2 with
             | Some y => yaml_eqb x y
             | None => false
             end && go d1'
         end) d1
  | _, _ => false
  end.

(** One entry of [available_node_types]. A field that the entry does not
    have is [None]; the fields the autoscaler core does not read are kept in
    [ntc_other]. *)
Record NodeTypeConfig : Type := mkNodeType {
  ntc_resources : option ResourceDict;
  ntc_min_workers : option Z;
  ntc_max_workers : option Z;
  ntc_node_config : option yaml;
  ntc_other : dict string yaml
}.

(** [config["resources"]] *)
Definition cfg_resources (c : NodeTypeConfig) : result ResourceDict :=
  or_raise KeyError (ntc_resources c).

(** [config.get("min_workers", 0)] *)
Definition cfg_min_workers (c : NodeTypeConfig) : Z := default 0%Z (ntc_min_workers c).

(** [config.get("max_workers", 0)] *)
Definition cfg_max_workers (c : NodeTypeConfig) : Z := default 0%Z (ntc_max_workers c).

(** [config["resources"] = r] *)
Definition set_resources (r : ResourceDict) (c : NodeTypeConfig) : NodeTypeConfig :=
  mkNodeType (Some r) (ntc_min_workers c) (ntc_max_workers c) (ntc_node_config c) (ntc_other c).

(** [del config["resources"]] *)
Definition del_resources (c : NodeTypeConfig) : NodeTypeConfig :=
  mkNodeType None (ntc_min_workers c) (ntc_max_workers c) (ntc_node_config c) (ntc_other c).

(** [c1.update(c2)] *)
Definition update_config (c1 c2 : NodeTypeConfig) : NodeTypeConfig :=
  let pick {A} (x y : option A) := match y with Some _ => y | None => x end in
  mkNodeType (pick (ntc_resources c1) (ntc_resources c2))
             (pick (ntc_min_workers c1) (ntc_min_workers c2))
             (pick (ntc_max_workers c1) (ntc_max_workers c2))
             (pick (ntc_node_config c1) (ntc_node_config c2))
             (dupdate (ntc_other c1) (ntc_other c2)).

Abbreviation NodeTypes := (dict string NodeTypeConfig).

(** The two node types that are filled in for a legacy cluster config
    ([ray/autoscaler/tags.py]). *)
Definition NODE_TYPE_LEGACY_HEAD : string := "ray-legacy-head-node-type".
Definition NODE_TYPE_LEGACY_WORKER : string := "ray-legacy-worker-node-type".
