(* ===== verification/BinPacking.v ===== *)
(** The bin packing core of [resource_demand_scheduler.py]:
    [get_bin_pack_residual], what a packing is, and that the function
    computes one. *)

From Stdlib Require Import ZArith QArith Lqa Lia.
From stdpp Require Import base list strings option.
From S2P Require Import Prelude PyDict Resources.

(** ** [get_bin_pack_residual] *)

(** Tuple order on [(key, value)] items *)
Definition item_compare (a b : string * Q) : comparison :=
  cmp_then (String.compare a.1 b.1) (Qcompare a.2 b.2).

(** [sorted(demand.items())] *)
Definition sorted_items (d : ResourceDict) : list (string * Q) :=
  py_sorted (fun a b => is_lt (item_compare a b)) d.

(** Tuple order on the sort key
    [(len(demand.values()), sum(demand.values()), sorted(demand.items()))] *)
Definition demand_compare (d1 d2 : ResourceDict) : comparison :=
  cmp_then (Nat.compare (length (dvalues d1)) (length (dvalues d2)))
    (cmp_then (Qcompare (Qsum (dvalues d1)) (Qsum (dvalues d2)))
      (list_compare item_compare (sorted_items d1) (sorted_items d2))).

(** [sorted(resource_demands, key=..., reverse=True)] *)
Definition sort_demands (ds : list ResourceDict) : list ResourceDict :=
  py_sorted_reverse (fun d1 d2 => is_lt (demand_compare d1 d2)) ds.

(** The first node the demand fits on, with its index *)
Fixpoint find_fit (demand : ResourceDict) (nodes : list ResourceDict) : option (nat * ResourceDict) :=
  match nodes with
  | [] => None
  | n :: nodes' =>
      if _fits n demand then Some (0%nat, n)
      else match find_fit demand nodes' with
           | Some (i, m) => Some (S i, m)
           | None => None
           end
  end.

Record pack_state : Type := mkPack {
  unfulfilled : list ResourceDict;
  nodes : list ResourceDict;
  used : list ResourceDict
}.

(** The body of the loop over the sorted demands. An empty node dict is
    falsy, so a demand found to fit on one counts as unfulfilled. *)
Definition pack_one (strict_spread : bool) (s : pack_state) (demand : ResourceDict) : result pack_state :=
  match find_fit demand (nodes s) with
  | None => Ok (mkPack (unfulfilled s ++ [demand]) (nodes s) (used s))
  | Some (i, node) =>
      match node with
      | [] =>
          Ok (mkPack (unfulfilled s ++ [demand])
                (if strict_spread then delete i (nodes s) else nodes s)
                (if strict_spread then used s ++ [node] else used s))
      | _ :: _ =>
          node' ← _inplace_subtract node demand;
          Ok (mkPack (unfulfilled s)
                (if strict_spread then delete i (nodes s) else <[i := node']> (nodes s))
                (if strict_spread then used s ++ [node'] else used s))
      end
  end.

Definition get_bin_pack_residual (node_resources resource_demands : list ResourceDict)
    (strict_spread : bool) : result (list ResourceDict * list ResourceDict) :=
  s ← foldM (pack_one strict_spread) (mkPack [] node_resources []) (sort_demands resource_demands);
  Ok (unfulfilled s, nodes s ++ used s).

(** ** What a packing is

    [placed] pairs every fulfilled demand with the index of the node that
    holds it; [order] lists the nodes' indices in the order in which the
    updated node list returns them. *)

(** The amount of resource [k] that is placed on node [i] *)
Definition load (placed : list (nat * ResourceDict)) (i : nat) (k : string) : Q :=
  Qsum (map (fun p => if decide (p.1 = i) then rget k p.2 else 0%Q) placed).

(** Node [n] is what is left of node [i] of [caps]: the same resources, none
    below zero, each reduced by the node's load *)
Definition residual_of (caps : list ResourceDict) (placed : list (nat * ResourceDict))
    (i : nat) (n : ResourceDict) : Prop :=
  exists c, caps !! i = Some c /\ dkeys n = dkeys c /\ nonneg_resources n /\
    forall k, (rget k n == rget k c - load placed i k)%Q.

Record packing (strict : bool) (caps demands unf final : list ResourceDict)
    (placed : list (nat * ResourceDict)) (order : list nat) : Prop := mkPacking {
  pk_demands : placed.*2 ++ unf ≡ₚ demands;
  pk_range : Forall (fun p => p.1 < length caps)%nat placed;
  pk_order : order ≡ₚ seq 0 (length caps);
  pk_final : Forall2 (residual_of caps placed) order final;
  pk_spread : strict = true -> NoDup placed.*1;
  pk_in_place : strict = false -> order = seq 0 (length caps)
}.

(** The demands the autoscaler receives: Python dicts whose amounts are
    positive *)
Definition ok_demand (d : ResourceDict) : Prop := dwf d /\ positive_demand d.

#[global] Instance ok_demand_decision d : Decision (ok_demand d).
Proof. unfold ok_demand. apply _. Defined.

Section PackProofs.
Implicit Types (d n : ResourceDict) (s : pack_state).

Lemma load_app p1 p2 i k : (load (p1 ++ p2) i k == load p1 i k + load p2 i k)%Q.
Proof. unfold load. by rewrite map_app, Qsum_app. Qed.

Lemma load_one i d j k : (load [(i, d)] j k == if decide (i = j) then rget k d else 0)%Q.
Proof. unfold load, Qsum. cbn [map foldr fst snd]. case_decide; lra. Qed.

Lemma load_nonneg placed i k :
  Forall (fun p => nonneg_resources p.2) placed -> (0 <= load placed i k)%Q.
Proof.
  unfold load, Qsum. induction 1 as [|[j d] placed Hd _ IH]; cbn [map foldr fst snd]; [lra|].
  cbn in Hd. case_decide; [pose proof (nonneg_rget d k Hd)|]; lra.
Qed.

Lemma find_fit_Some d ns i n :
  find_fit d ns = Some (i, n) -> ns !! i = Some n /\ _fits n d = true.
Proof.
  revert i; induction ns as [|m ns IH]; intros i; cbn; [done|].
  destruct (_fits m d) eqn:E; [by intros [= <- <-]|].
  destruct (find_fit d ns) as [[j x]|]; [|done]. intros [= <- <-]. cbn. by apply IH.
Qed.

Lemma find_fit_None d ns : find_fit d ns = None -> Forall (fun n => _fits n d = false) ns.
Proof.
  induction ns as [|m ns IH]; cbn; [constructor|].
  destruct (_fits m d) eqn:E; [done|].
  destruct (find_fit d ns) as [[j x]|]; [done|]. intros _. constructor; auto.
Qed.

Lemma residual_of_other caps placed i j d n :
  i <> j -> residual_of caps placed i n -> residual_of caps (placed ++ [(j, d)]) i n.
Proof.
  intros Hne (c & Hc & Hk & Hnn & Hget). exists c. split_and!; try done.
  intros k. rewrite Hget, load_app, load_one, decide_False by done. lra.
Qed.

Lemma residual_of_placed caps placed i d n n' :
  dwf d -> residual_of caps placed i n -> _inplace_subtract n d = Ok n' ->
  residual_of caps (placed ++ [(i, d)]) i n'.
Proof.
  intros Hwf (c & Hc & Hk & Hnn & Hget) Hs.
  pose proof (subtract_spec n d n' Hwf Hs) as (Hk' & _ & Hget').
  exists c. split_and!; [done | congruence | by eapply subtract_nonneg |].
  intros k. rewrite Hget', Hget, load_app, load_one, decide_True by done. lra.
Qed.

Lemma Forall2_other caps placed j d js ns :
  j ∉ js -> Forall2 (residual_of caps placed) js ns ->
  Forall2 (residual_of caps (placed ++ [(j, d)])) js ns.
Proof.
  intros Hj HF. induction HF as [|i n js ns Hi _ IH]; [constructor|].
  rewrite not_elem_of_cons in Hj. destruct Hj as [Hne Hj].
  constructor; [apply residual_of_other; [naive_solver | done] | by apply IH].
Qed.

(** The loop's invariant after the demands [done] *)
Record pack_inv (strict : bool) (caps done : list ResourceDict) (s : pack_state)
    (placed : list (nat * ResourceDict)) (order uorder : list nat) : Prop := mkInv {
  pi_demands : placed.*2 ++ unfulfilled s ≡ₚ done;
  pi_range : Forall (fun p => p.1 < length caps)%nat placed;
  pi_order : order ++ uorder ≡ₚ seq 0 (length caps);
  pi_nodes : Forall2 (residual_of caps placed) order (nodes s);
  pi_used : Forall2 (residual_of caps placed) uorder (used s);
  pi_spread : strict = true -> NoDup placed.*1 /\ forall i, i ∈ placed.*1 -> i ∈ uorder;
  pi_in_place : strict = false -> order = seq 0 (length caps) /\ uorder = []
}.

Lemma pack_inv_init strict caps :
  Forall nonneg_resources caps ->
  pack_inv strict caps [] (mkPack [] caps []) [] (seq 0 (length caps)) [].
Proof.
  intros Hc. split; cbn; try done.
  - by rewrite app_nil_r.
  - apply Forall2_same_length_lookup_2; [by rewrite length_seq|].
    intros i j n Hi Hn. apply lookup_seq in Hi as [-> Hi]. exists n. cbn.
    split_and!; [done | done | | intros k; unfold load; cbn; lra].
    by eapply Forall_lookup_1 in Hc.
  - intros _. split; [constructor|]. by intros i ?%elem_of_nil.
Qed.

Lemma NoDup_order (caps : list ResourceDict) (order uorder : list nat) :
  order ++ uorder ≡ₚ seq 0 (length caps) -> NoDup (order ++ uorder).
Proof. intros ->. apply NoDup_ListNoDup, seq_NoDup. Qed.

Lemma delete_Permutation_snoc (l l2 : list nat) j i :
  l !! j = Some i -> delete j l ++ (l2 ++ [i]) ≡ₚ l ++ l2.
Proof.
  intros Hj. pose proof (delete_Permutation l j i Hj) as Hp.
  rewrite app_assoc, (Permutation_app_comm _ [i]). cbn.
  by rewrite (Permutation_app_tail l2 Hp).
Qed.

Lemma Forall2_delete {A B} (P : A -> B -> Prop) l k i :
  Forall2 P l k -> Forall2 P (delete i l) (delete i k).
Proof.
  intros H; revert i; induction H as [|x y l k Hxy H IH]; intros [|i]; cbn; auto.
Qed.

Lemma unfulfilled_step strict caps done s placed order uorder d :
  pack_inv strict caps done s placed order uorder ->
  pack_inv strict caps (done ++ [d]) (mkPack (unfulfilled s ++ [d]) (nodes s) (used s))
    placed order uorder.
Proof.
  intros [Hd Hr Ho Hn Hu Hs Hp]. split; cbn; try done. by rewrite app_assoc, Hd.
Qed.

Lemma placed_step_in_place caps done s placed order uorder d i n n' :
  pack_inv false caps done s placed order uorder -> dwf d ->
  nodes s !! i = Some n -> _inplace_subtract n d = Ok n' ->
  pack_inv false caps (done ++ [d]) (mkPack (unfulfilled s) (<[i := n']> (nodes s)) (used s))
    (placed ++ [(i, d)]) order uorder.
Proof.
  intros [Hd Hr Ho Hn Hu Hs Hp] Hwf Hi Hsub. destruct (Hp eq_refl) as [-> ->].
  split; cbn; try done.
  - rewrite fmap_app. cbn. rewrite <- Hd, <- !app_assoc. apply Permutation_app; [done|].
    apply Permutation_app_comm.
  - apply Forall_app. split; [done|]. repeat constructor. cbn.
    apply Forall2_length in Hn. rewrite length_seq in Hn. rewrite Hn. by eapply lookup_lt_Some.
  - apply Forall2_same_length_lookup_2.
    { rewrite length_insert. by apply Forall2_length in Hn. }
    intros j k m Hj Hm. pose proof Hj as Hj'. apply lookup_seq in Hj as [-> Hlt].
    destruct (decide (i = j)) as [->|Hne].
    + rewrite list_lookup_insert_eq in Hm by (by eapply lookup_lt_Some).
      injection Hm as <-. eapply residual_of_placed; [done| |done].
      exact (Forall2_lookup_lr _ _ _ _ _ _ Hn Hj' Hi).
    + rewrite list_lookup_insert_ne in Hm by done.
      apply residual_of_other; [cbn; naive_solver|]. exact (Forall2_lookup_lr _ _ _ _ _ _ Hn Hj' Hm).
  - apply Forall2_nil_inv_l in Hu. rewrite Hu. constructor.
Qed.

Lemma placed_step_spread caps done s placed order uorder d i n n' :
  pack_inv true caps done s placed order uorder -> dwf d ->
  nodes s !! i = Some n -> _inplace_subtract n d = Ok n' ->
  exists j uorder', pack_inv true caps (done ++ [d])
    (mkPack (unfulfilled s) (delete i (nodes s)) (used s ++ [n']))
    (placed ++ [(j, d)]) (delete i order) uorder'.
Proof.
  intros [Hd Hr Ho Hn Hu Hs Hp] Hwf Hi Hsub.
  destruct (Forall2_lookup_r _ _ _ i n Hn Hi) as (j & Hj & Hres).
  pose proof (NoDup_order _ _ _ Ho) as HND. exists j, (uorder ++ [j]).
  assert (Hju : j ∉ uorder).
  { apply list.NoDup_app in HND as (_ & Hdis & _). apply Hdis. by eapply list_elem_of_lookup_2. }
  assert (Hjo : j ∉ delete i order).
  { apply list.NoDup_app in HND as (HND & _ & _).
    rewrite (delete_Permutation order i j Hj) in HND. by apply list.NoDup_cons in HND as [? _]. }
  destruct (Hs eq_refl) as [HNp Hin]. split; cbn; try done.
  - rewrite fmap_app. cbn. rewrite <- Hd, <- !app_assoc. apply Permutation_app; [done|].
    apply Permutation_app_comm.
  - apply Forall_app. split; [done|]. repeat constructor. cbn.
    assert (Hin' : j ∈ seq 0 (length caps)).
    { rewrite <- Ho, elem_of_app. left. by eapply list_elem_of_lookup_2. }
    apply elem_of_seq in Hin'. lia.
  - by rewrite delete_Permutation_snoc.
  - apply Forall2_other; [done|]. by apply Forall2_delete.
  - apply Forall2_app; [by apply Forall2_other|]. repeat constructor.
    by eapply residual_of_placed.
  - intros _. rewrite fmap_app. cbn. split.
    + apply list.NoDup_app. split; [done|]. split; [|apply NoDup_singleton].
      intros x Hx ->%list_elem_of_singleton. naive_solver.
    + intros x. rewrite !elem_of_app. naive_solver.
Qed.

(** A node dict without entries that is taken in a strict spread *)
Lemma empty_step_spread caps done s placed order uorder d i :
  pack_inv true caps done s placed order uorder -> nodes s !! i = Some [] ->
  exists uorder', pack_inv true caps (done ++ [d])
    (mkPack (unfulfilled s ++ [d]) (delete i (nodes s)) (used s ++ [[]]))
    placed (delete i order) uorder'.
Proof.
  intros [Hd Hr Ho Hn Hu Hs Hp] Hi.
  destruct (Forall2_lookup_r _ _ _ i [] Hn Hi) as (j & Hj & Hres).
  exists (uorder ++ [j]). destruct (Hs eq_refl) as [HNp Hin]. split; cbn; try done.
  - by rewrite app_assoc, Hd.
  - by rewrite delete_Permutation_snoc.
  - by apply Forall2_delete.
  - apply Forall2_app; [done|]. by repeat constructor.
  - intros _. split; [done|]. intros x Hx. rewrite elem_of_app. auto.
Qed.

Lemma pack_one_inv strict caps done s placed order uorder d s' :
  pack_inv strict caps done s placed order uorder -> dwf d -> pack_one strict s d = Ok s' ->
  exists placed' order' uorder', pack_inv strict caps (done ++ [d]) s' placed' order' uorder'.
Proof.
  intros HI Hwf. unfold pack_one.
  destruct (find_fit d (nodes s)) as [[i n]|] eqn:Ef.
  - apply find_fit_Some in Ef as [Hi _]. destruct n as [|e n].
    + intros [= <-]. destruct strict.
      * destruct (empty_step_spread _ _ _ _ _ _ d _ HI Hi) as [u Hu]. eauto.
      * exists placed, order, uorder. by apply unfulfilled_step.
    + destruct (_inplace_subtract (e :: n) d) as [n'|] eqn:Es; cbn; [|done].
      intros [= <-]. destruct strict.
      * destruct (placed_step_spread _ _ _ _ _ _ _ _ _ _ HI Hwf Hi Es) as (j & u & Hu). eauto.
      * eexists _, _, _. by eapply placed_step_in_place.
  - intros [= <-]. exists placed, order, uorder. by apply unfulfilled_step.
Qed.

Lemma pack_loop_inv strict caps ds done s placed order uorder s' :
  pack_inv strict caps done s placed order uorder -> Forall dwf ds ->
  foldM (pack_one strict) s ds = Ok s' ->
  exists placed' order' uorder', pack_inv strict caps (done ++ ds) s' placed' order' uorder'.
Proof.
  revert done s placed order uorder.
  induction ds as [|d ds IH]; intros done s placed order uorder HI HF H; cbn [foldM] in H.
  - simpl_result. rewrite app_nil_r. eauto.
  - destruct (pack_one strict s d) as [s1|] eqn:E; cbn [mbind result_bind] in H; [|done].
    inversion HF; subst.
    destruct (pack_one_inv _ _ _ _ _ _ _ _ _ HI H2 E) as (p & o & u & HI').
    replace (done ++ d :: ds) with ((done ++ [d]) ++ ds) by (by rewrite <- app_assoc).
    by eapply IH.
Qed.

Lemma sort_demands_Permutation ds : sort_demands ds ≡ₚ ds.
Proof. apply py_sorted_reverse_Permutation. Qed.

(** The soundness of the bin packing. *)
Lemma bin_pack_packing strict caps demands unf final :
  Forall nonneg_resources caps -> Forall dwf demands ->
  get_bin_pack_residual caps demands strict = Ok (unf, final) ->
  exists placed order, packing strict caps demands unf final placed order.
Proof.
  intros Hc Hd H. unfold get_bin_pack_residual in H.
  destruct (foldM _ _ _) as [s|] eqn:E; cbn in H; [|done]. simpl_result.
  assert (Hd' : Forall dwf (sort_demands demands)).
  { by rewrite sort_demands_Permutation. }
  destruct (pack_loop_inv _ _ _ _ _ _ _ _ _ (pack_inv_init strict caps Hc) Hd' E)
    as (placed & order & uorder & [H1 H0 H2 H3 H4 H5 H6]).
  exists placed, (order ++ uorder). split; try done.
  - by rewrite H1, sort_demands_Permutation.
  - by apply Forall2_app.
  - intros Hs. by destruct (H5 Hs).
  - intros Hs. destruct (H6 Hs) as [-> ->]. by rewrite app_nil_r.
Qed.

Lemma Forall_ok_demand_wf ds : Forall ok_demand ds -> Forall dwf ds.
Proof. apply Forall_impl. by intros d []. Qed.

(** Positive demands never trip the assertions of [_inplace_subtract]. *)
Lemma bin_pack_total strict caps demands :
  Forall ok_demand demands -> exists r, get_bin_pack_residual caps demands strict = Ok r.
Proof.
  intros Hd. unfold get_bin_pack_residual.
  destruct (foldM_ok (fun _ => True) (pack_one strict) (mkPack [] caps [])
              (sort_demands demands) I) as (s & -> & _); [|by eexists].
  intros d s Hin _. rewrite sort_demands_Permutation in Hin.
  rewrite list.Forall_forall in Hd. destruct (Hd d Hin) as [Hwf Hpos].
  unfold pack_one. destruct (find_fit d (nodes s)) as [[i n]|] eqn:Ef; [|by eexists].
  apply find_fit_Some in Ef as [_ Hf]. destruct n as [|e n]; [by eexists|].
  destruct (subtract_ok (e :: n) d Hwf Hf) as [n' ->]; [by apply fits_positive_within|].
  by eexists.
Qed.

(** What is unfulfilled was demanded. *)
Lemma bin_pack_unf_subset strict caps demands unf final :
  get_bin_pack_residual caps demands strict = Ok (unf, final) -> forall d, d ∈ unf -> d ∈ demands.
Proof.
  unfold get_bin_pack_residual. intros H. bind_inv H. simpl_result.
  eapply (foldM_inv (fun s => forall d, d ∈ unfulfilled s -> d ∈ demands)); [exact E | by intros d ?%elem_of_nil |].
  intros d t t' Hin Ht Hp x Hx. rewrite sort_demands_Permutation in Hin. unfold pack_one in Hp.
  assert (Hcase : unfulfilled t' = unfulfilled t \/ unfulfilled t' = unfulfilled t ++ [d]).
  { destruct (find_fit _ _) as [[i [|e n]]|]; simpl_result; auto. }
  destruct Hcase as [Hc|Hc]; rewrite Hc in Hx; [auto|].
  apply elem_of_app in Hx as [Hx | ->%list_elem_of_singleton]; auto.
Qed.

Lemma bin_pack_unf_ok strict caps demands unf final :
  Forall ok_demand demands -> get_bin_pack_residual caps demands strict = Ok (unf, final) ->
  Forall ok_demand unf.
Proof.
  rewrite !list.Forall_forall. intros Hd H d Hin. apply Hd. by eapply bin_pack_unf_subset.
Qed.

(** Nothing that is reported as unfulfilled fits on a node that is left. *)
Definition pack_maximal s : Prop :=
  Forall (fun n => n <> []) (nodes s) /\
  forall d, d ∈ unfulfilled s -> Forall (fun n => _fits n d = false) (nodes s).

Lemma subtract_nonempty n d n' :
  dwf d -> n <> [] -> _inplace_subtract n d = Ok n' -> n' <> [].
Proof.
  intros Hwf Hn Hs ->. apply subtract_spec in Hs as (Hk & _); [|done].
  destruct n as [|[k v] n]; [done|]. by rewrite dkeys_cons in Hk.
Qed.

Lemma fits_after_subtract n d n' e :
  dwf d -> nonneg_resources d -> _inplace_subtract n d = Ok n' ->
  _fits n e = false -> _fits n' e = false.
Proof.
  intros Hwf Hnn Hs Hf. destruct (_fits n' e) eqn:E; [|done].
  rewrite <- Hf. symmetry. eapply fits_mono; [|exact E]. intros k.
  apply subtract_spec in Hs as (_ & _ & Hget); [|done].
  rewrite Hget. pose proof (nonneg_rget d k Hnn). lra.
Qed.

Lemma pack_one_maximal strict s d s' :
  dwf d -> nonneg_resources d -> pack_maximal s -> pack_one strict s d = Ok s' -> pack_maximal s'.
Proof.
  intros Hwf Hnn [Hne Hmax]. unfold pack_one.
  destruct (find_fit d (nodes s)) as [[i n]|] eqn:Ef.
  - apply find_fit_Some in Ef as [Hi _].
    assert (Hn : n <> []) by (by eapply Forall_lookup_1 in Hne).
    destruct n as [|e n]; [done|].
    destruct (_inplace_subtract (e :: n) d) as [n'|] eqn:Es; cbn; [|done].
    intros [= <-]. split; cbn; destruct strict.
    + by apply Forall_delete.
    + apply Forall_insert; [done|]. by eapply subtract_nonempty.
    + intros d' Hd'. apply Forall_delete. auto.
    + intros d' Hd'. apply Forall_insert; [auto|].
      eapply fits_after_subtract; [done..|]. specialize (Hmax d' Hd'). by eapply Forall_lookup_1 in Hmax.
  - intros [= <-]. split; cbn; [done|]. intros d' Hd'.
    apply elem_of_app in Hd' as [Hd' | ->%list_elem_of_singleton]; [auto|].
    by apply find_fit_None.
Qed.

Lemma bin_pack_maximal caps demands unf final :
  Forall (fun n => n <> []) caps -> Forall dwf demands -> Forall nonneg_resources demands ->
  get_bin_pack_residual caps demands false = Ok (unf, final) ->
  forall d, d ∈ unf -> Forall (fun n => _fits n d = false) final.
Proof.
  intros Hc Hw Hn H d Hd.
  destruct (foldM (pack_one false) (mkPack [] caps []) (sort_demands demands)) as [s|] eqn:E;
    unfold get_bin_pack_residual in H; rewrite E in H; cbn in H; [|done]. simpl_result.
  assert (Hm : pack_maximal s /\ used s = []).
  { eapply (foldM_inv (fun s => pack_maximal s /\ used s = [])); [exact E| |].
    - split; [|done]. split; cbn; [done|]. by intros d' ?%elem_of_nil.
    - intros d' t t' Hin [Ht Hu] Hp. rewrite sort_demands_Permutation in Hin.
      rewrite list.Forall_forall in Hw, Hn. split; [by eapply pack_one_maximal; eauto|].
      unfold pack_one in Hp. destruct (find_fit _ _) as [[i [|e n]]|]; [by simpl_result| |by simpl_result].
      bind_inv Hp. by simpl_result. }
  destruct Hm as [[_ Hm] Hu]. rewrite Hu, app_nil_r. auto.
Qed.

End PackProofs.

(** ** The theorems about [get_bin_pack_residual] *)

(** C1. On positive demands [get_bin_pack_residual] never raises, and what it
    returns is a packing: every demand is either reported as unfulfilled or
    placed on one node, the returned nodes are the given ones less what was
    placed on them, no node gets more of a resource than it has, and with
    [strict_spread] no node gets two demands. *)
Theorem get_bin_pack_residual_sound node_resources resource_demands strict_spread :
  Forall nonneg_resources node_resources -> Forall ok_demand resource_demands ->
  exists unf final placed order,
    get_bin_pack_residual node_resources resource_demands strict_spread = Ok (unf, final) /\
    packing strict_spread node_resources resource_demands unf final placed order /\
    forall i c k, node_resources !! i = Some c -> (load placed i k <= rget k c)%Q.
Proof.
  intros Hc Hd. destruct (bin_pack_total strict_spread node_resources resource_demands Hd) as [[unf final] H].
  destruct (bin_pack_packing _ _ _ _ _ Hc (Forall_ok_demand_wf _ Hd) H) as (placed & order & Hp).
  exists unf, final, placed, order. split_and!; [done..|].
  intros i c k Hi. destruct Hp as [_ _ Ho Hf _ _].
  assert (Hio : i ∈ order).
  { rewrite Ho. apply elem_of_seq. apply lookup_lt_Some in Hi. lia. }
  apply list_elem_of_lookup in Hio as [j Hj].
  destruct (Forall2_lookup_l _ _ _ _ _ Hf Hj) as (n & _ & c' & Hc' & _ & Hnn & Hget).
  rewrite Hi in Hc'. injection Hc' as <-.
  pose proof (nonneg_rget n k Hnn) as Hk. rewrite Hget in Hk. lra.
Qed.

(** What [get_bin_pack_residual] reports as unfulfilled really does not
    fit: no returned node has room for it. *)
Theorem get_bin_pack_residual_maximal node_resources resource_demands unf final :
  Forall (fun n => n <> []) node_resources -> Forall ok_demand resource_demands ->
  get_bin_pack_residual node_resources resource_demands false = Ok (unf, final) ->
  forall d n, d ∈ unf -> n ∈ final -> _fits n d = false.
Proof.
  intros Hc Hd H d n Hin Hn.
  assert (Hdn : Forall nonneg_resources resource_demands).
  { eapply list.Forall_impl; [exact Hd|]. intros x [_ ?]. by apply positive_nonneg. }
  pose proof (bin_pack_maximal _ _ _ _ Hc (Forall_ok_demand_wf _ Hd) Hdn H d Hin) as HF.
  rewrite list.Forall_forall in HF. auto.
Qed.

(** A bundle with a zero (or negative) amount of a resource that a node
    does not list passes [_fits] and then fails the assertion of
    [_inplace_subtract]: the call raises instead of placing the bundle. *)
Theorem get_bin_pack_residual_zero_amount_raises node d k :
  node <> [] -> dwf d -> _fits node d = true -> k ∈ dkeys d -> k ∉ dkeys node ->
  get_bin_pack_residual [node] [d] false = Err AssertionError.
Proof.
  intros Hne Hwf Hf Hk Hkn. unfold get_bin_pack_residual. cbn [foldM].
  change (sort_demands [d]) with [d]. cbn [foldM]. unfold pack_one. cbn [nodes find_fit].
  rewrite Hf. destruct node as [|e node]; [done|].
  destruct (_inplace_subtract (e :: node) d) as [n'|x] eqn:E; cbn.
  - apply subtract_spec in E as (_ & Hin & _); [|done]. by apply Hin in Hk.
  - by rewrite (subtract_err _ _ _ E).
Qed.

(** *** Witnesses *)

Definition ex_nodes : list ResourceDict :=
  [[("CPU", 4%Q); ("GPU", 1%Q)]; [("CPU", 2%Q)]].
Definition ex_demands : list ResourceDict :=
  [[("CPU", 1%Q)]; [("CPU", 3%Q)]; [("CPU", 1%Q); ("GPU", 1%Q)]; [("CPU", 9%Q)]].

Lemma get_bin_pack_residual_sound_witness :
  exists unf final placed order,
    get_bin_pack_residual ex_nodes ex_demands true = Ok (unf, final) /\
    packing true ex_nodes ex_demands unf final placed order /\
    forall i c k, ex_nodes !! i = Some c -> (load placed i k <= rget k c)%Q.
Proof. apply (get_bin_pack_residual_sound ex_nodes ex_demands true); by_compute. Defined.

Lemma get_bin_pack_residual_maximal_witness :
  exists unf final, get_bin_pack_residual ex_nodes ex_demands false = Ok (unf, final) /\
    unf = [[("CPU", 9%Q)]] /\ forall d n, d ∈ unf -> n ∈ final -> _fits n d = false.
Proof.
  eexists _, _. split; [vm_compute; reflexivity|]. split; [reflexivity|].
  apply (get_bin_pack_residual_maximal ex_nodes ex_demands); [by repeat constructor | by_compute |].
  vm_compute. reflexivity.
Defined.

Lemma get_bin_pack_residual_zero_amount_raises_witness :
  get_bin_pack_residual [[("CPU", 4%Q)]] [[("CPU", 1%Q); ("GPU", 0%Q)]] false = Err AssertionError.
Proof.
  apply (get_bin_pack_residual_zero_amount_raises _ _ "GPU"); [done | by_compute | reflexivity | by_compute | by_compute].
Defined.
