(* ===== verification/NodesFor.v ===== *)
(** Which node types to launch for unfulfilled demands:
    [_utilization_score] and [get_nodes_for] of
    [resource_demand_scheduler.py]. *)

From Stdlib Require Import ZArith QArith Lqa Lia.
From stdpp Require Import base list strings option.
From S2P Require Import Prelude PyDict Resources NodeTypes BinPacking.

(** ** [_utilization_score] *)

(** [(num_matching_resource_types, min(util), mean(util))] *)
Definition score : Type := Z * Q * Q.

Definition score_compare (a b : score * string) : comparison :=
  let '((n1, m1, a1), t1) := a in
  let '((n2, m2, a2), t2) := b in
  cmp_then (Z.compare n1 n2)
    (cmp_then (Qcompare m1 m2) (cmp_then (Qcompare a1 a2) (String.compare t1 t2))).

Record util_state : Type := mkUtil {
  fittable : list ResourceDict;
  resource_types : list string;
  remaining : ResourceDict
}.

(** The resource names a demand asks for, added to a set of names *)
Definition add_types (types : list string) (r : ResourceDict) : list string :=
  foldl (fun ts kv => if Qlt_bool 0 kv.2 && negb (bool_decide (kv.1 ∈ ts)) then ts ++ [kv.1] else ts)
    types r.

(** The body of the loop over the demands *)
Definition util_one (s : util_state) (r : ResourceDict) : result util_state :=
  let types := add_types (resource_types s) r in
  if _fits (remaining s) r then
    rem' ← _inplace_subtract (remaining s) r;
    Ok (mkUtil (fittable s ++ [r]) types rem')
  else Ok (mkUtil (fittable s) types (remaining s)).

(** The body of the loop over the node's resources: the number of matching
    resource types and [util_by_resources] *)
Definition util_resource (s : util_state) (acc : Z * list Q) (kv : string * Q) : result (Z * list Q) :=
  let '(k, v) := kv in
  if Qlt_bool v 1 then Ok acc
  else
    let num := if bool_decide (k ∈ resource_types s) then (acc.1 + 1)%Z else acc.1 in
    r ← dgetitem k (remaining s);
    let util := ((v - r) / v)%Q in
    Ok (num, acc.2 ++ [(v * (util * util * util))%Q]).

Definition py_min (x : Q) (l : list Q) : Q := foldl Qmin_py x l.
Definition py_mean (l : list Q) : Q := (Qsum l / inject_Z (Z.of_nat (length l)))%Q.

Section Score.
(** The constant [AUTOSCALER_CONSERVE_GPU_NODES] *)
Variable conserve_gpu_nodes : bool.

Definition _utilization_score (node_resources : ResourceDict) (resources : list ResourceDict)
    : result (option score) :=
  let is_gpu_node :=
    match dget "GPU" node_resources with Some v => Qlt_bool 0 v | None => false end in
  let any_gpu_task := existsb (fun r => dmem "GPU" r) resources in
  if conserve_gpu_nodes && (is_gpu_node && negb any_gpu_task) then Ok None
  else
    s ← foldM util_one (mkUtil [] [] node_resources) resources;
    match fittable s with
    | [] => Ok None
    | _ :: _ =>
        acc ← foldM (util_resource s) (0%Z, []) node_resources;
        match acc.2 with
        | [] => Ok None
        | u :: us => Ok (Some (acc.1, py_min u us, py_mean (u :: us)))
        end
    end.

(** ** [get_nodes_for] *)

(** The per-type limit on the number of nodes *)
Definition type_limit (head_node_type node_type : string) (c : NodeTypeConfig) : Z :=
  if bool_decide (head_node_type = node_type) then (cfg_max_workers c + 1)%Z else cfg_max_workers c.

(** The body of the loop over the node types *)
Definition score_type (existing_nodes : dict string Z) (head_node_type : string)
    (nodes_to_add : dict string Z) (demands : list ResourceDict)
    (scores : list (score * string)) (nt : string * NodeTypeConfig) : result (list (score * string)) :=
  let '(node_type, c) := nt in
  if (type_limit head_node_type node_type c <=?
        dget_or node_type 0 existing_nodes + dget_or node_type 0 nodes_to_add)%Z
  then Ok scores
  else
    node_resources ← cfg_resources c;
    sc ← _utilization_score node_resources demands;
    match sc with
    | Some x => Ok (scores ++ [(x, node_type)])
    | None => Ok scores
    end.

(** The [while] loop. Each round removes at least one demand or raises, so
    as many rounds as there are demands are enough. *)
Fixpoint get_nodes_for_loop (fuel : nat) (node_types : NodeTypes) (existing_nodes : dict string Z)
    (head_node_type : string) (max_to_add : Z) (strict_spread : bool)
    (nodes_to_add : dict string Z) (resources : list ResourceDict)
    : result (dict string Z * list ResourceDict) :=
  match resources with
  | [] => Ok (nodes_to_add, [])
  | first :: rest =>
      if (max_to_add <=? dsum nodes_to_add)%Z then Ok (nodes_to_add, resources)
      else
        match fuel with
        | O => Err OutOfFuel
        | S fuel' =>
            scores ← foldM (score_type existing_nodes head_node_type nodes_to_add
                              (if strict_spread then [first] else resources)) [] node_types;
            match py_sorted_reverse (fun a b => is_lt (score_compare a b)) scores with
            | [] => Ok (nodes_to_add, resources)
            | (_, best_node_type) :: _ =>
                let nodes_to_add' := dincr best_node_type 1 nodes_to_add in
                if strict_spread then
                  get_nodes_for_loop fuel' node_types existing_nodes head_node_type max_to_add
                    strict_spread nodes_to_add' rest
                else
                  c ← dgetitem best_node_type node_types;
                  allocated_resource ← cfg_resources c;
                  '(residual, _) ← get_bin_pack_residual [allocated_resource] resources false;
                  _ ← py_assert (length residual <? length resources)%nat;
                  get_nodes_for_loop fuel' node_types existing_nodes head_node_type max_to_add
                    strict_spread nodes_to_add' residual
            end
        end
  end.

Definition get_nodes_for (node_types : NodeTypes) (existing_nodes : dict string Z)
    (head_node_type : string) (max_to_add : Z) (resources : list ResourceDict)
    (strict_spread : bool) : result (dict string Z * list ResourceDict) :=
  get_nodes_for_loop (length resources) node_types existing_nodes head_node_type max_to_add
    strict_spread [] resources.

End Score.


(** ** Properties *)

(** A node type entry as the scheduler needs it: it has a resources field,
    a Python dict without negative amounts *)
Definition ok_config (c : NodeTypeConfig) : Prop :=
  exists r, ntc_resources c = Some r /\ dwf r /\ nonneg_resources r.

Definition ok_node_types (nts : NodeTypes) : Prop :=
  dwf nts /\ Forall (fun nt => ok_config nt.2) nts.

#[global] Instance ok_config_decision c : Decision (ok_config c).
Proof.
  refine (match ntc_resources c as o return ntc_resources c = o -> _ with
          | Some r => fun H => match decide (dwf r /\ nonneg_resources r) with
                               | left P => left _
                               | right P => right _
                               end
          | None => fun H => right _
          end eq_refl).
  - by exists r.
  - intros (r' & Hr & Q). rewrite H in Hr. injection Hr as <-. done.
  - intros (r' & Hr & Q). congruence.
Defined.

#[global] Instance ok_node_types_decision nts : Decision (ok_node_types nts).
Proof. unfold ok_node_types. apply _. Defined.

Section ScoreProofs.
Implicit Types (node r : ResourceDict) (rs : list ResourceDict).

Lemma util_one_ok s r :
  ok_demand r -> exists s', util_one s r = Ok s' /\ dkeys (remaining s') = dkeys (remaining s).
Proof.
  intros [Hwf Hp]. unfold util_one. destruct (_fits (remaining s) r) eqn:Ef; [|by eexists].
  destruct (subtract_ok (remaining s) r Hwf Ef) as [n' En]; [by apply fits_positive_within|].
  rewrite En. cbn. eexists. split; [done|]. cbn.
  by destruct (subtract_spec _ _ _ Hwf En) as [? _].
Qed.

(** While nothing was placed the node is untouched. *)
Lemma util_loop_inv node rs s :
  foldM util_one (mkUtil [] [] node) rs = Ok s ->
  (fittable s = [] /\ remaining s = node) \/
  (fittable s <> [] /\ exists r, r ∈ rs /\ _fits node r = true).
Proof.
  intros H.
  eapply (foldM_inv (fun s => (fittable s = [] /\ remaining s = node) \/
    (fittable s <> [] /\ exists r, r ∈ rs /\ _fits node r = true)));
    [exact H | by left |].
  intros r t t' Hin Ht E. unfold util_one in E.
  destruct (_fits (remaining t) r) eqn:Ef; [|by simpl_result].
  bind_inv E. simpl_result. right. cbn. split; [by destruct (fittable t)|].
  destruct Ht as [[_ Hr]|[_ Hr]]; [|done]. rewrite Hr in Ef. eauto.
Qed.

Lemma utilization_score_Some g node rs sc :
  _utilization_score g node rs = Ok (Some sc) ->
  node <> [] /\ exists r, r ∈ rs /\ _fits node r = true.
Proof.
  unfold _utilization_score. destruct (_ && _); [done|]. intros H. bind_inv H.
  destruct (fittable a) as [|f fs] eqn:Ef; [done|].
  destruct (util_loop_inv _ _ _ E) as [[C _]|[_ Hr]]; [congruence|]. split; [|done].
  intros ->. by cbn in H.
Qed.

Lemma utilization_score_total g node rs :
  Forall ok_demand rs -> exists o, _utilization_score g node rs = Ok o.
Proof.
  intros Hrs. unfold _utilization_score. destruct (_ && _); [by eexists|].
  destruct (foldM_ok (fun s => dkeys (remaining s) = dkeys node) util_one (mkUtil [] [] node) rs)
    as (s & -> & Hk); [done| |].
  { intros r t Hin Ht. rewrite list.Forall_forall in Hrs.
    destruct (util_one_ok t r (Hrs r Hin)) as (t' & -> & Hk). exists t'. by rewrite Hk. }
  cbn [mbind result_bind]. destruct (fittable s); [by eexists|].
  destruct (foldM_ok (fun _ => True) (util_resource s) (0%Z, []) node I) as (acc & -> & _).
  { intros [k v] acc Hin _. unfold util_resource. destruct (Qlt_bool v 1); [by eexists|].
    assert (Hkk : k ∈ dkeys (remaining s)).
    { rewrite Hk. apply list_elem_of_fmap. by exists (k, v). }
    unfold dgetitem. apply dget_is_Some in Hkk as [w ->]. cbn. by eexists. }
  cbn [mbind result_bind]. destruct acc.2; by eexists.
Qed.

End ScoreProofs.

(** ** The abstract launch procedure

    [launch_run] is what [get_nodes_for] promises: as long as demands and
    budget are left and some node type below its limit can take a demand,
    one node of such a type is added and loses the demands it hosts. *)

(** The limit of a node type: its [max_workers], one more for the head's type *)
Definition allowed_nodes (head_node_type t : string) (c : NodeTypeConfig) : Z :=
  (cfg_max_workers c + (if decide (t = head_node_type) then 1 else 0))%Z.

Lemma type_limit_allowed head t c : type_limit head t c = allowed_nodes head t c.
Proof. unfold type_limit, allowed_nodes. repeat case_bool_decide; repeat case_decide; subst; by try lia. Qed.

Section Launch.
Variable conserve_gpu_nodes : bool.
Variable node_types : NodeTypes.
Variable existing_nodes : dict string Z.
Variable head_node_type : string.
Variable max_to_add : Z.
Variable strict_spread : bool.

(** Node type [t] may be launched for the demands, with score [sc]. *)
Definition eligible (add : dict string Z) (demands : list ResourceDict) (t : string) (sc : score) : Prop :=
  exists c r, (t, c) ∈ node_types /\
    (dget_or t 0 existing_nodes + dget_or t 0 add < allowed_nodes head_node_type t c)%Z /\
    ntc_resources c = Some r /\
    _utilization_score conserve_gpu_nodes r demands = Ok (Some sc).

(** The demands of [ds] fit on one node of type [t] together. *)
Definition hosts (t : string) (ds : list ResourceDict) : Prop :=
  exists c r, (t, c) ∈ node_types /\ ntc_resources c = Some r /\
    forall k, (Qsum (map (rget k) ds) <= rget k r)%Q.

(** What is scored: the first demand in a strict spread, else all of them *)
Definition scored (rs : list ResourceDict) : list ResourceDict :=
  if strict_spread then take 1 rs else rs.

Inductive launch_run : dict string Z -> list ResourceDict -> list (string * list ResourceDict) ->
    dict string Z -> list ResourceDict -> Prop :=
| run_fulfilled add : launch_run add [] [] add []
| run_budget add rs : (max_to_add <= dsum add)%Z -> launch_run add rs [] add rs
| run_give_up add rs :
    (forall t sc, ~ eligible add (scored rs) t sc) -> launch_run add rs [] add rs
| run_launch add rs t sc ds rs' groups add' rs'' :
    (dsum add < max_to_add)%Z ->
    eligible add (scored rs) t sc ->
    ds ++ rs' ≡ₚ rs -> ds <> [] -> hosts t ds ->
    (strict_spread = true -> length ds = 1%nat) ->
    launch_run (dincr t 1 add) rs' groups add' rs'' ->
    launch_run add rs ((t, ds) :: groups) add' rs''.

Implicit Types (add : dict string Z) (rs : list ResourceDict) (t : string).

Lemma score_types_sound add demands scores :
  foldM (score_type conserve_gpu_nodes existing_nodes head_node_type add demands) [] node_types = Ok scores ->
  forall sc t, (sc, t) ∈ scores -> eligible add demands t sc.
Proof.
  intros H. eapply (foldM_inv (fun scores => forall sc t, (sc, t) ∈ scores -> eligible add demands t sc));
    [exact H | by intros sc t ?%elem_of_nil |].
  intros [t c] ss ss' Hin IH E sc t' Hin'. unfold score_type in E. rewrite type_limit_allowed in E.
  destruct (_ <=? _)%Z eqn:El; [by simpl_result; auto|].
  unfold cfg_resources in E. destruct (ntc_resources c) as [r|] eqn:Er; cbn in E; [|done].
  destruct (_utilization_score _ _ _) as [[x|]|] eqn:Es; cbn in E; simpl_result; [|by auto].
  apply elem_of_app in Hin' as [Hin'|Hin']; [by auto|].
  apply list_elem_of_singleton in Hin'. injection Hin' as -> ->.
  exists c, r. split_and!; [done | lia | done | done].
Qed.

Lemma score_types_complete add demands l scores scores' :
  foldM (score_type conserve_gpu_nodes existing_nodes head_node_type add demands) scores l = Ok scores' ->
  (forall x, x ∈ scores -> x ∈ scores') /\
  forall t c r sc, (t, c) ∈ l -> ntc_resources c = Some r ->
    (dget_or t 0 existing_nodes + dget_or t 0 add < allowed_nodes head_node_type t c)%Z ->
    _utilization_score conserve_gpu_nodes r demands = Ok (Some sc) -> (sc, t) ∈ scores'.
Proof.
  revert scores; induction l as [|[t c] l IH]; intros scores H; cbn [foldM] in H.
  { simpl_result. split; [done|]. by intros t c r sc ?%elem_of_nil. }
  destruct (score_type _ _ _ _ _ _ _) as [s1|] eqn:E; cbn [mbind result_bind] in H; [|done].
  apply IH in H as [Hsub Hall].
  assert (Hs1 : forall x, x ∈ scores -> x ∈ s1).
  { intros x Hx. unfold score_type in E. destruct (_ <=? _)%Z; [by simpl_result|].
    do 2 bind_inv E. destruct a0; simpl_result; [|done]. apply elem_of_app. by left. }
  split; [by auto|]. intros t' c' r sc Hin Hr Hlim Hsc.
  apply elem_of_cons in Hin as [[= -> ->]|Hin]; [|by eauto].
  apply Hsub. unfold score_type in E. rewrite type_limit_allowed in E.
  destruct (Z.leb_spec (allowed_nodes head_node_type t c)
    (dget_or t 0 existing_nodes + dget_or t 0 add)%Z) as [Hle|Hlt]; [lia|].
  unfold cfg_resources in E. rewrite Hr in E. cbn in E. rewrite Hsc in E. cbn in E.
  simpl_result. apply elem_of_app. right. by apply list_elem_of_singleton.
Qed.

Lemma score_types_total add demands :
  ok_node_types node_types -> Forall ok_demand demands ->
  exists scores,
    foldM (score_type conserve_gpu_nodes existing_nodes head_node_type add demands) [] node_types = Ok scores.
Proof.
  intros [_ Hc] Hd.
  destruct (foldM_ok (fun _ => True)
    (score_type conserve_gpu_nodes existing_nodes head_node_type add demands) [] node_types I)
    as (s & -> & _); [|by eexists].
  intros [t c] ss Hin _. rewrite list.Forall_forall in Hc.
  destruct (Hc _ Hin) as (r & Hr & _). cbn in Hr. unfold score_type.
  destruct (_ <=? _)%Z; [by eexists|]. unfold cfg_resources. rewrite Hr. cbn.
  destruct (utilization_score_total conserve_gpu_nodes r demands Hd) as [[x|] ->]; by eexists.
Qed.

(** One node of an eligible type takes at least one demand. *)
Lemma allocate_progress r rs residual final :
  dwf r -> nonneg_resources r -> r <> [] -> Forall ok_demand rs ->
  (exists d, d ∈ rs /\ _fits r d = true) ->
  get_bin_pack_residual [r] rs false = Ok (residual, final) ->
  exists ds, ds <> [] /\ ds ++ residual ≡ₚ rs /\ forall k, (Qsum (map (rget k) ds) <= rget k r)%Q.
Proof.
  intros Hwf Hnn Hne Hok (d & Hd & Hfit) H.
  assert (Hdw : Forall dwf rs) by (by apply Forall_ok_demand_wf).
  assert (Hdn : Forall nonneg_resources rs).
  { eapply list.Forall_impl; [exact Hok|]. intros x [_ ?]. by apply positive_nonneg. }
  destruct (bin_pack_packing false [r] rs residual final) as (placed & order & [Hp Hr Ho Hf _ Hi]);
    [by repeat constructor | done | done |].
  rewrite (Hi eq_refl) in Hf. cbn in Hf.
  inversion Hf as [|? n ? ? Hres Hnil]; subst. inversion Hnil; subst. clear Hf Hnil.
  destruct Hres as (c & Hc & _ & Hnn' & Hget). cbn in Hc. injection Hc as <-.
  assert (Hload : forall k, (load placed 0 k == Qsum (map (rget k) placed.*2))%Q).
  { intros k. clear -Hr. unfold load, Qsum.
    induction Hr as [|[i x] l Hx _ IH]; cbn [map foldr fmap list_fmap fst snd]; [done|].
    cbn in Hx. rewrite decide_True by lia. rewrite IH. done. }
  exists placed.*2. split_and!; [| done |].
  - intros Hnil. rewrite Hnil in Hp. cbn in Hp.
    pose proof (bin_pack_maximal [r] rs residual [n]) as Hmax.
    specialize (Hmax ltac:(by repeat constructor) Hdw Hdn H d).
    rewrite Hp in Hmax. specialize (Hmax Hd). inversion Hmax as [|? ? Hnf _]; subst.
    enough (_fits n d = true) by congruence. eapply fits_mono; [|exact Hfit].
    intros k. rewrite Hget, Hload, Hnil. cbn. lra.
  - intros k. rewrite <- Hload. pose proof (nonneg_rget n k Hnn') as Hk. rewrite Hget in Hk. lra.
Qed.

Lemma scores_nonempty (scores : list (score * string)) lt :
  py_sorted_reverse lt scores = [] -> scores = [].
Proof.
  intros H. apply Permutation_nil. by rewrite <- (py_sorted_reverse_Permutation lt scores), H.
Qed.

Lemma eligible_take rs first rest :
  rs = first :: rest -> scored rs = if strict_spread then [first] else rs.
Proof. intros ->. unfold scored. by destruct strict_spread. Qed.

Context (Hok : ok_node_types node_types).

(** A single demand that fits is hosted. *)
Lemma hosts_one t c r d :
  (t, c) ∈ node_types -> ntc_resources c = Some r -> nonneg_resources r -> ok_demand d ->
  _fits r d = true -> hosts t [d].
Proof.
  intros Hin Hr Hnn [Hwf _] Hf. exists c, r. split_and!; [done..|]. intros k.
  pose proof (fits_rget r d Hwf Hnn Hf k). unfold Qsum. cbn [map foldr]. lra.
Qed.

Lemma config_of t c : (t, c) ∈ node_types ->
  dgetitem t node_types = Ok c /\
  exists r, ntc_resources c = Some r /\ dwf r /\ nonneg_resources r.
Proof.
  intros Hin. destruct Hok as [Hwf Hc]. rewrite list.Forall_forall in Hc. split.
  - unfold dgetitem. by rewrite (elem_dget t c node_types).
  - exact (Hc _ Hin).
Qed.

Abbreviation loop := (get_nodes_for_loop conserve_gpu_nodes).

(** What an eligible type does with the demands: the node added, the
    demands it hosts and those that are left *)
Lemma round_in_place add rs t sc :
  strict_spread = false -> Forall ok_demand rs -> eligible add (scored rs) t sc ->
  exists c r residual final ds,
    dgetitem t node_types = Ok c /\ cfg_resources c = Ok r /\
    get_bin_pack_residual [r] rs false = Ok (residual, final) /\
    ds <> [] /\ ds ++ residual ≡ₚ rs /\ hosts t ds.
Proof.
  intros Hs Hrs (c & r & Hin & _ & Hr & Hsc). unfold scored in Hsc. rewrite Hs in Hsc.
  destruct (config_of t c Hin) as (Hget & r' & Hr' & Hwf & Hnn).
  rewrite Hr in Hr'. injection Hr' as <-.
  destruct (utilization_score_Some _ _ _ _ Hsc) as [Hne Hex].
  destruct (bin_pack_total false [r] rs Hrs) as [[residual final] Hb].
  destruct (allocate_progress r rs residual final Hwf Hnn Hne Hrs Hex Hb) as (ds & Hds & Hp & Hload).
  exists c, r, residual, final, ds. split_and!; try done.
  - unfold cfg_resources. by rewrite Hr.
  - by exists c, r.
Qed.

Lemma Forall_residual ds (residual rs : list ResourceDict) :
  ds ++ residual ≡ₚ rs -> Forall ok_demand rs -> Forall ok_demand residual.
Proof. intros Hp. rewrite <- Hp, Forall_app. naive_solver. Qed.

Lemma loop_refines fuel add rs add' rs' :
  Forall ok_demand rs ->
  loop fuel node_types existing_nodes head_node_type max_to_add strict_spread add rs = Ok (add', rs') ->
  exists groups, launch_run add rs groups add' rs'.
Proof.
  revert add rs; induction fuel as [|fuel IH]; intros add rs Hrs H;
    destruct rs as [|first rest]; cbn [get_nodes_for_loop] in H;
    try (simpl_result; eexists; by constructor).
  all: destruct (Z.leb_spec max_to_add (dsum add)) as [Hle|Hlt];
    [simpl_result; eexists; by apply run_budget|].
  { done. }
  bind_inv H. set (rs := first :: rest) in *.
  assert (Hsc : scored rs = if strict_spread then [first] else rs) by (by apply (eligible_take rs first rest)).
  rewrite <- Hsc in E.
  destruct (py_sorted_reverse _ a) as [|[sc best] others] eqn:Es.
  { simpl_result. apply scores_nonempty in Es. subst a. eexists. apply run_give_up.
    intros t sc (c & r & Hin & Hlim & Hr & Hs).
    apply score_types_complete in E as [_ E]. by apply (E t c r sc Hin Hr Hlim) in Hs; apply elem_of_nil in Hs. }
  assert (Hel : eligible add (scored rs) best sc).
  { eapply score_types_sound; [exact E|].
    rewrite <- (py_sorted_reverse_Permutation (fun x y => is_lt (score_compare x y)) a), Es. left. }
  destruct strict_spread eqn:Hstrict.
  - apply IH in H as [groups Hg]; [|by inversion Hrs].
    exists ((best, [first]) :: groups). eapply run_launch; try done; [reflexivity|].
    destruct Hel as (c & r & Hin & _ & Hr & Hs). unfold scored in Hs. rewrite Hstrict in Hs.
    destruct (config_of best c Hin) as (_ & r' & Hr' & _ & Hnn). rewrite Hr in Hr'. injection Hr' as <-.
    destruct (utilization_score_Some _ _ _ _ Hs) as (_ & d & Hd & Hf).
    apply list_elem_of_singleton in Hd as ->. inversion Hrs; subst. by eapply hosts_one.
  - destruct (round_in_place add rs best sc Hstrict Hrs Hel)
      as (c & r & residual & final & ds & Hc & Hr & Hb & Hne & Hp & Hh).
    subst rs. rewrite Hc in H. cbn [mbind result_bind] in H. rewrite Hr in H. cbn [mbind result_bind] in H.
    rewrite Hb in H. cbn [mbind result_bind] in H. bind_inv H.
    apply IH in H as [groups Hg]; [|by eapply Forall_residual].
    exists ((best, ds) :: groups). eapply run_launch; try done. by rewrite Hstrict.
Qed.

Lemma loop_total fuel add rs :
  Forall ok_demand rs -> (length rs <= fuel)%nat ->
  exists r, loop fuel node_types existing_nodes head_node_type max_to_add strict_spread add rs = Ok r.
Proof.
  revert add rs; induction fuel as [|fuel IH]; intros add rs Hrs Hlen;
    destruct rs as [|first rest]; cbn in Hlen; try lia; cbn [get_nodes_for_loop]; try by eexists.
  destruct (Z.leb_spec max_to_add (dsum add)) as [Hle|Hlt]; [by eexists|].
  set (rs := first :: rest) in *.
  assert (Hsc : scored rs = if strict_spread then [first] else rs) by (by apply (eligible_take rs first rest)).
  rewrite <- Hsc.
  assert (Hss : Forall ok_demand (scored rs)).
  { rewrite Hsc. destruct strict_spread; [|done]. inversion Hrs; subst. by apply list.Forall_singleton. }
  destruct (score_types_total add (scored rs) Hok Hss) as [scores E]. rewrite E.
  cbn [mbind result_bind].
  destruct (py_sorted_reverse _ scores) as [|[sc best] others] eqn:Es; [by eexists|].
  assert (Hel : eligible add (scored rs) best sc).
  { eapply score_types_sound; [exact E|].
    rewrite <- (py_sorted_reverse_Permutation (fun x y => is_lt (score_compare x y)) scores), Es. left. }
  destruct strict_spread eqn:Hstrict; [apply IH; [by inversion Hrs | lia]|].
  destruct (round_in_place add rs best sc Hstrict Hrs Hel)
    as (c & r & residual & final & ds & -> & Hr & Hb & Hne & Hp & Hh).
  subst rs. cbn [mbind result_bind]. rewrite Hr. cbn [mbind result_bind]. rewrite Hb. cbn [mbind result_bind].
  apply Permutation_length in Hp as Hl. rewrite length_app in Hl. cbn in Hl.
  assert (Hlr : (length residual < length (first :: rest))%nat) by (destruct ds; [done | cbn in *; lia]).
  unfold py_assert. rewrite (proj2 (Nat.ltb_lt _ _) Hlr). cbn [mbind result_bind].
  apply IH; [by eapply Forall_residual | cbn in Hlr; lia].
Qed.

(** ** Consequences of a run, by rule induction *)

Definition count_type t (groups : list (string * list ResourceDict)) : Z :=
  Zsum (map (fun g => if decide (g.1 = t) then 1%Z else 0%Z) groups).

Lemma run_wf add rs groups add' rs' :
  launch_run add rs groups add' rs' -> dwf add -> dwf add'.
Proof. induction 1; intros; auto. apply IHlaunch_run. by apply dwf_dincr. Qed.

Lemma run_counts add rs groups add' rs' :
  launch_run add rs groups add' rs' ->
  forall t, dget_or t 0%Z add' = (dget_or t 0 add + count_type t groups)%Z.
Proof.
  induction 1 as [| | |add rs t sc ds rs' groups add' rs'' Hb He Hp Hne Hh Hs Hr IH];
    intros u; unfold count_type, Zsum in *; cbn [map foldr fst]; try lia.
  rewrite IH, dget_or_dincr. lia.
Qed.

Lemma run_total add rs groups add' rs' :
  launch_run add rs groups add' rs' -> dwf add ->
  dsum add' = (dsum add + Z.of_nat (length groups))%Z /\
  (dsum add' <= Z.max (dsum add) max_to_add)%Z.
Proof.
  induction 1 as [| | |add rs t sc ds rs' groups add' rs'' Hb He Hp Hne Hh Hs Hr IH];
    intros Hwf; cbn [length]; try lia.
  destruct IH as [IH1 IH2]; [by apply dwf_dincr|]. rewrite dsum_dincr in IH1, IH2 by done. lia.
Qed.

Lemma run_type_limit add rs groups add' rs' :
  launch_run add rs groups add' rs' ->
  forall t c, dget t node_types = Some c ->
  (dget_or t 0 existing_nodes + dget_or t 0 add' <=
   Z.max (dget_or t 0 existing_nodes + dget_or t 0 add) (allowed_nodes head_node_type t c))%Z.
Proof.
  destruct Hok as [Hwf _].
  induction 1 as [| | |add rs t sc ds rs' groups add' rs'' Hb He Hp Hne Hh Hs Hr IH];
    intros u c Hu; try lia.
  specialize (IH u c Hu). rewrite dget_or_dincr in IH. case_decide as Htu; [subst u|lia].
  destruct He as (c' & r & Hin & Hlim & _). apply elem_dget in Hin; [|done].
  rewrite Hu in Hin. injection Hin as <-. lia.
Qed.

Lemma count_type_nonneg t groups : (0 <= count_type t groups)%Z.
Proof.
  unfold count_type. apply Zsum_nonneg. apply list.Forall_forall. intros z Hz.
  apply list_elem_of_In, in_map_iff in Hz as (g & <- & _). case_decide; lia.
Qed.

Lemma count_type_pos t groups : t ∈ groups.*1 -> (0 < count_type t groups)%Z.
Proof.
  intros Hin. apply list_elem_of_fmap in Hin as (g & -> & Hg).
  apply list_elem_of_split in Hg as (g1 & g2 & ->).
  unfold count_type. rewrite map_app, Zsum_app. cbn [map Zsum foldr].
  pose proof (count_type_nonneg g.1 g1) as H1. pose proof (count_type_nonneg g.1 g2) as H2.
  unfold count_type, Zsum in *. cbn. rewrite decide_True by done. lia.
Qed.

Lemma run_known_types add rs groups add' rs' :
  launch_run add rs groups add' rs' ->
  forall t, t ∈ dkeys add' -> t ∈ dkeys add \/ (t ∈ groups.*1 /\ t ∈ dkeys node_types).
Proof.
  induction 1 as [| | |add rs t sc ds rs' groups add' rs'' Hb He Hp Hne Hh Hs Hr IH];
    intros u Hu; auto.
  cbn [fmap list_fmap fst]. rewrite elem_of_cons.
  destruct (IH u Hu) as [Hk|Hk]; [|naive_solver]. unfold dincr in Hk.
  apply elem_dkeys_dset in Hk as [->|Hk]; [|by left]. right.
  destruct He as (c & r & Hin & _). split; [by left|]. apply list_elem_of_fmap. by exists (t, c).
Qed.

Lemma run_partition add rs groups add' rs' :
  launch_run add rs groups add' rs' -> concat groups.*2 ++ rs' ≡ₚ rs.
Proof.
  induction 1 as [| | |add rs t sc ds rs' groups add' rs'' Hb He Hp Hne Hh Hs Hr IH]; try done.
  cbn. rewrite <- app_assoc. change (list_fmap _ _ snd groups) with (groups.*2). by rewrite IH.
Qed.

Lemma run_hosts add rs groups add' rs' :
  launch_run add rs groups add' rs' ->
  Forall (fun g => hosts g.1 g.2 /\ (strict_spread = true -> length g.2 = 1%nat)) groups.
Proof. induction 1; constructor; auto. Qed.

Lemma run_stuck add rs groups add' rs' :
  launch_run add rs groups add' rs' -> rs' <> [] ->
  (max_to_add <= dsum add')%Z \/ forall t sc, ~ eligible add' (scored rs') t sc.
Proof. induction 1; intros; auto. Qed.

End Launch.

(** What the callers of [get_nodes_for] rely on. *)
Record launch_bounds (nts : NodeTypes) (existing : dict string Z) (head : string) (max_to_add : Z)
    (add : dict string Z) : Prop := mkBounds {
  lb_wf : dwf add;
  lb_pos : forall t n, (t, n) ∈ add -> (0 < n)%Z;
  lb_known : forall t, t ∈ dkeys add -> t ∈ dkeys nts;
  lb_type : forall t c, dget t nts = Some c ->
    (dget_or t 0 existing + dget_or t 0 add <= Z.max (dget_or t 0 existing) (allowed_nodes head t c))%Z;
  lb_total : (dsum add <= Z.max 0 max_to_add)%Z
}.

Lemma get_nodes_for_bounds g nts existing head max_to_add rs strict add residual :
  ok_node_types nts -> Forall ok_demand rs ->
  get_nodes_for g nts existing head max_to_add rs strict = Ok (add, residual) ->
  launch_bounds nts existing head max_to_add add.
Proof.
  intros Hok Hrs H. apply loop_refines in H as [groups H]; [|done..].
  pose proof (run_total _ _ _ _ _ _ _ _ _ _ _ H dwf_nil) as [_ Hmax]. rewrite dsum_nil in Hmax.
  split; [exact (run_wf _ _ _ _ _ _ _ _ _ _ _ H dwf_nil) | | | | done].
  - intros t n Hin. pose proof (run_wf _ _ _ _ _ _ _ _ _ _ _ H dwf_nil) as Hwf.
    destruct (run_known_types _ _ _ _ _ _ _ _ _ _ _ H t) as [C|[Hg _]].
    { apply list_elem_of_fmap. by exists (t, n). }
    { by apply elem_of_nil in C. }
    apply elem_dget in Hin; [|done]. apply count_type_pos in Hg.
    pose proof (run_counts _ _ _ _ _ _ _ _ _ _ _ H t) as Hc. rewrite dget_or_nil in Hc.
    unfold dget_or in Hc. rewrite Hin in Hc. cbn in Hc. lia.
  - intros t Ht. destruct (run_known_types _ _ _ _ _ _ _ _ _ _ _ H t Ht) as [C|[_ Hn]]; [|done].
    by apply elem_of_nil in C.
  - intros t c Hc. pose proof (run_type_limit _ _ _ _ _ _ Hok _ _ _ _ _ H t c Hc) as Hl.
    by rewrite dget_or_nil, Z.add_0_r in Hl.
Qed.

(** ** The theorems about [get_nodes_for] *)

Section Theorems.
Variable conserve_gpu_nodes : bool.

(** C2. On well-formed node types and positive demands [get_nodes_for]
    returns: the [while] loop terminates, no lookup fails, and its assertion
    that every round fulfils a demand never fails. *)
Theorem get_nodes_for_returns node_types existing_nodes head_node_type max_to_add resources strict_spread :
  ok_node_types node_types -> Forall ok_demand resources ->
  exists nodes_to_add residual,
    get_nodes_for conserve_gpu_nodes node_types existing_nodes head_node_type max_to_add
      resources strict_spread = Ok (nodes_to_add, residual).
Proof.
  intros Hok Hrs. unfold get_nodes_for.
  destruct (loop_total conserve_gpu_nodes node_types existing_nodes head_node_type max_to_add
              strict_spread Hok (length resources) [] resources Hrs) as [[x y] ->]; eauto.
Qed.

(** C3. The nodes [get_nodes_for] adds stay within the limits: at most
    [max_to_add] nodes in all, and no node type is brought above its
    [max_workers] (one more for the head's type). *)
Theorem get_nodes_for_within_limits node_types existing_nodes head_node_type max_to_add resources
    strict_spread nodes_to_add residual :
  ok_node_types node_types -> Forall ok_demand resources ->
  get_nodes_for conserve_gpu_nodes node_types existing_nodes head_node_type max_to_add
    resources strict_spread = Ok (nodes_to_add, residual) ->
  (0 <= dsum nodes_to_add <= Z.max 0 max_to_add)%Z /\
  forall t, t ∈ dkeys nodes_to_add ->
    exists c, dget t node_types = Some c /\ (0 < dget_or t 0 nodes_to_add)%Z /\
      (dget_or t 0 existing_nodes + dget_or t 0 nodes_to_add <=
       Z.max (dget_or t 0 existing_nodes) (allowed_nodes head_node_type t c))%Z.
Proof.
  intros Hok Hrs H. apply loop_refines in H as [groups H]; [|done..].
  pose proof (run_total _ _ _ _ _ _ _ _ _ _ _ H dwf_nil) as [Hs Hmax]. rewrite dsum_nil in *.
  split; [lia|]. intros t Ht.
  destruct (run_known_types _ _ _ _ _ _ _ _ _ _ _ H t Ht) as [C|[Hg Hn]].
  { by apply elem_of_nil in C. }
  apply dget_is_Some in Hn as [c Hc]. exists c. split; [done|].
  pose proof (run_type_limit _ _ _ _ _ _ Hok _ _ _ _ _ H t c Hc) as Hlim.
  rewrite dget_or_nil, Z.add_0_r in Hlim. split; [|done].
  rewrite (run_counts _ _ _ _ _ _ _ _ _ _ _ H t), dget_or_nil. by apply count_type_pos.
Qed.

(** C4. The demands that [get_nodes_for] does not return as residual are
    exactly those that the launched nodes host: they split into one group per
    added node, and each group fits on a fresh node of its type. In a strict
    spread every group is a single demand. *)
Theorem get_nodes_for_hosts_demands node_types existing_nodes head_node_type max_to_add resources
    strict_spread nodes_to_add residual :
  ok_node_types node_types -> Forall ok_demand resources ->
  get_nodes_for conserve_gpu_nodes node_types existing_nodes head_node_type max_to_add
    resources strict_spread = Ok (nodes_to_add, residual) ->
  exists groups : list (string * list ResourceDict),
    concat groups.*2 ++ residual ≡ₚ resources /\
    (forall t, dget_or t 0%Z nodes_to_add = count_type t groups) /\
    Forall (fun g => hosts node_types g.1 g.2 /\ (strict_spread = true -> length g.2 = 1%nat)) groups.
Proof.
  intros Hok Hrs H. apply loop_refines in H as [groups H]; [|done..].
  exists groups. split_and!.
  - exact (run_partition _ _ _ _ _ _ _ _ _ _ _ H).
  - intros t. by rewrite (run_counts _ _ _ _ _ _ _ _ _ _ _ H t), dget_or_nil.
  - exact (run_hosts _ _ _ _ _ _ _ _ _ _ _ H).
Qed.

(** C37. [get_nodes_for] leaves a demand unfulfilled only when the budget is
    spent or no node type below its limit scores on the demands it looks at. *)
Theorem get_nodes_for_gives_up_when_stuck node_types existing_nodes head_node_type max_to_add resources
    strict_spread nodes_to_add residual :
  ok_node_types node_types -> Forall ok_demand resources ->
  get_nodes_for conserve_gpu_nodes node_types existing_nodes head_node_type max_to_add
    resources strict_spread = Ok (nodes_to_add, residual) ->
  residual <> [] ->
  (max_to_add <= dsum nodes_to_add)%Z \/
  forall t c r, (t, c) ∈ node_types -> ntc_resources c = Some r ->
    (dget_or t 0 existing_nodes + dget_or t 0 nodes_to_add < allowed_nodes head_node_type t c)%Z ->
    _utilization_score conserve_gpu_nodes r (scored strict_spread residual) = Ok None.
Proof.
  intros Hok Hrs H Hne. apply loop_refines in H as [groups H]; [|done..].
  destruct (run_stuck _ _ _ _ _ _ _ _ _ _ _ H Hne) as [Hb|Hst]; [by left|]. right.
  intros t c r Hin Hr Hlim. pose proof (run_partition _ _ _ _ _ _ _ _ _ _ _ H) as Hp.
  assert (Hres : Forall ok_demand (scored strict_spread residual)).
  { apply (Forall_residual (concat groups.*2) residual resources) in Hrs; [|done].
    unfold scored. destruct strict_spread; [by apply Forall_take | done]. }
  destruct (utilization_score_total conserve_gpu_nodes r _ Hres) as [[sc|] Hsc]; [|done].
  exfalso. apply (Hst t sc). by exists c, r.
Qed.

End Theorems.

(** *** Witnesses *)

Definition ex_types : NodeTypes :=
  [("head", mkNodeType (Some [("CPU", 2%Q)]) (Some 0%Z) (Some 0%Z) None []);
   ("cpu", mkNodeType (Some [("CPU", 4%Q)]) (Some 0%Z) (Some 2%Z) None []);
   ("gpu", mkNodeType (Some [("CPU", 4%Q); ("GPU", 1%Q)]) (Some 0%Z) (Some 1%Z) None [])].
Definition ex_existing : dict string Z := [("head", 1%Z)].
Definition ex_requests : list ResourceDict :=
  [[("CPU", 4%Q)]; [("CPU", 1%Q); ("GPU", 1%Q)]; [("CPU", 2%Q)]; [("CPU", 8%Q)]].

Lemma get_nodes_for_returns_witness :
  exists nodes_to_add residual,
    get_nodes_for true ex_types ex_existing "head" 10 ex_requests false = Ok (nodes_to_add, residual).
Proof. apply (get_nodes_for_returns true ex_types ex_existing "head" 10 ex_requests false); by_compute. Defined.

Lemma get_nodes_for_within_limits_witness :
  (0 <= dsum [("gpu", 1%Z); ("cpu", 1%Z)] <= Z.max 0 10)%Z /\
  forall t, t ∈ dkeys [("gpu", 1%Z); ("cpu", 1%Z)] ->
    exists c, dget t ex_types = Some c /\ (0 < dget_or t 0 [("gpu", 1%Z); ("cpu", 1%Z)])%Z /\
      (dget_or t 0 ex_existing + dget_or t 0 [("gpu", 1%Z); ("cpu", 1%Z)] <=
       Z.max (dget_or t 0 ex_existing) (allowed_nodes "head" t c))%Z.
Proof.
  apply (get_nodes_for_within_limits true ex_types ex_existing "head" 10 ex_requests false _ [[("CPU", 8%Q)]]);
    [by_compute | by_compute | vm_compute; reflexivity].
Defined.

Lemma get_nodes_for_hosts_demands_witness :
  exists groups : list (string * list ResourceDict),
    concat groups.*2 ++ [[("CPU", 8%Q)]] ≡ₚ ex_requests /\
    (forall t, dget_or t 0%Z [("gpu", 1%Z); ("cpu", 1%Z)] = count_type t groups) /\
    Forall (fun g => hosts ex_types g.1 g.2 /\ (false = true -> length g.2 = 1%nat)) groups.
Proof.
  apply (get_nodes_for_hosts_demands true ex_types ex_existing "head" 10 ex_requests false);
    [by_compute | by_compute | vm_compute; reflexivity].
Defined.

Lemma get_nodes_for_gives_up_when_stuck_witness :
  (10 <= dsum [("gpu", 1%Z); ("cpu", 1%Z)])%Z \/
  forall t c r, (t, c) ∈ ex_types -> ntc_resources c = Some r ->
    (dget_or t 0 ex_existing + dget_or t 0 [("gpu", 1%Z); ("cpu", 1%Z)] < allowed_nodes "head" t c)%Z ->
    _utilization_score true r (scored false [[("CPU", 8%Q)]]) = Ok None.
Proof.
  apply (get_nodes_for_gives_up_when_stuck true ex_types ex_existing "head" 10 ex_requests false);
    [by_compute | by_compute | vm_compute; reflexivity | done].
Defined.
