(* ===== verification/NodeProvider.v ===== *)
(** The interface between the autoscaler and a cloud
    ([ray/autoscaler/node_provider.py]), with two of its implementations: the
    fake multi-node provider and the read-only provider. *)

From Stdlib Require Import ZArith QArith Lqa Lia Ascii.
From stdpp Require Import base list strings option pretty.
From S2P Require Import Prelude PyDict Resources NodeTypes.

(** ** Tags ([ray/autoscaler/tags.py]) *)

Definition TAG_RAY_NODE_NAME : string := "ray-node-name".
Definition TAG_RAY_NODE_KIND : string := "ray-node-type".
Definition NODE_KIND_HEAD : string := "head".
Definition NODE_KIND_WORKER : string := "worker".
Definition NODE_KIND_UNMANAGED : string := "unmanaged".
Definition TAG_RAY_USER_NODE_TYPE : string := "ray-user-node-type".
Definition TAG_RAY_NODE_STATUS : string := "ray-node-status".
Definition STATUS_UNINITIALIZED : string := "uninitialized".
Definition STATUS_UPDATE_FAILED : string := "update-failed".
Definition STATUS_UP_TO_DATE : string := "up-to-date".
Definition TAG_RAY_LAUNCH_CONFIG : string := "ray-launch-config".
Definition TAG_RAY_RUNTIME_CONFIG : string := "ray-runtime-config".
Definition TAG_RAY_FILE_MOUNTS_CONTENTS : string := "ray-file-mounts-contents".

Abbreviation Tags := (dict string string).
Abbreviation NodeID := string.
Abbreviation NodeIP := string.

(** ** The interface *)

Class NodeProvider (P : Type) : Type := {
  is_readonly : P -> bool;
  non_terminated_nodes : P -> Tags -> list NodeID;
  node_tags : P -> NodeID -> result Tags;
  internal_ip : P -> NodeID -> result NodeIP;
  create_node_with_resources : yaml -> Tags -> Z -> ResourceDict -> ST P unit;
  terminate_node : NodeID -> ST P unit
}.

(** [terminate_nodes], which a provider inherits *)
Definition terminate_nodes {P} `{!NodeProvider P} (node_ids : list NodeID) : ST P unit :=
  st_for node_ids terminate_node.

(** The nodes' tags satisfy the filter [tag_filters]. *)
Definition tags_match (tag_filters tags : Tags) : bool :=
  forallb (fun kv => bool_decide (dget kv.1 tags = Some kv.2)) tag_filters.

(** What the interface's documentation promises: the node list holds nodes
    with tags that satisfy the filter, and a terminated node leaves it while
    the others stay. *)
Class NodeProviderLaws (P : Type) `{!NodeProvider P} (inv : P -> Prop) : Prop := {
  listed_nodes_have_tags p f n :
    inv p -> n ∈ non_terminated_nodes p f ->
    exists tags, node_tags p n = Ok tags /\ tags_match f tags = true;
  terminated_node_leaves p n p' f :
    inv p -> terminate_node n p = (p', Ok tt) -> n ∉ non_terminated_nodes p' f;
  terminate_keeps_others p n p' m f :
    inv p -> terminate_node n p = (p', Ok tt) -> m <> n ->
    m ∈ non_terminated_nodes p' f <-> m ∈ non_terminated_nodes p f;
  terminate_inv p n p' r : inv p -> terminate_node n p = (p', r) -> inv p'
}.

(** ** [FakeMultiNodeProvider] *)

Module Fake.

Definition FAKE_HEAD_NODE_ID : string :=
  "fffffffffffffffffffffffffffffffffffffffffffffffffff00000".
Definition FAKE_HEAD_NODE_TYPE : string := "ray.head.default".
Definition ID_BASE : string := "fffffffffffffffffffffffffffffffffffffffffffffffffff".

(** A node's entry: its tags, and whether it has a ["node"] field (the
    process handle, which the head's entry lacks) *)
Record node_entry : Type := mkEntry { tags : Tags; has_node : bool }.

Record FakeMultiNodeProvider : Type := mkFake {
  _nodes : dict NodeID node_entry;
  _next_node_id : N
}.

(** [__init__], with [RAY_FAKE_CLUSTER] in the environment or not *)
Definition __init__ (ray_fake_cluster : bool) : result FakeMultiNodeProvider :=
  if negb ray_fake_cluster then Err RuntimeError
  else Ok (mkFake
    [(FAKE_HEAD_NODE_ID,
      mkEntry [(TAG_RAY_NODE_KIND, NODE_KIND_HEAD);
               (TAG_RAY_USER_NODE_TYPE, FAKE_HEAD_NODE_TYPE);
               (TAG_RAY_NODE_NAME, FAKE_HEAD_NODE_ID);
               (TAG_RAY_NODE_STATUS, STATUS_UP_TO_DATE)] false)] 0%N).

(** [s.zfill(n)] for a string of digits *)
Fixpoint zeros (n : nat) : string :=
  match n with O => "" | S n' => String "0"%char (zeros n') end.
Definition zfill (n : nat) (s : string) : string := zeros (n - String.length s) +:+ s.

Definition _next_hex_node_id : ST FakeMultiNodeProvider string :=
  _ ← st_modify (fun p => mkFake (_nodes p) (_next_node_id p + 1)%N);
  n ← st_gets _next_node_id;
  mret (ID_BASE +:+ zfill 5 (pretty n)).

Definition node_tags (p : FakeMultiNodeProvider) (node_id : NodeID) : result Tags :=
  e ← dgetitem node_id (_nodes p); Ok (tags e).

(** Each listed node is a key, so [node_tags] does not raise in the loop. *)
Definition non_terminated_nodes (p : FakeMultiNodeProvider) (tag_filters : Tags) : list NodeID :=
  (filter (fun nd => tags_match tag_filters (tags nd.2) = true) (_nodes p)).*1.

Definition is_running (p : FakeMultiNodeProvider) (node_id : NodeID) : bool := dmem node_id (_nodes p).
Definition is_terminated (p : FakeMultiNodeProvider) (node_id : NodeID) : bool := negb (dmem node_id (_nodes p)).
Definition internal_ip (p : FakeMultiNodeProvider) (node_id : NodeID) : result NodeIP := Ok node_id.

(** [count] is not used: one call starts one node. *)
Definition create_node_with_resources (node_config : yaml) (tgs : Tags) (count : Z)
    (resources : ResourceDict) : ST FakeMultiNodeProvider unit :=
  node_type ← st_lift (dgetitem TAG_RAY_USER_NODE_TYPE tgs);
  next_id ← _next_hex_node_id;
  st_modify (fun p => mkFake (dset next_id
    (mkEntry [(TAG_RAY_NODE_KIND, NODE_KIND_WORKER);
              (TAG_RAY_USER_NODE_TYPE, node_type);
              (TAG_RAY_NODE_NAME, next_id);
              (TAG_RAY_NODE_STATUS, STATUS_UP_TO_DATE)] true) (_nodes p)) (_next_node_id p)).

(** [self._nodes.pop(node_id)["node"]]: the entry is popped also when it has
    no ["node"]. *)
Definition terminate_node (node_id : NodeID) : ST FakeMultiNodeProvider unit :=
  p ← st_get;
  e ← st_lift (dgetitem node_id (_nodes p));
  _ ← st_put (mkFake (ddel node_id (_nodes p)) (_next_node_id p));
  if has_node e then mret tt else st_raise KeyError.

#[global] Instance provider : NodeProvider FakeMultiNodeProvider := {|
  NodeProvider.is_readonly _ := false;
  NodeProvider.non_terminated_nodes := non_terminated_nodes;
  NodeProvider.node_tags := node_tags;
  NodeProvider.internal_ip := internal_ip;
  NodeProvider.create_node_with_resources := create_node_with_resources;
  NodeProvider.terminate_node := terminate_node
|}.

End Fake.

(** ** [ReadOnlyNodeProvider] *)

Module ReadOnly.

Record ReadOnlyNodeProvider : Type := mkReadOnly {
  nodes : dict NodeID (string * NodeIP)  (* node_type, ip *)
}.

Definition __init__ : ReadOnlyNodeProvider := mkReadOnly [].

(** [format_readonly_node_type] of [autoscaler/_private/util.py] *)
Definition format_readonly_node_type (node_id : string) : string := "node_" +:+ node_id.

Definition _set_nodes (new : list (string * string)) : ST ReadOnlyNodeProvider unit :=
  st_put (mkReadOnly (foldl (fun d nd => dset nd.1 (format_readonly_node_type nd.1, nd.2) d) [] new)).

(** The tag filters are ignored. *)
Definition non_terminated_nodes (p : ReadOnlyNodeProvider) (tag_filters : Tags) : list NodeID :=
  dkeys (nodes p).

Definition node_tags (p : ReadOnlyNodeProvider) (node_id : NodeID) : result Tags :=
  e ← dgetitem node_id (nodes p);
  Ok [(TAG_RAY_NODE_KIND, NODE_KIND_HEAD);
      (TAG_RAY_USER_NODE_TYPE, e.1);
      (TAG_RAY_NODE_NAME, node_id);
      (TAG_RAY_NODE_STATUS, STATUS_UP_TO_DATE)].

Definition internal_ip (p : ReadOnlyNodeProvider) (node_id : NodeID) : result NodeIP := Ok node_id.

#[global] Instance provider : NodeProvider ReadOnlyNodeProvider := {|
  NodeProvider.is_readonly _ := true;
  NodeProvider.non_terminated_nodes := non_terminated_nodes;
  NodeProvider.node_tags := node_tags;
  NodeProvider.internal_ip := internal_ip;
  NodeProvider.create_node_with_resources _ _ _ _ := st_raise AssertionError;
  NodeProvider.terminate_node _ := st_raise AssertionError
|}.

End ReadOnly.

(** ** Properties of the fake provider *)

Section FakeProofs.
Import Fake.

(** The id of the n-th node *)
Definition node_id_of (n : N) : string := ID_BASE +:+ zfill 5 (pretty n).

(** Reading a string of decimal digits back, after the value [acc] *)
Fixpoint digits_value (acc : N) (s : string) : N :=
  match s with
  | EmptyString => acc
  | String c s' => digits_value (acc * 10 + (Ascii.N_of_ascii c - 48))%N s'
  end.

Lemma digit_value (x : N) : (x < 10)%N -> (Ascii.N_of_ascii (pretty_N_char x) - 48)%N = x.
Proof.
  intros Hx. assert (Hc : x ∈ [0; 1; 2; 3; 4; 5; 6; 7; 8; 9]%N).
  { rewrite !elem_of_cons, elem_of_nil. lia. }
  revert x Hx Hc. intros x _ Hc.
  repeat (apply elem_of_cons in Hc as [->|Hc]; [reflexivity|]). by apply elem_of_nil in Hc.
Qed.

Lemma digits_value_go (x : N) (s : string) : digits_value 0 (pretty_N_go x s) = digits_value x s.
Proof.
  revert s. induction (N.lt_wf_0 x) as [x _ IH]; intros s.
  destruct (decide (x = 0%N)) as [->|Hx]; [by rewrite pretty_N_go_0|].
  rewrite pretty_N_go_step by lia. rewrite IH by (apply N.div_lt; lia).
  cbn [digits_value]. rewrite digit_value by (apply N.mod_lt; lia). f_equal.
  pose proof (N.div_mod x 10). lia.
Qed.

Lemma digits_value_pretty (n : N) : digits_value 0 (pretty n) = n.
Proof.
  unfold pretty, pretty_N. destruct (decide (n = 0%N)); [by subst|]. by rewrite digits_value_go.
Qed.

Lemma digits_value_zeros k s : digits_value 0 (zeros k +:+ s) = digits_value 0 s.
Proof. induction k; [done|]. exact IHk. Qed.

#[global] Instance node_id_of_inj : Inj (=) (=) node_id_of.
Proof.
  intros a b H. unfold node_id_of in H. apply (inj (String.append ID_BASE)) in H.
  apply (f_equal (digits_value 0)) in H. unfold zfill in H.
  by rewrite !digits_value_zeros, !digits_value_pretty in H.
Qed.

(** The provider's invariant: its dict has no duplicate keys and every id
    was generated by the counter. *)
Definition fake_inv (p : FakeMultiNodeProvider) : Prop :=
  dwf (_nodes p) /\ forall id, id ∈ dkeys (_nodes p) -> exists n, id = node_id_of n /\ (n <= _next_node_id p)%N.

Lemma fake_init_inv p : Fake.__init__ true = Ok p -> fake_inv p.
Proof.
  intros [= <-]. split; [by_compute|]. cbn. intros id Hid. exists 0%N.
  apply list_elem_of_singleton in Hid as ->. split; [vm_compute; reflexivity | done].
Qed.

Lemma elem_of_listed p f n :
  n ∈ non_terminated_nodes p f <-> exists e, (n, e) ∈ _nodes p /\ tags_match f (tags e) = true.
Proof.
  unfold non_terminated_nodes. rewrite list_elem_of_fmap. split.
  - intros ([n' e] & -> & Hin). rewrite list_elem_of_filter in Hin. naive_solver.
  - intros (e & Hin & Hm). exists (n, e). rewrite list_elem_of_filter. naive_solver.
Qed.

#[global] Instance fake_laws : NodeProviderLaws FakeMultiNodeProvider fake_inv.
Proof.
  assert (Hterm : forall p n p' r, Fake.terminate_node n p = (p', r) ->
    p' = p \/ p' = mkFake (ddel n (_nodes p)) (_next_node_id p)).
  { intros p n p' r. unfold Fake.terminate_node, dgetitem. st_simpl.
    destruct (dget n (_nodes p)) as [e|]; cbn; [destruct (has_node e); cbn|];
      intros H; inversion H; subst; auto. }
  assert (Hok : forall p n p', Fake.terminate_node n p = (p', Ok tt) ->
    p' = mkFake (ddel n (_nodes p)) (_next_node_id p)).
  { intros p n p'. unfold Fake.terminate_node, dgetitem. st_simpl.
    destruct (dget n (_nodes p)) as [e|]; cbn; [|done].
    destruct (has_node e); cbn; [|done]. intros H; by inversion H. }
  split; cbn.
  - intros p f n [Hwf _] Hin. apply elem_of_listed in Hin as (e & Hin & Hm).
    exists (tags e). split; [|done]. unfold Fake.node_tags, dgetitem. by rewrite (elem_dget n e).
  - intros p n p' f [Hwf _] ->%Hok Hin. apply elem_of_listed in Hin as (e & Hin & _). cbn in Hin.
    apply elem_dget in Hin; [|by apply dwf_ddel]. by rewrite dget_ddel_eq in Hin.
  - intros p n p' m f [Hwf _] ->%Hok Hne. rewrite !elem_of_listed. cbn.
    split; intros (e & Hin & Hm); exists e; (split; [|done]).
    + apply elem_dget in Hin; [|by apply dwf_ddel]. rewrite dget_ddel_ne in Hin by done. by apply dget_elem.
    + apply elem_dget in Hin; [|done]. apply dget_elem. by rewrite dget_ddel_ne.
  - intros p n p' r [Hwf Hid] [-> | ->]%Hterm; [done|]. split; cbn; [by apply dwf_ddel|].
    intros id Hin. apply Hid. by eapply dkeys_ddel_subset.
Qed.

(** [FakeMultiNodeProvider.create_node_with_resources] starts exactly one
    node, with a fresh id, whatever [count] asks for, and keeps the
    provider's invariant. *)
Theorem fake_create_starts_one_node p node_config tgs count resources p' :
  fake_inv p ->
  Fake.create_node_with_resources node_config tgs count resources p = (p', Ok tt) ->
  fake_inv p' /\
  exists id, id ∉ non_terminated_nodes p [] /\
    non_terminated_nodes p' [] = non_terminated_nodes p [] ++ [id].
Proof.
  intros [Hwf Hid] H. unfold Fake.create_node_with_resources, _next_hex_node_id, dgetitem in H. st_simpl in H.
  destruct (dget TAG_RAY_USER_NODE_TYPE tgs) as [nt|]; cbn in H; [|done]. injection H as <-.
  change (ID_BASE +:+ zfill 5 (pretty (_next_node_id p + 1)%N)) with (node_id_of (_next_node_id p + 1)).
  set (id := node_id_of (_next_node_id p + 1)).
  assert (Hfresh : id ∉ dkeys (_nodes p)).
  { intros (n & Hn & Hle)%Hid. unfold id in Hn. apply (inj node_id_of) in Hn. lia. }
  assert (Hall : forall q, non_terminated_nodes q [] = dkeys (_nodes q)).
  { intros q. unfold non_terminated_nodes, dkeys, tags_match. cbn [forallb].
    induction (_nodes q) as [|x l IH]; [done|]. rewrite filter_cons_True by done. cbn. by f_equal. }
  split; [split; cbn|].
  - by apply dwf_dset.
  - intros x Hx. apply elem_dkeys_dset in Hx as [->|Hx]; [by exists (_next_node_id p + 1)%N|].
    destruct (Hid x Hx) as (n & -> & Hn). exists n. split; [done | lia].
  - exists id. rewrite !Hall. split; [done|]. cbn [_nodes]. rewrite dkeys_dset. by rewrite decide_False.
Qed.

Lemma fake_create_starts_one_node_witness :
  exists p p', Fake.__init__ true = Ok p /\
    Fake.create_node_with_resources YNull [(TAG_RAY_USER_NODE_TYPE, "cpu")] 5 [] p = (p', Ok tt) /\
    length (non_terminated_nodes p' []) = 2%nat /\
    (fake_inv p' /\ exists id, id ∉ non_terminated_nodes p [] /\
      non_terminated_nodes p' [] = non_terminated_nodes p [] ++ [id]).
Proof.
  eexists _, _. split; [reflexivity|]. split; [vm_compute; reflexivity|]. split; [reflexivity|].
  eapply (fake_create_starts_one_node _ YNull [(TAG_RAY_USER_NODE_TYPE, "cpu")] 5 []);
    [apply fake_init_inv; reflexivity | vm_compute; reflexivity].
Defined.

End FakeProofs.
