(* ===== verification/DemandScheduler.v ===== *)
(** The class [ResourceDemandScheduler] and the functions around it
    ([resource_demand_scheduler.py]): given the cluster's nodes and the
    resource demands, how many nodes of which type to launch. *)

From Stdlib Require Import ZArith QArith Qround Lqa Lia.
From stdpp Require Import base list strings option pretty.
From S2P Require Import Prelude PyDict Resources NodeTypes BinPacking NodesFor NodeProvider.

(** ** Module-level functions *)

Definition UPSCALING_INITIAL_NUM_NODES : Z := 5.

Definition MEMORY_RESOURCE_UNIT_BYTES : Q := 1.

(** [ray_constants.to_memory_units] *)
Definition to_memory_units (memory_bytes : Q) (round_up : bool) : result Z :=
  let value := (memory_bytes / MEMORY_RESOURCE_UNIT_BYTES)%Q in
  if Qlt_bool value 1 then Err ValueError
  else Ok (if round_up then Qceiling value else Qfloor value).

(** The conversion of one key of a resources dict *)
Definition convert_key (key : string) (res : ResourceDict) : result ResourceDict :=
  match dget key res with
  | None => Ok res
  | Some size => u ← to_memory_units size false; Ok (dset key (inject_Z u) res)
  end.

(** The body of [_convert_memory_unit]'s loop *)
Definition convert_config (nt : string * NodeTypeConfig) : result (string * NodeTypeConfig) :=
  let '(t, c) := nt in
  match ntc_resources c with
  | None => Ok (t, c)
  | Some res =>
      res1 ← convert_key "memory" res;
      res2 ← convert_key "object_store_memory" res1;
      Ok (t, set_resources res2 c)
  end.

Definition _convert_memory_unit (node_types : NodeTypes) : result NodeTypes :=
  mapM_r convert_config node_types.

(** [[node_types[t]["resources"].copy() for _ in range(count)]] *)
Definition repeat_resources (node_types : NodeTypes) (t : string) (count : Z) : result (list ResourceDict) :=
  if (count <=? 0)%Z then Ok []
  else c ← dgetitem t node_types; r ← cfg_resources c; Ok (replicate (Z.to_nat count) r).

Definition _node_type_counts_to_node_resources (node_types : NodeTypes)
    (node_type_counts : dict string Z) : result (list ResourceDict) :=
  foldM (fun acc tc => rs ← repeat_resources node_types tc.1 tc.2; Ok (acc ++ rs)) [] node_type_counts.

(** ** [_add_min_workers_nodes] *)

(** [node_resources], [node_type_counts] and [total_nodes_to_add_dict] *)
Record min_state : Type := mkMin {
  ms_resources : list ResourceDict;
  ms_counts : dict string Z;
  ms_to_add : dict string Z
}.

(** The number of nodes of a type that its [min_workers] asks for *)
Definition min_target (head_node_type : string) (t : string) (c : NodeTypeConfig) : Z :=
  let target := Z.min (cfg_min_workers c) (cfg_max_workers c) in
  if bool_decide (t = head_node_type) then (target + 1)%Z else target.

(** The body of the loop over the node types *)
Definition add_min_one (node_types : NodeTypes) (head_node_type : string) (s : min_state)
    (nt : string * NodeTypeConfig) : result min_state :=
  let '(t, c) := nt in
  let existing := dget_or t 0%Z (ms_counts s) in
  let target := min_target head_node_type t c in
  if (existing <? target)%Z then
    rs ← repeat_resources node_types t (target - existing);
    Ok (mkMin (ms_resources s ++ rs) (dset t target (ms_counts s))
          (dset t (target - existing)%Z (ms_to_add s)))
  else Ok s.

(** The body of the loop over the nodes added for [request_resources] *)
Definition add_requested_one (node_types : NodeTypes) (s : min_state) (tn : string * Z) : result min_state :=
  let '(t, nodes_to_add) := tn in
  if (0 <? nodes_to_add)%Z then
    rs ← repeat_resources node_types t nodes_to_add;
    Ok (mkMin (ms_resources s ++ rs)
          (dset t (nodes_to_add + dget_or t 0 (ms_counts s))%Z (ms_counts s))
          (dset t (nodes_to_add + dget_or t 0 (ms_to_add s))%Z (ms_to_add s)))
  else Ok s.

Section Functions.
Variable conserve_gpu_nodes : bool.

Definition _add_min_workers_nodes (node_resources : list ResourceDict) (node_type_counts : dict string Z)
    (node_types : NodeTypes) (max_workers : Z) (head_node_type : string)
    (ensure_min_cluster_size : list ResourceDict) : result min_state :=
  s ← foldM (add_min_one node_types head_node_type) (mkMin node_resources node_type_counts []) node_types;
  match ensure_min_cluster_size with
  | [] => Ok s
  | _ :: _ =>
      let max_to_add := (max_workers + 1 - dsum (ms_counts s))%Z in
      max_node_resources ← _node_type_counts_to_node_resources node_types (ms_counts s);
      '(unf, _) ← get_bin_pack_residual max_node_resources ensure_min_cluster_size false;
      '(nodes_to_add, _) ← get_nodes_for conserve_gpu_nodes node_types (ms_counts s) head_node_type
                              max_to_add unf false;
      foldM (add_requested_one node_types) s nodes_to_add
  end.

End Functions.

(** ** Placement groups *)

Inductive PlacementStrategy : Type :=
| PACK
| SPREAD
| STRICT_PACK
| STRICT_SPREAD
| UNKNOWN_STRATEGY.

(** What the scheduler reads of a [PlacementGroupTableData]: the strategy
    and the bundles' [unit_resources] *)
Record PlacementGroup : Type := mkPG {
  pg_strategy : PlacementStrategy;
  pg_bundles : list ResourceDict
}.

(** [combined[label] += quantity] over all shapes, from an empty [defaultdict(float)] *)
Definition combine_shapes (shapes : list ResourceDict) : ResourceDict :=
  foldl (fun combined shape =>
    foldl (fun c lq => dset lq.1 (rget lq.1 c + lq.2)%Q c) combined shape) [] shapes.

(** The body of the loop over the groups *)
Definition convert_group (acc : list ResourceDict * list (list ResourceDict)) (pg : PlacementGroup)
    : list ResourceDict * list (list ResourceDict) :=
  let '(vector, unconverted) := acc in
  match pg_strategy pg with
  | PACK | SPREAD => (vector ++ pg_bundles pg, unconverted)
  | STRICT_PACK => (vector ++ [combine_shapes (pg_bundles pg)], unconverted)
  | STRICT_SPREAD => (vector, unconverted ++ [pg_bundles pg])
  | UNKNOWN_STRATEGY => (vector, unconverted)
  end.

Definition placement_groups_to_resource_demands (pending : list PlacementGroup)
    : list ResourceDict * list (list ResourceDict) :=
  foldl convert_group ([], []) pending.

(** ** The class *)

Section Scheduler.
Context {P : Type} `{!NodeProvider P}.
Variable conserve_gpu_nodes : bool.

Record Scheduler : Type := mkScheduler {
  provider : P;
  node_types : NodeTypes;
  node_resource_updated : list string;  (* a set *)
  max_workers : Z;
  head_node_type : string;
  upscaling_speed : Q
}.

Definition set_node_types (nts : NodeTypes) (s : Scheduler) : Scheduler :=
  mkScheduler (provider s) nts (node_resource_updated s) (max_workers s) (head_node_type s)
    (upscaling_speed s).

Definition __init__ (p : P) (nts : NodeTypes) (mw : Z) (head : string) (speed : Q) : result Scheduler :=
  nts' ← _convert_memory_unit nts;
  Ok (mkScheduler p nts' [] mw head speed).

(** [is_legacy_yaml(node_types)]; without an argument, or with an empty one,
    it looks at the scheduler's own node types *)
Definition is_legacy_yaml (s : Scheduler) (nts : NodeTypes) : bool :=
  let nts := match nts with [] => node_types s | _ => nts end in
  dmem NODE_TYPE_LEGACY_HEAD nts && dmem NODE_TYPE_LEGACY_WORKER nts.

(** [_update_based_on_node_config], local to [reset_config] *)
Definition _update_based_on_node_config (new_node_types : NodeTypes) (node_type : string)
    : ST Scheduler unit :=
  s ← st_get;
  old ← st_lift (dgetitem node_type (node_types s));
  old_config ← st_lift (or_raise KeyError (ntc_node_config old));
  new ← st_lift (dgetitem node_type new_node_types);
  new_config ← st_lift (or_raise KeyError (ntc_node_config new));
  if yaml_eqb old_config new_config then
    old_resources ← st_lift (cfg_resources old);
    new' ← match old_resources with
           | [] => mret new
           | _ :: _ => _ ← st_lift (cfg_resources new); mret (del_resources new)
           end;
    st_modify (fun s => set_node_types (dset node_type (update_config old new') (node_types s)) s)
  else st_modify (fun s => set_node_types (dset node_type new (node_types s)) s).

Definition reset_config (p : P) (nts : NodeTypes) (mw : Z) (head : string) (speed : Q)
    : ST Scheduler unit :=
  final ← st_lift (_convert_memory_unit nts);
  s ← st_get;
  final' ← (if is_legacy_yaml s nts && is_legacy_yaml s [] then
              _ ← _update_based_on_node_config nts NODE_TYPE_LEGACY_HEAD;
              _ ← _update_based_on_node_config nts NODE_TYPE_LEGACY_WORKER;
              st_gets node_types
            else mret final);
  st_put (mkScheduler p final' [] mw head speed).

(** [is_feasible(bundle)]: the loop stops at the first type that fits *)
Fixpoint is_feasible_loop (head : string) (bundle : ResourceDict) (nts : NodeTypes) : result bool :=
  match nts with
  | [] => Ok false
  | (t, c) :: nts' =>
      node_resources ← cfg_resources c;
      if (bool_decide (t = head) || (0 <? cfg_max_workers c)%Z) && _fits node_resources bundle
      then Ok true
      else is_feasible_loop head bundle nts'
  end.

Definition is_feasible (s : Scheduler) (bundle : ResourceDict) : result bool :=
  is_feasible_loop (head_node_type s) bundle (node_types s).

(** [_update_node_resources_from_runtime]: the body of the loop over the nodes *)
Definition update_from_runtime_one (max_resources_by_ip : dict NodeIP ResourceDict) (node_id : NodeID)
    : ST Scheduler unit :=
  s ← st_get;
  tags ← st_lift (node_tags (provider s) node_id);
  match dget TAG_RAY_USER_NODE_TYPE tags with
  | None => mret tt
  | Some node_type =>
      match dget node_type (node_types s) with
      | None => mret tt
      | Some c =>
          if bool_decide (node_type ∈ node_resource_updated s) then mret tt
          else
            ip ← st_lift (internal_ip (provider s) node_id);
            match default [] (dget ip max_resources_by_ip) with
            | [] => mret tt
            | (_ :: _) as runtime_resources =>
                let resources :=
                  foldl (fun r key => match dget key runtime_resources with
                                      | Some v => dset key v r
                                      | None => r
                                      end)
                    (default [] (ntc_resources c)) ["CPU"; "GPU"; "memory"; "object_store_memory"] in
                _ ← st_modify (fun s =>
                      set_node_types (dset node_type (set_resources resources c) (node_types s)) s);
                node_kind ← st_lift (dgetitem TAG_RAY_NODE_KIND tags);
                if bool_decide (node_kind = NODE_KIND_WORKER) then
                  st_modify (fun s => mkScheduler (provider s) (node_types s)
                    (node_resource_updated s ++ [node_type]) (max_workers s) (head_node_type s)
                    (upscaling_speed s))
                else mret tt
            end
      end
  end.

Definition _update_node_resources_from_runtime (nodes : list NodeID)
    (max_resources_by_ip : dict NodeIP ResourceDict) : ST Scheduler unit :=
  s ← st_get;
  if (length (node_types s) =? length (node_resource_updated s))%nat then mret tt
  else st_for nodes (update_from_runtime_one max_resources_by_ip).

(** [_infer_legacy_node_resources_if_needed] *)
Definition is_index_or_key_error (e : exn) : bool :=
  match e with IndexError | KeyError => true | _ => false end.

Fixpoint first_known (max_resources_by_ip : dict NodeIP ResourceDict) (ips : list NodeIP)
    : option ResourceDict :=
  match ips with
  | [] => None
  | ip :: ips' => match dget ip max_resources_by_ip with
                  | Some r => Some r
                  | None => first_known max_resources_by_ip ips'
                  end
  end.

Definition set_type_resources (t : string) (r : ResourceDict) : ST Scheduler unit :=
  s ← st_get;
  c ← st_lift (dgetitem t (node_types s));
  st_put (set_node_types (dset t (set_resources r c) (node_types s)) s).

Definition _infer_legacy_node_resources_if_needed (max_resources_by_ip : dict NodeIP ResourceDict)
    : ST Scheduler unit :=
  s ← st_get;
  head_resources ← st_lift (c ← dgetitem NODE_TYPE_LEGACY_HEAD (node_types s); cfg_resources c);
  _ ← match head_resources with
      | _ :: _ => mret tt
      | [] =>
          st_try
            (head_id ← st_lift (or_raise IndexError
               (head (non_terminated_nodes (provider s) [(TAG_RAY_NODE_KIND, NODE_KIND_HEAD)])));
             head_ip ← st_lift (internal_ip (provider s) head_id);
             r ← st_lift (dgetitem head_ip max_resources_by_ip);
             set_type_resources NODE_TYPE_LEGACY_HEAD r)
            is_index_or_key_error (fun _ => mret tt)
      end;
  s ← st_get;
  worker_resources ← st_lift (c ← dgetitem NODE_TYPE_LEGACY_WORKER (node_types s); cfg_resources c);
  match worker_resources with
  | _ :: _ => mret tt
  | [] =>
      worker_node_ips ← st_lift (mapM_r (internal_ip (provider s))
        (non_terminated_nodes (provider s) [(TAG_RAY_NODE_KIND, NODE_KIND_WORKER)]));
      match first_known max_resources_by_ip worker_node_ips with
      | Some r => set_type_resources NODE_TYPE_LEGACY_WORKER r
      | None => mret tt
      end
  end.

(** [_separate_running_and_pending_nodes]: [(running_nodes, pending_nodes)] *)
Definition separate_one (s : Scheduler) (connected_nodes : list NodeIP)
    (acc : dict string Z * dict string Z) (node_id : NodeID) : result (dict string Z * dict string Z) :=
  let '(running, pending) := acc in
  tags ← node_tags (provider s) node_id;
  match dget TAG_RAY_USER_NODE_TYPE tags with
  | None => Ok acc
  | Some node_type =>
      node_ip ← internal_ip (provider s) node_id;
      if bool_decide (node_ip ∈ connected_nodes)
      then Ok (dincr node_type 1 running, pending)
      else Ok (running, dincr node_type 1 pending)
  end.

Definition _separate_running_and_pending_nodes (s : Scheduler) (non_terminated : list NodeID)
    (connected_nodes : list NodeIP) : result (dict string Z * dict string Z) :=
  foldM (separate_one s connected_nodes) ([], []) non_terminated.

(** The cap on the nodes of a type that may be launched now *)
Definition launch_upper_bound (speed : Q) (running pending : Z) (reserved : Z) : Z :=
  let max_allowed_pending_nodes :=
    Z.max UPSCALING_INITIAL_NUM_NODES (int_of_Q (speed * inject_Z running)) in
  Z.max (max_allowed_pending_nodes - pending) reserved.

Definition _get_concurrent_resource_demand_to_launch (s : Scheduler) (to_launch : dict string Z)
    (connected_nodes : list NodeIP) (non_terminated : list NodeID)
    (pending_launches_nodes adjusted_min_workers placement_group_nodes : dict string Z)
    : result (dict string Z) :=
  '(running, pending) ← _separate_running_and_pending_nodes s non_terminated connected_nodes;
  Ok (foldl (fun acc tn =>
        let '(t, n) := tn in
        let upper_bound := launch_upper_bound (upscaling_speed s) (dget_or t 0%Z running)
          (dget_or t 0 pending_launches_nodes + dget_or t 0 pending)%Z
          (dget_or t 0 adjusted_min_workers + dget_or t 0 placement_group_nodes)%Z in
        if (0 <? upper_bound)%Z then dset t (Z.min upper_bound n) acc else acc) [] to_launch).

(** [add_node], local to [calculate_node_resources] *)
Definition add_node (s : Scheduler) (acc : list ResourceDict * dict string Z) (node_type : string)
    (available_resources : option ResourceDict) : result (list ResourceDict * dict string Z) :=
  let '(node_resources, counts) := acc in
  match dget node_type (node_types s) with
  | None => Ok acc
  | Some c =>
      r ← cfg_resources c;
      Ok (node_resources ++ [default r available_resources], dincr node_type 1 counts)
  end.

Definition calculate_node_resources (s : Scheduler) (nodes : list NodeID) (pending_nodes : dict string Z)
    (unused_resources_by_ip : dict NodeIP ResourceDict) : result (list ResourceDict * dict string Z) :=
  acc ← foldM (fun acc node_id =>
          tags ← node_tags (provider s) node_id;
          match dget TAG_RAY_USER_NODE_TYPE tags with
          | None => Ok acc
          | Some node_type =>
              ip ← internal_ip (provider s) node_id;
              add_node s acc node_type (dget ip unused_resources_by_ip)
          end) ([], []) nodes;
  foldM (fun acc tc =>
    foldM (fun acc (_ : unit) => add_node s acc tc.1 None) acc (replicate (Z.to_nat tc.2) tt))
    acc pending_nodes.

(** [_legacy_worker_node_to_launch] *)
Definition _legacy_worker_node_to_launch (s : Scheduler) (launching_nodes : dict string Z)
    (node_resources resource_demands : list ResourceDict) : result (dict string Z) :=
  let worker_nodes := non_terminated_nodes (provider s) [(TAG_RAY_NODE_KIND, NODE_KIND_WORKER)] in
  if (max_workers s =? 0)%Z then Ok []
  else if (0 <? dsum launching_nodes + Z.of_nat (length worker_nodes))%Z then Ok []
  else
    '(unf, _) ← get_bin_pack_residual node_resources resource_demands false;
    c ← dgetitem NODE_TYPE_LEGACY_WORKER (node_types s);
    let workers_to_add := Z.min (cfg_min_workers c) (cfg_max_workers c) in
    if (0 <? workers_to_add)%Z || match unf with [] => false | _ => true end
    then Ok [(NODE_TYPE_LEGACY_WORKER, Z.max 1 workers_to_add)]
    else Ok [].

(** [reserve_and_allocate_spread]: the body of the loop over the groups, on
    [(to_add, node_resources, node_type_counts)] *)
Definition spread_one (s : Scheduler) (acc : dict string Z * list ResourceDict * dict string Z)
    (bundles : list ResourceDict) : result (dict string Z * list ResourceDict * dict string Z) :=
  let '(to_add, node_resources, counts) := acc in
  '(unf, node_resources') ← get_bin_pack_residual node_resources bundles true;
  let max_to_add := (max_workers s + 1 - dsum counts)%Z in
  '(to_launch, _) ← get_nodes_for conserve_gpu_nodes (node_types s) counts (head_node_type s)
                      max_to_add unf true;
  new_node_resources ← _node_type_counts_to_node_resources (node_types s) to_launch;
  '(unf', including_reserved) ← get_bin_pack_residual new_node_resources unf true;
  _ ← py_assert (match unf' with [] => true | _ => false end);
  Ok (_inplace_add to_add to_launch, node_resources' ++ including_reserved, _inplace_add counts to_launch).

Definition reserve_and_allocate_spread (s : Scheduler) (strict_spreads : list (list ResourceDict))
    (node_resources : list ResourceDict) (node_type_counts : dict string Z)
    : result (dict string Z * list ResourceDict * dict string Z) :=
  foldM (spread_one s) ([], node_resources, node_type_counts) strict_spreads.

(** The sums over the scheduler's node types that [get_nodes_to_launch] builds *)
Definition sum_by_type (nts : NodeTypes) (a b : dict string Z) : dict string Z :=
  map (fun nt => (nt.1, dget_or nt.1 0 a + dget_or nt.1 0 b)%Z) nts.

Definition positive_sums (nts : NodeTypes) (a b c : dict string Z) : dict string Z :=
  foldl (fun acc nt =>
    let n := (dget_or nt.1 0 a + dget_or nt.1 0 b + dget_or nt.1 0 c)%Z in
    if (0 <? n)%Z then dset nt.1 n acc else acc) [] nts.

(** The steps after the node types are up to date, which do not change the
    scheduler *)
Definition nodes_to_launch (s : Scheduler) (nodes : list NodeID) (launching_nodes : dict string Z)
    (resource_demands : list ResourceDict) (unused_resources_by_ip : dict NodeIP ResourceDict)
    (pending_placement_groups : list PlacementGroup) (ensure_min_cluster_size : list ResourceDict)
    : result (dict string Z * list ResourceDict) :=
  '(node_resources0, counts0) ← calculate_node_resources s nodes launching_nodes unused_resources_by_ip;
  ms ← _add_min_workers_nodes conserve_gpu_nodes node_resources0 counts0 (node_types s) (max_workers s)
         (head_node_type s) ensure_min_cluster_size;
  let '(pg_vector, strict_spreads) := placement_groups_to_resource_demands pending_placement_groups in
  let demands := pg_vector ++ resource_demands in
  legacy_unknown ← (if is_legacy_yaml s [] then
                      c ← dgetitem NODE_TYPE_LEGACY_WORKER (node_types s);
                      r ← cfg_resources c;
                      Ok (match r with [] => true | _ => false end)
                    else Ok false);
  if legacy_unknown : bool then
    l ← _legacy_worker_node_to_launch s launching_nodes (ms_resources ms)
          (demands ++ ensure_min_cluster_size);
    Ok (l, [])
  else
    '(spread_to_add, node_resources, counts) ←
      reserve_and_allocate_spread s strict_spreads (ms_resources ms) (ms_counts ms);
    '(unf_pg, _) ← get_bin_pack_residual node_resources pg_vector false;
    let max_to_add := (max_workers s + 1 - dsum counts)%Z in
    '(pg_nodes, _) ← get_nodes_for conserve_gpu_nodes (node_types s) counts (head_node_type s)
                       max_to_add unf_pg false;
    let pg_limit := sum_by_type (node_types s) spread_to_add pg_nodes in
    '(unf, _) ← get_bin_pack_residual node_resources demands false;
    '(demand_to_add, final_unfulfilled) ← get_nodes_for conserve_gpu_nodes (node_types s) counts
                                            (head_node_type s) max_to_add unf false;
    let total := positive_sums (node_types s) (ms_to_add ms) spread_to_add demand_to_add in
    total' ← _get_concurrent_resource_demand_to_launch s total (dkeys unused_resources_by_ip) nodes
               launching_nodes (ms_to_add ms) pg_limit;
    Ok (total', final_unfulfilled).

Definition get_nodes_to_launch (nodes : list NodeID) (launching_nodes : dict string Z)
    (resource_demands : list ResourceDict) (unused_resources_by_ip : dict NodeIP ResourceDict)
    (pending_placement_groups : list PlacementGroup) (max_resources_by_ip : dict NodeIP ResourceDict)
    (ensure_min_cluster_size : list ResourceDict) : ST Scheduler (dict string Z * list ResourceDict) :=
  s ← st_get;
  _ ← (if is_legacy_yaml s [] then _infer_legacy_node_resources_if_needed max_resources_by_ip
       else mret tt);
  _ ← _update_node_resources_from_runtime nodes max_resources_by_ip;
  s ← st_get;
  st_lift (nodes_to_launch s nodes launching_nodes resource_demands unused_resources_by_ip
             pending_placement_groups ensure_min_cluster_size).

(** [debug_string] *)
Definition newline : string := String (Ascii.ascii_of_nat 10) "".

Definition debug_string (s : Scheduler) (nodes : list NodeID) (pending_nodes : dict string Z)
    (unused_resources_by_ip : dict NodeIP ResourceDict) : result string :=
  '(_, counts) ← calculate_node_resources s nodes pending_nodes unused_resources_by_ip;
  Ok (foldl (fun out tc =>
        let out := out +:+ newline +:+ " - " +:+ tc.1 +:+ ": " +:+ pretty tc.2 in
        let pending := dget_or tc.1 0%Z pending_nodes in
        if (pending =? 0)%Z then out else out +:+ " (" +:+ pretty pending +:+ " pending)")
      "Worker node types:" counts).

End Scheduler.
Arguments Scheduler P : clear implicits.

(** ** Lemmas *)

Section Lemmas.
Implicit Types (nts : NodeTypes) (a b : dict string Z).

(** Sums over the node types *)
Lemma sum_over_types nts a :
  dwf nts -> dwf a -> (forall t, t ∈ dkeys a -> t ∈ dkeys nts) ->
  Zsum (map (fun nt => dget_or nt.1 0%Z a) nts) = dsum a.
Proof.
  intros Hn. induction a as [|[k v] a IH]; intros Ha Hk.
  - transitivity 0%Z; [|done]. unfold Zsum. clear.
    induction nts as [|nt nts IH]; cbn [map foldr]; [done|]. by rewrite IH, dget_or_nil.
  - rewrite dwf_cons in Ha. destruct Ha as [Hka Ha]. rewrite dsum_cons, <- IH; [|done|].
    2: { intros t Ht. apply Hk. rewrite dkeys_cons. by right. }
    assert (Hin : k ∈ dkeys nts) by (apply Hk; rewrite dkeys_cons; left).
    clear IH Hk. unfold Zsum. induction nts as [|[t c] nts IH]; [by apply elem_of_nil in Hin|].
    rewrite dwf_cons in Hn. destruct Hn as [Htn Hn]. rewrite dkeys_cons in Hin.
    cbn [map foldr fst]. rewrite dget_or_cons. destruct (decide (t = k)) as [->|Hne].
    + rewrite (dget_or_not_key k 0%Z a) by done.
      assert (Hsame : foldr Z.add 0%Z (map (fun nt => dget_or nt.1 0%Z ((k, v) :: a)) nts) =
                      foldr Z.add 0%Z (map (fun nt => dget_or nt.1 0%Z a) nts)).
      { clear -Htn. induction nts as [|[u d] nts IH]; cbn [map foldr fst]; [done|].
        rewrite dkeys_cons, not_elem_of_cons in Htn. destruct Htn as [Hku Htn].
        rewrite dget_or_cons, decide_False by naive_solver. by rewrite IH. }
      rewrite Hsame. lia.
    + apply elem_of_cons in Hin as [->|Hin]; [done|]. rewrite (IH Hn Hin). lia.
Qed.

Lemma repeat_resources_spec nts t n rs :
  repeat_resources nts t n = Ok rs -> length rs = Z.to_nat n.
Proof.
  unfold repeat_resources. destruct (Z.leb_spec n 0).
  - intros [= <-]. cbn. lia.
  - intros H'. do 2 bind_inv H'. simpl_result. by rewrite length_replicate.
Qed.

(** The first loop of [_add_min_workers_nodes] raises each type that is below
    its target to the target. *)
Record min_added nts (head : string) (counts0 : dict string Z) (s : min_state) : Prop := mkAdded {
  ma_wf : dwf (ms_counts s) /\ dwf (ms_to_add s);
  ma_sum : forall t, dget_or t 0%Z (ms_counts s) = (dget_or t 0 counts0 + dget_or t 0 (ms_to_add s))%Z;
  ma_nonneg : forall t, (0 <= dget_or t 0 (ms_to_add s))%Z;
  ma_known : forall t, t ∈ dkeys (ms_to_add s) -> t ∈ dkeys nts;
  ma_type : forall t c, dget t nts = Some c ->
    (dget_or t 0 (ms_counts s) <= Z.max (dget_or t 0 counts0) (allowed_nodes head t c))%Z;
  ma_total : dsum (ms_counts s) = (dsum counts0 + dsum (ms_to_add s))%Z
}.

Lemma target_le_limit head t c : (min_target head t c <= allowed_nodes head t c)%Z.
Proof. unfold min_target, allowed_nodes. repeat case_bool_decide; repeat case_decide; subst; try done; lia. Qed.

Lemma add_min_loop nts head counts0 l s s' :
  dwf nts -> dwf l -> (forall x, x ∈ l -> x ∈ nts) ->
  min_added nts head counts0 s -> (forall t, t ∈ dkeys l -> dget_or t 0%Z (ms_to_add s) = 0%Z) ->
  foldM (add_min_one nts head) s l = Ok s' -> min_added nts head counts0 s'.
Proof.
  intros Hn. revert s. induction l as [|[t c] l IH]; intros s Hl Hsub Hs Hz H; cbn [foldM] in H.
  { by simpl_result. }
  rewrite dwf_cons in Hl. destruct Hl as [Htl Hl]. bind_inv H.
  assert (Hc : dget t nts = Some c) by (apply elem_dget; [done|]; apply Hsub; left).
  apply IH in H; [done | done | intros x Hx; apply Hsub; by right | |]; clear IH H.
  - unfold add_min_one in E. destruct (Z.ltb_spec (dget_or t 0%Z (ms_counts s)) (min_target head t c)) as [Hlt|];
      [|by simpl_result].
    bind_inv E. simpl_result. destruct Hs as [[W1 W2] Hsum Hnn Hkn Hty Htot].
    assert (Hz0 : dget_or t 0%Z (ms_to_add s) = 0%Z) by (apply Hz; rewrite dkeys_cons; left).
    split; cbn.
    + split; by apply dwf_dset.
    + intros u. rewrite !dget_or_dset. case_decide; [|done]. subst u. rewrite Hsum. lia.
    + intros u. rewrite dget_or_dset. case_decide; [lia | done].
    + intros u Hu. apply elem_dkeys_dset in Hu as [->|Hu]; [|by auto]. apply dget_is_Some. by exists c.
    + intros u c' Hu. rewrite dget_or_dset. case_decide; [|by auto]. subst u.
      rewrite Hc in Hu. injection Hu as <-. pose proof (target_le_limit head t c). lia.
    + rewrite !dsum_dset by done. rewrite Htot, Hz0. lia.
  - intros u Hu. transitivity (dget_or u 0%Z (ms_to_add s));
      [|apply Hz; rewrite dkeys_cons; by right]. unfold add_min_one in E.
    destruct (_ <? _)%Z; [|by simpl_result]. bind_inv E. simpl_result. cbn.
    rewrite dget_or_dset, decide_False; [done|]. intros ->. done.
Qed.

(** The second loop adds the nodes for [request_resources]. *)
Lemma add_requested_loop nts l s s' :
  (forall t n, (t, n) ∈ l -> (0 < n)%Z) -> foldM (add_requested_one nts) s l = Ok s' ->
  ms_counts s' = _inplace_add (ms_counts s) l /\ ms_to_add s' = _inplace_add (ms_to_add s) l.
Proof.
  revert s. induction l as [|[t n] l IH]; intros s Hp H; cbn [foldM] in H; [by simpl_result|].
  bind_inv H. apply IH in H as [-> ->]; [|intros u m Hin; apply (Hp u m); by right].
  unfold add_requested_one in E. rewrite (proj2 (Z.ltb_lt 0 n)) in E by (apply (Hp t n); left).
  bind_inv E. simpl_result. cbn. unfold dincr. by rewrite !(Z.add_comm n).
Qed.

Lemma min_added_init nts head nr counts :
  dwf counts -> min_added nts head counts (mkMin nr counts []).
Proof.
  intros Hw. split; cbn; try (intros; rewrite ?dget_or_nil; lia).
  - split; [done | apply dwf_nil].
  - by intros t ?%elem_of_nil.
  - rewrite dsum_nil. lia.
Qed.

Lemma min_added_plus nts head counts0 mx l s s' :
  min_added nts head counts0 s -> launch_bounds nts (ms_counts s) head mx l ->
  ms_counts s' = _inplace_add (ms_counts s) l -> ms_to_add s' = _inplace_add (ms_to_add s) l ->
  min_added nts head counts0 s'.
Proof.
  intros [[W1 W2] Hsum Hnn Hkn Hty Htot] [Hwl Hpl Hkl Htl Htt] E1 E2.
  assert (Hnl : forall t, (0 <= dget_or t 0 l)%Z).
  { intros t. apply dget_or_nonneg. intros k v Hin. specialize (Hpl k v Hin). lia. }
  split; rewrite ?E1, ?E2.
  - split; by apply inplace_add_wf.
  - intros t. rewrite !inplace_add_get by done. rewrite Hsum. lia.
  - intros t. rewrite inplace_add_get by done. specialize (Hnn t). specialize (Hnl t). lia.
  - intros t. rewrite inplace_add_keys. naive_solver.
  - intros t c Hc. rewrite inplace_add_get by done. specialize (Htl t c Hc). specialize (Hty t c Hc). lia.
  - rewrite !inplace_add_sum by done. lia.
Qed.

(** The counts after the [min_workers] loop alone *)
Definition min_workers_counts nts (head : string) (counts : dict string Z) : dict string Z :=
  foldl (fun a nt => let target := min_target head nt.1 nt.2 in
           if (dget_or nt.1 0 a <? target)%Z then dset nt.1 target a else a) counts nts.

Lemma add_min_counts nts head l s s' :
  foldM (add_min_one nts head) s l = Ok s' ->
  ms_counts s' = min_workers_counts l head (ms_counts s).
Proof.
  unfold min_workers_counts. revert s. induction l as [|[t c] l IH]; intros s H; cbn [foldM] in H;
    [by simpl_result|].
  bind_inv H. rewrite (IH a H). cbn [foldl fst snd]. f_equal. unfold add_min_one in E.
  destruct (_ <? _)%Z; simpl_result; done.
Qed.

Lemma add_min_workers_spec g nr counts nts mw head ensure ms :
  ok_node_types nts -> dwf counts -> Forall ok_demand ensure ->
  _add_min_workers_nodes g nr counts nts mw head ensure = Ok ms ->
  min_added nts head counts ms /\
  (dsum (ms_counts ms) <= Z.max (mw + 1) (dsum (min_workers_counts nts head counts)))%Z.
Proof.
  intros [Hwf Hc] Hw He H. unfold _add_min_workers_nodes in H. bind_inv H.
  assert (Ha : min_added nts head counts a).
  { eapply add_min_loop; [exact Hwf | exact Hwf | done | by apply min_added_init | | exact E].
    intros t _. cbn. by rewrite dget_or_nil. }
  apply add_min_counts in E as Hcnt. cbn in Hcnt. rewrite <- Hcnt.
  destruct ensure as [|e es]; [simpl_result; split; [done | lia]|].
  bind_inv H. bind_inv H. destruct a1 as [unf fin]. bind_inv H. destruct a1 as [add res].
  assert (Hunf : Forall ok_demand unf) by (by eapply bin_pack_unf_ok).
  pose proof (get_nodes_for_bounds _ _ _ _ _ _ _ _ _ (conj Hwf Hc) Hunf E2) as Hb.
  destruct (add_requested_loop _ _ _ _ (lb_pos _ _ _ _ _ Hb) H) as [E3 E4].
  split; [by eapply min_added_plus|]. rewrite E3, inplace_add_sum by apply Ha.
  pose proof (lb_total _ _ _ _ _ Hb). lia.
Qed.

End Lemmas.

(** ** Placement groups become demands *)

Section GroupLemmas.

Lemma combine_add_get shape c k :
  dwf shape ->
  (rget k (foldl (fun c lq => dset lq.1 (rget lq.1 c + lq.2) c) c shape) == rget k c + rget k shape)%Q.
Proof.
  revert c. induction shape as [|[l q] shape IH]; intros c Hwf; cbn [foldl fst snd].
  - rewrite (rget_not_key k []) by apply not_elem_of_nil. lra.
  - rewrite dwf_cons in Hwf. destruct Hwf as [Hl Hwf]. rewrite IH by done.
    rewrite rget_dset, rget_cons. destruct (decide (l = k)) as [<-|Hne].
    + rewrite decide_True by done. rewrite (rget_not_key l shape Hl). lra.
    + rewrite decide_False by naive_solver. lra.
Qed.

Lemma combine_shapes_get shapes k :
  Forall dwf shapes -> (rget k (combine_shapes shapes) == Qsum (map (rget k) shapes))%Q.
Proof.
  intros HF. unfold combine_shapes.
  assert (Hgen : forall c, (rget k (foldl (fun combined shape =>
    foldl (fun c lq => dset lq.1 (rget lq.1 c + lq.2)%Q c) combined shape) c shapes)
    == rget k c + Qsum (map (rget k) shapes))%Q).
  { induction HF as [|sh shapes Hwf _ IH]; intros c; cbn [foldl map]; unfold Qsum in *; cbn [foldr]; [lra|].
    rewrite IH, combine_add_get by done. lra. }
  rewrite Hgen, (rget_not_key k []) by apply not_elem_of_nil. lra.
Qed.

Lemma combine_shapes_ok shapes : Forall ok_demand shapes -> ok_demand (combine_shapes shapes).
Proof.
  intros HF. unfold combine_shapes.
  assert (Hgen : forall c, ok_demand c -> ok_demand (foldl (fun combined shape =>
    foldl (fun c lq => dset lq.1 (rget lq.1 c + lq.2)%Q c) combined shape) c shapes)).
  2: { apply Hgen. split; constructor. }
  induction HF as [|sh shapes [Hwf Hp] _ IH]; intros c Hc; cbn [foldl]; [done|].
  apply IH. clear IH Hwf. revert c Hc. induction Hp as [|[l q] sh Hq _ IH]; intros c Hc; cbn [foldl fst snd]; [done|].
  apply IH. destruct Hc as [Hcw Hcp]. split; [by apply dwf_dset|].
  pose proof (nonneg_rget c l (positive_nonneg c Hcp)) as Hl. cbn in Hq.
  assert (Hv : (0 < rget l c + q)%Q) by lra. revert Hv. generalize (rget l c + q)%Q. intros v Hv.
  clear -Hcp Hv. induction c as [|[k w] c IH]; cbn; [by repeat constructor|].
  inversion Hcp; subst. case_decide; constructor; auto. by apply IH.
Qed.

Lemma convert_groups_ok pgs acc :
  Forall (fun pg => Forall ok_demand (pg_bundles pg)) pgs ->
  Forall ok_demand acc.1 -> Forall (Forall ok_demand) acc.2 ->
  Forall ok_demand (foldl convert_group acc pgs).1 /\ Forall (Forall ok_demand) (foldl convert_group acc pgs).2.
Proof.
  intros HF. revert acc. induction HF as [|pg pgs Hpg _ IH]; intros [v u] Hv Hu; cbn [foldl]; [done|].
  apply IH; unfold convert_group; destruct (pg_strategy pg); cbn in *;
    rewrite ?list.Forall_app, ?list.Forall_singleton; auto using combine_shapes_ok.
Qed.

End GroupLemmas.

(** ** The launch decision stays within the limits *)

Section SchedulerProofs.
Context {P : Type} `{!NodeProvider P}.
Variable conserve_gpu_nodes : bool.
Implicit Types (s : Scheduler P).

Lemma add_node_counts_wf s acc t av acc' :
  add_node s acc t av = Ok acc' -> dwf acc.2 -> dwf acc'.2.
Proof.
  destruct acc as [nr counts]. unfold add_node. destruct (dget t (node_types s)); intros H Hw; [|by simpl_result].
  bind_inv H. simpl_result. cbn. by apply dwf_dincr.
Qed.

Lemma calculate_counts_wf s nodes pending unused nr counts :
  calculate_node_resources s nodes pending unused = Ok (nr, counts) -> dwf counts.
Proof.
  unfold calculate_node_resources. intros H. bind_inv H.
  change counts with (nr, counts).2.
  eapply (foldM_inv (fun acc : list ResourceDict * dict string Z => dwf acc.2)); [exact H | |].
  - eapply (foldM_inv (fun acc : list ResourceDict * dict string Z => dwf acc.2)); [exact E | apply dwf_nil |].
    intros n t t' _ Ht Hs. cbn beta in Hs. bind_inv Hs. destruct (dget _ a0); [|by simpl_result].
    bind_inv Hs. by eapply add_node_counts_wf.
  - intros [t n] u u' _ Hu Hs.
    eapply (foldM_inv (fun acc : list ResourceDict * dict string Z => dwf acc.2)); [exact Hs | done |].
    intros x w w' _ Hw E'. exact (add_node_counts_wf _ _ _ _ _ E' Hw).
Qed.

(** What [reserve_and_allocate_spread] keeps, from the counts [counts1] *)
Record spread_inv s (counts1 : dict string Z) (acc : dict string Z * list ResourceDict * dict string Z)
    : Prop := mkSpread {
  si_wf : dwf acc.1.1 /\ dwf acc.2;
  si_sum : forall t, dget_or t 0%Z acc.2 = (dget_or t 0 counts1 + dget_or t 0 acc.1.1)%Z;
  si_nonneg : forall t, (0 <= dget_or t 0 acc.1.1)%Z;
  si_known : forall t, t ∈ dkeys acc.1.1 -> t ∈ dkeys (node_types s);
  si_type : forall t c, dget t (node_types s) = Some c ->
    (dget_or t 0 acc.2 <= Z.max (dget_or t 0 counts1) (allowed_nodes (head_node_type s) t c))%Z;
  si_total : dsum acc.2 = (dsum counts1 + dsum acc.1.1)%Z /\
    (dsum acc.2 <= Z.max (max_workers s + 1) (dsum counts1))%Z
}.

Lemma spread_one_inv s counts1 acc bundles acc' :
  ok_node_types (node_types s) -> Forall ok_demand bundles -> spread_inv s counts1 acc ->
  spread_one conserve_gpu_nodes s acc bundles = Ok acc' -> spread_inv s counts1 acc'.
Proof.
  intros Hok Hb Hi H. destruct acc as [[to_add nr] counts]. unfold spread_one in H.
  bind_inv H. destruct a as [unf nr']. bind_inv H. destruct a as [launch res].
  do 2 bind_inv H. destruct a0 as [unf' inc]. bind_inv H. simpl_result.
  assert (Hunf : Forall ok_demand unf) by (by eapply bin_pack_unf_ok).
  destruct (get_nodes_for_bounds _ _ _ _ _ _ _ _ _ Hok Hunf E0) as [Hwl Hpl Hkl Htl Htt].
  destruct Hi as [[W1 W2] Hsum Hnn Hkn Hty [Htot Hmax]]. cbn in *.
  assert (Hnl : forall t, (0 <= dget_or t 0 launch)%Z).
  { intros t. apply dget_or_nonneg. intros k v Hin. specialize (Hpl k v Hin). lia. }
  split; cbn.
  - split; by apply inplace_add_wf.
  - intros t. rewrite !inplace_add_get by done. rewrite Hsum. lia.
  - intros t. rewrite inplace_add_get by done. specialize (Hnn t). specialize (Hnl t). lia.
  - intros t. rewrite inplace_add_keys. naive_solver.
  - intros t c Hc. rewrite inplace_add_get by done. specialize (Htl t c Hc). specialize (Hty t c Hc). lia.
  - rewrite !inplace_add_sum by done. lia.
Qed.

Lemma spread_spec s spreads nr counts acc :
  ok_node_types (node_types s) -> Forall (Forall ok_demand) spreads -> dwf counts ->
  reserve_and_allocate_spread conserve_gpu_nodes s spreads nr counts = Ok acc -> spread_inv s counts acc.
Proof.
  intros Hok Hb Hw H. eapply (foldM_inv (spread_inv s counts)); [exact H | |].
  - split; cbn; try (intros; rewrite ?dget_or_nil; lia).
    + split; [apply dwf_nil | done].
    + by intros t ?%elem_of_nil.
    + rewrite dsum_nil. lia.
  - intros b t t' Hin Ht E. rewrite list.Forall_forall in Hb.
    exact (spread_one_inv s counts t b t' Hok (Hb b Hin) Ht E).
Qed.

(** What the concurrency limit does to the launch of each type *)
Lemma concurrent_fold (f : string -> Z -> Z) (l acc : dict string Z) :
  dwf l -> dwf acc -> (forall t, t ∈ dkeys l -> t ∉ dkeys acc) ->
  let r := foldl (fun acc tn => let '(t, n) := tn in
             if (0 <? f t n)%Z then dset t (Z.min (f t n) n) acc else acc) acc l in
  dwf r /\
  forall t, dget t r = match dget t l with
                       | Some n => if (0 <? f t n)%Z then Some (Z.min (f t n) n) else None
                       | None => dget t acc
                       end.
Proof.
  revert acc. induction l as [|[t n] l IH]; intros acc Hl Ha Hd; [done|].
  rewrite dwf_cons in Hl. destruct Hl as [Htl Hl]. cbn [foldl]. cbn zeta in IH.
  assert (Htacc : t ∉ dkeys acc) by (apply Hd; rewrite dkeys_cons; left).
  destruct (0 <? f t n)%Z eqn:Ef.
  - destruct (IH (dset t (Z.min (f t n) n) acc) Hl) as [Hw Hg]; [by apply dwf_dset | |].
    { intros u Hu. rewrite elem_dkeys_dset. intros [->|Hu']; [done|].
      apply (Hd u); [rewrite dkeys_cons; by right | done]. }
    split; [done|]. intros u. rewrite Hg. cbn [dget]. destruct (decide (u = t)) as [->|Hne].
    + rewrite (proj2 (dget_None t l)) by done. rewrite dget_dset_eq. by rewrite Ef.
    + destruct (dget u l); [done|]. by rewrite dget_dset_ne by naive_solver.
  - destruct (IH acc Hl Ha) as [Hw Hg].
    { intros u Hu. apply Hd. rewrite dkeys_cons. by right. }
    split; [done|]. intros u. rewrite Hg. cbn [dget]. destruct (decide (u = t)) as [->|Hne]; [|done].
    rewrite (proj2 (dget_None t l)) by done. rewrite Ef. by apply dget_None.
Qed.

Lemma positive_sums_get nts a b c :
  dwf nts ->
  dwf (positive_sums nts a b c) /\
  forall t, dget t (positive_sums nts a b c) =
    if decide (t ∈ dkeys nts) then
      let n := (dget_or t 0 a + dget_or t 0 b + dget_or t 0 c)%Z in
      if (0 <? n)%Z then Some n else None
    else None.
Proof.
  intros Hn. unfold positive_sums.
  assert (Hgen : forall acc, dwf acc -> (forall t, t ∈ dkeys nts -> t ∉ dkeys acc) ->
    let r := foldl (fun acc nt => let n := (dget_or nt.1 0 a + dget_or nt.1 0 b + dget_or nt.1 0 c)%Z in
               if (0 <? n)%Z then dset nt.1 n acc else acc) acc nts in
    dwf r /\ forall t, dget t r =
      if decide (t ∈ dkeys nts) then
        let n := (dget_or t 0 a + dget_or t 0 b + dget_or t 0 c)%Z in
        if (0 <? n)%Z then Some n else None
      else dget t acc).
  2: { apply Hgen; [apply dwf_nil|]. intros t _. apply not_elem_of_nil. }
  induction nts as [|[t x] nts IH]; intros acc Ha Hd; [done|].
  rewrite dwf_cons in Hn. destruct Hn as [Htn Hn]. cbn [foldl fst]. cbn zeta in *.
  assert (Htacc : t ∉ dkeys acc) by (apply Hd; rewrite dkeys_cons; left).
  set (n := (dget_or t 0 a + dget_or t 0 b + dget_or t 0 c)%Z).
  destruct (IH Hn (if (0 <? n)%Z then dset t n acc else acc)) as [Hw Hg].
  { destruct (0 <? n)%Z; [by apply dwf_dset | done]. }
  { intros u Hu. assert (Hu' : u ∉ dkeys acc) by (apply Hd; rewrite dkeys_cons; by right).
    destruct (0 <? n)%Z; [|done]. rewrite elem_dkeys_dset. intros [->|]; done. }
  split; [done|]. intros u. rewrite Hg, dkeys_cons.
  destruct (decide (u = t)) as [->|Hne].
  - rewrite (decide_False (P := t ∈ dkeys nts)) by done. rewrite decide_True by left. fold n.
    destruct (0 <? n)%Z; [by rewrite dget_dset_eq | by apply dget_None].
  - destruct (decide (u ∈ dkeys nts)) as [Hu|Hu].
    + rewrite decide_True by (by right). done.
    + rewrite decide_False; [|rewrite elem_of_cons; naive_solver].
      destruct (0 <? n)%Z; [|done]. by rewrite dget_dset_ne by naive_solver.
Qed.

End SchedulerProofs.
