(* ===== verification/SchedulerProps.v ===== *)
(** Properties of [ResourceDemandScheduler]: what [get_nodes_to_launch]
    decides stays within the configured limits, it returns on well-formed
    input, and the exact effect of its steps. *)

From Stdlib Require Import ZArith QArith Qround Lqa Lia.
From stdpp Require Import base sets list strings option pretty.
From S2P Require Import Prelude PyDict Resources NodeTypes BinPacking NodesFor NodeProvider DemandScheduler.

Section Runtime.
Context {P : Type} `{!NodeProvider P}.
Implicit Types (s : Scheduler P).

(** Resources as heartbeats report them: dicts without negative amounts *)
Definition ok_reports (by_ip : dict NodeIP ResourceDict) : Prop :=
  Forall (fun ir => dwf ir.2 /\ nonneg_resources ir.2) by_ip.

(** The scheduler's settings and the names of its node types *)
Definition same_settings s s' : Prop :=
  provider s' = provider s /\ max_workers s' = max_workers s /\
  head_node_type s' = head_node_type s /\ upscaling_speed s' = upscaling_speed s /\
  dkeys (node_types s') = dkeys (node_types s) /\
  (ok_node_types (node_types s) -> ok_node_types (node_types s')) /\
  (forall t, t ∈ node_resource_updated s -> t ∈ node_resource_updated s' /\
     dget t (node_types s') = dget t (node_types s)) /\
  forall t c, dget t (node_types s) = Some c ->
    exists c', dget t (node_types s') = Some c' /\ cfg_max_workers c' = cfg_max_workers c /\
      cfg_min_workers c' = cfg_min_workers c.

Lemma same_settings_refl s : same_settings s s.
Proof. unfold same_settings. split_and!; naive_solver. Qed.

Lemma same_settings_trans s1 s2 s3 : same_settings s1 s2 -> same_settings s2 s3 -> same_settings s1 s3.
Proof.
  intros (A1 & A2 & A3 & A4 & A5 & A6 & A7 & A8) (B1 & B2 & B3 & B4 & B5 & B6 & B7 & B8).
  unfold same_settings. split_and!; try congruence; auto.
  - intros t Ht. destruct (A7 t Ht) as [Ht' Hg]. destruct (B7 t Ht') as [? Hg']. split; congruence.
  - intros t c Hc. destruct (A8 t c Hc) as (c1 & Hc1 & ? & ?).
    destruct (B8 t c1 Hc1) as (c2 & ? & ? & ?). exists c2. split_and!; congruence.
Qed.

(** Overwriting amounts with reported ones keeps a resources dict well formed. *)
Definition runtime_overwrite (runtime : ResourceDict) (r : ResourceDict) (keys : list string) : ResourceDict :=
  foldl (fun r key => match dget key runtime with Some v => dset key v r | None => r end) r keys.

Lemma nonneg_dset k v r : nonneg_resources r -> (0 <= v)%Q -> nonneg_resources (dset k v r).
Proof.
  intros Hr Hv. induction r as [|[k' w] r IH]; cbn; [by repeat constructor|].
  inversion Hr; subst. case_decide; constructor; auto. by apply IH.
Qed.

Lemma runtime_overwrite_ok runtime r keys :
  nonneg_resources runtime -> dwf r -> nonneg_resources r ->
  dwf (runtime_overwrite runtime r keys) /\ nonneg_resources (runtime_overwrite runtime r keys).
Proof.
  intros Hn. revert r. induction keys as [|k keys IH]; intros r Hw Hr; cbn; [done|].
  destruct (dget k runtime) as [v|] eqn:E; [|by apply IH]. apply IH; [by apply dwf_dset|].
  apply nonneg_dset; [done|]. pose proof (nonneg_rget runtime k Hn) as Hv.
  unfold rget, dget_or in Hv. by rewrite E in Hv.
Qed.

Lemma Forall_dset {V} (Q : V -> Prop) t v (d : dict string V) :
  Forall (fun x => Q x.2) d -> Q v -> Forall (fun x => Q x.2) (dset t v d).
Proof.
  intros Hd Hv. induction d as [|[k w] d IH]; cbn; [by repeat constructor|].
  inversion Hd; subst. case_decide; constructor; auto.
Qed.

Lemma ok_node_types_dset nts t c :
  ok_node_types nts -> ok_config c -> ok_node_types (dset t c nts).
Proof. intros [Hw Hc] H. split; [by apply dwf_dset | by apply Forall_dset]. Qed.

Lemma set_resources_ok nts t c r :
  ok_node_types nts -> dwf r -> nonneg_resources r -> ok_node_types (dset t (set_resources r c) nts).
Proof. intros Hn Hw Hr. apply ok_node_types_dset; [done|]. by exists r. Qed.

Lemma ok_reports_get by_ip ip r :
  ok_reports by_ip -> dget ip by_ip = Some r -> dwf r /\ nonneg_resources r.
Proof.
  intros H Hg%dget_elem. unfold ok_reports in H. rewrite list.Forall_forall in H. exact (H _ Hg).
Qed.

(** One node's report changes at most the resources of its type, and only
    while the type is not marked as updated. *)
Lemma set_type_same_settings s t c r :
  dget t (node_types s) = Some c -> t ∉ node_resource_updated s ->
  (ok_node_types (node_types s) -> dwf r /\ nonneg_resources r) ->
  same_settings s (set_node_types (dset t (set_resources r c) (node_types s)) s).
Proof.
  intros Hc Hu Hr. assert (Hk : t ∈ dkeys (node_types s)) by (apply dget_is_Some; by exists c).
  unfold same_settings. cbn. split_and!; try done.
  - rewrite dkeys_dset. by rewrite decide_True.
  - intros Hok. destruct (Hr Hok). by apply set_resources_ok.
  - intros u Hu'. split; [done|]. rewrite dget_dset_ne; [done|]. by intros ->.
  - intros u c' Hc'. rewrite dget_dset. case_decide; [subst u|naive_solver].
    rewrite Hc in Hc'. injection Hc' as <-. eexists. split_and!; done.
Qed.

Lemma mark_updated_same_settings s t :
  same_settings s (mkScheduler (provider s) (node_types s) (node_resource_updated s ++ [t])
    (max_workers s) (head_node_type s) (upscaling_speed s)).
Proof.
  unfold same_settings. cbn. split_and!; try done; [|naive_solver].
  intros u Hu. split; [|done]. apply elem_of_app. by left.
Qed.

Lemma update_one_same by_ip n s s' r :
  ok_reports by_ip -> update_from_runtime_one by_ip n s = (s', r) -> same_settings s s'.
Proof.
  intros Hrep. unfold update_from_runtime_one. st_simpl.
  destruct (node_tags (provider s) n) as [tags|]; [|intros [= <- <-]; apply same_settings_refl].
  destruct (dget TAG_RAY_USER_NODE_TYPE tags) as [t|]; [|intros [= <- <-]; apply same_settings_refl].
  destruct (dget t (node_types s)) as [c|] eqn:Hc; [|intros [= <- <-]; apply same_settings_refl].
  case_bool_decide as Hu; [intros [= <- <-]; apply same_settings_refl|].
  destruct (internal_ip (provider s) n) as [ip|]; [|intros [= <- <-]; apply same_settings_refl].
  destruct (dget ip by_ip) as [rt|] eqn:Hrt; cbn [default from_option id];
    [|intros [= <- <-]; apply same_settings_refl].
  destruct rt as [|e rt]; [intros [= <- <-]; apply same_settings_refl|].
  assert (Hs : same_settings s (set_node_types (dset t (set_resources (runtime_overwrite (e :: rt)
    (default [] (ntc_resources c)) ["CPU"; "GPU"; "memory"; "object_store_memory"]) c) (node_types s)) s)).
  { apply set_type_same_settings; [done..|]. intros Hok.
    destruct (ok_reports_get _ _ _ Hrep Hrt) as [_ Hnn]. apply runtime_overwrite_ok; [done|..].
    all: destruct Hok as [_ Hok]; rewrite list.Forall_forall in Hok;
      destruct (Hok _ (dget_elem _ _ _ Hc)) as (r0 & Hr0 & ? & ?); cbn in Hr0; by rewrite Hr0. }
  destruct (dgetitem TAG_RAY_NODE_KIND tags) as [kind|]; [|by intros [= <- <-]].
  case_bool_decide; intros [= <- <-]; [|done].
  exact (same_settings_trans _ _ _ Hs (mark_updated_same_settings _ t)).
Qed.

Lemma update_from_runtime_same nodes by_ip s s' r :
  ok_reports by_ip -> _update_node_resources_from_runtime nodes by_ip s = (s', r) -> same_settings s s'.
Proof.
  intros Hrep. unfold _update_node_resources_from_runtime. st_simpl.
  destruct (_ =? _)%nat; [intros [= <- <-]; apply same_settings_refl|].
  apply st_for_inv; [apply same_settings_refl | apply same_settings_trans |].
  intros n a b q _. by apply update_one_same.
Qed.

End Runtime.

(** ** Limits *)

Section Limits.
Context {P : Type} `{!NodeProvider P}.
Variable conserve_gpu_nodes : bool.
Implicit Types (s : Scheduler P).

Definition ok_groups (pgs : list PlacementGroup) : Prop :=
  Forall (fun pg => Forall ok_demand (pg_bundles pg)) pgs.

Lemma concurrent_spec s to_launch connected nodes launching adj pgn r :
  dwf to_launch ->
  _get_concurrent_resource_demand_to_launch s to_launch connected nodes launching adj pgn = Ok r ->
  exists running pending,
    _separate_running_and_pending_nodes s nodes connected = Ok (running, pending) /\
    dwf r /\
    forall t, dget t r = match dget t to_launch with
      | Some n =>
          let ub := launch_upper_bound (upscaling_speed s) (dget_or t 0%Z running)
            (dget_or t 0 launching + dget_or t 0 pending)%Z (dget_or t 0 adj + dget_or t 0 pgn)%Z in
          if (0 <? ub)%Z then Some (Z.min ub n) else None
      | None => None
      end.
Proof.
  intros Hw H. unfold _get_concurrent_resource_demand_to_launch in H. bind_inv H.
  destruct a as [running pending]. exists running, pending. split; [done|]. injection H as <-.
  apply (concurrent_fold (fun t _ => launch_upper_bound (upscaling_speed s) (dget_or t 0%Z running)
    (dget_or t 0 launching + dget_or t 0 pending)%Z (dget_or t 0 adj + dget_or t 0 pgn)%Z) to_launch []);
    [done | apply dwf_nil |]. intros t _. apply not_elem_of_nil.
Qed.

(** A launch is at most the sum that was computed for it. *)
Lemma concurrent_le s to_launch connected nodes launching adj pgn r t n :
  dwf to_launch -> (forall t n, (t, n) ∈ to_launch -> (0 < n)%Z) ->
  _get_concurrent_resource_demand_to_launch s to_launch connected nodes launching adj pgn = Ok r ->
  dget t r = Some n -> exists m, dget t to_launch = Some m /\ (0 < n <= m)%Z.
Proof.
  intros Hw Hp H Hn. destruct (concurrent_spec _ _ _ _ _ _ _ _ Hw H) as (ru & pe & _ & _ & Hg).
  rewrite Hg in Hn. destruct (dget t to_launch) as [m|] eqn:Em; [|done]. cbn zeta in Hn.
  apply dget_elem, Hp in Em. destruct (Z.ltb_spec 0 (launch_upper_bound (upscaling_speed s)
    (dget_or t 0 ru) (dget_or t 0 launching + dget_or t 0 pe) (dget_or t 0 adj + dget_or t 0 pgn))%Z);
    [|done]. injection Hn as <-. exists m. split; [done|]. lia.
Qed.

Record within_limits s (counts0 launch : dict string Z) : Prop := mkWithin {
  wl_wf : dwf launch;
  wl_type : forall t n, (t, n) ∈ launch ->
    exists c, dget t (node_types s) = Some c /\ (0 < n)%Z /\
      (dget_or t 0 counts0 + n <= Z.max (dget_or t 0 counts0) (allowed_nodes (head_node_type s) t c))%Z;
  wl_total : (dsum counts0 + dsum launch <=
    Z.max (max_workers s + 1) (dsum (min_workers_counts (node_types s) (head_node_type s) counts0)))%Z
}.

(** From the bounds on the three sums to the bounds on what is launched *)
Lemma limits_compose s counts0 ms spread nr counts demand launch running :
  ok_node_types (node_types s) -> min_added (node_types s) (head_node_type s) counts0 ms ->
  (dsum (ms_counts ms) <= running)%Z -> (max_workers s + 1 <= running)%Z ->
  spread_inv s (ms_counts ms) (spread, nr, counts) ->
  launch_bounds (node_types s) counts (head_node_type s) (max_workers s + 1 - dsum counts) demand ->
  dwf launch ->
  (forall t n, dget t launch = Some n -> exists m,
     dget t (positive_sums (node_types s) (ms_to_add ms) spread demand) = Some m /\ (0 < n <= m)%Z) ->
  (forall t n, (t, n) ∈ launch -> exists c, dget t (node_types s) = Some c /\ (0 < n)%Z /\
     (dget_or t 0 counts0 + n <= Z.max (dget_or t 0 counts0) (allowed_nodes (head_node_type s) t c))%Z) /\
  (dsum counts0 + dsum launch <= running)%Z.
Proof.
  intros [Hn _] [[A1 A1'] A2 A3 A4 A5 A6] Hr1 Hr2 [[B1 B1'] B2 B3 B4 B5 [B6 B7]] [C1 C2 C3 C4 C5] Hw Hle.
  cbn in *. destruct (positive_sums_get (node_types s) (ms_to_add ms) spread demand Hn) as [_ Hg].
  assert (Hd : forall t, (0 <= dget_or t 0 demand)%Z).
  { intros t. apply dget_or_nonneg. intros k v Hin. specialize (C2 k v Hin). lia. }
  assert (Hlaunch : forall t n, dget t launch = Some n -> t ∈ dkeys (node_types s) /\
    (0 < n <= dget_or t 0 (ms_to_add ms) + dget_or t 0 spread + dget_or t 0 demand)%Z).
  { intros t n Ht. destruct (Hle t n Ht) as (m & Hm & Hnm). rewrite Hg in Hm.
    destruct (decide (t ∈ dkeys (node_types s))); [|done]. cbn zeta in Hm.
    destruct (0 <? _)%Z; [|done]. injection Hm as <-. done. }
  split.
  - intros t n Hin. apply elem_dget in Hin; [|done]. destruct (Hlaunch t n Hin) as [Hk Hb].
    apply dget_is_Some in Hk as [c Hc]. exists c. split; [done|]. split; [lia|].
    specialize (A5 t c Hc). specialize (B5 t c Hc). specialize (C4 t c Hc).
    specialize (A2 t). specialize (B2 t). lia.
  - assert (Hsum : (dsum launch <= dsum (ms_to_add ms) + dsum spread + dsum demand)%Z).
    { rewrite <- (sum_over_types (node_types s) launch Hn Hw).
      2: { intros t Ht. apply dget_is_Some in Ht as [n Hn']. by destruct (Hlaunch t n Hn'). }
      rewrite <- (sum_over_types (node_types s) (ms_to_add ms)), <- (sum_over_types (node_types s) spread),
        <- (sum_over_types (node_types s) demand) by done.
      rewrite <- !Zsum_map_add. apply Zsum_map_le. intros [t c] _. cbn.
      unfold dget_or at 1. destruct (dget t launch) as [n|] eqn:El; cbn.
      - destruct (Hlaunch t n El). lia.
      - specialize (A3 t). specialize (B3 t). specialize (Hd t). lia. }
    lia.
Qed.

Lemma positive_sums_pos nts a b c t n :
  dwf nts -> (t, n) ∈ positive_sums nts a b c -> (0 < n)%Z.
Proof.
  intros Hn Hin. destruct (positive_sums_get nts a b c Hn) as [Hw Hg].
  apply elem_dget in Hin; [|done]. rewrite Hg in Hin. case_decide; [|done]. cbn zeta in Hin.
  destruct (Z.ltb_spec 0 (dget_or t 0 a + dget_or t 0 b + dget_or t 0 c)%Z); naive_solver.
Qed.

Lemma nodes_to_launch_limits s nodes launching demands unused pgs ensure nr0 counts0 launch residual :
  ok_node_types (node_types s) -> Forall ok_demand demands -> Forall ok_demand ensure -> ok_groups pgs ->
  is_legacy_yaml s [] = false ->
  calculate_node_resources s nodes launching unused = Ok (nr0, counts0) ->
  nodes_to_launch conserve_gpu_nodes s nodes launching demands unused pgs ensure = Ok (launch, residual) ->
  within_limits s counts0 launch.
Proof.
  intros Hok Hd He Hpg Hleg Hcalc H. unfold nodes_to_launch in H. rewrite Hcalc in H.
  cbn [mbind result_bind] in H. bind_inv H. rename a into ms, E into Ems.
  pose proof (calculate_counts_wf _ _ _ _ _ _ Hcalc) as Hw0.
  destruct (add_min_workers_spec _ _ _ _ _ _ _ _ Hok Hw0 He Ems) as [Hms Htot].
  destruct (placement_groups_to_resource_demands pgs) as [pgv spreads] eqn:Epg.
  assert (Hpgok : Forall ok_demand pgv /\ Forall (Forall ok_demand) spreads).
  { pose proof (convert_groups_ok pgs ([], []) Hpg) as Hc. unfold placement_groups_to_resource_demands in Epg.
    rewrite Epg in Hc. apply Hc; constructor. }
  destruct Hpgok as [Hpgv Hspr]. rewrite Hleg in H. cbn [mbind result_bind] in H.
  bind_inv H. destruct a as [[spread nr] counts].
  pose proof (spread_spec _ _ _ _ _ _ Hok Hspr (proj1 (ma_wf _ _ _ _ Hms)) E) as Hsp.
  bind_inv H. destruct a as [unf_pg ?]. bind_inv H. destruct a as [pg_nodes ?].
  bind_inv H. destruct a as [unf ?]. bind_inv H. destruct a as [demand fin]. bind_inv H. simpl_result.
  assert (Hunf : Forall ok_demand unf).
  { eapply bin_pack_unf_ok; [|exact E2]. by apply list.Forall_app. }
  pose proof (get_nodes_for_bounds _ _ _ _ _ _ _ _ _ Hok Hunf E3) as Hb.
  destruct (positive_sums_get (node_types s) (ms_to_add ms) spread demand (proj1 Hok)) as [Hpw _].
  destruct (concurrent_spec _ _ _ _ _ _ _ _ Hpw E4) as (_ & _ & _ & Hlw & _).
  destruct (limits_compose s counts0 ms spread nr counts demand launch
    (Z.max (max_workers s + 1) (dsum (min_workers_counts (node_types s) (head_node_type s) counts0))))
    as [HA HB]; try done; try lia.
  intros t n Ht. eapply concurrent_le; [exact Hpw | | exact E4 | exact Ht].
  intros u m. by apply positive_sums_pos, Hok.
Qed.

(** [is_legacy_yaml] only depends on the names of the node types. *)
Lemma is_legacy_same s s' : same_settings s s' -> is_legacy_yaml s' [] = is_legacy_yaml s [].
Proof.
  intros (_ & _ & _ & _ & Hk & _). unfold is_legacy_yaml.
  assert (Hm : forall t, dmem t (node_types s') = dmem t (node_types s)).
  { intros t. destruct (dmem t (node_types s)) eqn:E.
    - rewrite dmem_true in *. by rewrite Hk.
    - rewrite dmem_false in *. by rewrite Hk. }
  by rewrite !Hm.
Qed.

(** C7. For a cluster config with [available_node_types] (not a legacy one,
    which [_legacy_worker_node_to_launch] treats by rules of its own), and
    positive amounts in the demands, placement groups and reports: what
    [get_nodes_to_launch] decides to launch never brings a node type above
    its [max_workers] (plus one for the head's type, or the number it already
    has), and never brings the whole cluster above [max_workers + 1], or the
    size the types' own [min_workers] already ask for. *)
Theorem get_nodes_to_launch_within_limits s nodes launching demands unused pgs by_ip ensure
    s' launch residual :
  ok_node_types (node_types s) -> Forall ok_demand demands -> Forall ok_demand ensure -> ok_groups pgs ->
  ok_reports by_ip -> is_legacy_yaml s [] = false ->
  get_nodes_to_launch conserve_gpu_nodes nodes launching demands unused pgs by_ip ensure s =
    (s', Ok (launch, residual)) ->
  exists node_resources counts,
    calculate_node_resources s' nodes launching unused = Ok (node_resources, counts) /\
    within_limits s' counts launch.
Proof.
  intros Hok Hd He Hpg Hrep Hleg H. unfold get_nodes_to_launch in H. st_simpl in H. rewrite Hleg in H.
  destruct (_update_node_resources_from_runtime nodes by_ip s) as [s1 r] eqn:E.
  pose proof (update_from_runtime_same _ _ _ _ _ Hrep E) as Hsame.
  destruct r as [u|]; [|done]. injection H as Hs1 H. subst s'.
  destruct (calculate_node_resources s1 nodes launching unused) as [[nr0 counts0]|] eqn:Ec.
  2: { unfold nodes_to_launch in H. by rewrite Ec in H. }
  exists nr0, counts0. split; [done|].
  eapply nodes_to_launch_limits; [|exact Hd | exact He | exact Hpg | | exact Ec | exact H].
  - by apply Hsame.
  - by rewrite (is_legacy_same s s1 Hsame).
Qed.

End Limits.

(** ** Returning *)

Section Returns.
Context {P : Type} `{!NodeProvider P}.
Variable conserve_gpu_nodes : bool.
Implicit Types (s : Scheduler P).

(** The provider answers for the node: it has tags, a kind and an ip. *)
Definition good_node (p : P) (n : NodeID) : Prop :=
  exists tags ip kind, node_tags p n = Ok tags /\ internal_ip p n = Ok ip /\
    dget TAG_RAY_NODE_KIND tags = Some kind.

Lemma update_one_ok by_ip n s :
  good_node (provider s) n -> exists s', update_from_runtime_one by_ip n s = (s', Ok tt).
Proof.
  intros (tags & ip & kind & Ht & Hip & Hk). unfold update_from_runtime_one, dgetitem. st_simpl.
  rewrite Ht, Hip, Hk. cbn.
  destruct (dget TAG_RAY_USER_NODE_TYPE tags); [|by eexists].
  destruct (dget _ (node_types s)); [|by eexists]. case_bool_decide; [by eexists|].
  destruct (default [] (dget ip by_ip)); [by eexists|]. case_bool_decide; by eexists.
Qed.

Lemma update_from_runtime_ok nodes by_ip s :
  ok_reports by_ip -> Forall (good_node (provider s)) nodes ->
  exists s', _update_node_resources_from_runtime nodes by_ip s = (s', Ok tt).
Proof.
  intros Hrep Hg. unfold _update_node_resources_from_runtime. st_simpl.
  destruct (_ =? _)%nat; [by eexists|]. revert s Hg.
  induction nodes as [|n nodes IH]; intros s Hg; cbn [st_for]; st_simpl; [by eexists|].
  inversion Hg as [|? ? Hn Hns]; subst. destruct (update_one_ok by_ip n s Hn) as [s1 E]. rewrite E.
  pose proof (update_one_same _ _ _ _ _ Hrep E) as (Hp & _). apply IH. by rewrite Hp.
Qed.

Lemma config_resources s t c :
  ok_node_types (node_types s) -> dget t (node_types s) = Some c -> exists r, cfg_resources c = Ok r.
Proof.
  intros [_ Hok] Hc%dget_elem. rewrite list.Forall_forall in Hok. destruct (Hok _ Hc) as (r & Hr & _).
  exists r. unfold cfg_resources. cbn in Hr. by rewrite Hr.
Qed.

Abbreviation known_counts s acc := (forall t, t ∈ dkeys (snd acc) -> t ∈ dkeys (node_types s)).

Lemma add_node_ok s acc t av :
  ok_node_types (node_types s) -> known_counts s acc ->
  exists acc', add_node s acc t av = Ok acc' /\ known_counts s acc'.
Proof.
  intros Hok Hk. destruct acc as [nr counts]. unfold add_node.
  destruct (dget t (node_types s)) as [c|] eqn:Ec; [|by eexists].
  destruct (config_resources s t c Hok Ec) as [r ->]. cbn. eexists. split; [done|]. cbn.
  intros u Hu. unfold dincr in Hu. apply elem_dkeys_dset in Hu as [->|Hu]; [|by apply Hk].
  apply dget_is_Some. by exists c.
Qed.

Lemma calculate_ok s nodes launching unused :
  ok_node_types (node_types s) -> Forall (good_node (provider s)) nodes ->
  exists nr counts, calculate_node_resources s nodes launching unused = Ok (nr, counts) /\
    forall t, t ∈ dkeys counts -> t ∈ dkeys (node_types s).
Proof.
  intros Hok Hg. unfold calculate_node_resources. rewrite list.Forall_forall in Hg.
  destruct (foldM_ok (fun acc => known_counts s acc) (fun acc node_id =>
    tags ← node_tags (provider s) node_id;
    match dget TAG_RAY_USER_NODE_TYPE tags with
    | None => Ok acc
    | Some node_type => ip ← internal_ip (provider s) node_id;
                        add_node s acc node_type (dget ip unused)
    end) ([], []) nodes) as (acc & -> & Hk).
  - by intros t ?%elem_of_nil.
  - intros n acc Hn Hk. destruct (Hg n Hn) as (tags & ip & kind & -> & -> & _). cbn.
    destruct (dget _ tags); [by apply add_node_ok | by eexists].
  - cbn [mbind result_bind].
    destruct (foldM_ok (fun acc => known_counts s acc) (fun acc tc =>
      foldM (fun acc (_ : unit) => add_node s acc tc.1 None) acc (replicate (Z.to_nat tc.2) tt)) acc launching)
      as ([nr counts] & -> & Hk'); [done | | by exists nr, counts].
    intros [t n] acc' _ Hk'. apply (foldM_ok (fun acc => known_counts s acc)); [done|].
    intros x acc'' _ Hk''. by apply add_node_ok.
Qed.

Lemma repeat_resources_ok nts t n :
  ok_node_types nts -> t ∈ dkeys nts -> exists rs, repeat_resources nts t n = Ok rs.
Proof.
  intros [_ Hok] Ht. unfold repeat_resources. destruct (_ <=? _)%Z; [by eexists|].
  apply dget_is_Some in Ht as [c Hc]. unfold dgetitem. rewrite Hc. cbn.
  apply dget_elem in Hc. rewrite list.Forall_forall in Hok. destruct (Hok _ Hc) as (r & Hr & _).
  unfold cfg_resources. cbn in Hr. rewrite Hr. cbn. by eexists.
Qed.

Lemma counts_to_resources_ok nts counts :
  ok_node_types nts -> (forall t, t ∈ dkeys counts -> t ∈ dkeys nts) ->
  exists rs, _node_type_counts_to_node_resources nts counts = Ok rs.
Proof.
  intros Hok Hk. unfold _node_type_counts_to_node_resources.
  destruct (foldM_ok (fun _ => True) (fun acc tc => rs ← repeat_resources nts tc.1 tc.2; Ok (acc ++ rs))
    [] counts I) as (rs & -> & _); [|by eexists].
  intros [t n] acc Hin _. cbn [fst snd]. destruct (repeat_resources_ok nts t n Hok) as [rs ->]; [|by eexists].
  apply Hk. apply list_elem_of_fmap. by exists (t, n).
Qed.

Lemma add_min_workers_ok nr counts nts mw head ensure :
  ok_node_types nts -> dwf counts -> (forall t, t ∈ dkeys counts -> t ∈ dkeys nts) -> Forall ok_demand ensure ->
  exists ms, _add_min_workers_nodes conserve_gpu_nodes nr counts nts mw head ensure = Ok ms.
Proof.
  intros Hok Hw Hk He. unfold _add_min_workers_nodes.
  destruct (foldM_ok (fun st : min_state => forall t, t ∈ dkeys (ms_counts st) -> t ∈ dkeys nts)
    (add_min_one nts head) (mkMin nr counts []) nts Hk) as (ms & -> & Hk').
  { intros [t c] s Hin Hs. unfold add_min_one. destruct (_ <? _)%Z; [|by eexists].
    assert (Ht : t ∈ dkeys nts) by (apply list_elem_of_fmap; by exists (t, c)).
    destruct (repeat_resources_ok nts t (min_target head t c - dget_or t 0%Z (ms_counts s)) Hok Ht) as [rs ->].
    cbn. eexists. split; [done|]. cbn. intros u Hu. apply elem_dkeys_dset in Hu as [->|Hu]; auto. }
  cbn [mbind result_bind]. destruct ensure as [|e es]; [by eexists|].
  destruct (counts_to_resources_ok nts (ms_counts ms) Hok Hk') as [rs ->]. cbn [mbind result_bind].
  destruct (bin_pack_total false rs (e :: es) He) as [[unf fin] Eb]. rewrite Eb. cbn [mbind result_bind].
  pose proof (bin_pack_unf_ok _ _ _ _ _ He Eb) as Hunf. unfold get_nodes_for.
  destruct (loop_total conserve_gpu_nodes nts (ms_counts ms) head (mw + 1 - dsum (ms_counts ms)) false Hok
    (length unf) [] unf Hunf ltac:(done)) as [[add res] El]. rewrite El. cbn [mbind result_bind].
  pose proof (get_nodes_for_bounds _ _ _ _ _ _ _ _ _ Hok Hunf El) as [_ _ Hkn _ _].
  destruct (foldM_ok (fun _ => True) (add_requested_one nts) ms add I) as (ms' & -> & _); [|by eexists].
  intros [t n] s Hin _. unfold add_requested_one. cbn [fst snd]. destruct (0 <? n)%Z; [|by eexists].
  destruct (repeat_resources_ok nts t n Hok) as [rs' ->]; [|by eexists].
  apply Hkn. apply list_elem_of_fmap. by exists (t, n).
Qed.

Lemma separate_ok s nodes connected :
  Forall (good_node (provider s)) nodes ->
  exists r, _separate_running_and_pending_nodes s nodes connected = Ok r.
Proof.
  intros Hg. unfold _separate_running_and_pending_nodes. rewrite list.Forall_forall in Hg.
  destruct (foldM_ok (fun _ => True) (separate_one s connected) ([], []) nodes I) as (r & -> & _); [|by eexists].
  intros n [ru pe] Hn _. destruct (Hg n Hn) as (tags & ip & kind & Ht & Hip & _).
  unfold separate_one. rewrite Ht, Hip. cbn. destruct (dget _ tags); [|by eexists].
  case_bool_decide; by eexists.
Qed.

Lemma no_spreads pgs acc :
  Forall (fun pg => pg_strategy pg <> STRICT_SPREAD) pgs -> (foldl convert_group acc pgs).2 = acc.2.
Proof.
  intros HF. revert acc. induction HF as [|pg pgs Hpg _ IH]; intros [v u]; cbn [foldl]; [done|].
  rewrite IH. unfold convert_group. by destruct (pg_strategy pg).
Qed.

Lemma nodes_for_ok nts counts head budget rs spread :
  ok_node_types nts -> Forall ok_demand rs ->
  exists add res, get_nodes_for conserve_gpu_nodes nts counts head budget rs spread = Ok (add, res).
Proof.
  intros Hok Hrs. unfold get_nodes_for.
  destruct (loop_total conserve_gpu_nodes nts counts head budget spread Hok (length rs) [] rs Hrs ltac:(done))
    as [[add res] ->]. eauto.
Qed.

Lemma nodes_to_launch_ok s nodes launching demands unused pgs ensure :
  ok_node_types (node_types s) -> Forall ok_demand demands -> Forall ok_demand ensure -> ok_groups pgs ->
  Forall (fun pg => pg_strategy pg <> STRICT_SPREAD) pgs ->
  is_legacy_yaml s [] = false -> Forall (good_node (provider s)) nodes ->
  exists r, nodes_to_launch conserve_gpu_nodes s nodes launching demands unused pgs ensure = Ok r.
Proof.
  intros Hok Hd He Hpg Hns Hleg Hg. unfold nodes_to_launch.
  destruct (calculate_ok s nodes launching unused Hok Hg) as (nr0 & counts0 & Ec & Hk). rewrite Ec.
  cbn [mbind result_bind]. pose proof (calculate_counts_wf _ _ _ _ _ _ Ec) as Hw0.
  destruct (add_min_workers_ok nr0 counts0 (node_types s) (max_workers s) (head_node_type s) ensure
    Hok Hw0 Hk He) as [ms ->]. cbn [mbind result_bind].
  pose proof (convert_groups_ok pgs ([], []) Hpg ltac:(constructor) ltac:(constructor)) as [Hpgv _].
  pose proof (no_spreads pgs ([], []) Hns) as Hspr. unfold placement_groups_to_resource_demands.
  destruct (foldl convert_group ([], []) pgs) as [pgv spreads]. cbn in Hpgv, Hspr. subst spreads.
  rewrite Hleg. cbn [mbind result_bind reserve_and_allocate_spread foldM].
  destruct (bin_pack_total false (ms_resources ms) pgv Hpgv) as [[unf_pg f1] E1]. rewrite E1.
  cbn [mbind result_bind].
  destruct (nodes_for_ok (node_types s) (ms_counts ms) (head_node_type s)
    (max_workers s + 1 - dsum (ms_counts ms)) unf_pg false Hok (bin_pack_unf_ok _ _ _ _ _ Hpgv E1))
    as (pg_nodes & r1 & ->). cbn [mbind result_bind].
  assert (Hall : Forall ok_demand (pgv ++ demands)) by (by apply list.Forall_app).
  destruct (bin_pack_total false (ms_resources ms) _ Hall) as [[unf f2] E2]. rewrite E2.
  cbn [mbind result_bind].
  destruct (nodes_for_ok (node_types s) (ms_counts ms) (head_node_type s)
    (max_workers s + 1 - dsum (ms_counts ms)) unf false Hok (bin_pack_unf_ok _ _ _ _ _ Hall E2))
    as (dem & r2 & ->).
  cbn [mbind result_bind]. unfold _get_concurrent_resource_demand_to_launch.
  destruct (separate_ok s nodes (dkeys unused) Hg) as [[ru pe] ->]. cbn. by eexists.
Qed.

(** C8. For a cluster config with [available_node_types] (not a legacy one),
    positive amounts in the demands, placement groups and reports, no
    strict-spread placement groups and nodes the provider knows,
    [get_nodes_to_launch] returns: no assertion, lookup or loop of the whole
    decision fails. An explicit amount of zero is excluded by [ok_demand]:
    it can fail the scheduler's progress assertion. *)
Theorem get_nodes_to_launch_returns s nodes launching demands unused pgs by_ip ensure :
  ok_node_types (node_types s) -> Forall ok_demand demands -> Forall ok_demand ensure -> ok_groups pgs ->
  Forall (fun pg => pg_strategy pg <> STRICT_SPREAD) pgs -> ok_reports by_ip ->
  is_legacy_yaml s [] = false -> Forall (good_node (provider s)) nodes ->
  exists s' launch residual,
    get_nodes_to_launch conserve_gpu_nodes nodes launching demands unused pgs by_ip ensure s =
      (s', Ok (launch, residual)).
Proof.
  intros Hok Hd He Hpg Hns Hrep Hleg Hg. unfold get_nodes_to_launch. st_simpl. rewrite Hleg.
  destruct (update_from_runtime_ok nodes by_ip s Hrep Hg) as [s1 E]. rewrite E.
  pose proof (update_from_runtime_same _ _ _ _ _ Hrep E) as Hsame.
  destruct (nodes_to_launch_ok s1 nodes launching demands unused pgs ensure) as [[launch res] ->];
    try done; [by apply Hsame | by rewrite (is_legacy_same s s1 Hsame) | | by eexists _, _, _].
  destruct Hsame as (-> & _). done.
Qed.

End Returns.

(** ** The launch rate *)

Section Rate.
Context {P : Type} `{!NodeProvider P}.
Implicit Types (s : Scheduler P).

(** [_get_concurrent_resource_demand_to_launch] limits the rate of
    launches: of a type it launches no more than asked, it leaves at most
    [max(5, upscaling_speed * running)] nodes of the type pending unless the
    nodes are reserved (min workers, placement groups), and it never holds
    back a reserved node. *)
Theorem concurrent_launches_rate_limited s to_launch connected nodes launching adj pgn r t asked :
  dwf to_launch -> dget t to_launch = Some asked ->
  _get_concurrent_resource_demand_to_launch s to_launch connected nodes launching adj pgn = Ok r ->
  exists running pending,
    _separate_running_and_pending_nodes s nodes connected = Ok (running, pending) /\
    let n := dget_or t 0%Z r in
    let allowed := Z.max 5 (int_of_Q (upscaling_speed s * inject_Z (dget_or t 0%Z running))) in
    let reserved := (dget_or t 0 adj + dget_or t 0 pgn)%Z in
    (0 < asked -> 0 <= n <= asked)%Z /\
    (n <= reserved \/ n <= 0 \/ dget_or t 0 launching + dget_or t 0 pending + n <= allowed)%Z /\
    (0 < asked -> Z.min reserved asked <= n)%Z.
Proof.
  intros Hw Ha H. destruct (concurrent_spec _ _ _ _ _ _ _ _ Hw H) as (ru & pe & Hsep & _ & Hg).
  exists ru, pe. split; [done|]. specialize (Hg t). rewrite Ha in Hg. cbn zeta in Hg |- *.
  assert (Hn : dget_or t 0%Z r = default 0%Z (dget t r)) by done. rewrite Hn, Hg. clear Hn Hg.
  unfold launch_upper_bound, UPSCALING_INITIAL_NUM_NODES.
  set (al := Z.max 5 (int_of_Q (upscaling_speed s * inject_Z (dget_or t 0%Z ru)))).
  destruct (Z.ltb_spec 0 (Z.max (al - (dget_or t 0 launching + dget_or t 0 pe))
    (dget_or t 0 adj + dget_or t 0 pgn)))%Z; cbn; lia.
Qed.

(** Node types whose resources a heartbeat already set are frozen:
    [_update_node_resources_from_runtime] changes neither their config nor
    the names, [min_workers] and [max_workers] of any type, and keeps the
    node types well formed. *)
Theorem runtime_update_keeps_settings nodes by_ip s s' r :
  ok_reports by_ip -> _update_node_resources_from_runtime nodes by_ip s = (s', r) ->
  dkeys (node_types s') = dkeys (node_types s) /\
  (ok_node_types (node_types s) -> ok_node_types (node_types s')) /\
  (forall t, t ∈ node_resource_updated s ->
     t ∈ node_resource_updated s' /\ dget t (node_types s') = dget t (node_types s)) /\
  (forall t c, dget t (node_types s) = Some c -> exists c', dget t (node_types s') = Some c' /\
     cfg_max_workers c' = cfg_max_workers c /\ cfg_min_workers c' = cfg_min_workers c).
Proof. intros Hrep H. by destruct (update_from_runtime_same _ _ _ _ _ Hrep H) as (_ & _ & _ & _ & ?). Qed.

End Rate.

(** ** Placement groups *)

Section Groups.

Definition known_strategy (pg : PlacementGroup) : Prop := pg_strategy pg <> UNKNOWN_STRATEGY.
#[global] Instance strategy_eq_dec : EqDecision PlacementStrategy.
Proof. solve_decision. Defined.

Definition total_of (k : string) (shapes : list ResourceDict) : Q := Qsum (map (rget k) shapes).

Lemma total_of_app k a b : (total_of k (a ++ b) == total_of k a + total_of k b)%Q.
Proof. unfold total_of. by rewrite map_app, Qsum_app. Qed.

Lemma total_of_combined k shapes :
  Forall dwf shapes -> (total_of k [combine_shapes shapes] == total_of k shapes)%Q.
Proof.
  intros H. pose proof (combine_shapes_get shapes k H) as Hc. unfold total_of. rewrite <- Hc.
  unfold Qsum; cbn [map foldr]. lra.
Qed.

Lemma convert_groups_total k pgs acc :
  Forall (fun pg => Forall dwf (pg_bundles pg)) pgs -> Forall known_strategy pgs ->
  (total_of k (foldl convert_group acc pgs).1 + total_of k (concat (foldl convert_group acc pgs).2) ==
   total_of k acc.1 + total_of k (concat acc.2) + total_of k (concat (map pg_bundles pgs)))%Q.
Proof.
  intros HF HK. revert acc. induction pgs as [|pg pgs IH]; intros [v u]; cbn [foldl].
  - cbn. change (total_of k []) with 0%Q. lra.
  - inversion HF; inversion HK; subst. rewrite IH by done. cbn [map concat].
    rewrite total_of_app. unfold convert_group. destruct (pg_strategy pg) eqn:Es; cbn [fst snd];
      rewrite ?concat_app, ?total_of_app; cbn [concat]; rewrite ?app_nil_r; try lra.
    + rewrite total_of_combined by done. lra.
    + by destruct (H5 Es).
Qed.

Lemma convert_groups_spreads pgs acc :
  (foldl convert_group acc pgs).2 =
  acc.2 ++ map pg_bundles (filter (fun pg => pg_strategy pg = STRICT_SPREAD) pgs).
Proof.
  revert acc. induction pgs as [|pg pgs IH]; intros [v u]; cbn [foldl]; [by rewrite app_nil_r|].
  rewrite IH, filter_cons. unfold convert_group. case_decide as Hs; destruct (pg_strategy pg); try done.
  cbn. by rewrite <- app_assoc.
Qed.

(** What a group contributes to the demand vector: its bundles, or one bundle with
    exactly their resources and their sums, or nothing *)
Definition converted (pg : PlacementGroup) (demands : list ResourceDict) : Prop :=
  match pg_strategy pg with
  | PACK | SPREAD => demands = pg_bundles pg
  | STRICT_PACK =>
      exists d, demands = [d] /\ dwf d /\ (forall k, k ∈ dkeys d <-> exists b, b ∈ pg_bundles pg /\ k ∈ dkeys b) /\
        forall k, (rget k d == total_of k (pg_bundles pg))%Q
  | STRICT_SPREAD | UNKNOWN_STRATEGY => demands = []
  end.

Lemma combine_shapes_keys shapes :
  dwf (combine_shapes shapes) /\ forall k, k ∈ dkeys (combine_shapes shapes) <-> exists b, b ∈ shapes /\ k ∈ dkeys b.
Proof.
  unfold combine_shapes.
  assert (Hin : forall sh (c : ResourceDict), dwf c -> let c' := foldl (fun c lq => dset lq.1 (rget lq.1 c + lq.2)%Q c) c sh in
    dwf c' /\ forall k, k ∈ dkeys c' <-> k ∈ dkeys c \/ k ∈ dkeys sh).
  { induction sh as [|[l q] sh IH]; intros c Hc; cbn [foldl fst snd]; [split; [done | set_solver]|].
    destruct (IH (dset l (rget l c + q)%Q c)) as [H1 H2]; [by apply dwf_dset|]. split; [done|].
    intros k. rewrite H2, elem_dkeys_dset, dkeys_cons, elem_of_cons. tauto. }
  assert (Hout : forall (c : ResourceDict), dwf c -> let c' := foldl (fun combined shape =>
      foldl (fun c lq => dset lq.1 (rget lq.1 c + lq.2)%Q c) combined shape) c shapes in
    dwf c' /\ forall k, k ∈ dkeys c' <-> k ∈ dkeys c \/ exists b, b ∈ shapes /\ k ∈ dkeys b).
  { induction shapes as [|sh shapes IH]; intros c Hc; cbn [foldl]; [split; [done | set_solver]|].
    destruct (Hin sh c Hc) as [H1 H2]. destruct (IH _ H1) as [H3 H4]. split; [done|].
    intros k. rewrite H4, H2. setoid_rewrite elem_of_cons. naive_solver. }
  destruct (Hout [] dwf_nil) as [H1 H2]. split; [done|]. intros k. rewrite H2. cbn. set_solver.
Qed.

Lemma convert_groups_each pgs acc :
  Forall (fun pg => Forall dwf (pg_bundles pg)) pgs ->
  exists demands, (foldl convert_group acc pgs).1 = acc.1 ++ concat demands /\ Forall2 converted pgs demands.
Proof.
  intros HF. revert acc. induction HF as [|pg pgs Hpg _ IH]; intros [v u]; cbn [foldl].
  { exists []. by rewrite app_nil_r. }
  destruct (IH (convert_group (v, u) pg)) as (ds & E & Hds).
  exists ((match pg_strategy pg with
           | PACK | SPREAD => pg_bundles pg | STRICT_PACK => [combine_shapes (pg_bundles pg)] | _ => [] end) :: ds).
  split; [rewrite E; unfold convert_group; destruct (pg_strategy pg); cbn [fst concat]; by rewrite <- ?app_assoc|].
  constructor; [|done]. unfold converted. destruct (pg_strategy pg); try done.
  destruct (combine_shapes_keys (pg_bundles pg)) as [H1 H2]. eexists. split_and!; [done.. |]. intros k. by apply combine_shapes_get.
Qed.

(** C38. [placement_groups_to_resource_demands] converts the groups as documented
    and in their order: the bundles of a PACK or SPREAD group are demands of
    their own, a STRICT_PACK group is one demand for exactly the resources of
    its bundles, summed up per resource, a STRICT_SPREAD group comes back
    unconverted, and a group of an unknown strategy is left out. So, when all
    strategies are known, no resource is lost or invented. Bundles are
    dictionaries: no resource occurs twice in one. *)
Theorem placement_groups_converted pgs :
  Forall (fun pg => Forall dwf (pg_bundles pg)) pgs ->
  let '(vector, unconverted) := placement_groups_to_resource_demands pgs in
  (exists demands, vector = concat demands /\ Forall2 converted pgs demands) /\
  unconverted = map pg_bundles (filter (fun pg => pg_strategy pg = STRICT_SPREAD) pgs) /\
  (Forall known_strategy pgs -> forall k,
     (total_of k vector + total_of k (concat unconverted) == total_of k (concat (map pg_bundles pgs)))%Q).
Proof.
  intros HF. unfold placement_groups_to_resource_demands.
  pose proof (convert_groups_each pgs ([], []) HF) as (ds & Hv & Hds).
  pose proof (fun k HK => convert_groups_total k pgs ([], []) HF HK) as Ht.
  pose proof (convert_groups_spreads pgs ([], [])) as Hs.
  destruct (foldl convert_group ([], []) pgs) as [vector unconverted]. cbn [fst snd] in *. split_and!; [by exists ds | done |].
  intros HK k. rewrite Ht by done. cbn. change (total_of k []) with 0%Q. lra.
Qed.

End Groups.

(** ** A concrete cluster *)

Section Cluster.

Definition head_type : string := "ray.head.default".
Definition ex_types : NodeTypes :=
  [(head_type, mkNodeType (Some [("CPU", 2)]) (Some 0%Z) (Some 0%Z) None []);
   ("cpu", mkNodeType (Some [("CPU", 4)]) (Some 1%Z) (Some 10%Z) None []);
   ("gpu", mkNodeType (Some [("CPU", 8); ("GPU", 1)]) (Some 0%Z) (Some 2%Z) None [])]%Q.

Definition ex_fake : Fake.FakeMultiNodeProvider :=
  match Fake.__init__ true with Ok p => p | Err _ => Fake.mkFake [] 0 end.
Definition ex_scheduler : Scheduler Fake.FakeMultiNodeProvider := mkScheduler ex_fake ex_types [] 8 head_type 1.
Definition ex_nodes : list NodeID := [Fake.FAKE_HEAD_NODE_ID].
Definition ex_demands : list ResourceDict := replicate 40 [("CPU", 1)]%Q.
Definition ex_groups : list PlacementGroup := [mkPG STRICT_PACK [[("GPU", 1)]; [("CPU", 2)]]]%Q.
Definition ex_by_ip : dict NodeIP ResourceDict := [(Fake.FAKE_HEAD_NODE_ID, [("CPU", 2); ("memory", 1000)])]%Q.

(** The config of the type [t] with its resources *)
Definition simple_type (t : string) (r : ResourceDict) (min max : Z) : string * NodeTypeConfig :=
  (t, mkNodeType (Some r) (Some min) (Some max) None []).

Definition spread_types : NodeTypes :=
  [simple_type head_type [] 0 0; simple_type "T1" [("CPU", 8); ("X", 1)] 0 10; simple_type "T2" [("CPU", 4)] 0 10]%Q.
Definition spread_scheduler : Scheduler Fake.FakeMultiNodeProvider :=
  mkScheduler ex_fake spread_types [] 10 head_type 1.
Definition spread_bundles : list ResourceDict := [[("CPU", 8)]; [("CPU", 4)]; [("X", 1)]]%Q.

(** A strict-spread group can be launched and still crash the update:
    [get_nodes_for] finds nodes for every bundle, yet packing the bundles on
    those nodes fails the assertion of [reserve_and_allocate_spread], since
    the packing may put a small bundle on the node chosen for another. *)
Theorem spread_assertion_can_fail :
  let s := spread_scheduler in
  (exists to_launch, get_nodes_for true (node_types s) [] (head_node_type s) (max_workers s + 1)
     spread_bundles true = Ok (to_launch, [])) /\
  reserve_and_allocate_spread true s [spread_bundles] [] [] = Err AssertionError.
Proof. split; [eexists|]; vm_compute; reflexivity. Qed.

Lemma get_nodes_to_launch_within_limits_witness :
  exists s' launch residual nr counts,
    get_nodes_to_launch true ex_nodes [] ex_demands [] ex_groups ex_by_ip [[("CPU", 4)]]%Q ex_scheduler =
      (s', Ok (launch, residual)) /\
    launch <> [] /\ calculate_node_resources s' ex_nodes [] [] = Ok (nr, counts) /\
    within_limits s' counts launch.
Proof.
  destruct (get_nodes_to_launch true ex_nodes [] ex_demands [] ex_groups ex_by_ip [[("CPU", 4)]]%Q ex_scheduler)
    as [s' r] eqn:E. pose proof E as E'. vm_compute in E'. injection E' as Es Er. subst r.
  edestruct (get_nodes_to_launch_within_limits true ex_scheduler ex_nodes [] ex_demands [] ex_groups ex_by_ip
    [[("CPU", 4)]]%Q s') as (nr & counts & Hc & Hw); [by_compute..|reflexivity|exact E|].
  eexists s', _, _, nr, counts. split; [reflexivity|]. split; [done|]. by split.
Defined.

Lemma get_nodes_to_launch_returns_witness :
  exists s' launch residual,
    get_nodes_to_launch true ex_nodes [] ex_demands [] ex_groups ex_by_ip [[("CPU", 4)]]%Q ex_scheduler =
      (s', Ok (launch, residual)).
Proof.
  apply (get_nodes_to_launch_returns true); [by_compute..|reflexivity|].
  repeat constructor. unfold good_node. eexists _, _, _. split_and!; reflexivity.
Defined.

Lemma concurrent_launches_rate_limited_witness :
  exists r, _get_concurrent_resource_demand_to_launch ex_scheduler [("cpu", 8%Z)] [] ex_nodes [] [] [] = Ok r /\
    (exists running pending,
      _separate_running_and_pending_nodes ex_scheduler ex_nodes [] = Ok (running, pending) /\
      let n := dget_or "cpu" 0%Z r in
      let allowed := Z.max 5 (int_of_Q (upscaling_speed ex_scheduler * inject_Z (dget_or "cpu" 0%Z running))) in
      let reserved := (dget_or "cpu" 0 [] + dget_or "cpu" 0 [])%Z in
      (0 < 8 -> 0 <= n <= 8)%Z /\
      (n <= reserved \/ n <= 0 \/ dget_or "cpu" 0 [] + dget_or "cpu" 0 pending + n <= allowed)%Z /\
      (0 < 8 -> Z.min reserved 8 <= n)%Z).
Proof.
  eexists. split; [vm_compute; reflexivity|].
  apply (concurrent_launches_rate_limited ex_scheduler [("cpu", 8%Z)] [] ex_nodes [] [] [] _ "cpu" 8);
    [by_compute | reflexivity | vm_compute; reflexivity].
Defined.

Lemma runtime_update_keeps_settings_witness :
  exists s', _update_node_resources_from_runtime ex_nodes ex_by_ip ex_scheduler = (s', Ok tt) /\
    dkeys (node_types s') = dkeys ex_types.
Proof.
  destruct (_update_node_resources_from_runtime ex_nodes ex_by_ip ex_scheduler) as [s' r] eqn:E.
  pose proof E as E'. vm_compute in E'. injection E' as _ <-. exists s'. split; [done|].
  apply (runtime_update_keeps_settings ex_nodes ex_by_ip ex_scheduler s' (Ok tt)); [by_compute | exact E].
Defined.

Lemma placement_groups_converted_witness :
  let '(vector, unconverted) := placement_groups_to_resource_demands
    (mkPG STRICT_SPREAD [[("CPU", 1)]; [("CPU", 3)]] :: ex_groups)%Q in
  (exists d, vector = [d] /\ (rget "CPU" d == 2)%Q /\ (rget "GPU" d == 1)%Q) /\
  unconverted = [[[("CPU", 1)]; [("CPU", 3)]]]%Q /\
  (total_of "CPU" vector + total_of "CPU" (concat unconverted) == 6)%Q.
Proof.
  destruct (placement_groups_converted (mkPG STRICT_SPREAD [[("CPU", 1)]; [("CPU", 3)]] :: ex_groups)%Q)
    as ((ds & Hv & Hds) & Hu & Ht); [by_compute|]. split_and!; [|exact Hu | apply Ht; by_compute].
  inversion Hds as [|? d1 ? ds' H1 Hds']; subst. inversion Hds' as [|? d2 ? ds'' H2 Hds'']; subst. inversion Hds''; subst.
  cbn in H1, H2. subst d1. destruct H2 as (d & -> & _ & _ & Hk). exists d. split; [exact Hv|]. split; rewrite Hk; reflexivity.
Defined.

End Cluster.
