(* ===== verification/LoadMetrics.v ===== *)
(** [LoadMetrics] ([autoscaler/_private/load_metrics.py]): the container of
    the metrics the raylets report, which the autoscaler reads to decide when
    to scale up and which nodes are idle. The time of day is an argument of
    the operations that read the clock. *)

From Stdlib Require Import ZArith QArith Lqa Lia.
From stdpp Require Import base list strings option pretty relations.
From S2P Require Import Prelude PyDict Resources NodeTypes NodeProvider DemandScheduler.

(** ** [freq_of_dicts] *)

Section Freq.
Context {D U : Type}.
Variable eqb : D -> D -> bool.        (* equality of the serialized values *)
Variable deserializer : D -> U.

(** [Counter(xs)]: one entry per distinct value, in order of appearance *)
Fixpoint counter_incr (x : D) (counter : list (D * Z)) : list (D * Z) :=
  match counter with
  | [] => [(x, 1%Z)]
  | (y, n) :: counter' => if eqb x y then (y, n + 1)%Z :: counter' else (y, n) :: counter_incr x counter'
  end.

Definition Counter (xs : list D) : list (D * Z) := foldl (fun c x => counter_incr x c) [] xs.

Definition freq_of_dicts (dicts : list D) : list (U * Z) :=
  map (fun xc => (deserializer xc.1, xc.2)) (Counter dicts).

End Freq.

(** With the default serializer, [frozenset(d.items())]: two dicts count as
    the same when they have the same items. *)
Definition freq_of_resources (dicts : list ResourceDict) : list (ResourceDict * Z) :=
  freq_of_dicts resources_eqb id dicts.

(** ** The class *)

Module LoadMetrics.

Record LoadMetrics : Type := mkLM {
  last_used_time_by_ip : dict NodeIP Q;
  last_heartbeat_time_by_ip : dict NodeIP Q;
  static_resources_by_ip : dict NodeIP ResourceDict;
  dynamic_resources_by_ip : dict NodeIP ResourceDict;
  raylet_id_by_ip : dict NodeIP string;
  resource_load_by_ip : dict NodeIP ResourceDict;
  local_ip : NodeIP;
  waiting_bundles : list ResourceDict;
  infeasible_bundles : list ResourceDict;
  pending_placement_groups : list PlacementGroup;
  resource_requests : list ResourceDict;
  cluster_full_of_actors_detected : bool
}.

Definition __init__ (ip : NodeIP) : LoadMetrics := mkLM [] [] [] [] [] [] ip [] [] [] [] false.

(** The available resources of a node: a static resource the heartbeat does
    not list is used up. *)
Definition fill_dynamic (static_resources dynamic_resources : ResourceDict) : ResourceDict :=
  foldl (fun d rc => if dmem rc.1 d then d else dset rc.1 0%Q d) dynamic_resources static_resources.

Definition update (now : Q) (ip : NodeIP) (raylet_id : string)
    (static_resources dynamic_resources resource_load : ResourceDict)
    (waiting infeasible : option (list ResourceDict)) (pgs : option (list PlacementGroup))
    (full_of_actors : bool) (s : LoadMetrics) : LoadMetrics :=
  let dynamic := fill_dynamic static_resources dynamic_resources in
  mkLM
    (if negb (dmem ip (last_used_time_by_ip s)) || negb (resources_eqb static_resources dynamic)
     then dset ip now (last_used_time_by_ip s) else last_used_time_by_ip s)
    (dset ip now (last_heartbeat_time_by_ip s))
    (dset ip static_resources (static_resources_by_ip s))
    (dset ip dynamic (dynamic_resources_by_ip s))
    (dset ip raylet_id (raylet_id_by_ip s))
    (dset ip resource_load (resource_load_by_ip s))
    (local_ip s)
    (default [] waiting) (default [] infeasible) (default [] pgs)
    (resource_requests s) full_of_actors.

(** [ip = None] fails the assertion. *)
Definition mark_active (now : Q) (ip : option NodeIP) : ST LoadMetrics unit :=
  match ip with
  | None => st_raise AssertionError
  | Some ip => st_modify (fun s => mkLM (last_used_time_by_ip s) (dset ip now (last_heartbeat_time_by_ip s))
      (static_resources_by_ip s) (dynamic_resources_by_ip s) (raylet_id_by_ip s) (resource_load_by_ip s)
      (local_ip s) (waiting_bundles s) (infeasible_bundles s) (pending_placement_groups s)
      (resource_requests s) (cluster_full_of_actors_detected s))
  end.

Definition is_active (s : LoadMetrics) (ip : NodeIP) : bool := dmem ip (last_heartbeat_time_by_ip s).

(** [prune], local to [prune_active_ips]: the set of unwanted ips, each
    deleted, and the assertion that none is left *)
Definition prune {V} (active_ips : list NodeIP) (mapping : dict NodeIP V) : result (dict NodeIP V) :=
  let unwanted_ips := filter (fun ip => ip ∉ active_ips) (dkeys mapping) in
  mapping' ← foldM (fun mp ip => ddelitem ip mp) mapping unwanted_ips;
  _ ← py_assert (forallb (fun ip => negb (dmem ip mapping')) unwanted_ips);
  Ok mapping'.

Definition prune_active_ips (active : list NodeIP) : ST LoadMetrics unit :=
  s ← st_get;
  let active_ips := local_ip s :: active in
  used ← st_lift (prune active_ips (last_used_time_by_ip s));
  static ← st_lift (prune active_ips (static_resources_by_ip s));
  raylets ← st_lift (prune active_ips (raylet_id_by_ip s));
  dynamic ← st_lift (prune active_ips (dynamic_resources_by_ip s));
  load ← st_lift (prune active_ips (resource_load_by_ip s));
  heartbeats ← st_lift (prune active_ips (last_heartbeat_time_by_ip s));
  st_put (mkLM used heartbeats static dynamic raylets load (local_ip s) (waiting_bundles s)
    (infeasible_bundles s) (pending_placement_groups s) (resource_requests s)
    (cluster_full_of_actors_detected s)).

Definition get_node_resources (s : LoadMetrics) : list ResourceDict := dvalues (static_resources_by_ip s).
Definition get_static_node_resources_by_ip (s : LoadMetrics) : dict NodeIP ResourceDict := static_resources_by_ip s.
Definition get_resource_utilization (s : LoadMetrics) : dict NodeIP ResourceDict := dynamic_resources_by_ip s.

(** *** [_get_resource_usage] *)

(** [num_nodes], [num_nonidle], [resources_used] and [resources_total] *)
Record usage : Type := mkUsage {
  num_nodes : Z;
  num_nonidle : Z;
  resources_used : ResourceDict;
  resources_total : ResourceDict
}.

(** The loop over a node's static resources, on [(used, total, max_frac)] *)
Definition usage_resource (avail : ResourceDict) (acc : ResourceDict * ResourceDict * Q) (ra : string * Q)
    : result (ResourceDict * ResourceDict * Q) :=
  let '(used_d, total_d, max_frac) := acc in
  let '(resource_id, amount) := ra in
  a ← dgetitem resource_id avail;
  let used := (amount - a)%Q in
  let known := dmem resource_id used_d in
  let used_d := if known then used_d else dset resource_id 0%Q used_d in
  let total_d := if known then total_d else dset resource_id 0%Q total_d in
  let used_d := dset resource_id (rget resource_id used_d + used)%Q used_d in
  let total_d := dset resource_id (rget resource_id total_d + amount)%Q total_d in
  let used := Qmax_py 0 used in
  let frac := (used / amount)%Q in
  Ok (used_d, total_d, if Qlt_bool 0 amount && Qlt_bool max_frac frac then frac else max_frac).

(** The loop over the nodes *)
Definition usage_node (s : LoadMetrics) (u : usage) (im : NodeIP * ResourceDict) : result usage :=
  let '(ip, max_resources) := im in
  let nodes := if existsb (fun ra => negb (Qeq_bool ra.2 0)) max_resources
               then (num_nodes u + 1)%Z else num_nodes u in
  avail ← dgetitem ip (dynamic_resources_by_ip s);
  load ← dgetitem ip (resource_load_by_ip s);
  let max_frac0 := if existsb (fun ra => Qlt_bool 0 ra.2) load then 1%Q else 0%Q in
  '(used_d, total_d, max_frac) ←
    foldM (usage_resource avail) (resources_used u, resources_total u, max_frac0) max_resources;
  Ok (mkUsage nodes (if Qlt_bool 0 max_frac then (num_nonidle u + 1)%Z else num_nonidle u) used_d total_d).

Definition _get_resource_usage (s : LoadMetrics) : result (ResourceDict * ResourceDict) :=
  u ← foldM (usage_node s) (mkUsage 0 0 [] []) (static_resources_by_ip s);
  Ok (resources_used u, resources_total u).

Definition AUTOSCALER_MAX_RESOURCE_DEMAND_VECTOR_SIZE : nat := 1000.

Definition get_resource_demand_vector (clip : bool) (s : LoadMetrics) : list ResourceDict :=
  if clip then
    slice_to AUTOSCALER_MAX_RESOURCE_DEMAND_VECTOR_SIZE (waiting_bundles s) ++
    slice_to AUTOSCALER_MAX_RESOURCE_DEMAND_VECTOR_SIZE (infeasible_bundles s)
  else waiting_bundles s ++ infeasible_bundles s.

Definition get_resource_requests (s : LoadMetrics) : list ResourceDict := resource_requests s.
Definition get_pending_placement_groups (s : LoadMetrics) : list PlacementGroup := pending_placement_groups s.

(** [reduce(add_resources, ds) if ds else {}] *)
Definition reduce_resources (ds : list ResourceDict) : ResourceDict :=
  match ds with [] => [] | d :: ds' => foldl add_resources d ds' end.

Definition resources_avail_summary (s : LoadMetrics) : string :=
  let total := reduce_resources (dvalues (static_resources_by_ip s)) in
  let out := pretty (int_of_Q (rget "CPU" total)) +:+ " CPUs" in
  match dget "GPU" total with
  | Some g => out +:+ ", " +:+ pretty (int_of_Q g) +:+ " GPUs"
  | None => out
  end.

(** *** [summary] *)

Definition strategy_eqb (a b : PlacementStrategy) : bool :=
  match a, b with
  | PACK, PACK | SPREAD, SPREAD | STRICT_PACK, STRICT_PACK | STRICT_SPREAD, STRICT_SPREAD
  | UNKNOWN_STRATEGY, UNKNOWN_STRATEGY => true
  | _, _ => false
  end.

(** Equality of [placement_group_serializer]'s tuples *)
Definition group_eqb (a b : PlacementGroup) : bool :=
  (length (pg_bundles a) =? length (pg_bundles b))%nat &&
  forallb (fun ab => resources_eqb ab.1 ab.2) (zip (pg_bundles a) (pg_bundles b)) &&
  strategy_eqb (pg_strategy a) (pg_strategy b).

Record group_summary : Type := mkGroupSummary {
  gs_bundles : list (ResourceDict * Z);
  gs_strategy : PlacementStrategy
}.

Definition placement_group_deserializer (pg : PlacementGroup) : group_summary :=
  mkGroupSummary (freq_of_resources (pg_bundles pg)) (pg_strategy pg).

Record LoadMetricsSummary : Type := mkLMS {
  head_ip : NodeIP;
  usage_dict : dict string (Q * Q);
  resource_demand : list (ResourceDict * Z);
  pg_demand : list (group_summary * Z);
  request_demand : list (ResourceDict * Z);
  node_types_summary : list (ResourceDict * Z)
}.

(** [(used, total)] of one resource *)
Definition usage_of (available : ResourceDict) (kt : string * Q) : result (string * (Q * Q)) :=
  let '(key, total) := kt in
  a ← dgetitem key available;
  if bool_decide (key ∈ ["memory"; "object_store_memory"])
  then let total := (total * MEMORY_RESOURCE_UNIT_BYTES)%Q in
       let available := (a * MEMORY_RESOURCE_UNIT_BYTES)%Q in
       Ok (key, (total - available, total)%Q)
  else Ok (key, (total - a, total)%Q).

Definition summary (s : LoadMetrics) : result LoadMetricsSummary :=
  let available_resources := reduce_resources (dvalues (dynamic_resources_by_ip s)) in
  let total_resources := reduce_resources (dvalues (static_resources_by_ip s)) in
  usage ← mapM_r (usage_of available_resources) total_resources;
  Ok (mkLMS (local_ip s) usage
        (freq_of_resources (get_resource_demand_vector false s))
        (freq_of_dicts group_eqb placement_group_deserializer (get_pending_placement_groups s))
        (freq_of_resources (get_resource_requests s))
        (freq_of_resources (dvalues (static_resources_by_ip s)))).

(** [None] cannot be iterated over, which raises [TypeError]. *)
Definition set_resource_requests (requested : option (list ResourceDict)) : ST LoadMetrics unit :=
  match requested with
  | None => st_raise TypeError
  | Some requests => st_modify (fun s => mkLM (last_used_time_by_ip s) (last_heartbeat_time_by_ip s)
      (static_resources_by_ip s) (dynamic_resources_by_ip s) (raylet_id_by_ip s) (resource_load_by_ip s)
      (local_ip s) (waiting_bundles s) (infeasible_bundles s) (pending_placement_groups s)
      (filter (fun r => r <> []) requests) (cluster_full_of_actors_detected s))
  end.

End LoadMetrics.

(** ** Lemmas *)

Section FreqLemmas.
Context {D : Type} (P : D -> Prop) (eqb : D -> D -> bool).
Hypothesis eqb_refl : forall x, P x -> eqb x x = true.
Hypothesis eqb_sym : forall x y, P x -> P y -> eqb x y = true -> eqb y x = true.
Hypothesis eqb_trans : forall x y z, P x -> P y -> P z -> eqb x y = true -> eqb y z = true -> eqb x z = true.

(** How often a value equal to [x] occurs *)
Definition occurrences (x : D) (xs : list D) : Z :=
  Z.of_nat (length (filter (fun y => eqb y x = true) xs)).

(** What [Counter] computes: entries from the input, pairwise different,
    each with its number of occurrences, and none is missing. *)
Record counts (xs : list D) (c : list (D * Z)) : Prop := mkCounts {
  c_from : forall x n, (x, n) ∈ c -> x ∈ xs /\ n = occurrences x xs;
  c_all : forall x, x ∈ xs -> exists y n, (y, n) ∈ c /\ eqb x y = true;
  c_distinct : forall i j x y, i <> j -> c.*1 !! i = Some x -> c.*1 !! j = Some y -> eqb x y = false;
  c_total : Zsum c.*2 = Z.of_nat (length xs)
}.

Lemma eqb_left x y z : P x -> P y -> P z -> eqb x y = true -> eqb x z = eqb y z.
Proof.
  intros Hx Hy Hz H. destruct (eqb y z) eqn:E; [by apply (eqb_trans x y z)|].
  destruct (eqb x z) eqn:E'; [|done]. rewrite <- E. symmetry. apply (eqb_trans y x z); eauto.
Qed.

Lemma eqb_false_sym x y : P x -> P y -> eqb x y = false -> eqb y x = false.
Proof.
  intros Hx Hy H. destruct (eqb y x) eqn:E; [|done]. apply eqb_sym in E; [congruence | done..].
Qed.

Lemma occurrences_app x xs ys : occurrences x (xs ++ ys) = (occurrences x xs + occurrences x ys)%Z.
Proof. unfold occurrences. rewrite filter_app, length_app. lia. Qed.

Lemma occurrences_one x y : occurrences x [y] = (if eqb y x then 1 else 0)%Z.
Proof. unfold occurrences. rewrite filter_cons. by destruct (eqb y x). Qed.

(** The entry an increment changes, if there is one *)
Lemma counter_incr_spec x c :
  (counter_incr eqb x c = c ++ [(x, 1%Z)] /\ Forall (fun yn => eqb x yn.1 = false) c) \/
  exists c1 y n c2, c = c1 ++ (y, n) :: c2 /\ eqb x y = true /\
    counter_incr eqb x c = c1 ++ (y, n + 1)%Z :: c2.
Proof.
  induction c as [|[y n] c IH]; cbn; [by left|]. destruct (eqb x y) eqn:E.
  - right. exists [], y, n, c. done.
  - destruct IH as [[-> HF]|(c1 & z & m & c2 & -> & Hz & ->)].
    + left. split; [done|]. by constructor.
    + right. by exists ((y, n) :: c1), z, m, c2.
Qed.

Lemma occurrences_none x xs :
  Forall P xs -> P x -> (forall y, y ∈ xs -> eqb y x = false) -> occurrences x xs = 0%Z.
Proof.
  intros HP Hx Hn. unfold occurrences. clear HP. induction xs as [|y xs IH]; [done|].
  rewrite filter_cons_False; [apply IH; intros z Hz; apply Hn; by right|]. rewrite Hn; [done | left].
Qed.

(** A value that is not counted yet *)
Lemma counts_fresh xs c x :
  Forall P xs -> P x -> counts xs c -> Forall (fun yn => eqb x yn.1 = false) c ->
  counts (xs ++ [x]) (c ++ [(x, 1%Z)]).
Proof.
  intros HP Hx [Hf Ha Hd Ht] HF.
  assert (HPin : forall y, y ∈ xs -> P y) by (by apply list.Forall_forall).
  assert (Hnew : forall y, y ∈ xs -> eqb x y = false).
  { intros y Hin. destruct (Ha y Hin) as (z & n & Hz & Hyz). destruct (Hf _ _ Hz) as [Hzin _].
    rewrite list.Forall_forall in HF. specialize (HF _ Hz). cbn in HF.
    destruct (eqb x y) eqn:E; [|done]. rewrite <- HF. symmetry. apply (eqb_trans x y z); eauto. }
  split.
  + intros z n Hin. apply elem_of_app in Hin as [Hin|Hin].
    * destruct (Hf z n Hin) as [Hz ->]. split; [apply elem_of_app; by left|].
      rewrite occurrences_app, occurrences_one, (Hnew z Hz). lia.
    * apply list_elem_of_singleton in Hin as [= -> ->]. split; [apply elem_of_app; right; by left|].
      rewrite occurrences_app, occurrences_one, eqb_refl, occurrences_none; try done.
      intros y Hy. apply eqb_false_sym; auto.
  + intros z Hin. apply elem_of_app in Hin as [Hin|Hin].
    * destruct (Ha z Hin) as (w & n & Hw & E). exists w, n. split; [apply elem_of_app; by left | done].
    * apply list_elem_of_singleton in Hin as ->. exists x, 1%Z. split; [|by apply eqb_refl].
      apply elem_of_app; right; by left.
  + intros i j a b Hij. rewrite fmap_app, !lookup_app. cbn [fmap list_fmap].
    assert (Hin : forall i a, c.*1 !! i = Some a -> a ∈ xs).
    { intros k d Hk. apply list_elem_of_lookup_2, list_elem_of_fmap in Hk as ([d' m] & -> & Hk). by apply Hf in Hk as [??]. }
    destruct (c.*1 !! i) as [a'|] eqn:Ei, (c.*1 !! j) as [b'|] eqn:Ej.
    * intros [= <-] [= <-]. by eapply Hd.
    * intros [= <-] Hb. apply list_lookup_singleton_Some in Hb as [_ <-].
      apply eqb_false_sym; eauto.
    * intros Hb [= <-]. apply list_lookup_singleton_Some in Hb as [_ <-]. apply Hnew. eauto.
    * intros Hb Hc. apply list_lookup_singleton_Some in Hb as [Hb _], Hc as [Hc _].
      apply lookup_ge_None in Ei, Ej. lia.
  + rewrite fmap_app, Zsum_app, Ht, length_app. cbn. lia.
Qed.

(** The entry that is incremented differs from the others. *)
Lemma counts_others xs c1 y n c2 x z m :
  Forall P xs -> P x -> counts xs (c1 ++ (y, n) :: c2) -> eqb x y = true ->
  (z, m) ∈ c1 \/ (z, m) ∈ c2 -> eqb x z = false.
Proof.
  intros HP Hx [Hf Ha Hd Ht] Hy Hin.
  assert (HPin : forall y, y ∈ xs -> P y) by (by apply list.Forall_forall).
  assert (Hyin : (y, n) ∈ c1 ++ (y, n) :: c2) by (apply elem_of_app; right; left).
  destruct (Hf y n Hyin) as [Hyx Hn].
  assert (Hz : (z, m) ∈ c1 ++ (y, n) :: c2).
  { rewrite elem_of_app, elem_of_cons. naive_solver. }
  destruct (Hf z m Hz) as [Hzx _]. rewrite (eqb_left x y z); eauto.
  destruct Hin as [Hin|Hin]; apply list_elem_of_lookup in Hin as [i Hi].
  - assert (i < length c1)%nat by (by eapply lookup_lt_Some).
    apply eqb_false_sym; eauto. apply (Hd i (length c1)); [lia | |]; rewrite list_lookup_fmap.
    + by rewrite lookup_app_l, Hi.
    + rewrite lookup_app_r, Nat.sub_diag; [done | lia].
  - apply (Hd (length c1) (length c1 + S i)%nat); [lia | |]; rewrite list_lookup_fmap.
    + rewrite lookup_app_r, Nat.sub_diag; [done | lia].
    + rewrite lookup_app_r by lia. replace (length c1 + S i - length c1)%nat with (S i) by lia.
      change (((y, n) :: c2) !! S i) with (c2 !! i). by rewrite Hi.
Qed.

(** A value that is counted already *)
Lemma counts_bump xs c1 y n c2 x :
  Forall P xs -> P x -> counts xs (c1 ++ (y, n) :: c2) -> eqb x y = true ->
  counts (xs ++ [x]) (c1 ++ (y, n + 1)%Z :: c2).
Proof.
  intros HP Hx Hcounts Hy. pose proof Hcounts as [Hf Ha Hd Ht].
  assert (HPin : forall y, y ∈ xs -> P y) by (by apply list.Forall_forall).
  assert (Hyin : (y, n) ∈ c1 ++ (y, n) :: c2) by (apply elem_of_app; right; left).
  destruct (Hf y n Hyin) as [Hyx Hn].
  assert (Hfst : (c1 ++ (y, (n + 1)%Z) :: c2).*1 = (c1 ++ (y, n) :: c2).*1) by (by rewrite !fmap_app).
  assert (Hothers : forall z m, (z, m) ∈ c1 \/ (z, m) ∈ c2 -> eqb x z = false).
  { intros z m. by apply (counts_others xs c1 y n c2 x z m). }
  split.
  + intros z m Hin. rewrite elem_of_app, elem_of_cons in Hin.
    rewrite occurrences_app, occurrences_one.
    assert (Hcase : (z, m) = (y, n + 1)%Z \/ (z, m) ∈ c1 \/ (z, m) ∈ c2) by naive_solver.
    destruct Hcase as [[= -> ->]|Ho].
    * rewrite Hy, Hn. split; [apply elem_of_app; by left | lia].
    * rewrite (Hothers z m Ho). assert (Hz : (z, m) ∈ c1 ++ (y, n) :: c2).
      { rewrite elem_of_app, elem_of_cons. naive_solver. }
      destruct (Hf z m Hz) as [? ->]. split; [apply elem_of_app; by left | lia].
  + assert (Hfind : forall z, z ∈ (c1 ++ (y, n) :: c2).*1 -> exists m, (z, m) ∈ c1 ++ (y, (n + 1)%Z) :: c2).
    { intros z Hz. rewrite <- Hfst in Hz. apply list_elem_of_fmap in Hz as ([z' m] & -> & Hz). eauto. }
    intros z Hin. apply elem_of_app in Hin as [Hin|Hin].
    * destruct (Ha z Hin) as (w & m & Hw & E). destruct (Hfind w) as [m' Hm'].
      { apply list_elem_of_fmap. by exists (w, m). }
      eauto.
    * apply list_elem_of_singleton in Hin as ->. destruct (Hfind y) as [m' Hm']; [|eauto].
      apply list_elem_of_fmap. by exists (y, n).
  + rewrite Hfst. exact Hd.
  + revert Ht. rewrite !fmap_app, !Zsum_app, length_app. cbn. lia.
Qed.

Lemma counts_step xs c x :
  Forall P xs -> P x -> counts xs c -> counts (xs ++ [x]) (counter_incr eqb x c).
Proof.
  intros HP Hx Hc. destruct (counter_incr_spec x c) as [[-> HF]|(c1 & y & n & c2 & -> & Hy & ->)].
  - by apply counts_fresh.
  - by apply counts_bump.
Qed.

Lemma Counter_counts xs : Forall P xs -> counts xs (Counter eqb xs).
Proof.
  unfold Counter. induction xs as [|x xs IH] using rev_ind; intros HP.
  - split; cbn; [by intros ?? ?%elem_of_nil | by intros ? ?%elem_of_nil | by intros [] | done].
  - rewrite foldl_app. rewrite list.Forall_app, list.Forall_singleton in HP. destruct HP as [HP Hx].
    cbn [foldl]. apply counts_step; [done..|]. by apply IH.
Qed.

End FreqLemmas.

(** [==] on dicts is an equivalence. *)
Section DictEquality.
Implicit Types (d : ResourceDict).

Lemma resources_eqb_get d1 d2 :
  dwf d1 -> dwf d2 -> resources_eqb d1 d2 = true ->
  forall k, match dget k d1, dget k d2 with
            | Some a, Some b => (a == b)%Q
            | None, None => True
            | _, _ => False
            end.
Proof.
  intros H1 H2 H k. unfold resources_eqb, deqb in H. apply andb_prop in H as [Hl Hf].
  apply Nat.eqb_eq in Hl. rewrite <- Is_true_true, forallb_True, list.Forall_forall in Hf.
  assert (Hsub : dkeys d1 ⊆ dkeys d2).
  { intros x Hx. apply dget_is_Some in Hx as [v Hv]. specialize (Hf _ (dget_elem _ _ _ Hv)). cbn in Hf.
    apply dget_is_Some. destruct (dget x d2); naive_solver. }
  assert (Hsup : dkeys d2 ⊆ dkeys d1).
  { apply NoDup_submseteq in Hsub; [|done].
    apply submseteq_length_Permutation in Hsub; [|unfold dkeys; rewrite !length_fmap; lia].
    intros x. by rewrite Hsub. }
  destruct (dget k d1) as [a|] eqn:E1.
  - specialize (Hf _ (dget_elem _ _ _ E1)). cbn in Hf. destruct (dget k d2); [|done].
    apply Qeq_bool_iff. by apply Is_true_true.
  - destruct (dget k d2) as [b|] eqn:E2; [|done]. apply dget_None in E1. apply E1, Hsup.
    apply dget_is_Some. by rewrite E2.
Qed.

Lemma get_resources_eqb d1 d2 :
  dwf d1 -> dwf d2 ->
  (forall k, match dget k d1, dget k d2 with
             | Some a, Some b => (a == b)%Q
             | None, None => True
             | _, _ => False
             end) -> resources_eqb d1 d2 = true.
Proof.
  intros H1 H2 H. unfold resources_eqb, deqb. apply andb_true_intro. split.
  - apply Nat.eqb_eq. assert (Hk : forall k, k ∈ dkeys d1 <-> k ∈ dkeys d2).
    { intros k. rewrite <- !dget_is_Some. specialize (H k). destruct (dget k d1), (dget k d2); naive_solver. }
    apply (NoDup_Permutation _ _ H1 H2) in Hk. apply Permutation_length in Hk.
    unfold dkeys in Hk. by rewrite !length_fmap in Hk.
  - apply Is_true_true, forallb_True, list.Forall_forall. intros [k v] Hin. cbn.
    apply elem_dget in Hin; [|done]. specialize (H k). rewrite Hin in H.
    destruct (dget k d2); [|done]. by apply Is_true_true, Qeq_bool_iff.
Qed.

Lemma resources_eqb_refl d : dwf d -> resources_eqb d d = true.
Proof. intros H. apply get_resources_eqb; [done..|]. intros k. by destruct (dget k d). Qed.

Lemma resources_eqb_sym d1 d2 :
  dwf d1 -> dwf d2 -> resources_eqb d1 d2 = true -> resources_eqb d2 d1 = true.
Proof.
  intros H1 H2 H. apply get_resources_eqb; [done..|]. intros k.
  pose proof (resources_eqb_get d1 d2 H1 H2 H k). destruct (dget k d1), (dget k d2); done.
Qed.

Lemma resources_eqb_trans d1 d2 d3 :
  dwf d1 -> dwf d2 -> dwf d3 -> resources_eqb d1 d2 = true -> resources_eqb d2 d3 = true ->
  resources_eqb d1 d3 = true.
Proof.
  intros H1 H2 H3 Ha Hb. apply get_resources_eqb; [done..|]. intros k.
  pose proof (resources_eqb_get d1 d2 H1 H2 Ha k). pose proof (resources_eqb_get d2 d3 H2 H3 Hb k).
  destruct (dget k d1), (dget k d2), (dget k d3); try done. by etrans.
Qed.

(** [freq_of_dicts] counts resource dicts: its entries come from the
    input and are pairwise different, each with its number of occurrences,
    every input dict has an entry, and the counts add up to the length. *)
Theorem freq_of_resources_counts (dicts : list ResourceDict) :
  Forall dwf dicts -> counts resources_eqb dicts (freq_of_resources dicts).
Proof.
  intros H. unfold freq_of_resources, freq_of_dicts.
  replace (map _ _) with (Counter resources_eqb dicts).
  - by apply (Counter_counts dwf resources_eqb resources_eqb_refl resources_eqb_sym resources_eqb_trans).
  - symmetry. etrans; [|apply map_id]. apply map_ext. by intros [].
Qed.

End DictEquality.

(** ** The invariant of [LoadMetrics] *)

Section Invariant.
Import LoadMetrics.
Implicit Types (s : LoadMetrics).

(** [prune] keeps the entries of the active ips and raises nothing. *)
Lemma prune_spec {V} active (mp : dict NodeIP V) :
  dwf mp -> exists mp', prune active mp = Ok mp' /\ dwf mp' /\
    forall ip, dget ip mp' = if decide (ip ∈ active) then dget ip mp else None.
Proof.
  intros Hw. unfold prune.
  set (un := filter (fun ip => ip ∉ active) (dkeys mp)).
  destruct (ddelitem_all un mp Hw) as (mp' & -> & Hw' & Hg).
  { unfold un. apply NoDup_filter. exact Hw. }
  { intros ip Hip. unfold un in Hip. by apply list_elem_of_filter in Hip as [_ ?]. }
  assert (Hun : forall ip, ip ∈ un <-> ip ∉ active /\ ip ∈ dkeys mp).
  { intros ip. unfold un. by rewrite list_elem_of_filter. }
  cbn [mbind result_bind]. exists mp'. split_and!; [|done|].
  - replace (forallb _ un) with true; [done|]. symmetry. apply Is_true_true, forallb_True, list.Forall_forall.
    intros ip Hip. apply Is_true_true, negb_true_iff, dmem_false, dget_None. rewrite Hg. by rewrite decide_True.
  - intros ip. rewrite Hg. destruct (decide (ip ∈ active)) as [Ha|Ha].
    + rewrite decide_False; [done|]. rewrite Hun. naive_solver.
    + case_decide as Hd; [done|]. apply dget_None. rewrite Hun in Hd. naive_solver.
Qed.

(** Every ip with static resources has dynamic resources and a load, and a
    node's dynamic resources list each of its static ones. *)
Record lm_inv s : Prop := mkInv {
  li_wf : dwf (last_used_time_by_ip s) /\ dwf (last_heartbeat_time_by_ip s) /\
          dwf (static_resources_by_ip s) /\ dwf (dynamic_resources_by_ip s) /\
          dwf (raylet_id_by_ip s) /\ dwf (resource_load_by_ip s);
  li_node : forall ip r, dget ip (static_resources_by_ip s) = Some r ->
    dwf r /\ is_Some (dget ip (resource_load_by_ip s)) /\
    exists d, dget ip (dynamic_resources_by_ip s) = Some d /\ names_within r d;
  li_dynamic : forall ip d, dget ip (dynamic_resources_by_ip s) = Some d -> dwf d
}.

(** The operations that change the metrics *)
Inductive lm_step : LoadMetrics -> LoadMetrics -> Prop :=
| step_update now ip raylet static dynamic load waiting infeasible pgs full s :
    dwf static -> dwf dynamic ->
    lm_step s (update now ip raylet static dynamic load waiting infeasible pgs full s)
| step_mark_active now ip s s' r : mark_active now ip s = (s', r) -> lm_step s s'
| step_prune active s s' r : prune_active_ips active s = (s', r) -> lm_step s s'
| step_requests requests s s' r : set_resource_requests requests s = (s', r) -> lm_step s s'.

Lemma fill_dynamic_spec static dynamic :
  dwf dynamic ->
  dwf (fill_dynamic static dynamic) /\ names_within static (fill_dynamic static dynamic) /\
  forall k, rget k (fill_dynamic static dynamic) = rget k dynamic.
Proof.
  intros Hw. unfold fill_dynamic, names_within.
  assert (Hgen : forall d, dwf d ->
    let d' := foldl (fun d rc => if dmem rc.1 d then d else dset rc.1 0%Q d) d static in
    dwf d' /\ (forall k, k ∈ dkeys static \/ k ∈ dkeys d -> k ∈ dkeys d') /\ forall k, rget k d' = rget k d).
  2: { destruct (Hgen dynamic Hw) as (? & ? & ?). naive_solver. }
  induction static as [|[k v] static IH]; intros d Hd; cbn [foldl fst].
  - split_and!; [done| |done]. intros k [Hk|Hk]; [by apply elem_of_nil in Hk | done].
  - destruct (dmem k d) eqn:E.
    + apply dmem_true in E. destruct (IH d Hd) as (A & B & C). split_and!; [done| |done].
      intros j. rewrite dkeys_cons, elem_of_cons. intros [[->|Hj]|Hj]; apply B; auto.
    + destruct (IH (dset k 0%Q d) (dwf_dset _ _ _ Hd)) as (A & B & C). split_and!; [done| |].
      * intros j. rewrite dkeys_cons, elem_of_cons. intros Hj. apply B. rewrite elem_dkeys_dset. naive_solver.
      * intros j. rewrite C, rget_dset. case_decide; [|done]. subst.
        apply dmem_false in E. by rewrite rget_not_key.
Qed.

Lemma prune_active_ips_ok active s :
  lm_inv s -> exists s', prune_active_ips active s = (s', Ok tt) /\ lm_inv s' /\
    local_ip s' = local_ip s /\ resource_requests s' = resource_requests s /\
    forall ip, let keep {V} (d : dict NodeIP V) := if decide (ip ∈ local_ip s :: active) then dget ip d else None in
      dget ip (last_used_time_by_ip s') = keep (last_used_time_by_ip s) /\
      dget ip (last_heartbeat_time_by_ip s') = keep (last_heartbeat_time_by_ip s) /\
      dget ip (static_resources_by_ip s') = keep (static_resources_by_ip s) /\
      dget ip (dynamic_resources_by_ip s') = keep (dynamic_resources_by_ip s) /\
      dget ip (raylet_id_by_ip s') = keep (raylet_id_by_ip s) /\
      dget ip (resource_load_by_ip s') = keep (resource_load_by_ip s).
Proof.
  intros [(W1 & W2 & W3 & W4 & W5 & W6) Hn Hd]. unfold prune_active_ips. st_simpl.
  destruct (prune_spec (local_ip s :: active) _ W1) as (m1 & -> & V1 & G1).
  destruct (prune_spec (local_ip s :: active) _ W2) as (m2 & -> & V2 & G2).
  destruct (prune_spec (local_ip s :: active) _ W3) as (m3 & -> & V3 & G3).
  destruct (prune_spec (local_ip s :: active) _ W4) as (m4 & -> & V4 & G4).
  destruct (prune_spec (local_ip s :: active) _ W5) as (m5 & -> & V5 & G5).
  destruct (prune_spec (local_ip s :: active) _ W6) as (m6 & -> & V6 & G6).
  eexists. split; [reflexivity|]. split; [split|]; cbn; [done| | |split_and!; [done..|]].
  - intros ip r. rewrite G3, G4, G6. case_decide; [apply Hn | done].
  - intros ip d. rewrite G4. case_decide; [apply Hd | done].
  - intros ip. split_and!; auto.
Qed.

Lemma lm_step_inv s s' : lm_step s s' -> lm_inv s -> lm_inv s'.
Proof.
  intros Hs Hi. destruct Hs as [now ip raylet static dynamic load w i pgs full s Hst Hdy
    | now ip s s' r H | active s s' r H | requests s s' r H].
  - destruct Hi as [(W1 & W2 & W3 & W4 & W5 & W6) Hn Hd].
    destruct (fill_dynamic_spec static dynamic Hdy) as (Hfw & Hfn & _). split; cbn.
    + split_and!; try by apply dwf_dset. destruct (_ || _); [by apply dwf_dset | done].
    + intros ip' r. rewrite !dget_dset. case_decide; [|apply Hn]. intros [= <-]. naive_solver.
    + intros ip' d. rewrite dget_dset. case_decide; [naive_solver | apply Hd].
  - destruct ip as [ip|]; unfold mark_active in H; st_simpl in H; injection H as <- <-; [|done].
    destruct Hi as [(W1 & W2 & W3 & W4 & W5 & W6) Hn Hd].
    split; cbn; [|done..]. split_and!; try done. by apply dwf_dset.
  - destruct (prune_active_ips_ok active s Hi) as (t & E & Ht & _). rewrite E in H. by injection H as <- <-.
  - destruct requests; unfold set_resource_requests in H; st_simpl in H; injection H as <- <-; [|done].
    by destruct Hi as [??].
Qed.

Lemma lm_reachable_inv ip s : rtc lm_step (__init__ ip) s -> lm_inv s.
Proof.
  intros H. assert (H0 : lm_inv (__init__ ip)).
  { split; cbn; [split_and!; apply dwf_nil | done | done]. }
  induction H as [|x y z Hxy _ IH]; [done|]. apply IH. by eapply lm_step_inv.
Qed.

(** [prune_active_ips] never fails its assertion: afterwards every map of
    the metrics holds exactly its former entries for the ips given and the
    local one. *)
Theorem prune_active_ips_keeps_active ip0 s active :
  rtc lm_step (__init__ ip0) s ->
  exists s', prune_active_ips active s = (s', Ok tt) /\
    forall ip, let keep {V} (d : dict NodeIP V) := if decide (ip ∈ local_ip s :: active) then dget ip d else None in
      dget ip (last_used_time_by_ip s') = keep (last_used_time_by_ip s) /\
      dget ip (last_heartbeat_time_by_ip s') = keep (last_heartbeat_time_by_ip s) /\
      dget ip (static_resources_by_ip s') = keep (static_resources_by_ip s) /\
      dget ip (dynamic_resources_by_ip s') = keep (dynamic_resources_by_ip s) /\
      dget ip (raylet_id_by_ip s') = keep (raylet_id_by_ip s) /\
      dget ip (resource_load_by_ip s') = keep (resource_load_by_ip s).
Proof.
  intros H%lm_reachable_inv. destruct (prune_active_ips_ok active s H) as (s' & E & _ & _ & _ & Hg).
  by exists s'.
Qed.

(** *** Sums of resources *)

Lemma reduce_resources_spec ds :
  Forall dwf ds ->
  dwf (reduce_resources ds) /\
  (forall k, (rget k (reduce_resources ds) == Qsum (map (rget k) ds))%Q) /\
  forall k, k ∈ dkeys (reduce_resources ds) <-> exists d, d ∈ ds /\ k ∈ dkeys d.
Proof.
  intros HF. destruct ds as [|d ds].
  { cbn. split_and!; [apply dwf_nil | done|]. intros k. rewrite dkeys_nil, elem_of_nil.
    split; [done|]. by intros (d & Hd%elem_of_nil & _). }
  inversion HF as [|? ? Hd HF']; subst. cbn [reduce_resources]. clear HF.
  revert d Hd. induction HF' as [|e ds He _ IH]; intros d Hd; cbn [foldl].
  - split_and!; [done| |].
    + intros k. unfold Qsum. cbn. lra.
    + intros k. split; [|by intros (e & ->%list_elem_of_singleton & He)]. intros Hk. exists d. split; [left | done].
  - destruct (IH (add_resources d e)) as (A & B & C); [by apply add_resources_wf|].
    split_and!; [done| |].
    + intros k. rewrite B. unfold Qsum. cbn [map foldr]. rewrite add_resources_get by done. lra.
    + intros k. rewrite C. setoid_rewrite elem_of_cons. setoid_rewrite elem_of_cons.
      split; intros (x & Hx & Hk).
      * destruct Hx as [->|Hx]; [|exists x; auto]. apply add_resources_keys in Hk as [Hk|Hk]; eauto.
      * destruct Hx as [->|[->|Hx]]; [| |exists x; auto];
          (exists (add_resources d e); split; [by left|]; apply add_resources_keys; auto).
Qed.

(** The amount of [k] in use on the node with this ip, as
    [_get_resource_usage] counts it *)
Definition node_used s (k : string) (ir : NodeIP * ResourceDict) : Q :=
  if dmem k ir.2 then (rget k ir.2 - rget k (dget_or ir.1 [] (dynamic_resources_by_ip s)))%Q else 0%Q.

Lemma usage_resources_spec avail used total f r :
  dwf r -> names_within r avail -> dkeys used = dkeys total -> dwf used -> dwf total ->
  exists used' total' f', foldM (usage_resource avail) (used, total, f) r = Ok (used', total', f') /\
    dkeys used' = dkeys total' /\ dwf used' /\ dwf total' /\
    (forall k, (rget k total' == rget k total + rget k r)%Q) /\
    (forall k, (rget k used' == rget k used + if dmem k r then rget k r - rget k avail else 0)%Q).
Proof.
  revert used total f. induction r as [|[k a] r IH]; intros used total f Hw Hn Hk Hu Ht.
  { exists used, total, f. cbn. split_and!; [done..| |]; intros k; rewrite ?(rget_not_key k []) by apply not_elem_of_nil; lra. }
  cbn [foldM]. apply dwf_cons in Hw as [Hk' Hw].
  assert (Hka : k ∈ dkeys avail) by (apply Hn; rewrite dkeys_cons; left).
  apply dget_is_Some in Hka as [v Hv]. unfold usage_resource at 2. unfold dgetitem. rewrite Hv. cbn [or_raise mbind result_bind].
  set (used1 := if dmem k used then used else dset k 0%Q used).
  set (total1 := if dmem k used then total else dset k 0%Q total).
  assert (H1 : dkeys used1 = dkeys total1 /\ dwf used1 /\ dwf total1 /\ k ∈ dkeys used1 /\
    (forall j, rget j used1 = rget j used) /\ (forall j, rget j total1 = rget j total)).
  { unfold used1, total1. destruct (dmem k used) eqn:E; [apply dmem_true in E; done|]. apply dmem_false in E.
    split_and!; try (by apply dwf_dset).
    - rewrite !dkeys_dset, Hk. done.
    - rewrite elem_dkeys_dset. auto.
    - intros j. rewrite rget_dset. case_decide; [|done]. subst. by rewrite rget_not_key.
    - intros j. rewrite rget_dset. case_decide; [|done]. subst. rewrite rget_not_key; [done|]. by rewrite <- Hk. }
  destruct H1 as (Hk1 & Hu1 & Ht1 & Hin1 & Gu & Gt). clearbody used1 total1.
  edestruct (IH (dset k (rget k used1 + (a - v))%Q used1) (dset k (rget k total1 + a)%Q total1))
    as (u' & t' & f' & -> & A & B & C & D & E).
  { done. }
  { intros j Hj. apply Hn. rewrite dkeys_cons. by right. }
  { rewrite !dkeys_dset, <- Hk1. by rewrite !decide_True. }
  { by apply dwf_dset. }
  { by apply dwf_dset. }
  exists u', t', f'. split_and!; [done..| |]; intros j.
  - rewrite D, rget_dset, rget_cons, !Gt. destruct (decide (k = j)) as [<-|Hne].
    + rewrite decide_True by done. rewrite (rget_not_key k r) by done. lra.
    + rewrite decide_False by naive_solver. lra.
  - rewrite E, rget_dset, rget_cons, !Gu. unfold dmem. cbn [dget]. destruct (decide (k = j)) as [<-|Hne].
    + rewrite !decide_True by done. rewrite (proj2 (dget_None k r)) by done.
      assert (Hrv : rget k avail = v) by (unfold rget, dget_or; by rewrite Hv).
      rewrite Hrv. cbv iota. lra.
    + rewrite !decide_False by naive_solver. lra.
Qed.

(** [_get_resource_usage] on a state that satisfies the invariant *)
Lemma usage_spec s :
  lm_inv s ->
  exists used total, _get_resource_usage s = Ok (used, total) /\
    (forall k, (rget k total == Qsum (map (fun ir => rget k ir.2) (static_resources_by_ip s)))%Q) /\
    (forall k, (rget k used == Qsum (map (node_used s k) (static_resources_by_ip s)))%Q).
Proof.
  intros [(_ & _ & W3 & _) Hn _]. unfold _get_resource_usage.
  assert (Hgen : forall l u, (forall ir, ir ∈ l -> ir ∈ static_resources_by_ip s) ->
    dkeys (resources_used u) = dkeys (resources_total u) -> dwf (resources_used u) -> dwf (resources_total u) ->
    exists u', foldM (usage_node s) u l = Ok u' /\
      (forall k, (rget k (resources_total u') == rget k (resources_total u) + Qsum (map (fun ir => rget k ir.2) l))%Q) /\
      (forall k, (rget k (resources_used u') == rget k (resources_used u) + Qsum (map (node_used s k) l))%Q)).
  2: { destruct (Hgen (static_resources_by_ip s) (mkUsage 0 0 [] [])) as (u & -> & Ht & Hu);
         [done | done | apply dwf_nil.. |].
       exists (resources_used u), (resources_total u). split; [done|].
       split; intros k; [rewrite Ht | rewrite Hu]; cbn; rewrite (rget_not_key k []) by apply not_elem_of_nil; lra. }
  induction l as [|[ip r] l IH]; intros u Hin Hk Hu Ht.
  { exists u. cbn. split_and!; [done|..]; intros k; unfold Qsum; cbn; lra. }
  assert (Hr : dget ip (static_resources_by_ip s) = Some r) by (apply elem_dget; [done | apply Hin; left]).
  destruct (Hn ip r Hr) as (Hwr & [ld Hld] & d & Hd & Hnames).
  cbn [foldM]. unfold usage_node at 2, dgetitem. rewrite Hd, Hld. cbn [or_raise mbind result_bind].
  destruct (usage_resources_spec d (resources_used u) (resources_total u)
    (if existsb (fun ra => Qlt_bool 0 ra.2) ld then 1%Q else 0%Q) r Hwr Hnames Hk Hu Ht)
    as (u' & t' & f' & -> & A & B & C & D & E). cbn [mbind result_bind].
  edestruct IH as (u2 & -> & D2 & E2); [| | | |exists u2; split_and!; [done| |]]; try done.
  { intros ir Hir. apply Hin. by right. }
  - intros k. rewrite D2. cbn [resources_total]. rewrite D. unfold Qsum. cbn [map foldr snd]. lra.
  - intros k. rewrite E2. cbn [resources_used]. rewrite E. unfold Qsum. cbn [map foldr].
    unfold node_used at 2. cbn [fst snd]. unfold dget_or. rewrite Hd. cbn [default id]. unfold id. lra.
Qed.

Lemma mapM_r_dget {A} (f : string * Q -> result (string * A)) (g : string -> Q -> A -> Prop) l l' :
  (forall kv y, f kv = Ok y -> y.1 = kv.1 /\ g kv.1 kv.2 y.2) -> mapM_r f l = Ok l' ->
  forall k a, dget k l' = Some a -> exists v, dget k l = Some v /\ g k v a.
Proof.
  intros Hf. revert l'. induction l as [|[k v] l IH]; intros l' H; cbn in H; simpl_result.
  - intros k a. done.
  - destruct a as [k' a']. destruct (Hf _ _ E) as [Hk Hg]. cbn in Hk, Hg. subst k'.
    intros j b. cbn. case_decide; [intros [= <-]; subst; eauto|]. by apply IH.
Qed.

(** In every state the operations of [LoadMetrics] can reach, [summary]
    and [_get_resource_usage] raise nothing: every node that reports
    resources also has its available resources and its load. The totals are
    the sums over the nodes, and the usage of a resource is the difference to
    what is available. *)
Theorem load_metrics_reports ip0 s :
  rtc lm_step (__init__ ip0) s ->
  exists sm used total, summary s = Ok sm /\ _get_resource_usage s = Ok (used, total) /\
    (forall k, (rget k total == Qsum (map (fun ir => rget k ir.2) (static_resources_by_ip s)))%Q) /\
    (forall k, (rget k used == Qsum (map (node_used s k) (static_resources_by_ip s)))%Q) /\
    forall k u t, dget k (usage_dict sm) = Some (u, t) ->
      (t == Qsum (map (rget k) (dvalues (static_resources_by_ip s))) /\
       u == t - Qsum (map (rget k) (dvalues (dynamic_resources_by_ip s))))%Q.
Proof.
  intros H%lm_reachable_inv. destruct (usage_spec s H) as (used & total & Eu & Ht & Hu).
  destruct H as [(_ & _ & W3 & W4 & _) Hn Hd].
  destruct (reduce_resources_spec (dvalues (static_resources_by_ip s))) as (Ts & Tg & Tk).
  { apply list.Forall_forall. intros r Hr. apply list_elem_of_fmap in Hr as ([ip r'] & -> & Hr).
    apply elem_dget in Hr; [|done]. by destruct (Hn _ _ Hr). }
  destruct (reduce_resources_spec (dvalues (dynamic_resources_by_ip s))) as (As & Ag & Ak).
  { apply list.Forall_forall. intros r Hr. apply list_elem_of_fmap in Hr as ([ip r'] & -> & Hr).
    apply elem_dget in Hr; [|done]. exact (Hd _ _ Hr). }
  unfold summary.
  set (avail := reduce_resources (dvalues (dynamic_resources_by_ip s))) in *.
  set (tot := reduce_resources (dvalues (static_resources_by_ip s))) in *.
  destruct (mapM_r_ok (usage_of avail) tot) as [ud Eud].
  { intros [k t] Hin. unfold usage_of.
    assert (Hk : k ∈ dkeys avail).
    { assert (Hkt : k ∈ dkeys tot) by (apply list_elem_of_fmap; by exists (k, t)).
      apply Tk in Hkt as (r & Hr & Hkr). apply list_elem_of_fmap in Hr as ([ip r'] & -> & Hr).
      apply elem_dget in Hr; [|done]. destruct (Hn _ _ Hr) as (_ & _ & d & Hdd & Hnames).
      apply Ak. exists d. split; [|by apply Hnames]. apply list_elem_of_fmap. exists (ip, d).
      split; [done | by apply dget_elem]. }
    apply dget_is_Some in Hk as [a Ha]. unfold dgetitem. rewrite Ha. cbn. case_bool_decide; by eexists. }
  rewrite Eud. cbn [mbind result_bind]. eexists _, used, total. split_and!; [done..|].
  cbn [usage_dict]. intros k u t Hk.
  destruct (mapM_r_dget (usage_of avail) (fun k v ut => ut.2 == v /\ ut.1 == v - rget k avail)%Q tot ud)
    with (k := k) (a := (u, t)) as (v & Hv & Hvt & Hvu); [|done..|].
  { intros [j v] y Hy. unfold usage_of in Hy. unfold dgetitem in Hy. unfold rget, dget_or.
    cbn [fst snd]. destruct (dget j avail) as [a|]; cbn in Hy; [|done]. unfold MEMORY_RESOURCE_UNIT_BYTES in Hy.
    case_bool_decide; injection Hy as <-; cbn; split_and!; try done; lra. }
  assert (Hrt : rget k tot = v) by (unfold rget, dget_or; by rewrite Hv).
  cbn [fst snd] in *. rewrite <- Tg, <- Ag, Hrt, Hvu, Hvt. split; reflexivity.
Qed.

(** A state with two nodes, one of them busy *)
Definition ex_metrics : LoadMetrics :=
  (update 2 "b" "r2" [("CPU", 8); ("GPU", 1)] [("CPU", 3)] [("CPU", 2)] None None None false
    (update 1 "a" "r1" [("CPU", 4)] [("CPU", 4)] [] None None None false (__init__ "a")))%Q.

Lemma ex_metrics_reachable : rtc lm_step (__init__ "a") ex_metrics.
Proof.
  unfold ex_metrics. do 2 (eapply rtc_r; [|apply step_update; by_compute]). apply rtc_refl.
Qed.

Lemma prune_active_ips_keeps_active_witness :
  exists s', prune_active_ips ["c"] ex_metrics = (s', Ok tt) /\
    dget "b" (static_resources_by_ip s') = None /\
    dget "a" (static_resources_by_ip s') = Some [("CPU", 4)]%Q.
Proof.
  destruct (prune_active_ips_keeps_active "a" ex_metrics ["c"] ex_metrics_reachable) as (s' & E & Hg).
  exists s'. split; [done|].
  split; [destruct (Hg "b") as (_ & _ & -> & _) | destruct (Hg "a") as (_ & _ & -> & _)]; reflexivity.
Defined.

Lemma load_metrics_reports_witness :
  exists sm used total, summary ex_metrics = Ok sm /\ _get_resource_usage ex_metrics = Ok (used, total) /\
    (rget "CPU" total == 12)%Q /\ (rget "CPU" used == 5)%Q.
Proof.
  destruct (load_metrics_reports "a" ex_metrics ex_metrics_reachable)
    as (sm & used & total & E1 & E2 & Ht & Hu & _).
  exists sm, used, total. split_and!; [done..| |]; [rewrite Ht | rewrite Hu]; reflexivity.
Defined.

Lemma freq_of_resources_counts_witness :
  counts resources_eqb [[("CPU", 1)]; [("GPU", 1)]; [("CPU", 1)]]%Q [([("CPU", 1)], 2%Z); ([("GPU", 1)], 1%Z)]%Q.
Proof. apply (freq_of_resources_counts [[("CPU", 1)]; [("GPU", 1)]; [("CPU", 1)]]%Q). by_compute. Defined.

End Invariant.
