(* ===== verification/NodeTracker.v ===== *)
(** [NodeTracker] ([autoscaler/_private/node_tracker.py]): the bounded table
    of nodes the autoscaler has started to set up, from which it reports the
    failed ones. *)

From Stdlib Require Import ZArith QArith Lqa Lia.
From stdpp Require Import base list strings option pretty relations.
From S2P Require Import Prelude PyDict Resources NodeTypes NodeProvider.

Definition AUTOSCALER_MAX_NODES_TRACKED : nat := 1500.

Module NodeTracker.

(** A node's ip and type *)
Abbreviation node_info := (NodeIP * string)%type.

Record NodeTracker : Type := mkTracker {
  node_mapping : dict NodeID node_info;
  lru_order : list NodeID
}.

Definition __init__ : NodeTracker := mkTracker [] [].

Definition _add_node_mapping (node_id : NodeID) (value : node_info) : ST NodeTracker unit :=
  s ← st_get;
  if dmem node_id (node_mapping s) then mret tt
  else
    _ ← st_lift (py_assert (length (lru_order s) =? length (node_mapping s))%nat);
    node_id ← (if (AUTOSCALER_MAX_NODES_TRACKED <=? length (lru_order s))%nat then
                 (* the LRU eviction case: [node_id] is rebound to the evicted node *)
                 match lru_order s with
                 | [] => st_raise IndexError
                 | evicted :: rest =>
                     _ ← st_put (mkTracker (node_mapping s) rest);
                     mapping ← st_lift (ddelitem evicted (node_mapping s));
                     _ ← st_put (mkTracker mapping rest);
                     mret evicted
                 end
               else mret node_id);
    st_modify (fun s => mkTracker (dset node_id value (node_mapping s)) (lru_order s ++ [node_id])).

Definition track (node_id : NodeID) (ip : NodeIP) (node_type : string) : ST NodeTracker unit :=
  s ← st_get;
  if dmem node_id (node_mapping s) then mret tt
  else _add_node_mapping node_id (ip, node_type).

(** [l.remove(x)]: the first occurrence, [ValueError] when there is none *)
Fixpoint py_remove (x : NodeID) (l : list NodeID) : result (list NodeID) :=
  match l with
  | [] => Err ValueError
  | y :: l' => if decide (x = y) then Ok l' else r ← py_remove x l'; Ok (y :: r)
  end.

Definition untrack (node_id : NodeID) : ST NodeTracker unit :=
  s ← st_get;
  if dmem node_id (node_mapping s) then
    order ← st_lift (py_remove node_id (lru_order s));
    _ ← st_put (mkTracker (node_mapping s) order);
    mapping ← st_lift (ddelitem node_id (node_mapping s));
    st_put (mkTracker mapping order)
  else mret tt.

Definition get_all_failed_node_info (s : NodeTracker) (non_failed_ids : list NodeID)
    : result (list node_info) :=
  let failed_nodes := filter (fun n => n ∉ non_failed_ids) (dkeys (node_mapping s)) in
  mapM_r (fun n => dgetitem n (node_mapping s)) (filter (fun n => n ∈ failed_nodes) (lru_order s)).

End NodeTracker.

(** ** The invariant *)

Section Invariant.
Import NodeTracker.
Implicit Types (s : NodeTracker).

(** The order lists the tracked nodes, each once, and at most
    [AUTOSCALER_MAX_NODES_TRACKED] of them. *)
Record tracker_inv s : Prop := mkTInv {
  ti_wf : dwf (node_mapping s);
  ti_order : lru_order s ≡ₚ dkeys (node_mapping s);
  ti_bound : (length (lru_order s) <= AUTOSCALER_MAX_NODES_TRACKED)%nat
}.

Lemma order_length s : tracker_inv s -> length (lru_order s) = length (node_mapping s).
Proof. intros [_ Hp _]. apply Permutation_length in Hp. unfold dkeys in Hp. by rewrite length_fmap in Hp. Qed.

Lemma dkeys_ddel_perm {V} k (d : dict NodeID V) : k ∈ dkeys d -> dkeys d ≡ₚ k :: dkeys (ddel k d).
Proof.
  induction d as [|[k' v] d IH]; cbn; [by intros ?%elem_of_nil|]. rewrite dkeys_cons.
  intros Hk. case_decide; [by subst|]. apply elem_of_cons in Hk as [->|Hk]; [done|].
  rewrite dkeys_cons, (IH Hk) at 1. apply Permutation_swap.
Qed.

Lemma py_remove_perm x l : x ∈ l -> exists l', py_remove x l = Ok l' /\ l ≡ₚ x :: l'.
Proof.
  induction l as [|y l IH]; cbn; [by intros ?%elem_of_nil|]. intros Hx. case_decide as Hy; [subst; eauto|].
  apply elem_of_cons in Hx as [?|Hx]; [done|]. destruct (IH Hx) as (l' & -> & Hp).
  exists (y :: l'). split; [done|]. rewrite Hp at 1. apply Permutation_swap.
Qed.

Lemma dset_new_keys {V} k (v : V) (d : dict NodeID V) : k ∉ dkeys d -> dkeys (dset k v d) = dkeys d ++ [k].
Proof. intros H. rewrite dkeys_dset. by rewrite decide_False. Qed.

(** What [_add_node_mapping] does to a new node: below the limit it is added
    at the end; at the limit the oldest node's entry takes its value. *)
Lemma add_new_node s node_id value :
  tracker_inv s -> node_id ∉ dkeys (node_mapping s) ->
  (length (lru_order s) < AUTOSCALER_MAX_NODES_TRACKED)%nat ->
  _add_node_mapping node_id value s =
    (mkTracker (dset node_id value (node_mapping s)) (lru_order s ++ [node_id]), Ok tt).
Proof.
  intros Hi Hn Hl. unfold _add_node_mapping. st_simpl. rewrite (proj2 (dmem_false _ _) Hn).
  rewrite (order_length s Hi), Nat.eqb_refl. cbn [py_assert].
  rewrite <- (order_length s Hi). by rewrite (proj2 (Nat.leb_gt _ _) Hl).
Qed.

Lemma add_at_limit s node_id value evicted rest :
  tracker_inv s -> node_id ∉ dkeys (node_mapping s) -> lru_order s = evicted :: rest ->
  (AUTOSCALER_MAX_NODES_TRACKED <= length (lru_order s))%nat ->
  _add_node_mapping node_id value s =
    (mkTracker (dset evicted value (ddel evicted (node_mapping s))) (rest ++ [evicted]), Ok tt).
Proof.
  intros Hi Hn Ho Hl. unfold _add_node_mapping. st_simpl. rewrite (proj2 (dmem_false _ _) Hn).
  rewrite (order_length s Hi), Nat.eqb_refl. cbn [py_assert].
  rewrite <- (order_length s Hi), (proj2 (Nat.leb_le _ _) Hl), Ho. unfold ddelitem.
  rewrite (proj2 (dmem_true evicted (node_mapping s))); [done|].
  destruct Hi as [_ Hp _]. rewrite <- Hp, Ho. left.
Qed.

Lemma track_inv s node_id ip t s' r :
  tracker_inv s -> track node_id ip t s = (s', r) -> tracker_inv s' /\ r = Ok tt.
Proof.
  intros Hi. unfold track. st_simpl. destruct (dmem node_id (node_mapping s)) eqn:Hm; [by intros [= <- <-]|].
  apply dmem_false in Hm. pose proof Hi as [Hw Hp Hb].
  destruct (decide (length (lru_order s) < AUTOSCALER_MAX_NODES_TRACKED)%nat) as [Hl|Hl].
  - rewrite (add_new_node s node_id _ Hi Hm Hl). intros [= <- <-]. split; [|done]. split; cbn.
    + by apply dwf_dset.
    + by rewrite dset_new_keys, Hp.
    + rewrite length_app. cbn. lia.
  - destruct (lru_order s) as [|evicted rest] eqn:Ho; [cbn in Hl; unfold AUTOSCALER_MAX_NODES_TRACKED in Hl; lia|].
    rewrite (add_at_limit s node_id (ip, t) evicted rest Hi Hm Ho) by (rewrite Ho; lia).
    intros [= <- <-]. split; [|done].
    assert (Hin : evicted ∈ dkeys (node_mapping s)) by (rewrite <- Hp; left). split; cbn.
    + by apply dwf_dset, dwf_ddel.
    + rewrite dset_new_keys. 2: { rewrite elem_dkeys_ddel by done. naive_solver. }
      rewrite (dkeys_ddel_perm evicted _ Hin) in Hp. apply Permutation.Permutation_cons_inv in Hp. by rewrite Hp.
    + rewrite length_app. cbn in *. lia.
Qed.

Lemma untrack_inv s node_id s' r :
  tracker_inv s -> untrack node_id s = (s', r) ->
  tracker_inv s' /\ r = Ok tt /\ node_id ∉ dkeys (node_mapping s').
Proof.
  intros [Hw Hp Hb]. unfold untrack. st_simpl. destruct (dmem node_id (node_mapping s)) eqn:Hm.
  2: { intros [= <- <-]. by apply dmem_false in Hm. }
  apply dmem_true in Hm. destruct (py_remove_perm node_id (lru_order s)) as (l & -> & Hl); [by rewrite Hp|].
  unfold ddelitem. rewrite (proj2 (dmem_true _ _) Hm). intros [= <- <-].
  split; [split; cbn|split; [done|]]; cbn.
  - by apply dwf_ddel.
  - rewrite Hl, (dkeys_ddel_perm node_id _ Hm) in Hp. by apply Permutation.Permutation_cons_inv in Hp.
  - rewrite Hl in Hb. cbn in Hb. lia.
  - rewrite elem_dkeys_ddel by done. naive_solver.
Qed.

(** The operations that change a tracker *)
Inductive tracker_step : NodeTracker -> NodeTracker -> Prop :=
| step_track node_id ip t s s' r : track node_id ip t s = (s', r) -> tracker_step s s'
| step_untrack node_id s s' r : untrack node_id s = (s', r) -> tracker_step s s'.

Lemma tracker_reachable_inv s : rtc tracker_step __init__ s -> tracker_inv s.
Proof.
  intros H. assert (H0 : tracker_inv __init__).
  { split; cbn; [apply dwf_nil | done | lia]. }
  induction H as [|x y z Hxy _ IH]; [done|]. apply IH. destruct Hxy as [n ip t s s' r E|n s s' r E].
  - by destruct (track_inv _ _ _ _ _ _ H0 E).
  - by destruct (untrack_inv _ _ _ _ H0 E).
Qed.

Lemma filter_same (P Q : NodeID -> Prop) `{!forall x, Decision (P x)} `{!forall x, Decision (Q x)}
    (l : list NodeID) :
  (forall x, x ∈ l -> P x <-> Q x) -> filter P l = filter Q l.
Proof.
  induction l as [|x l IH]; intros Hpq; [done|]. rewrite !filter_cons.
  assert (Hx : P x <-> Q x) by (apply Hpq; left).
  rewrite IH by (intros y Hy; apply Hpq; by right). repeat case_decide; naive_solver.
Qed.

(** In every reachable tracker the order lists the tracked nodes once
    each, at most 1500; [track] and [untrack] raise nothing (no assertion,
    [list.remove] or deletion fails), and [get_all_failed_node_info] returns
    the information of exactly the tracked nodes that are not in the given
    set, in the tracker's order. *)
Theorem node_tracker_reports_failed s non_failed :
  rtc tracker_step __init__ s ->
  NoDup (lru_order s) /\ (length (lru_order s) <= 1500)%nat /\
  (forall n, n ∈ lru_order s <-> n ∈ dkeys (node_mapping s)) /\
  (forall n ip t, (track n ip t s).2 = Ok tt /\ (untrack n s).2 = Ok tt) /\
  exists infos, get_all_failed_node_info s non_failed = Ok infos /\
    Forall2 (fun n info => dget n (node_mapping s) = Some info)
      (filter (fun n => n ∉ non_failed) (lru_order s)) infos.
Proof.
  intros Hi%tracker_reachable_inv. pose proof Hi as [Hw Hp Hb].
  assert (Hin : forall n, n ∈ lru_order s <-> n ∈ dkeys (node_mapping s)) by (intros n; by rewrite Hp).
  split_and!; [by rewrite Hp | done | done | |].
  - intros n ip t. destruct (track n ip t s) as [s1 r1] eqn:E1, (untrack n s) as [s2 r2] eqn:E2. cbn.
    split; [by eapply track_inv | by eapply untrack_inv].
  - unfold get_all_failed_node_info.
    assert (Hf : filter (fun n => n ∈ filter (fun n => n ∉ non_failed) (dkeys (node_mapping s))) (lru_order s) =
                 filter (fun n => n ∉ non_failed) (lru_order s)).
    { apply filter_same. intros n Hn. rewrite list_elem_of_filter, <- Hin. naive_solver. }
    rewrite Hf. destruct (mapM_r_ok (fun n => dgetitem n (node_mapping s))
      (filter (fun n => n ∉ non_failed) (lru_order s))) as [infos E].
    { intros n [_ Hn]%list_elem_of_filter. apply Hin, dget_is_Some in Hn as [v Hv]. unfold dgetitem. rewrite Hv. by eexists. }
    exists infos. split; [done|]. apply mapM_r_Forall2 in E. eapply Forall2_impl; [exact E|].
    intros n v. unfold dgetitem. by destruct (dget n (node_mapping s)); [intros [= <-]|].
Qed.

(** At the limit, tracking a new node loses it: [_add_node_mapping]
    rebinds [node_id] to the node it evicts, so the new node stays untracked
    and the evicted one is tracked with the new node's ip and type. *)
Theorem track_at_limit_loses_node s node_id ip node_type evicted rest :
  rtc tracker_step __init__ s -> node_id ∉ dkeys (node_mapping s) -> lru_order s = evicted :: rest ->
  length (lru_order s) = AUTOSCALER_MAX_NODES_TRACKED ->
  exists s', track node_id ip node_type s = (s', Ok tt) /\
    node_id ∉ dkeys (node_mapping s') /\
    dget evicted (node_mapping s') = Some (ip, node_type) /\
    lru_order s' = rest ++ [evicted].
Proof.
  intros Hi%tracker_reachable_inv Hn Ho Hl. unfold track. st_simpl. rewrite (proj2 (dmem_false _ _) Hn).
  rewrite (add_at_limit s node_id _ evicted rest Hi Hn Ho) by lia. eexists. split; [done|]. cbn.
  split_and!; [|apply dget_dset_eq|done]. destruct Hi as [Hw Hp _].
  rewrite elem_dkeys_dset, elem_dkeys_ddel by done. intros [->|[_ ?]]; [|done].
  apply Hn. rewrite <- Hp, Ho. left.
Qed.

(** A tracker with nodes [0 .. n - 1] *)
Definition tracker_of (n : nat) : NodeTracker :=
  mkTracker (map (fun i => (pretty i, (pretty i, "cpu"))) (seq 0 n)) (map pretty (seq 0 n)).

Lemma tracker_of_keys n : dkeys (node_mapping (tracker_of n)) = map pretty (seq 0 n).
Proof. unfold dkeys. cbn. induction (seq 0 n) as [|i l IH]; cbn; [done|]. by f_equal. Qed.

Lemma pretty_seq_fresh n : pretty n ∉ map pretty (seq 0 n).
Proof. intros (i & Hi%(inj pretty) & Hin)%list_elem_of_fmap. apply elem_of_seq in Hin. lia. Qed.

Lemma tracker_of_reachable n : (n <= AUTOSCALER_MAX_NODES_TRACKED)%nat -> rtc tracker_step __init__ (tracker_of n).
Proof.
  induction n as [|n IH]; intros Hn; [apply rtc_refl|]. specialize (IH ltac:(lia)).
  eapply rtc_r; [exact IH|]. apply (step_track (pretty n) (pretty n) "cpu" _ _ (Ok tt)).
  assert (Hfresh : pretty n ∉ dkeys (node_mapping (tracker_of n))) by (rewrite tracker_of_keys; apply pretty_seq_fresh).
  unfold track. st_simpl. rewrite (proj2 (dmem_false _ _) Hfresh).
  rewrite add_new_node; [|by apply tracker_reachable_inv | done |].
  - unfold tracker_of at 3. rewrite seq_S, !map_app. cbn [node_mapping lru_order tracker_of].
    rewrite dset_fresh by exact Hfresh. done.
  - cbn. rewrite length_map, length_seq. lia.
Qed.

Lemma node_tracker_reports_failed_witness :
  exists infos, get_all_failed_node_info (tracker_of 3) ["1"] = Ok infos /\ infos = [("0", "cpu"); ("2", "cpu")].
Proof.
  assert (Hr : rtc tracker_step __init__ (tracker_of 3)) by (apply tracker_of_reachable; unfold AUTOSCALER_MAX_NODES_TRACKED; lia).
  destruct (node_tracker_reports_failed (tracker_of 3) ["1"] Hr) as (_ & _ & _ & _ & infos & E & _).
  exists infos. split; [done|]. vm_compute in E. by injection E as <-.
Defined.

Lemma track_at_limit_loses_node_witness :
  exists s', track "new" "10.0.0.1" "gpu" (tracker_of 1500) = (s', Ok tt) /\
    "new" ∉ dkeys (node_mapping s') /\ dget "0" (node_mapping s') = Some ("10.0.0.1", "gpu").
Proof.
  destruct (track_at_limit_loses_node (tracker_of 1500) "new" "10.0.0.1" "gpu" "0" (map pretty (seq 1 1499)))
    as (s' & E & Hn & Hd & _).
  - apply tracker_of_reachable. unfold AUTOSCALER_MAX_NODES_TRACKED. lia.
  - rewrite tracker_of_keys. intros (i & Hi & Hin)%list_elem_of_fmap.
    assert (Hx : bool_decide ("new" ∈ map (pretty (A := nat)) (seq 0 1500)) = false) by (vm_compute; reflexivity).
    apply bool_decide_eq_false in Hx. apply Hx. apply list_elem_of_fmap. eauto.
  - reflexivity.
  - cbn [lru_order tracker_of]. by rewrite length_map, length_seq.
  - exact (ex_intro _ s' (conj E (conj Hn Hd))).
Defined.

End Invariant.
