(* ===== verification/EventSummarizer.v ===== *)
(** [EventSummarizer] ([autoscaler/_private/event_summarizer.py]): it merges
    the autoscaler's log messages by template and throttles repeated ones.
    The time of day is an argument of the operations that read the clock. *)

From Stdlib Require Import ZArith QArith Lqa Lia Ascii.
From stdpp Require Import base list strings option pretty relations.
From S2P Require Import Prelude PyDict.

Module EventSummarizer.

(** Quantities are integers, as in every call of the autoscaler. *)
Record EventSummarizer : Type := mkSummarizer {
  events_by_key : dict string Z;
  messages_to_send : list string;
  throttled_messages : dict string Q
}.

Definition __init__ : EventSummarizer := mkSummarizer [] [] [].

(** [s.endswith(".")] *)
Fixpoint ends_with_period (s : string) : bool :=
  match s with
  | EmptyString => false
  | String c EmptyString => bool_decide (c = "."%char)
  | String _ s' => ends_with_period s'
  end.

Definition sentence (template : string) : string :=
  if ends_with_period template then template else template +:+ ".".

Definition add (template : string) (quantity : Z) (aggregate : Z -> Z -> Z)
    (s : EventSummarizer) : EventSummarizer :=
  let template := sentence template in
  mkSummarizer
    (match dget template (events_by_key s) with
     | Some q => dset template (aggregate q quantity) (events_by_key s)
     | None => dset template quantity (events_by_key s)
     end)
    (messages_to_send s) (throttled_messages s).

Definition add_once_per_interval (now : Q) (message key : string) (interval_s : Z)
    (s : EventSummarizer) : EventSummarizer :=
  if dmem key (throttled_messages s) then s
  else mkSummarizer (events_by_key s) (messages_to_send s ++ [message])
         (dset key (now + inject_Z interval_s)%Q (throttled_messages s)).

(** [template.format(quantity)] for a template with one placeholder [{}] *)
Fixpoint format_one (template quantity : string) : string :=
  match template with
  | EmptyString => EmptyString
  | String "{"%char (String "}"%char rest) => quantity +:+ rest
  | String c rest => String c (format_one rest quantity)
  end.

Definition summary (s : EventSummarizer) : list string :=
  map (fun tq => format_one tq.1 (pretty tq.2)) (events_by_key s) ++ messages_to_send s.

(** The clock is read once per throttled message; all readings of one call
    are taken to be equal. *)
Definition clear (now : Q) (s : EventSummarizer) : EventSummarizer :=
  mkSummarizer [] [] (filter (fun kt => Qlt_bool kt.2 now = false) (throttled_messages s)).

End EventSummarizer.

(** ** Properties *)

Section Properties.
Import EventSummarizer.
Implicit Types (s : EventSummarizer).

(** The calls on a summarizer, with the time they are made *)
Inductive event_op : Type :=
| Add (template : string) (quantity : Z)
| AddOnce (now : Q) (message key : string) (interval_s : Z)
| Clear (now : Q).

Definition run_op (s : EventSummarizer) (op : event_op) : EventSummarizer :=
  match op with
  | Add t q => add t q Z.add s
  | AddOnce now m k i => add_once_per_interval now m k i s
  | Clear now => clear now s
  end.

Definition run_ops (s : EventSummarizer) (ops : list event_op) : EventSummarizer := foldl run_op s ops.

(** The quantities added to a template, merged *)
Definition op_quantity (template : string) (op : event_op) : Z :=
  match op with
  | Add t q => if decide (sentence t = template) then q else 0%Z
  | _ => 0%Z
  end.

Definition is_clear (op : event_op) : bool := match op with Clear _ => true | _ => false end.

Lemma dget_filter (P : string * Q -> Prop) `{!forall x, Decision (P x)} (d : dict string Q) k t :
  dget k d = Some t -> P (k, t) -> dget k (filter P d) = Some t.
Proof.
  induction d as [|[k' t'] d IH]; [done|]. intros Hg Hp. cbn [dget] in Hg. rewrite filter_cons.
  destruct (decide (k = k')) as [->|Hne].
  - injection Hg as ->. rewrite decide_True by done. cbn. by rewrite decide_True.
  - case_decide; [cbn; rewrite decide_False by done|]; auto.
Qed.

Lemma throttled_stays s ops key expiry :
  dget key (throttled_messages s) = Some expiry ->
  (forall now, Clear now ∈ ops -> (now <= expiry)%Q) ->
  dget key (throttled_messages (run_ops s ops)) = Some expiry.
Proof.
  revert s. induction ops as [|op ops IH]; intros s Hk Hc; cbn [run_ops foldl]; [done|].
  apply IH; [|intros now Hn; apply Hc; by right].
  destruct op as [t q|now m k i|now]; cbn.
  - done.
  - unfold add_once_per_interval. destruct (dmem k _) eqn:Hm; [done|]. cbn. rewrite dget_dset.
    case_decide; [subst|done]. apply dmem_false, dget_None in Hm. congruence.
  - apply dget_filter; [done|]. cbn. apply Qlt_bool_false. apply Hc. left.
Qed.

(** A throttled message is sent at most once per interval: after
    [add_once_per_interval] with a key, a later one with the same key sends
    nothing as long as no [clear] runs after the interval is over, whatever
    other calls happen in between. *)
Theorem throttled_once_per_interval s now message key interval_s ops now' message' interval_s' :
  (forall t, Clear t ∈ ops -> (t <= now + inject_Z interval_s)%Q) ->
  dmem key (throttled_messages s) = false ->
  let s1 := add_once_per_interval now message key interval_s s in
  let s2 := run_ops s1 ops in
  messages_to_send s1 = messages_to_send s ++ [message] /\
  add_once_per_interval now' message' key interval_s' s2 = s2.
Proof.
  intros Hc Hm. cbn zeta. unfold add_once_per_interval at 1. rewrite Hm. split; [done|].
  unfold add_once_per_interval at 1. unfold dmem. erewrite throttled_stays; [done| |exact Hc].
  unfold add_once_per_interval. rewrite Hm. cbn. apply dget_dset_eq.
Qed.

(** A later [clear] lets the message through again. *)
Lemma clear_expires s now key expiry :
  dwf (throttled_messages s) -> dget key (throttled_messages s) = Some expiry -> (expiry < now)%Q ->
  dmem key (throttled_messages (clear now s)) = false.
Proof.
  intros Hw Hk Hlt. apply dmem_false, dget_None. cbn.
  destruct (dget key (filter _ _)) as [t|] eqn:E; [|done]. apply dget_elem, list_elem_of_filter in E as [Hp Hin].
  apply elem_dget in Hin; [|done]. rewrite Hk in Hin. injection Hin as <-. cbn in Hp.
  apply Qlt_bool_false in Hp. lra.
Qed.

(** Between two calls of [clear] the summarizer adds up what is reported
    under a template: its quantity grows by the sum of the reported ones, in
    any order of the calls. *)
Theorem events_add_up s ops template :
  Forall (fun op => is_clear op = false) ops ->
  dget_or template 0%Z (events_by_key (run_ops s ops)) =
  (dget_or template 0 (events_by_key s) + Zsum (map (op_quantity template) ops))%Z.
Proof.
  intros HF. revert s. induction HF as [|op ops Hop _ IH]; intros s; cbn [run_ops foldl map].
  - unfold Zsum; cbn. lia.
  - unfold run_ops in IH. rewrite IH. unfold Zsum. cbn [foldr].
    assert (Hstep : dget_or template 0%Z (events_by_key (run_op s op)) =
      (dget_or template 0 (events_by_key s) + op_quantity template op)%Z); [|rewrite Hstep; lia].
    destruct op as [t q|now m k i|now]; [|cbn|done].
    + cbn [run_op op_quantity]. unfold add. cbn [events_by_key].
      destruct (dget (sentence t) (events_by_key s)) as [old|] eqn:E; rewrite dget_or_dset;
        case_decide; subst; unfold dget_or; rewrite ?E; cbn; lia.
    + unfold add_once_per_interval. destruct (dmem _ _); cbn; lia.
Qed.

Lemma throttled_once_per_interval_witness :
  let s1 := add_once_per_interval 0 "full" "k" 30 __init__ in
  let s2 := run_ops s1 [Clear 10; Add "Adding {} nodes" 2; AddOnce 12 "other" "l" 30] in
  messages_to_send s1 = ["full"] /\ add_once_per_interval 20 "full" "k" 30 s2 = s2.
Proof.
  apply (throttled_once_per_interval __init__ 0 "full" "k" 30 [Clear 10; Add "Adding {} nodes" 2; AddOnce 12 "other" "l" 30]
    20 "full" 30); [|reflexivity].
  intros t Ht. repeat (apply elem_of_cons in Ht as [Ht|Ht]; [try discriminate|]); [|by apply elem_of_nil in Ht].
  injection Ht as ->. by_compute.
Defined.

Lemma events_add_up_witness :
  dget_or "Adding {} nodes." 0%Z
    (events_by_key (run_ops __init__ [Add "Adding {} nodes" 2; Add "Removing {}." 1; Add "Adding {} nodes." 3])) = 5%Z.
Proof.
  rewrite (events_add_up __init__ [Add "Adding {} nodes" 2; Add "Removing {}." 1; Add "Adding {} nodes." 3]);
    [reflexivity | by_compute].
Defined.

End Properties.
