(* ===== verification/ClusterConfig.v ===== *)
(** The cluster config as the autoscaler reads it, and the functions of
    [autoscaler/_private/util.py] that check and complete it. *)

From Stdlib Require Import ZArith QArith Lqa Lia.
From stdpp Require Import base list strings option.
From S2P Require Import Prelude PyDict Resources NodeTypes.

(** A field that may be missing is an [option]. *)
Record ClusterConfig : Type := mkConfig {
  cc_cluster_name : string;
  cc_max_workers : option Z;
  cc_min_workers : option Z;
  cc_head_node_type : option string;
  cc_available_node_types : option NodeTypes;
  cc_head_node : option (dict string yaml);
  cc_worker_nodes : option (dict string yaml);
  cc_auth : option yaml;
  cc_provider : dict string yaml;
  cc_cluster_synced_files : option (list string);
  cc_file_mounts : dict string string;
  cc_setup_commands : list string;
  cc_head_setup_commands : list string;
  cc_worker_setup_commands : list string;
  cc_initialization_commands : list string;
  cc_worker_start_ray_commands : list string;
  cc_idle_timeout_minutes : Q;
  cc_upscaling_speed : option Q;
  cc_autoscaling_mode : option string;
  cc_target_utilization_fraction : option Q;
  cc_restart_only : bool;
  cc_no_restart : bool;
  cc_file_mounts_sync_continuously : bool;
  cc_docker : option (dict string yaml)
}.

(** [config["available_node_types"]] and the other subscripts *)
Definition cc_node_types (c : ClusterConfig) : result NodeTypes := or_raise KeyError (cc_available_node_types c).
Definition cc_head_type (c : ClusterConfig) : result string := or_raise KeyError (cc_head_node_type c).
Definition cc_workers_limit (c : ClusterConfig) : result Z := or_raise KeyError (cc_max_workers c).

(** [config[...] = v] for the fields the functions below assign *)
Definition set_node_types_field (nts : NodeTypes) (head : string) (hn wn : dict string yaml)
    (c : ClusterConfig) : ClusterConfig :=
  mkConfig (cc_cluster_name c) (cc_max_workers c) (cc_min_workers c) (Some head) (Some nts)
    (Some hn) (Some wn) (cc_auth c) (cc_provider c) (cc_cluster_synced_files c) (cc_file_mounts c)
    (cc_setup_commands c) (cc_head_setup_commands c) (cc_worker_setup_commands c)
    (cc_initialization_commands c) (cc_worker_start_ray_commands c) (cc_idle_timeout_minutes c)
    (cc_upscaling_speed c) (cc_autoscaling_mode c) (cc_target_utilization_fraction c)
    (cc_restart_only c) (cc_no_restart c) (cc_file_mounts_sync_continuously c) (cc_docker c).

Definition set_available_node_types (nts : NodeTypes) (c : ClusterConfig) : ClusterConfig :=
  mkConfig (cc_cluster_name c) (cc_max_workers c) (cc_min_workers c) (cc_head_node_type c) (Some nts)
    (cc_head_node c) (cc_worker_nodes c) (cc_auth c) (cc_provider c) (cc_cluster_synced_files c)
    (cc_file_mounts c) (cc_setup_commands c) (cc_head_setup_commands c) (cc_worker_setup_commands c)
    (cc_initialization_commands c) (cc_worker_start_ray_commands c) (cc_idle_timeout_minutes c)
    (cc_upscaling_speed c) (cc_autoscaling_mode c) (cc_target_utilization_fraction c)
    (cc_restart_only c) (cc_no_restart c) (cc_file_mounts_sync_continuously c) (cc_docker c).

Definition set_file_mounts (mounts : dict string string) (c : ClusterConfig) : ClusterConfig :=
  mkConfig (cc_cluster_name c) (cc_max_workers c) (cc_min_workers c) (cc_head_node_type c)
    (cc_available_node_types c) (cc_head_node c) (cc_worker_nodes c) (cc_auth c) (cc_provider c)
    (cc_cluster_synced_files c) mounts (cc_setup_commands c) (cc_head_setup_commands c)
    (cc_worker_setup_commands c) (cc_initialization_commands c) (cc_worker_start_ray_commands c)
    (cc_idle_timeout_minutes c) (cc_upscaling_speed c) (cc_autoscaling_mode c)
    (cc_target_utilization_fraction c) (cc_restart_only c) (cc_no_restart c)
    (cc_file_mounts_sync_continuously c) (cc_docker c).

(** ** [validate_config] *)

(** [jsonschema.validate] against [ray-schema.json] is outside the model: it
    is the argument [schema_ok]. *)
Definition validate_config (schema_ok : ClusterConfig -> bool) (c : ClusterConfig) : result unit :=
  if negb (schema_ok c) then Err SchemaValidationError
  else match cc_cluster_synced_files c with
       | None => Err RuntimeError
       | Some _ =>
           match cc_available_node_types c with
           | None => Ok tt
           | Some nts =>
               match cc_head_node_type c with
               | None => Err ValueError
               | Some head =>
                   if negb (dmem head nts) then Err ValueError
                   else
                     max_workers ← cc_workers_limit c;
                     if (max_workers <? Zsum (map (fun nt => cfg_min_workers nt.2) nts))%Z
                     then Err ValueError else Ok tt
               end
           end
       end.

Definition check_legacy_fields (c : ClusterConfig) : result unit :=
  match cc_available_node_types c, cc_head_node_type c with
  | None, _ => Err ValueError
  | Some _, None => Err ValueError
  | Some _, Some _ => Ok tt
  end.

(** ** [merge_legacy_yaml_with_defaults] *)

(** [d.get("resources") or {}], for a [resources] field that is a dict of numbers *)
Definition yaml_resources (d : dict string yaml) : ResourceDict :=
  match dget "resources" d with
  | Some (YDict r) => omap (fun kv => match kv.2 with YNum q => Some (kv.1, q) | _ => None end) r
  | _ => []
  end.

Definition merge_legacy_yaml_with_defaults (c : ClusterConfig) : result ClusterConfig :=
  default_head_type ← cc_head_type c;
  nts ← cc_node_types c;
  _ ← py_assert (length nts =? 2)%nat;
  default_worker_type ← or_raise KeyError (head (filter (fun t => t <> default_head_type) (dkeys nts)));
  head_node ← or_raise KeyError (cc_head_node c);
  (* [head_node_info["node_config"]] is the dict [head_node] itself, from
     which ["resources"] is popped below *)
  head_info ← match head_node with
              | _ :: _ => Ok (mkNodeType (Some (yaml_resources head_node)) (Some 0%Z) (Some 0%Z)
                               (Some (YDict (ddel "resources" head_node))) [])
              | [] => dgetitem default_head_type nts
              end;
  worker_nodes ← or_raise KeyError (cc_worker_nodes c);
  worker_info ← match worker_nodes with
                | _ :: _ =>
                    mw ← cc_workers_limit c;
                    Ok (mkNodeType (Some (yaml_resources worker_nodes)) (Some (default 0%Z (cc_min_workers c)))
                          (Some mw) (Some (YDict (ddel "resources" worker_nodes))) [])
                | [] => dgetitem default_worker_type nts
                end;
  Ok (set_node_types_field
        [(NODE_TYPE_LEGACY_HEAD, head_info); (NODE_TYPE_LEGACY_WORKER, worker_info)] NODE_TYPE_LEGACY_HEAD
        (ddel "resources" head_node) (ddel "resources" worker_nodes) c).

(** ** [merge_setup_commands], [fill_node_type_min_max_workers], [with_head_node_ip] *)

Definition merge_setup_commands (c : ClusterConfig) : ClusterConfig :=
  mkConfig (cc_cluster_name c) (cc_max_workers c) (cc_min_workers c) (cc_head_node_type c)
    (cc_available_node_types c) (cc_head_node c) (cc_worker_nodes c) (cc_auth c) (cc_provider c)
    (cc_cluster_synced_files c) (cc_file_mounts c) (cc_setup_commands c)
    (cc_setup_commands c ++ cc_head_setup_commands c) (cc_setup_commands c ++ cc_worker_setup_commands c)
    (cc_initialization_commands c) (cc_worker_start_ray_commands c) (cc_idle_timeout_minutes c)
    (cc_upscaling_speed c) (cc_autoscaling_mode c) (cc_target_utilization_fraction c)
    (cc_restart_only c) (cc_no_restart c) (cc_file_mounts_sync_continuously c) (cc_docker c).

Definition fill_one (max_workers : Z) (head_node_type : result string) (nt : string * NodeTypeConfig)
    : result (string * NodeTypeConfig) :=
  let '(t, c) := nt in
  let min := default 0%Z (ntc_min_workers c) in
  max ← match ntc_max_workers c with
        | Some m => Ok m
        | None => head ← head_node_type; Ok (if bool_decide (t = head) then 0%Z else max_workers)
        end;
  Ok (t, mkNodeType (ntc_resources c) (Some min) (Some max) (ntc_node_config c) (ntc_other c)).

Definition fill_node_type_min_max_workers (c : ClusterConfig) : result ClusterConfig :=
  max_workers ← or_raise AssertionError (cc_max_workers c);
  nts ← cc_node_types c;
  nts' ← mapM_r (fill_one max_workers (cc_head_type c)) nts;
  Ok (set_available_node_types nts' c).

Definition with_head_node_ip (cmds : list string) (head_ip : string) : list string :=
  map (fun cmd => "export RAY_HEAD_IP=" +:+ head_ip +:+ "; " +:+ cmd) cmds.

(** ** Properties *)

Section Properties.
Implicit Types (c : ClusterConfig).

Lemma fill_one_spec mw head nts nts' :
  mapM_r (fill_one mw head) nts = Ok nts' ->
  dkeys nts' = dkeys nts /\
  forall t nc', (t, nc') ∈ nts' -> exists nc, (t, nc) ∈ nts /\
    ntc_resources nc' = ntc_resources nc /\ ntc_node_config nc' = ntc_node_config nc /\
    ntc_min_workers nc' = Some (cfg_min_workers nc) /\
    match ntc_max_workers nc with
    | Some m => ntc_max_workers nc' = Some m
    | None => exists h, head = Ok h /\ ntc_max_workers nc' = Some (if bool_decide (t = h) then 0%Z else mw)
    end.
Proof.
  revert nts'. induction nts as [|[t nc] nts IH]; intros nts' H; cbn [mapM_r] in H; simpl_result.
  { split; [done|]. by intros ?? ?%elem_of_nil. }
  destruct (IH _ eq_refl) as [Hk Hg]. unfold fill_one in E. simpl_result. split; [by rewrite !dkeys_cons, Hk|].
  intros t' nc' Hin. apply elem_of_cons in Hin as [[= -> ->]|Hin].
  - exists nc. cbn. split_and!; try done; [left|]. destruct (ntc_max_workers nc); simpl_result; [done | eauto].
  - destruct (Hg _ _ Hin) as (nc0 & Hin0 & Hrest). exists nc0. split; [by right | done].
Qed.

(** After [fill_node_type_min_max_workers] every node type has both
    limits: a given limit is kept, a missing [min_workers] becomes 0, and a
    missing [max_workers] becomes 0 for the head's type and the global limit
    for the others; names, resources and node configs do not change. *)
Theorem fill_node_type_limits c c' nts :
  cc_available_node_types c = Some nts ->
  fill_node_type_min_max_workers c = Ok c' ->
  exists nts' mw, cc_available_node_types c' = Some nts' /\ cc_max_workers c = Some mw /\
    dkeys nts' = dkeys nts /\
    forall t nc', (t, nc') ∈ nts' -> exists nc, (t, nc) ∈ nts /\
      ntc_resources nc' = ntc_resources nc /\ ntc_node_config nc' = ntc_node_config nc /\
      ntc_min_workers nc' = Some (default 0%Z (ntc_min_workers nc)) /\
      ntc_max_workers nc' = Some (default (if bool_decide (cc_head_node_type c = Some t) then 0%Z else mw)
                                    (ntc_max_workers nc)).
Proof.
  intros Hn H. unfold fill_node_type_min_max_workers, cc_node_types, cc_head_type in H. rewrite Hn in H.
  destruct (cc_max_workers c) as [mw|] eqn:Em; cbn [or_raise mbind result_bind] in H; [|done]. bind_inv H. simpl_result.
  destruct (fill_one_spec _ _ _ _ E) as [Hk Hg].
  eexists _, _. split_and!; [done..|]. intros t nc' Hin. destruct (Hg t nc' Hin) as (nc & Hin' & A & B & C & D).
  exists nc. split_and!; [done..|]. destruct (ntc_max_workers nc); [done|]. destruct D as (h & Hh & ->).
  cbn. do 2 f_equal. destruct (cc_head_node_type c) as [h'|]; [|done]. injection Hh as ->.
  repeat case_bool_decide; congruence.
Qed.

End Properties.

(** A small config: a head type without limits and a worker type *)
Definition ex_config : ClusterConfig :=
  mkConfig "test" (Some 10%Z) None (Some "head")
    (Some [("head", mkNodeType (Some [("CPU", 2)]) None None (Some (YDict [])) []);
           ("cpu", mkNodeType (Some [("CPU", 4)]) (Some 1%Z) None (Some (YDict [("image", YStr "x")])) [])]%Q)
    (Some []) (Some []) (Some (YDict [])) [("type", YStr "fake_multinode")] (Some []) [] [] [] [] [] [] 5
    None None None false false false None.

Lemma fill_node_type_limits_witness :
  exists c' nts', fill_node_type_min_max_workers ex_config = Ok c' /\
    cc_available_node_types c' = Some nts' /\ dkeys nts' = ["head"; "cpu"].
Proof.
  destruct (fill_node_type_limits ex_config
    match fill_node_type_min_max_workers ex_config with Ok c' => c' | Err _ => ex_config end
    (default [] (cc_available_node_types ex_config))) as (nts' & mw & Hn & _ & Hk & _); [reflexivity..|].
  eexists _, nts'. split; [reflexivity|]. split; [exact Hn | exact Hk].
Defined.
