(* ===== verification/NodeLauncher.v ===== *)
(** [ConcurrentCounter] ([autoscaler/_private/util.py]) and the launcher
    threads ([autoscaler/_private/node_launcher.py]): the autoscaler counts
    the nodes it asks for and queues launch requests; each launcher takes
    requests from the queue, creates the nodes and takes them off the count.
    The interleavings of these threads are a step relation. *)

From Stdlib Require Import ZArith QArith Lqa Lia.
From stdpp Require Import base list strings option pretty relations.
From S2P Require Import Prelude PyDict Resources NodeTypes NodeProvider ClusterConfig.

(** ** [ConcurrentCounter]: each operation runs under the lock *)

Module ConcurrentCounter.

Abbreviation ConcurrentCounter := (dict string Z).

Definition __init__ : ConcurrentCounter := [].
Definition value (s : ConcurrentCounter) : Z := dsum s.

Definition inc (key : string) (count : Z) : ST ConcurrentCounter Z :=
  _ ← st_modify (dincr key count);
  st_gets value.

(** The subtraction stays when the assertion fails. *)
Definition dec (key : string) (count : Z) : ST ConcurrentCounter Z :=
  _ ← st_modify (dincr key (- count)%Z);
  s ← st_get;
  _ ← st_lift (py_assert (0 <=? dget_or key 0 s)%Z);
  st_gets value.

Definition breakdown (s : ConcurrentCounter) : dict string Z := s.

End ConcurrentCounter.

(** ** [NodeLauncher] *)

(** A launch request: the config at the time of the request, how many nodes,
    and their type *)
Record job : Type := mkJob {
  job_config : ClusterConfig;
  job_count : Z;
  job_type : string
}.

(** [launch_config.update(node_config)] on a dict *)
Definition update_launch_config (launch_config : dict string yaml) (node_config : yaml)
    : result (dict string yaml) :=
  match node_config with
  | YDict d => Ok (dupdate launch_config d)
  | _ => Err TypeError
  end.

Section Launcher.
Context {P : Type} `{!NodeProvider P}.

(** [hash_launch_conf(node_conf, auth)]: a hash of the two, with the key files read *)
Variable hash_launch_conf : yaml -> yaml -> string.

(** [_launch_node(config, count, node_type)]; the empty string stands for no
    node type, as Python's truth test does *)
Definition _launch_node (node_types : NodeTypes) (config : ClusterConfig) (count : Z) (node_type : string)
    : ST P unit :=
  _ ← st_lift (match node_types with
               | [] => Ok tt
               | _ :: _ => py_assert (negb (bool_decide (node_type = "")))
               end);
  let worker_nodes := default [] (cc_worker_nodes config) in
  launch_config ← st_lift (
    if bool_decide (node_type = "") then Ok worker_nodes
    else nts ← cc_node_types config;
         c ← dgetitem node_type nts;
         nc ← or_raise KeyError (ntc_node_config c);
         update_launch_config worker_nodes nc);
  resources ← st_lift (nts ← cc_node_types config; c ← dgetitem node_type nts; cfg_resources c);
  auth ← st_lift (or_raise KeyError (cc_auth config));
  let launch_hash := hash_launch_conf (YDict launch_config) auth in
  let tags0 := [(TAG_RAY_NODE_NAME, "ray-" +:+ cc_cluster_name config +:+ "-worker");
                (TAG_RAY_NODE_KIND, NODE_KIND_WORKER);
                (TAG_RAY_NODE_STATUS, STATUS_UNINITIALIZED);
                (TAG_RAY_LAUNCH_CONFIG, launch_hash)] in
  let node_tags := if bool_decide (node_type = "") then tags0
                   else dset TAG_RAY_USER_NODE_TYPE node_type tags0 in
  let node_config := if bool_decide (node_type = "") then worker_nodes
                     else dupdate worker_nodes launch_config in
  create_node_with_resources (YDict node_config) node_tags count resources.

(** ** The threads *)

(** Where a launcher thread is in its loop *)
Inductive launcher_state : Type :=
| Idle
| Launching (j : job)      (* took the request *)
| Finishing (j : job).     (* created the nodes, or failed to *)

(** The autoscaler's thread is outside of [launch_new_node], or inside, with
    [n] nodes of a type left to queue *)
Inductive main_state : Type :=
| Outside
| Queueing (config : ClusterConfig) (t : string) (n : Z).

Record system : Type := mkSystem {
  sys_provider : P;
  pending : ConcurrentCounter.ConcurrentCounter;
  queue : list job;
  launchers : list launcher_state;
  main : main_state
}.

Variable node_types : NodeTypes.
Variable max_launch_batch : Z.

(** The steps of the threads. [launch_new_node] first counts the nodes and
    then queues them in batches; a launcher takes a request, runs
    [_launch_node] (whose exceptions [run] catches), and then takes the
    request's nodes off the count. *)
Inductive sys_step : system -> system -> Prop :=
| s_count config t n p c c' q ls r :
    (0 <= n)%Z -> ConcurrentCounter.inc t n c = (c', r) ->
    sys_step (mkSystem p c q ls Outside) (mkSystem p c' q ls (Queueing config t n))
| s_put config t n p c q ls :
    (0 < n)%Z ->
    sys_step (mkSystem p c q ls (Queueing config t n))
      (mkSystem p c (q ++ [mkJob config (Z.min n max_launch_batch) t]) ls
         (Queueing config t (n - max_launch_batch)))
| s_return config t n p c q ls :
    (n <= 0)%Z ->
    sys_step (mkSystem p c q ls (Queueing config t n)) (mkSystem p c q ls Outside)
| s_get i j p c q ls mn :
    ls !! i = Some Idle ->
    sys_step (mkSystem p c (j :: q) ls mn) (mkSystem p c q (<[i := Launching j]> ls) mn)
| s_launch i j p p' c q ls mn r :
    ls !! i = Some (Launching j) ->
    _launch_node node_types (job_config j) (job_count j) (job_type j) p = (p', r) ->
    sys_step (mkSystem p c q ls mn) (mkSystem p' c q (<[i := Finishing j]> ls) mn)
| s_dec i j p c c' q ls mn v :
    ls !! i = Some (Finishing j) ->
    ConcurrentCounter.dec (job_type j) (job_count j) c = (c', Ok v) ->
    sys_step (mkSystem p c q ls mn) (mkSystem p c' q (<[i := Idle]> ls) mn)
| s_other p p' c q ls mn :   (* the cloud, or the autoscaler, changes the nodes *)
    sys_step (mkSystem p c q ls mn) (mkSystem p' c q ls mn).

Definition sys_init (p : P) (n : nat) : system :=
  mkSystem p ConcurrentCounter.__init__ [] (replicate n Idle) Outside.

(** ** The invariant: the counter is what is queued and in flight *)

Definition job_nodes (t : string) (j : job) : Z := if decide (job_type j = t) then job_count j else 0%Z.
Definition launcher_nodes (t : string) (l : launcher_state) : Z :=
  match l with Idle => 0%Z | Launching j | Finishing j => job_nodes t j end.
Definition main_nodes (t : string) (m : main_state) : Z :=
  match m with
  | Outside => 0%Z
  | Queueing _ t' n => if decide (t' = t) then Z.max 0 n else 0%Z
  end.

(** The nodes of type [t] that were asked for and are not accounted for yet *)
Definition outstanding (t : string) (s : system) : Z :=
  (Zsum (map (job_nodes t) (queue s)) + Zsum (map (launcher_nodes t) (launchers s)) +
   main_nodes t (main s))%Z.

Definition ok_launcher (l : launcher_state) : Prop :=
  match l with Idle => True | Launching j | Finishing j => (0 <= job_count j)%Z end.

Record sys_inv (s : system) : Prop := mkSysInv {
  si_wf : dwf (pending s);
  si_count : forall t, dget_or t 0%Z (pending s) = outstanding t s;
  si_queue : Forall (fun j => (0 <= job_count j)%Z) (queue s);
  si_launchers : Forall ok_launcher (launchers s)
}.

Lemma Zsum_insert {A} (f : A -> Z) (l : list A) i x y :
  l !! i = Some x -> Zsum (map f (<[i := y]> l)) = (Zsum (map f l) - f x + f y)%Z.
Proof.
  unfold Zsum. revert i. induction l as [|z l IH]; intros [|i] H; cbn in *; try done.
  - injection H as ->. lia.
  - rewrite IH by done. lia.
Qed.

Lemma Zsum_lookup_le {A} (f : A -> Z) (l : list A) i x :
  (forall y, y ∈ l -> 0 <= f y)%Z -> l !! i = Some x -> (f x <= Zsum (map f l))%Z.
Proof.
  unfold Zsum. revert i. induction l as [|z l IH]; intros [|i] Hp H; cbn in *; try done.
  - injection H as ->. assert (0 <= foldr Z.add 0 (map f l))%Z; [|lia].
    apply Zsum_nonneg, Forall_map, list.Forall_forall. intros y Hy. apply Hp. by right.
  - specialize (IH i). assert (0 <= f z)%Z by (apply Hp; left).
    assert (f x <= foldr Z.add 0 (map f l))%Z; [|lia]. apply IH; [|done]. intros y Hy. apply Hp. by right.
Qed.

Lemma job_nodes_nonneg t j : (0 <= job_count j)%Z -> (0 <= job_nodes t j)%Z.
Proof. unfold job_nodes. case_decide; lia. Qed.

Lemma launcher_nodes_nonneg t l : ok_launcher l -> (0 <= launcher_nodes t l)%Z.
Proof. destruct l; cbn; [lia | apply job_nodes_nonneg..]. Qed.

Lemma main_nodes_nonneg t m : (0 <= main_nodes t m)%Z.
Proof. destruct m; cbn; [lia|]. case_decide; lia. Qed.

Lemma queue_nodes_nonneg t q : Forall (fun j => 0 <= job_count j)%Z q -> (0 <= Zsum (map (job_nodes t) q))%Z.
Proof.
  intros HF. apply Zsum_nonneg, Forall_map. eapply list.Forall_impl; [exact HF|]. intros j. apply job_nodes_nonneg.
Qed.

(** A request in flight is covered by the counter. *)
Lemma in_flight_le s i j :
  sys_inv s -> launchers s !! i = Some (Finishing j) ->
  (0 <= job_count j <= dget_or (job_type j) 0 (pending s))%Z.
Proof.
  intros [Hw Hc Hq Hl] Hi. pose proof Hl as Hl'. rewrite list.Forall_forall in Hl'.
  assert (Hj : (0 <= job_count j)%Z) by (exact (Hl' _ (list_elem_of_lookup_2 _ _ _ Hi))).
  split; [done|]. rewrite Hc. unfold outstanding.
  pose proof (queue_nodes_nonneg (job_type j) _ Hq). pose proof (main_nodes_nonneg (job_type j) (main s)).
  pose proof (Zsum_lookup_le (launcher_nodes (job_type j)) (launchers s) i _
    (fun y Hy => launcher_nodes_nonneg _ _ (Hl' y Hy)) Hi) as Hle.
  cbn in Hle. unfold job_nodes in Hle at 1. rewrite decide_True in Hle by done. lia.
Qed.

Lemma sys_step_inv s s' : (0 < max_launch_batch)%Z -> sys_step s s' -> sys_inv s -> sys_inv s'.
Proof.
  intros Hb Hs. destruct Hs as [config t n p c c' q ls r Hn Hinc | config t n p c q ls Hn
    | config t n p c q ls Hn | i j p c q ls mn Hi | i j p p' c q ls mn r Hi Hr
    | i j p c c' q ls mn v Hi Hdec | p p' c q ls mn]; intros Hinv; pose proof Hinv as [Hw Hc Hq Hl]; cbn in *.
  - injection Hinc as <- <-. split; cbn; [by apply dwf_dincr | | done..].
    intros u. rewrite dget_or_dincr, Hc. unfold outstanding; cbn. repeat case_decide; subst; try done; lia.
  - split; cbn; [done | | |done].
    + intros u. rewrite Hc. unfold outstanding. cbn [queue launchers main main_nodes].
      rewrite map_app, Zsum_app.
      assert (Hj : job_nodes u (mkJob config (Z.min n max_launch_batch) t) =
        if decide (t = u) then Z.min n max_launch_batch else 0%Z) by done.
      cbn [map]. rewrite Zsum_cons, Hj. change (Zsum []) with 0%Z. case_decide; lia.
    + apply list.Forall_app. split; [done|]. constructor; cbn; [lia | constructor].
  - split; cbn; [done | | done..]. intros u. rewrite Hc. unfold outstanding; cbn. case_decide; lia.
  - inversion Hq; subst. split; cbn; [done | | done |].
    + intros u. rewrite Hc. unfold outstanding. cbn [queue launchers main map].
      rewrite Zsum_cons, (Zsum_insert _ _ _ _ _ Hi). cbn [launcher_nodes]. lia.
    + by apply Forall_insert.
  - assert (Hok : ok_launcher (Launching j)) by (rewrite list.Forall_forall in Hl; eapply Hl, list_elem_of_lookup_2, Hi).
    split; cbn; [done | | done | by apply Forall_insert].
    intros u. rewrite Hc. unfold outstanding. cbn [queue launchers main].
    rewrite (Zsum_insert _ _ _ _ _ Hi). cbn [launcher_nodes]. lia.
  - unfold ConcurrentCounter.dec in Hdec. st_simpl in Hdec.
    destruct (0 <=? _)%Z; [|done]. injection Hdec as <- <-.
    split; cbn; [by apply dwf_dincr | | done | by apply Forall_insert].
    intros u. rewrite dget_or_dincr, Hc. unfold outstanding. cbn [queue launchers main].
    rewrite (Zsum_insert _ _ _ _ _ Hi). cbn [launcher_nodes].
    set (queued := Zsum (map (job_nodes u) q)). set (busy := Zsum (map (launcher_nodes u) ls)).
    unfold job_nodes. repeat case_decide; subst; try done; lia.
  - by split.
Qed.

Lemma sys_init_inv p n : sys_inv (sys_init p n).
Proof.
  split; cbn; [apply dwf_nil | | constructor |].
  - intros t. unfold ConcurrentCounter.__init__, outstanding. rewrite dget_or_nil.
    cbn [queue launchers main sys_init map main_nodes].
    assert (H : Zsum (map (launcher_nodes t) (replicate n Idle)) = 0%Z); [|rewrite H; done].
    unfold Zsum. induction n; cbn; [done|]. by rewrite IHn.
  - apply Forall_replicate. done.
Qed.

Lemma sys_reachable_inv p n s : (0 < max_launch_batch)%Z -> rtc sys_step (sys_init p n) s -> sys_inv s.
Proof.
  intros Hb H. assert (Hi : sys_inv (sys_init p n)) by apply sys_init_inv. remember (sys_init p n) as s0.
  clear Heqs0. induction H as [|x y z Hxy _ IH]; [done|]. apply IH. by eapply sys_step_inv.
Qed.

(** C14. However the autoscaler and its launcher threads interleave, the
    pending counter of a node type is what is queued, in flight or being
    queued, so it is never negative and the assertion in
    [ConcurrentCounter.dec] never fails, also after launches that raised. *)
Theorem pending_counter_accounts p n s :
  (0 < max_launch_batch)%Z -> rtc sys_step (sys_init p n) s ->
  (forall t, dget_or t 0%Z (pending s) = outstanding t s /\ (0 <= dget_or t 0 (pending s))%Z) /\
  forall i j, launchers s !! i = Some (Finishing j) ->
    exists c' v, ConcurrentCounter.dec (job_type j) (job_count j) (pending s) = (c', Ok v) /\
      dget_or (job_type j) 0%Z c' = (dget_or (job_type j) 0 (pending s) - job_count j)%Z.
Proof.
  intros Hb Hr. pose proof (sys_reachable_inv p n s Hb Hr) as Hi. pose proof Hi as [Hw Hc Hq Hl]. split.
  - intros t. split; [apply Hc|]. rewrite Hc. unfold outstanding.
    pose proof (queue_nodes_nonneg t _ Hq). pose proof (main_nodes_nonneg t (main s)).
    assert (0 <= Zsum (map (launcher_nodes t) (launchers s)))%Z; [|lia].
    apply Zsum_nonneg, Forall_map. eapply list.Forall_impl; [exact Hl|]. apply launcher_nodes_nonneg.
  - intros i j Hij. pose proof (in_flight_le s i j Hi Hij) as Hle.
    assert (Hd : dget_or (job_type j) 0%Z (dincr (job_type j) (- job_count j)%Z (pending s)) =
      (dget_or (job_type j) 0 (pending s) - job_count j)%Z).
    { rewrite dget_or_dincr, decide_True by done. lia. }
    unfold ConcurrentCounter.dec. st_simpl. rewrite Hd.
    destruct (Z.leb_spec 0 (dget_or (job_type j) 0 (pending s) - job_count j)%Z); [|lia]. cbn. eauto.
Qed.

(** When the queue is empty and every thread is idle, no node type has
    pending launches left, whether the launches succeeded or raised. *)
Theorem idle_system_has_no_pending p n s :
  (0 < max_launch_batch)%Z -> rtc sys_step (sys_init p n) s ->
  queue s = [] -> Forall (fun l => l = Idle) (launchers s) -> main s = Outside ->
  forall t, dget_or t 0%Z (pending s) = 0%Z.
Proof.
  intros Hb Hr Hq Hl Hm t. destruct (sys_reachable_inv p n s Hb Hr) as [_ Hc _ _]. rewrite Hc. unfold outstanding.
  rewrite Hq, Hm. cbn. assert (H : Zsum (map (launcher_nodes t) (launchers s)) = 0%Z); [|rewrite H; done].
  unfold Zsum. induction Hl as [|l ls -> _ IH]; cbn; [done|]. by rewrite IH.
Qed.

End Launcher.

(** ** A concrete run: two launchers, five nodes in batches of two *)

Section Example.

Definition ex_hash (conf auth : yaml) : string := "hash".
Definition ex_provider : Fake.FakeMultiNodeProvider :=
  match Fake.__init__ true with Ok p => p | Err _ => Fake.mkFake [] 0 end.

Abbreviation ex_step := (sys_step (P := Fake.FakeMultiNodeProvider) ex_hash [] 2%Z).

Lemma ex_run :
  exists s, rtc ex_step (sys_init ex_provider 2) s /\
    launchers s = [Finishing (mkJob ex_config 2 "cpu"); Launching (mkJob ex_config 2 "cpu")] /\
    queue s = [mkJob ex_config 1 "cpu"] /\ dget_or "cpu" 0%Z (pending s) = 5%Z.
Proof.
  eexists. split.
  - eapply rtc_l; [eapply (s_count ex_hash [] 2 ex_config "cpu" 5); [lia | reflexivity]|].
    do 3 (eapply rtc_l; [apply s_put; lia|]).
    eapply rtc_l; [apply (s_get ex_hash [] 2 0); reflexivity|].
    eapply rtc_l; [apply (s_get ex_hash [] 2 1); reflexivity|].
    eapply rtc_l; [eapply (s_launch ex_hash [] 2 0); [reflexivity | apply surjective_pairing]|].
    apply rtc_refl.
  - split_and!; reflexivity.
Qed.

Lemma pending_counter_accounts_witness :
  exists s : system (P := Fake.FakeMultiNodeProvider), dget_or "cpu" 0%Z (pending s) = 5%Z /\
    exists c' v, ConcurrentCounter.dec "cpu" 2 (pending s) = (c', Ok v) /\ dget_or "cpu" 0%Z c' = 3%Z.
Proof.
  destruct ex_run as (s & Hr & Hl & _ & Hc). exists s. split; [done|].
  destruct (pending_counter_accounts ex_hash [] 2 ex_provider 2 s ltac:(lia) Hr) as [_ Hd].
  destruct (Hd 0%nat (mkJob ex_config 2 "cpu")) as (c' & v & E & Hg); [by rewrite Hl|].
  exists c', v. split; [exact E|]. cbn [job_type job_count] in Hg. rewrite Hg, Hc. reflexivity.
Defined.

Lemma idle_system_has_no_pending_witness : dget_or "cpu" 0%Z (pending (sys_init ex_provider 2)) = 0%Z.
Proof.
  apply (idle_system_has_no_pending ex_hash [] 2 ex_provider 2); [lia | apply rtc_refl | reflexivity | | reflexivity].
  repeat constructor.
Defined.

End Example.
