(* ===== verification/Autoscaler.v ===== *)
(** [StandardAutoscaler] ([autoscaler/_private/autoscaler.py]): the control
    loop that terminates and launches nodes, watches heartbeats and runs the
    updaters. Log lines and Prometheus counters are left out; the time of day
    is an argument of the operations that read the clock. *)

From Stdlib Require Import ZArith QArith Lqa Lia.
From stdpp Require Import base list strings option pretty.
From S2P Require Import Prelude PyDict Resources NodeTypes BinPacking NodesFor NodeProvider DemandScheduler.
From S2P Require Import LoadMetrics NodeTracker EventSummarizer ClusterConfig NodeLauncher.

Definition AUTOSCALER_HEARTBEAT_TIMEOUT_S : Q := 30.

Inductive KeepOrTerminate : Type := keep | terminate | decide_later.

(** [UpdateInstructions]; [None] stands for the tuple without a node *)
Record UpdateInstructions : Type := mkInstructions {
  ui_node_id : NodeID;
  ui_setup_commands : list string;
  ui_ray_start_commands : list string;
  ui_docker_config : dict string yaml
}.

(** What the autoscaler gives to and reads from a [NodeUpdaterThread]; the
    thread itself (ssh, rsync, docker) is outside the model and sets
    [up_exitcode] when it ends. *)
Record Updater : Type := mkUpdater {
  up_initialization_commands : list string;
  up_setup_commands : list string;
  up_ray_start_commands : list string;
  up_docker_config : dict string yaml;
  up_node_resources : ResourceDict;
  up_for_recovery : bool;
  up_exitcode : option Z     (* [None] while the thread is alive *)
}.

Record AutoscalerSummary : Type := mkSummary {
  active_nodes : dict string Z;
  pending_nodes : list (NodeIP * string * string);
  sum_pending_launches : dict string Z;
  failed_nodes : list (NodeIP * string)
}.

(** [str(l)] for a list of strings *)
Definition repr_strings (l : list string) : string :=
  "[" +:+ String.concat ", " (map (fun s => "'" +:+ s +:+ "'") l) +:+ "]".

(** A YAML list of strings, as a loop over it reads it *)
Definition yaml_strings (y : yaml) : result (list string) :=
  match y with
  | YList l => mapM_r (fun x => match x with YStr s => Ok s | _ => Err TypeError end) l
  | _ => Err TypeError
  end.

Module StandardAutoscaler.

Section Autoscaler.
Context {P : Type} `{!NodeProvider P}.

(** What is outside the model: the hashes, the file system, and how Python
    prints dicts and lists of items *)
Variable conserve_gpu_nodes : bool.
Variable hash_launch_conf : yaml -> yaml -> string.
Variable hash_runtime_conf : ClusterConfig -> bool -> result (string * option string).
Variable expanduser : string -> string.
Variable path_exists : string -> bool.
Variable repr_dict : ResourceDict -> string.
Variable repr_items : list (string * Q) -> string.

Record StandardAutoscaler : Type := mkAutoscaler {
  provider : P;
  config : ClusterConfig;
  available_node_types : NodeTypes;
  resource_demand_scheduler : Scheduler P;
  load_metrics : LoadMetrics.LoadMetrics;
  event_summarizer : EventSummarizer.EventSummarizer;
  updaters : dict NodeID Updater;
  num_failed_updates : dict NodeID Z;
  num_successful_updates : dict NodeID Z;
  num_failures : Z;
  last_update_time : Q;
  workers : list NodeID;
  nodes_to_terminate : list NodeID;
  launch_queue : list job;
  pending_launches : ConcurrentCounter.ConcurrentCounter;
  node_tracker : NodeTracker.NodeTracker;
  runtime_hash : string;
  file_mounts_contents_hash : option string;
  drain_requests : list (list string);   (* the requests sent to the GCS *)
  head_node_ip : NodeIP;
  max_failures : Z;
  max_launch_batch : Z;
  update_interval_s : Q;
  disable_node_updaters : bool;
  disable_launch_config_check : bool
}.

(** *** Assignments to the fields *)

Definition set_provider (p : P) (s : StandardAutoscaler) : StandardAutoscaler :=
  mkAutoscaler p (config s) (available_node_types s) (resource_demand_scheduler s) (load_metrics s)
    (event_summarizer s) (updaters s) (num_failed_updates s) (num_successful_updates s) (num_failures s)
    (last_update_time s) (workers s) (nodes_to_terminate s) (launch_queue s) (pending_launches s)
    (node_tracker s) (runtime_hash s) (file_mounts_contents_hash s) (drain_requests s) (head_node_ip s)
    (max_failures s) (max_launch_batch s) (update_interval_s s) (disable_node_updaters s)
    (disable_launch_config_check s).

Definition set_config (c : ClusterConfig) (hash : string) (contents : option string)
    (s : StandardAutoscaler) : StandardAutoscaler :=
  mkAutoscaler (provider s) c (available_node_types s) (resource_demand_scheduler s) (load_metrics s)
    (event_summarizer s) (updaters s) (num_failed_updates s) (num_successful_updates s) (num_failures s)
    (last_update_time s) (workers s) (nodes_to_terminate s) (launch_queue s) (pending_launches s)
    (node_tracker s) hash contents (drain_requests s) (head_node_ip s)
    (max_failures s) (max_launch_batch s) (update_interval_s s) (disable_node_updaters s)
    (disable_launch_config_check s).

Definition set_available (nts : NodeTypes) (s : StandardAutoscaler) : StandardAutoscaler :=
  mkAutoscaler (provider s) (config s) nts (resource_demand_scheduler s) (load_metrics s)
    (event_summarizer s) (updaters s) (num_failed_updates s) (num_successful_updates s) (num_failures s)
    (last_update_time s) (workers s) (nodes_to_terminate s) (launch_queue s) (pending_launches s)
    (node_tracker s) (runtime_hash s) (file_mounts_contents_hash s) (drain_requests s) (head_node_ip s)
    (max_failures s) (max_launch_batch s) (update_interval_s s) (disable_node_updaters s)
    (disable_launch_config_check s).

Definition set_scheduler (d : Scheduler P) (s : StandardAutoscaler) : StandardAutoscaler :=
  mkAutoscaler (provider s) (config s) (available_node_types s) d (load_metrics s)
    (event_summarizer s) (updaters s) (num_failed_updates s) (num_successful_updates s) (num_failures s)
    (last_update_time s) (workers s) (nodes_to_terminate s) (launch_queue s) (pending_launches s)
    (node_tracker s) (runtime_hash s) (file_mounts_contents_hash s) (drain_requests s) (head_node_ip s)
    (max_failures s) (max_launch_batch s) (update_interval_s s) (disable_node_updaters s)
    (disable_launch_config_check s).

Definition set_metrics (m : LoadMetrics.LoadMetrics) (s : StandardAutoscaler) : StandardAutoscaler :=
  mkAutoscaler (provider s) (config s) (available_node_types s) (resource_demand_scheduler s) m
    (event_summarizer s) (updaters s) (num_failed_updates s) (num_successful_updates s) (num_failures s)
    (last_update_time s) (workers s) (nodes_to_terminate s) (launch_queue s) (pending_launches s)
    (node_tracker s) (runtime_hash s) (file_mounts_contents_hash s) (drain_requests s) (head_node_ip s)
    (max_failures s) (max_launch_batch s) (update_interval_s s) (disable_node_updaters s)
    (disable_launch_config_check s).

Definition set_events (e : EventSummarizer.EventSummarizer) (s : StandardAutoscaler) : StandardAutoscaler :=
  mkAutoscaler (provider s) (config s) (available_node_types s) (resource_demand_scheduler s) (load_metrics s)
    e (updaters s) (num_failed_updates s) (num_successful_updates s) (num_failures s)
    (last_update_time s) (workers s) (nodes_to_terminate s) (launch_queue s) (pending_launches s)
    (node_tracker s) (runtime_hash s) (file_mounts_contents_hash s) (drain_requests s) (head_node_ip s)
    (max_failures s) (max_launch_batch s) (update_interval_s s) (disable_node_updaters s)
    (disable_launch_config_check s).

Definition set_updaters (u : dict NodeID Updater) (failed successful : dict NodeID Z)
    (s : StandardAutoscaler) : StandardAutoscaler :=
  mkAutoscaler (provider s) (config s) (available_node_types s) (resource_demand_scheduler s) (load_metrics s)
    (event_summarizer s) u failed successful (num_failures s)
    (last_update_time s) (workers s) (nodes_to_terminate s) (launch_queue s) (pending_launches s)
    (node_tracker s) (runtime_hash s) (file_mounts_contents_hash s) (drain_requests s) (head_node_ip s)
    (max_failures s) (max_launch_batch s) (update_interval_s s) (disable_node_updaters s)
    (disable_launch_config_check s).

Definition set_progress (failures : Z) (time : Q) (s : StandardAutoscaler) : StandardAutoscaler :=
  mkAutoscaler (provider s) (config s) (available_node_types s) (resource_demand_scheduler s) (load_metrics s)
    (event_summarizer s) (updaters s) (num_failed_updates s) (num_successful_updates s) failures
    time (workers s) (nodes_to_terminate s) (launch_queue s) (pending_launches s)
    (node_tracker s) (runtime_hash s) (file_mounts_contents_hash s) (drain_requests s) (head_node_ip s)
    (max_failures s) (max_launch_batch s) (update_interval_s s) (disable_node_updaters s)
    (disable_launch_config_check s).

Definition set_workers (w terminating : list NodeID) (s : StandardAutoscaler) : StandardAutoscaler :=
  mkAutoscaler (provider s) (config s) (available_node_types s) (resource_demand_scheduler s) (load_metrics s)
    (event_summarizer s) (updaters s) (num_failed_updates s) (num_successful_updates s) (num_failures s)
    (last_update_time s) w terminating (launch_queue s) (pending_launches s)
    (node_tracker s) (runtime_hash s) (file_mounts_contents_hash s) (drain_requests s) (head_node_ip s)
    (max_failures s) (max_launch_batch s) (update_interval_s s) (disable_node_updaters s)
    (disable_launch_config_check s).

Definition set_launches (q : list job) (c : ConcurrentCounter.ConcurrentCounter)
    (s : StandardAutoscaler) : StandardAutoscaler :=
  mkAutoscaler (provider s) (config s) (available_node_types s) (resource_demand_scheduler s) (load_metrics s)
    (event_summarizer s) (updaters s) (num_failed_updates s) (num_successful_updates s) (num_failures s)
    (last_update_time s) (workers s) (nodes_to_terminate s) q c
    (node_tracker s) (runtime_hash s) (file_mounts_contents_hash s) (drain_requests s) (head_node_ip s)
    (max_failures s) (max_launch_batch s) (update_interval_s s) (disable_node_updaters s)
    (disable_launch_config_check s).

Definition set_tracker (t : NodeTracker.NodeTracker) (s : StandardAutoscaler) : StandardAutoscaler :=
  mkAutoscaler (provider s) (config s) (available_node_types s) (resource_demand_scheduler s) (load_metrics s)
    (event_summarizer s) (updaters s) (num_failed_updates s) (num_successful_updates s) (num_failures s)
    (last_update_time s) (workers s) (nodes_to_terminate s) (launch_queue s) (pending_launches s)
    t (runtime_hash s) (file_mounts_contents_hash s) (drain_requests s) (head_node_ip s)
    (max_failures s) (max_launch_batch s) (update_interval_s s) (disable_node_updaters s)
    (disable_launch_config_check s).

Definition set_drained (r : list (list string)) (s : StandardAutoscaler) : StandardAutoscaler :=
  mkAutoscaler (provider s) (config s) (available_node_types s) (resource_demand_scheduler s) (load_metrics s)
    (event_summarizer s) (updaters s) (num_failed_updates s) (num_successful_updates s) (num_failures s)
    (last_update_time s) (workers s) (nodes_to_terminate s) (launch_queue s) (pending_launches s)
    (node_tracker s) (runtime_hash s) (file_mounts_contents_hash s) r (head_node_ip s)
    (max_failures s) (max_launch_batch s) (update_interval_s s) (disable_node_updaters s)
    (disable_launch_config_check s).

Abbreviation AST := (ST StandardAutoscaler).

Definition on_provider {A} (m : ST P A) : AST A := st_zoom provider set_provider m.
Definition on_metrics {A} (m : ST LoadMetrics.LoadMetrics A) : AST A := st_zoom load_metrics set_metrics m.
Definition on_tracker {A} (m : ST NodeTracker.NodeTracker A) : AST A := st_zoom node_tracker set_tracker m.
Definition on_events (f : EventSummarizer.EventSummarizer -> EventSummarizer.EventSummarizer) : AST unit :=
  st_modify (fun s => set_events (f (event_summarizer s)) s).

(** The scheduler holds the provider object itself: it sees its current state. *)
Definition scheduler_now (s : StandardAutoscaler) : Scheduler P :=
  let d := resource_demand_scheduler s in
  mkScheduler (provider s) (node_types d) (node_resource_updated d) (max_workers d) (head_node_type d)
    (upscaling_speed d).

(** *** The worker list *)

Definition update_worker_list : AST unit :=
  st_modify (fun s => set_workers
    (non_terminated_nodes (provider s) [(TAG_RAY_NODE_KIND, NODE_KIND_WORKER)]) (nodes_to_terminate s) s).

Definition unmanaged_workers (s : StandardAutoscaler) : list NodeID :=
  non_terminated_nodes (provider s) [(TAG_RAY_NODE_KIND, NODE_KIND_UNMANAGED)].

Definition all_workers (s : StandardAutoscaler) : list NodeID := workers s ++ unmanaged_workers s.

Definition _get_node_type (s : StandardAutoscaler) (node_id : NodeID) : result string :=
  tags ← node_tags (provider s) node_id;
  Ok (dget_or TAG_RAY_USER_NODE_TYPE "unknown_node_type" tags).

(** *** Terminating nodes *)

Definition schedule_node_termination (node_id : NodeID) (reason_opt : option string) : AST unit :=
  match reason_opt with
  | None => st_raise PyException
  | Some reason =>
      s ← st_get;
      _ ← st_lift (internal_ip (provider s) node_id);
      node_type ← st_lift (_get_node_type s node_id);
      _ ← on_events (EventSummarizer.add
            ("Removing {} nodes of type " +:+ node_type +:+ " (" +:+ reason +:+ ").") 1 Z.add);
      st_modify (fun s => set_workers (workers s) (nodes_to_terminate s ++ [node_id]) s)
  end.

(** The raylet ids asked to drain; every error of the request itself is
    caught. *)
Definition drain_nodes_via_gcs (provider_node_ids_to_drain : list NodeID) : AST unit :=
  s ← st_get;
  node_ips ← st_lift (mapM_r (internal_ip (provider s)) provider_node_ids_to_drain);
  let raylet_id_by_ip := LoadMetrics.raylet_id_by_ip (load_metrics s) in
  let connected_node_ips := filter (fun ip => ip ∈ dkeys raylet_id_by_ip) (remove_dups node_ips) in
  raylet_ids_to_drain ← st_lift (mapM_r (fun ip => dgetitem ip raylet_id_by_ip) connected_node_ips);
  st_modify (fun s => set_drained (drain_requests s ++ [remove_dups raylet_ids_to_drain]) s).

Definition terminate_scheduled_nodes : AST unit :=
  s ← st_get;
  match nodes_to_terminate s with
  | [] => mret tt
  | (_ :: _) as nodes =>
      _ ← drain_nodes_via_gcs nodes;
      _ ← on_provider (terminate_nodes nodes);
      _ ← st_for nodes (fun node => on_tracker (NodeTracker.untrack node));
      _ ← st_modify (fun s => set_workers (workers s) [] s);
      update_worker_list
  end.

(** [_sort_based_on_last_used(nodes, last_used)] *)
Definition last_time_used (s : StandardAutoscaler) (last_used : dict NodeIP Q) (node_id : NodeID)
    : result (NodeID * Q) :=
  node_ip ← internal_ip (provider s) node_id;
  Ok (node_id, dget_or node_ip (-1)%Q last_used).

Definition _sort_based_on_last_used (s : StandardAutoscaler) (nodes : list NodeID)
    (last_used : dict NodeIP Q) : result (list NodeID) :=
  keyed ← mapM_r (last_time_used s last_used) nodes;
  Ok (map fst (py_sorted_reverse (fun a b => Qlt_bool a.2 b.2) keyed)).

(** The resources of a node: its type's, or the reported ones for a legacy
    config without resources *)
Definition resources_or_static (s : StandardAutoscaler) (type_resources : ResourceDict) (node_id : NodeID)
    : result ResourceDict :=
  match type_resources with
  | _ :: _ => Ok type_resources
  | [] =>
      ip ← internal_ip (provider s) node_id;
      Ok (dget_or ip [] (LoadMetrics.get_static_node_resources_by_ip (load_metrics s)))
  end.

Definition worker_max_resources (s : StandardAutoscaler) (node_id : NodeID)
    : result (option (NodeID * ResourceDict)) :=
  tags ← node_tags (provider s) node_id;
  match dget TAG_RAY_USER_NODE_TYPE tags with
  | None => Ok None
  | Some node_type =>
      c ← dgetitem node_type (available_node_types s);
      r ← cfg_resources c;
      r' ← resources_or_static s r node_id;
      Ok (Some (node_id, r'))
  end.

(** The head's resources *)
Definition head_max_resources (s : StandardAutoscaler) : result ResourceDict :=
  head_type ← cc_head_type (config s);
  c ← dgetitem head_type (available_node_types s);
  r ← cfg_resources c;
  match r, non_terminated_nodes (provider s) [(TAG_RAY_NODE_KIND, NODE_KIND_HEAD)] with
  | _ :: _, _ => Ok r
  | [], [] => Ok []
  | [], head_id :: _ => resources_or_static s [] head_id
  end.

(** A worker of which [request_resources] uses something: its remaining
    resources differ from its resources, or those are not known *)
Definition needed_node (nmu : (NodeID * ResourceDict) * ResourceDict) : bool :=
  let '((_, max_resources), used) := nmu in
  negb (resources_eqb used max_resources && match max_resources with [] => false | _ => true end).

Definition _get_nodes_needed_for_request_resources (s : StandardAutoscaler) (sorted_node_ids : list NodeID)
    : result (list NodeID) :=
  head_node_resources ← head_max_resources s;
  entries ← mapM_r (worker_max_resources s) sorted_node_ids;
  let worker_entries := omap id entries in
  '(_, used) ← get_bin_pack_residual (head_node_resources :: map snd worker_entries)
                 (LoadMetrics.get_resource_requests (load_metrics s)) false;
  used_workers ← match used with [] => Err IndexError | _ :: u => Ok u end;
  Ok (map (fun nmu => nmu.1.1) (filter (fun nmu => needed_node nmu = true) (zip worker_entries used_workers))).

(** [_keep_worker_of_node_type(node_id, node_type_counts)] *)
Definition _keep_worker_of_node_type (s : StandardAutoscaler) (node_id : NodeID)
    (node_type_counts : dict string Z) : result (KeepOrTerminate * option string) :=
  tags ← node_tags (provider s) node_id;
  match dget TAG_RAY_USER_NODE_TYPE tags with
  | None => Ok (decide_later, None)
  | Some node_type =>
      match dget node_type (available_node_types s) with
      | None => Ok (terminate, Some ("not in available_node_types: " +:+
                                     repr_strings (dkeys (available_node_types s))))
      | Some c =>
          let new_count := (dget_or node_type 0 node_type_counts + 1)%Z in
          if (new_count <=? Z.min (cfg_min_workers c) (cfg_max_workers c))%Z then Ok (keep, None)
          else if (cfg_max_workers c <? new_count)%Z then Ok (terminate, Some "max_workers_per_type")
          else Ok (decide_later, None)
      end
  end.

(** [launch_config_ok(node_id)] *)
Definition launch_config_ok (s : StandardAutoscaler) (node_id : NodeID) : result bool :=
  if disable_launch_config_check s then Ok true
  else
    tags ← node_tags (provider s) node_id;
    match dget TAG_RAY_USER_NODE_TYPE tags with
    | None => Ok false
    | Some node_type =>
        if negb (dmem node_type (available_node_types s)) then Ok false
        else
          let launch_config := default [] (cc_worker_nodes (config s)) in
          launch_config ← (if bool_decide (node_type = "") then Ok launch_config
                           else nts ← cc_node_types (config s);
                                c ← dgetitem node_type nts;
                                nc ← or_raise KeyError (ntc_node_config c);
                                update_launch_config launch_config nc);
          auth ← or_raise KeyError (cc_auth (config s));
          Ok (bool_decide (Some (hash_launch_conf (YDict launch_config) auth) = dget TAG_RAY_LAUNCH_CONFIG tags))
    end.

(** [keep_node], local to the next function *)
Definition keep_node (s : StandardAutoscaler) (node_type_counts : dict string Z) (node_id : NodeID)
    : result (dict string Z) :=
  tags ← node_tags (provider s) node_id;
  Ok (match dget TAG_RAY_USER_NODE_TYPE tags with
      | Some node_type => dincr node_type 1 node_type_counts
      | None => node_type_counts
      end).

(** The end of the loop's body, for a node that need not be kept, on
    [(node_type_counts, nodes_we_could_terminate)] *)
Definition terminate_or_offer (last_used : dict NodeIP Q) (horizon : Q)
    (acc : dict string Z * list NodeID) (node_id : NodeID) : AST (dict string Z * list NodeID) :=
  let '(counts, could) := acc in
  s ← st_get;
  node_ip ← st_lift (internal_ip (provider s) node_id);
  if match dget node_ip last_used with Some t => Qlt_bool t horizon | None => false end
  then _ ← schedule_node_termination node_id (Some "idle"); mret acc
  else
    ok ← st_lift (launch_config_ok s node_id);
    if negb ok then _ ← schedule_node_termination node_id (Some "outdated"); mret acc
    else counts' ← st_lift (keep_node s counts node_id); mret (counts', could ++ [node_id]).

(** The body of the loop over the workers *)
Definition enforce_one (last_used : dict NodeIP Q) (horizon : Q) (not_allowed : list NodeID)
    (acc : dict string Z * list NodeID) (node_id : NodeID) : AST (dict string Z * list NodeID) :=
  let '(counts, could) := acc in
  s ← st_get;
  '(decision, reason) ← st_lift (_keep_worker_of_node_type s node_id counts);
  match decision with
  | terminate => _ ← schedule_node_termination node_id reason; mret acc
  | _ =>
      kept ← (if (match decision with keep => true | _ => false end || bool_decide (node_id ∈ not_allowed))
              then st_lift (launch_config_ok s node_id) else mret false);
      if kept : bool then
        counts' ← st_lift (keep_node s counts node_id); mret (counts', could)
      else terminate_or_offer last_used horizon acc node_id
  end.

Definition terminate_nodes_to_enforce_config_constraints (now : Q) : AST unit :=
  s ← st_get;
  let last_used := LoadMetrics.last_used_time_by_ip (load_metrics s) in
  let horizon := (now - 60 * cc_idle_timeout_minutes (config s))%Q in
  sorted_node_ids ← st_lift (_sort_based_on_last_used s (workers s) last_used);
  not_allowed ← st_lift (match LoadMetrics.get_resource_requests (load_metrics s) with
                         | [] => Ok []
                         | _ :: _ => _get_nodes_needed_for_request_resources s sorted_node_ids
                         end);
  '(_, could) ← st_fold (enforce_one last_used horizon not_allowed) ([], []) sorted_node_ids;
  s ← st_get;
  max_workers ← st_lift (cc_workers_limit (config s));
  let num_extra := (Z.of_nat (length (workers s)) - Z.of_nat (length (nodes_to_terminate s)) - max_workers)%Z in
  let num_extra := if (Z.of_nat (length could) <? num_extra)%Z then Z.of_nat (length could) else num_extra in
  _ ← (if (0 <? num_extra)%Z
       then st_for (slice_last (Z.to_nat num_extra) could)
              (fun node_id => schedule_node_termination node_id (Some "max workers"))
       else mret tt);
  terminate_scheduled_nodes.

(** *** Launching nodes *)

(** The [while] loop of [launch_new_node]; each round queues at most
    [max_launch_batch] nodes *)
Fixpoint queue_batches (fuel : nat) (config : ClusterConfig) (batch count : Z) (node_type : string)
    : result (list job) :=
  if (count <=? 0)%Z then Ok []
  else match fuel with
       | O => Err OutOfFuel
       | S fuel' =>
           js ← queue_batches fuel' config batch (count - batch) node_type;
           Ok (mkJob config (Z.min count batch) node_type :: js)
       end.

Definition launch_new_node (count : Z) (node_type : string) : AST unit :=
  _ ← on_events (EventSummarizer.add ("Adding {} nodes of type " +:+ node_type +:+ ".") count Z.add);
  _ ← st_modify (fun s => set_launches (launch_queue s) (dincr node_type count (pending_launches s)) s);
  s ← st_get;
  js ← st_lift (queue_batches (Z.to_nat count) (config s) (max_launch_batch s) count node_type);
  st_modify (fun s => set_launches (launch_queue s ++ js) (pending_launches s) s).

Definition launch_required_nodes (to_launch : dict string Z) : AST unit :=
  match to_launch with
  | [] => mret tt
  | _ :: _ =>
      _ ← st_for to_launch (fun tc => launch_new_node tc.2 tc.1);
      update_worker_list
  end.

(** *** Heartbeats and updaters *)

Definition files_up_to_date (s : StandardAutoscaler) (node_id : NodeID) : result bool :=
  tags ← node_tags (provider s) node_id;
  let applied_config_hash := dget TAG_RAY_RUNTIME_CONFIG tags in
  let applied_contents_hash := dget TAG_RAY_FILE_MOUNTS_CONTENTS tags in
  Ok (bool_decide (applied_config_hash = Some (runtime_hash s)) &&
      match file_mounts_contents_hash s with
      | None => true
      | Some h => bool_decide (Some h = applied_contents_hash)
      end).

Definition heartbeat_on_time (s : StandardAutoscaler) (node_id : NodeID) (now : Q) : result bool :=
  key ← internal_ip (provider s) node_id;
  Ok (match dget key (LoadMetrics.last_heartbeat_time_by_ip (load_metrics s)) with
      | Some t => Qlt_bool (now - t) AUTOSCALER_HEARTBEAT_TIMEOUT_S
      | None => false
      end).

Definition can_update (s : StandardAutoscaler) (node_id : NodeID) : result bool :=
  if disable_node_updaters s then Ok false
  else if dmem node_id (updaters s) then Ok false
  else
    ok ← launch_config_ok s node_id;
    if negb ok then Ok false
    else Ok (negb (0 <? dget_or node_id 0 (num_failed_updates s))%Z).

(** [_node_resources(node_id)] *)
Definition _node_resources (s : StandardAutoscaler) (node_id : NodeID) : result ResourceDict :=
  tags ← node_tags (provider s) node_id;
  Ok (match dget TAG_RAY_USER_NODE_TYPE tags with
      | Some t => match dget t (available_node_types s) with
                  | Some c => default [] (ntc_resources c)
                  | None => []
                  end
      | None => []
      end).

(** [_get_node_type_specific_fields(node_id, key)], with the config's own
    value of the field *)
Definition _get_node_type_specific_fields (s : StandardAutoscaler) (node_id : NodeID) (fields_key : string)
    (fields : yaml) : result yaml :=
  tags ← node_tags (provider s) node_id;
  match dget TAG_RAY_USER_NODE_TYPE tags with
  | None => Ok fields
  | Some node_type =>
      match dget node_type (available_node_types s) with
      | None => Err ValueError
      | Some c => Ok (dget_or fields_key fields (ntc_other c))
      end
  end.

Definition specific_commands (s : StandardAutoscaler) (node_id : NodeID) (fields_key : string)
    (cmds : list string) : result (list string) :=
  y ← _get_node_type_specific_fields s node_id fields_key (YList (map YStr cmds));
  yaml_strings y.

Definition _get_node_specific_docker_config (s : StandardAutoscaler) (node_id : NodeID)
    : result (dict string yaml) :=
  match cc_docker (config s) with
  | None => Ok []
  | Some docker =>
      y ← _get_node_type_specific_fields s node_id "docker" (YDict docker);
      update_launch_config docker y
  end.

Definition should_update (s : StandardAutoscaler) (node_id : NodeID) : result (option UpdateInstructions) :=
  can ← can_update s node_id;
  if negb can then Ok None
  else
    tags ← node_tags (provider s) node_id;
    up_to_date ← (if bool_decide (dget TAG_RAY_NODE_STATUS tags = Some STATUS_UP_TO_DATE)
                  then files_up_to_date s node_id else Ok false);
    if up_to_date : bool then Ok None
    else
      let successful_updated := (0 <? dget_or node_id 0 (num_successful_updates s))%Z in
      let c := config s in
      '(setup, start) ←
        (if successful_updated && cc_restart_only c then Ok ([], cc_worker_start_ray_commands c)
         else if successful_updated && cc_no_restart c then
           setup ← specific_commands s node_id "worker_setup_commands" (cc_worker_setup_commands c);
           Ok (setup, [])
         else
           setup ← specific_commands s node_id "worker_setup_commands" (cc_worker_setup_commands c);
           Ok (setup, cc_worker_start_ray_commands c));
      docker ← _get_node_specific_docker_config s node_id;
      Ok (Some (mkInstructions node_id setup start docker)).

Definition add_updater (node_id : NodeID) (u : Updater) : AST unit :=
  st_modify (fun s => set_updaters (dset node_id u (updaters s)) (num_failed_updates s)
                        (num_successful_updates s) s).

Definition spawn_updater (node_id : NodeID) (setup_commands ray_start_commands : list string)
    (node_resources : ResourceDict) (docker_config : dict string yaml) : AST unit :=
  s ← st_get;
  ip ← st_lift (internal_ip (provider s) node_id);
  node_type ← st_lift (_get_node_type s node_id);
  _ ← on_tracker (NodeTracker.track node_id ip node_type);
  init ← st_lift (specific_commands s node_id "initialization_commands" (cc_initialization_commands (config s)));
  add_updater node_id
    (mkUpdater (with_head_node_ip init (head_node_ip s)) (with_head_node_ip setup_commands (head_node_ip s))
       (with_head_node_ip ray_start_commands (head_node_ip s)) docker_config node_resources false None).

(** [update_nodes]: the instructions are computed for all workers before the
    first thread starts; an exception in a thread ends that thread only. *)
Definition update_nodes : AST unit :=
  s ← st_get;
  todo ← st_lift (mapM_r (fun node_id =>
           ui ← should_update s node_id;
           match ui with
           | None => Ok None
           | Some i => r ← _node_resources s (ui_node_id i); Ok (Some (i, r))
           end) (workers s));
  st_for (omap id todo) (fun ir =>
    let '(i, r) := ir in
    st_try (spawn_updater (ui_node_id i) (ui_setup_commands i) (ui_ray_start_commands i) r (ui_docker_config i))
      (fun _ => true) (fun _ => mret tt)).

(** One completed updater; the failed nodes are collected. *)
Definition complete_update (now : Q) (failed : list NodeID) (node_id : NodeID) : AST (list NodeID) :=
  s ← st_get;
  u ← st_lift (dgetitem node_id (updaters s));
  failed' ← (if bool_decide (up_exitcode u = Some 0%Z) then
               _ ← st_modify (fun s => set_updaters (updaters s) (num_failed_updates s)
                                          (dincr node_id 1 (num_successful_updates s)) s);
               ip ← st_lift (internal_ip (provider s) node_id);
               _ ← on_metrics (LoadMetrics.mark_active now (Some ip));
               mret failed
             else
               _ ← st_modify (fun s => set_updaters (updaters s) (dincr node_id 1 (num_failed_updates s))
                                          (num_successful_updates s) s);
               _ ← on_tracker (NodeTracker.untrack node_id);
               mret (failed ++ [node_id]));
  s ← st_get;
  us ← st_lift (ddelitem node_id (updaters s));
  _ ← st_modify (fun s => set_updaters us (num_failed_updates s) (num_successful_updates s) s);
  mret failed'.

Definition process_completed_updates (now : Q) : AST unit :=
  s ← st_get;
  let completed := dkeys (filter (fun nu => up_exitcode nu.2 <> None) (updaters s)) in
  match completed with
  | [] => mret tt
  | _ :: _ =>
      failed ← st_fold (complete_update now) [] completed;
      match failed with
      | [] => mret tt
      | _ :: _ =>
          _ ← update_worker_list;
          _ ← st_for failed (fun node_id =>
                s ← st_get;
                if bool_decide (node_id ∈ workers s)
                then schedule_node_termination node_id (Some "launch failed")
                else mret tt);
          terminate_scheduled_nodes
      end
  end.

(** One worker of [terminate_unhealthy_nodes] *)
Definition check_health (now : Q) (node_id : NodeID) : AST unit :=
  s ← st_get;
  node_status ← st_lift (tags ← node_tags (provider s) node_id; dgetitem TAG_RAY_NODE_STATUS tags);
  if negb (bool_decide (node_status = STATUS_UP_TO_DATE)) then mret tt
  else
    ip ← st_lift (internal_ip (provider s) node_id);
    _ ← (if dmem ip (LoadMetrics.last_heartbeat_time_by_ip (load_metrics s)) then mret tt
         else on_metrics (LoadMetrics.mark_active now (Some ip)));
    s ← st_get;
    on_time ← st_lift (heartbeat_on_time s node_id now);
    if on_time : bool then mret tt
    else schedule_node_termination node_id (Some "lost contact with raylet").

Definition terminate_unhealthy_nodes (now : Q) : AST unit :=
  s ← st_get;
  _ ← st_for (workers s) (check_health now);
  terminate_scheduled_nodes.

Definition recover_if_needed (now : Q) (node_id : NodeID) : AST unit :=
  s ← st_get;
  can ← st_lift (can_update s node_id);
  if negb can then mret tt
  else
    on_time ← st_lift (heartbeat_on_time s node_id now);
    if on_time : bool then mret tt
    else
      node_type ← st_lift (_get_node_type s node_id);
      _ ← on_events (EventSummarizer.add
            ("Restarting {} nodes of type " +:+ node_type +:+ " (lost contact with raylet).") 1 Z.add);
      resources ← st_lift (_node_resources s node_id);
      add_updater node_id
        (mkUpdater [] [] (with_head_node_ip (cc_worker_start_ray_commands (config s)) (head_node_ip s))
           (default [] (cc_docker (config s))) resources true None).

Definition attempt_to_recover_unhealthy_nodes (now : Q) : AST unit :=
  s ← st_get;
  st_for (workers s) (recover_if_needed now).

(** *** Reports *)

(** ["_group_" in k] *)
Definition is_group_resource (k : string) : bool :=
  match String.index 0 "_group_" k with Some _ => true | None => bool_decide (k = "bundle") end.

(** The demands that no launch can fulfil, as [(pending, infeasible)] *)
Definition classify_unfulfilled (s : StandardAutoscaler) (unfulfilled : list ResourceDict)
    : result (list ResourceDict * list ResourceDict) :=
  foldM (fun acc bundle =>
    let '(pending, infeasible) := acc in
    if existsb is_group_resource (dkeys bundle) then Ok acc
    else feasible ← is_feasible (scheduler_now s) bundle;
         Ok (if feasible : bool then (pending ++ [bundle], infeasible) else (pending, infeasible ++ [bundle])))
    ([], []) unfulfilled.

Definition _report_pending_infeasible (now : Q) (unfulfilled : list ResourceDict) : AST unit :=
  s ← st_get;
  '(pending, infeasible) ← st_lift (classify_unfulfilled s unfulfilled);
  _ ← (if LoadMetrics.cluster_full_of_actors_detected (load_metrics s)
       then st_for pending (fun request => on_events (EventSummarizer.add_once_per_interval now
              ("Warning: The following resource request cannot be scheduled right now: " +:+ repr_dict request +:+
               ". This is likely due to all cluster resources being claimed by actors. Consider creating fewer actors or adding more nodes to this Ray cluster.")
              ("pending_" +:+ repr_items (sorted_items request)) 30))
       else mret tt);
  st_for infeasible (fun request => on_events (EventSummarizer.add_once_per_interval now
    ("Error: No available node types can fulfill resource request " +:+ repr_dict request +:+
     ". Add suitable node types to this cluster to resolve this issue.")
    ("infeasible_" +:+ repr_items (sorted_items request)) 30)).

(** One node of [summary], on [(active_nodes, pending_nodes, non_failed)] *)
Definition summarize_node (s : StandardAutoscaler)
    (acc : dict string Z * list (NodeIP * string * string) * list NodeID) (node_id : NodeID)
    : result (dict string Z * list (NodeIP * string * string) * list NodeID) :=
  let '(active, pending, non_failed) := acc in
  ip ← internal_ip (provider s) node_id;
  tags ← node_tags (provider s) node_id;
  match dget TAG_RAY_NODE_KIND tags, dget TAG_RAY_USER_NODE_TYPE tags, dget TAG_RAY_NODE_STATUS tags with
  | Some kind, Some node_type, Some status =>
      if bool_decide (kind = NODE_KIND_UNMANAGED) then Ok acc
      else if LoadMetrics.is_active (load_metrics s) ip
      then Ok (dincr node_type 1 active, pending, non_failed ++ [node_id])
      else if bool_decide (status ∈ [STATUS_UP_TO_DATE; STATUS_UPDATE_FAILED]) then Ok acc
      else Ok (active, pending ++ [(ip, node_type, status)], non_failed ++ [node_id])
  | _, _, _ => Ok acc
  end.

Definition summary (s : StandardAutoscaler) : result AutoscalerSummary :=
  '(active, pending, non_failed) ←
    foldM (summarize_node s) ([], [], []) (non_terminated_nodes (provider s) []);
  failed ← NodeTracker.get_all_failed_node_info (node_tracker s) non_failed;
  Ok (mkSummary active pending
        (filter (fun tc => tc.2 <> 0%Z) (ConcurrentCounter.breakdown (pending_launches s))) failed).

(** [self.workers()] calls a list, which raises [TypeError] before anything
    is terminated. *)
Definition kill_workers : AST unit := st_raise TypeError.

(** *** The config *)

Definition upscaling_speed_of (c : ClusterConfig) : Q :=
  match cc_upscaling_speed c with
  | Some u => if Qeq_bool u 0 then
                if bool_decide (cc_autoscaling_mode c = Some "aggressive") then 99999
                else match cc_target_utilization_fraction c with
                     | Some f => if Qeq_bool f 0 then 1 else (1 / Qmax_py f (1 # 1000) - 1)%Q
                     | None => 1
                     end
              else u
  | None => if bool_decide (cc_autoscaling_mode c = Some "aggressive") then 99999
            else match cc_target_utilization_fraction c with
                 | Some f => if Qeq_bool f 0 then 1 else (1 / Qmax_py f (1 # 1000) - 1)%Q
                 | None => 1
                 end
  end.

(** [reset(errors_fatal)] once the provider exists; [new_config] is what
    [config_reader] returns or raises. A failed validation is only logged. *)
Definition reset (errors_fatal : bool) (new_config : result ClusterConfig) : AST unit :=
  st_try
    (s ← st_get;
     let sync_continuously := cc_file_mounts_sync_continuously (config s) in
     c ← st_lift new_config;
     '(hash, contents) ← st_lift (hash_runtime_conf c sync_continuously);
     _ ← st_modify (set_config c hash contents);
     nts ← st_lift (cc_node_types c);
     _ ← st_modify (set_available nts);
     max_workers ← st_lift (cc_workers_limit c);
     head_type ← st_lift (cc_head_type c);
     s ← st_get;
     st_zoom scheduler_now set_scheduler
       (reset_config (provider s) nts max_workers head_type (upscaling_speed_of c)))
    (fun _ => negb errors_fatal) (fun _ => mret tt).

(** [config["provider"].get(key, False)] as a truth value *)
Definition provider_flag (c : ClusterConfig) (key : string) : bool :=
  match dget key (cc_provider c) with
  | Some (YBool b) => b
  | Some (YNull) | None => false
  | Some (YNum q) => negb (Qeq_bool q 0)
  | Some (YStr v) => negb (bool_decide (v = ""))
  | Some (YList l) => match l with [] => false | _ => true end
  | Some (YDict d) => match d with [] => false | _ => true end
  end.

(** [math.ceil(max_concurrent_launches / max_launch_batch)] launcher threads
    are started. *)
Definition num_launchers (max_concurrent_launches max_launch_batch : Z) : Z :=
  (- ((- max_concurrent_launches) / max_launch_batch))%Z.

(** [__init__], with the provider that [_get_node_provider] returns; [reset]
    runs with [errors_fatal=True] and creates the scheduler. *)
Definition __init__ (p : P) (new_config : result ClusterConfig) (lm : LoadMetrics.LoadMetrics)
    (failures batch : Z) (interval : Q) : result StandardAutoscaler :=
  c ← new_config;
  '(hash, contents) ← hash_runtime_conf c false;
  nts ← cc_node_types c;
  max_workers ← cc_workers_limit c;
  head_type ← cc_head_type c;
  d ← DemandScheduler.__init__ p nts max_workers head_type (upscaling_speed_of c);
  let mounts := map (fun rl => (rl.1, expanduser rl.2)) (cc_file_mounts c) in
  _ ← py_assert (forallb path_exists (dvalues mounts));
  Ok (mkAutoscaler p (set_file_mounts mounts c) nts d lm EventSummarizer.__init__ [] [] [] 0 0 [] [] []
        ConcurrentCounter.__init__ NodeTracker.__init__ hash contents [] (LoadMetrics.local_ip lm) failures
        batch interval (provider_flag c "disable_node_updaters") (provider_flag c "disable_launch_config_check")).

(** *** The control loop *)

Definition _update (now : Q) : AST unit :=
  s ← st_get;
  if Qlt_bool (now - last_update_time s) (update_interval_s s) then mret tt
  else
    _ ← st_modify (fun s => set_progress (num_failures s) now s);
    _ ← update_worker_list;
    s ← st_get;
    ips ← st_lift (mapM_r (internal_ip (provider s)) (all_workers s));
    _ ← on_metrics (LoadMetrics.prune_active_ips ips);
    _ ← (if is_readonly (provider s) then mret tt
         else terminate_nodes_to_enforce_config_constraints now);
    s ← st_get;
    let lm := load_metrics s in
    '(to_launch, unfulfilled) ← st_zoom scheduler_now set_scheduler
      (get_nodes_to_launch conserve_gpu_nodes (non_terminated_nodes (provider s) [])
         (ConcurrentCounter.breakdown (pending_launches s))
         (LoadMetrics.get_resource_demand_vector true lm) (LoadMetrics.get_resource_utilization lm)
         (LoadMetrics.get_pending_placement_groups lm) (LoadMetrics.get_static_node_resources_by_ip lm)
         (LoadMetrics.get_resource_requests lm));
    _ ← _report_pending_infeasible now unfulfilled;
    s ← st_get;
    _ ← (if is_readonly (provider s) then mret tt
         else
           _ ← launch_required_nodes to_launch;
           if disable_node_updaters s then terminate_unhealthy_nodes now
           else
             _ ← process_completed_updates now;
             _ ← update_nodes;
             attempt_to_recover_unhealthy_nodes now);
    s ← st_get;
    _ ← st_lift (LoadMetrics.summary (load_metrics s));
    _ ← st_lift (summary s);
    mret tt.

Definition is_k8s_connection_error (s : StandardAutoscaler) (e : exn) : result bool :=
  y ← dgetitem "type" (cc_provider (config s));
  Ok (match y, e with YStr "kubernetes", MaxRetryError => true | _, _ => false end).

Definition update (now : Q) (new_config : result ClusterConfig) : AST unit :=
  st_try
    (_ ← reset false new_config; _update now)
    (fun _ => true)
    (fun e =>
       s ← st_get;
       is_k8s ← st_lift (is_k8s_connection_error s e);
       _ ← (if is_k8s : bool then mret tt
            else st_modify (fun s => set_progress (num_failures s + 1)%Z (last_update_time s) s));
       s ← st_get;
       if (max_failures s <? num_failures s)%Z then st_raise e else mret tt).

End Autoscaler.

Arguments StandardAutoscaler P : clear implicits.

End StandardAutoscaler.
