(* ===== verification/AutoscalerProps.v ===== *)
(** Properties of [StandardAutoscaler]: which nodes the config constraints
    terminate, how launches are queued, when an update fails, and which nodes
    count as unhealthy. *)

From Stdlib Require Import ZArith QArith Lqa Lia.
From stdpp Require Import base list strings option pretty.
From S2P Require Import Prelude PyDict Resources NodeTypes BinPacking NodesFor NodeProvider DemandScheduler.
From S2P Require Import LoadMetrics NodeTracker EventSummarizer ClusterConfig NodeLauncher Autoscaler.
Import StandardAutoscaler.

(** ** Launch requests *)

Section Launches.

Lemma queue_batches_ok fuel c batch count t :
  (0 < batch)%Z -> (Z.to_nat count <= fuel)%nat ->
  exists js, queue_batches fuel c batch count t = Ok js /\
    Zsum (map job_count js) = Z.max 0 count /\
    Forall (fun j => job_config j = c /\ job_type j = t /\ (0 < job_count j <= batch)%Z) js.
Proof.
  intros Hb. revert count. induction fuel as [|fuel IH]; intros count Hf; cbn [queue_batches];
    destruct (Z.leb_spec count 0).
  - exists []. unfold Zsum; cbn. split_and!; [done | lia | constructor].
  - lia.
  - exists []. unfold Zsum; cbn. split_and!; [done | lia | constructor].
  - destruct (IH (count - batch)%Z) as (js & -> & Hs & HF); [lia|]. cbn. eexists. split; [done|].
    cbn [map]. rewrite Zsum_cons, Hs. cbn. split; [lia|]. constructor; [cbn; split_and!; [done..|lia|lia] | done].
Qed.

Context {P : Type} `{!NodeProvider P}.
Implicit Types (s : StandardAutoscaler P).

(** [launch_new_node] returns: it adds the count to the type's pending
    launches and queues requests of between one and [max_launch_batch] nodes
    with the current config, which add up to the count. *)
Theorem launch_new_node_queues_all s count t :
  (0 < max_launch_batch s)%Z -> (0 < count)%Z ->
  exists s' js, launch_new_node count t s = (s', Ok tt) /\
    launch_queue s' = launch_queue s ++ js /\
    Zsum (map job_count js) = count /\
    Forall (fun j => job_config j = config s /\ job_type j = t /\ (0 < job_count j <= max_launch_batch s)%Z) js /\
    dget_or t 0%Z (pending_launches s') = (dget_or t 0 (pending_launches s) + count)%Z /\
    provider s' = provider s.
Proof.
  intros Hb Hc. unfold launch_new_node, on_events. st_simpl.
  destruct (queue_batches_ok (Z.to_nat count) (config s) (max_launch_batch s) count t Hb ltac:(lia))
    as (js & E & Hs & HF). cbn. rewrite E. cbn. eexists _, js. split; [done|]. cbn.
  split_and!; [done | lia | done | | done]. rewrite dget_or_dincr, decide_True by done. done.
Qed.

End Launches.

(** ** Failures of an update *)

Section Failures.
Context {P : Type} `{!NodeProvider P}.
Variable conserve_gpu_nodes : bool.
Variable hash_launch_conf : yaml -> yaml -> string.
Variable hash_runtime_conf : ClusterConfig -> bool -> result (string * option string).
Variable repr_dict : ResourceDict -> string.
Variable repr_items : list (string * Q) -> string.
Implicit Types (s : StandardAutoscaler P).

(** The failure count and its limit *)
Definition failures s : Z * Z := (num_failures s, max_failures s).

Abbreviation keeps m := (st_preserves failures m).

Lemma keeps_events e : keeps (on_events e).
Proof. unfold on_events. preserves_tac. Qed.
Lemma keeps_provider {A} (m : ST P A) : keeps (on_provider m).
Proof. unfold on_provider. preserves_tac. Qed.
Lemma keeps_metrics {A} (m : ST LoadMetrics.LoadMetrics A) : keeps (on_metrics m).
Proof. unfold on_metrics. preserves_tac. Qed.
Lemma keeps_tracker {A} (m : ST NodeTracker.NodeTracker A) : keeps (on_tracker m).
Proof. unfold on_tracker. preserves_tac. Qed.
#[local] Hint Resolve keeps_events keeps_provider keeps_metrics keeps_tracker : preserves.

Lemma keeps_worker_list : keeps update_worker_list.
Proof. unfold update_worker_list. preserves_tac. Qed.
Lemma keeps_schedule n r : keeps (schedule_node_termination n r).
Proof. unfold schedule_node_termination. preserves_tac. Qed.
Lemma keeps_drain l : keeps (drain_nodes_via_gcs l).
Proof. unfold drain_nodes_via_gcs. preserves_tac. Qed.
#[local] Hint Resolve keeps_worker_list keeps_schedule keeps_drain : preserves.

Lemma keeps_terminate_scheduled : keeps terminate_scheduled_nodes.
Proof. unfold terminate_scheduled_nodes. preserves_tac. Qed.
#[local] Hint Resolve keeps_terminate_scheduled : preserves.

Lemma keeps_enforce now : keeps (terminate_nodes_to_enforce_config_constraints hash_launch_conf now).
Proof. unfold terminate_nodes_to_enforce_config_constraints, enforce_one, terminate_or_offer. preserves_tac. Qed.
Lemma keeps_launch to_launch : keeps (launch_required_nodes to_launch).
Proof. unfold launch_required_nodes, launch_new_node. preserves_tac. Qed.
Lemma keeps_update_nodes : keeps (update_nodes hash_launch_conf).
Proof. unfold update_nodes, spawn_updater, add_updater. preserves_tac. Qed.
Lemma keeps_completed now : keeps (process_completed_updates now).
Proof. unfold process_completed_updates, complete_update. preserves_tac. Qed.
Lemma keeps_unhealthy now : keeps (terminate_unhealthy_nodes now).
Proof. unfold terminate_unhealthy_nodes, check_health. preserves_tac. Qed.
Lemma keeps_recover now : keeps (attempt_to_recover_unhealthy_nodes hash_launch_conf now).
Proof. unfold attempt_to_recover_unhealthy_nodes, recover_if_needed, add_updater. preserves_tac. Qed.
Lemma keeps_report now u : keeps (_report_pending_infeasible repr_dict repr_items now u).
Proof. unfold _report_pending_infeasible. preserves_tac. Qed.
#[local] Hint Resolve keeps_enforce keeps_launch keeps_update_nodes keeps_completed keeps_unhealthy
  keeps_recover keeps_report : preserves.

Lemma keeps__update now :
  keeps (_update conserve_gpu_nodes hash_launch_conf repr_dict repr_items now).
Proof. unfold _update. preserves_tac. Qed.
Lemma keeps_reset fatal nc : keeps (reset hash_runtime_conf fatal nc).
Proof. unfold reset. preserves_tac. Qed.

(** An update never stops the autoscaler before its failures exceed the
    limit: whatever the config reader, the provider or the scheduler raise,
    [update] adds at most one to [num_failures], and it raises only when
    [num_failures] is then above [max_failures]. *)
Theorem update_failure_budget s now new_config s' r :
  update conserve_gpu_nodes hash_launch_conf hash_runtime_conf repr_dict repr_items now new_config s = (s', r) ->
  dmem "type" (cc_provider (config s')) = true ->
  max_failures s' = max_failures s /\
  (num_failures s <= num_failures s' <= num_failures s + 1)%Z /\
  match r with
  | Ok _ => (num_failures s' = num_failures s \/ num_failures s' <= max_failures s)%Z
  | Err _ => (max_failures s < num_failures s')%Z
  end.
Proof.
  unfold update. intros H Ht. unfold st_try in H.
  match type of H with context [match ?m s with _ => _ end] => set (body := m) in H end.
  assert (Hk : keeps body).
  { apply preserves_bind; [apply keeps_reset | intros ?; apply keeps__update]. }
  specialize (Hk s). destruct (body s) as [s1 [u|e]]; cbn in Hk.
  { injection H as <- <-. injection Hk as -> ->. split_and!; [done | lia | lia | by left]. }
  injection Hk as Hn Hm. st_simpl in H.
  assert (Hc : config s' = config s1).
  { destruct (is_k8s_connection_error s1 e) as [[]|]; cbn in H; try (destruct (_ <? _)%Z);
      by injection H as <- <-. }
  unfold is_k8s_connection_error, dgetitem in H. rewrite Hc in Ht. unfold dmem in Ht.
  destruct (dget "type" (cc_provider (config s1))) as [y|]; [|done]. cbn in H.
  match type of H with context [if ?b then _ else _] => destruct b end; cbn in H.
  - destruct (Z.ltb_spec (max_failures s1) (num_failures s1)); injection H as <- <-; cbn; lia.
  - destruct (Z.ltb_spec (max_failures s1) (num_failures s1 + 1)); injection H as <- <-; cbn; lia.
Qed.

End Failures.

(** ** The config constraints *)

Section Enforce.
Context {P : Type} `{!NodeProvider P}.
Variable hash_launch_conf : yaml -> yaml -> string.
Implicit Types (s : StandardAutoscaler P).

Abbreviation config_ok s n := (launch_config_ok hash_launch_conf s n).

(** The state after some events and with [l] scheduled for termination *)
Definition evolve (e : EventSummarizer.EventSummarizer) (l : list NodeID) s : StandardAutoscaler P :=
  set_workers (workers s) (nodes_to_terminate s ++ l) (set_events e s).

Lemma evolve_evolve e1 l1 e2 l2 s : evolve e2 l2 (evolve e1 l1 s) = evolve e2 (l1 ++ l2) s.
Proof. unfold evolve, set_workers, set_events. cbn. by rewrite app_assoc. Qed.

Lemma evolve_nil s : evolve (event_summarizer s) [] s = s.
Proof. destruct s. unfold evolve, set_workers, set_events. cbn. by rewrite app_nil_r. Qed.

Lemma schedule_evolves n reason s s' u :
  schedule_node_termination n (Some reason) s = (s', Ok u) -> exists e, s' = evolve e [n] s.
Proof.
  unfold schedule_node_termination, on_events. st_simpl. intros H.
  destruct (internal_ip (provider s) n); [|done]. destruct (_get_node_type s n); [|done].
  injection H as <- _. eexists. reflexivity.
Qed.

Definition node_type_of s (n : NodeID) : option string :=
  match node_tags (provider s) n with Ok tags => dget TAG_RAY_USER_NODE_TYPE tags | Err _ => None end.

Definition count_type s (t : string) (l : list NodeID) : Z :=
  Z.of_nat (length (filter (fun n => node_type_of s n = Some t) l)).

Lemma count_type_app s t l1 l2 : count_type s t (l1 ++ l2) = (count_type s t l1 + count_type s t l2)%Z.
Proof. unfold count_type. rewrite filter_app, length_app. lia. Qed.

Lemma count_type_one s t n : count_type s t [n] = (if decide (node_type_of s n = Some t) then 1 else 0)%Z.
Proof. unfold count_type. rewrite filter_cons. by case_decide. Qed.

Lemma count_type_perm s t l1 l2 : l1 ≡ₚ l2 -> count_type s t l1 = count_type s t l2.
Proof. intros H. unfold count_type. by rewrite H. Qed.

(** Why a node is terminated: its type is gone, [kept] already has
    [max_workers] nodes of its type, it is idle since before the horizon, or
    it was launched with another config. *)
Definition justified s (last_used : dict NodeIP Q) (horizon : Q) (kept : list NodeID) (n : NodeID) : Prop :=
  (exists t, node_type_of s n = Some t /\ dget t (available_node_types s) = None) \/
  (exists t c, node_type_of s n = Some t /\ dget t (available_node_types s) = Some c /\
     (cfg_max_workers c <= count_type s t kept)%Z) \/
  (exists ip t, internal_ip (provider s) n = Ok ip /\ dget ip last_used = Some t /\ (t < horizon)%Q) \/
  config_ok s n = Ok false.

(** Why a node is not offered for termination: it is one of the first
    [min_workers] of its type, or [request_resources] needs it; and it has
    the current config. *)
Definition protected s (not_allowed : list NodeID) (n : NodeID) : Prop :=
  config_ok s n = Ok true /\
  (n ∈ not_allowed \/
   exists t c, node_type_of s n = Some t /\ dget t (available_node_types s) = Some c /\ (0 < cfg_min_workers c)%Z).

(** The type of [n] is gone from the config, or [kept] has [max_workers] of it. *)
Definition gone_or_full s (kept : list NodeID) (n : NodeID) : Prop :=
  exists t, node_type_of s n = Some t /\
    (dget t (available_node_types s) = None \/
     exists c, dget t (available_node_types s) = Some c /\ (cfg_max_workers c <= count_type s t kept)%Z).

(** The number of nodes that [min_workers] protects *)
Definition min_kept (c : NodeTypeConfig) : Z := Z.min (cfg_min_workers c) (cfg_max_workers c).

(** [kept] has the [min_workers] of the type of [n]. *)
Definition surplus s (kept : list NodeID) (n : NodeID) : Prop :=
  forall t c, node_type_of s n = Some t -> dget t (available_node_types s) = Some c ->
    (min_kept c <= count_type s t kept)%Z.

(** The nodes of a type that are kept, those for [request_resources] apart *)
Definition count_others s (t : string) (not_allowed l : list NodeID) : Z :=
  count_type s t (filter (fun n => n ∉ not_allowed) l).

(** The loop's invariant *)
Record enforced s last_used horizon not_allowed (done : list NodeID) (counts : dict string Z)
    (could sched kept : list NodeID) : Prop := mkEnforced {
  en_split : done ≡ₚ sched ++ could ++ kept;
  en_counts : forall t, dget_or t 0%Z counts = count_type s t (could ++ kept);
  en_limit : forall t c, dget t (available_node_types s) = Some c ->
    (count_type s t (could ++ kept) <= Z.max 0 (cfg_max_workers c))%Z;
  en_just : forall n, n ∈ sched -> justified s last_used horizon (could ++ kept) n;
  en_prot : Forall (protected s not_allowed) kept;
  en_could : forall n, n ∈ could -> config_ok s n = Ok true /\ n ∉ not_allowed;
  en_surplus : forall n, n ∈ sched ++ could -> config_ok s n = Ok true -> surplus s kept n;
  en_needed : forall n, n ∈ sched -> n ∈ not_allowed -> config_ok s n = Ok true -> gone_or_full s (could ++ kept) n;
  en_first : forall t c, dget t (available_node_types s) = Some c ->
    (count_others s t not_allowed kept <= Z.max 0 (min_kept c))%Z
}.

Lemma justified_mono s last_used horizon l l' n :
  (forall t, count_type s t l <= count_type s t l')%Z ->
  justified s last_used horizon l n -> justified s last_used horizon l' n.
Proof.
  intros Hle [H|[(t & c & Ht & Hc & Hm)|H]]; [by left | | by right; right].
  right; left. exists t, c. specialize (Hle t). split_and!; [done..|lia].
Qed.

Lemma count_type_le_app s t l l' : (count_type s t l <= count_type s t (l ++ l'))%Z.
Proof. rewrite count_type_app. unfold count_type. lia. Qed.

Lemma gone_or_full_mono s l l' n :
  (forall t, count_type s t l <= count_type s t l')%Z -> gone_or_full s l n -> gone_or_full s l' n.
Proof.
  intros Hle (t & Ht & [Hc|(c & Hc & Hm)]); exists t; (split; [done|]); [by left | right].
  exists c. specialize (Hle t). split; [done | lia].
Qed.

Lemma surplus_mono s l l' n :
  (forall t, count_type s t l <= count_type s t l')%Z -> surplus s l n -> surplus s l' n.
Proof. intros Hle Hs t c Ht Hc. specialize (Hs t c Ht Hc). specialize (Hle t). lia. Qed.

Lemma count_others_le s t na l : (count_others s t na l <= count_type s t l)%Z.
Proof.
  unfold count_others, count_type. induction l as [|n l IH]; [done|].
  rewrite !filter_cons. repeat (case_decide; rewrite ?filter_cons; cbn [length]); lia || done.
Qed.

Lemma count_others_snoc s t na l n : count_others s t na (l ++ [n]) =
  (count_others s t na l + if decide (n ∉ na /\ node_type_of s n = Some t) then 1 else 0)%Z.
Proof.
  unfold count_others. rewrite filter_app, count_type_app. f_equal. rewrite filter_cons, filter_nil.
  destruct (decide (n ∉ na)); [rewrite count_type_one | cbn]; repeat case_decide; naive_solver.
Qed.

(** When the nodes to keep or to offer reach the type's [min_workers], those to keep do. *)
Lemma enforced_surplus s lu h na dn counts could sched kept n :
  enforced s lu h na dn counts could sched kept -> surplus s (could ++ kept) n -> surplus s kept n.
Proof.
  intros Hen Hs t c Ht Hc. specialize (Hs t c Ht Hc). rewrite count_type_app in Hs.
  destruct (filter (fun m => node_type_of s m = Some t) could) as [|x l] eqn:Ef.
  { unfold count_type in Hs at 1. rewrite Ef in Hs. cbn in Hs. lia. }
  assert (x ∈ filter (fun m => node_type_of s m = Some t) could) as Hx by (rewrite Ef; left).
  apply list_elem_of_filter in Hx as [Hxt Hx].
  apply (en_surplus _ _ _ _ _ _ _ _ _ Hen x) with (t := t); [apply elem_of_app; by right | | done | done].
  by apply (en_could _ _ _ _ _ _ _ _ _ Hen).
Qed.

(** Terminating, keeping or offering the next node keeps the invariant. *)
Lemma enforced_sched s lu h na dn counts could sched kept n :
  enforced s lu h na dn counts could sched kept -> justified s lu h (could ++ kept) n ->
  (config_ok s n = Ok true -> surplus s (could ++ kept) n) ->
  (n ∈ na -> config_ok s n = Ok true -> gone_or_full s (could ++ kept) n) ->
  enforced s lu h na (dn ++ [n]) counts could (sched ++ [n]) kept.
Proof.
  intros Hen Hn Hs Hg. pose proof Hen as [A B C D E F G H I]. split; try done.
  - rewrite A, <- !app_assoc. apply Permutation_app_head. rewrite app_assoc. apply Permutation_app_comm.
  - intros m [Hm|Hm]%elem_of_app; [by apply D|]. by apply list_elem_of_singleton in Hm as ->.
  - intros m [[Hm|Hm]%elem_of_app|Hm]%elem_of_app; [apply G; apply elem_of_app; by left | | apply G; apply elem_of_app; by right].
    apply list_elem_of_singleton in Hm as ->. intros Hok. by eapply enforced_surplus; [|apply Hs].
  - intros m [Hm|Hm]%elem_of_app; [by apply H|]. by apply list_elem_of_singleton in Hm as ->.
Qed.

(** The count of a type after one more node, as [keep_node] computes it *)
Lemma kept_counts s counts l n counts' :
  (forall t, dget_or t 0%Z counts = count_type s t l) -> keep_node s counts n = Ok counts' ->
  forall t, dget_or t 0%Z counts' = count_type s t (l ++ [n]).
Proof.
  intros B H t. unfold keep_node in H. rewrite count_type_app, count_type_one. unfold node_type_of.
  bind_inv H. injection H as <-. destruct (dget TAG_RAY_USER_NODE_TYPE a) as [u|].
  - rewrite dget_or_dincr, B. repeat case_decide; naive_solver lia.
  - rewrite B, decide_False by done. lia.
Qed.

(** Neither decision terminates a node that stays within its type's limit. *)
Lemma decision_within s n counts d reason :
  _keep_worker_of_node_type s n counts = Ok (d, reason) ->
  match d with
  | terminate => exists t, node_type_of s n = Some t /\ reason <> None /\
      (dget t (available_node_types s) = None \/
       exists c, dget t (available_node_types s) = Some c /\ (cfg_max_workers c <= dget_or t 0 counts)%Z)
  | keep => exists t c, node_type_of s n = Some t /\ dget t (available_node_types s) = Some c /\
      (dget_or t 0 counts + 1 <= min_kept c)%Z
  | decide_later => forall t c, node_type_of s n = Some t -> dget t (available_node_types s) = Some c ->
      (dget_or t 0 counts + 1 <= cfg_max_workers c /\ min_kept c <= dget_or t 0 counts)%Z
  end.
Proof.
  unfold _keep_worker_of_node_type, node_type_of. intros H. bind_inv H.
  destruct (dget TAG_RAY_USER_NODE_TYPE a) as [t|].
  2: { injection H as <- <-. by intros t c. }
  destruct (dget t (available_node_types s)) as [c|] eqn:Ec.
  2: { injection H as <- <-. exists t. split_and!; [done..|by left]. }
  destruct (Z.leb_spec (dget_or t 0%Z counts + 1) (Z.min (cfg_min_workers c) (cfg_max_workers c))).
  { injection H as <- <-. eauto. }
  destruct (Z.ltb_spec (cfg_max_workers c) (dget_or t 0%Z counts + 1)).
  - injection H as <- <-. exists t. split_and!; [done..|]. right. exists c. split; [done | lia].
  - injection H as <- <-. intros t' c' [= <-]. rewrite Ec. intros [= <-]. unfold min_kept. lia.
Qed.

(** A node that is kept leaves its type within its limit. *)
Lemma limit_kept s counts l n :
  (forall t, dget_or t 0%Z counts = count_type s t l) ->
  (forall t c, dget t (available_node_types s) = Some c -> (count_type s t l <= Z.max 0 (cfg_max_workers c))%Z) ->
  (forall t c, node_type_of s n = Some t -> dget t (available_node_types s) = Some c ->
     (dget_or t 0 counts + 1 <= cfg_max_workers c)%Z) ->
  forall t c, dget t (available_node_types s) = Some c -> (count_type s t (l ++ [n]) <= Z.max 0 (cfg_max_workers c))%Z.
Proof.
  intros B C Hn t c Hc. rewrite count_type_app, count_type_one. specialize (C t c Hc).
  case_decide as Ht; [|lia]. specialize (Hn t c Ht Hc). rewrite B in Hn. lia.
Qed.

Lemma enforced_keep s lu h na dn counts could sched kept n counts' :
  enforced s lu h na dn counts could sched kept -> keep_node s counts n = Ok counts' -> protected s na n ->
  (n ∈ na \/ forall t c, node_type_of s n = Some t -> dget t (available_node_types s) = Some c ->
     (dget_or t 0 counts + 1 <= min_kept c)%Z) ->
  (forall t c, node_type_of s n = Some t -> dget t (available_node_types s) = Some c ->
     (dget_or t 0 counts + 1 <= cfg_max_workers c)%Z) ->
  enforced s lu h na (dn ++ [n]) counts' could sched (kept ++ [n]).
Proof.
  intros [A B C D E F G H I] Hk Hp Hmin Hl.
  assert (forall t, count_type s t (could ++ kept) <= count_type s t (could ++ kept ++ [n]))%Z as Hle.
  { intros t. rewrite app_assoc. apply count_type_le_app. }
  split.
  - rewrite A, <- !app_assoc. done.
  - intros t. rewrite app_assoc. by apply (kept_counts s counts).
  - intros t c. rewrite app_assoc. by apply (limit_kept s counts).
  - intros m Hm. eapply justified_mono; [exact Hle | by apply D].
  - apply list.Forall_app. split; [done|]. by constructor.
  - done.
  - intros m Hm Hok. eapply surplus_mono; [|by apply G]. intros t. apply count_type_le_app.
  - intros m Hm Hna Hok. eapply gone_or_full_mono; [exact Hle | by apply H].
  - intros t c Hc. rewrite count_others_snoc. specialize (I t c Hc). case_decide as Hd; [|lia].
    destruct Hmin as [?|Hmin]; [tauto|]. specialize (Hmin t c (proj2 Hd) Hc). rewrite B, count_type_app in Hmin.
    pose proof (count_others_le s t na kept). unfold count_type at 1 in Hmin. lia.
Qed.

Lemma enforced_could s lu h na dn counts could sched kept n counts' :
  enforced s lu h na dn counts could sched kept -> keep_node s counts n = Ok counts' ->
  config_ok s n = Ok true -> n ∉ na -> surplus s (could ++ kept) n ->
  (forall t c, node_type_of s n = Some t -> dget t (available_node_types s) = Some c ->
     (dget_or t 0 counts + 1 <= cfg_max_workers c)%Z) ->
  enforced s lu h na (dn ++ [n]) counts' (could ++ [n]) sched kept.
Proof.
  intros Hen Hk Hok Hna Hs Hl. pose proof Hen as [A B C D E F G H I].
  assert (Hp : could ++ kept ++ [n] ≡ₚ (could ++ [n]) ++ kept).
  { rewrite <- app_assoc. apply Permutation_app_head, Permutation_app_comm. }
  assert (Hct : forall t, count_type s t ((could ++ [n]) ++ kept) = count_type s t ((could ++ kept) ++ [n])).
  { intros t. apply count_type_perm. by rewrite <- Hp, app_assoc. }
  split.
  - rewrite A, <- Hp, <- !app_assoc. done.
  - intros t. rewrite Hct. by apply (kept_counts s counts).
  - intros t c. rewrite Hct. by apply (limit_kept s counts).
  - intros m Hm. eapply justified_mono; [|by apply D]. intros t. rewrite Hct. apply count_type_le_app.
  - done.
  - intros m [Hm|Hm]%elem_of_app; [by apply F|]. by apply list_elem_of_singleton in Hm as ->.
  - intros m Hm Hokm. rewrite app_assoc in Hm. apply elem_of_app in Hm as [Hm|Hm]; [by apply G|].
    apply list_elem_of_singleton in Hm as ->. by eapply enforced_surplus.
  - intros m Hm Hnam Hokm. eapply gone_or_full_mono; [|by apply H]. intros t. rewrite Hct. apply count_type_le_app.
  - done.
Qed.

(** What a round leaves: the state only grows by scheduled nodes and events. *)
Definition round_done s0 lu h na dn n s1 counts' could' : Prop :=
  exists e' sched' kept', s1 = evolve e' sched' s0 /\
    enforced s0 lu h na (dn ++ [n]) counts' could' sched' kept'.

Lemma round_schedule s0 lu h na dn counts could sched kept n e reason s1 u :
  enforced s0 lu h na dn counts could sched kept -> justified s0 lu h (could ++ kept) n ->
  (config_ok s0 n = Ok true -> surplus s0 (could ++ kept) n) ->
  (n ∈ na -> config_ok s0 n = Ok true -> gone_or_full s0 (could ++ kept) n) ->
  schedule_node_termination n (Some reason) (evolve e sched s0) = (s1, Ok u) ->
  round_done s0 lu h na dn n s1 counts could.
Proof.
  intros Hen Hj Hsur Hneed Hs. apply schedule_evolves in Hs as [e' ->].
  exists e', (sched ++ [n]), kept. split; [apply evolve_evolve|]. by apply enforced_sched.
Qed.

Lemma round_offer s0 lu h na dn counts could sched kept n e s1 counts' could' :
  enforced s0 lu h na dn counts could sched kept ->
  (forall t c, node_type_of s0 n = Some t -> dget t (available_node_types s0) = Some c ->
     (dget_or t 0 counts + 1 <= cfg_max_workers c)%Z) ->
  (config_ok s0 n = Ok true -> n ∉ na /\ surplus s0 (could ++ kept) n) ->
  terminate_or_offer hash_launch_conf lu h (counts, could) n (evolve e sched s0) = (s1, Ok (counts', could')) ->
  round_done s0 lu h na dn n s1 counts' could'.
Proof.
  intros Hen Hl Hfree H. unfold terminate_or_offer in H. st_simpl in H. set (s := evolve e sched s0) in *.
  change (config_ok s n) with (config_ok s0 n) in H.
  change (keep_node s counts n) with (keep_node s0 counts n) in H.
  change (internal_ip (provider s) n) with (internal_ip (provider s0) n) in H.
  destruct (internal_ip (provider s0) n) as [ip|] eqn:Eip; [|done].
  destruct (match dget ip lu with Some t => Qlt_bool t h | None => false end) eqn:Eidle.
  - destruct (schedule_node_termination n (Some "idle") s) as [s2 [u|]] eqn:Es; [|done]. injection H as <- <- <-.
    eapply round_schedule; [exact Hen | | tauto | tauto | exact Es]. do 2 right. left.
    destruct (dget ip lu) as [t|] eqn:Et; [|done]. exists ip, t. split_and!; [done..|]. by apply Qlt_bool_iff.
  - destruct (config_ok s0 n) as [[]|] eqn:Eok; cbn [negb] in H; [| |done].
    + destruct (keep_node s0 counts n) as [c'|] eqn:Ek; [|done]. injection H as <- <- <-.
      exists e, sched, kept. split; [done|]. destruct (Hfree eq_refl). by apply (enforced_could _ _ _ _ _ counts).
    + destruct (schedule_node_termination n (Some "outdated") s) as [s2 [u|]] eqn:Es; [|done].
      injection H as <- <- <-. eapply round_schedule; [exact Hen | by do 3 right | by rewrite Eok | by rewrite Eok | exact Es].
Qed.

Lemma enforce_one_spec s0 lu h na dn counts could sched kept n e s1 counts' could' :
  enforced s0 lu h na dn counts could sched kept ->
  enforce_one hash_launch_conf lu h na (counts, could) n (evolve e sched s0) = (s1, Ok (counts', could')) ->
  round_done s0 lu h na dn n s1 counts' could'.
Proof.
  intros Hen H. pose proof (en_counts _ _ _ _ _ _ _ _ _ Hen) as B.
  unfold enforce_one in H. st_simpl in H. set (s := evolve e sched s0) in *.
  change (_keep_worker_of_node_type s n counts) with (_keep_worker_of_node_type s0 n counts) in H.
  change (config_ok s n) with (config_ok s0 n) in H.
  change (keep_node s counts n) with (keep_node s0 counts n) in H.
  destruct (_keep_worker_of_node_type s0 n counts) as [[d reason]|] eqn:Ed; [|done].
  pose proof (decision_within s0 n counts d reason Ed) as Hd.
  assert (Hnt : d <> terminate -> forall t c, node_type_of s0 n = Some t ->
    dget t (available_node_types s0) = Some c -> (dget_or t 0 counts + 1 <= cfg_max_workers c)%Z).
  { intros Hne t c Ht Hc. destruct d; [|done|by apply Hd]. destruct Hd as (t' & c' & Ht' & Hc' & Hle).
    rewrite Ht in Ht'. injection Ht' as <-. rewrite Hc in Hc'. injection Hc' as <-. unfold min_kept in Hle. lia. }
  assert (Hcont : forall b, (if b : bool then n ∈ na \/ d = keep else n ∉ na /\ d = decide_later) -> d <> terminate ->
    match (if b then (s, config_ok s0 n) else (s, Ok false)) with
    | (s', Ok kept) => (if kept : bool then fun s => match keep_node s0 counts n with
        | Ok c' => (s, Ok (c', could)) | Err e => (s, Err e) end
        else terminate_or_offer hash_launch_conf lu h (counts, could) n) s'
    | (s', Err e) => (s', Err e) end = (s1, Ok (counts', could')) ->
    round_done s0 lu h na dn n s1 counts' could').
  { intros b Hb Hne Hr. destruct b.
    2: { destruct Hb as [Hna ->]. eapply round_offer; [exact Hen | by apply Hnt | | exact Hr]. intros _. split; [done|].
         intros t c Ht Hc. rewrite <- B. by apply Hd. }
    destruct (config_ok s0 n) as [[]|] eqn:Eok; [| |done].
    - destruct (keep_node s0 counts n) as [c'|] eqn:Ek; [|done]. injection Hr as <- <- <-.
      exists e, sched, (kept ++ [n]). split; [done|]. apply (enforced_keep _ _ _ _ _ counts); try done; [| |by apply Hnt].
      + split; [done|]. destruct Hb as [Hb| ->]; [by left|]. right. destruct Hd as (t & c & Ht & Hc & Hle). unfold min_kept in Hle.
        exists t, c. split_and!; [done..|]. assert (0 <= dget_or t 0 counts)%Z; [|lia]. rewrite B. unfold count_type. lia.
      + destruct Hb as [Hb| ->]; [by left|]. right. destruct Hd as (t & c & Ht & Hc & Hle). intros t' c2 Ht' Hc2.
        rewrite Ht in Ht'. injection Ht' as <-. rewrite Hc in Hc2. by injection Hc2 as <-.
    - eapply round_offer; [exact Hen | by apply Hnt | by rewrite Eok | exact Hr]. }
  destruct d; [by apply (Hcont true); [right|..] | |].
  - destruct Hd as (t & Ht & Hr & Hcase). destruct reason as [rs|]; [|done].
    destruct (schedule_node_termination n (Some rs) s) as [s2 [u|]] eqn:Es; [|done]. injection H as <- <- <-.
    assert (gone_or_full s0 (could ++ kept) n) as Hgf by (exists t; rewrite <- B; done).
    eapply round_schedule; [exact Hen | | | done | exact Es].
    + destruct Hcase as [Hn|(c & Hc & Hm)]; [left; eauto|]. right; left. exists t, c. rewrite <- B. done.
    + intros _ t' c' Ht' Hc'. rewrite Ht in Ht'. injection Ht' as <-. rewrite <- B.
      destruct Hcase as [Hn|(c & Hc & Hm)]; [congruence|]. rewrite Hc in Hc'. injection Hc' as <-. unfold min_kept. lia.
  - cbn [orb] in H. case_bool_decide as Hin; [apply (Hcont true) | apply (Hcont false)]; try done. by left.
Qed.

Lemma enforce_loop_spec s0 lu h na l dn counts could sched kept e s1 counts' could' :
  enforced s0 lu h na dn counts could sched kept ->
  st_fold (enforce_one hash_launch_conf lu h na) (counts, could) l (evolve e sched s0) = (s1, Ok (counts', could')) ->
  exists e' sched' kept', s1 = evolve e' sched' s0 /\ enforced s0 lu h na (dn ++ l) counts' could' sched' kept'.
Proof.
  revert dn counts could sched kept e. induction l as [|n l IH]; intros dn counts could sched kept e Hen H;
    cbn [st_fold] in H; st_simpl in H.
  - injection H as <- <- <-. rewrite app_nil_r. eauto.
  - destruct (enforce_one _ _ _ _ _ n _) as [s2 [[c2 k2]|]] eqn:E; [|done].
    destruct (enforce_one_spec _ _ _ _ _ _ _ _ _ _ _ _ _ _ Hen E) as (e2 & sched2 & kept2 & -> & Hen2).
    destruct (IH _ _ _ _ _ _ Hen2 H) as (e3 & sched3 & kept3 & -> & Hen3).
    exists e3, sched3, kept3. split; [done|]. by rewrite <- app_assoc in Hen3.
Qed.

Lemma enforced_init s lu h na : enforced s lu h na [] [] [] [] [].
Proof.
  split; cbn; try done; try (by intros n ?%elem_of_nil).
  - intros t c _. unfold count_type. cbn. lia.
  - intros t c _. unfold count_others, count_type. cbn. lia.
Qed.

(** *** Scheduling the rest and terminating *)

Lemma sort_permutes s nodes lu l : _sort_based_on_last_used s nodes lu = Ok l -> l ≡ₚ nodes.
Proof.
  unfold _sort_based_on_last_used. intros H. bind_inv H. injection H as <-.
  rewrite (Permutation_map fst (py_sorted_reverse_Permutation _ a)).
  assert (Hf : map fst a = nodes); [|by rewrite Hf].
  clear -E. revert a E. induction nodes as [|n nodes IH]; intros a E; cbn in E; simpl_result; [done|].
  unfold last_time_used in E0. simpl_result. cbn. f_equal. by apply IH.
Qed.

Lemma schedule_all_evolves reason l e sched s0 s1 u :
  st_for l (fun n => schedule_node_termination n (Some reason)) (evolve e sched s0) = (s1, Ok u) ->
  exists e', s1 = evolve e' (sched ++ l) s0.
Proof.
  revert e sched. induction l as [|n l IH]; intros e sched H; cbn [st_for] in H; st_simpl in H.
  - injection H as <- _. rewrite app_nil_r. eauto.
  - destruct (schedule_node_termination n (Some reason) _) as [s2 [u2|]] eqn:E; [|done].
    apply schedule_evolves in E as [e2 ->]. rewrite evolve_evolve in H.
    destruct (IH _ _ H) as [e3 ->]. exists e3. by rewrite <- app_assoc.
Qed.

Context (inv : P -> Prop) `{!NodeProviderLaws P inv}.

Lemma terminate_nodes_spec l p p' u f :
  inv p -> terminate_nodes l p = (p', Ok u) ->
  inv p' /\ (forall n, n ∈ l -> n ∉ non_terminated_nodes p' f) /\
  (forall n, n ∉ l -> n ∈ non_terminated_nodes p' f <-> n ∈ non_terminated_nodes p f).
Proof.
  unfold terminate_nodes. revert p. induction l as [|n l IH]; intros p Hi H; cbn [st_for] in H; st_simpl in H.
  - injection H as <- _. split_and!; [done | by intros n ?%elem_of_nil | done].
  - destruct (terminate_node n p) as [p1 [[]|]] eqn:E; [|done].
    pose proof (terminate_inv p n p1 _ Hi E) as Hi1. destruct (IH p1 Hi1 H) as (Hi' & Hout & Hother).
    split_and!; [done| |].
    + intros m Hm. destruct (decide (m ∈ l)) as [Hl|Hl]; [by apply Hout|].
      apply elem_of_cons in Hm as [->|Hm]; [|done]. rewrite Hother by done.
      by apply (terminated_node_leaves p n p1).
    + intros m Hm. apply not_elem_of_cons in Hm as [Hne Hm]. rewrite Hother by done.
      by apply (terminate_keeps_others p n p1).
Qed.

Abbreviation worker_filter := [(TAG_RAY_NODE_KIND, NODE_KIND_WORKER)].

(** Every terminated node with a known raylet is in the drain request. *)
Lemma drain_spec nodes s s1 u :
  drain_nodes_via_gcs nodes s = (s1, Ok u) ->
  exists request, s1 = set_drained (drain_requests s ++ [request]) s /\
    forall n ip rid, n ∈ nodes -> internal_ip (provider s) n = Ok ip ->
      dget ip (LoadMetrics.raylet_id_by_ip (load_metrics s)) = Some rid -> rid ∈ request.
Proof.
  intros Ed. unfold drain_nodes_via_gcs in Ed. st_simpl in Ed.
  destruct (mapM_r (internal_ip (provider s)) nodes) as [ips|] eqn:Eip; [|done].
  match type of Ed with context [mapM_r ?g ?l] => destruct (mapM_r g l) as [rids|] eqn:Er; [|done] end.
  injection Ed as <- _. eexists. split; [done|]. intros n ip rid Hn Hip Hrid.
  apply mapM_r_Forall2 in Eip, Er. apply elem_of_remove_dups.
  apply list_elem_of_lookup in Hn as [i Hn]. destruct (Forall2_lookup_l _ _ _ _ _ Eip Hn) as (ip' & Hip' & Heq).
  rewrite Hip in Heq. injection Heq as <-.
  assert (Hin : ip ∈ filter (fun ip => ip ∈ dkeys (LoadMetrics.raylet_id_by_ip (load_metrics s))) (remove_dups ips)).
  { apply list_elem_of_filter. split; [apply dget_is_Some; by rewrite Hrid|].
    apply elem_of_remove_dups. by eapply list_elem_of_lookup_2. }
  apply list_elem_of_lookup in Hin as [j Hj]. destruct (Forall2_lookup_l _ _ _ _ _ Er Hj) as (rid' & Hr & Heq).
  unfold dgetitem in Heq. rewrite Hrid in Heq. injection Heq as <-. by eapply list_elem_of_lookup_2.
Qed.

Lemma terminate_scheduled_spec s s' u :
  inv (provider s) -> workers s = non_terminated_nodes (provider s) worker_filter ->
  terminate_scheduled_nodes s = (s', Ok u) ->
  nodes_to_terminate s' = [] /\
  (forall n, n ∈ workers s' <-> n ∈ workers s /\ n ∉ nodes_to_terminate s) /\
  (nodes_to_terminate s <> [] -> exists request, drain_requests s' = drain_requests s ++ [request] /\
     forall n ip rid, n ∈ nodes_to_terminate s -> internal_ip (provider s) n = Ok ip ->
       dget ip (LoadMetrics.raylet_id_by_ip (load_metrics s)) = Some rid -> rid ∈ request).
Proof.
  intros Hi Hw H. unfold terminate_scheduled_nodes in H. st_simpl in H.
  destruct (nodes_to_terminate s) as [|n0 ns] eqn:Ens.
  { injection H as <- _. split_and!; [done| |done]. intros n. pose proof (not_elem_of_nil n). naive_solver. }
  set (nodes := n0 :: ns) in *.
  destruct (drain_nodes_via_gcs nodes s) as [s1 [u1|]] eqn:Ed; [|done].
  destruct (drain_spec nodes s s1 u1 Ed) as (request & -> & Hreq).
  unfold on_provider in H. st_simpl in H. cbn [provider set_drained] in H.
  destruct (terminate_nodes nodes (provider s)) as [p1 [u2|]] eqn:Et; [|done].
  destruct (terminate_nodes_spec nodes (provider s) p1 u2 worker_filter Hi Et) as (_ & Hout & Hother).
  set (s2 := set_provider p1 _) in H.
  destruct (st_for nodes (fun node => on_tracker (NodeTracker.untrack node)) s2) as [s3 [u3|]] eqn:Ef; [|done].
  assert (Hp : st_preserves (fun s => (provider s, drain_requests s))
                 (st_for nodes (fun node => on_tracker (P := P) (NodeTracker.untrack node)))).
  { unfold on_tracker. preserves_tac. }
  specialize (Hp s2). rewrite Ef in Hp. cbn in Hp. injection Hp as Hp3 Hd3.
  unfold update_worker_list in H. st_simpl in H. injection H as <- _. cbn. rewrite Hp3. split_and!; [done| |].
  - intros n. destruct (decide (n ∈ nodes)) as [Hn|Hn].
    + specialize (Hout n Hn). naive_solver.
    + rewrite (Hother n Hn), Hw. naive_solver.
  - intros _. exists request. by rewrite Hd3.
Qed.

(** What [terminate_nodes_to_enforce_config_constraints] decides: [scheduled]
    for a reason of their own, [extra] because of [max_workers], and the
    [remaining] ones *)
Record constraints s now mw (not_allowed scheduled extra remaining : list NodeID) : Prop := mkConstraints {
  co_split : workers s ≡ₚ scheduled ++ extra ++ remaining;
  co_just : forall n, n ∈ scheduled ->
    justified s (LoadMetrics.last_used_time_by_ip (load_metrics s))
      (now - 60 * cc_idle_timeout_minutes (config s))%Q (extra ++ remaining) n;
  co_extra : extra <> [] -> (mw <= Z.of_nat (length remaining))%Z;
  co_needed : forall n, n ∈ scheduled ++ extra -> n ∈ not_allowed -> config_ok s n = Ok true ->
    gone_or_full s (extra ++ remaining) n;
  co_surplus : forall n, n ∈ scheduled ++ extra -> config_ok s n = Ok true -> surplus s remaining n;
  co_total : (Z.of_nat (length remaining) <= mw)%Z \/
    (Forall (protected s not_allowed) remaining /\
     forall t c, dget t (available_node_types s) = Some c ->
       (count_others s t not_allowed remaining <= Z.max 0 (min_kept c))%Z);
  co_type : forall t c, dget t (available_node_types s) = Some c ->
    (count_type s t remaining <= Z.max 0 (cfg_max_workers c))%Z
}.

(** From the loop's result and the number of extra nodes to the constraints *)
Lemma constraints_intro s now mw na counts could sched kept done k :
  enforced s (LoadMetrics.last_used_time_by_ip (load_metrics s))
    (now - 60 * cc_idle_timeout_minutes (config s))%Q na done counts could sched kept ->
  workers s ≡ₚ done -> (k <= length could)%nat ->
  (Z.of_nat (length (could ++ kept)) - Z.of_nat k <= mw \/ k = length could)%Z ->
  ((0 < k)%nat -> mw <= Z.of_nat (length (could ++ kept)) - Z.of_nat k)%Z ->
  constraints s now mw na sched (slice_last k could) (take (length could - k) could ++ kept).
Proof.
  intros [A B C D E F G H I] Hw Hk Htot Hmin. unfold slice_last.
  set (pre := take (length could - k) could). set (ex := drop (length could - k) could).
  assert (Hsplit : could = pre ++ ex) by (symmetry; apply take_drop).
  assert (Hlen : length pre = (length could - k)%nat) by (unfold pre; rewrite length_take; lia).
  assert (Hperm : could ++ kept ≡ₚ ex ++ pre ++ kept).
  { rewrite Hsplit at 1. rewrite (Permutation_app_comm pre ex), <- app_assoc. done. }
  rewrite length_app in *. split.
  - by rewrite Hw, A, Hperm.
  - intros n Hn. eapply justified_mono; [|by apply D]. intros t. by rewrite (count_type_perm s t _ _ Hperm).
  - intros Hex. rewrite length_app, Hlen. destruct (decide (k = 0%nat)) as [->|]; [|lia].
    destruct Hex. unfold ex. apply drop_ge. lia.
  - intros n [Hn|Hn]%elem_of_app Hna Hok.
    + eapply gone_or_full_mono; [|by apply H]. intros t. by rewrite (count_type_perm s t _ _ Hperm).
    + destruct (F n) as [_ Hna']; [|done]. rewrite Hsplit. apply elem_of_app. by right.
  - intros n Hn Hok. eapply surplus_mono; [|apply G; [|done]].
    + intros t. rewrite count_type_app. unfold count_type. lia.
    + rewrite Hsplit, app_assoc. apply elem_of_app. apply elem_of_app in Hn as [Hn|Hn]; [left; apply elem_of_app; by left | by right].
  - rewrite length_app, Hlen. destruct Htot as [?| ->]; [left; lia|]. right.
    assert (Hpre : pre = []) by (apply length_zero_iff_nil; lia). by rewrite Hpre.
  - intros t c Hc. specialize (C t c Hc). rewrite (count_type_perm s t _ _ Hperm), count_type_app in C.
    assert (0 <= count_type s t ex)%Z by (unfold count_type; lia). lia.
Qed.

(** The nodes that [request_resources] needs: none without a request, otherwise
    those of which the packing of the requests on the head and the workers, the
    most recently used first, uses something *)
Definition needed_nodes s (na : list NodeID) : Prop :=
  match LoadMetrics.resource_requests (load_metrics s) with
  | [] => na = []
  | _ => exists sorted,
      _sort_based_on_last_used s (workers s) (LoadMetrics.last_used_time_by_ip (load_metrics s)) = Ok sorted /\
      _get_nodes_needed_for_request_resources s sorted = Ok na
  end.

(** C15. [terminate_nodes_to_enforce_config_constraints], when it does not
    raise, keeps the cluster within its limits and terminates nothing without
    a reason.
    - Every terminated node is of a type that is gone or full, was idle for
      too long, has an outdated config, or is one too many; at most as many
      nodes go for [max_workers] as it takes.
    - A node with the current config is terminated only when the nodes that
      remain have the [min_workers] of its type, and one that
      [request_resources] needs only when its type is gone or full.
    - Afterwards each type is within its [max_workers], whatever is requested;
      the cluster is within the global one, or every node that remains is one
      that [request_resources] needs or one of at most [min_workers] others of
      its type.
    - The workers that remain are exactly the others, and every terminated node
      with a known raylet was drained first. *)
Theorem config_constraints_enforced s now s' :
  inv (provider s) -> nodes_to_terminate s = [] -> workers s = non_terminated_nodes (provider s) worker_filter ->
  terminate_nodes_to_enforce_config_constraints hash_launch_conf now s = (s', Ok tt) ->
  exists mw na scheduled extra remaining,
    cc_max_workers (config s) = Some mw /\ constraints s now mw na scheduled extra remaining /\
    needed_nodes s na /\ nodes_to_terminate s' = [] /\
    (forall n, n ∈ workers s' <-> n ∈ workers s /\ n ∉ scheduled ++ extra) /\
    (forall n ip rid, n ∈ scheduled ++ extra -> internal_ip (provider s) n = Ok ip ->
       dget ip (LoadMetrics.raylet_id_by_ip (load_metrics s)) = Some rid ->
       exists request, request ∈ drain_requests s' /\ rid ∈ request).
Proof.
  intros Hi Hnt Hw H. unfold terminate_nodes_to_enforce_config_constraints in H. st_simpl in H.
  destruct (_sort_based_on_last_used s (workers s) _) as [sorted|] eqn:Esorted; [|done].
  pose proof (sort_permutes _ _ _ _ Esorted) as Esort.
  destruct (match LoadMetrics.get_resource_requests (load_metrics s) with [] => Ok [] | _ => _ end)
    as [na|] eqn:Ena; [|done].
  destruct (st_fold _ _ sorted s) as [s1 [[counts could]|]] eqn:Efold; [|done].
  rewrite <- (evolve_nil s) in Efold at 3.
  destruct (enforce_loop_spec _ _ _ _ _ _ _ _ _ _ _ _ _ _ (enforced_init s _ _ na) Efold)
    as (e1 & sched & kept & -> & Hen).
  cbn [config evolve set_workers set_events nodes_to_terminate workers] in H. rewrite Hnt in H. cbn [app] in H, Hen.
  unfold cc_workers_limit in H. destruct (cc_max_workers (config s)) as [mw|]; cbn [or_raise] in H; [|done].
  pose proof (en_split _ _ _ _ _ _ _ _ _ Hen) as Hsp.
  assert (Hl : length (workers s) = (length sched + length (could ++ kept))%nat).
  { rewrite <- Esort, Hsp, length_app. done. }
  set (x := (Z.of_nat (length (workers s)) - Z.of_nat (length sched) - mw)%Z) in H.
  set (num := if (Z.of_nat (length could) <? x)%Z then Z.of_nat (length could) else x) in H.
  assert (Hnum : (num = Z.min x (Z.of_nat (length could)))%Z).
  { unfold num. destruct (Z.ltb_spec (Z.of_nat (length could)) x); lia. }
  exists mw, na, sched, (slice_last (Z.to_nat num) could), (take (length could - Z.to_nat num) could ++ kept).
  split; [done|]. split; [apply (constraints_intro _ _ _ _ counts _ _ _ sorted); [done|done|lia|lia|lia]|].
  split.
  { unfold needed_nodes. unfold LoadMetrics.get_resource_requests in Ena.
    destruct (LoadMetrics.resource_requests (load_metrics s)); [by injection Ena as <- | by exists sorted]. }
  assert (Hs2 : exists e2, terminate_scheduled_nodes (evolve e2 (sched ++ slice_last (Z.to_nat num) could) s)
    = (s', Ok tt)).
  { destruct (Z.ltb_spec 0 num).
    - match type of H with context [st_for ?a ?b ?c] => destruct (st_for a b c) as [s2 [u2|]] eqn:Efor end; [|done].
      destruct (schedule_all_evolves _ _ _ _ _ _ _ Efor) as [e2 ->]. eauto.
    - exists e1. replace (slice_last (Z.to_nat num) could) with (@nil NodeID); [by rewrite app_nil_r|].
      unfold slice_last. symmetry. apply drop_ge. lia. }
  destruct Hs2 as [e2 Hs2].
  destruct (terminate_scheduled_spec (evolve e2 (sched ++ slice_last (Z.to_nat num) could) s) s' tt Hi Hw Hs2)
    as (Hnt' & Hwork & Hdrain). cbn in Hwork, Hdrain.
  rewrite Hnt in Hwork, Hdrain. cbn [app] in Hwork, Hdrain. split_and!; [done..|].
  intros n ip rid Hn Hip Hrid. destruct Hdrain as (request & Hreq & Hin); [intros Heq; rewrite Heq in Hn; by apply elem_of_nil in Hn|].
  exists request. split; [rewrite Hreq; apply elem_of_app; right; left | by eapply Hin].
Qed.

(** *** Heartbeats *)

(** A node that is set up and whose last heartbeat is too old *)
Definition stale s (now : Q) (n : NodeID) : bool :=
  match node_tags (provider s) n, internal_ip (provider s) n with
  | Ok tags, Ok ip =>
      bool_decide (dget TAG_RAY_NODE_STATUS tags = Some STATUS_UP_TO_DATE) &&
      match dget ip (LoadMetrics.last_heartbeat_time_by_ip (load_metrics s)) with
      | Some t => negb (Qlt_bool (now - t) AUTOSCALER_HEARTBEAT_TIMEOUT_S)
      | None => false
      end
  | _, _ => false
  end.

(** The state during the loop: nodes without a heartbeat may have been marked
    active now *)
Record checking s now (l : list NodeID) s1 : Prop := mkChecking {
  ck_provider : provider s1 = provider s;
  ck_workers : workers s1 = workers s;
  ck_scheduled : nodes_to_terminate s1 = nodes_to_terminate s ++ l;
  ck_beats : forall ip, let beat s := dget ip (LoadMetrics.last_heartbeat_time_by_ip (load_metrics s)) in
    beat s1 = beat s \/ (beat s = None /\ beat s1 = Some now)
}.

Lemma just_now now : Qlt_bool (now - now) AUTOSCALER_HEARTBEAT_TIMEOUT_S = true.
Proof. apply Qlt_bool_iff. unfold AUTOSCALER_HEARTBEAT_TIMEOUT_S. lra. Qed.

Lemma checking_schedule s now l s1 n reason s2 u :
  checking s now l s1 -> schedule_node_termination n (Some reason) s1 = (s2, Ok u) -> checking s now (l ++ [n]) s2.
Proof.
  intros [A B C D] [e ->]%schedule_evolves. split; cbn; [done..| |done]. by rewrite C, app_assoc.
Qed.

Lemma checking_mark s now l s1 ip :
  checking s now l s1 -> dmem ip (LoadMetrics.last_heartbeat_time_by_ip (load_metrics s1)) = false ->
  exists s2, on_metrics (LoadMetrics.mark_active now (Some ip)) s1 = (s2, Ok tt) /\ checking s now l s2 /\
    dget ip (LoadMetrics.last_heartbeat_time_by_ip (load_metrics s2)) = Some now.
Proof.
  intros [A B C D] Hm. eexists. split; [reflexivity|]. apply dmem_false, dget_None in Hm.
  split; [split; cbn; [done..|] | cbn; apply dget_dset_eq].
  intros ip'. cbn. specialize (D ip'). cbn in D. rewrite dget_dset. case_decide; [|done]. subst.
  right. split; [|done]. destruct D as [D|[D _]]; congruence.
Qed.

Lemma check_health_spec s now l s1 n s2 u :
  checking s now l s1 -> check_health now n s1 = (s2, Ok u) ->
  checking s now (l ++ if stale s now n then [n] else []) s2.
Proof.
  intros Hck H. pose proof Hck as [A B C D]. unfold check_health in H. st_simpl in H. unfold stale.
  rewrite A in H. destruct (node_tags (provider s) n) as [tags|]; [|done]. cbv beta iota in H. unfold dgetitem in H.
  destruct (dget TAG_RAY_NODE_STATUS tags) as [status|]; cbn [or_raise] in H; [|done].
  case_bool_decide as Hst; cbn [negb] in H.
  2: { injection H as <- _. destruct (internal_ip (provider s) n); [|by rewrite app_nil_r].
       rewrite bool_decide_eq_false_2 by congruence. by rewrite app_nil_r. }
  destruct (internal_ip (provider s) n) as [ip|] eqn:Eip; [|done].
  rewrite bool_decide_eq_true_2 by congruence. cbn [andb]. specialize (D ip). cbn in D.
  destruct (dmem ip (LoadMetrics.last_heartbeat_time_by_ip (load_metrics s1))) eqn:Em.
  - apply dmem_true, dget_is_Some in Em as [t Ht]. unfold heartbeat_on_time in H. rewrite A, Eip in H.
    cbn in H. rewrite Ht in H, D.
    assert (Hs : match dget ip (LoadMetrics.last_heartbeat_time_by_ip (load_metrics s)) with
      | Some t => negb (Qlt_bool (now - t) AUTOSCALER_HEARTBEAT_TIMEOUT_S) | None => false end =
      negb (Qlt_bool (now - t) AUTOSCALER_HEARTBEAT_TIMEOUT_S)).
    { destruct D as [<-|[-> [= <-]]]; [done|]. by rewrite just_now. }
    rewrite Hs. destruct (Qlt_bool (now - t) _); cbn [negb].
    + injection H as <- _. by rewrite app_nil_r.
    + by eapply checking_schedule.
  - destruct (checking_mark s now l s1 ip Hck Em) as (s3 & E3 & Hck3 & Hb).
    rewrite E3 in H. unfold heartbeat_on_time in H.
    rewrite (ck_provider _ _ _ _ Hck3), Eip in H. cbn in H. rewrite Hb, just_now in H. injection H as <- _.
    apply dmem_false, dget_None in Em. rewrite Em in D.
    assert (Hnone : dget ip (LoadMetrics.last_heartbeat_time_by_ip (load_metrics s)) = None).
    { destruct D as [<-|[]]; done. }
    rewrite Hnone. by rewrite app_nil_r.
Qed.

Lemma check_loop_spec s now nodes l s1 s2 u :
  checking s now l s1 -> st_for nodes (check_health now) s1 = (s2, Ok u) ->
  checking s now (l ++ filter (fun n => stale s now n = true) nodes) s2.
Proof.
  revert l s1. induction nodes as [|n nodes IH]; intros l s1 Hck H; cbn [st_for] in H; st_simpl in H.
  - injection H as <- _. by rewrite app_nil_r.
  - destruct (check_health now n s1) as [s3 [u3|]] eqn:E; [|done].
    pose proof (IH _ _ (check_health_spec _ _ _ _ _ _ _ Hck E) H) as Hr. rewrite filter_cons.
    destruct (stale s now n); cbn in *; by rewrite <- app_assoc in Hr.
Qed.

(** [terminate_unhealthy_nodes] terminates exactly the workers that are
    set up and whose last heartbeat is 30 seconds old or older; a node that
    has not reported yet is given a heartbeat instead. *)
Theorem unhealthy_nodes_terminated s now s' :
  inv (provider s) -> nodes_to_terminate s = [] -> workers s = non_terminated_nodes (provider s) worker_filter ->
  terminate_unhealthy_nodes now s = (s', Ok tt) ->
  nodes_to_terminate s' = [] /\
  forall n, n ∈ workers s' <-> n ∈ workers s /\ stale s now n = false.
Proof.
  intros Hi Hnt Hw H. unfold terminate_unhealthy_nodes in H. st_simpl in H.
  destruct (st_for (workers s) (check_health now) s) as [s1 [u|]] eqn:E; [|done].
  assert (Hck : checking s now [] s) by (split; [done..|by rewrite app_nil_r | by left]).
  destruct (check_loop_spec _ _ _ _ _ _ _ Hck E) as [A B C _]. rewrite Hnt in C. cbn [app] in C.
  destruct (terminate_scheduled_spec s1 s' tt) as (Hn & Hwork & _); [by rewrite A | by rewrite A, B | done|].
  split; [done|]. intros n. rewrite Hwork, B, C, list_elem_of_filter.
  destruct (stale s now n); naive_solver.
Qed.

End Enforce.

(** ** A concrete cluster *)

Section Example.

(** The fake provider with the head and three workers *)
Definition ex_cluster : Fake.FakeMultiNodeProvider :=
  (st_for [tt; tt; tt] (fun _ => create_node_with_resources YNull [(TAG_RAY_USER_NODE_TYPE, "cpu")] 1 [])
     ex_provider).1.

Lemma ex_cluster_inv : fake_inv ex_cluster.
Proof.
  split; [by_compute|]. intros id Hid. vm_compute in Hid.
  repeat (apply elem_of_cons in Hid as [->|Hid]; [|]); [| | | |by apply elem_of_nil in Hid];
    [exists 0%N | exists 1%N | exists 2%N | exists 3%N]; (split; [vm_compute; reflexivity | vm_compute; discriminate]).
Qed.

Definition ex_types : NodeTypes :=
  [("head", mkNodeType (Some [("CPU", 2)]) (Some 0%Z) (Some 0%Z) (Some (YDict [])) []);
   ("cpu", mkNodeType (Some [("CPU", 4)]) (Some 1%Z) (Some 3%Z) (Some (YDict [])) [])]%Q.

Definition ex_worker (n : N) : NodeID := node_id_of n.

(** All three workers report; the first is idle since time 0, the second lost
    contact *)
Definition ex_lm : LoadMetrics.LoadMetrics :=
  (LoadMetrics.mkLM [(ex_worker 1, 0); (ex_worker 2, 990); (ex_worker 3, 995)]
     [(ex_worker 1, 1000); (ex_worker 2, 900); (ex_worker 3, 1000)] [] []
     [(ex_worker 1, "r1"); (ex_worker 2, "r2"); (ex_worker 3, "r3")] [] "head-ip" [] [] [] [] false)%Q.

Definition ex_autoscaler : StandardAutoscaler Fake.FakeMultiNodeProvider :=
  mkAutoscaler ex_cluster (set_available_node_types ex_types ex_config) ex_types
    (mkScheduler ex_cluster ex_types [] 2 "head" 1) ex_lm EventSummarizer.__init__ [] [] [] 0 0
    (non_terminated_nodes ex_cluster [(TAG_RAY_NODE_KIND, NODE_KIND_WORKER)]) [] [] []
    NodeTracker.__init__ "" None [] "head-ip" 5 5 5 true true.

Lemma launch_new_node_queues_all_witness :
  exists s' js, launch_new_node 12 "cpu" ex_autoscaler = (s', Ok tt) /\ launch_queue s' = js /\
    Zsum (map job_count js) = 12%Z.
Proof.
  destruct (launch_new_node_queues_all ex_autoscaler 12 "cpu") as (s' & js & E & Hq & Hs & _);
    [cbn; lia | lia |]. exists s', js. split_and!; [exact E | exact Hq | exact Hs].
Defined.

Lemma update_failure_budget_witness :
  exists s' r, update true (fun _ _ => "") (fun _ _ => Err RuntimeError) (fun _ => "") (fun _ => "") 1000
      (Err KeyError) ex_autoscaler = (s', r) /\
    (num_failures s' <= num_failures ex_autoscaler + 1)%Z.
Proof.
  destruct (update true (fun _ _ => "") (fun _ _ => Err RuntimeError) (fun _ => "") (fun _ => "") 1000
    (Err KeyError) ex_autoscaler) as [s' r] eqn:E.
  exists s', r. split; [done|].
  apply (update_failure_budget true (fun _ _ => "") (fun _ _ => Err RuntimeError) (fun _ => "") (fun _ => "")
    ex_autoscaler 1000 (Err KeyError) s' r E).
  assert (Hs : s' = (update true (fun _ _ => "") (fun _ _ => Err RuntimeError) (fun _ => "") (fun _ => "") 1000
    (Err KeyError) ex_autoscaler).1) by (by rewrite E).
  rewrite Hs. vm_compute. reflexivity.
Defined.

(** The same cluster while [request_resources] asks for two bundles of four CPUs *)
Definition ex_requested : StandardAutoscaler Fake.FakeMultiNodeProvider :=
  set_metrics (LoadMetrics.set_resource_requests (Some [[("CPU", 4)]; [("CPU", 4)]]%Q) ex_lm).1 ex_autoscaler.

Lemma config_constraints_enforced_witness :
  exists s', terminate_nodes_to_enforce_config_constraints (fun _ _ => "") 1000 ex_requested = (s', Ok tt) /\
    workers s' = [ex_worker 2; ex_worker 3] /\
    exists mw scheduled extra remaining,
      constraints (fun _ _ => "") ex_requested 1000 mw [ex_worker 3; ex_worker 2] scheduled extra remaining.
Proof.
  eexists. split; [vm_compute; reflexivity|]. split; [vm_compute; reflexivity|].
  destruct (config_constraints_enforced (fun _ _ => "") fake_inv ex_requested 1000
    (terminate_nodes_to_enforce_config_constraints (fun _ _ => "") 1000 ex_requested).1)
    as (mw & na & sched & extra & rest & _ & Hc & Hna & _);
    [exact ex_cluster_inv | reflexivity | reflexivity | vm_compute; reflexivity|].
  destruct Hna as (sorted & Hs & Hn). vm_compute in Hs. injection Hs as <-. vm_compute in Hn. injection Hn as <-.
  by exists mw, sched, extra, rest.
Defined.

(** A worker's type is removed from the config: without a request its nodes
    are terminated, with one the round raises. *)
Definition without_cpu (s : StandardAutoscaler Fake.FakeMultiNodeProvider) :=
  let types := take 1 ex_types in
  mkAutoscaler (provider s) (set_available_node_types types (config s)) types
    (mkScheduler ex_cluster types [] 2 "head" 1) (load_metrics s) EventSummarizer.__init__ [] [] [] 0 0
    (workers s) [] [] [] NodeTracker.__init__ "" None [] "head-ip" 5 5 5 true true.

Example removed_type_raises :
  workers (terminate_nodes_to_enforce_config_constraints (fun _ _ => "") 1000 (without_cpu ex_autoscaler)).1 = [] /\
  (terminate_nodes_to_enforce_config_constraints (fun _ _ => "") 1000 (without_cpu ex_requested)).2 = Err KeyError.
Proof. split; vm_compute; reflexivity. Qed.

Lemma unhealthy_nodes_terminated_witness :
  let s' := (terminate_unhealthy_nodes 1000 ex_autoscaler).1 in
  ex_worker 2 ∉ workers s' /\ ex_worker 1 ∈ workers s'.
Proof.
  destruct (unhealthy_nodes_terminated fake_inv ex_autoscaler 1000
    (terminate_unhealthy_nodes 1000 ex_autoscaler).1) as [_ Hw];
    [exact ex_cluster_inv | reflexivity | reflexivity | vm_compute; reflexivity|].
  cbn zeta. rewrite !Hw. split; [intros [_ H]; vm_compute in H; discriminate|].
  split; [|vm_compute; reflexivity]. change (ex_worker 1 ∈ workers ex_autoscaler). by_compute.
Defined.

End Example.
