(* ===== verification/SegmentTree.v ===== *)
(** The segment trees of RLlib's prioritized replay
    ([rllib/execution/segment_tree.py]): an array with fast reductions over
    ranges, and the search for a prefix sum. *)

From Stdlib Require Import ZArith QArith Lqa Lia Setoid Morphisms.
From stdpp Require Import base list strings option.
From S2P Require Import Prelude.

(** ** The class [SegmentTree] *)

Section Tree.
Context {A : Type}.

Record SegmentTree : Type := mkTree {
  capacity : Z;
  operation : A -> A -> A;
  neutral_element : A;
  value : list A
}.

Definition set_value (v : list A) (t : SegmentTree) : SegmentTree :=
  mkTree (capacity t) (operation t) (neutral_element t) v.

(** [l[i]], with Python's negative indices *)
Definition py_getitem (l : list A) (i : Z) : result A :=
  let i := if (i <? 0)%Z then (i + Z.of_nat (length l))%Z else i in
  if (i <? 0)%Z then Err IndexError else or_raise IndexError (l !! Z.to_nat i).

(** [l[i] = x] for a non-negative index *)
Definition py_setitem (l : list A) (i : Z) (x : A) : result (list A) :=
  if (Z.of_nat (length l) <=? i)%Z then Err IndexError else Ok (<[Z.to_nat i := x]> l).

(** [found] is what the constructor takes for [operator.add], [max] or [min]
    when no neutral element is given; the subclasses below give none. *)
Definition __init__ (cap : Z) (op : A -> A -> A) (neutral : option A) (found : A) : result SegmentTree :=
  _ ← py_assert ((0 <? cap)%Z && (Z.land cap (cap - 1) =? 0)%Z);
  let neutral := default found neutral in
  Ok (mkTree cap op neutral (replicate (Z.to_nat (2 * cap)) neutral)).

(** The [while] loop of [reduce]; [end] shrinks to half in every round *)
Fixpoint reduce_loop (fuel : nat) (t : SegmentTree) (result : A) (start stop : Z) : Prelude.result A :=
  if (stop <=? start)%Z then Ok result
  else match fuel with
       | O => Err OutOfFuel
       | S fuel' =>
           '(result, start) ← (if Z.odd start
                               then x ← py_getitem (value t) start; Ok (operation t result x, start + 1)%Z
                               else Ok (result, start));
           '(result, stop) ← (if Z.odd stop
                              then x ← py_getitem (value t) (stop - 1); Ok (operation t result x, stop - 1)%Z
                              else Ok (result, stop));
           reduce_loop fuel' t result (start / 2) (stop / 2)
       end.

Definition reduce (start : Z) (stop : option Z) (t : SegmentTree) : Prelude.result A :=
  let stop := match stop with
              | None => capacity t
              | Some e => if (e <? 0)%Z then (e + capacity t)%Z else e
              end in
  let start := (start + capacity t)%Z in
  let stop := (stop + capacity t)%Z in
  reduce_loop (S (Z.to_nat stop)) t (neutral_element t) start stop.

(** [self.value[i] = x] *)
Definition put_value (i : Z) (x : A) : ST SegmentTree unit :=
  t ← st_get;
  v ← st_lift (py_setitem (value t) i x);
  st_put (set_value v t).

(** The [while] loop of [__setitem__] *)
Fixpoint recalculate (fuel : nat) (idx : Z) : ST SegmentTree unit :=
  if (idx <? 1)%Z then mret tt
  else match fuel with
       | O => st_raise OutOfFuel
       | S fuel' =>
           let update_idx := (2 * idx)%Z in
           t ← st_get;
           x ← st_lift (py_getitem (value t) update_idx);
           y ← st_lift (py_getitem (value t) (update_idx + 1));
           _ ← put_value idx (operation t x y);
           recalculate fuel' (Z.shiftr idx 1)
       end.

Definition __setitem__ (idx : Z) (val : A) : ST SegmentTree unit :=
  t ← st_get;
  _ ← st_lift (py_assert ((0 <=? idx)%Z && (idx <? capacity t)%Z));
  let idx := (idx + capacity t)%Z in
  _ ← put_value idx val;
  recalculate (Z.to_nat idx) (Z.shiftr idx 1).

Definition __getitem__ (idx : Z) (t : SegmentTree) : Prelude.result A :=
  _ ← py_assert ((0 <=? idx)%Z && (idx <? capacity t)%Z);
  py_getitem (value t) (idx + capacity t).

Definition get_state (t : SegmentTree) : list A := value t.
Definition set_state (state : list A) : ST SegmentTree unit :=
  t ← st_get;
  _ ← st_lift (py_assert (Z.of_nat (length state) =? capacity t * 2)%Z);
  st_put (set_value state t).

End Tree.
Arguments SegmentTree A : clear implicits.

(** ** [SumSegmentTree] *)

Definition sum_tree (cap : Z) : result (SegmentTree Q) := __init__ cap Qplus None 0%Q.
Definition sum (start : Z) (stop : option Z) (t : SegmentTree Q) : result Q := reduce start stop t.

(** The [while] loop of [find_prefixsum_idx] *)
Fixpoint find_loop (fuel : nat) (t : SegmentTree Q) (idx : Z) (prefixsum : Q) : result Z :=
  if (capacity t <=? idx)%Z then Ok idx
  else match fuel with
       | O => Err OutOfFuel
       | S fuel' =>
           x ← py_getitem (value t) (2 * idx);
           if Qlt_bool prefixsum x then find_loop fuel' t (2 * idx) prefixsum
           else find_loop fuel' t (2 * idx + 1) (prefixsum - x)
       end.

Definition find_prefixsum_idx (prefixsum : Q) (t : SegmentTree Q) : result Z :=
  total ← sum 0 None t;
  _ ← py_assert (Qle_bool 0 prefixsum && Qle_bool prefixsum (total + (1 # 100000)));
  idx ← find_loop (Z.to_nat (capacity t)) t 1 prefixsum;
  Ok (idx - capacity t)%Z.

(** ** [MinSegmentTree]: [None] is [float("inf")] *)

Definition min_inf (a b : option Q) : option Q :=
  match a, b with
  | None, _ => b
  | _, None => a
  | Some x, Some y => Some (Qmin_py x y)
  end.
Definition min_tree (cap : Z) : result (SegmentTree (option Q)) := __init__ cap min_inf None None.
Definition min (start : Z) (stop : option Z) (t : SegmentTree (option Q)) : result (option Q) := reduce start stop t.

(** The order of equal numbers does not matter up to their value. *)
Section MinLaws.
Local Open Scope Q_scope.
Local Infix "≡∞" := (option_Forall2 Qeq) (at level 70).

Lemma Qmin_py_le x y z : z <= Qmin_py x y <-> z <= x /\ z <= y.
Proof. unfold Qmin_py, Qlt_bool. destruct (Qle_bool x y) eqn:E; cbn; [apply Qle_bool_iff in E | apply Qle_bool_false in E]; split; intros; try split; lra. Qed.

Lemma Qle_ext x y : (forall z, z <= x <-> z <= y) -> x == y.
Proof. intros H. apply Qle_antisym; apply H; apply Qle_refl. Qed.

#[export] Instance min_inf_proper : Proper (option_Forall2 Qeq ==> option_Forall2 Qeq ==> option_Forall2 Qeq) min_inf.
Proof.
  intros a a' [x x' Hx|] b b' [y y' Hy|]; cbn; constructor; auto.
  apply Qle_ext. intros z. rewrite !Qmin_py_le, Hx, Hy. done.
Qed.

Lemma min_inf_assoc x y z : min_inf x (min_inf y z) ≡∞ min_inf (min_inf x y) z.
Proof.
  destruct x, y, z; cbn; try reflexivity. constructor. apply Qle_ext. intros w. rewrite !Qmin_py_le. tauto.
Qed.
Lemma min_inf_comm x y : min_inf x y ≡∞ min_inf y x.
Proof. destruct x, y; cbn; try reflexivity. constructor. apply Qle_ext. intros w. rewrite !Qmin_py_le. tauto. Qed.
Lemma min_inf_unit x : min_inf None x ≡∞ x.
Proof. reflexivity. Qed.

(** The minimum of the written elements *)
Lemma min_inf_lower (l : list (option Q)) x m :
  Some x ∈ l -> foldr min_inf None l = m -> exists y, m = Some y /\ y <= x.
Proof.
  revert m. induction l as [|[y|] l IH]; intros m H <-; cbn; [by apply elem_of_nil in H| |].
  - apply elem_of_cons in H as [[= ->]|H].
    + destruct (foldr min_inf None l) as [y'|]; cbn; eexists; (split; [reflexivity|]); [|lra].
      by apply (proj1 (Qmin_py_le y y' _)), Qle_refl.
    + destruct (IH _ H eq_refl) as (y' & E & Hy'). rewrite E. eexists; split; [reflexivity|].
      eapply Qle_trans; [|exact Hy']. by apply (proj1 (Qmin_py_le y y' _)), Qle_refl.
  - apply elem_of_cons in H as [[=]|H]. destruct (IH _ H eq_refl) as (y' & E & Hy').
    exists y'. by rewrite E.
Qed.

Lemma min_inf_positive (l : list (option Q)) y :
  Forall (fun o => match o with Some x => 0 < x | None => True end) l -> foldr min_inf None l = Some y -> 0 < y.
Proof.
  intros H. revert y. induction H as [|[x|] l Hx H IH]; intros y; cbn; [done| |apply IH].
  destruct (foldr min_inf None l) as [y'|]; cbn; intros [= <-]; [|done].
  specialize (IH y' eq_refl). unfold Qmin_py. by destruct (Qlt_bool _ _).
Qed.
End MinLaws.

(** ** Correctness *)

Section Correct.
Context {A : Type} (R : relation A) `{!Equivalence R}.
Context (op : A -> A -> A) `{!Proper (R ==> R ==> R) op} (e : A).
Hypothesis op_assoc : forall x y z, R (op x (op y z)) (op (op x y) z).
Hypothesis op_comm : forall x y, R (op x y) (op y x).
Hypothesis op_unit : forall x, R (op e x) x.
Implicit Types (t : SegmentTree A) (v : list A).

Infix "≈" := R (at level 70).

(** The value at a position of the internal array *)
Definition at_ v (i : nat) : A := nth i v e.

(** The reduction of the positions [a .. a + n - 1] *)
Fixpoint fold_range v (a n : nat) : A :=
  match n with
  | O => e
  | S n' => op (at_ v a) (fold_range v (S a) n')
  end.

Lemma op_unit_r x : op x e ≈ x.
Proof. by rewrite op_comm, op_unit. Qed.

Lemma fold_range_snoc v a n : fold_range v a (S n) ≈ op (fold_range v a n) (at_ v (a + n)).
Proof.
  revert a. induction n as [|n IH]; intros a.
  - cbn. rewrite Nat.add_0_r, op_unit, op_unit_r. reflexivity.
  - change (fold_range v a (S (S n))) with (op (at_ v a) (fold_range v (S a) (S n))).
    rewrite IH. cbn [fold_range]. rewrite op_assoc. by rewrite Nat.add_succ_r.
Qed.

Lemma fold_range_app v a n m : fold_range v a (n + m) ≈ op (fold_range v a n) (fold_range v (a + n) m).
Proof.
  revert a. induction n as [|n IH]; intros a; cbn [fold_range plus].
  - rewrite Nat.add_0_r, op_unit. reflexivity.
  - rewrite IH, op_assoc. replace (S a + n)%nat with (a + S n)%nat by lia. reflexivity.
Qed.

(** Inner nodes hold the reduction of their two children. *)
Record tree_ok t (cap : nat) : Prop := mkOk {
  ok_cap : capacity t = Z.of_nat cap /\ (0 < cap)%nat;
  ok_op : operation t = op /\ neutral_element t = e;
  ok_len : length (value t) = (2 * cap)%nat;
  ok_node : forall i, (1 <= i < cap)%nat ->
    at_ (value t) i ≈ op (at_ (value t) (2 * i)) (at_ (value t) (2 * i + 1))
}.

Lemma getitem_at v i : (i < length v)%nat -> py_getitem v (Z.of_nat i) = Ok (at_ v i).
Proof.
  intros Hi. unfold py_getitem. rewrite (proj2 (Z.ltb_ge (Z.of_nat i) 0)) by lia. cbn zeta.
  rewrite (proj2 (Z.ltb_ge (Z.of_nat i) 0)) by lia. rewrite Nat2Z.id.
  destruct (lookup_lt_is_Some_2 v i Hi) as [x Hx]. rewrite Hx. cbn. unfold at_.
  f_equal. symmetry. by apply nth_lookup_Some with (d := e) in Hx.
Qed.

(** Two levels of the tree reduce to the same. *)
Lemma halve_range t cap a n :
  tree_ok t cap -> (1 <= a)%nat -> (a + n <= cap)%nat ->
  fold_range (value t) (2 * a) (2 * n) ≈ fold_range (value t) a n.
Proof.
  intros Hok Ha. revert a Ha. induction n as [|n IH]; intros a Ha Hn; [done|].
  replace (2 * S n)%nat with (S (S (2 * n))) by lia. cbn [fold_range].
  rewrite (ok_node t cap Hok a) by lia.
  replace (S (S (2 * a))) with (2 * S a)%nat by lia. rewrite IH by lia.
  replace (2 * a + 1)%nat with (S (2 * a)) by lia. rewrite op_assoc. reflexivity.
Qed.

Lemma odd_of_nat n : Z.odd (Z.of_nat n) = Nat.odd n.
Proof.
  rewrite <- Nat.negb_even, <- Z.negb_even. f_equal.
  induction n as [|n IH]; [done|]. rewrite Nat2Z.inj_succ, Z.even_succ, Nat.even_succ.
  by rewrite <- Z.negb_even, <- Nat.negb_even, IH.
Qed.

(** *** [reduce] *)

Lemma even_half n : Nat.odd n = false -> exists k, n = (2 * k)%nat.
Proof.
  rewrite <- Nat.negb_even. intros E. apply negb_false_iff, Nat.even_spec in E as [k ->]. by exists k.
Qed.

Lemma odd_half n : Nat.odd n = true -> exists k, n = (2 * k + 1)%nat.
Proof. intros E. apply Nat.odd_spec in E as [k ->]. by exists k. Qed.

(** An odd [start] is folded into the result. *)
Lemma reduce_left t cap res a b :
  tree_ok t cap -> (1 <= a < b)%nat -> (b <= 2 * cap)%nat ->
  exists a' res', (if Nat.odd a
            then x ← py_getitem (value t) (Z.of_nat a); Ok (operation t res x, Z.of_nat a + 1)%Z
            else Ok (res, Z.of_nat a)) = Ok (res', Z.of_nat (2 * a')) /\
    (1 <= a')%nat /\ (2 * a' <= b)%nat /\
    op res (fold_range (value t) a (b - a)) ≈ op res' (fold_range (value t) (2 * a') (b - 2 * a')).
Proof.
  intros Hok Ha Hb. destruct (ok_op t cap Hok) as [Hop _]. pose proof (ok_len t cap Hok) as Hlen.
  destruct (Nat.odd a) eqn:Ea.
  - apply odd_half in Ea as [k ->]. exists (S k), (op res (at_ (value t) (2 * k + 1))).
    rewrite getitem_at by lia. cbn [mbind result_bind]. rewrite Hop.
    split; [do 2 f_equal; lia|]. split; [lia|]. split; [lia|].
    replace (b - (2 * k + 1))%nat with (S (b - 2 * S k)) by lia. cbn [fold_range].
    replace (S (2 * k + 1)) with (2 * S k)%nat by lia. apply op_assoc.
  - apply even_half in Ea as [k ->]. exists k, res. split; [done|]. split; [lia|]. by split; [lia|].
Qed.

(** An odd [end] is moved down and its value folded in. *)
Lemma reduce_right t cap res a b :
  tree_ok t cap -> (2 * a <= b)%nat -> (b <= 2 * cap)%nat ->
  exists b' res', (if Nat.odd b
            then x ← py_getitem (value t) (Z.of_nat b - 1); Ok (operation t res x, Z.of_nat b - 1)%Z
            else Ok (res, Z.of_nat b)) = Ok (res', Z.of_nat (2 * b')) /\
    (a <= b')%nat /\ (2 * b' <= b)%nat /\
    op res (fold_range (value t) (2 * a) (b - 2 * a))
    ≈ op res' (fold_range (value t) (2 * a) (2 * (b' - a))).
Proof.
  intros Hok Ha Hb. destruct (ok_op t cap Hok) as [Hop _]. pose proof (ok_len t cap Hok) as Hlen.
  destruct (Nat.odd b) eqn:Eb.
  - apply odd_half in Eb as [k ->]. exists k, (op res (at_ (value t) (2 * k))).
    replace (Z.of_nat (2 * k + 1) - 1)%Z with (Z.of_nat (2 * k)) by lia.
    rewrite getitem_at by lia. cbn [mbind result_bind]. rewrite Hop.
    split; [done|]. split; [lia|]. split; [lia|].
    replace (2 * k + 1 - 2 * a)%nat with (S (2 * (k - a))) by lia.
    rewrite fold_range_snoc. replace (2 * a + 2 * (k - a))%nat with (2 * k)%nat by lia.
    rewrite (op_comm (fold_range _ _ _)). apply op_assoc.
  - apply even_half in Eb as [k ->]. exists k, res. split; [done|]. split; [lia|]. split; [lia|].
    by replace (2 * k - 2 * a)%nat with (2 * (k - a))%nat by lia.
Qed.

Lemma reduce_loop_fold t cap :
  tree_ok t cap -> forall fuel res a b,
  (1 <= a)%nat -> (b <= 2 * cap)%nat -> (b <= fuel)%nat ->
  exists r, reduce_loop fuel t res (Z.of_nat a) (Z.of_nat b) = Ok r /\
            r ≈ op res (fold_range (value t) a (b - a)).
Proof.
  intros Hok. induction fuel as [|fuel IH]; intros res a b Ha Hb Hf; cbn [reduce_loop];
    destruct (Z.leb_spec (Z.of_nat b) (Z.of_nat a)) as [C|C];
    try (exists res; split; [done|]; replace (b - a)%nat with O by lia; by rewrite op_unit_r); [lia|].
  rewrite !odd_of_nat.
  destruct (reduce_left t cap res a b) as (a' & res1 & -> & Ha' & Hab & E1); [done | lia.. |].
  cbn [mbind result_bind].
  destruct (reduce_right t cap res1 a' b) as (b' & res2 & -> & Hb' & Hbb & E2); [done | lia.. |].
  cbn [mbind result_bind].
  replace (Z.of_nat (2 * a') / 2)%Z with (Z.of_nat a') by (rewrite Nat2Z.inj_mul, Z.mul_comm, Z.div_mul; lia).
  replace (Z.of_nat (2 * b') / 2)%Z with (Z.of_nat b') by (rewrite Nat2Z.inj_mul, Z.mul_comm, Z.div_mul; lia).
  destruct (IH res2 a' b') as (r & -> & Hr); [lia..|].
  exists r. split; [done|]. rewrite Hr, E1, E2, (halve_range t cap) by (done || lia). reflexivity.
Qed.

(** *** The array that a tree represents *)

Definition leaves t : list A := drop (Z.to_nat (capacity t)) (value t).

Lemma fold_range_slice v a n :
  (a + n <= length v)%nat -> fold_range v a n = foldr op e (take n (drop a v)).
Proof.
  revert a. induction n as [|n IH]; intros a Hn; [done|]. cbn [fold_range].
  rewrite IH by lia. destruct (lookup_lt_is_Some_2 v a) as [x Hx]; [lia|].
  rewrite (drop_S _ _ _ Hx). cbn. f_equal. unfold at_. by rewrite nth_lookup, Hx.
Qed.

(** What [end] means: [None] is the capacity, a negative number counts from it *)
Definition stop_of t (stop : option Z) : Z :=
  match stop with None => capacity t | Some z => if (z <? 0)%Z then (z + capacity t)%Z else z end.

Lemma reduce_slice t cap start stop :
  tree_ok t cap -> (0 <= start)%Z -> (stop_of t stop <= capacity t)%Z ->
  exists r, reduce start stop t = Ok r /\
    r ≈ foldr op e (take (Z.to_nat (stop_of t stop) - Z.to_nat start) (drop (Z.to_nat start) (leaves t))).
Proof.
  intros Hok Hs He. destruct (ok_cap t cap Hok) as [Hc Hp]. destruct (ok_op t cap Hok) as [_ Hne].
  unfold reduce. fold (stop_of t stop). cbv zeta. set (z := stop_of t stop) in *. clearbody z.
  rewrite Hne. destruct (Z.le_gt_cases z start) as [C|C].
  { exists e. split.
    - cbn [reduce_loop]. by rewrite (proj2 (Z.leb_le _ _)) by lia.
    - by replace (Z.to_nat z - Z.to_nat start)%nat with O by lia. }
  replace (start + capacity t)%Z with (Z.of_nat (Z.to_nat start + cap)) by lia.
  replace (z + capacity t)%Z with (Z.of_nat (Z.to_nat z + cap)) by lia.
  destruct (reduce_loop_fold t cap Hok (S (Z.to_nat (Z.of_nat (Z.to_nat z + cap)))) e
              (Z.to_nat start + cap) (Z.to_nat z + cap)) as (r & -> & Hr); [lia..|].
  exists r. split; [done|]. rewrite Hr, op_unit. unfold leaves. rewrite drop_drop, Hc, Nat2Z.id.
  rewrite fold_range_slice by (rewrite (ok_len t cap Hok); lia).
  replace (Z.to_nat z + cap - (Z.to_nat start + cap))%nat with (Z.to_nat z - Z.to_nat start)%nat by lia.
  by rewrite (Nat.add_comm cap).
Qed.

(** *** [__setitem__] *)

Lemma at_insert v k x i : (k < length v)%nat -> at_ (<[k := x]> v) i = if decide (i = k) then x else at_ v i.
Proof.
  intros Hk. unfold at_. rewrite !nth_lookup. case_decide as E.
  - subst. by rewrite list_lookup_insert_eq.
  - by rewrite list_lookup_insert_ne.
Qed.

Lemma put_value_ok t k x :
  (k < length (value t))%nat -> put_value (Z.of_nat k) x t = (set_value (<[k := x]> (value t)) t, Ok tt).
Proof.
  intros Hk. unfold put_value, py_setitem. st_simpl.
  rewrite (proj2 (Z.leb_gt _ _)) by lia. by rewrite Nat2Z.id.
Qed.

(** The nodes above position [k] *)
Definition above (k i : nat) : Prop := exists j, i = (k / 2 ^ j)%nat.

Lemma above_half k i : above k i -> i = k \/ above (k / 2) i.
Proof.
  intros [[|j] ->]; [left; apply Nat.div_1_r|]. right. exists j.
  by rewrite Nat.pow_succ_r', Nat.Div0.div_div.
Qed.

Lemma half_above k i : (i = 2 * k \/ i = 2 * k + 1)%nat -> k = (i / 2)%nat.
Proof.
  intros [-> | ->]; [rewrite Nat.mul_comm; by rewrite Nat.div_mul|].
  rewrite Nat.mul_comm, Nat.div_add_l by lia. cbn. lia.
Qed.

(** Every node is the reduction of its children, except those in [P]. *)
Definition ok_but (P : nat -> Prop) cap v : Prop :=
  forall i, (1 <= i < cap)%nat -> ~ P i -> at_ v i ≈ op (at_ v (2 * i)) (at_ v (2 * i + 1)).

Lemma ok_but_insert cap v k x :
  (1 <= k < cap)%nat -> length v = (2 * cap)%nat -> ok_but (above k) cap v ->
  x = op (at_ v (2 * k)) (at_ v (2 * k + 1)) -> ok_but (above (k / 2)) cap (<[k := x]> v).
Proof.
  intros Hk Hl Hok -> i Hi Hn. rewrite !at_insert by lia.
  rewrite (decide_False (P := (2 * i = k)%nat)), (decide_False (P := (2 * i + 1 = k)%nat));
    [| intros E; apply Hn; exists O; rewrite Nat.div_1_r; apply half_above; lia ..].
  case_decide as E; [by subst|]. apply Hok; [done|]. intros C. by apply above_half in C as [?|?].
Qed.

Lemma recalculate_ok cap t0 fuel k v :
  (k < cap)%nat -> (k <= fuel)%nat -> length v = (2 * cap)%nat -> operation t0 = op -> ok_but (above k) cap v ->
  exists v', recalculate fuel (Z.of_nat k) (set_value v t0) = (set_value v' t0, Ok tt) /\
    length v' = (2 * cap)%nat /\ drop cap v' = drop cap v /\ ok_but (fun _ => False) cap v'.
Proof.
  revert k v. induction fuel as [|fuel IH]; intros k v Hk Hf Hl Hop Hok; cbn [recalculate];
    destruct (Z.ltb_spec (Z.of_nat k) 1) as [C|C]; [| lia | |].
  1, 2: exists v; split; [done|]; split; [done|]; split; [done|]; intros i Hi _; apply Hok; [done|];
    intros [j Hj]; replace k with O in Hj by lia; rewrite Nat.Div0.div_0_l in Hj; lia.
  cbv zeta. replace (2 * Z.of_nat k)%Z with (Z.of_nat (2 * k)) by lia.
  replace (Z.of_nat (2 * k) + 1)%Z with (Z.of_nat (2 * k + 1)) by lia.
  st_simpl. cbn [value set_value operation]. rewrite !getitem_at by lia.
  rewrite put_value_ok by (cbn; lia). cbn [value set_value]. rewrite Hop.
  replace (Z.shiftr (Z.of_nat k) 1) with (Z.of_nat (k / 2))
    by (rewrite Z.shiftr_div_pow2 by lia; change (2 ^ 1)%Z with 2%Z; by rewrite Nat2Z.inj_div).
  pose proof (Nat.div_lt k 2 ltac:(lia) ltac:(lia)).
  destruct (IH (k / 2)%nat (<[k := op (at_ v (2 * k)) (at_ v (2 * k + 1))]> v)) as (v' & E & L & D & O);
    [lia | lia | by rewrite length_insert | done | apply ok_but_insert; by try lia |].
  exists v'. split; [exact E|]. split; [done|]. split; [|done].
  rewrite D. by apply drop_insert_lt.
Qed.

Lemma setitem_ok t cap i x :
  tree_ok t cap -> (i < cap)%nat ->
  exists t', __setitem__ (Z.of_nat i) x t = (t', Ok tt) /\ tree_ok t' cap /\ leaves t' = <[i := x]> (leaves t).
Proof.
  intros Hok Hi. destruct (ok_cap t cap Hok) as [Hc Hp]. pose proof (ok_len t cap Hok) as Hl.
  unfold __setitem__. st_simpl. rewrite Hc.
  rewrite (proj2 (Z.leb_le _ _)), (proj2 (Z.ltb_lt _ _)) by lia. cbn [andb py_assert].
  rewrite <- Nat2Z.inj_add. rewrite put_value_ok by lia.
  replace (Z.shiftr (Z.of_nat (i + cap)) 1) with (Z.of_nat ((i + cap) / 2))
    by (rewrite Z.shiftr_div_pow2 by lia; change (2 ^ 1)%Z with 2%Z; by rewrite Nat2Z.inj_div).
  assert ((i + cap) / 2 < cap)%nat by (apply Nat.Div0.div_lt_upper_bound; lia).
  destruct (recalculate_ok cap t (Z.to_nat (Z.of_nat (i + cap))) ((i + cap) / 2) (<[i + cap := x]> (value t)))
    as (v' & -> & L & D & O); [done| | by rewrite length_insert | apply (ok_op t cap Hok) | |].
  { rewrite Nat2Z.id. apply Nat.Div0.div_le_upper_bound. lia. }
  { intros j Hj Hn. rewrite !at_insert by lia.
    rewrite (decide_False (P := (j = _)%nat)) by lia.
    rewrite (decide_False (P := (2 * j = _)%nat)), (decide_False (P := (2 * j + 1 = _)%nat));
      [by apply (ok_node t cap Hok) |
       intros E; apply Hn; exists O; rewrite Nat.div_1_r; apply half_above; lia ..]. }
  exists (set_value v' t). split; [done|]. split.
  - split; [done | apply (ok_op t cap Hok) | done |]. intros j Hj. apply O; [done | tauto].
  - unfold leaves. cbn [value set_value capacity]. rewrite Hc, Nat2Z.id, D.
    rewrite drop_insert_ge by lia. f_equal. lia.
Qed.

Lemma init_ok (cap : Z) neutral :
  (0 < cap)%Z -> Z.land cap (cap - 1) = 0%Z -> neutral = None \/ neutral = Some e ->
  exists t, __init__ cap op neutral e = Ok t /\ tree_ok t (Z.to_nat cap) /\ capacity t = cap /\
            leaves t = replicate (Z.to_nat cap) e.
Proof.
  intros Hp Hl Hn. unfold __init__. rewrite (proj2 (Z.ltb_lt _ _)), Hl by lia. cbn [Z.eqb andb py_assert mbind result_bind].
  replace (default e neutral) with e by (by destruct Hn as [-> | ->]).
  eexists; split; [reflexivity|]. split; [|split; [done|]].
  - split; cbn [capacity operation neutral_element value]; [lia | done | rewrite length_replicate; lia |].
    intros i Hi. unfold at_. rewrite !nth_lookup, !lookup_replicate_2 by lia. cbn. by rewrite op_unit.
  - unfold leaves. cbn [capacity value]. rewrite drop_replicate. f_equal. lia.
Qed.

(** The writes [t[i] = x] of a list, on a tree and on an array *)
Definition write_all (ws : list (Z * A)) : ST (SegmentTree A) unit :=
  st_for ws (fun w => __setitem__ w.1 w.2).
Definition array_write_all (ws : list (Z * A)) (arr : list A) : list A :=
  foldl (fun arr w => <[Z.to_nat w.1 := w.2]> arr) arr ws.

Lemma write_all_ok cap ws t :
  tree_ok t cap -> Forall (fun w => 0 <= w.1 < Z.of_nat cap)%Z ws ->
  exists t', write_all ws t = (t', Ok tt) /\ tree_ok t' cap /\ leaves t' = array_write_all ws (leaves t).
Proof.
  unfold write_all. intros Hok Hws. revert t Hok.
  induction Hws as [|[i x] ws Hi Hws IH]; intros t Hok; cbn [st_for]; st_simpl; [by exists t|].
  cbn [fst snd] in *. destruct (setitem_ok t cap (Z.to_nat i) x) as (t1 & E & Hok1 & L1); [done | lia |].
  rewrite Z2Nat.id in E by lia. rewrite E. destruct (IH t1 Hok1) as (t' & E' & Hok' & L').
  exists t'. split; [done|]. split; [done|]. cbn [array_write_all foldl fst snd].
  by rewrite <- L1.
Qed.

Lemma getitem_leaf t cap i :
  tree_ok t cap -> (0 <= i < capacity t)%Z ->
  exists x, __getitem__ i t = Ok x /\ leaves t !! Z.to_nat i = Some x.
Proof.
  intros Hok Hi. destruct (ok_cap t cap Hok) as [Hc Hp]. pose proof (ok_len t cap Hok) as Hl.
  unfold __getitem__. rewrite (proj2 (Z.leb_le _ _)), (proj2 (Z.ltb_lt _ _)) by lia.
  cbn [andb py_assert mbind result_bind].
  replace (i + capacity t)%Z with (Z.of_nat (Z.to_nat i + cap)) by lia. rewrite getitem_at by lia.
  eexists; split; [reflexivity|]. unfold leaves. rewrite lookup_drop, Hc, Nat2Z.id.
  unfold at_. rewrite nth_lookup, (Nat.add_comm cap).
  by destruct (lookup_lt_is_Some_2 (value t) (Z.to_nat i + cap) ltac:(lia)) as [x ->].
Qed.
End Correct.

(** *** The constructor's guard: a power of two *)

Lemma power_of_two (cap : Z) :
  (0 < cap)%Z -> Z.land cap (cap - 1) = 0%Z -> exists d : nat, Z.to_nat cap = (2 ^ d)%nat.
Proof.
  intros Hp Hl. exists (Z.to_nat (Z.log2 cap)).
  pose proof (Z.log2_spec cap Hp) as [Hlo Hhi]. pose proof (Z.log2_nonneg cap).
  assert (cap = 2 ^ Z.log2 cap)%Z as E.
  { destruct (Z.eq_dec cap (2 ^ Z.log2 cap)%Z) as [|Hne]; [done|]. exfalso.
    assert (2 ^ Z.log2 cap <= cap - 1)%Z by lia.
    assert (Z.log2 (cap - 1) = Z.log2 cap) as El by (apply Z.log2_unique; lia).
    assert (Z.testbit (Z.land cap (cap - 1)) (Z.log2 cap) = true) as Hb.
    { rewrite Z.land_spec, Z.bit_log2 by lia. rewrite <- El at 1. apply Z.bit_log2.
      pose proof (Z.pow_pos_nonneg 2 (Z.log2 cap)). lia. }
    rewrite Hl, Z.testbit_0_l in Hb. done. }
  apply Nat2Z.inj. rewrite Nat2Z.inj_pow, Z2Nat.id, Z2Nat.id by lia. exact E.
Qed.

(** ** The operations against an array *)

Section Refinement.
Context {A : Type} (R : relation A) `{!Equivalence R}.
Context (op : A -> A -> A) `{!Proper (R ==> R ==> R) op} (e : A).
Hypothesis op_assoc : forall x y z, R (op x (op y z)) (op (op x y) z).
Hypothesis op_comm : forall x y, R (op x y) (op y x).
Hypothesis op_unit : forall x, R (op e x) x.

(** C19. A segment tree is an array with reductions: after any sequence of
    writes to a new tree, none of which raises, [t[i]] returns what was last
    written at [i] (or the neutral element), and [reduce(start, end)] returns
    the reduction of the elements from [start] up to [end] in order, for
    every range inside the capacity, [end] omitted or negative included. *)
Theorem segment_tree_is_array (cap : Z) (ws : list (Z * A)) :
  (0 < cap)%Z -> Z.land cap (cap - 1) = 0%Z -> Forall (fun w => 0 <= w.1 < cap)%Z ws ->
  exists t0 t,
    __init__ cap op None e = Ok t0 /\ write_all ws t0 = (t, Ok tt) /\
    let arr := array_write_all ws (replicate (Z.to_nat cap) e) in
    (forall i, (0 <= i < cap)%Z -> exists x, __getitem__ i t = Ok x /\ arr !! Z.to_nat i = Some x) /\
    (forall start stop, (0 <= start)%Z -> (stop_of t stop <= cap)%Z ->
       exists r, reduce start stop t = Ok r /\
         R r (foldr op e (take (Z.to_nat (stop_of t stop) - Z.to_nat start) (drop (Z.to_nat start) arr)))).
Proof.
  intros Hp Hl Hws. destruct (init_ok R op e op_unit cap None Hp Hl) as (t0 & E0 & Hok0 & Hc0 & L0); [by left|].
  destruct (write_all_ok R op e (Z.to_nat cap) ws t0) as (t & E & Hok & L); [done | by rewrite Z2Nat.id by lia |].
  exists t0, t. split; [done|]. split; [done|]. cbv zeta. rewrite <- L0, <- L.
  destruct (ok_cap R op e t _ Hok) as [Hc _]. rewrite Z2Nat.id in Hc by lia. rewrite <- Hc. split.
  - intros i Hi. by eapply (getitem_leaf R op e).
  - intros start stop Hs He. by apply (reduce_slice R op e op_assoc op_comm op_unit t (Z.to_nat cap)).
Qed.

End Refinement.

(** ** [find_prefixsum_idx] *)

Section Prefix.
Implicit Types (t : SegmentTree Q).
Local Open Scope Q_scope.
Local Abbreviation fold := (fold_range Qplus 0).
Local Abbreviation sum_ok := (tree_ok Qeq Qplus 0).

Lemma Qplus_comm_monoid :
  (forall x y z, x + (y + z) == (x + y) + z) /\ (forall x y, x + y == y + x) /\ (forall x, 0 + x == x).
Proof. repeat split; intros; lra. Qed.

(** A node holds the sum of the leaves [k] levels below it. *)
Lemma node_sum t cap k : forall i,
  sum_ok t cap -> (1 <= i)%nat -> (i * 2 ^ k + 2 ^ k <= 2 * cap)%nat ->
  fold (value t) (i * 2 ^ k) (2 ^ k) == at_ 0 (value t) i.
Proof.
  destruct Qplus_comm_monoid as (Ha & Hc & Hu).
  induction k as [|k IH]; intros i Hok Hi Hle.
  - cbn [Nat.pow fold_range]. rewrite Nat.mul_1_r. lra.
  - rewrite Nat.pow_succ_r' in *. replace (i * (2 * 2 ^ k))%nat with (2 * (i * 2 ^ k))%nat by lia.
    assert (1 <= 2 ^ k)%nat by (apply Nat.le_succ_l, Nat.neq_0_lt_0, Nat.pow_nonzero; lia).
    rewrite (halve_range Qeq Qplus 0 Ha t cap) by (done || nia). apply IH; [done | done | nia].
Qed.

Lemma find_loop_spec t cap k : forall fuel i p,
  sum_ok t cap -> (k <= fuel)%nat -> (1 <= i)%nat -> (cap <= i * 2 ^ k)%nat -> (i * 2 ^ k + 2 ^ k <= 2 * cap)%nat ->
  0 <= p ->
  exists j, find_loop fuel t (Z.of_nat i) p = Ok (Z.of_nat (i * 2 ^ k + j)) /\ (j < 2 ^ k)%nat /\
    fold (value t) (i * 2 ^ k) j <= p /\
    (p < fold (value t) (i * 2 ^ k) (S j) \/ S j = (2 ^ k)%nat).
Proof.
  destruct Qplus_comm_monoid as (Ha & Hc & Hu).
  induction k as [|k IH]; intros fuel i p Hok Hf Hi Hlo Hhi Hp; destruct (ok_cap _ _ _ t cap Hok) as [Hcap Hpos].
  { cbn [Nat.pow] in *. rewrite Nat.mul_1_r in *. exists O. rewrite Nat.add_0_r.
    split; [|split; [lia | split; [cbn; lra | by right]]].
    destruct fuel; cbn [find_loop]; by rewrite (proj2 (Z.leb_le _ _)) by lia. }
  rewrite Nat.pow_succ_r' in *. set (n := (2 ^ k)%nat) in *.
  assert (1 <= n)%nat as Hn by (apply Nat.le_succ_l, Nat.neq_0_lt_0, Nat.pow_nonzero; lia).
  destruct fuel as [|fuel]; [lia|]. cbn [find_loop].
  rewrite (proj2 (Z.leb_gt _ _)) by nia.
  replace (2 * Z.of_nat i)%Z with (Z.of_nat (2 * i)) by lia.
  rewrite (getitem_at 0) by (rewrite (ok_len _ _ _ t cap Hok); nia). cbn [mbind result_bind].
  assert (fold (value t) (2 * i * n) n == at_ 0 (value t) (2 * i)) as Eleft by (apply (node_sum t cap); by try nia).
  replace (i * (2 * n))%nat with (2 * i * n)%nat by lia.
  destruct (Qlt_bool p _) eqn:El.
  - apply Qlt_bool_iff in El. destruct (IH fuel (2 * i)%nat p) as (j & E & Hj & H1 & H2); [done | by try nia ..|].
    exists j. rewrite E. split; [done|]. split; [lia|]. split; [done|]. left.
    destruct H2 as [?| ->]; [done|]. by rewrite Eleft.
  - apply Qlt_bool_false in El. replace (Z.of_nat (2 * i) + 1)%Z with (Z.of_nat (2 * i + 1)) by lia.
    destruct (IH fuel (2 * i + 1)%nat (p - at_ 0 (value t) (2 * i))) as (j & E & Hj & H1 & H2);
      [done | by try nia .. | lra |].
    replace ((2 * i + 1) * n)%nat with (2 * i * n + n)%nat in * by lia.
    assert (forall q, fold (value t) (2 * i * n) (n + q) ==
              at_ 0 (value t) (2 * i) + fold (value t) (2 * i * n + n) q) as Eq.
    { intros q. by rewrite (fold_range_app Qeq Qplus 0 Ha Hu), Eleft. }
    exists (n + j)%nat. rewrite E. split; [f_equal; lia|]. split; [lia|].
    rewrite <- Nat.add_succ_r, !Eq. split; [lra|]. destruct H2 as [?|?]; [left; lra | right; lia].
Qed.

Lemma Qsum_take_mono arr j k :
  Forall (fun x => 0 <= x) arr -> (j <= k)%nat -> Qsum (take j arr) <= Qsum (take k arr).
Proof.
  intros H. revert j k. induction H as [|x arr Hx H IH]; intros j k Hjk; [by rewrite !take_nil|].
  destruct j as [|j], k as [|k]; cbn [take]; [apply Qle_refl | | lia |].
  - specialize (IH O k ltac:(lia)). rewrite take_0 in IH. unfold Qsum in *. cbn [foldr] in *. lra.
  - specialize (IH j k ltac:(lia)). unfold Qsum in *. cbn [foldr] in *. lra.
Qed.

Lemma array_write_all_Forall (P : Q -> Prop) ws arr :
  Forall (fun w => P w.2) ws -> Forall P arr -> Forall P (array_write_all ws arr).
Proof.
  intros Hw. revert arr. induction Hw as [|w ws Hx Hw IH]; intros arr H; [done|].
  apply IH. by apply Forall_insert.
Qed.

Lemma sum_total t cap : sum_ok t cap -> exists r, sum 0 None t = Ok r /\ r == Qsum (leaves t).
Proof.
  destruct Qplus_comm_monoid as (Ha & Hc & Hu). intros Hok.
  destruct (reduce_slice Qeq Qplus 0 Ha Hc Hu t cap 0 None Hok) as (r & E & Hr); [apply Z.le_refl.. |].
  exists r. split; [exact E|]. rewrite Hr. cbn [stop_of Z.to_nat]. rewrite drop_0, Nat.sub_0_r, take_ge; [done|].
  unfold leaves. rewrite length_drop, (ok_len _ _ _ t cap Hok). destruct (ok_cap _ _ _ t cap Hok). lia.
Qed.

(** The search on any well-formed sum tree whose capacity is a power of two *)
Lemma find_prefixsum_spec t cap d p :
  sum_ok t cap -> cap = (2 ^ d)%nat -> 0 <= p -> p <= Qsum (leaves t) + (1 # 100000) ->
  exists j, find_prefixsum_idx p t = Ok (Z.of_nat j) /\ (j < cap)%nat /\
    Qsum (take j (leaves t)) <= p /\ (p < Qsum (take (S j) (leaves t)) \/ S j = cap).
Proof.
  intros Hok Hd Hp Hle. destruct (ok_cap _ _ _ t cap Hok) as [Hcap Hpos].
  assert (forall j, (j <= cap)%nat -> Qsum (take j (leaves t)) = fold (value t) cap j) as Epre.
  { intros j Hj. unfold leaves. rewrite Hcap, Nat2Z.id, fold_range_slice; [done|].
    rewrite (ok_len _ _ _ t cap Hok). lia. }
  unfold find_prefixsum_idx. destruct (sum_total t cap Hok) as (r & -> & Hr). cbn [mbind result_bind].
  rewrite (proj2 (Qle_bool_iff 0 p) Hp), (proj2 (Qle_bool_iff p _)) by (rewrite Hr; lra).
  cbn [andb py_assert mbind result_bind].
  destruct (find_loop_spec t cap d (Z.to_nat (capacity t)) 1 p) as (j & E & Hj & H1 & H2);
    [done | rewrite Hcap, Nat2Z.id, Hd; apply Nat.lt_le_incl, Nat.pow_gt_lin_r; lia | lia.. | done |].
  rewrite Nat.mul_1_l, <- Hd in *. change (Z.of_nat 1) with 1%Z in E. rewrite E. cbn [mbind result_bind].
  exists j. split; [f_equal; lia|]. split; [done|]. rewrite !Epre by lia. by destruct H2; [split; [|left]|split; [|right]].
Qed.

(** C39. For any writes of non-negative priorities to a new sum tree,
    [find_prefixsum_idx(p)] raises [AssertionError] exactly when [p] is
    negative or exceeds the total by more than [1e-5]; otherwise it returns
    the highest index [i] such that the priorities before [i] add up to at
    most [p]. *)
Theorem find_prefixsum_highest (cap : Z) (ws : list (Z * Q)) (p : Q) :
  (0 < cap)%Z -> Z.land cap (cap - 1) = 0%Z ->
  Forall (fun w => 0 <= w.1 < cap)%Z ws -> Forall (fun w => 0 <= w.2) ws ->
  exists t0 t,
    sum_tree cap = Ok t0 /\ write_all ws t0 = (t, Ok tt) /\
    let arr := array_write_all ws (replicate (Z.to_nat cap) 0) in
    if bool_decide (0 <= p) && bool_decide (p <= Qsum arr + (1 # 100000))
    then exists i, find_prefixsum_idx p t = Ok i /\ (0 <= i < cap)%Z /\
           forall j, (0 <= j < cap)%Z -> (Qsum (take (Z.to_nat j) arr) <= p <-> (j <= i)%Z)
    else find_prefixsum_idx p t = Err AssertionError.
Proof.
  destruct Qplus_comm_monoid as (Ha & Hc & Hu). intros Hp Hl Hws Hnn.
  destruct (power_of_two cap Hp Hl) as [d Hd].
  destruct (init_ok Qeq Qplus 0 Hu cap None Hp Hl) as (t0 & E0 & Hok0 & Hc0 & L0); [by left|].
  destruct (write_all_ok Qeq Qplus 0 (Z.to_nat cap) ws t0) as (t & E & Hok & L);
    [done | by rewrite Z2Nat.id by lia |].
  exists t0, t. split; [done|]. split; [done|]. cbv zeta. rewrite <- L0, <- L.
  assert (Forall (fun x => 0 <= x) (leaves t)) as Hpos.
  { rewrite L, L0. apply array_write_all_Forall; [done|]. apply Forall_replicate. by_compute. }
  destruct (bool_decide_reflect (0 <= p)) as [H1|H1], (bool_decide_reflect (p <= Qsum (leaves t) + (1 # 100000))) as [H2|H2];
    cbn [andb].
  2-4: unfold find_prefixsum_idx; destruct (sum_total t _ Hok) as (r & -> & Hr); cbn [mbind result_bind];
    destruct (Qle_bool 0 p) eqn:B1; [apply Qle_bool_iff in B1|by cbn]; [|done..];
    destruct (Qle_bool p _) eqn:B2; [apply Qle_bool_iff in B2|by cbn]; rewrite Hr in B2; done.
  destruct (find_prefixsum_spec t _ d p Hok Hd H1 H2) as (i & Ei & Hi & Hlo & Hhi).
  exists (Z.of_nat i). split; [done|]. split; [lia|]. intros j Hj. split; intros Hq.
  - destruct Hhi as [Hhi|?]; [|lia]. apply Z.nlt_ge. intros C.
    pose proof (Qsum_take_mono (leaves t) (S i) (Z.to_nat j) Hpos ltac:(lia)). lra.
  - pose proof (Qsum_take_mono (leaves t) (Z.to_nat j) i Hpos ltac:(lia)). lra.
Qed.

End Prefix.

(** ** Witnesses *)

Definition priorities : list (Z * Q) := [(0, 1 # 2); (3, 2 # 1); (1, 1 # 4); (0, 3 # 2)]%Z.

Lemma segment_tree_is_array_witness :
  exists t0 t,
    sum_tree 4 = Ok t0 /\ write_all priorities t0 = (t, Ok tt) /\
    exists r, sum 1 (Some 3%Z) t = Ok r /\ (r == 1 # 4)%Q.
Proof.
  destruct (segment_tree_is_array Qeq Qplus 0%Q ltac:(intros; lra) ltac:(intros; lra) ltac:(intros; lra)
              4 priorities eq_refl eq_refl ltac:(by_compute)) as (t0 & t & E0 & E & _ & Hr).
  exists t0, t. split; [exact E0|]. split; [exact E|].
  destruct (Hr 1%Z (Some 3%Z)) as (r & Er & Hq); [by_compute..|]. by exists r.
Defined.

Lemma find_prefixsum_highest_witness :
  exists t0 t, sum_tree 4 = Ok t0 /\ write_all priorities t0 = (t, Ok tt) /\
    exists i, find_prefixsum_idx (7 # 4) t = Ok i.
Proof.
  destruct (find_prefixsum_highest 4 priorities (7 # 4) eq_refl eq_refl ltac:(by_compute) ltac:(by_compute))
    as (t0 & t & E0 & E & H).
  exists t0, t. split; [exact E0|]. split; [exact E|].
  cbv zeta in H. rewrite !bool_decide_eq_true_2 in H by by_compute. destruct H as (i & Hi & _). by exists i.
Defined.

(** The minimum of an empty tree is infinity. *)
Example min_tree_example :
  match min_tree 2 with
  | Ok t => match __setitem__ 1 (Some (3 # 1)) t with
            | (t', Ok _) => min 0 (Some 1%Z) t' = Ok None /\ min 0 None t' = Ok (Some (3 # 1))
            | _ => False
            end
  | Err _ => False
  end.
Proof. by vm_compute. Qed.
