(* ===== verification/ServeAutoscaling.v ===== *)
(** Autoscaling of Ray Serve deployments: the controller's store of metrics
    ([serve/autoscaling_metrics.py]) and the policy that turns the averages
    into a number of replicas ([serve/autoscaling_policy.py]). *)

From Stdlib Require Import ZArith QArith Qround Lqa Lia.
From stdpp Require Import base list strings option sorting.
From S2P Require Import Prelude PyDict.

(** ** The standard library's [bisect] *)

Section Bisect.
Context {A : Type} (lt : A -> A -> bool).

(** The binary search of [bisect.bisect] (that is [bisect_right]) *)
Fixpoint bisect_loop (fuel : nat) (a : list A) (x : A) (lo hi : nat) : result nat :=
  if (hi <=? lo)%nat then Ok lo
  else match fuel with
       | O => Err OutOfFuel
       | S fuel' =>
           let mid := ((lo + hi) / 2)%nat in
           am ← or_raise IndexError (a !! mid);
           if lt x am then bisect_loop fuel' a x lo mid else bisect_loop fuel' a x (mid + 1) hi
       end.

Definition bisect (a : list A) (x : A) : result nat := bisect_loop (length a) a x 0 (length a).

Definition insort (a : list A) (x : A) : result (list A) :=
  lo ← bisect a x; Ok (take lo a ++ x :: drop lo a).

End Bisect.

(** ** [InMemoryMetricsStore] *)

Module InMemoryMetricsStore.

Record TimeStampedValue : Type := mkPoint { timestamp : Q; value : Q }.

(** [order=True] with [value] excluded from comparisons *)
Definition point_lt (a b : TimeStampedValue) : bool := Qlt_bool (timestamp a) (timestamp b).

(** The attribute [data], a [defaultdict(list)]: reading a key creates it. *)
Abbreviation InMemoryMetricsStore := (dict string (list TimeStampedValue)).

Definition __init__ : InMemoryMetricsStore := [].

Definition data_getitem (key : string) : ST InMemoryMetricsStore (list TimeStampedValue) :=
  _ ← st_modify (dsetdefault key []);
  st_gets (dget_or key []).

Definition add_metrics_point (data_points : dict string Q) (ts : Q) : ST InMemoryMetricsStore unit :=
  st_for data_points (fun nv =>
    a ← data_getitem nv.1;
    a' ← st_lift (insort point_lt a (mkPoint ts nv.2));
    st_modify (dset nv.1 a')).

Definition window_average (key : string) (window_start_timestamp_s : Q) (do_compact : bool) :
  ST InMemoryMetricsStore (option Q) :=
  datapoints ← data_getitem key;
  idx ← st_lift (bisect point_lt datapoints (mkPoint window_start_timestamp_s 0));
  let points_after_idx := drop idx datapoints in
  _ ← (if do_compact then st_modify (dset key points_after_idx) else mret tt);
  if (length points_after_idx =? 0)%nat then mret None
  else mret (Some (Qsum (map value points_after_idx) / inject_Z (Z.of_nat (length points_after_idx)))%Q).

End InMemoryMetricsStore.

(** ** The policy *)

Module BasicAutoscalingPolicy.

(** [AutoscalingConfig] of [serve/config.py] *)
Record AutoscalingConfig : Type := mkConfig {
  min_replicas : Z;
  max_replicas : Z;
  target_num_ongoing_requests_per_replica : Z;
  metrics_interval_s : Q;
  look_back_period_s : Q;
  smoothing_factor : Q;
  downscale_delay_s : Q;
  upscale_delay_s : Q
}.

Definition default_config : AutoscalingConfig := mkConfig 1 1 1 10 30 1 600 30.

Definition CONTROL_LOOP_PERIOD_S : Q := 1 # 10.

Definition calculate_desired_num_replicas (cfg : AutoscalingConfig) (current_num_ongoing_requests : list Q) : result Z :=
  let current_num_replicas := Z.of_nat (length current_num_ongoing_requests) in
  if (current_num_replicas =? 0)%Z then Err ValueError
  else
    let num_ongoing_requests_per_replica :=
      (Qsum current_num_ongoing_requests / inject_Z current_num_replicas)%Q in
    if (target_num_ongoing_requests_per_replica cfg =? 0)%Z then Err ZeroDivisionError
    else
      let error_ratio :=
        (num_ongoing_requests_per_replica / inject_Z (target_num_ongoing_requests_per_replica cfg))%Q in
      let smoothed_error_ratio := (1 + (error_ratio - 1) * smoothing_factor cfg)%Q in
      let desired_num_replicas := Qceiling (inject_Z current_num_replicas * smoothed_error_ratio) in
      let desired_num_replicas := Z.min (max_replicas cfg) desired_num_replicas in
      Ok (Z.max (min_replicas cfg) desired_num_replicas).

Record BasicAutoscalingPolicy : Type := mkPolicy {
  config : AutoscalingConfig;
  loop_period_s : Q;
  scale_up_consecutive_periods : Z;
  scale_down_consecutive_periods : Z;
  decision_counter : Z
}.

Definition set_counter (n : Z) (p : BasicAutoscalingPolicy) : BasicAutoscalingPolicy :=
  mkPolicy (config p) (loop_period_s p) (scale_up_consecutive_periods p) (scale_down_consecutive_periods p) n.

Definition __init__ (cfg : AutoscalingConfig) : BasicAutoscalingPolicy :=
  mkPolicy cfg CONTROL_LOOP_PERIOD_S
    (int_of_Q (upscale_delay_s cfg / CONTROL_LOOP_PERIOD_S))
    (int_of_Q (downscale_delay_s cfg / CONTROL_LOOP_PERIOD_S)) 0.

Definition get_decision_num_replicas (current_num_ongoing_requests : list Q) (curr_target_num_replicas : Z) :
  ST BasicAutoscalingPolicy Z :=
  if (length current_num_ongoing_requests =? 0)%nat then mret curr_target_num_replicas
  else
    p ← st_get;
    desired_num_replicas ← st_lift (calculate_desired_num_replicas (config p) current_num_ongoing_requests);
    if (curr_target_num_replicas <? desired_num_replicas)%Z then
      let counter := (if (decision_counter p <? 0)%Z then 0 else decision_counter p)%Z in
      let counter := (counter + 1)%Z in
      if (scale_up_consecutive_periods p <? counter)%Z
      then _ ← st_modify (set_counter 0); mret desired_num_replicas
      else _ ← st_modify (set_counter counter); mret curr_target_num_replicas
    else if (desired_num_replicas <? curr_target_num_replicas)%Z then
      let counter := (if (0 <? decision_counter p)%Z then 0 else decision_counter p)%Z in
      let counter := (counter - 1)%Z in
      if (counter <? - scale_down_consecutive_periods p)%Z
      then _ ← st_modify (set_counter 0); mret desired_num_replicas
      else _ ← st_modify (set_counter counter); mret curr_target_num_replicas
    else _ ← st_modify (set_counter 0); mret curr_target_num_replicas.

End BasicAutoscalingPolicy.

(** ** [bisect] on sorted lists *)

Section BisectCorrect.
Context {A : Type} (lt : A -> A -> bool).
Hypothesis lt_trans_neg : forall x y z, lt y x = false -> lt z y = false -> lt z x = false.
Hypothesis lt_trans : forall x y z, lt x y = true -> lt z y = false -> lt x z = true.

Local Abbreviation sorted := (StronglySorted (fun a b => lt b a = false)).

Lemma sorted_lookup a i j x y : sorted a -> (i < j)%nat -> a !! i = Some x -> a !! j = Some y -> lt y x = false.
Proof.
  intros H. revert i j. induction H as [|z a Hs IH Hz]; intros i j Hij Hi Hj; [done|].
  destruct i as [|i], j as [|j]; [lia | | lia |]; cbn in Hi, Hj.
  - injection Hi as ->. rewrite list.Forall_forall in Hz. apply Hz. by apply list_elem_of_lookup_2 in Hj.
  - apply (IH i j); by try lia.
Qed.

(** [bisect] splits a sorted list: nothing before the index is greater than
    [x], everything after it is. *)
Lemma bisect_loop_spec a x fuel : forall lo hi,
  sorted a -> (lo <= hi <= length a)%nat -> (hi - lo <= fuel)%nat ->
  (forall j y, (j < lo)%nat -> a !! j = Some y -> lt x y = false) ->
  (forall j y, (hi <= j)%nat -> a !! j = Some y -> lt x y = true) ->
  exists i, bisect_loop lt fuel a x lo hi = Ok i /\ (i <= length a)%nat /\
    (forall j y, (j < i)%nat -> a !! j = Some y -> lt x y = false) /\
    (forall j y, (i <= j)%nat -> a !! j = Some y -> lt x y = true).
Proof.
  induction fuel as [|fuel IH]; intros lo hi Hs Hb Hf Hlo Hhi; cbn [bisect_loop];
    destruct (Nat.leb_spec hi lo) as [C|C]; try lia.
  1, 2: exists lo; repeat split; [lia | done | intros; apply (Hhi j); [lia|done]].
  cbv zeta. set (mid := ((lo + hi) / 2)%nat).
  assert (lo <= mid < hi)%nat as Hm.
  { split; [apply Nat.div_le_lower_bound; lia | apply Nat.Div0.div_lt_upper_bound; lia]. }
  clearbody mid. destruct (lookup_lt_is_Some_2 a mid) as [am Eam]; [lia|]. rewrite Eam. cbn [or_raise mbind result_bind].
  destruct (lt x am) eqn:E; apply IH; try done; try lia.
  - intros j y Hj Ey. destruct (decide (j = mid)) as [->|]; [congruence|].
    eapply lt_trans; [exact E|]. eapply sorted_lookup; [done | | exact Eam | exact Ey]. lia.
  - intros j y Hj Ey. destruct (decide (j = mid)) as [->|]; [congruence|].
    eapply lt_trans_neg; [|exact E]. eapply sorted_lookup; [done | | exact Ey | exact Eam]. lia.
Qed.

Lemma bisect_spec a x :
  sorted a -> exists i, bisect lt a x = Ok i /\
    Forall (fun y => lt x y = false) (take i a) /\ Forall (fun y => lt x y = true) (drop i a).
Proof.
  intros Hs. destruct (bisect_loop_spec a x (length a) 0 (length a) Hs) as (i & E & Hi & H1 & H2);
    [lia | lia | lia | intros j y Hj Hy; apply lookup_lt_Some in Hy; lia |].
  exists i. split; [done|]. rewrite !list.Forall_lookup. split; intros j y.
  - rewrite lookup_take_Some. intros [Ey Hj]. by eapply H1.
  - rewrite lookup_drop. intros Ey. eapply H2; [|exact Ey]. lia.
Qed.

Lemma insort_sorted a x :
  sorted a -> (forall u v, lt u v = true -> lt v u = false) ->
  exists a', insort lt a x = Ok a' /\ sorted a' /\ a' ≡ₚ x :: a.
Proof.
  intros Hs Has. unfold insort. destruct (bisect_spec a x Hs) as (i & -> & H1 & H2). cbn [mbind result_bind].
  eexists; split; [reflexivity|]. split; [|by rewrite <- Permutation_middle, take_drop].
  assert (sorted (take i a ++ drop i a)) as Hsp by by rewrite take_drop.
  revert H1 H2 Hsp. generalize (take i a) (drop i a). intros l1 l2 H1 H2 Hsp.
  induction H1 as [|y l1 Hy H1 IH]; cbn [app] in *.
  - constructor; [done|]. eapply list.Forall_impl; [exact H2|]. cbn. intros. by apply Has.
  - apply StronglySorted_inv in Hsp as [Hsp Hall]. constructor; [by apply IH|].
    rewrite list.Forall_app in Hall. destruct Hall as [Ha1 Ha2].
    rewrite list.Forall_app. split; [done|]. by constructor.
Qed.

End BisectCorrect.

(** ** The store against the log of all points *)

Section Store.
Import InMemoryMetricsStore.
Local Open Scope Q_scope.

Lemma point_lt_laws :
  (forall x y z, point_lt y x = false -> point_lt z y = false -> point_lt z x = false) /\
  (forall x y z, point_lt x y = true -> point_lt z y = false -> point_lt x z = true) /\
  (forall x y, point_lt x y = true -> point_lt y x = false).
Proof.
  unfold point_lt. repeat split; intros *; rewrite ?Qlt_bool_iff, ?Qlt_bool_false; lra.
Qed.

(** A call of the store *)
Inductive store_op : Type :=
| AddPoints (data_points : dict string Q) (ts : Q)
| Average (key : string) (window_start : Q) (do_compact : bool).

Definition store_do (o : store_op) : ST InMemoryMetricsStore unit :=
  match o with
  | AddPoints data_points ts => add_metrics_point data_points ts
  | Average key w c => _ ← window_average key w c; mret tt
  end.

Definition store_run (ops : list store_op) : ST InMemoryMetricsStore unit := st_for ops store_do.

(** All points added under a key, and the windows asked for under it *)
Definition points_of (key : string) (data_points : dict string Q) (ts : Q) : list TimeStampedValue :=
  map (fun nv => mkPoint ts nv.2) (filter (fun nv => nv.1 = key) data_points).
Definition op_points (key : string) (o : store_op) : list TimeStampedValue :=
  match o with AddPoints d ts => points_of key d ts | Average _ _ _ => [] end.
Definition op_windows (key : string) (o : store_op) : list Q :=
  match o with AddPoints _ _ => [] | Average k w _ => if decide (k = key) then [w] else [] end.

(** The average of the points after the start of the window *)
Definition is_average (w : Q) (points : list TimeStampedValue) (r : option Q) : Prop :=
  let after := filter (fun p => w < timestamp p) points in
  match r with
  | None => after = []
  | Some q => after <> [] /\ q * inject_Z (Z.of_nat (length after)) == Qsum (map value after)
  end.

Local Abbreviation sorted := (StronglySorted (fun a b => point_lt b a = false)).

(** The store holds every point of the log that is not older than a window
    of the past, in the order of their timestamps. *)
Record store_inv (log : string -> list TimeStampedValue) (ws : string -> list Q) (s : InMemoryMetricsStore) : Prop := {
  inv_sorted : forall k, sorted (dget_or k [] s);
  inv_log : forall k, exists dropped, log k ≡ₚ dget_or k [] s ++ dropped /\
    Forall (fun p => exists w, w ∈ ws k /\ timestamp p <= w) dropped
}.

Lemma data_getitem_ok k s :
  exists s', data_getitem k s = (s', Ok (dget_or k [] s)) /\ forall k', dget_or k' [] s' = dget_or k' [] s.
Proof.
  unfold data_getitem. st_simpl. eexists; split.
  - f_equal. f_equal. unfold dsetdefault, dmem, dget_or. destruct (dget k s) eqn:E; [by rewrite E|].
    by rewrite dget_dset_eq.
  - intros k'. unfold dsetdefault, dmem, dget_or. destruct (dget k s) eqn:E; [done|].
    rewrite dget_dset. case_decide; [subst; by rewrite E | done].
Qed.

Lemma add_point_inv log ws s k v ts :
  store_inv log ws s ->
  exists s', (a ← data_getitem k; a' ← st_lift (insort point_lt a (mkPoint ts v)); st_modify (dset k a')) s = (s', Ok tt)
    /\ store_inv (fun k' => if decide (k = k') then mkPoint ts v :: log k' else log k') ws s'.
Proof.
  intros [Hs Hl]. destruct point_lt_laws as (L1 & L2 & L3).
  destruct (data_getitem_ok k s) as (s1 & E1 & H1). st_simpl. rewrite E1.
  destruct (insort_sorted point_lt L1 L2 (dget_or k [] s) (mkPoint ts v) (Hs k) L3) as (a' & -> & Hs' & Hp').
  eexists; split; [reflexivity|]. split; intros k'; rewrite dget_or_dset, H1; case_decide as E; subst;
    rewrite ?decide_True by done; try rewrite (decide_False (P := k = k')) by congruence; try done.
  destruct (Hl k') as (dr & Hdr & Hw). exists dr. split; [|done]. by rewrite Hdr, Hp'.
Qed.

Lemma store_inv_ext log log' ws ws' s :
  (forall k, log k ≡ₚ log' k) -> (forall k, ws k ⊆ ws' k) -> store_inv log ws s -> store_inv log' ws' s.
Proof.
  intros Hl Hw [Hs Hi]. split; [done|]. intros k. destruct (Hi k) as (dr & Hdr & Hf).
  exists dr. split; [by rewrite <- Hl|]. eapply list.Forall_impl; [exact Hf|]. cbn.
  intros p (w & Hin & Hle). exists w. split; [by apply Hw | done].
Qed.

Lemma add_metrics_point_inv log ws s d ts :
  store_inv log ws s ->
  exists s', add_metrics_point d ts s = (s', Ok tt) /\ store_inv (fun k => points_of k d ts ++ log k) ws s'.
Proof.
  unfold add_metrics_point. revert log s. induction d as [|[k v] d IH]; intros log s Hi; cbn [st_for]; [by exists s|].
  destruct (add_point_inv log ws s k v ts Hi) as (s1 & E1 & H1). cbn [fst snd].
  unfold mbind at 1, ST_bind at 1. cbn [fst snd]. rewrite E1. destruct (IH _ s1 H1) as (s' & E' & H').
  exists s'. split; [done|]. eapply store_inv_ext; [| |exact H']; [|done]. intros k'. cbn beta.
  unfold points_of. rewrite filter_cons. cbn [fst]. case_decide; [|done]. cbn [map snd].
  by rewrite <- Permutation_middle.
Qed.

(** What the binary search cuts off *)
Lemma window_split a w :
  sorted a -> exists i, bisect point_lt a (mkPoint w 0) = Ok i /\
    filter (fun p => w < timestamp p) a = drop i a /\ Forall (fun p => timestamp p <= w) (take i a).
Proof.
  intros Hs. destruct point_lt_laws as (L1 & L2 & _).
  destruct (bisect_spec point_lt L1 L2 a (mkPoint w 0) Hs) as (i & -> & H1 & H2). exists i. split; [done|].
  unfold point_lt in *. cbn [timestamp] in *. split.
  - rewrite <- (take_drop i a) at 1. rewrite filter_app. rewrite (filter_all _ (drop i a)).
    + rewrite (filter_none _ (take i a)); [done|]. eapply list.Forall_impl; [exact H1|]. cbn. intros p Hp.
      apply Qlt_bool_false in Hp. lra.
    + eapply list.Forall_impl; [exact H2|]. cbn. intros p Hp. by apply Qlt_bool_iff in Hp.
  - eapply list.Forall_impl; [exact H1|]. cbn. intros p Hp. by apply Qlt_bool_false in Hp.
Qed.

(** The points that were dropped are older than the window. *)
Lemma log_average a dr log w i :
  log ≡ₚ a ++ dr -> filter (fun p => w < timestamp p) a = drop i a -> Forall (fun p => timestamp p <= w) dr ->
  is_average w log (if (length (drop i a) =? 0)%nat then None
                    else Some (Qsum (map value (drop i a)) / inject_Z (Z.of_nat (length (drop i a))))).
Proof.
  intros Hp Hf Hd. assert (filter (fun p => w < timestamp p) log ≡ₚ drop i a) as E.
  { rewrite Hp, filter_app, Hf, (filter_none _ dr), app_nil_r; [done|].
    eapply list.Forall_impl; [exact Hd|]. cbn. intros. lra. }
  unfold is_average. cbv zeta. destruct (Nat.eqb_spec (length (drop i a)) 0) as [C|C].
  - apply nil_length_inv in C. rewrite C in E. by apply Permutation_nil_r in E.
  - split; [intros C'; rewrite C' in E; apply C; by rewrite <- E|].
    rewrite (Permutation_length E), (Qsum_Permutation _ _ (Permutation_map value E)), Qmult_comm. apply Qmult_div_r. unfold Qeq. cbn. lia.
Qed.

Lemma window_average_inv log ws s k w c :
  store_inv log ws s ->
  exists s' r, window_average k w c s = (s', Ok r) /\
    store_inv log (fun k' => if decide (k = k') then w :: ws k' else ws k') s' /\
    (Forall (fun w' => w' <= w) (ws k) -> is_average w (log k) r).
Proof.
  intros [Hs Hl]. unfold window_average. destruct (data_getitem_ok k s) as (s1 & E1 & H1). st_simpl. rewrite E1.
  destruct (window_split (dget_or k [] s) w (Hs k)) as (i & -> & Hf & Ht).
  set (a := dget_or k [] s) in *. destruct (Hl k) as (dr & Hdr & Hw). fold a in Hdr.
  set (r := if (length (drop i a) =? 0)%nat then None else Some (Qsum (map value (drop i a)) / inject_Z (Z.of_nat (length (drop i a))))).
  exists (if c then dset k (drop i a) s1 else s1), r. split; [|split].
  - unfold r. by destruct c, (length (drop i a) =? 0)%nat.
  - split; intros k'.
    + destruct c; rewrite ?dget_or_dset, H1; [|done]. case_decide; [|done]. subst k'.
      specialize (Hs k). fold a in Hs. rewrite <- (take_drop i a) in Hs. by eapply StronglySorted_app_1_r.
    + destruct (Hl k') as (dr' & Hdr' & Hw').
      assert (Forall (fun p => exists w0, w0 ∈ (if decide (k = k') then w :: ws k' else ws k') /\ timestamp p <= w0) dr') as Hw2.
      { eapply list.Forall_impl; [exact Hw'|]. cbn. intros p (w0 & ? & ?). exists w0.
        split; [|done]. case_decide; [by right | done]. }
      destruct c; rewrite ?dget_or_dset, H1; [|by exists dr'].
      case_decide as E; [|by exists dr']. subst k'. exists (take i a ++ dr'). split.
      * rewrite Hdr'. fold a. rewrite <- (take_drop i a) at 1. by rewrite (Permutation_app_comm (take i a)), <- app_assoc.
      * apply list.Forall_app. split; [|done]. eapply list.Forall_impl; [exact Ht|]. cbn. intros p Hp.
        exists w. split; [left | done].
  - intros Hle. eapply log_average; [exact Hdr | exact Hf |]. eapply list.Forall_impl; [exact Hw|]. cbn.
    intros p (w' & Hin & Hp). rewrite list.Forall_forall in Hle. specialize (Hle w' Hin). lra.
Qed.

Lemma store_run_inv ops : forall log ws s,
  store_inv log ws s ->
  exists s', store_run ops s = (s', Ok tt) /\
    store_inv (fun k => flat_map (op_points k) ops ++ log k) (fun k => flat_map (op_windows k) ops ++ ws k) s'.
Proof.
  unfold store_run. induction ops as [|o ops IH]; intros log ws s Hi; cbn [st_for]; [by exists s|].
  assert (exists s1, store_do o s = (s1, Ok tt) /\
            store_inv (fun k => op_points k o ++ log k) (fun k => op_windows k o ++ ws k) s1) as (s1 & E1 & H1).
  { destruct o as [d ts|k w c]; cbn [store_do].
    - by destruct (add_metrics_point_inv log ws s d ts Hi) as (s1 & -> & ?); exists s1.
    - destruct (window_average_inv log ws s k w c Hi) as (s1 & r & E & ? & _). st_simpl. rewrite E.
      exists s1. split; [done|]. eapply store_inv_ext; [| |eassumption]; intros k'; cbn; [done|].
      by case_decide. }
  st_simpl. rewrite E1. destruct (IH _ _ s1 H1) as (s' & E' & H'). exists s'. split; [done|].
  eapply store_inv_ext; [| |exact H']; intros k; cbn [flat_map].
  - by rewrite !app_assoc, (Permutation_app_comm (op_points k o)).
  - intros x. rewrite !elem_of_app. tauto.
Qed.

Lemma store_inv_init : store_inv (fun _ => []) (fun _ => []) __init__.
Proof. split; intros k; [constructor | by exists []]. Qed.

(** Whatever points were added and whatever windows were asked for
    before, as long as no earlier window of the same key started later,
    [window_average] raises nothing and returns the average of all points
    ever added under the key with a timestamp after the start of the window
    ([None] when there is none): the binary search, the sorted insertion and
    the compaction lose nothing. *)
Theorem window_average_of_log (ops : list store_op) (k : string) (w : Q) (c : bool) :
  Forall (fun w' => w' <= w) (flat_map (op_windows k) ops) ->
  exists s s' r, store_run ops __init__ = (s, Ok tt) /\ window_average k w c s = (s', Ok r) /\
    is_average w (flat_map (op_points k) ops) r.
Proof.
  intros Hw. destruct (store_run_inv ops _ _ _ store_inv_init) as (s & E & Hi).
  destruct (window_average_inv _ _ s k w c Hi) as (s' & r & E' & _ & Ha).
  exists s, s', r. split; [done|]. split; [done|]. cbn beta in Ha. rewrite !app_nil_r in Ha. by apply Ha.
Qed.

Lemma window_average_of_log_witness :
  let ops := [AddPoints [("a", 4); ("b", 1)] 10; AddPoints [("a", 2)] 5; Average "a" 5 true; AddPoints [("a", 8)] 7]%string in
  exists s s' r, store_run ops __init__ = (s, Ok tt) /\ window_average "a" 6 true s = (s', Ok r) /\
    is_average 6 (flat_map (op_points "a") ops) r.
Proof.
  intros ops. apply (window_average_of_log ops "a" 6 true). by_compute.
Defined.

(** A point at the very start of the window is not part of it. *)
Example window_start_excluded :
  (store_run [AddPoints [("a", 4)] 10]%string ≫= fun _ => window_average "a" 10 false) __init__
  = ([("a", [mkPoint 10 4])]%string, Ok None).
Proof. vm_compute. reflexivity. Qed.

End Store.

(** ** The policy's decisions *)

Section Policy.
Import BasicAutoscalingPolicy.
Implicit Types (cfg : AutoscalingConfig) (p : BasicAutoscalingPolicy).

Lemma Qceiling_spec q n : (Qceiling q <= n)%Z <-> (q <= inject_Z n)%Q.
Proof.
  split; intros H.
  - pose proof (Qle_ceiling q). rewrite Zle_Qle in H. lra.
  - apply Z.nlt_ge. intros C. pose proof (Qceiling_lt q).
    assert (n <= Qceiling q - 1)%Z as Hn by lia. rewrite Zle_Qle in Hn. lra.
Qed.

(** Without smoothing the ratio of errors is the total load over the target. *)
Lemma unsmoothed_ratio (n t : Z) (total : Q) :
  (n <> 0)%Z -> (t <> 0)%Z ->
  (inject_Z n * (1 + (total / inject_Z n / inject_Z t - 1) * 1) == total / inject_Z t)%Q.
Proof.
  intros Hn Ht. field. unfold Qeq. cbn. lia.
Qed.

Lemma div_le_iff (a : Q) (n t : Z) :
  (0 < t)%Z -> (a / inject_Z t <= inject_Z n <-> a <= inject_Z (n * t))%Q.
Proof.
  intros Ht. assert (0 < inject_Z t)%Q by (rewrite Zlt_Qlt in Ht; exact Ht). rewrite inject_Z_mult. split; intros Hle.
  - assert (a == a / inject_Z t * inject_Z t)%Q as -> by (field; lra). by apply Qmult_le_compat_r; [|lra].
  - by apply Qle_shift_div_r.
Qed.

(** [calculate_desired_num_replicas] raises [ValueError] without
    replicas and [ZeroDivisionError] for a target of 0. Otherwise the result
    is at least [min_replicas] and, when the limits are consistent, at most
    [max_replicas]; with the default smoothing factor it is the least number
    of replicas within the limits that can serve the ongoing requests at the
    target load per replica, or the maximum when that is not enough. *)
Theorem desired_num_replicas_least cfg (reqs : list Q) :
  let t := target_num_ongoing_requests_per_replica cfg in
  calculate_desired_num_replicas cfg [] = Err ValueError /\
  (reqs <> [] -> t = 0%Z -> calculate_desired_num_replicas cfg reqs = Err ZeroDivisionError) /\
  (reqs <> [] -> (0 < t)%Z ->
     exists d, calculate_desired_num_replicas cfg reqs = Ok d /\
       (min_replicas cfg <= d)%Z /\
       ((min_replicas cfg <= max_replicas cfg)%Z -> (d <= max_replicas cfg)%Z) /\
       ((smoothing_factor cfg == 1)%Q ->
        forall n, (min_replicas cfg <= n < max_replicas cfg)%Z ->
          ((d <= n)%Z <-> (Qsum reqs <= inject_Z (n * t))%Q))).
Proof.
  intros t. split; [done|]. unfold calculate_desired_num_replicas. fold t. cbv zeta. split; intros Hr Ht;
    destruct (Z.eqb_spec (Z.of_nat (length reqs)) 0) as [C|C];
    try (destruct reqs; cbn in C; [done | lia]).
  - by rewrite Ht.
  - rewrite (proj2 (Z.eqb_neq t 0)) by lia. eexists; split; [reflexivity|]. split; [lia|]. split; [lia|].
    intros Hs n Hn. rewrite <- div_le_iff by lia.
    match goal with |- context [Qceiling ?x] => set (X := x) in * end.
    assert (X == Qsum reqs / inject_Z t)%Q as E by (unfold X; rewrite Hs; by apply unsmoothed_ratio; lia).
    rewrite <- E, <- Qceiling_spec. lia.
Qed.

Lemma desired_num_replicas_least_witness :
  let cfg := mkConfig 1 10 2 10 30 1 600 30 in
  calculate_desired_num_replicas cfg [3; 4; 1 # 2]%Q = Ok 4%Z /\
  ((4 <= 3)%Z <-> (Qsum [3; 4; 1 # 2] <= inject_Z (3 * 2))%Q).
Proof.
  intros cfg. destruct (desired_num_replicas_least cfg [3; 4; 1 # 2]%Q) as (_ & _ & H).
  destruct (H ltac:(done) ltac:(by_compute)) as (d & E & _ & _ & Hn).
  assert (d = 4%Z) as -> by (vm_compute in E; congruence).
  split; [exact E|]. apply (Hn ltac:(reflexivity) 3%Z). by_compute.
Defined.

(** *** Sequences of calls *)

(** The metrics and the current target of one call *)
Abbreviation call := (list Q * Z)%type.

(** How the desired number compares with the target; [None] without metrics *)
Definition wants cfg (c : call) : option comparison :=
  match calculate_desired_num_replicas cfg c.1 with Ok d => Some (d ?= c.2)%Z | Err _ => None end.

Fixpoint policy_run (cs : list call) : ST BasicAutoscalingPolicy (list Z) :=
  match cs with
  | [] => mret []
  | c :: cs' => d ← get_decision_num_replicas c.1 c.2; ds ← policy_run cs'; mret (d :: ds)
  end.

Definition with_metrics cfg (cs : list call) : list call := filter (fun c => is_Some (wants cfg c)) cs.

(** The last [n] calls all compare in the same way. *)
Definition streak cfg (dir : comparison) (n : nat) (past : list call) : Prop :=
  (n <= length past)%nat /\ Forall (fun c => wants cfg c = Some dir) (slice_last n past).

Lemma streak_0 cfg dir past : streak cfg dir 0 past.
Proof. split; [lia|]. unfold slice_last. by rewrite Nat.sub_0_r, drop_all. Qed.

Lemma streak_snoc cfg dir n past c :
  streak cfg dir n past -> wants cfg c = Some dir -> streak cfg dir (S n) (past ++ [c]).
Proof.
  intros [Hn Hf] Hc. unfold streak, slice_last in *. rewrite length_app. cbn [length]. split; [lia|].
  replace (length past + 1 - S n)%nat with (length past - n)%nat by lia. rewrite drop_app_le by lia.
  apply list.Forall_app. split; [done | by constructor].
Qed.

Lemma streak_le cfg dir n m past : (m <= n)%nat -> streak cfg dir n past -> streak cfg dir m past.
Proof.
  intros Hm [Hn Hf]. split; [lia|]. unfold slice_last in *.
  replace (length past - m)%nat with (length past - n + (n - m))%nat by lia. rewrite <- drop_drop. by apply Forall_drop.
Qed.

(** One call, by the outcome of the comparison *)
Lemma decision_step p c :
  target_num_ongoing_requests_per_replica (config p) <> 0%Z ->
  match wants (config p) c with
  | None => get_decision_num_replicas c.1 c.2 p = (p, Ok c.2)
  | Some dir => exists d, calculate_desired_num_replicas (config p) c.1 = Ok d /\ (d ?= c.2)%Z = dir /\
      get_decision_num_replicas c.1 c.2 p =
        match dir with
        | Eq => (set_counter 0 p, Ok c.2)
        | Gt => let n := (Z.max 0 (decision_counter p) + 1)%Z in
                if (scale_up_consecutive_periods p <? n)%Z then (set_counter 0 p, Ok d)
                else (set_counter n p, Ok c.2)
        | Lt => let n := (Z.min 0 (decision_counter p) - 1)%Z in
                if (n <? - scale_down_consecutive_periods p)%Z then (set_counter 0 p, Ok d)
                else (set_counter n p, Ok c.2)
        end
  end.
Proof.
  intros Ht. destruct c as [reqs cur]. unfold wants, get_decision_num_replicas. cbn [fst snd].
  destruct reqs as [|q reqs]; [done|]. cbn [length Nat.eqb]. st_simpl.
  assert (exists d, calculate_desired_num_replicas (config p) (q :: reqs) = Ok d) as [d Ed].
  { unfold calculate_desired_num_replicas. cbn [length]. rewrite (proj2 (Z.eqb_neq _ 0)) by lia.
    rewrite (proj2 (Z.eqb_neq _ 0) Ht). by eexists. }
  rewrite Ed. exists d. split; [done|]. split; [done|].
  destruct (Z.compare_spec d cur) as [->|C|C].
  - by rewrite Z.ltb_irrefl.
  - rewrite (proj2 (Z.ltb_ge cur d)), (proj2 (Z.ltb_lt d cur)) by lia.
    replace (if (0 <? decision_counter p)%Z then 0%Z else decision_counter p) with (Z.min 0 (decision_counter p))
      by (destruct (Z.ltb_spec 0 (decision_counter p)); lia). by destruct (_ <? _)%Z.
  - rewrite (proj2 (Z.ltb_lt cur d)) by lia.
    replace (if (decision_counter p <? 0)%Z then 0%Z else decision_counter p) with (Z.max 0 (decision_counter p))
      by (destruct (Z.ltb_spec (decision_counter p) 0); lia). by destruct (_ <? _)%Z.
Qed.

(** The counter's size is the length of a streak in its direction. *)
Definition counter_inv cfg (past : list call) p : Prop :=
  p = set_counter (decision_counter p) (__init__ cfg) /\
  (0 < decision_counter p -> decision_counter p <= scale_up_consecutive_periods p)%Z /\
  (decision_counter p < 0 -> - decision_counter p <= scale_down_consecutive_periods p)%Z /\
  streak cfg Gt (Z.to_nat (decision_counter p)) past /\
  streak cfg Lt (Z.to_nat (- decision_counter p)) past.

Lemma counter_inv_reset cfg past p :
  counter_inv cfg past p -> forall past', counter_inv cfg past' (set_counter 0 p).
Proof.
  intros (Hp & _) past'. unfold counter_inv. rewrite Hp. cbn [set_counter decision_counter].
  repeat split; try lia; apply streak_0.
Qed.

Lemma counter_inv_step cfg past p c :
  target_num_ongoing_requests_per_replica cfg <> 0%Z -> counter_inv cfg past p ->
  exists p' d, get_decision_num_replicas c.1 c.2 p = (p', Ok d) /\
    counter_inv cfg (past ++ with_metrics cfg [c]) p' /\
    (d <> c.2 -> calculate_desired_num_replicas cfg c.1 = Ok d /\
       ((c.2 < d)%Z -> streak cfg Gt (Z.to_nat (scale_up_consecutive_periods p)) past) /\
       ((d < c.2)%Z -> streak cfg Lt (Z.to_nat (scale_down_consecutive_periods p)) past)).
Proof.
  intros Ht Hinv. assert (exists n, p = set_counter n (__init__ cfg)) as [n ->] by (eexists; apply Hinv).
  pose proof Hinv as (_ & Hup & Hdn & Hg & Hl). set (p := set_counter n (__init__ cfg)) in *.
  assert (config p = cfg) as Hc by done.
  pose proof (decision_step p c) as Hd. rewrite Hc in Hd. specialize (Hd Ht).
  unfold with_metrics. destruct (wants cfg c) as [dir|] eqn:Ew.
  2: { rewrite filter_cons_False by (rewrite Ew; by intros [? ?]). rewrite filter_nil, app_nil_r. by exists p, c.2. }
  rewrite filter_cons_True by (rewrite Ew; by eexists). rewrite filter_nil.
  destruct Hd as (d & Ed & Hcmp & ->). destruct dir; cbv zeta.
  - exists (set_counter 0 p), c.2. split; [done|]. split; [by eapply counter_inv_reset | done].
  - rewrite Z.compare_lt_iff in Hcmp. destruct (Z.ltb_spec (Z.min 0 (decision_counter p) - 1) (- scale_down_consecutive_periods p)) as [C|C].
    + exists (set_counter 0 p), d. split; [done|]. split; [by eapply counter_inv_reset|]. intros _. split; [done|].
      split; [intros; exfalso; lia|]. intros _. eapply streak_le; [|exact Hl]. lia.
    + eexists _, c.2. split; [done|]. split; [|done].
      unfold counter_inv, p in *. cbn [set_counter decision_counter scale_down_consecutive_periods] in *.
      split; [done|]. split; [lia|]. split; [lia|].
      split; [replace (Z.to_nat _) with O by lia; apply streak_0|].
      eapply streak_le; [|apply (streak_snoc _ _ _ _ _ Hl Ew)]. lia.
  - rewrite Z.compare_gt_iff in Hcmp. destruct (Z.ltb_spec (scale_up_consecutive_periods p) (Z.max 0 (decision_counter p) + 1)) as [C|C].
    + exists (set_counter 0 p), d. split; [done|]. split; [by eapply counter_inv_reset|]. intros _. split; [done|].
      split; [|intros; exfalso; lia]. intros _. eapply streak_le; [|exact Hg]. lia.
    + eexists _, c.2. split; [done|]. split; [|done].
      unfold counter_inv, p in *. cbn [set_counter decision_counter scale_up_consecutive_periods] in *.
      split; [done|]. split; [lia|]. split; [lia|].
      split; [|replace (Z.to_nat _) with O by lia; apply streak_0].
      eapply streak_le; [|apply (streak_snoc _ _ _ _ _ Hg Ew)]. lia.
Qed.

Lemma policy_run_inv cfg cs : forall past p,
  target_num_ongoing_requests_per_replica cfg <> 0%Z -> counter_inv cfg past p ->
  exists p' ds, policy_run cs p = (p', Ok ds) /\ counter_inv cfg (past ++ with_metrics cfg cs) p'.
Proof.
  induction cs as [|c cs IH]; intros past p Ht Hi; cbn [policy_run].
  - exists p, []. split; [done|]. unfold with_metrics. by rewrite filter_nil, app_nil_r.
  - destruct (counter_inv_step cfg past p c Ht Hi) as (p1 & d & E1 & H1 & _). st_simpl. rewrite E1.
    destruct (IH _ p1 Ht H1) as (p' & ds & E' & H'). fold (policy_run cs). rewrite E'.
    exists p', (d :: ds). split; [done|]. rewrite <- app_assoc in H'. unfold with_metrics in *.
    by rewrite <- filter_app in H'.
Qed.

Lemma counter_inv_init cfg : counter_inv cfg [] (__init__ cfg).
Proof. split; [done|]. cbn [__init__ decision_counter]. repeat split; try (intros; lia); apply streak_0. Qed.

(** A call of the sequence that changed the number of replicas *)
Definition scaled (dir : comparison) (cs : list call) (ds : list Z) : Prop :=
  exists i c d, cs !! i = Some c /\ ds !! i = Some d /\ (d ?= c.2)%Z = dir.

Lemma scaled_cons dir c d cs ds : scaled dir cs ds -> scaled dir (c :: cs) (d :: ds).
Proof. intros (i & c' & d' & ? & ? & ?). by exists (S i), c', d'. Qed.

(** The distance of the counter from 0 in a direction, and its limit *)
Definition toward (dir : comparison) (n : Z) : Z :=
  match dir with Gt => Z.max 0 n | Lt => Z.max 0 (- n) | Eq => 0%Z end.
Definition periods (dir : comparison) p : Z :=
  match dir with Gt => scale_up_consecutive_periods p | Lt => scale_down_consecutive_periods p | Eq => 0%Z end.

(** A call in direction [dir] scales, or moves the counter one further. *)
Lemma decision_toward p c dir :
  dir <> Eq -> target_num_ongoing_requests_per_replica (config p) <> 0%Z -> wants (config p) c = Some dir ->
  exists p' d, get_decision_num_replicas c.1 c.2 p = (p', Ok d) /\ p' = set_counter (decision_counter p') p /\
    ((d ?= c.2)%Z = dir \/
     toward dir (decision_counter p') = (toward dir (decision_counter p) + 1)%Z /\
     (toward dir (decision_counter p') <= periods dir p)%Z).
Proof.
  intros Hne Ht Hw. pose proof (decision_step p c Ht) as Hd. rewrite Hw in Hd. destruct Hd as (d & _ & Hc & E).
  rewrite E. destruct dir; [done| |]; cbv zeta in *; cbn [toward periods];
    match goal with |- context [(?x <? ?y)%Z] => destruct (Z.ltb_spec x y) end; eexists _, _; (split; [reflexivity|]); (split; [done|]);
    first [by left | right; cbn [set_counter decision_counter]; lia].
Qed.

Lemma policy_run_toward dir more : forall p,
  dir <> Eq -> target_num_ongoing_requests_per_replica (config p) <> 0%Z ->
  Forall (fun c => wants (config p) c = Some dir) more ->
  exists p' ds, policy_run more p = (p', Ok ds) /\
    (scaled dir more ds \/
     (toward dir (decision_counter p) + Z.of_nat (length more)
      <= Z.max (toward dir (decision_counter p)) (periods dir p))%Z).
Proof.
  induction more as [|c more IH]; intros p Hne Ht Hall; cbn [policy_run].
  - exists p, []. split; [done|]. right. cbn. lia.
  - apply list.Forall_cons in Hall as [Hc Hall]. st_simpl.
    destruct (decision_toward p c dir Hne Ht Hc) as (p1 & d & -> & Hp1 & Hor).
    destruct (IH p1) as (p' & ds & E & Hr); [done | by rewrite Hp1.. |]. fold (policy_run more). rewrite E.
    exists p', (d :: ds). split; [done|]. destruct Hor as [Hs|[Ht1 Hle]]; [left; by exists O, c, d|].
    destruct Hr as [Hr|Hr]; [left; by apply scaled_cons | right].
    assert (periods dir p1 = periods dir p) as Hper by (rewrite Hp1; by destruct dir).
    rewrite Hper in Hr. cbn [length]. lia.
Qed.

(** C40. Whatever calls came before, a decision of the policy that changes
    the number of replicas takes it to the desired number, and it is made only
    after at least [scale_up_consecutive_periods] (when it goes up;
    [scale_down_consecutive_periods] when it goes down) calls with metrics in
    a row that asked for the same direction. *)
Theorem policy_scales_after_streak cfg (cs : list call) (reqs : list Q) (cur : Z) :
  target_num_ongoing_requests_per_replica cfg <> 0%Z ->
  exists p ds p' d,
    policy_run cs (__init__ cfg) = (p, Ok ds) /\
    get_decision_num_replicas reqs cur p = (p', Ok d) /\
    (d <> cur -> calculate_desired_num_replicas cfg reqs = Ok d /\
       ((cur < d)%Z -> streak cfg Gt (Z.to_nat (scale_up_consecutive_periods p)) (with_metrics cfg cs)) /\
       ((d < cur)%Z -> streak cfg Lt (Z.to_nat (scale_down_consecutive_periods p)) (with_metrics cfg cs))).
Proof.
  intros Ht. destruct (policy_run_inv cfg cs [] _ Ht (counter_inv_init cfg)) as (p & ds & E & Hi).
  destruct (counter_inv_step cfg _ p (reqs, cur) Ht Hi) as (p' & d & Ed & _ & Hd).
  by exists p, ds, p', d.
Qed.

(** The policy does scale: in every reachable state,
    [scale_up_consecutive_periods + 1] calls that all ask for more replicas
    include one that answers with more replicas than the current target; the
    same holds for fewer replicas. *)
Theorem policy_eventually_scales cfg (cs more : list call) (dir : comparison) :
  target_num_ongoing_requests_per_replica cfg <> 0%Z -> dir <> Eq ->
  length more = S (Z.to_nat (periods dir (__init__ cfg))) ->
  Forall (fun c => wants cfg c = Some dir) more ->
  exists p ds p' ds',
    policy_run cs (__init__ cfg) = (p, Ok ds) /\ policy_run more p = (p', Ok ds') /\ scaled dir more ds'.
Proof.
  intros Ht Hne Hlen Hall. destruct (policy_run_inv cfg cs [] _ Ht (counter_inv_init cfg)) as (p & ds & E & Hi).
  destruct Hi as (Hp & Hup & Hdn & _ & _).
  assert (config p = cfg /\ periods dir p = periods dir (__init__ cfg)) as [Hc Hper] by (rewrite Hp; by destruct dir).
  destruct (policy_run_toward dir more p) as (p' & ds' & E' & Hr); [done | by rewrite Hc.. |].
  exists p, ds, p', ds'. split; [done|]. split; [done|]. destruct Hr as [?|Hr]; [done|]. exfalso.
  rewrite <- Hper in Hlen. destruct dir; cbn [toward periods] in *; [done | lia | lia].
Qed.

(** *** Witnesses *)

Definition quick_config : AutoscalingConfig := mkConfig 1 10 1 10 30 1 (1 # 5) (3 # 10).

Lemma policy_scales_after_streak_witness :
  target_num_ongoing_requests_per_replica quick_config <> 0%Z /\
  exists p ds p',
    policy_run (replicate 3 ([5%Q], 1%Z)) (__init__ quick_config) = (p, Ok ds) /\
    get_decision_num_replicas [5%Q] 1 p = (p', Ok 5%Z) /\
    streak quick_config Gt 3 (with_metrics quick_config (replicate 3 ([5%Q], 1%Z))).
Proof.
  split; [by_compute|].
  destruct (policy_scales_after_streak quick_config (replicate 3 ([5%Q], 1%Z)) [5%Q] 1 ltac:(by_compute))
    as (p & ds & p' & d & E & Ed & Hd).
  vm_compute in E. injection E as <- <-. vm_compute in Ed. injection Ed as <- <-.
  eexists _, _, _. split; [vm_compute; reflexivity|]. split; [vm_compute; reflexivity|].
  apply (proj1 (proj2 (Hd ltac:(by_compute)))). by_compute.
Defined.

Lemma policy_eventually_scales_witness :
  exists p ds p' ds',
    policy_run [([5%Q], 1%Z); ([], 1%Z)] (__init__ quick_config) = (p, Ok ds) /\
    policy_run (replicate 3 ([1%Q; 0%Q], 2%Z)) p = (p', Ok ds') /\ scaled Lt (replicate 3 ([1%Q; 0%Q], 2%Z)) ds'.
Proof.
  apply (policy_eventually_scales quick_config [([5%Q], 1%Z); ([], 1%Z)] (replicate 3 ([1%Q; 0%Q], 2%Z)) Lt);
    [by_compute | by_compute | vm_compute; reflexivity | by_compute].
Defined.

End Policy.
