(* ===== verification/ActorPool.v ===== *)
(** [ActorPool] of [ray.util]: tasks over a pool of actors
    ([util/actor_pool.py]). *)

From Stdlib Require Import ZArith QArith Lqa Lia.
From stdpp Require Import base list strings option relations.
From S2P Require Import Prelude PyDict.

(** [l.pop()]: the last element and the rest *)
Definition pop_last {A} (l : list A) : option (A * list A) :=
  match reverse l with [] => None | x :: r => Some (x, reverse r) end.

Module ActorPool.
Section ActorPool.
Context {Actor Fn Value Res : Type} `{!EqDecision Actor}.

(** The runtime answers every remote call [fn(actor, value)] with a new
    [ObjectRef]; it is modelled by the list of all calls so far, and an
    [ObjectRef] by the position of its call. *)
Abbreviation Future := nat.
Abbreviation Runtime := (list (Fn * Actor * Value)).

Record ActorPool : Type := mkPool {
  _idle_actors : list Actor;
  _future_to_actor : dict Future (Z * Actor);
  _index_to_future : dict Z Future;
  _next_task_index : Z;
  _next_return_index : Z;
  _pending_submits : list (Fn * Value)
}.

(** The pool and the calls made through it *)
Record World : Type := mkWorld { pool : ActorPool; calls : Runtime }.

(** [ray.wait(refs, num_returns=1, timeout)], the ready ones *)
Variable ray_wait : Runtime -> list Future -> option Q -> list Future.
(** What a call returns or raises once it is done, for [ray.get] *)
Variable task_result : Fn -> Actor -> Value -> result Res.

Definition ray_get (future : Future) (rt : Runtime) : result Res :=
  '(fn, actor, value) ← or_raise ValueError (rt !! future); task_result fn actor value.

Definition __init__ (actors : list Actor) : ActorPool := mkPool actors [] [] 0 0 [].

Definition set_idle (l : list Actor) (p : ActorPool) : ActorPool :=
  mkPool l (_future_to_actor p) (_index_to_future p) (_next_task_index p) (_next_return_index p) (_pending_submits p).
Definition set_pending (l : list (Fn * Value)) (p : ActorPool) : ActorPool :=
  mkPool (_idle_actors p) (_future_to_actor p) (_index_to_future p) (_next_task_index p) (_next_return_index p) l.
Definition set_futures (f : dict Future (Z * Actor)) (p : ActorPool) : ActorPool :=
  mkPool (_idle_actors p) f (_index_to_future p) (_next_task_index p) (_next_return_index p) (_pending_submits p).
Definition set_index (i : dict Z Future) (p : ActorPool) : ActorPool :=
  mkPool (_idle_actors p) (_future_to_actor p) i (_next_task_index p) (_next_return_index p) (_pending_submits p).
Definition set_next_task (n : Z) (p : ActorPool) : ActorPool :=
  mkPool (_idle_actors p) (_future_to_actor p) (_index_to_future p) n (_next_return_index p) (_pending_submits p).
Definition set_next_return (n : Z) (p : ActorPool) : ActorPool :=
  mkPool (_idle_actors p) (_future_to_actor p) (_index_to_future p) (_next_task_index p) n (_pending_submits p).

Definition on_pool (f : ActorPool -> ActorPool) : ST World unit :=
  st_modify (fun w => mkWorld (f (pool w)) (calls w)).

(** [fn(actor, value)] *)
Definition remote_call (fn : Fn) (actor : Actor) (value : Value) : ST World Future :=
  w ← st_get;
  _ ← st_put (mkWorld (pool w) (calls w ++ [(fn, actor, value)]));
  mret (length (calls w)).

Definition submit (fn : Fn) (value : Value) : ST World unit :=
  w ← st_get;
  match pop_last (_idle_actors (pool w)) with
  | Some (actor, idle) =>
      _ ← on_pool (set_idle idle);
      future ← remote_call fn actor value;
      _ ← on_pool (fun p => set_futures (dset future (_next_task_index p, actor) (_future_to_actor p)) p);
      _ ← on_pool (fun p => set_index (dset (_next_task_index p) future (_index_to_future p)) p);
      on_pool (fun p => set_next_task (_next_task_index p + 1) p)
  | None => on_pool (fun p => set_pending (_pending_submits p ++ [(fn, value)]) p)
  end.

Definition has_next (p : ActorPool) : bool := negb (bool_decide (_future_to_actor p = [])).

Definition _return_actor (actor : Actor) : ST World unit :=
  _ ← on_pool (fun p => set_idle (_idle_actors p ++ [actor]) p);
  w ← st_get;
  match _pending_submits (pool w) with
  | (fn, value) :: rest => _ ← on_pool (set_pending rest); submit fn value
  | [] => mret tt
  end.

(** [get_next] waits for the future only when it has a timeout. *)
Definition timed_out (future : Future) (timeout : option Q) (rt : Runtime) : bool :=
  match timeout with
  | Some _ => bool_decide (ray_wait rt [future] timeout = [])
  | None => false
  end.

Definition get_next (timeout : option Q) : ST World Res :=
  w ← st_get;
  let p := pool w in
  if negb (has_next p) then st_raise StopIteration
  else if (_next_task_index p <=? _next_return_index p)%Z then st_raise ValueError
  else
    future ← st_lift (dgetitem (_next_return_index p) (_index_to_future p));
    _ ← (if timed_out future timeout (calls w) then st_raise TimeoutError else mret tt);
    i2f ← st_lift (ddelitem (_next_return_index p) (_index_to_future p));
    _ ← on_pool (set_index i2f);
    _ ← on_pool (fun p => set_next_return (_next_return_index p + 1) p);
    '(_, a) ← st_lift (dgetitem future (_future_to_actor p));
    _ ← on_pool (fun p => set_futures (ddel future (_future_to_actor p)) p);
    _ ← _return_actor a;
    w' ← st_get;
    st_lift (ray_get future (calls w')).

Definition get_next_unordered (timeout : option Q) : ST World Res :=
  w ← st_get;
  let p := pool w in
  if negb (has_next p) then st_raise StopIteration
  else
    future ← (match ray_wait (calls w) (dkeys (_future_to_actor p)) timeout with
              | [] => st_raise TimeoutError
              | [future] => mret future
              | _ => st_raise ValueError
              end);
    '(i, a) ← st_lift (dgetitem future (_future_to_actor p));
    _ ← on_pool (fun p => set_futures (ddel future (_future_to_actor p)) p);
    _ ← _return_actor a;
    w' ← st_get;
    i2f ← st_lift (ddelitem i (_index_to_future (pool w')));
    _ ← on_pool (set_index i2f);
    _ ← on_pool (fun p => set_next_return (Z.max (_next_return_index p) (i + 1)) p);
    st_lift (ray_get future (calls w')).

Definition has_free (p : ActorPool) : bool :=
  (0 <? length (_idle_actors p))%nat && (length (_pending_submits p) =? 0)%nat.

Definition pop_idle : ST World (option Actor) :=
  w ← st_get;
  if has_free (pool w) then
    match pop_last (_idle_actors (pool w)) with
    | Some (actor, idle) => _ ← on_pool (set_idle idle); mret (Some actor)
    | None => st_raise IndexError
    end
  else mret None.

Definition push (actor : Actor) : ST World unit :=
  w ← st_get;
  let busy_actors := map snd (dvalues (_future_to_actor (pool w))) in
  if bool_decide (actor ∈ _idle_actors (pool w)) || bool_decide (actor ∈ busy_actors)
  then st_raise ValueError
  else on_pool (fun p => set_idle (_idle_actors p ++ [actor]) p).

(** The [while] loop of the generators [map] and [map_unordered]; the list
    is what they yield. *)
Fixpoint drain (fuel : nat) (next : ST World Res) : ST World (list Res) :=
  w ← st_get;
  if has_next (pool w) then
    match fuel with
    | O => st_raise OutOfFuel
    | S fuel' => r ← next; rs ← drain fuel' next; mret (r :: rs)
    end
  else mret [].

Definition map (fuel : nat) (fn : Fn) (values : list Value) : ST World (list Res) :=
  _ ← st_for values (submit fn);
  drain fuel (get_next None).

Definition map_unordered (fuel : nat) (fn : Fn) (values : list Value) : ST World (list Res) :=
  _ ← st_for values (submit fn);
  drain fuel (get_next_unordered None).

End ActorPool.
End ActorPool.

(** ** Facts about the operations *)

Lemma pop_last_snoc {A} (l : list A) x : pop_last (l ++ [x]) = Some (x, l).
Proof. unfold pop_last. rewrite reverse_snoc. by rewrite reverse_involutive. Qed.

Section Facts.
Import ActorPool.
Context {Actor Fn Value Res : Type} `{!EqDecision Actor}.
Variable ray_wait : list (Fn * Actor * Value) -> list nat -> option Q -> list nat.
Variable task_result : Fn -> Actor -> Value -> result Res.
Implicit Types (w : @World Actor Fn Value) (p : @ActorPool Actor Fn Value).

(** A call is started on an actor. *)
Definition started (fn : Fn) (a : Actor) (v : Value) (idle : list Actor) w : World :=
  let p := pool w in
  mkWorld (mkPool idle (dset (length (calls w)) (_next_task_index p, a) (_future_to_actor p))
             (dset (_next_task_index p) (length (calls w)) (_index_to_future p))
             (_next_task_index p + 1) (_next_return_index p) (_pending_submits p))
          (calls w ++ [(fn, a, v)]).

Lemma submit_idle w fn v idle a :
  _idle_actors (pool w) = idle ++ [a] -> submit fn v w = (started fn a v idle w, Ok tt).
Proof. intros E. unfold submit. st_simpl. by rewrite E, pop_last_snoc. Qed.

Lemma submit_busy w fn v :
  _idle_actors (pool w) = [] ->
  submit fn v w = (mkWorld (set_pending (_pending_submits (pool w) ++ [(fn, v)]) (pool w)) (calls w), Ok tt).
Proof. intros E. unfold submit. st_simpl. by rewrite E. Qed.

(** [_return_actor] starts the oldest pending submission on the actor. *)
Lemma return_actor_eq w a :
  _return_actor a w =
    (match _pending_submits (pool w) with
     | [] => mkWorld (set_idle (_idle_actors (pool w) ++ [a]) (pool w)) (calls w)
     | (fn, v) :: rest => started fn a v (_idle_actors (pool w)) (mkWorld (set_pending rest (pool w)) (calls w))
     end, Ok tt).
Proof.
  unfold _return_actor. st_simpl. cbn [on_pool st_modify set_idle _pending_submits pool].
  unfold on_pool. st_simpl. cbn [pool set_idle _pending_submits].
  destruct (_pending_submits (pool w)) as [|[fn v] rest] eqn:E; [done|].
  erewrite submit_idle; [|cbn; reflexivity]. by unfold started; cbn.
Qed.

(** The pool without the task of [future], and after its actor came back *)
Definition without (i : Z) (future : nat) (next_return : Z) w : World :=
  let p := pool w in
  mkWorld (mkPool (_idle_actors p) (ddel future (_future_to_actor p)) (ddel i (_index_to_future p))
             (_next_task_index p) next_return (_pending_submits p)) (calls w).

Lemma get_next_ok w t f i a :
  (_next_return_index (pool w) < _next_task_index (pool w))%Z ->
  dget (_next_return_index (pool w)) (_index_to_future (pool w)) = Some f ->
  dget f (_future_to_actor (pool w)) = Some (i, a) ->
  get_next ray_wait task_result t w =
    if timed_out ray_wait f t (calls w) then (w, Err TimeoutError)
    else let w' := (_return_actor a (without (_next_return_index (pool w)) f (_next_return_index (pool w) + 1) w)).1 in
         (w', ray_get task_result f (calls w')).
Proof.
  intros Hlt Hi Hf. unfold get_next. st_simpl. unfold has_next.
  rewrite bool_decide_eq_false_2 by (intros E; by rewrite E in Hf). cbn [negb].
  rewrite (proj2 (Z.leb_gt _ _)) by lia. unfold dgetitem, ddelitem, dmem. rewrite Hi. cbn [or_raise].
  destruct (timed_out ray_wait f t (calls w)); [done|]. rewrite Hf. cbn [or_raise]. unfold on_pool. st_simpl.
  cbn [pool calls set_index set_next_return set_futures _future_to_actor _index_to_future _next_return_index].
  unfold without. cbn zeta. rewrite !return_actor_eq. reflexivity.
Qed.

(** ** The pool as a queue

    As long as results are taken with [get_next], the running tasks stay in
    the order of submission in both dictionaries. *)

Abbreviation task := (Fn * Actor * Value)%type.
Definition submission (c : task) : Fn * Value := (c.1.1, c.2).
Definition actor_of (c : task) : Actor := c.1.2.

Fixpoint futures_of (i : Z) (rs : list (nat * task)) : dict nat (Z * Actor) :=
  match rs with [] => [] | (f, c) :: rs' => (f, (i, actor_of c)) :: futures_of (i + 1) rs' end.
Fixpoint indices_of (i : Z) (rs : list (nat * task)) : dict Z nat :=
  match rs with [] => [] | (f, _) :: rs' => (i, f) :: indices_of (i + 1) rs' end.

Lemma futures_of_snoc i rs f c :
  futures_of i (rs ++ [(f, c)]) = futures_of i rs ++ [(f, ((i + Z.of_nat (length rs))%Z, actor_of c))].
Proof.
  revert i. induction rs as [|[f' c'] rs IH]; intros i; cbn [futures_of app length].
  - by rewrite Z.add_0_r.
  - rewrite IH. cbn [app]. by replace (i + 1 + Z.of_nat (length rs))%Z with (i + Z.of_nat (S (length rs)))%Z by lia.
Qed.

Lemma indices_of_snoc i rs f c :
  indices_of i (rs ++ [(f, c)]) = indices_of i rs ++ [((i + Z.of_nat (length rs))%Z, f)].
Proof.
  revert i. induction rs as [|[f' c'] rs IH]; intros i; cbn [indices_of app length].
  - by rewrite Z.add_0_r.
  - rewrite IH. cbn [app]. by replace (i + 1 + Z.of_nat (length rs))%Z with (i + Z.of_nat (S (length rs)))%Z by lia.
Qed.

Lemma dkeys_futures_of i rs : dkeys (futures_of i rs) = rs.*1.
Proof.
  revert i. induction rs as [|[f c] rs IH]; intros i; [done|]. cbn [futures_of]. by rewrite dkeys_cons, IH.
Qed.

Lemma indices_of_range i rs j : j ∈ dkeys (indices_of i rs) -> (i <= j < i + Z.of_nat (length rs))%Z.
Proof.
  revert i. induction rs as [|[f c] rs IH]; intros i; cbn [indices_of]; [by intros ?%elem_of_nil|].
  rewrite dkeys_cons, elem_of_cons. cbn [length]. intros [->|H]; [lia|]. apply IH in H. lia.
Qed.

Record fifo_rel (actors : list Actor) (submitted q : list (Fn * Value)) (rs : list (nat * task)) w : Prop := mkFifo {
  fifo_futures : _future_to_actor (pool w) = futures_of (_next_return_index (pool w)) rs;
  fifo_indices : _index_to_future (pool w) = indices_of (_next_return_index (pool w)) rs;
  fifo_next : _next_task_index (pool w) = (_next_return_index (pool w) + Z.of_nat (length rs))%Z;
  fifo_nodup : NoDup rs.*1;
  fifo_calls : Forall (fun r => calls w !! r.1 = Some r.2) rs;
  fifo_queue : q = List.map submission rs.*2 ++ _pending_submits (pool w);
  fifo_pending : _pending_submits (pool w) <> [] -> _idle_actors (pool w) = [];
  fifo_actors : _idle_actors (pool w) ++ List.map actor_of rs.*2 ≡ₚ actors;
  fifo_submitted : List.map submission (calls w) ++ _pending_submits (pool w) = submitted
}.

(** Starting a call adds it at the end. *)
Lemma started_fifo w rs fn a v idle :
  _future_to_actor (pool w) = futures_of (_next_return_index (pool w)) rs ->
  _index_to_future (pool w) = indices_of (_next_return_index (pool w)) rs ->
  _next_task_index (pool w) = (_next_return_index (pool w) + Z.of_nat (length rs))%Z ->
  NoDup rs.*1 -> Forall (fun r => calls w !! r.1 = Some r.2) rs ->
  let w' := started fn a v idle w in let rs' := rs ++ [(length (calls w), (fn, a, v))] in
  _future_to_actor (pool w') = futures_of (_next_return_index (pool w')) rs' /\
  _index_to_future (pool w') = indices_of (_next_return_index (pool w')) rs' /\
  _next_task_index (pool w') = (_next_return_index (pool w') + Z.of_nat (length rs'))%Z /\
  NoDup rs'.*1 /\ Forall (fun r => calls w' !! r.1 = Some r.2) rs'.
Proof.
  intros HF HI Hn Hnd Hc w' rs'. unfold w', rs', started. cbn [pool calls _future_to_actor _index_to_future _next_task_index _next_return_index].
  assert (length (calls w) ∉ rs.*1) as Hfresh.
  { intros (r & E & Hr)%list_elem_of_fmap. rewrite list.Forall_forall in Hc. specialize (Hc r Hr).
    rewrite <- E in Hc. apply lookup_lt_Some in Hc. lia. }
  rewrite futures_of_snoc, indices_of_snoc, HF, HI, Hn.
  rewrite !dset_fresh by (rewrite ?dkeys_futures_of; first [done | intros C%indices_of_range; lia]).
  split; [done|]. split; [done|]. split; [rewrite length_app; cbn; lia|]. split.
  - rewrite fmap_app. apply list.NoDup_app. split; [done|]. split; [|apply NoDup_singleton].
    intros x Hx ->%list_elem_of_singleton. done.
  - apply list.Forall_app. split.
    + eapply list.Forall_impl; [exact Hc|]. cbn. intros r Hr. by apply lookup_app_l_Some.
    + constructor; [|constructor]. cbn. by apply list_lookup_middle.
Qed.

Lemma submit_fifo actors submitted q rs w fn v :
  fifo_rel actors submitted q rs w ->
  exists rs' w', submit fn v w = (w', Ok tt) /\ fifo_rel actors (submitted ++ [(fn, v)]) (q ++ [(fn, v)]) rs' w'.
Proof.
  intros [HF HI Hn Hnd Hc Hq Hp Ha Hs]. destruct (_idle_actors (pool w)) as [|a idle _] eqn:Ei using rev_ind.
  - exists rs, (mkWorld (set_pending (_pending_submits (pool w) ++ [(fn, v)]) (pool w)) (calls w)).
    split; [by apply submit_busy|]. split; cbn; rewrite ?Ei; try done.
    + by rewrite Hq, app_assoc.
    + by rewrite app_assoc, Hs.
  - exists (rs ++ [(length (calls w), (fn, a, v))]), (started fn a v idle w).
    split; [by apply submit_idle|].
    assert (_pending_submits (pool w) = []) as Hpe.
    { destruct (_pending_submits (pool w)); [done|]. specialize (Hp ltac:(done)). by destruct idle. }
    destruct (started_fifo w rs fn a v idle HF HI Hn Hnd Hc) as (? & ? & ? & ? & ?).
    split; try done; cbn [started pool calls _pending_submits _idle_actors].
    + rewrite Hq, Hpe, fmap_app, map_app, !app_nil_r. done.
    + rewrite <- Ha, fmap_app, map_app. cbn. rewrite <- app_assoc. by rewrite (Permutation_app_comm _ [a]).
    + rewrite <- Hs, Hpe, map_app, !app_nil_r. done.
Qed.

(** With at least one actor, work in the queue means that a task runs. *)
Lemma fifo_running actors submitted q rs w :
  actors <> [] -> fifo_rel actors submitted q rs w -> q <> [] -> rs <> [].
Proof.
  intros Hne [_ _ _ _ _ Hq Hp Ha _] Hqne ->. cbn in Hq, Ha. subst q. rewrite (Hp Hqne) in Ha. cbn in Ha.
  by apply Permutation_nil_l in Ha.
Qed.

Lemma get_next_empty actors submitted rs w t :
  fifo_rel actors submitted [] rs w -> get_next ray_wait task_result t w = (w, Err StopIteration).
Proof.
  intros [HF _ _ _ _ Hq _ _ _]. destruct rs; [|done]. unfold get_next. st_simpl.
  unfold has_next. by rewrite HF.
Qed.

(** The head of the queue is returned and its actor used again. *)
Lemma get_next_fifo actors submitted fn v q rs w t :
  actors <> [] -> fifo_rel actors submitted ((fn, v) :: q) rs w ->
  (get_next ray_wait task_result t w = (w, Err TimeoutError) /\ is_Some t) \/
  exists rs' w' a, a ∈ actors /\ get_next ray_wait task_result t w = (w', task_result fn a v) /\
    fifo_rel actors submitted q rs' w'.
Proof.
  intros Hne Hrel. pose proof (fifo_running _ _ _ _ _ Hne Hrel ltac:(done)) as Hrs.
  destruct Hrel as [HF HI Hn Hnd Hc Hq Hp Ha Hs].
  destruct rs as [|[f [[fn' a] v']] rs]; [done|]. injection Hq as <- <- Hq.
  apply list.Forall_cons in Hc as [Hf Hc]. cbn [fst snd] in Hf.
  apply list.NoDup_cons in Hnd as [Hfr Hnd].
  assert (a ∈ actors) as Hin by (rewrite <- Ha, elem_of_app; right; cbn; left).
  rewrite (get_next_ok w t f (_next_return_index (pool w)) a);
    [| rewrite Hn; cbn [length]; lia | rewrite HI; cbn; by rewrite decide_True
     | rewrite HF; cbn; by rewrite decide_True].
  destruct (timed_out ray_wait f t (calls w)) eqn:Et; [left; split; [done | by destruct t] | right].
  cbv zeta. rewrite return_actor_eq. cbn [fst without pool calls _pending_submits _idle_actors].
  rewrite HF, HI. cbn [futures_of indices_of ddel]. rewrite !decide_True by done.
  set (w1 := mkWorld (mkPool (_idle_actors (pool w)) (futures_of (_next_return_index (pool w) + 1) rs)
               (indices_of (_next_return_index (pool w) + 1) rs) (_next_task_index (pool w))
               (_next_return_index (pool w) + 1) (_pending_submits (pool w))) (calls w)).
  assert (_idle_actors (pool w) ++ a :: List.map actor_of rs.*2 ≡ₚ actors) as Ha' by exact Ha.
  destruct (_pending_submits (pool w)) as [|[fn2 v2] rest] eqn:Epe.
  - exists rs, (mkWorld (set_idle (_idle_actors (pool w) ++ [a]) (pool w1)) (calls w)), a.
    split; [done|]. split; [unfold ray_get; cbn [calls]; by rewrite Hf|].
    split; cbn; rewrite ?Epe; try done.
    + rewrite Hn. cbn [length]. lia.
    + by rewrite <- app_assoc.
  - destruct (started_fifo (mkWorld (set_pending rest (pool w1)) (calls w)) rs fn2 a v2 (_idle_actors (pool w)))
      as (? & ? & ? & ? & ?); cbn; try done; [rewrite Hn; cbn [length]; lia|].
    eexists (rs ++ [(length (calls w), (fn2, a, v2))]), _, a. split; [done|]. split; [|split; try done].
    + f_equal. unfold ray_get. cbn. by rewrite (lookup_app_l_Some _ _ _ _ Hf).
    + cbn. rewrite Hq, fmap_app, map_app. cbn. by rewrite <- app_assoc.
    + cbn. intros _. by apply Hp.
    + cbn. rewrite <- Ha', fmap_app, map_app. cbn. apply Permutation_app_head. by rewrite Permutation_app_comm.
    + cbn. rewrite <- Hs, map_app. cbn. by rewrite <- app_assoc.
Qed.

(** *** The queue as a specification *)

Inductive fifo_op : Type :=
| Submit (fn : Fn) (v : Value)
| GetNext (timeout : option Q).

Definition fifo_do (o : fifo_op) : ST (@World Actor Fn Value) (option Res) :=
  match o with
  | Submit fn v => _ ← submit fn v; mret None
  | GetNext t => r ← get_next ray_wait task_result t; mret (Some r)
  end.

(** The calls of a client one after the other, whether or not they raise *)
Fixpoint fifo_run (ops : list fifo_op) w : World * list (result (option Res)) :=
  match ops with
  | [] => (w, [])
  | o :: ops' =>
      let '(w1, r) := fifo_do o w in
      let '(w2, rs) := fifo_run ops' w1 in (w2, r :: rs)
  end.

(** What the calls answer when the pool is a queue of submissions *)
Inductive fifo_spec (actors : list Actor) : list (Fn * Value) -> list fifo_op -> list (result (option Res)) -> list (Fn * Value) -> Prop :=
| fifo_done q : fifo_spec actors q [] [] q
| fifo_submit q fn v ops rs q' :
    fifo_spec actors (q ++ [(fn, v)]) ops rs q' -> fifo_spec actors q (Submit fn v :: ops) (Ok None :: rs) q'
| fifo_empty t ops rs q' :
    fifo_spec actors [] ops rs q' -> fifo_spec actors [] (GetNext t :: ops) (Err StopIteration :: rs) q'
| fifo_timeout q t ops rs q' :
    q <> [] -> is_Some t -> fifo_spec actors q ops rs q' ->
    fifo_spec actors q (GetNext t :: ops) (Err TimeoutError :: rs) q'
| fifo_result fn v q t a ops rs q' :
    a ∈ actors -> fifo_spec actors q ops rs q' ->
    fifo_spec actors ((fn, v) :: q) (GetNext t :: ops) ((Some <$> task_result fn a v) :: rs) q'.

Definition submissions (ops : list fifo_op) : list (Fn * Value) :=
  omap (fun o => match o with Submit fn v => Some (fn, v) | GetNext _ => None end) ops.

Lemma fifo_rel_init actors : fifo_rel actors [] [] [] (mkWorld (ActorPool.__init__ actors) []).
Proof. split; cbn; try done; [constructor | by rewrite app_nil_r]. Qed.

Lemma fifo_run_spec actors ops : forall submitted q rs w,
  actors <> [] -> fifo_rel actors submitted q rs w ->
  exists w' outs q' rs', fifo_run ops w = (w', outs) /\ fifo_spec actors q ops outs q' /\
    fifo_rel actors (submitted ++ submissions ops) q' rs' w'.
Proof.
  induction ops as [|o ops IH]; intros submitted q rs w Hne Hrel; cbn [fifo_run].
  { exists w, [], q, rs. split; [done|]. split; [constructor|]. cbn. by rewrite app_nil_r. }
  destruct o as [fn v|t]; cbn [fifo_do]; st_simpl.
  - destruct (submit_fifo _ _ _ _ _ fn v Hrel) as (rs1 & w1 & -> & H1).
    destruct (IH _ _ _ w1 Hne H1) as (w' & outs & q' & rs' & -> & Hs & Hr).
    eexists w', (Ok None :: outs), q', rs'. split; [done|]. split; [by constructor|].
    by rewrite <- app_assoc in Hr.
  - destruct q as [|[fn v] q].
    + rewrite (get_next_empty _ _ _ _ t Hrel).
      destruct (IH _ _ _ w Hne Hrel) as (w' & outs & q' & rs' & -> & Hs & Hr).
      eexists w', _, q', rs'. split; [done|]. by split; [constructor|].
    + destruct (get_next_fifo _ _ _ _ _ _ _ t Hne Hrel) as [[-> Ht]|(rs1 & w1 & a & Ha & -> & H1)].
      * destruct (IH _ _ _ w Hne Hrel) as (w' & outs & q' & rs' & -> & Hs & Hr).
        eexists w', _, q', rs'. split; [done|]. by split; [constructor|].
      * destruct (IH _ _ _ w1 Hne H1) as (w' & outs & q' & rs' & E & Hs & Hr).
        eexists w', _, q', rs'. split; [|split; [by apply (fifo_result actors fn v q t a)|done]].
        by destruct (task_result fn a v); rewrite E.
Qed.

Definition busy p : list Actor := List.map snd (dvalues (_future_to_actor p)).

Lemma busy_futures_of i rs : List.map snd (dvalues (futures_of i rs)) = List.map actor_of rs.*2.
Proof.
  revert i. induction rs as [|[f c] rs IH]; intros i; [done|]. cbn. f_equal. apply IH.
Qed.

(** *** [map] *)

Lemma submit_all actors fn values : forall submitted q rs w,
  fifo_rel actors submitted q rs w ->
  exists rs' w', st_for values (submit fn) w = (w', Ok tt) /\
    fifo_rel actors (submitted ++ List.map (pair fn) values) (q ++ List.map (pair fn) values) rs' w'.
Proof.
  induction values as [|v values IH]; intros submitted q rs w Hrel; cbn [st_for List.map].
  - exists rs, w. by rewrite !app_nil_r.
  - st_simpl. destruct (submit_fifo _ _ _ _ _ fn v Hrel) as (rs1 & w1 & -> & H1).
    destruct (IH _ _ _ _ H1) as (rs' & w' & -> & H'). exists rs', w'. split; [done|].
    by rewrite <- !app_assoc in H'.
Qed.

Lemma drain_fifo actors fn submitted values : forall fuel rs w,
  actors <> [] -> (forall a v, is_ok (task_result fn a v) = true) ->
  fifo_rel actors submitted (List.map (pair fn) values) rs w -> (length values <= fuel)%nat ->
  exists w' out, drain fuel (get_next ray_wait task_result None) w = (w', Ok out) /\
    Forall2 (fun v r => exists a, a ∈ actors /\ task_result fn a v = Ok r) values out /\
    fifo_rel actors submitted [] [] w'.
Proof.
  induction values as [|v values IH]; intros fuel rs w Hne Hok Hrel Hf.
  - exists w, []. assert (rs = []) as -> by (destruct Hrel as [_ _ _ _ _ Hq _ _ _]; by destruct rs).
    split; [|by split]. pose proof (fifo_futures _ _ _ _ _ Hrel) as HF.
    destruct fuel; cbn [drain]; st_simpl; unfold has_next; by rewrite HF.
  - destruct fuel as [|fuel]; [cbn in Hf; lia|]. cbn [drain]. st_simpl. cbn [List.map] in Hrel.
    pose proof (fifo_running _ _ _ _ _ Hne Hrel ltac:(done)) as Hrs. unfold has_next.
    rewrite bool_decide_eq_false_2 by (rewrite (fifo_futures _ _ _ _ _ Hrel); by destruct rs as [|[? ?] ?]). cbn [negb].
    destruct (get_next_fifo _ _ _ _ _ _ _ None Hne Hrel) as [[_ [? ?]]|(rs1 & w1 & a & Ha & E & H1)]; [done|].
    specialize (Hok a v) as Hoka. destruct (task_result fn a v) as [r|] eqn:Er; [|done].
    rewrite E. destruct (IH fuel rs1 w1 Hne Hok H1 ltac:(cbn in Hf; lia)) as (w' & out & E' & HF & H').
    fold (drain fuel (get_next ray_wait task_result None)). rewrite E'.
    exists w', (r :: out). split; [done|]. split; [|done]. constructor; [by exists a | done].
Qed.

(** C18. A pool with at least one actor, used through [submit] and
    [get_next], behaves as a queue: every [get_next] returns or raises the
    outcome of the oldest submission not yet returned, computed by one of the
    pool's actors, raises [TimeoutError] only with a timeout and without
    losing the submission, and raises [StopIteration] exactly when nothing is
    left. No actor is lost, whatever the tasks raise, and the submissions
    were called once each, in order. *)
Theorem actor_pool_is_fifo (actors : list Actor) (ops : list fifo_op) :
  actors <> [] ->
  exists w outs q, fifo_run ops (mkWorld (ActorPool.__init__ actors) []) = (w, outs) /\
    fifo_spec actors [] ops outs q /\
    _idle_actors (pool w) ++ busy (pool w) ≡ₚ actors /\
    List.map submission (calls w) ++ _pending_submits (pool w) = submissions ops.
Proof.
  intros Hne. destruct (fifo_run_spec actors ops _ _ _ _ Hne (fifo_rel_init actors))
    as (w & outs & q & rs & E & Hs & [HF _ _ _ _ _ _ Ha Hsub]).
  exists w, outs, q. split; [done|]. split; [done|]. split; [|done].
  unfold busy. by rewrite HF, busy_futures_of.
Qed.

(** [map(fn, values)] on a new pool with at least one actor terminates
    and yields the results of the values in their order, each computed by one
    of the pool's actors; every value was called exactly once and all actors
    are idle afterwards. *)
Theorem actor_pool_map (actors : list Actor) (fn : Fn) (values : list Value) :
  actors <> [] -> (forall a v, is_ok (task_result fn a v) = true) ->
  exists w rs, ActorPool.map ray_wait task_result (length values) fn values (mkWorld (ActorPool.__init__ actors) []) = (w, Ok rs) /\
    Forall2 (fun v r => exists a, a ∈ actors /\ task_result fn a v = Ok r) values rs /\
    List.map submission (calls w) = List.map (pair fn) values /\
    _idle_actors (pool w) ≡ₚ actors /\ has_next (pool w) = false.
Proof.
  intros Hne Hok. unfold ActorPool.map. st_simpl.
  destruct (submit_all actors fn values _ _ _ _ (fifo_rel_init actors)) as (rs & w & -> & Hrel).
  cbn [app] in Hrel. destruct (drain_fifo actors fn _ values (length values) rs w Hne Hok Hrel (le_n _))
    as (w' & out & E & Hf & [HF _ _ _ _ Hq _ Ha Hs]).
  exists w', out. split; [exact E|]. split; [done|]. cbn in Hq, Ha. rewrite <- Hq, app_nil_r in Hs.
  split; [done|]. rewrite app_nil_r in Ha. split; [done|]. unfold has_next. by rewrite HF.
Qed.


(** ** All operations together *)

(** The dictionaries describe the same running tasks, and every index that
    [get_next] may still ask for is there. *)
Record pool_inv w : Prop := mkInv {
  inv_futures : dwf (_future_to_actor (pool w));
  inv_indices : dwf (_index_to_future (pool w));
  inv_to_index : forall f i a, dget f (_future_to_actor (pool w)) = Some (i, a) -> dget i (_index_to_future (pool w)) = Some f;
  inv_to_future : forall i f, dget i (_index_to_future (pool w)) = Some f -> exists a, dget f (_future_to_actor (pool w)) = Some (i, a);
  inv_call : forall f i a, dget f (_future_to_actor (pool w)) = Some (i, a) -> exists fn v, calls w !! f = Some (fn, a, v);
  inv_below : forall i f, dget i (_index_to_future (pool w)) = Some f -> (i < _next_task_index (pool w))%Z;
  inv_next : forall i, (_next_return_index (pool w) <= i < _next_task_index (pool w))%Z -> is_Some (dget i (_index_to_future (pool w)))
}.

Lemma started_inv w fn a v idle : pool_inv w -> pool_inv (started fn a v idle w).
Proof.
  intros [HF HI H1 H2 H3 H4 H5].
  assert (dget (length (calls w)) (_future_to_actor (pool w)) = None) as Hf.
  { destruct (dget (length (calls w)) _) as [[i a']|] eqn:E; [|done].
    destruct (H3 _ _ _ E) as (? & ? & C). apply lookup_lt_Some in C. lia. }
  assert (dget (_next_task_index (pool w)) (_index_to_future (pool w)) = None) as Hi.
  { destruct (dget _ (_index_to_future (pool w))) eqn:E; [|done]. apply H4 in E. lia. }
  unfold started. split; cbn [pool calls _future_to_actor _index_to_future _next_task_index _next_return_index].
  1, 2: by apply dwf_dset.
  - intros f i a'. rewrite !dget_dset. repeat case_decide; subst; intros E; simplify_eq; [done|..]; [|by apply H1 in E].
    apply H1, H4 in E. lia.
  - intros i f. rewrite dget_dset. case_decide; subst; intros E; simplify_eq.
    + exists a. by rewrite dget_dset_eq.
    + destruct (H2 _ _ E) as [a' Ea]. exists a'. rewrite dget_dset_ne; [done|]. intros Eq. rewrite <- Eq in Ea. congruence.
  - intros f i a'. rewrite dget_dset. case_decide; subst; intros E; simplify_eq.
    + exists fn, v. by apply list_lookup_middle.
    + destruct (H3 _ _ _ E) as (fn' & v' & C). exists fn', v'. by apply lookup_app_l_Some.
  - intros i f. rewrite dget_dset. case_decide; subst; intros E; [lia|]. apply H4 in E. lia.
  - intros i Hr. rewrite dget_dset. case_decide; [by eexists|]. apply H5. lia.
Qed.

Lemma without_inv w f i a nr :
  pool_inv w -> dget f (_future_to_actor (pool w)) = Some (i, a) -> (Z.max (_next_return_index (pool w)) (i + 1) <= nr)%Z ->
  pool_inv (without i f nr w).
Proof.
  intros [HF HI H1 H2 H3 H4 H5] Ef Hnr. pose proof (H1 _ _ _ Ef) as Ei.
  unfold without. split; cbn [pool calls _future_to_actor _index_to_future _next_task_index _next_return_index].
  1, 2: by apply dwf_ddel.
  - intros g j b E. destruct (decide (f = g)) as [->|]; [by rewrite dget_ddel_eq in E|].
    rewrite dget_ddel_ne in E by done. rewrite dget_ddel_ne; [by eapply H1|].
    intros ->. apply H1 in E. congruence.
  - intros j g E. destruct (decide (i = j)) as [->|]; [by rewrite dget_ddel_eq in E|].
    rewrite dget_ddel_ne in E by done. destruct (H2 _ _ E) as [b Eb]. exists b.
    rewrite dget_ddel_ne; [done|]. intros ->. congruence.
  - intros g j b E. destruct (decide (f = g)) as [->|]; [by rewrite dget_ddel_eq in E|].
    rewrite dget_ddel_ne in E by done. by eapply H3.
  - intros j g E. destruct (decide (i = j)) as [->|]; [by rewrite dget_ddel_eq in E|].
    rewrite dget_ddel_ne in E by done. by eapply H4.
  - intros j Hj. rewrite dget_ddel_ne by lia. apply H5. lia.
Qed.

Lemma set_idle_inv w l : pool_inv w -> pool_inv (mkWorld (set_idle l (pool w)) (calls w)).
Proof. intros [? ? ? ? ? ? ?]. by split. Qed.

Lemma set_pending_inv w l : pool_inv w -> pool_inv (mkWorld (set_pending l (pool w)) (calls w)).
Proof. intros [? ? ? ? ? ? ?]. by split. Qed.

(** Every actor of the pool is idle or busy. *)
Definition owns (owned : list Actor) w : Prop := _idle_actors (pool w) ++ busy (pool w) ≡ₚ owned.

Lemma busy_started w fn a v idle :
  pool_inv w -> busy (pool (started fn a v idle w)) ≡ₚ a :: busy (pool w).
Proof.
  intros Hi. unfold busy, started. cbn [pool _future_to_actor]. rewrite dset_fresh.
  - unfold dvalues. rewrite fmap_app, map_app. cbn. by rewrite Permutation_app_comm.
  - rewrite <- dget_None. destruct (dget _ _) as [[i b]|] eqn:E; [|done].
    destruct (inv_call _ Hi _ _ _ E) as (? & ? & C). apply lookup_lt_Some in C. lia.
Qed.

Lemma return_actor_inv w a owned :
  pool_inv w -> _idle_actors (pool w) ++ a :: busy (pool w) ≡ₚ owned ->
  pool_inv (_return_actor a w).1 /\ owns owned (_return_actor a w).1.
Proof.
  intros Hi Ho. rewrite return_actor_eq. cbn [fst]. destruct (_pending_submits (pool w)) as [|[fn v] rest].
  - split; [by apply set_idle_inv|]. unfold owns. cbn [pool set_idle _idle_actors].
    rewrite <- app_assoc. exact Ho.
  - split; [by apply started_inv, set_pending_inv|]. unfold owns.
    rewrite busy_started by by apply set_pending_inv. exact Ho.
Qed.

Lemma submit_inv w fn v owned :
  pool_inv w -> owns owned w -> exists w', submit fn v w = (w', Ok tt) /\ pool_inv w' /\ owns owned w'.
Proof.
  intros Hi Ho. destruct (_idle_actors (pool w)) as [|a idle _] eqn:Ei using rev_ind.
  - rewrite submit_busy by done. eexists; split; [reflexivity|]. split; [by apply set_pending_inv | done].
  - erewrite submit_idle by done. eexists; split; [reflexivity|]. split; [by apply started_inv|].
    unfold owns in *. rewrite busy_started by done. rewrite Ei, <- app_assoc in Ho. exact Ho.
Qed.

Lemma without_owns w f i a nr owned :
  dget f (_future_to_actor (pool w)) = Some (i, a) -> owns owned w ->
  _idle_actors (pool (without i f nr w)) ++ a :: busy (pool (without i f nr w)) ≡ₚ owned.
Proof.
  intros Ef Ho. rewrite <- Ho. cbn. unfold busy. cbn. apply Permutation_app_head.
  symmetry. exact (Permutation_map snd (Permutation_map snd (ddel_Permutation f (i, a) _ Ef))).
Qed.

(** The outcome of a call that a busy actor was given *)
Definition task_outcome w (r : result Res) : Prop :=
  exists fn a v, (fn, a, v) ∈ calls w /\ a ∈ busy (pool w) /\ r = task_result fn a v.

Lemma busy_nil p : busy p = [] <-> has_next p = false.
Proof.
  unfold busy, has_next, dvalues. rewrite negb_false_iff, bool_decide_eq_true.
  by destruct (_future_to_actor p).
Qed.

Lemma running_outcome w w' f i a :
  pool_inv w -> dget f (_future_to_actor (pool w)) = Some (i, a) -> calls w `prefix_of` calls w' ->
  task_outcome w (ray_get task_result f (calls w')).
Proof.
  intros Hi Ef Hp. destruct (inv_call _ Hi _ _ _ Ef) as (fn & v & Ec). exists fn, a, v.
  split; [by eapply list_elem_of_lookup_2|]. split.
  - unfold busy. apply list_elem_of_In, in_map_iff. exists (i, a). split; [done|].
    apply list_elem_of_In. unfold dvalues. apply list_elem_of_fmap. exists (f, (i, a)). split; [done|]. by apply dget_elem.
  - unfold ray_get. by rewrite (prefix_lookup_Some _ _ _ _ Ec Hp).
Qed.

Lemma return_actor_calls w a : calls w `prefix_of` calls (_return_actor a w).1.
Proof.
  rewrite return_actor_eq. cbn [fst]. destruct (_pending_submits (pool w)) as [|[fn v] rest]; [done|].
  cbn. by eexists.
Qed.

Lemma get_next_inv w t owned :
  pool_inv w -> owns owned w ->
  exists w' r, get_next ray_wait task_result t w = (w', r) /\ pool_inv w' /\ owns owned w' /\
    ((r = Err StopIteration /\ busy (pool w) = []) \/
     (r = Err ValueError /\ (_next_task_index (pool w) <= _next_return_index (pool w))%Z) \/
     (r = Err TimeoutError /\ w' = w /\ is_Some t) \/ task_outcome w r).
Proof.
  intros Hi Ho. destruct (has_next (pool w)) eqn:Eh.
  2: { exists w, (Err StopIteration). unfold get_next. st_simpl. rewrite Eh. cbn [negb].
       repeat (split; [done|]). left. split; [done|]. by apply busy_nil. }
  destruct (Z.leb_spec (_next_task_index (pool w)) (_next_return_index (pool w))) as [C|C].
  { exists w, (Err ValueError). unfold get_next. st_simpl. rewrite Eh. cbn [negb].
    rewrite (proj2 (Z.leb_le _ _)) by lia. repeat (split; [done|]). right. by left. }
  destruct (inv_next _ Hi (_next_return_index (pool w))) as [f Ef]; [lia|].
  destruct (inv_to_future _ Hi _ _ Ef) as [a Ea]. rewrite (get_next_ok w t f _ a C Ef Ea).
  destruct (timed_out ray_wait f t (calls w)) eqn:Et.
  { exists w, (Err TimeoutError). repeat (split; [done|]). right. right. left. repeat (split; [done|]). by destruct t. }
  eexists _, _. split; [reflexivity|].
  destruct (return_actor_inv (without (_next_return_index (pool w)) f (_next_return_index (pool w) + 1) w) a owned)
    as [Hi' Ho']; [eapply without_inv; by try lia | by eapply without_owns |].
  split; [done|]. split; [done|]. right. right. right. eapply running_outcome; [done | done |].
  apply (return_actor_calls (without _ f _ w)).
Qed.

Hypothesis wait_law : forall rt fs t, ray_wait rt fs t = [] \/ exists f, f ∈ fs /\ ray_wait rt fs t = [f].

(** The entry of the index is deleted after the actor came back. *)
Lemma get_next_unordered_ok w t f i a :
  pool_inv w -> ray_wait (calls w) (dkeys (_future_to_actor (pool w))) t = [f] ->
  dget f (_future_to_actor (pool w)) = Some (i, a) ->
  get_next_unordered ray_wait task_result t w =
    let w' := (_return_actor a (without i f (Z.max (_next_return_index (pool w)) (i + 1)) w)).1 in
    (w', ray_get task_result f (calls w')).
Proof.
  intros Hi Hw Ef. pose proof (inv_to_index _ Hi _ _ _ Ef) as Ei. pose proof (inv_below _ Hi _ _ Ei) as Hlt.
  unfold get_next_unordered. st_simpl. unfold has_next.
  rewrite bool_decide_eq_false_2 by (intros E; by rewrite E in Ef). cbn [negb]. rewrite Hw.
  unfold dgetitem. rewrite Ef. cbn [or_raise]. unfold on_pool. st_simpl. rewrite !return_actor_eq.
  unfold without. cbn [pool calls set_futures _pending_submits _idle_actors fst].
  unfold ddelitem, dmem.
  destruct (_pending_submits (pool w)) as [|[fn v] rest] eqn:Epe;
    cbn [started pool calls set_idle set_pending set_futures _index_to_future _next_task_index _future_to_actor _next_return_index].
  - rewrite Ei. unfold set_next_return, set_index, set_idle, set_futures. cbn. by rewrite Epe.
  - rewrite dget_dset_ne by lia. rewrite Ei. rewrite ddel_dset_ne by lia. reflexivity.
Qed.

Lemma get_next_unordered_inv w t owned :
  pool_inv w -> owns owned w ->
  exists w' r, get_next_unordered ray_wait task_result t w = (w', r) /\ pool_inv w' /\ owns owned w' /\
    ((r = Err StopIteration /\ busy (pool w) = []) \/ (r = Err TimeoutError /\ w' = w) \/ task_outcome w r).
Proof.
  intros Hi Ho. destruct (has_next (pool w)) eqn:Eh.
  2: { exists w, (Err StopIteration). unfold get_next_unordered. st_simpl. rewrite Eh. cbn [negb].
       repeat (split; [done|]). left. split; [done|]. by apply busy_nil. }
  destruct (wait_law (calls w) (dkeys (_future_to_actor (pool w))) t) as [E|(f & Hf & E)].
  { exists w, (Err TimeoutError). unfold get_next_unordered. st_simpl. rewrite Eh, E. cbn [negb].
    repeat (split; [done|]). right. by left. }
  apply dget_is_Some in Hf as [[i a] Ef]. rewrite (get_next_unordered_ok w t f i a Hi E Ef).
  eexists _, _. split; [reflexivity|].
  destruct (return_actor_inv (without i f (Z.max (_next_return_index (pool w)) (i + 1)) w) a owned)
    as [Hi' Ho']; [eapply without_inv; by try lia | by eapply without_owns |].
  split; [done|]. split; [done|]. right. right. eapply running_outcome; [done | done |].
  apply (return_actor_calls (without _ f _ w)).
Qed.

(** The states a client can reach, with the actors that are in the pool *)
Inductive pool_reach (actors : list Actor) : World -> list Actor -> Prop :=
| reach_init : pool_reach actors (mkWorld (ActorPool.__init__ actors) []) actors
| reach_submit w owned fn v : pool_reach actors w owned -> pool_reach actors (submit fn v w).1 owned
| reach_next w owned t : pool_reach actors w owned -> pool_reach actors (get_next ray_wait task_result t w).1 owned
| reach_unordered w owned t :
    pool_reach actors w owned -> pool_reach actors (get_next_unordered ray_wait task_result t w).1 owned
| reach_pop w owned w' a owned' :
    pool_reach actors w owned -> pop_idle w = (w', Ok (Some a)) -> owned ≡ₚ a :: owned' -> pool_reach actors w' owned'
| reach_push w owned w' a :
    pool_reach actors w owned -> push a w = (w', Ok tt) -> pool_reach actors w' (a :: owned).

Lemma pop_idle_cases w :
  pop_idle w = (w, Ok None) \/
  exists idle a, _idle_actors (pool w) = idle ++ [a] /\
    pop_idle w = (mkWorld (set_idle idle (pool w)) (calls w), Ok (Some a)).
Proof.
  unfold pop_idle, has_free. st_simpl. destruct (_idle_actors (pool w)) as [|a idle _] eqn:Ei using rev_ind; [by left|].
  rewrite length_app. cbn [length]. rewrite (proj2 (Nat.ltb_lt _ _)) by lia. cbn [andb].
  destruct (length (_pending_submits (pool w)) =? 0)%nat; [|by left].
  right. exists idle, a. split; [done|]. by rewrite pop_last_snoc.
Qed.

Lemma push_inv w a w' r :
  push a w = (w', r) ->
  (r = Err ValueError /\ w' = w /\ a ∈ _idle_actors (pool w) ++ busy (pool w)) \/
  (r = Ok tt /\ w' = mkWorld (set_idle (_idle_actors (pool w) ++ [a]) (pool w)) (calls w) /\
   a ∉ _idle_actors (pool w) ++ busy (pool w)).
Proof.
  unfold push. st_simpl. rewrite elem_of_app. change (List.map snd (dvalues (_future_to_actor (pool w)))) with (busy (pool w)).
  repeat case_bool_decide; cbn [orb]; intros E; injection E as <- <-; [left | left | left | right]; tauto.
Qed.

Lemma pool_reach_inv actors w owned :
  NoDup actors -> pool_reach actors w owned -> pool_inv w /\ owns owned w /\ NoDup owned.
Proof.
  intros Hnd. induction 1 as [|w o fn v _ (Hi & Ho & Hn)|w o t _ (Hi & Ho & Hn)|w o t _ (Hi & Ho & Hn)
                             |w o w' a o' _ (Hi & Ho & Hn) E Hp|w o w' a _ (Hi & Ho & Hn) E].
  - split; [|split; [|done]]; [split; cbn; try done; [constructor|constructor|lia] | unfold owns; cbn; by rewrite app_nil_r].
  - by destruct (submit_inv w fn v o Hi Ho) as (w' & -> & ? & ?).
  - by destruct (get_next_inv w t o Hi Ho) as (w' & r & -> & ? & ? & _).
  - by destruct (get_next_unordered_inv w t o Hi Ho) as (w' & r & -> & ? & ? & _).
  - destruct (pop_idle_cases w) as [E'|(idle & b & Ei & E')]; rewrite E' in E; [done|]. injection E as <- ->.
    split; [by apply set_idle_inv|]. rewrite Hp in Hn. apply list.NoDup_cons in Hn as [_ Hn]. split; [|done].
    unfold owns in *. rewrite Ei, Hp, <- app_assoc in Ho. cbn in Ho |- *.
    rewrite <- Permutation_middle in Ho. by apply Permutation_cons_inv in Ho.
  - apply push_inv in E as [(? & _)|(_ & -> & Hin)]; [done|]. split; [by apply set_idle_inv|].
    unfold owns in *. split.
    + cbn. rewrite <- app_assoc. cbn. rewrite <- Permutation_middle. by rewrite <- Ho.
    + apply list.NoDup_cons. split; [|done]. by rewrite <- Ho.
Qed.

(** In every state that a client reaches with any calls, no actor is
    lost or used twice: the idle and the busy actors are together the actors
    of the pool, each once. [get_next] and [get_next_unordered] raise
    [StopIteration] exactly when no task runs, and otherwise return or raise
    the outcome of a running task, time out without a change, or (only
    [get_next], when all running tasks come before one that was taken out of
    order) raise [ValueError]; no internal dictionary lookup fails. *)
Theorem actor_pool_consistent (actors : list Actor) w (owned : list Actor) :
  NoDup actors -> pool_reach actors w owned ->
  NoDup (_idle_actors (pool w) ++ busy (pool w)) /\ _idle_actors (pool w) ++ busy (pool w) ≡ₚ owned /\
  (forall t w' r, get_next ray_wait task_result t w = (w', r) ->
     (r = Err StopIteration /\ busy (pool w) = []) \/
     (r = Err ValueError /\ (_next_task_index (pool w) <= _next_return_index (pool w))%Z) \/
     (r = Err TimeoutError /\ w' = w /\ is_Some t) \/ task_outcome w r) /\
  (forall t w' r, get_next_unordered ray_wait task_result t w = (w', r) ->
     (r = Err StopIteration /\ busy (pool w) = []) \/ (r = Err TimeoutError /\ w' = w) \/ task_outcome w r).
Proof.
  intros Hnd Hr. destruct (pool_reach_inv actors w owned Hnd Hr) as (Hi & Ho & Hn).
  split; [by rewrite Ho|]. split; [done|]. split; intros t w' r E.
  - destruct (get_next_inv w t owned Hi Ho) as (w1 & r1 & E1 & _ & _ & H). rewrite E in E1. by injection E1 as <- <-.
  - destruct (get_next_unordered_inv w t owned Hi Ho) as (w1 & r1 & E1 & _ & _ & H). rewrite E in E1. by injection E1 as <- <-.
Qed.

End Facts.

(** ** Witnesses *)

Section Witnesses.
Import ActorPool.

(** Every call is ready at once; the task doubles its value. *)
Definition wait_first (rt : list (unit * nat * Z)) (fs : list nat) (t : option Q) : list nat := take 1 fs.
Definition double (fn : unit) (a : nat) (v : Z) : result Z := Ok (2 * v)%Z.

Lemma wait_first_law rt fs t : wait_first rt fs t = [] \/ exists f, f ∈ fs /\ wait_first rt fs t = [f].
Proof. destruct fs as [|f fs]; [by left|]. right. exists f. split; [left | done]. Qed.

Lemma actor_pool_is_fifo_witness :
  let ops := [Submit tt 1; Submit tt 2; Submit tt 3; GetNext None; GetNext (Some 1%Q); GetNext None; GetNext None]%Z in
  exists w outs q, fifo_run wait_first double ops (mkWorld (__init__ [1; 2]%nat) []) = (w, outs) /\
    fifo_spec double [1; 2]%nat [] ops outs q /\
    outs = [Ok None; Ok None; Ok None; Ok (Some 2); Ok (Some 4); Ok (Some 6); Err StopIteration]%Z.
Proof.
  intros ops. destruct (actor_pool_is_fifo wait_first double [1; 2]%nat ops ltac:(done)) as (w & outs & q & E & Hs & _).
  exists w, outs, q. split; [exact E|]. split; [exact Hs|].
  vm_compute in E. by injection E as _ <-.
Defined.

Lemma actor_pool_map_witness :
  exists w rs, map wait_first double 3 tt [1; 2; 3]%Z (mkWorld (__init__ [1; 2]%nat) []) = (w, Ok rs) /\
    rs = [2; 4; 6]%Z.
Proof.
  destruct (actor_pool_map wait_first double [1; 2]%nat tt [1; 2; 3]%Z ltac:(done) ltac:(done)) as (w & rs & E & _).
  exists w, rs. split; [exact E|]. vm_compute in E. by injection E as _ <-.
Defined.

Lemma actor_pool_consistent_witness :
  let w := (get_next_unordered wait_first double None (submit tt 7%Z (mkWorld (__init__ [1; 2]%nat) [])).1).1 in
  _idle_actors (pool w) ++ busy (pool w) ≡ₚ [1; 2]%nat.
Proof.
  intros w. apply (actor_pool_consistent wait_first double wait_first_law [1; 2]%nat w [1; 2]%nat).
  - by_compute.
  - apply reach_unordered, reach_submit, reach_init.
Defined.

(** A submission to a pool without actors stays pending when an actor is
    pushed: no result is announced, and [get_next] raises [StopIteration]. *)
Example push_starts_no_pending_task :
  let w := (push 1%nat (submit tt 7%Z (mkWorld (__init__ []) [])).1).1 in
  _idle_actors (pool w) = [1%nat] /\ _pending_submits (pool w) = [(tt, 7%Z)] /\ has_next (pool w) = false /\
  (get_next wait_first double None w).2 = Err StopIteration.
Proof. vm_compute. done. Qed.

End Witnesses.
