(* ===== verification/MlDict.v ===== *)
(** Nested dicts as Tune reads results and configs
    ([util/ml_utils/dict.py]): flattening them to one level, the way back,
    and lookups by a flattened key. *)

From Stdlib Require Import ZArith QArith Lqa Lia Ascii.
From stdpp Require Import base list strings option pretty.
From S2P Require Import Prelude PyDict Resources NodeTypes.

(** ** Strings *)

(** [sub in s] *)
Definition str_contains (sub s : string) : bool :=
  match String.index 0 sub s with Some _ => true | None => false end.

(** [s.split(delimiter)] scans from the left; [skip] counts the characters of
    a delimiter that was just found. *)
Fixpoint split_go (delimiter : string) (skip : nat) (cur s : string) : list string :=
  match s with
  | EmptyString => [cur]
  | String c s' =>
      match skip with
      | S skip' => split_go delimiter skip' cur s'
      | O => if String.prefix delimiter s
             then cur :: split_go delimiter (String.length delimiter - 1) "" s'
             else split_go delimiter 0 (cur +:+ String c "") s'
      end
  end.

Definition str_split (delimiter s : string) : result (list string) :=
  if String.eqb delimiter "" then Err ValueError else Ok (split_go delimiter 0 "" s).

(** ** [flatten_dict] *)

Definition is_dict (v : yaml) : bool := match v with YDict _ => true | _ => false end.
Definition is_list (v : yaml) : bool := match v with YList _ => true | _ => false end.

(** The local variables of the [while] loop's body; [fl_subkey] is the loop
    variable [subkey], which the list case reads, unset at first. *)
Record flatten_locals : Type := mkLocals {
  fl_remove : list string;
  fl_add : dict string yaml;
  fl_subkey : option string
}.

Definition flatten_sub (delimiter : string) (prevent_delimiter : bool) (key : string)
    (l : flatten_locals) (kv : string * yaml) : result flatten_locals :=
  let '(subkey, v) := kv in
  if prevent_delimiter && str_contains delimiter subkey then Err ValueError
  else Ok (mkLocals (fl_remove l) (dset (key +:+ delimiter +:+ subkey) v (fl_add l)) (Some subkey)).

Definition flatten_item (delimiter : string) (prevent_delimiter : bool) (key : string)
    (l : flatten_locals) (iv : nat * yaml) : result flatten_locals :=
  let '(i, v) := iv in
  _ ← (if prevent_delimiter then
         subkey ← or_raise NameError (fl_subkey l);
         if str_contains delimiter subkey then Err ValueError else Ok tt
       else Ok tt);
  Ok (mkLocals (fl_remove l) (dset (key +:+ delimiter +:+ pretty i) v (fl_add l)) (fl_subkey l)).

(** The body of [for key, value in dt.items()] *)
Definition flatten_entry (delimiter : string) (prevent_delimiter flatten_list : bool)
    (l : flatten_locals) (kv : string * yaml) : result flatten_locals :=
  let '(key, value) := kv in
  let removed l := mkLocals (fl_remove l ++ [key]) (fl_add l) (fl_subkey l) in
  match value with
  | YDict d => removed <$> foldM (flatten_sub delimiter prevent_delimiter key) l d
  | YList vs =>
      if flatten_list then removed <$> foldM (flatten_item delimiter prevent_delimiter key) l (zip (seq 0 (length vs)) vs)
      else Ok l
  | _ => Ok l
  end.

(** The [while] loop *)
Fixpoint flatten_loop (fuel : nat) (delimiter : string) (prevent_delimiter flatten_list : bool)
    (subkey : option string) (dt : dict string yaml) : result (dict string yaml) :=
  if existsb (fun kv => is_dict kv.2 || (flatten_list && is_list kv.2)) dt then
    match fuel with
    | O => Err OutOfFuel
    | S fuel' =>
        l ← foldM (flatten_entry delimiter prevent_delimiter flatten_list) (mkLocals [] [] subkey) dt;
        dt' ← foldM (fun d k => ddelitem k d) (dupdate dt (fl_add l)) (fl_remove l);
        flatten_loop fuel' delimiter prevent_delimiter flatten_list (fl_subkey l) dt'
    end
  else Ok dt.

(** The nesting of a value bounds the rounds of the loop. *)
Fixpoint yaml_depth (v : yaml) : nat :=
  match v with
  | YDict d => S (list_max (map (fun kv => yaml_depth kv.2) d))
  | YList l => S (list_max (map yaml_depth l))
  | _ => 0
  end.

Definition flatten_dict (dt : dict string yaml) (delimiter : string) (prevent_delimiter flatten_list : bool)
    : result (dict string yaml) :=
  if prevent_delimiter && existsb (fun key => str_contains delimiter key) (dkeys dt) then Err ValueError
  else flatten_loop (yaml_depth (YDict dt)) delimiter prevent_delimiter flatten_list None dt.

(** ** [unflatten_dict] *)

(** The inner loop walks along [path], creating dicts, and sets the last key. *)
Fixpoint set_path (path : list string) (val : yaml) (item : dict string yaml) : result (dict string yaml) :=
  match path with
  | [] => Err IndexError
  | [k] => Ok (dset k val item)
  | k :: path' =>
      match dget k item with
      | None => sub ← set_path path' val []; Ok (dset k (YDict sub) item)
      | Some (YDict d) => sub ← set_path path' val d; Ok (dset k (YDict sub) item)
      | Some _ => Err TypeError
      end
  end.

Definition unflatten_dict (dt : dict string yaml) (delimiter : string) : result (dict string yaml) :=
  foldM (fun out kv => path ← str_split delimiter kv.1; set_path path kv.2 out) [] dt.

(** ** Keys and paths *)

Section Keys.
Variable c : ascii.
Local Abbreviation delim := (String c "").

Fixpoint no_char (s : string) : bool :=
  match s with EmptyString => true | String x s' => negb (Ascii.eqb c x) && no_char s' end.

Lemma prefix_char x s : String.prefix delim (String x s) = Ascii.eqb c x.
Proof.
  cbn. destruct (ascii_dec c x) as [->|Hne]; [by rewrite Ascii.eqb_refl; destruct s|].
  symmetry. by apply Ascii.eqb_neq.
Qed.

Lemma str_contains_char s : str_contains delim s = negb (no_char s).
Proof.
  unfold str_contains. induction s as [|x s IH]; [done|]. cbn [String.index no_char].
  rewrite prefix_char. destruct (Ascii.eqb c x); [done|]. cbn [negb andb].
  by destruct (String.index 0 delim s).
Qed.

Lemma split_piece w cur rest :
  no_char w = true -> split_go delim 0 cur (w +:+ String c rest) = (cur +:+ w) :: split_go delim 0 "" rest.
Proof.
  revert cur. induction w as [|x w IH]; intros cur Hw.
  - change ("" +:+ String c rest) with (String c rest). cbn [split_go]. rewrite prefix_char, Ascii.eqb_refl.
    by rewrite app_string_nil.
  - cbn in Hw. apply andb_true_iff in Hw as [Hx Hw]. apply negb_true_iff in Hx.
    change (String x w +:+ String c rest) with (String x (w +:+ String c rest)). cbn [split_go].
    rewrite prefix_char, Hx, IH by done. by rewrite app_string_assoc.
Qed.

Lemma split_last w cur : no_char w = true -> split_go delim 0 cur w = [cur +:+ w].
Proof.
  revert cur. induction w as [|x w IH]; intros cur Hw; [cbn; by rewrite app_string_nil|].
  cbn in Hw. apply andb_true_iff in Hw as [Hx Hw]. apply negb_true_iff in Hx.
  cbn [split_go]. rewrite prefix_char, Hx, IH by done. by rewrite app_string_assoc.
Qed.

(** The flattened key of a path *)
Definition join (p : list string) : string := String.concat delim p.

Lemma join_cons k p : p <> [] -> join (k :: p) = k +:+ delim +:+ join p.
Proof. by destruct p. Qed.

Lemma join_snoc p k : p <> [] -> join (p ++ [k]) = join p +:+ delim +:+ k.
Proof.
  induction p as [|x p IH]; intros Hp; [done|]. destruct p as [|y p]; [done|].
  change ((x :: y :: p) ++ [k]) with (x :: ((y :: p) ++ [k])).
  rewrite !join_cons by (done || by destruct p). rewrite IH by done. by rewrite !app_string_assoc.
Qed.

Lemma split_join p :
  p <> [] -> Forall (fun k => no_char k = true) p -> str_split delim (join p) = Ok p.
Proof.
  intros Hp Hf. unfold str_split. cbn [String.eqb]. f_equal.
  induction Hf as [|k p Hk Hf IH]; [done|]. destruct p as [|y p].
  - unfold join. cbn [String.concat]. by rewrite split_last.
  - rewrite join_cons by done. change (delim +:+ join (y :: p)) with (String c (join (y :: p))). rewrite split_piece by done. by rewrite IH.
Qed.

Lemma join_inj p q :
  p <> [] -> q <> [] -> Forall (fun k => no_char k = true) p -> Forall (fun k => no_char k = true) q ->
  join p = join q -> p = q.
Proof.
  intros Hp Hq Hfp Hfq E. pose proof (split_join p Hp Hfp) as H1. rewrite E, (split_join q Hq Hfq) in H1.
  by injection H1.
Qed.

(** ** Values by path *)

(** The value that [p] leads to, through dicts *)
Fixpoint node_at (p : list string) (v : yaml) : option yaml :=
  match p with
  | [] => Some v
  | k :: p' => match v with YDict d => match dget k d with Some w => node_at p' w | None => None end | _ => None end
  end.

Lemma node_at_app p r v : node_at (p ++ r) v = match node_at p v with Some w => node_at r w | None => None end.
Proof.
  revert v. induction p as [|k p IH]; intros v; [done|]. cbn. destruct v; try done. by destruct (dget k d).
Qed.

(** The value at the end of [p], when it is not a dict *)
Definition leaf (p : list string) (v : yaml) : option yaml :=
  match node_at p v with Some w => if is_dict w then None else Some w | None => None end.

Lemma leaf_Some p v x : leaf p v = Some x <-> node_at p v = Some x /\ is_dict x = false.
Proof.
  unfold leaf. destruct (node_at p v) as [w|]; [|by split; [|intros [? _]]].
  destruct (is_dict w) eqn:E; split; [done | intros [[= ->] Hx]; congruence | by intros [= ->] | by intros [[= ->] _]].
Qed.

Lemma leaf_cons k p d : leaf (k :: p) (YDict d) = match dget k d with Some w => leaf p w | None => None end.
Proof. unfold leaf. cbn. by destruct (dget k d). Qed.

(** Nothing is below a leaf. *)
Lemma leaf_no_prefix p k r v x y : leaf p v = Some x -> leaf (p ++ k :: r) v = Some y -> False.
Proof.
  rewrite !leaf_Some. intros [Ex Hx] [Ey _]. rewrite node_at_app, Ex in Ey. cbn in Ey. by destruct x.
Qed.

(** Every dict in the value has pairwise different keys without the delimiter. *)
Fixpoint keys_ok (v : yaml) : bool :=
  match v with
  | YDict d =>
      bool_decide (NoDup (dkeys d)) && forallb no_char (dkeys d) && forallb (fun kv => keys_ok kv.2) d
  | _ => true
  end.

Definition keys_fine (v : yaml) : Prop :=
  forall p d, node_at p v = Some (YDict d) -> dwf d /\ Forall (fun k => no_char k = true) (dkeys d).

Lemma keys_ok_fine v : keys_ok v = true -> keys_fine v.
Proof.
  intros H p d. revert v H. induction p as [|k p IH]; intros v H E; cbn in E.
  - injection E as ->. cbn in H. rewrite !andb_true_iff, bool_decide_eq_true in H. destruct H as [[H1 H2] _].
    split; [exact H1|]. apply list.Forall_forall. intros x Hx. rewrite forallb_forall in H2.
    apply H2. by apply list_elem_of_In.
  - destruct v as [| | | | |d0]; try done. destruct (dget k d0) as [w|] eqn:Ew; [|done].
    cbn in H. rewrite !andb_true_iff in H. destruct H as [_ H]. rewrite forallb_forall in H.
    apply (IH w); [|done]. apply dget_elem, list_elem_of_In in Ew. exact (H _ Ew).
Qed.

(** A path to a value uses only keys without the delimiter. *)
Lemma path_fine v p w : keys_fine v -> node_at p v = Some w -> Forall (fun k => no_char k = true) p.
Proof.
  intros Hf. revert w. induction p as [|k p IH] using rev_ind; intros w E; [constructor|].
  rewrite node_at_app in E. destruct (node_at p v) as [u|] eqn:Eu; [|done]. apply list.Forall_app.
  split; [by eapply IH|]. constructor; [|constructor]. cbn in E. destruct u as [| | | | |d]; try done.
  destruct (dget k d) eqn:Ed; [|done]. destruct (Hf _ _ Eu) as [_ Hk]. rewrite list.Forall_forall in Hk.
  apply Hk. apply dget_is_Some. by eexists.
Qed.

(** ** [flatten_dict] lists the leaves by path *)

Variable prevent : bool.

(** What one round adds and removes *)
Definition sub_entries (key : string) (d : dict string yaml) : dict string yaml :=
  map (fun kv => (key +:+ delim +:+ kv.1, kv.2)) d.
Definition round_add (dt : dict string yaml) : list (string * yaml) :=
  flat_map (fun kv => match kv.2 with YDict d => sub_entries kv.1 d | _ => [] end) dt.
Definition round_remove (dt : dict string yaml) : list string :=
  dkeys (filter (fun kv => is_dict kv.2 = true) dt).

Lemma flatten_sub_fold key l d :
  Forall (fun k => no_char k = true) (dkeys d) ->
  exists sk, foldM (flatten_sub delim prevent key) l d =
    Ok (mkLocals (fl_remove l) (dupdate (fl_add l) (sub_entries key d)) sk).
Proof.
  revert l. induction d as [|[k v] d IH]; intros l Hf; [by exists (fl_subkey l); destruct l|].
  rewrite dkeys_cons in Hf. apply list.Forall_cons in Hf as [Hk Hf]. cbn [foldM flatten_sub].
  rewrite str_contains_char, Hk, andb_false_r. cbn [mbind result_bind].
  destruct (IH (mkLocals (fl_remove l) (dset (key +:+ delim +:+ k) v (fl_add l)) (Some k)) Hf) as [sk E].
  exists sk. exact E.
Qed.

Lemma flatten_entries_fold dt l :
  (forall key d, (key, YDict d) ∈ dt -> Forall (fun k => no_char k = true) (dkeys d)) ->
  exists sk, foldM (flatten_entry delim prevent false) l dt =
    Ok (mkLocals (fl_remove l ++ round_remove dt) (dupdate (fl_add l) (round_add dt)) sk).
Proof.
  revert l. induction dt as [|[key v] dt IH]; intros l Hf.
  { exists (fl_subkey l). cbn. rewrite app_nil_r. by destruct l. }
  assert (forall key d, (key, YDict d) ∈ dt -> Forall (fun k => no_char k = true) (dkeys d)) as Hf'
    by (intros; eapply Hf; by right).
  cbn [foldM]. unfold round_remove, round_add. rewrite filter_cons. cbn [flat_map fst snd].
  destruct v as [| | | | |d]; cbn [flatten_entry is_dict];
    try (rewrite decide_False by done; by apply IH).
  rewrite decide_True by done. destruct (flatten_sub_fold key l d) as [sk E]; [eapply Hf; left|].
  rewrite E. cbn [fmap result_fmap mbind result_bind fl_remove fl_add fl_subkey].
  destruct (IH (mkLocals (fl_remove l ++ [key]) (dupdate (fl_add l) (sub_entries key d)) sk) Hf') as [sk' E'].
  exists sk'. rewrite E'. cbn [fl_remove fl_add]. unfold dupdate. rewrite foldl_app, <- app_assoc. done.
Qed.

Lemma elem_round_add dt key v :
  (key, v) ∈ round_add dt <->
  exists key0 d k, (key0, YDict d) ∈ dt /\ (k, v) ∈ d /\ key = key0 +:+ delim +:+ k.
Proof.
  unfold round_add. rewrite list_elem_of_In, in_flat_map. split.
  - intros ([key0 w] & Hin & Hv). destruct w as [| | | | |d]; try done. cbn in Hv.
    apply in_map_iff in Hv as ([k u] & [= <- <-] & Hk). exists key0, d, k.
    by rewrite !list_elem_of_In.
  - intros (key0 & d & k & H0 & Hk & ->). exists (key0, YDict d). split; [by apply list_elem_of_In|].
    cbn. apply in_map_iff. exists (k, v). split; [done | by apply list_elem_of_In].
Qed.

Lemma elem_round_remove dt key :
  key ∈ round_remove dt <-> exists d, (key, YDict d) ∈ dt.
Proof.
  unfold round_remove, dkeys. rewrite list_elem_of_fmap. split.
  - intros ([k v] & -> & H). apply list_elem_of_filter in H as [Hd H]. destruct v; try done. by eexists.
  - intros [d H]. exists (key, YDict d). split; [done|]. by apply list_elem_of_filter.
Qed.

Variable d0 : dict string yaml.
Hypothesis fine : keys_fine (YDict d0).

(** The entries before round [n]: everything [n] keys deep, and the leaves above *)
Definition stage (n : nat) (q : list string) (v : yaml) : Prop :=
  q <> [] /\ node_at q (YDict d0) = Some v /\ (length q = n \/ (length q < n)%nat /\ is_dict v = false).

Definition stage_inv (n : nat) (dt : dict string yaml) : Prop :=
  dwf dt /\ forall key v, dget key dt = Some v <-> exists q, key = join q /\ stage n q v.

Lemma stage_fine n q v : stage n q v -> Forall (fun k => no_char k = true) q.
Proof. intros (_ & E & _). by eapply path_fine. Qed.

Lemma stage_join_inj n m q1 q2 v1 v2 : stage n q1 v1 -> stage m q2 v2 -> join q1 = join q2 -> q1 = q2.
Proof. intros H1 H2. apply join_inj; [apply H1 | apply H2 | by eapply stage_fine ..]. Qed.

(** What a dict of a stage adds is a path one longer. *)
Lemma stage_child n q d k v :
  stage n q (YDict d) -> (k, v) ∈ d -> stage (S n) (q ++ [k]) v /\ length q = n /\ join (q ++ [k]) = join q +:+ delim +:+ k.
Proof.
  intros (Hq & E & Hl) Hk. assert (length q = n) as Hn by (destruct Hl as [|[_ ?]]; done).
  split; [|split; [done | by apply join_snoc]]. split; [by destruct q|]. split.
  - rewrite node_at_app, E. cbn. destruct (fine _ _ E) as [Hw _]. by rewrite (elem_dget _ _ _ Hw Hk).
  - left. rewrite length_app. cbn. lia.
Qed.

Lemma stage_inv_init : stage_inv 1 d0.
Proof.
  destruct (fine [] d0 eq_refl) as [Hw _]. split; [done|]. intros key v. split.
  - intros E. exists [key]. split; [done|]. split; [done|]. split; [cbn; by rewrite E | by left].
  - intros (q & -> & Hq & E & Hl). destruct q as [|k [|k' q]]; [done | | cbn in Hl; lia].
    cbn in E. unfold join. cbn. by destruct (dget k d0).
Qed.

(** What a round adds, by path *)
Lemma round_add_stage n dt key v :
  stage_inv n dt -> (key, v) ∈ round_add dt <-> exists q, key = join q /\ stage (S n) q v /\ length q = S n /\ (2 <= length q)%nat.
Proof.
  intros [Hw Hd]. rewrite elem_round_add. split.
  - intros (key0 & d & k & H0 & Hk & ->). apply (elem_dget _ _ _ Hw) in H0.
    apply Hd in H0 as (q & -> & Hq). destruct (stage_child n q d k v Hq Hk) as (Hs & Hl & E).
    exists (q ++ [k]). destruct Hq as (Hne & _). rewrite length_app. cbn. destruct q; [done|]. cbn in *.
    split_and!; [done | done | lia | lia].
  - intros (q & -> & (Hne & E & _) & Hl & H2). destruct q as [|k q _] using rev_ind; [done|].
    rewrite length_app in *. cbn in Hl, H2. rewrite node_at_app in E.
    destruct (node_at q (YDict d0)) as [u|] eqn:Eu; [|done]. cbn in E. destruct u as [| | | | |d]; try done.
    destruct (dget k d) as [w|] eqn:Ek; [|done]. injection E as ->.
    assert (q <> []) as Hq by (destruct q; [cbn in *; lia | done]).
    exists (join q), d, k. split; [|split; [by apply dget_elem | by apply join_snoc]].
    apply dget_elem, Hd. exists q. split; [done|]. split; [done|]. split; [done|]. left. lia.
Qed.

Lemma round_next n dt key v :
  (1 <= n)%nat -> stage_inv n dt ->
  (forall v, dget key (dupdate [] (round_add dt)) = Some v <-> (key, v) ∈ round_add dt) ->
  (if decide (key ∈ round_remove dt) then None
   else match dget key (dupdate [] (round_add dt)) with Some w => Some w | None => dget key dt end) = Some v <->
  exists q, key = join q /\ stage (S n) q v.
Proof.
  intros Hn Hinv Ha. pose proof Hinv as [Hw Hd]. split.
  - case_decide as Hr; [done|]. destruct (dget key (dupdate [] _)) as [w|] eqn:Ew.
    + intros [= ->]. pose proof (proj1 (Ha _) eq_refl) as Hin.
      apply (round_add_stage n) in Hin as (q & -> & Hq & _); [by exists q | done].
    + intros Ek. destruct (proj1 (Hd _ _) Ek) as (q & -> & Hq & E & Hl). exists q. split; [done|].
      assert (is_dict v = false) as Hv.
      { destruct v as [| | | | |d]; try done. exfalso. apply Hr, elem_round_remove. exists d. by apply dget_elem. }
      split; [done|]. split; [done|]. right. split; [|done]. destruct Hl as [|[? _]]; lia.
  - intros (q & -> & Hq). pose proof Hq as (Hne & E & Hl).
    assert (forall d, dget (join q) dt = Some (YDict d) -> length q = S n \/ is_dict v = false -> False) as Hnr.
    { intros d Ek Hor. apply Hd in Ek as (q' & Ej & Hq'). pose proof (stage_join_inj _ _ _ _ _ _ Hq Hq' Ej) as ->.
      destruct Hq' as (_ & E' & Hl'). rewrite E in E'. injection E' as ->.
      destruct Hor as [?|?]; [|done]. destruct Hl' as [?|[? _]]; lia. }
    rewrite decide_False.
    2: { intros (d & Hin)%elem_round_remove. apply (elem_dget _ _ _ Hw) in Hin.
         apply (Hnr d Hin). destruct Hl as [?|[_ ?]]; auto. }
    destruct Hl as [Hl|[Hl Hv]].
    + rewrite (proj2 (Ha v)); [done|]. apply (round_add_stage n); [done|]. exists q.
      split; [done|]. split; [done|]. lia.
    + destruct (dget (join q) (dupdate [] _)) as [w|] eqn:Ew.
      * exfalso. pose proof (proj1 (Ha _) eq_refl) as Hin.
        apply (round_add_stage n) in Hin as (q' & Ej & Hq' & Hl' & _); [|done].
        pose proof (stage_join_inj _ _ _ _ _ _ Hq Hq' Ej) as ->. lia.
      * apply Hd. exists q. split; [done|]. split; [done|]. split; [done|].
        destruct (decide (length q = n)); [by left | right; split; [lia | done]].
Qed.

(** A round turns a stage into the next one. *)
Lemma flatten_round n dt sk :
  (1 <= n)%nat -> stage_inv n dt ->
  exists l dt', foldM (flatten_entry delim prevent false) (mkLocals [] [] sk) dt = Ok l /\
    foldM (fun d k => ddelitem k d) (dupdate dt (fl_add l)) (fl_remove l) = Ok dt' /\ stage_inv (S n) dt'.
Proof.
  intros Hn Hinv. pose proof Hinv as [Hw Hd].
  destruct (flatten_entries_fold dt (mkLocals [] [] sk)) as [sk' E].
  { intros key d Hin. apply (elem_dget _ _ _ Hw), Hd in Hin as (q & _ & _ & Eq & _). by apply (fine q d). }
  rewrite E. eexists _. cbn [fl_add fl_remove app].
  assert (forall k v v', (k, v) ∈ round_add dt -> (k, v') ∈ round_add dt -> v = v') as Hfun.
  { intros k v v'. rewrite !(round_add_stage n) by done. intros (q & -> & Hq & _) (q' & Ej & Hq' & _).
    rewrite (stage_join_inj _ _ _ _ _ _ Hq Hq' Ej) in Hq. destruct Hq as (_ & E1 & _), Hq' as (_ & E2 & _). congruence. }
  assert (dwf (dupdate [] (round_add dt))) as Hwa by apply dwf_dupdate, dwf_nil.
  destruct (ddelitem_all (round_remove dt) (dupdate dt (dupdate [] (round_add dt)))) as (dt' & Ed & Hw' & Hg).
  { by apply dwf_dupdate. }
  { unfold round_remove, dkeys, dwf, dkeys in *. eapply sublist_NoDup; [exact Hw|]. apply fmap_sublist, sublist_filter. }
  { intros k [d Hk]%elem_round_remove. apply elem_dkeys_dupdate. left. apply dget_is_Some. eexists. by apply elem_dget. }
  exists dt'. split; [done|]. split; [done|]. split; [done|]. intros key v. rewrite Hg, dget_dupdate by done.
  apply round_next; [done | done |]. intros w. by apply dget_dupdate_functional.
Qed.

(** *** Termination *)

Lemma depth_node p v w : node_at p v = Some w -> (length p + yaml_depth w <= yaml_depth v)%nat.
Proof.
  revert v. induction p as [|k p IH]; intros v E; cbn in E; [injection E as ->; cbn; lia|].
  destruct v as [| | | | |d]; try done. destruct (dget k d) as [u|] eqn:Eu; [|done].
  apply IH in E. cbn [length yaml_depth].
  assert (yaml_depth u <= list_max (map (fun kv => yaml_depth kv.2) d))%nat; [|lia].
  apply dget_elem, list_elem_of_In in Eu. pose proof (proj1 (list_max_le (map (fun kv => yaml_depth kv.2) d) _) (le_n _)) as Hm.
  rewrite List.Forall_forall in Hm. apply Hm. apply in_map_iff. by exists (k, u).
Qed.

(** The leaves, by their flattened keys *)
Definition flat_of (flat : dict string yaml) : Prop :=
  dwf flat /\ forall key v, dget key flat = Some v <->
    exists q, key = join q /\ q <> [] /\ leaf q (YDict d0) = Some v.

(** When no dict is left, no leaf is missing. *)
Lemma stage_flat n dt :
  (1 <= n)%nat -> stage_inv n dt -> existsb (fun kv => is_dict kv.2 || (false && is_list kv.2)) dt = false -> flat_of dt.
Proof.
  intros Hn [Hw Hd] Hno. split; [done|].
  assert (forall key v, dget key dt = Some v -> is_dict v = false) as Hleaf.
  { intros key v E. apply dget_elem, list_elem_of_In in E.
    assert (~ existsb (fun kv : string * yaml => is_dict kv.2 || (false && is_list kv.2)) dt = true) as Hne by congruence.
    destruct (is_dict v) eqn:Ev; [|done]. exfalso. apply Hne. apply existsb_exists. exists (key, v). cbn. by rewrite Ev. }
  intros key v. split.
  - intros E. pose proof (Hleaf _ _ E) as Hv. apply Hd in E as (q & -> & Hq & Eq & _). exists q. by rewrite leaf_Some.
  - intros (q & -> & Hq & [E Hv]%leaf_Some). apply Hd. exists q. split; [done|]. split; [done|]. split; [done|].
    destruct (decide (length q <= n)%nat) as [Hle|Hgt].
    { destruct (decide (length q = n)); [by left | right; split; [lia | done]]. }
    exfalso. rewrite <- (take_drop n q), node_at_app in E.
    destruct (node_at (take n q) (YDict d0)) as [u|] eqn:Eu; [|done].
    assert (dget (join (take n q)) dt = Some u) as Ed.
    { apply Hd. exists (take n q). split; [done|]. split; [destruct q, n; cbn in *; (done || lia)|]. split; [done|].
      left. rewrite length_take. lia. }
    apply Hleaf in Ed. destruct (drop n q) as [|k r] eqn:Er.
    + apply (f_equal length) in Er. rewrite length_drop in Er. cbn in Er. lia.
    + cbn in E. by destruct u.
Qed.

Lemma flatten_loop_ok fuel : forall n sk dt,
  (1 <= n)%nat -> stage_inv n dt -> (yaml_depth (YDict d0) < fuel + n + 1)%nat ->
  exists flat, flatten_loop fuel delim prevent false sk dt = Ok flat /\ flat_of flat.
Proof.
  induction fuel as [|fuel IH]; intros n sk dt Hn Hinv Hf; cbn [flatten_loop];
    destruct (existsb _ dt) eqn:Ex; try (by exists dt; split; [done | by eapply stage_flat]).
  - exfalso. apply existsb_exists in Ex as ([key v] & Hin & Hv). cbn in Hv. rewrite orb_false_r in Hv.
    apply list_elem_of_In in Hin. pose proof Hinv as [Hw Hd]. apply (elem_dget _ _ _ Hw), Hd in Hin as (q & _ & _ & E & Hl).
    apply depth_node in E. destruct v; try done. cbn [is_dict] in Hl. cbn [yaml_depth] in E.
    destruct Hl as [?|[_ ?]]; [|done]. cbn [yaml_depth] in Hf. lia.
  - destruct (flatten_round n dt sk Hn Hinv) as (l & dt' & -> & E & Hinv'). cbn [mbind result_bind]. rewrite E.
    cbn [mbind result_bind]. apply (IH (S n)); [lia | done | lia].
Qed.

Lemma flatten_dict_ok : exists flat, flatten_dict d0 delim prevent false = Ok flat /\ flat_of flat.
Proof.
  unfold flatten_dict. replace (existsb _ (dkeys d0)) with false.
  - rewrite andb_false_r. apply (flatten_loop_ok _ 1); [lia | apply stage_inv_init | lia].
  - symmetry. apply not_true_is_false. intros (k & Hk & Hc)%existsb_exists.
    destruct (fine [] d0 eq_refl) as [_ Hf]. rewrite list.Forall_forall in Hf. apply list_elem_of_In in Hk.
    specialize (Hf k Hk). rewrite str_contains_char, Hf in Hc. done.
Qed.


(** ** [unflatten_dict] *)

Lemma set_path_cons k path val item :
  path <> [] ->
  set_path (k :: path) val item =
    match dget k item with
    | None => sub ← set_path path val []; Ok (dset k (YDict sub) item)
    | Some (YDict d) => sub ← set_path path val d; Ok (dset k (YDict sub) item)
    | Some _ => Err TypeError
    end.
Proof. by destruct path. Qed.

(** [set_path] puts a leaf at the path and leaves everything beside it. *)
Lemma set_path_leaf path val : forall item,
  path <> [] -> is_dict val = false ->
  (forall q k r, path = q ++ k :: r -> leaf q (YDict item) = None) ->
  exists item', set_path path val item = Ok item' /\
    forall p, leaf p (YDict item') =
      if decide (p = path) then Some val else if decide (path `prefix_of` p) then None else leaf p (YDict item).
Proof.
  induction path as [|k path IH]; intros item Hne Hval Hpre; [done|].
  destruct path as [|k2 path].
  - exists (dset k val item). split; [done|]. intros [|k' p]; [done|]. rewrite !leaf_cons, dget_dset.
    case_decide as E; [subst k'|].
    + unfold leaf. destruct p as [|k'' p]; cbn.
      * rewrite Hval. by rewrite decide_True.
      * rewrite decide_False by done. rewrite decide_True by (exists (k'' :: p); done). by destruct val.
    + rewrite decide_False by congruence. rewrite decide_False; [done|]. intros [r Hr]. cbn in Hr. congruence.
  - assert (exists d, (match dget k item with Some w => w | None => YDict [] end) = YDict d) as [d Hd].
    { destruct (dget k item) as [w|] eqn:Ew; [|by eexists]. specialize (Hpre [k] k2 path eq_refl).
      rewrite leaf_cons, Ew in Hpre. unfold leaf in Hpre. cbn in Hpre. destruct w; try done. by eexists. }
    assert (forall p, leaf p (YDict d) = leaf (k :: p) (YDict item)) as Hsub.
    { intros p. rewrite leaf_cons. destruct (dget k item); [by rewrite Hd|]. injection Hd as <-.
      unfold leaf. by destruct p. }
    destruct (IH d) as (sub & E & Hleaf); [done | done | |].
    { intros q k' r Hq. rewrite Hsub. eapply (Hpre (k :: q)). by rewrite Hq. }
    exists (dset k (YDict sub) item). split.
    + rewrite set_path_cons by done. destruct (dget k item) as [w|]; cbn in Hd; [subst w | injection Hd as <-]; by rewrite E.
    + intros [|k' p]; [done|]. rewrite (leaf_cons k'), dget_dset. case_decide as Ek; [subst k'|].
      * rewrite Hleaf, Hsub. destruct (decide (p = k2 :: path)) as [->|Hp]; [by rewrite decide_True|].
        rewrite (decide_False (P := k :: p = _)) by congruence.
        destruct (decide (k2 :: path `prefix_of` p)) as [Hin|Hin];
          [rewrite decide_True; [done | by apply prefix_cons] | rewrite decide_False; [done|]].
        intros C. by apply prefix_cons_inv_2 in C.
      * rewrite decide_False by congruence. rewrite decide_False; [by rewrite leaf_cons|].
        intros C. by apply prefix_cons_inv_1 in C.
Qed.

Lemma unflatten_fold todo : forall done_ out,
  (forall key v, (key, v) ∈ todo -> exists q, key = join q /\ q <> [] /\ leaf q (YDict d0) = Some v) ->
  (forall p x, leaf p (YDict out) = Some x <-> p <> [] /\ leaf p (YDict d0) = Some x /\ (join p, x) ∈ done_) ->
  exists d, foldM (fun out kv => path ← str_split delim kv.1; set_path path kv.2 out) out todo = Ok d /\
    forall p x, leaf p (YDict d) = Some x <-> p <> [] /\ leaf p (YDict d0) = Some x /\ (join p, x) ∈ done_ ++ todo.
Proof.
  induction todo as [|[key v] todo IH]; intros done_ out Htodo Hinv; cbn [foldM].
  { exists out. split; [done|]. by rewrite app_nil_r. }
  destruct (Htodo key v) as (q & -> & Hq & Hv); [left|]. cbn [fst snd].
  assert (forall p x, leaf p (YDict d0) = Some x -> Forall (fun k => no_char k = true) p) as Hfine.
  { intros p x [Hp _]%leaf_Some. by eapply path_fine. }
  rewrite (split_join q Hq (Hfine _ _ Hv)). cbn [mbind result_bind].
  pose proof (proj2 (proj1 (leaf_Some _ _ _) Hv)) as Hval.
  destruct (set_path_leaf q v out Hq Hval) as (out' & -> & Hleaf).
  { intros q1 k r ->. destruct (leaf q1 (YDict out)) as [y|] eqn:E; [|done]. exfalso.
    apply Hinv in E as (_ & E & _). by eapply leaf_no_prefix. }
  destruct (IH (done_ ++ [(join q, v)]) out') as (d & E & Hd).
  { intros key' v' Hin. apply Htodo. by right. }
  2: { exists d. split; [exact E|]. intros p x. by rewrite Hd, <- app_assoc. }
  intros p x. rewrite Hleaf, elem_of_app, list_elem_of_singleton. destruct (decide (p = q)) as [->|Hpq].
  { split; [intros [= ->]; auto|]. intros (_ & Hx & _). congruence. }
  assert ((join p, x) = (join q, v) -> p <> [] -> leaf p (YDict d0) = Some x -> False) as Hno.
  { intros [= Ej _] Hp Hx. apply Hpq. apply join_inj; [done | done | by eapply Hfine | by eapply Hfine | done]. }
  destruct (decide (q `prefix_of` p)) as [[[|k r] ->]|Hpre].
  - by rewrite app_nil_r in Hpq.
  - split; [done|]. intros (_ & Hx & _). exfalso. eapply leaf_no_prefix; [exact Hv | exact Hx].
  - rewrite Hinv. naive_solver.
Qed.

End Keys.

(** C32. Flattening a nested dict whose keys do not contain the delimiter
    terminates and raises nothing; its entries are exactly the values that
    are not dicts, each under its path joined with the delimiter. Unflattening
    the result raises nothing either and gives a dict with the same values at
    the same paths. *)
Theorem flatten_unflatten (c : ascii) (prevent_delimiter : bool) (d0 : dict string yaml) :
  keys_ok c (YDict d0) = true ->
  exists flat d,
    flatten_dict d0 (String c "") prevent_delimiter false = Ok flat /\
    unflatten_dict flat (String c "") = Ok d /\
    (forall key v, dget key flat = Some v <-> exists p, key = join c p /\ p <> [] /\ leaf p (YDict d0) = Some v) /\
    (forall p, leaf p (YDict d) = leaf p (YDict d0)).
Proof.
  intros Hok. apply keys_ok_fine in Hok.
  destruct (flatten_dict_ok c prevent_delimiter d0 Hok) as (flat & E & Hw & Hflat).
  destruct (unflatten_fold c d0 Hok flat [] []) as (d & Ed & Hd).
  { intros key v Hin. apply Hflat. by apply elem_dget. }
  { intros p x. rewrite elem_of_nil. unfold leaf. destruct p; cbn; naive_solver. }
  exists flat, d. split; [done|]. split; [exact Ed|]. split; [done|]. intros p. apply option_eq. intros x.
  rewrite Hd. cbn [app]. split; [naive_solver|]. intros Hx. destruct p as [|k p]; [done|].
  split; [done|]. split; [done|]. apply dget_elem, Hflat. by exists (k :: p).
Qed.

Lemma flatten_unflatten_witness :
  let d0 := [("a", YDict [("b", YNum 1); ("c", YDict [("d", YStr "x")])]); ("e", YNull)]%string in
  exists flat d, flatten_dict d0 "/" true false = Ok flat /\ unflatten_dict flat "/" = Ok d /\
    dget "a/c/d" flat = Some (YStr "x").
Proof.
  intros d0. destruct (flatten_unflatten "/"%char true d0 eq_refl) as (flat & d & E & Ed & Hflat & _).
  exists flat, d. split; [exact E|]. split; [exact Ed|]. apply Hflat. exists ["a"; "c"; "d"]. by split.
Defined.

(** With [flatten_list] and [prevent_delimiter], a list before any nested
    dict makes the function read a variable that is not set. *)
Example flatten_list_reads_unset_variable :
  flatten_dict [("a", YList [YNum 1])] "/" true true = Err NameError.
Proof. done. Qed.
