(* ===== verification/Heapq.v ===== *)
(** The standard library's [heapq], a list as a binary heap, as far as
    Tune's checkpoint manager uses it. *)

From Stdlib Require Import ZArith QArith Lqa Lia.
From stdpp Require Import base list strings option.
From S2P Require Import Prelude.

Section Heapq.
Context {A : Type} (lt : A -> A -> bool).   (* [a < b] *)

(** [_siftdown(heap, 0, pos)]: [newitem] moves towards the root. *)
Fixpoint siftdown_loop (fuel : nat) (heap : list A) (newitem : A) (pos : nat) : result (list A) :=
  if (0 <? pos)%nat then
    match fuel with
    | O => Err OutOfFuel
    | S fuel' =>
        let parentpos := ((pos - 1) / 2)%nat in
        parent ← or_raise IndexError (heap !! parentpos);
        if lt newitem parent then siftdown_loop fuel' (<[pos := parent]> heap) newitem parentpos
        else Ok (<[pos := newitem]> heap)
    end
  else Ok (<[pos := newitem]> heap).

Definition _siftdown (heap : list A) (pos : nat) : result (list A) :=
  newitem ← or_raise IndexError (heap !! pos);
  siftdown_loop pos heap newitem pos.

Definition heappush (heap : list A) (item : A) : result (list A) :=
  let heap := heap ++ [item] in _siftdown heap (length heap - 1).

(** The loop of [_siftup]: the smaller child moves up until a leaf is reached. *)
Fixpoint siftup_loop (fuel : nat) (heap : list A) (newitem : A) (pos : nat) : result (list A * nat) :=
  let childpos := (2 * pos + 1)%nat in
  if (childpos <? length heap)%nat then
    match fuel with
    | O => Err OutOfFuel
    | S fuel' =>
        let rightpos := (childpos + 1)%nat in
        child ← or_raise IndexError (heap !! childpos);
        let childpos := match heap !! rightpos with
                        | Some rchild => if negb (lt child rchild) then rightpos else childpos
                        | None => childpos
                        end in
        child ← or_raise IndexError (heap !! childpos);
        siftup_loop fuel' (<[pos := child]> heap) newitem childpos
    end
  else Ok (heap, pos).

(** [_siftup(heap, 0)] *)
Definition _siftup (heap : list A) : result (list A) :=
  newitem ← or_raise IndexError (heap !! 0%nat);
  '(heap, pos) ← siftup_loop (length heap) heap newitem 0;
  _siftdown (<[pos := newitem]> heap) pos.

(** The item that leaves, and the heap *)
Definition heappushpop (heap : list A) (item : A) : result (A * list A) :=
  match heap with
  | first :: _ =>
      if lt first item then heap' ← _siftup (<[0%nat := item]> heap); Ok (first, heap')
      else Ok (item, heap)
  | [] => Ok (item, heap)
  end.

(** ** Correctness *)

Hypothesis lt_asym : forall x y, lt x y = true -> lt y x = false.
Hypothesis le_trans : forall x y z, lt y x = false -> lt z y = false -> lt z x = false.

Local Abbreviation le x y := (lt y x = false).

Lemma le_refl x : le x x.
Proof. destruct (lt x x) eqn:E; [|done]. by rewrite (lt_asym x x E) in E. Qed.

Lemma parent_lt i : (0 < i)%nat -> ((i - 1) / 2 < i)%nat.
Proof. intros H. apply Nat.Div0.div_lt_upper_bound. lia. Qed.

Lemma parent_child p i : (0 < i)%nat -> ((i - 1) / 2)%nat = p <-> i = (2 * p + 1)%nat \/ i = (2 * p + 2)%nat.
Proof.
  intros H. pose proof (Nat.div_mod_eq (i - 1) 2). pose proof (Nat.mod_upper_bound (i - 1) 2). lia.
Qed.

(** The order between a position and its parent *)
Definition edge (h : list A) (i : nat) : Prop :=
  forall x y, h !! ((i - 1) / 2)%nat = Some x -> h !! i = Some y -> le x y.
Definition heap_ok (h : list A) : Prop := forall i, (0 < i)%nat -> edge h i.

(** The root of a heap is its least element. *)
Lemma heap_root h x : heap_ok h -> h !! 0%nat = Some x -> Forall (fun y => le x y) h.
Proof.
  intros Hok H0. apply list.Forall_lookup. intros i. induction (lt_wf i) as [i _ IH]. intros y Hy.
  destruct (decide (i = 0)%nat) as [->|Hi]; [rewrite H0 in Hy; injection Hy as ->; apply le_refl|].
  pose proof (parent_lt i ltac:(lia)) as Hp.
  destruct (lookup_lt_is_Some_2 h ((i - 1) / 2)) as [p Ep]; [apply lookup_lt_Some in Hy; lia|].
  eapply le_trans; [exact (IH _ Hp _ Ep)|]. by apply (Hok i ltac:(lia)).
Qed.

Lemma swap_Permutation (h : list A) i j x y :
  h !! i = Some x -> h !! j = Some y -> <[j := x]> (<[i := y]> h) ≡ₚ h.
Proof.
  assert (forall (l : list A) k u v, l !! k = Some u -> u :: <[k := v]> l ≡ₚ v :: l) as Hset.
  { intros l k u v E. rewrite insert_take_drop by by eapply lookup_lt_Some.
    rewrite <- (take_drop_middle l k u E) at 3. rewrite <- !Permutation_middle. apply Permutation_swap. }
  intros Hi Hj. destruct (decide (i = j)) as [->|Hij].
  { rewrite list_insert_insert_eq. rewrite Hi in Hj. injection Hj as <-. by rewrite list_insert_id. }
  apply (Permutation_cons_inv (a := y)). apply (Permutation_cons_inv (a := x)).
  rewrite (Hset (<[i := y]> h) j y x) by by rewrite list_lookup_insert_ne.
  by rewrite (Hset h i x y Hi).
Qed.

Lemma lookup_insert_cases (h : list A) i j x y :
  <[i := x]> h !! j = Some y -> (j = i /\ y = x) \/ (j <> i /\ h !! j = Some y).
Proof.
  intros E. destruct (decide (i = j)) as [->|Hij].
  - left. split; [done|]. assert (j < length h)%nat by (apply lookup_lt_Some in E; by rewrite length_insert in E).
    rewrite list_lookup_insert_eq in E by done. by injection E.
  - right. rewrite list_lookup_insert_ne in E by done. by split.
Qed.

(** [newitem] at [pos] may only be less than its parent. *)
Record down_inv (h : list A) (newitem : A) (pos : nat) : Prop := {
  down_edges : forall i, (0 < i)%nat -> i <> pos -> edge (<[pos := newitem]> h) i;
  down_children : forall i x y, (0 < pos)%nat -> (0 < i)%nat -> ((i - 1) / 2)%nat = pos ->
    h !! ((pos - 1) / 2)%nat = Some x -> h !! i = Some y -> le x y
}.

Lemma siftdown_step h new pos parent :
  (0 < pos < length h)%nat -> h !! ((pos - 1) / 2)%nat = Some parent -> lt new parent = true ->
  down_inv h new pos -> down_inv (<[pos := parent]> h) new ((pos - 1) / 2).
Proof.
  intros Hpos Hp Hlt [He Hc]. pose proof (parent_lt pos ltac:(lia)) as Hpp. set (q := ((pos - 1) / 2)%nat) in *.
  assert (le new parent) as Hle by by apply lt_asym.
  assert (forall i y, (0 < i)%nat -> ((i - 1) / 2)%nat = q -> h !! i = Some y -> i <> pos -> le parent y) as Hsib.
  { intros i y Hi Hq Hy Hne. apply (He i Hi Hne).
    - rewrite Hq, list_lookup_insert_ne by lia. done.
    - by rewrite list_lookup_insert_ne by done. }
  split.
  - intros i Hi Hiq x y Hx Hy. apply lookup_insert_cases in Hy as [[-> _]|[_ Hy]]; [done|].
    apply lookup_insert_cases in Hy as [[-> ->]|[Hip Hy]].
    + fold q in Hx. rewrite list_lookup_insert_eq in Hx by (rewrite length_insert; lia). by injection Hx as <-.
    + apply lookup_insert_cases in Hx as [[Hq ->]|[Hq Hx]].
      * eapply le_trans; [exact Hle|]. by eapply Hsib.
      * apply lookup_insert_cases in Hx as [[Hq' ->]|[Hq' Hx]].
        -- eapply Hc; [lia | exact Hi | exact Hq' | done | done].
        -- apply (He i Hi Hip); rewrite list_lookup_insert_ne; by try done.
  - intros i x y Hq0 Hi Hiq Hx Hy. pose proof (parent_lt q Hq0) as Hqq.
    rewrite list_lookup_insert_ne in Hx by lia.
    assert (le x parent) as Hxp.
    { apply (He q Hq0 ltac:(lia)); rewrite list_lookup_insert_ne by lia; done. }
    apply lookup_insert_cases in Hy as [[-> ->]|[Hip Hy]]; [done|].
    eapply le_trans; [exact Hxp|]. by eapply Hsib.
Qed.

Lemma siftdown_loop_ok new : forall fuel h pos,
  (pos < length h)%nat -> (pos <= fuel)%nat -> down_inv h new pos ->
  exists h', siftdown_loop fuel h new pos = Ok h' /\ heap_ok h' /\ h' ≡ₚ <[pos := new]> h.
Proof.
  induction fuel as [|fuel IH]; intros h pos Hpos Hf Hinv; cbn [siftdown_loop];
    destruct (Nat.ltb_spec 0 pos) as [C|C]; try lia.
  1, 3: eexists; split; [reflexivity|]; split; [|done]; intros i Hi; apply Hinv; lia.
  cbv zeta. pose proof (parent_lt pos C) as Hpp.
  destruct (lookup_lt_is_Some_2 h ((pos - 1) / 2)) as [parent Hp]; [lia|]. rewrite Hp. cbn [or_raise mbind result_bind].
  destruct (lt new parent) eqn:El.
  - destruct (IH (<[pos := parent]> h) ((pos - 1) / 2)%nat) as (h' & E & Hok & Hperm);
      [rewrite length_insert; lia | lia | by apply siftdown_step; [lia|..] |].
    exists h'. split; [done|]. split; [done|]. rewrite Hperm.
    etrans; [|apply (swap_Permutation (<[pos := new]> h) pos ((pos - 1) / 2) new parent)].
    + by rewrite list_insert_insert_eq.
    + by apply list_lookup_insert_eq.
    + by rewrite list_lookup_insert_ne by lia.
  - eexists; split; [reflexivity|]. split; [|done]. intros i Hi. destruct (decide (i = pos)) as [->|Hne];
      [|by apply Hinv]. intros x y Hx Hy. rewrite list_lookup_insert_ne in Hx by lia. rewrite Hp in Hx. injection Hx as <-.
    rewrite list_lookup_insert_eq in Hy by done. by injection Hy as <-.
Qed.

Lemma heappush_ok h x :
  heap_ok h -> exists h', heappush h x = Ok h' /\ heap_ok h' /\ h' ≡ₚ x :: h.
Proof.
  intros Hok. unfold heappush, _siftdown. rewrite length_app. cbn [length]. rewrite Nat.add_sub.
  rewrite list_lookup_middle by done. cbn [or_raise mbind result_bind].
  destruct (siftdown_loop_ok x (length h) (h ++ [x]) (length h)) as (h' & E & Hok' & Hp).
  - rewrite length_app. cbn. lia.
  - done.
  - split.
    + intros i Hi Hne a b Ha Hb. rewrite list_insert_id in Ha, Hb by by apply list_lookup_middle.
      assert (i < length h)%nat.
      { apply lookup_lt_Some in Hb. rewrite length_app in Hb. cbn in Hb. lia. }
      pose proof (parent_lt i Hi). rewrite lookup_app_l in Ha, Hb by lia. by apply (Hok i).
    + intros i a b H0 Hi Hpar _ Hb. apply parent_child in Hpar; [|done]. apply lookup_lt_Some in Hb.
      rewrite length_app in Hb. cbn in Hb. lia.
  - exists h'. split; [done|]. split; [done|]. rewrite Hp, list_insert_id by by apply list_lookup_middle.
    by rewrite Permutation_app_comm.
Qed.

(** The value at [pos] is not constrained. *)
Record up_inv (h : list A) (pos : nat) : Prop := {
  up_edges : forall i, (0 < i)%nat -> i <> pos -> ((i - 1) / 2)%nat <> pos -> edge h i;
  up_children : forall i x y, (0 < pos)%nat -> (0 < i)%nat -> ((i - 1) / 2)%nat = pos ->
    h !! ((pos - 1) / 2)%nat = Some x -> h !! i = Some y -> le x y
}.

Lemma siftup_step h pos cpos child :
  (pos < length h)%nat -> (0 < cpos)%nat -> ((cpos - 1) / 2)%nat = pos -> h !! cpos = Some child ->
  (forall i y, (0 < i)%nat -> ((i - 1) / 2)%nat = pos -> h !! i = Some y -> le child y) ->
  up_inv h pos -> up_inv (<[pos := child]> h) cpos.
Proof.
  intros Hpos Hc0 Hcp Hc Hmin [He Hg]. pose proof (parent_lt cpos Hc0) as Hlt. split.
  - intros i Hi Hic Hpc x y Hx Hy.
    apply lookup_insert_cases in Hx as [[Hxp ->]|[Hxp Hx]], Hy as [[-> ->]|[Hip Hy]].
    + pose proof (parent_lt pos Hi). lia.
    + by eapply Hmin.
    + eapply (Hg cpos); [done | exact Hc0 | done | exact Hx | done].
    + by apply (He i).
  - intros i x y _ Hi Hpc Hx Hy. pose proof (parent_lt i Hi) as Hpi.
    rewrite Hcp, list_lookup_insert_eq in Hx by done. injection Hx as <-.
    rewrite list_lookup_insert_ne in Hy by lia.
    apply (He i Hi); [lia | lia | by rewrite Hpc | done].
Qed.

(** The smaller of the two children *)
Lemma smaller_child h pos :
  (2 * pos + 1 < length h)%nat ->
  exists child0 cpos child, h !! (2 * pos + 1)%nat = Some child0 /\
    (match h !! (2 * pos + 1 + 1)%nat with
     | Some rchild => if negb (lt child0 rchild) then (2 * pos + 1 + 1)%nat else (2 * pos + 1)%nat
     | None => (2 * pos + 1)%nat
     end) = cpos /\
    h !! cpos = Some child /\ (0 < cpos)%nat /\ ((cpos - 1) / 2)%nat = pos /\
    (forall i y, (0 < i)%nat -> ((i - 1) / 2)%nat = pos -> h !! i = Some y -> le child y).
Proof.
  intros Hlen. destruct (lookup_lt_is_Some_2 h (2 * pos + 1) Hlen) as [c0 E0]. exists c0.
  assert (forall i, (0 < i)%nat -> ((i - 1) / 2)%nat = pos -> i = (2 * pos + 1)%nat \/ i = (2 * pos + 1 + 1)%nat) as Hch.
  { intros i Hi Hp. apply parent_child in Hp; [lia | done]. }
  destruct (h !! (2 * pos + 1 + 1)%nat) as [r|] eqn:Er; [destruct (lt c0 r) eqn:El; cbn [negb]|].
  - exists (2 * pos + 1)%nat, c0. split_and!; [done | done | done | lia | apply parent_child; lia |].
    intros i y Hi Hp Hy. destruct (Hch i Hi Hp) as [-> | ->].
    + rewrite E0 in Hy. injection Hy as <-. apply le_refl.
    + rewrite Er in Hy. injection Hy as <-. by apply lt_asym.
  - exists (2 * pos + 1 + 1)%nat, r. split_and!; [done | done | done | lia | apply parent_child; lia |].
    intros i y Hi Hp Hy. destruct (Hch i Hi Hp) as [-> | ->].
    + rewrite E0 in Hy. by injection Hy as <-.
    + rewrite Er in Hy. injection Hy as <-. apply le_refl.
  - exists (2 * pos + 1)%nat, c0. split_and!; [done | done | done | lia | apply parent_child; lia |].
    intros i y Hi Hp Hy. destruct (Hch i Hi Hp) as [-> | ->]; [|congruence].
    rewrite E0 in Hy. injection Hy as <-. apply le_refl.
Qed.

Lemma siftup_loop_ok new : forall fuel h pos,
  (pos < length h)%nat -> (length h <= fuel + pos)%nat -> up_inv h pos ->
  exists h' pos', siftup_loop fuel h new pos = Ok (h', pos') /\ length h' = length h /\ (pos' < length h)%nat /\
    (length h <= 2 * pos' + 1)%nat /\ up_inv h' pos' /\ <[pos' := new]> h' ≡ₚ <[pos := new]> h.
Proof.
  induction fuel as [|fuel IH]; intros h pos Hpos Hf Hinv; cbn [siftup_loop]; [lia|].
  destruct (Nat.ltb_spec (2 * pos + 1) (length h)) as [C|C]; [|by exists h, pos].
  destruct (smaller_child h pos C) as (c0 & cpos & child & E0 & Ec & Hc & Hc0 & Hcp & Hmin).
  cbv zeta. rewrite E0. cbn [or_raise mbind result_bind]. rewrite Ec, Hc. cbn [or_raise mbind result_bind].
  pose proof (parent_lt cpos Hc0) as Hlt. rewrite Hcp in Hlt. apply lookup_lt_Some in Hc as Hcl.
  destruct (IH (<[pos := child]> h) cpos) as (h' & pos' & E & Hl & Hp' & Hleaf & Hinv' & Hperm);
    [by rewrite length_insert | rewrite length_insert; lia | by apply siftup_step |].
  rewrite length_insert in *. exists h', pos'. split_and!; try done. rewrite Hperm.
  etrans; [|apply (swap_Permutation (<[pos := new]> h) pos cpos new child)].
  - by rewrite list_insert_insert_eq.
  - by apply list_lookup_insert_eq.
  - by rewrite list_lookup_insert_ne by lia.
Qed.

Lemma siftup_ok h x y :
  heap_ok (x :: h) -> exists h', _siftup (y :: h) = Ok h' /\ heap_ok h' /\ h' ≡ₚ y :: h.
Proof.
  intros Hok. unfold _siftup. cbn [lookup list_lookup or_raise mbind result_bind].
  destruct (siftup_loop_ok y (length (y :: h)) (y :: h) 0) as (h1 & pos & E & Hl & Hp & Hleaf & Hinv & Hperm);
    [cbn; lia | lia | |].
  { split; [|lia]. intros i Hi _ Hpar a b Ha Hb. destruct i as [|i]; [lia|].
    destruct ((S i - 1) / 2)%nat as [|j] eqn:Ej; [done|]. cbn in Ha, Hb. apply (Hok (S i) Hi); [by rewrite Ej | done]. }
  rewrite E. cbn [mbind result_bind]. unfold _siftdown. rewrite list_lookup_insert_eq by lia. cbn [or_raise mbind result_bind].
  destruct (siftdown_loop_ok y pos (<[pos := y]> h1) pos) as (h' & E' & Hok' & Hp'); [by rewrite length_insert; lia | done | |].
  - assert (forall i b, (0 < i)%nat -> ((i - 1) / 2)%nat = pos -> h1 !! i = Some b -> False) as Hno.
    { intros i b Hi Hpar Hb. apply parent_child in Hpar; [|done]. apply lookup_lt_Some in Hb. lia. }
    split.
    + intros i Hi Hne a b Ha Hb. rewrite list_insert_insert_eq in Ha, Hb.
      apply lookup_insert_cases in Hb as [[-> _]|[_ Hb]]; [done|].
      apply lookup_insert_cases in Ha as [[Hpar _]|[Hpar Ha]]; [exfalso; by eapply Hno|]. by apply (up_edges _ _ Hinv i).
    + intros i a b _ Hi Hpar _ Hb. pose proof (parent_lt i Hi). rewrite list_lookup_insert_ne in Hb by lia.
      exfalso. by eapply Hno.
  - exists h'. split; [done|]. split; [done|]. rewrite Hp', list_insert_insert_eq. exact Hperm.
Qed.

(** [heappushpop] returns a least element of the heap with the item. *)
Lemma heappushpop_ok h x :
  heap_ok h -> exists y h', heappushpop h x = Ok (y, h') /\ heap_ok h' /\ y :: h' ≡ₚ x :: h /\
    Forall (fun z => le y z) h' /\ (le x y -> y = x /\ h' = h) /\ (lt y x = true -> h !! 0%nat = Some y).
Proof.
  intros Hok. destruct h as [|first h].
  { exists x, []. cbn. split_and!; try done. intros E. by rewrite le_refl in E. }
  pose proof (heap_root (first :: h) first Hok eq_refl) as Hroot.
  cbn [heappushpop]. destruct (lt first x) eqn:El.
  - change (<[0%nat := x]> (first :: h)) with (x :: h).
    destruct (siftup_ok h first x Hok) as (h' & -> & Hok' & Hp). cbn [mbind result_bind]. exists first, h'.
    split_and!; [done | done | rewrite Hp; apply Permutation_swap | | congruence | done].
    rewrite Hp. constructor; [by apply lt_asym|]. by inversion Hroot.
  - exists x, (first :: h). split_and!; [done | done | done | | done | intros E; by rewrite le_refl in E].
    eapply list.Forall_impl; [exact Hroot|]. cbn. intros z Hz. by eapply le_trans.
Qed.

End Heapq.
