(* ===== verification/CheckpointManager.v ===== *)
(** [CheckpointManager] of Tune ([tune/checkpoint_manager.py]): which
    checkpoints of a trial are kept, and which are deleted. *)

From Stdlib Require Import ZArith QArith Lqa Lia Ascii.
From stdpp Require Import base list strings option sorting gmap.
From S2P Require Import Prelude PyDict Resources NodeTypes MlDict Heapq.

(** ** [Checkpoint] *)

Inductive Storage : Type := MEMORY | PERSISTENT.

#[global] Instance Storage_eq_dec : EqDecision Storage.
Proof. solve_decision. Defined.

(** A checkpoint's value: [None], a path, or another object (a future or a
    Python object), which is known by its identity *)
Inductive ckpt_value : Type := VNone | VPath (s : string) | VObject (id : nat).

#[global] Instance ckpt_value_eq_dec : EqDecision ckpt_value.
Proof. solve_decision. Defined.

Definition truthy (v : ckpt_value) : bool :=
  match v with VNone => false | VPath s => negb (String.eqb s "") | VObject _ => true end.

(** Checkpoints are compared by identity, [ck_id]. *)
Record Checkpoint : Type := mkCheckpoint {
  ck_id : nat;
  storage : Storage;
  value : ckpt_value;
  ck_result : dict string yaml
}.

Definition is_ready (c : Checkpoint) : bool :=
  match storage c with
  | PERSISTENT => match value c with VPath _ => true | _ => false end
  | MEMORY => true
  end.

Record QueueItem : Type := mkItem { priority : Q; qvalue : Checkpoint }.

(** [QueueItem.__lt__] *)
Definition item_lt (a b : QueueItem) : bool := Qlt_bool (priority a) (priority b).

(** ** [CheckpointManager] *)

Module CheckpointManager.

(** [None] for [keep_checkpoints_num] is [float("inf")]. The calls of
    [delete] are collected in [deleted]. *)
Record CheckpointManager : Type := mkManager {
  keep_checkpoints_num : option Z;
  _checkpoint_score_desc : bool;
  _checkpoint_score_attr : string;
  newest_persistent_checkpoint : Checkpoint;
  _newest_memory_checkpoint : Checkpoint;
  _best_checkpoints : list QueueItem;
  _membership : gset nat;
  deleted : list Checkpoint
}.

(** The two new [Checkpoint] objects are the ids [id1] and [id2]. *)
Definition __init__ (keep : option Z) (checkpoint_score_attr : string) (id1 id2 : nat) : result CheckpointManager :=
  let keep := match keep with Some n => if (n =? 0)%Z then None else Some n | None => None end in
  _ ← py_assert (match keep with Some n => (0 <? n)%Z | None => true end);
  let desc := String.prefix "min-" checkpoint_score_attr in
  let attr := if desc then String.substring 4 (String.length checkpoint_score_attr - 4) checkpoint_score_attr
              else checkpoint_score_attr in
  Ok (mkManager keep desc attr (mkCheckpoint id1 PERSISTENT VNone []) (mkCheckpoint id2 MEMORY VNone []) [] ∅ []).

Definition set_newest (c : Checkpoint) (m : CheckpointManager) : CheckpointManager :=
  mkManager (keep_checkpoints_num m) (_checkpoint_score_desc m) (_checkpoint_score_attr m) c
    (_newest_memory_checkpoint m) (_best_checkpoints m) (_membership m) (deleted m).
Definition set_memory (c : Checkpoint) (m : CheckpointManager) : CheckpointManager :=
  mkManager (keep_checkpoints_num m) (_checkpoint_score_desc m) (_checkpoint_score_attr m)
    (newest_persistent_checkpoint m) c (_best_checkpoints m) (_membership m) (deleted m).
Definition set_best (b : list QueueItem) (m : CheckpointManager) : CheckpointManager :=
  mkManager (keep_checkpoints_num m) (_checkpoint_score_desc m) (_checkpoint_score_attr m)
    (newest_persistent_checkpoint m) (_newest_memory_checkpoint m) b (_membership m) (deleted m).
Definition set_membership (s : gset nat) (m : CheckpointManager) : CheckpointManager :=
  mkManager (keep_checkpoints_num m) (_checkpoint_score_desc m) (_checkpoint_score_attr m)
    (newest_persistent_checkpoint m) (_newest_memory_checkpoint m) (_best_checkpoints m) s (deleted m).

(** [self.delete(checkpoint)] *)
Definition delete (c : Checkpoint) : ST CheckpointManager unit :=
  st_modify (fun m => mkManager (keep_checkpoints_num m) (_checkpoint_score_desc m) (_checkpoint_score_attr m)
    (newest_persistent_checkpoint m) (_newest_memory_checkpoint m) (_best_checkpoints m) (_membership m)
    (deleted m ++ [c])).

(** [result.get(TRAINING_ITERATION, -1)], a number *)
Definition training_iteration (c : Checkpoint) : Q :=
  match dget "training_iteration" (ck_result c) with Some (YNum q) => q | _ => (-1)%Q end.

(** [max] returns the first of two equal elements. *)
Definition newest_checkpoint (m : CheckpointManager) : Checkpoint :=
  if Qlt_bool (training_iteration (newest_persistent_checkpoint m)) (training_iteration (_newest_memory_checkpoint m))
  then _newest_memory_checkpoint m else newest_persistent_checkpoint m.

Definition replace_newest_memory_checkpoint (c : Checkpoint) : ST CheckpointManager unit :=
  st_modify (set_memory c).

(** Scores are numbers. *)
Definition _priority (m : CheckpointManager) (c : Checkpoint) : result Q :=
  r ← flatten_dict (ck_result c) "/" false false;
  p ← dgetitem (_checkpoint_score_attr m) r;
  match p with
  | YNum q => Ok (if _checkpoint_score_desc m then - q else q)%Q
  | _ => Err TypeError
  end.

(** [len(self._best_checkpoints) < self.keep_checkpoints_num] *)
Definition has_room (m : CheckpointManager) : bool :=
  match keep_checkpoints_num m with
  | None => true
  | Some n => (Z.of_nat (length (_best_checkpoints m)) <? n)%Z
  end.

Definition on_checkpoint (checkpoint : Checkpoint) : ST CheckpointManager unit :=
  if bool_decide (storage checkpoint = MEMORY) then replace_newest_memory_checkpoint checkpoint
  else
    m ← st_get;
    let old_checkpoint := newest_persistent_checkpoint m in
    if bool_decide (value old_checkpoint = value checkpoint) then mret tt
    else
      _ ← st_modify (set_newest checkpoint);
      _ ← (if truthy (value old_checkpoint) && negb (bool_decide (ck_id old_checkpoint ∈ _membership m))
           then delete old_checkpoint else mret tt);
      match _priority m checkpoint with
      | Err KeyError => mret tt
      | Err e => st_raise e
      | Ok p =>
          let queue_item := mkItem p checkpoint in
          m ← st_get;
          if has_room m then
            b ← st_lift (heappush item_lt (_best_checkpoints m) queue_item);
            _ ← st_modify (set_best b);
            st_modify (fun m => set_membership ({[ck_id checkpoint]} ∪ _membership m) m)
          else
            first ← st_lift (or_raise IndexError (head (_best_checkpoints m)));
            if Qle_bool (priority first) p then
              '(worst, b) ← st_lift (heappushpop item_lt (_best_checkpoints m) queue_item);
              let worst := qvalue worst in
              _ ← st_modify (set_best b);
              _ ← st_modify (fun m => set_membership ({[ck_id checkpoint]} ∪ _membership m) m);
              _ ← st_modify (fun m => set_membership (_membership m ∖ {[ck_id worst]}) m);
              if bool_decide (value worst <> value checkpoint) then delete worst else mret tt
            else mret tt
      end.

Definition best_checkpoints (m : CheckpointManager) : list Checkpoint :=
  map qvalue (py_sorted item_lt (_best_checkpoints m)).

(** [__getstate__] and [__setstate__]: the state without the memory
    checkpoint, whose place a new object [id] takes *)
Definition __getstate__ (id : nat) (m : CheckpointManager) : CheckpointManager :=
  set_memory (mkCheckpoint id MEMORY VNone []) m.

End CheckpointManager.

(** ** The best checkpoints are kept, the others deleted *)

Section Correct.
Import CheckpointManager.
Implicit Types (m : CheckpointManager) (c : Checkpoint).

Lemma item_lt_laws :
  (forall x y, item_lt x y = true -> item_lt y x = false) /\
  (forall x y z, item_lt y x = false -> item_lt z y = false -> item_lt z x = false).
Proof. unfold item_lt. split; intros *; rewrite ?Qlt_bool_iff, ?Qlt_bool_false; lra. Qed.

(** The score of a checkpoint, as a priority *)
Definition score m c : Q := match _priority m c with Ok p => p | Err _ => 0%Q end.

Definition same_settings m m' : Prop :=
  keep_checkpoints_num m' = keep_checkpoints_num m /\ _checkpoint_score_desc m' = _checkpoint_score_desc m /\
  _checkpoint_score_attr m' = _checkpoint_score_attr m.

Lemma priority_same m m' c : same_settings m m' -> _priority m' c = _priority m c.
Proof. intros (_ & Hd & Ha). unfold _priority. by rewrite Hd, Ha. Qed.

Definition kept m : list Checkpoint := map qvalue (_best_checkpoints m).

(** Which of the persistent checkpoints in [seen] are kept ([kept]) and which
    are out ([out]): no score is lost by a better one. *)
Record best_inv m0 (seen : list Checkpoint) (out : list Checkpoint) m : Prop := mkBest {
  bi_settings : same_settings m0 m;
  bi_heap : heap_ok item_lt (_best_checkpoints m);
  bi_priority : Forall (fun i => priority i = score m0 (qvalue i)) (_best_checkpoints m);
  bi_membership : _membership m = list_to_set (map ck_id (kept m));
  bi_seen : kept m ++ out ≡ₚ seen;
  bi_room : match keep_checkpoints_num m0 with
            | None => out = []
            | Some n => (Z.of_nat (length (kept m)) <= n)%Z /\ (Z.of_nat (length (kept m)) < n -> out = [])%Z
            end;
  bi_best : forall c k, c ∈ out -> k ∈ kept m -> (score m0 c <= score m0 k)%Q
}.

Lemma elem_kept m i : i ∈ _best_checkpoints m -> qvalue i ∈ kept m.
Proof. intros H. unfold kept. apply list_elem_of_In, in_map, list_elem_of_In, H. Qed.

Lemma kept_item m c : c ∈ kept m -> exists i, i ∈ _best_checkpoints m /\ qvalue i = c.
Proof.
  unfold kept. rewrite list_elem_of_In, in_map_iff. intros (i & E & Hi). exists i. by rewrite list_elem_of_In.
Qed.

(** A new checkpoint enters the heap: what comes out with it. *)
Lemma push_inv_best m0 seen out m c p b :
  best_inv m0 seen out m -> _priority m0 c = Ok p ->
  (match keep_checkpoints_num m0 with None => True | Some n => (Z.of_nat (length (kept m)) < n)%Z end) ->
  heap_ok item_lt b -> b ≡ₚ mkItem p c :: _best_checkpoints m ->
  best_inv m0 (seen ++ [c]) [] (set_membership ({[ck_id c]} ∪ _membership m) (set_best b m)).
Proof.
  intros [Hs Hh Hp Hm Hseen Hr Hb] Hpr Hroom Hok Hperm.
  assert (out = []) as ->.
  { destruct (keep_checkpoints_num m0); [by apply Hr | done]. }
  set (m' := set_membership _ _).
  assert (kept m' ≡ₚ c :: kept m) as Hk by (unfold kept, m'; cbn; by rewrite Hperm).
  split; try done.
  - unfold m'. cbn. rewrite Hperm. constructor; [|done]. cbn. unfold score. by rewrite Hpr.
  - apply set_eq. intros x. rewrite elem_of_list_to_set, Hk. unfold m'. cbn.
    rewrite Hm, elem_of_union, elem_of_singleton, elem_of_list_to_set, elem_of_cons. done.
  - rewrite Hk, !app_nil_r in *. rewrite <- Hseen. by rewrite Permutation_app_comm.
  - destruct (keep_checkpoints_num m0); [|done]. split; [|done].
    rewrite (Permutation_length Hk). cbn [length]. lia.
  - by intros x k ?%elem_of_nil.
Qed.

(** The worst checkpoint leaves for a new one that is at least as good. *)
Lemma replace_inv_best m0 seen out m c p b worst :
  best_inv m0 seen out m -> _priority m0 c = Ok p -> NoDup (map ck_id (seen ++ [c])) ->
  keep_checkpoints_num m0 = Some (Z.of_nat (length (kept m))) ->
  heap_ok item_lt b -> worst :: b ≡ₚ mkItem p c :: _best_checkpoints m ->
  Forall (fun i => item_lt i worst = false) b ->
  best_inv m0 (seen ++ [c]) (out ++ [qvalue worst])
    (set_membership (({[ck_id c]} ∪ _membership m) ∖ {[ck_id (qvalue worst)]}) (set_best b m)).
Proof.
  intros [Hs Hh Hp Hm Hseen Hr Hb] Hpr Hnd Hfull Hok Hperm Hmin.
  set (m' := set_membership _ _).
  assert (qvalue worst :: kept m' ≡ₚ c :: kept m) as Hk.
  { change (map qvalue (worst :: b) ≡ₚ map qvalue (mkItem p c :: _best_checkpoints m)). by rewrite Hperm. }
  assert (Forall (fun i => priority i = score m0 (qvalue i)) (worst :: b)) as Hpri.
  { rewrite Hperm. constructor; [|done]. cbn. unfold score. by rewrite Hpr. }
  apply list.Forall_cons in Hpri as [Hpw Hpb].
  split; try done.
  - apply set_eq. intros x. rewrite elem_of_list_to_set. unfold m' at 1. cbn.
    rewrite elem_of_difference, Hm, elem_of_union, !elem_of_singleton, elem_of_list_to_set.
    assert (NoDup (map ck_id (qvalue worst :: kept m'))) as Hndk.
    { rewrite Hk. rewrite <- Hseen, <- app_assoc, (Permutation_app_comm out), app_assoc, map_app, list.NoDup_app in Hnd.
      destruct Hnd as [Hnd _]. by rewrite <- Permutation_cons_append in Hnd. }
    cbn in Hndk. apply list.NoDup_cons in Hndk as [Hni _].
    assert (x ∈ map ck_id (qvalue worst :: kept m') <-> x = ck_id c \/ x ∈ map ck_id (kept m)) as Hx
      by (rewrite Hk; cbn; by rewrite elem_of_cons).
    rewrite <- Hx. cbn. rewrite elem_of_cons.
    split; [by intros [[?|?] ?]|]. intros Hin. split; [by right | by intros ->].
  - rewrite app_assoc, Permutation_app_comm.
    change ([qvalue worst] ++ kept m' ++ out) with ((qvalue worst :: kept m') ++ out).
    rewrite Hk, <- Hseen, <- Permutation_cons_append. done.
  - rewrite Hfull in Hr |- *. apply Permutation_length in Hk. cbn in Hk. cbn. split; lia.
  - assert (forall k, k ∈ kept m' -> (score m0 (qvalue worst) <= score m0 k)%Q) as Hw.
    { intros k (i & Hi & <-)%kept_item. change (_best_checkpoints m') with b in Hi.
      rewrite list.Forall_forall in Hmin, Hpb. rewrite <- Hpw, <- (Hpb i Hi). specialize (Hmin i Hi).
      unfold item_lt in Hmin. by apply Qlt_bool_false in Hmin. }
    intros x k [Hx|Hx%list_elem_of_singleton]%elem_of_app Hk'; [|subst; by apply Hw].
    assert (qvalue worst ∈ c :: kept m) as Hin by (rewrite <- Hk; left).
    apply elem_of_cons in Hin as [Hwc|Hin].
    + rewrite Hwc in Hk. apply Permutation_cons_inv in Hk. apply Hb; [done | by rewrite <- Hk].
    + pose proof (Hb _ _ Hx Hin). pose proof (Hw _ Hk'). lra.
Qed.

(** A checkpoint that is no better than the worst stays out. *)
Lemma reject_inv_best m0 seen out m c p :
  best_inv m0 seen out m -> _priority m0 c = Ok p ->
  (match keep_checkpoints_num m0 with None => False | Some n => (n <= Z.of_nat (length (kept m)))%Z end) ->
  (forall i, i ∈ _best_checkpoints m -> (p <= priority i)%Q) ->
  best_inv m0 (seen ++ [c]) (out ++ [c]) m.
Proof.
  intros [Hs Hh Hp Hm Hseen Hr Hb] Hpr Hfull Hmin. split; try done.
  - by rewrite app_assoc, Hseen.
  - destruct (keep_checkpoints_num m0); [|done]. split; lia.
  - intros x k [Hx|Hx%list_elem_of_singleton]%elem_of_app Hk; [by apply Hb|]. subst x.
    apply kept_item in Hk as (i & Hi & <-). rewrite list.Forall_forall in Hp. rewrite <- (Hp i Hi).
    unfold score. rewrite Hpr. by apply Hmin.
Qed.

Lemma best_inv_same m0 seen out m m' :
  _best_checkpoints m' = _best_checkpoints m -> _membership m' = _membership m -> same_settings m m' ->
  best_inv m0 seen out m -> best_inv m0 seen out m'.
Proof.
  intros Hb Hme Hs [H1 H2 H3 H4 H5 H6 H7]. unfold kept in *.
  split; unfold kept; rewrite ?Hb, ?Hme; try done. destruct H1 as (? & ? & ?), Hs as (? & ? & ?). repeat split; congruence.
Qed.

(** What the manager knows after the persistent checkpoints in [seen]: the
    ones that are not kept were deleted, except for the newest. *)
Record manager_inv m0 (seen : list Checkpoint) m : Prop := mkInv {
  mi_best : exists extra, best_inv m0 seen (deleted m ++ extra) m /\
    (extra = [] /\ (seen = [] \/ newest_persistent_checkpoint m ∈ kept m) \/
     extra = [newest_persistent_checkpoint m] /\ newest_persistent_checkpoint m ∉ kept m /\ seen <> []);
  mi_newest : match last seen with
              | Some c => newest_persistent_checkpoint m = c
              | None => value (newest_persistent_checkpoint m) = VNone
              end
}.

(** The checkpoints a trial makes are different objects with different paths. *)
Definition distinct (cs : list Checkpoint) : Prop :=
  NoDup (map ck_id cs) /\ NoDup (map value cs) /\ Forall (fun c => truthy (value c) = true) cs.

Lemma NoDup_map_snoc {A B} (f : A -> B) (l : list A) x :
  NoDup (map f (l ++ [x])) -> forall y, y ∈ l -> f y <> f x.
Proof.
  rewrite map_app, list.NoDup_app. cbn. intros (_ & H & _) y Hy E. apply (H (f y)).
  - apply list_elem_of_In, in_map, list_elem_of_In, Hy.
  - rewrite E. left.
Qed.

Lemma distinct_app_l a b : distinct (a ++ b) -> distinct a.
Proof.
  unfold distinct. rewrite map_app, (map_app value), !list.NoDup_app, list.Forall_app. tauto.
Qed.

Lemma NoDup_map_inj {A B} (f : A -> B) (l : list A) x y :
  NoDup (map f l) -> x ∈ l -> y ∈ l -> f x = f y -> x = y.
Proof.
  induction l as [|z l IH]; cbn; [by intros _ ?%elem_of_nil|]. rewrite list.NoDup_cons, !elem_of_cons.
  assert (forall u, u ∈ l -> f u ∈ map f l) as Hin by (intros u Hu; by apply list_elem_of_In, in_map, list_elem_of_In).
  intros [Hz Hn] [->|Hx] [->|Hy] E; [done | | |by apply IH].
  - destruct Hz. rewrite E. by apply Hin.
  - destruct Hz. rewrite <- E. by apply Hin.
Qed.

(** The first part of [on_checkpoint]: the previous newest checkpoint is
    deleted when it is not kept. *)
Definition retire (c : Checkpoint) : ST CheckpointManager unit :=
  m ← st_get;
  let old := newest_persistent_checkpoint m in
  _ ← st_modify (set_newest c);
  if truthy (value old) && negb (bool_decide (ck_id old ∈ _membership m)) then delete old else mret tt.

Lemma retire_inv m0 seen m c :
  manager_inv m0 seen m -> distinct (seen ++ [c]) ->
  exists m1, retire c m = (m1, Ok tt) /\ best_inv m0 seen (deleted m1) m1 /\ newest_persistent_checkpoint m1 = c /\
    value (newest_persistent_checkpoint m) <> value c.
Proof.
  intros [(extra & Hb & Hex) Hn] (Hid & Hval & Htr). rewrite list.Forall_app in Htr. destruct Htr as [Htr Htc].
  apply list.Forall_cons in Htc as [Htc _].
  assert (value (newest_persistent_checkpoint m) <> value c) as Hne.
  { destruct (last seen) as [old|] eqn:El.
    - rewrite Hn. apply (NoDup_map_snoc value seen c Hval). by apply last_Some_elem_of.
    - rewrite Hn. intros E. by rewrite <- E in Htc. }
  unfold retire. st_simpl.
  assert (forall m1, _best_checkpoints m1 = _best_checkpoints m -> _membership m1 = _membership m -> same_settings m m1 ->
            deleted m1 = deleted m ++ extra -> best_inv m0 seen (deleted m1) m1) as Hdone.
  { intros m1 ? ? ? ->. by eapply best_inv_same. }
  destruct Hex as [[-> Hk]|(-> & Hk & Hs)].
  - replace (truthy _ && negb _) with false.
    + eexists; split; [reflexivity|]. split; [apply Hdone; cbn; by rewrite ?app_nil_r | done].
    + symmetry. destruct Hk as [->|Hk]; [cbn in Hn; by rewrite Hn|]. apply andb_false_iff. right.
      apply negb_false_iff, bool_decide_eq_true. rewrite (bi_membership _ _ _ _ Hb), elem_of_list_to_set.
      apply list_elem_of_In, in_map, list_elem_of_In, Hk.
  - assert (newest_persistent_checkpoint m ∈ seen) as Hin.
    { destruct (last seen) as [old|] eqn:El; [rewrite Hn; by apply last_Some_elem_of|]. by apply last_None in El. }
    replace (truthy _ && negb _) with true.
    + eexists; split; [reflexivity|]. split; [by apply Hdone | done].
    + symmetry. apply andb_true_iff. split; [rewrite list.Forall_forall in Htr; by apply Htr|].
      apply negb_true_iff, bool_decide_eq_false. rewrite (bi_membership _ _ _ _ Hb), elem_of_list_to_set.
      intros (k & E & Hkin)%list_elem_of_In%in_map_iff. apply list_elem_of_In in Hkin. apply Hk.
      replace (newest_persistent_checkpoint m) with k; [done|].
      rewrite map_app, list.NoDup_app in Hid. apply (NoDup_map_inj ck_id seen); [apply Hid | | done | done].
      rewrite <- (bi_seen _ _ _ _ Hb), elem_of_app. by left.
Qed.

(** The case of a full manager and a checkpoint that is good enough *)
Definition displace (c : Checkpoint) (p : Q) : ST CheckpointManager unit :=
  m ← st_get;
  '(worst, b) ← st_lift (heappushpop item_lt (_best_checkpoints m) (mkItem p c));
  _ ← st_modify (set_best b);
  _ ← st_modify (fun m => set_membership ({[ck_id c]} ∪ _membership m) m);
  _ ← st_modify (fun m => set_membership (_membership m ∖ {[ck_id (qvalue worst)]}) m);
  if bool_decide (value (qvalue worst) <> value c) then delete (qvalue worst) else mret tt.

(** The second part: the new checkpoint competes with the best ones. *)
Definition compete (c : Checkpoint) (p : Q) : ST CheckpointManager unit :=
  m ← st_get;
  if has_room m then
    b ← st_lift (heappush item_lt (_best_checkpoints m) (mkItem p c));
    _ ← st_modify (set_best b);
    st_modify (fun m => set_membership ({[ck_id c]} ∪ _membership m) m)
  else
    first ← st_lift (or_raise IndexError (head (_best_checkpoints m)));
    if Qle_bool (priority first) p then displace c p else mret tt.

Lemma on_checkpoint_parts m c p :
  storage c = PERSISTENT -> value (newest_persistent_checkpoint m) <> value c -> _priority m c = Ok p ->
  on_checkpoint c m = (_ ← retire c; compete c p) m.
Proof.
  intros Hst Hne Hp. unfold on_checkpoint, retire, compete, displace. rewrite Hst. cbn [bool_decide decide].
  rewrite bool_decide_eq_false_2 by done. st_simpl. rewrite bool_decide_eq_false_2 by done. rewrite Hp.
  destruct (truthy _ && negb _); unfold delete; st_simpl;
    (destruct (has_room _); [reflexivity|]; destruct (head _) as [first|]; cbn [or_raise]; [|reflexivity];
     destruct (Qle_bool (priority first) p); reflexivity).
Qed.

(** A full manager takes a checkpoint that is at least as good as the worst. *)
Lemma displace_inv m0 seen m c p n :
  best_inv m0 seen (deleted m) m -> newest_persistent_checkpoint m = c -> distinct (seen ++ [c]) ->
  _priority m0 c = Ok p -> keep_checkpoints_num m0 = Some n -> (n <= Z.of_nat (length (kept m)))%Z ->
  c ∉ kept m ->
  exists m', displace c p m = (m', Ok tt) /\ manager_inv m0 (seen ++ [c]) m'.
Proof.
  intros Hb Hnew (Hid & Hval & _) Hp En Hfull Hck. destruct item_lt_laws as [L1 L2].
  pose proof (bi_room _ _ _ _ Hb) as Hroom. rewrite En in Hroom.
  destruct (heappushpop_ok item_lt L1 L2 _ (mkItem p c) (bi_heap _ _ _ _ Hb)) as (w & b & E & Hok & Hperm & Hmin & Heq & Hlt).
  set (m2 := set_membership (({[ck_id c]} ∪ _membership m) ∖ {[ck_id (qvalue w)]}) (set_best b m)).
  assert (best_inv m0 (seen ++ [c]) (deleted m ++ [qvalue w]) m2) as Hbest.
  { apply (replace_inv_best m0 seen (deleted m) m c p b w); try done. rewrite En. f_equal. lia. }
  unfold displace. st_simpl. rewrite E. destruct (item_lt w (mkItem p c)) eqn:Ew.
  - assert (qvalue w ∈ kept m) as Hw by (apply elem_kept, list_elem_of_lookup; exists 0%nat; by apply Hlt).
    assert (value (qvalue w) <> value c) as Hne.
    { apply (NoDup_map_snoc value seen c Hval). rewrite <- (bi_seen _ _ _ _ Hb), elem_of_app. by left. }
    rewrite bool_decide_eq_true_2 by done. eexists; split; [reflexivity|]. split; [|by rewrite last_snoc].
    exists []. rewrite app_nil_r. split; [by apply (best_inv_same _ _ _ m2)|]. left. split; [done|]. right. cbn. rewrite Hnew.
    assert (c ∈ map qvalue (w :: b)) as Hc by (rewrite Hperm; left). apply elem_of_cons in Hc as [->|Hc]; done.
  - destruct (Heq eq_refl) as [-> ->]. cbn [qvalue]. rewrite bool_decide_eq_false_2 by (intros C; by apply C).
    eexists; split; [reflexivity|]. split; [|by rewrite last_snoc]. exists [c]. split; [by apply (best_inv_same _ _ _ m2)|].
    right. cbn. rewrite Hnew. split; [done|]. split; [exact Hck | by destruct seen].
Qed.

Lemma compete_inv m0 seen m c p :
  best_inv m0 seen (deleted m) m -> newest_persistent_checkpoint m = c -> distinct (seen ++ [c]) ->
  _priority m0 c = Ok p -> (match keep_checkpoints_num m0 with Some n => 0 < n | None => True end)%Z ->
  exists m', compete c p m = (m', Ok tt) /\ manager_inv m0 (seen ++ [c]) m'.
Proof.
  intros Hb Hnew Hdist Hp Hpos. pose proof Hdist as (Hid & _ & _). destruct item_lt_laws as [L1 L2].
  pose proof (bi_settings _ _ _ _ Hb) as (Hkeep & _). pose proof (bi_heap _ _ _ _ Hb) as Hheap.
  pose proof (bi_room _ _ _ _ Hb) as Hroom. unfold compete. st_simpl. unfold has_room. rewrite Hkeep.
  assert (length (kept m) = length (_best_checkpoints m)) as Hlen by apply length_map.
  assert (c ∉ kept m) as Hck.
  { intros Hk. apply (NoDup_map_snoc ck_id seen c Hid c); [|done]. rewrite <- (bi_seen _ _ _ _ Hb), elem_of_app. by left. }
  destruct (match keep_checkpoints_num m0 with None => true | Some n => _ end) eqn:Er.
  { destruct (heappush_ok item_lt L1 L2 _ (mkItem p c) Hheap) as (b & -> & Hok & Hperm).
    eexists; split; [reflexivity|]. assert (deleted m = []) as Hd.
    { destruct (keep_checkpoints_num m0); [apply Z.ltb_lt in Er; apply Hroom; lia | done]. }
    split; [|by rewrite last_snoc]. exists []. cbn [deleted set_membership set_best]. rewrite Hd. split.
    - eapply (push_inv_best m0 seen (deleted m) m c p b); try done.
      destruct (keep_checkpoints_num m0); [apply Z.ltb_lt in Er; lia | done].
    - left. split; [done|]. right. cbn. rewrite Hnew. unfold kept. cbn. rewrite Hperm. left. }
  destruct (keep_checkpoints_num m0) as [n|] eqn:En; [|done]. apply Z.ltb_ge in Er.
  destruct (_best_checkpoints m) as [|first best] eqn:Eb; [cbn in *; lia|]. cbn [head or_raise].
  pose proof (heap_root item_lt L1 L2 _ first Hheap eq_refl) as Hroot.
  destruct (Qle_bool (priority first) p) eqn:Ele.
  2: { apply Qle_bool_false in Ele. eexists; split; [reflexivity|]. split; [|by rewrite last_snoc].
       exists [c]. rewrite Hnew. split; [|right; split; [done|]; split; [done | by destruct seen]].
       eapply reject_inv_best; [done | done | rewrite En; lia |]. rewrite Eb. intros i Hi.
       rewrite list.Forall_forall in Hroot. specialize (Hroot i Hi). unfold item_lt in Hroot.
       apply Qlt_bool_false in Hroot. lra. }
  apply (displace_inv m0 seen m c p n); try done. lia.
Qed.

Lemma on_checkpoint_inv m0 seen m c :
  manager_inv m0 seen m -> (match keep_checkpoints_num m0 with Some n => 0 < n | None => True end)%Z ->
  (storage c = PERSISTENT -> distinct (seen ++ [c]) /\ is_ok (_priority m0 c) = true) ->
  exists m', on_checkpoint c m = (m', Ok tt) /\
    manager_inv m0 (seen ++ (if bool_decide (storage c = PERSISTENT) then [c] else [])) m'.
Proof.
  intros Hi Hpos Hc. destruct (storage c) eqn:Est.
  - exists (set_memory c m). rewrite bool_decide_eq_false_2, app_nil_r by done. split.
    { unfold on_checkpoint. by rewrite Est, bool_decide_eq_true_2. }
    destruct Hi as [(extra & Hb & Hex) Hn]. split; [|done]. exists extra. split; [|done].
    by apply (best_inv_same _ _ _ m).
  - rewrite bool_decide_eq_true_2 by done. destruct (Hc eq_refl) as [Hd Hok].
    destruct (_priority m0 c) as [p|] eqn:Ep; [|done].
    destruct (retire_inv m0 seen m c Hi Hd) as (m1 & E1 & Hb1 & Hn1 & Hne).
    pose proof Hi as [(extra & Hb & _) _].
    rewrite (on_checkpoint_parts m c p); [|done | done | by rewrite (priority_same m0) by apply Hb].
    unfold mbind, ST_bind. rewrite E1. by apply (compete_inv m0 seen m1 c p).
Qed.

Definition persistent (cs : list Checkpoint) : list Checkpoint := filter (fun c => storage c = PERSISTENT) cs.

Lemma on_checkpoints_inv m0 cs : forall seen m,
  manager_inv m0 seen m -> (match keep_checkpoints_num m0 with Some n => 0 < n | None => True end)%Z ->
  distinct (seen ++ persistent cs) -> Forall (fun c => is_ok (_priority m0 c) = true) (persistent cs) ->
  exists m', st_for cs on_checkpoint m = (m', Ok tt) /\ manager_inv m0 (seen ++ persistent cs) m'.
Proof.
  unfold persistent. induction cs as [|c cs IH]; intros seen m Hi Hpos Hd Hok; cbn [st_for].
  { exists m. split; [done|]. by rewrite app_nil_r. }
  rewrite filter_cons in *. destruct (on_checkpoint_inv m0 seen m c Hi Hpos) as (m1 & E1 & H1).
  { intros Hst. rewrite decide_True in Hd, Hok by done. apply list.Forall_cons in Hok as [Hokc _]. split; [|done].
    change (seen ++ c :: filter (fun c => storage c = PERSISTENT) cs)
      with (seen ++ [c] ++ filter (fun c => storage c = PERSISTENT) cs) in Hd. rewrite app_assoc in Hd.
    by eapply distinct_app_l. }
  st_simpl. rewrite E1.
  destruct (IH _ m1 H1 Hpos) as (m' & E & H').
  - destruct (decide (storage c = PERSISTENT)); [rewrite bool_decide_eq_true_2 by done; by rewrite <- app_assoc|].
    rewrite bool_decide_eq_false_2 by done. by rewrite app_nil_r.
  - case_decide; [by apply list.Forall_cons in Hok as [_ ?] | done].
  - exists m'. split; [done|]. destruct (decide (storage c = PERSISTENT));
      [rewrite bool_decide_eq_true_2 in H' by done; by rewrite <- app_assoc in H'|].
    rewrite bool_decide_eq_false_2 in H' by done. by rewrite app_nil_r in H'.
Qed.

Lemma manager_inv_init keep attr id1 id2 m0 :
  CheckpointManager.__init__ keep attr id1 id2 = Ok m0 ->
  manager_inv m0 [] m0 /\ (match keep_checkpoints_num m0 with Some n => 0 < n | None => True end)%Z.
Proof.
  unfold CheckpointManager.__init__. intros H. bind_inv H. simpl_result.
  set (k := match keep with Some n => _ | None => None end) in *. clearbody k.
  split; [|destruct k as [n|]; [|done]; cbn in *; destruct (Z.ltb_spec 0 n); done].
  split; [|done]. exists []. split; [|by left; split; [|left]].
  split; cbn; try done.
  - destruct k as [n|]; [|done]. cbn in *. destruct (Z.ltb_spec 0 n); [|done]. split; [lia | done].
  - by intros x y ?%elem_of_nil.
Qed.

Lemma best_checkpoints_perm m : best_checkpoints m ≡ₚ kept m.
Proof. unfold best_checkpoints, kept. by rewrite py_sorted_Permutation. Qed.

Lemma best_checkpoints_sorted m0 seen out m :
  best_inv m0 seen out m -> StronglySorted (fun a b => score m0 a <= score m0 b)%Q (best_checkpoints m).
Proof.
  intros Hb. destruct item_lt_laws as [L1 L2]. pose proof (bi_priority _ _ _ _ Hb) as Hp. unfold best_checkpoints.
  pose proof (py_sorted_sorted item_lt L2 L1 (_best_checkpoints m)) as Hs.
  rewrite <- (py_sorted_Permutation item_lt) in Hp. revert Hs Hp. generalize (py_sorted item_lt (_best_checkpoints m)).
  intros l Hs. induction Hs as [|i l Hs IH Hall]; intros Hp; cbn; constructor.
  - apply IH. by apply list.Forall_cons in Hp as [_ Hp].
  - apply list.Forall_cons in Hp as [Hi Hp]. apply list.Forall_forall. intros k Hk.
    apply list_elem_of_In, in_map_iff in Hk as (j & <- & Hj%list_elem_of_In).
    rewrite list.Forall_forall in Hall, Hp. specialize (Hall j Hj). unfold item_lt in Hall.
    apply Qlt_bool_false in Hall. by rewrite <- Hi, <- (Hp j Hj).
Qed.

(** C31. Let a trial report checkpoints, the persistent ones different
    objects with different non-empty paths and a score each. Then no call
    raises, and [best_checkpoints] are the [keep_checkpoints_num] best
    persistent ones (all, without a limit), sorted by score: nothing that is
    left out scores better than something that is kept. What is left out was
    deleted exactly once, except for the newest checkpoint, which is never
    deleted; nothing that is kept was deleted. *)
Theorem best_checkpoints_kept keep attr id1 id2 m0 (cs : list Checkpoint) :
  CheckpointManager.__init__ keep attr id1 id2 = Ok m0 ->
  distinct (persistent cs) -> Forall (fun c => is_ok (_priority m0 c) = true) (persistent cs) ->
  exists m rest, st_for cs on_checkpoint m0 = (m, Ok tt) /\
    best_checkpoints m ++ rest ≡ₚ persistent cs /\
    StronglySorted (fun a b => score m0 a <= score m0 b)%Q (best_checkpoints m) /\
    (forall c k, c ∈ rest -> k ∈ best_checkpoints m -> (score m0 c <= score m0 k)%Q) /\
    match keep_checkpoints_num m0 with
    | None => rest = []
    | Some n => (Z.of_nat (length (best_checkpoints m)) <= n)%Z /\
                (rest <> [] -> Z.of_nat (length (best_checkpoints m)) = n)
    end /\
    (rest = deleted m \/
     exists newest, last (persistent cs) = Some newest /\ rest = deleted m ++ [newest]) /\
    (forall newest, last (persistent cs) = Some newest -> newest ∉ deleted m).
Proof.
  intros Hinit Hd Hok. destruct (manager_inv_init _ _ _ _ _ Hinit) as [Hi Hpos].
  destruct (on_checkpoints_inv m0 cs [] m0 Hi Hpos Hd Hok) as (m & E & (extra & Hb & Hex) & Hn). cbn [app] in *.
  pose proof (best_checkpoints_perm m) as Hperm. pose proof Hb as [_ _ _ _ Hseen Hroom Hbest].
  exists m, (deleted m ++ extra). split; [done|]. split; [by rewrite Hperm|].
  split; [by apply (best_checkpoints_sorted m0 _ _ _ Hb)|].
  split; [intros c k Hc Hk; apply Hbest; [done | by rewrite <- Hperm]|]. split; [|split].
  - destruct (keep_checkpoints_num m0) as [n|]; [|done]. rewrite (Permutation_length Hperm).
    destruct Hroom as [H1 H2]. split; [done|]. intros Hne. destruct (Z.eq_dec (Z.of_nat (length (kept m))) n); [done|].
    destruct Hne. apply H2. lia.
  - destruct Hex as [[-> _]|(-> & _ & Hs)]; [left; by rewrite app_nil_r|]. right.
    destruct (last (persistent cs)) as [c|] eqn:El; [|by apply last_None in El]. exists c. by rewrite Hn.
  - intros c Hl. rewrite Hl in Hn. subst c. intros Hdel. destruct Hd as [Hid _].
    assert (NoDup (map ck_id (kept m ++ deleted m ++ extra))) as Hnd by by rewrite Hseen.
    apply (NoDup_fmap_1 ck_id) in Hnd. apply list.NoDup_app in Hnd as (_ & Hk & Hnd).
    destruct Hex as [[-> [Hs|Hin]]|(-> & _ & _)].
    + by rewrite Hs in Hl.
    + apply (Hk _ Hin). rewrite elem_of_app. by left.
    + apply list.NoDup_app in Hnd as (_ & Hx & _). apply (Hx _ Hdel). left.
Qed.

End Correct.

(** ** Witness *)

Section Witness.
Import CheckpointManager.

Definition ex_ckpt (id : nat) (path : string) (loss : Q) : Checkpoint :=
  mkCheckpoint id PERSISTENT (VPath path) [("eval", YDict [("loss", YNum loss)])]%string.
Definition ex_ckpts : list Checkpoint :=
  [ex_ckpt 2 "a" 5; ex_ckpt 3 "b" 2; mkCheckpoint 4 MEMORY (VObject 0) []; ex_ckpt 5 "c" 3; ex_ckpt 6 "d" 9].

Lemma best_checkpoints_kept_witness :
  exists m0 m rest, CheckpointManager.__init__ (Some 2%Z) "min-eval/loss" 0 1 = Ok m0 /\
    st_for ex_ckpts on_checkpoint m0 = (m, Ok tt) /\ best_checkpoints m ++ rest ≡ₚ persistent ex_ckpts /\
    map ck_id (best_checkpoints m) = [5; 3]%nat /\ map ck_id (deleted m) = [2]%nat.
Proof.
  destruct (CheckpointManager.__init__ (Some 2%Z) "min-eval/loss" 0 1) as [m0|] eqn:E0; [|done].
  destruct (best_checkpoints_kept _ _ _ _ m0 ex_ckpts E0) as (m & rest & E & Hp & _).
  - split; [by_compute|]. split; by_compute.
  - vm_compute in E0. injection E0 as <-. by_compute.
  - exists m0, m, rest. split; [done|]. split; [exact E|]. split; [exact Hp|].
    vm_compute in E0. injection E0 as <-. vm_compute in E. injection E as <-. by vm_compute.
Defined.

End Witness.
