(* ===== verification/Hoare.v ===== *)
(** Triples for methods of the state monad [ST]: a precondition on the object,
    a postcondition on the value returned and the object after the call, and
    the exceptions the call may raise. With [E := fun _ => False] a triple
    states that the method returns; with [E := fun _ => True] it speaks of the
    calls that return. *)

From Stdlib Require Import ZArith Lia.
From stdpp Require Import base list option.
From S2P Require Import Prelude.

Definition triple {S A} (P : S -> Prop) (m : ST S A) (Q : A -> S -> Prop) (E : exn -> Prop) : Prop :=
  forall s, P s -> match m s with (s', Ok a) => Q a s' | (_, Err e) => E e end.

Section Rules.
Context {S : Type} (E : exn -> Prop).

Lemma triple_ok {A} (P : S -> Prop) (m : ST S A) Q s s' a :
  triple P m Q E -> P s -> m s = (s', Ok a) -> Q a s'.
Proof. intros H HP Em. specialize (H s HP). by rewrite Em in H. Qed.

Lemma triple_ret {A} (a : A) (Q : A -> S -> Prop) : triple (Q a) (mret a) Q E.
Proof. by intros s H. Qed.

Lemma triple_gets {A} (f : S -> A) (Q : A -> S -> Prop) : triple (fun s => Q (f s) s) (st_gets f) Q E.
Proof. by intros s H. Qed.

Lemma triple_get (Q : S -> S -> Prop) : triple (fun s => Q s s) st_get Q E.
Proof. by intros s H. Qed.

Lemma triple_modify (f : S -> S) (Q : unit -> S -> Prop) :
  triple (fun s => Q tt (f s)) (st_modify f) Q E.
Proof. by intros s H. Qed.

Lemma triple_raise {A} e (Q : A -> S -> Prop) : triple (fun _ => E e) (st_raise e) Q E.
Proof. by intros s H. Qed.

Lemma triple_lift {A} (r : result A) (Q : A -> S -> Prop) :
  triple (fun s => match r with Ok a => Q a s | Err e => E e end) (st_lift r) Q E.
Proof. intros s H. unfold st_lift. by destruct r. Qed.

Lemma triple_bind {A B} (P : S -> Prop) (m : ST S A) (R : A -> S -> Prop) (k : A -> ST S B) Q :
  triple P m R E -> (forall a, triple (R a) (k a) Q E) -> triple P (m ≫= k) Q E.
Proof.
  intros Hm Hk s HP. specialize (Hm s HP). st_simpl. destruct (m s) as [s' [a|e]]; [|done].
  apply (Hk a s' Hm).
Qed.

Lemma triple_pre {A} (P P' : S -> Prop) (m : ST S A) Q :
  (forall s, P s -> P' s) -> triple P' m Q E -> triple P m Q E.
Proof. intros HP Hm s Hs. apply Hm. by apply HP. Qed.

Lemma triple_post {A} (P : S -> Prop) (m : ST S A) (Q Q' : A -> S -> Prop) :
  triple P m Q' E -> (forall a s, Q' a s -> Q a s) -> triple P m Q E.
Proof. intros Hm HQ s Hs. specialize (Hm s Hs). destruct (m s) as [s' [a|e]]; auto. Qed.

Lemma triple_start {A} (P : S -> Prop) (m : ST S A) Q :
  (forall s0, P s0 -> triple (fun s => s = s0) m Q E) -> triple P m Q E.
Proof. intros H s Hs. by apply (H s). Qed.

(** A loop with an invariant that is told how far the loop has got. *)
Lemma triple_for {A} (I : list A -> list A -> S -> Prop) (l : list A) (f : A -> ST S unit) :
  (forall d x t, l = d ++ x :: t ->
     triple (I d (x :: t)) (f x) (fun _ => I (d ++ [x]) t) E) ->
  triple (I [] l) (st_for l f) (fun _ => I l []) E.
Proof.
  intros H.
  assert (G : forall d t, l = d ++ t -> triple (I d t) (st_for t f) (fun _ => I l []) E).
  { intros d t. revert d. induction t as [|x t IH]; intros d El; cbn [st_for].
    - rewrite app_nil_r in El. intros s Hs. rewrite El. exact Hs.
    - eapply triple_bind; [apply H, El|]. intros u. apply IH. by rewrite <- app_assoc. }
  by apply G.
Qed.

Lemma triple_for_simple {A} (I : S -> Prop) (l : list A) (f : A -> ST S unit) :
  (forall x, x ∈ l -> triple I (f x) (fun _ => I) E) -> triple I (st_for l f) (fun _ => I) E.
Proof.
  intros H. apply (triple_for (fun _ _ => I)). intros d x t ->. apply H.
  apply elem_of_app. right. by left.
Qed.

Lemma triple_fold {A B} (I : list A -> list A -> B -> S -> Prop) (l : list A) (f : B -> A -> ST S B) b :
  (forall d x t b, l = d ++ x :: t ->
     triple (I d (x :: t) b) (f b x) (fun b' => I (d ++ [x]) t b') E) ->
  triple (I [] l b) (st_fold f b l) (fun b' => I l [] b') E.
Proof.
  intros H.
  assert (G : forall t d b, l = d ++ t -> triple (I d t b) (st_fold f b t) (fun b' => I l [] b') E).
  { induction t as [|x t IH]; intros d c El; cbn [st_fold].
    - rewrite app_nil_r in El. intros s Hs. rewrite El. exact Hs.
    - eapply triple_bind; [apply H, El|]. intros b'. apply IH. by rewrite <- app_assoc. }
  by apply G.
Qed.

End Rules.

(** Follows the structure of a method backwards from its postcondition. *)
Ltac triple_step :=
  lazymatch goal with
  | |- triple _ (mret _) _ _ => eapply triple_pre; [| apply triple_ret]
  | |- triple _ (st_gets _) _ _ => eapply triple_pre; [| apply triple_gets]
  | |- triple _ st_get _ _ => eapply triple_pre; [| apply triple_get]
  | |- triple _ (st_modify _) _ _ => eapply triple_pre; [| apply triple_modify]
  | |- triple _ (st_raise _) _ _ => eapply triple_pre; [| apply triple_raise]
  | |- triple _ (st_lift _) _ _ => eapply triple_pre; [| apply triple_lift]
  end.

(** ** Triples that also speak of the object after an exception *)

Definition triple_exn {S A} (P : S -> Prop) (m : ST S A) (Q : A -> S -> Prop) (R : exn -> S -> Prop) : Prop :=
  forall s, P s -> match m s with (s', Ok a) => Q a s' | (s', Err e) => R e s' end.

Section ExnRules.
Context {S : Type}.

Lemma exn_bind {A B} (P : S -> Prop) (m : ST S A) (M : A -> S -> Prop) (k : A -> ST S B) Q R :
  triple_exn P m M R -> (forall a, triple_exn (M a) (k a) Q R) -> triple_exn P (m ≫= k) Q R.
Proof.
  intros Hm Hk s HP. specialize (Hm s HP). st_simpl. destruct (m s) as [s' [a|e]]; [|done]. apply (Hk a s' Hm).
Qed.

Lemma exn_ret {A} (a : A) (Q : A -> S -> Prop) R : triple_exn (Q a) (mret a) Q R.
Proof. by intros s H. Qed.

Lemma exn_get (P : S -> Prop) R : triple_exn P st_get (fun s0 s => s0 = s /\ P s) R.
Proof. by intros s H. Qed.

Lemma exn_gets {A} (P : S -> Prop) (f : S -> A) R : triple_exn P (st_gets f) (fun a s => a = f s /\ P s) R.
Proof. by intros s H. Qed.

Lemma exn_put (t : S) (Q : unit -> S -> Prop) R : triple_exn (fun _ => Q tt t) (st_put t) Q R.
Proof. by intros s H. Qed.

Lemma exn_modify (f : S -> S) (Q : unit -> S -> Prop) R : triple_exn (fun s => Q tt (f s)) (st_modify f) Q R.
Proof. by intros s H. Qed.

Lemma exn_raise {A} e (Q : A -> S -> Prop) (R : exn -> S -> Prop) : triple_exn (R e) (st_raise e) Q R.
Proof. by intros s H. Qed.

Lemma exn_lift {A} (P : S -> Prop) (r : result A) (R : exn -> S -> Prop) :
  (forall e, r = Err e -> forall s, P s -> R e s) -> triple_exn P (st_lift r) (fun a s => r = Ok a /\ P s) R.
Proof. intros H s Hs. unfold st_lift. destruct r; [done|]. by apply H. Qed.

Lemma exn_conseq {A} (P P' : S -> Prop) (m : ST S A) (Q Q' : A -> S -> Prop) (R R' : exn -> S -> Prop) :
  triple_exn P' m Q' R' -> (forall s, P s -> P' s) -> (forall a s, Q' a s -> Q a s) -> (forall e s, R' e s -> R e s) ->
  triple_exn P m Q R.
Proof. intros Hm HP HQ HR s Hs. specialize (Hm s (HP s Hs)). destruct (m s) as [s' [a|e]]; auto. Qed.

Lemma exn_pre {A} (P P' : S -> Prop) (m : ST S A) Q R :
  (forall s, P s -> P' s) -> triple_exn P' m Q R -> triple_exn P m Q R.
Proof. intros HP Hm s Hs. apply Hm. by apply HP. Qed.

(** A precondition that fixes a fact *)
Lemma exn_pure {A} (F : Prop) (P : S -> Prop) (m : ST S A) Q R :
  (F -> triple_exn P m Q R) -> triple_exn (fun s => F /\ P s) m Q R.
Proof. intros H s [HF HP]. by apply H. Qed.

Lemma exn_bind_ret {A B} (P : S -> Prop) (m : ST S A) (f : A -> B) (Q : B -> S -> Prop) R :
  triple_exn P m (fun a => Q (f a)) R -> triple_exn P (m ≫= (fun a => mret (f a))) Q R.
Proof. intros H. eapply exn_bind; [exact H|]. intros a. apply (exn_ret (f a) Q). Qed.

(** A fact that the precondition gives *)
Lemma exn_have {A} (F : Prop) (P : S -> Prop) (m : ST S A) Q R :
  (forall s, P s -> F) -> (F -> triple_exn P m Q R) -> triple_exn P m Q R.
Proof. intros H H' s Hs. exact (H' (H s Hs) s Hs). Qed.

Lemma exn_if {A} (b : bool) (P : S -> Prop) (m1 m2 : ST S A) Q R :
  (b = true -> triple_exn P m1 Q R) -> (b = false -> triple_exn P m2 Q R) -> triple_exn P (if b then m1 else m2) Q R.
Proof. destruct b; auto. Qed.

Lemma exn_try {A} (P : S -> Prop) (m : ST S A) catches h Q (R R' : exn -> S -> Prop) :
  triple_exn P m Q R' -> (forall e, catches e = true -> triple_exn (R' e) (h e) Q R) ->
  (forall e s, catches e = false -> R' e s -> R e s) -> triple_exn P (st_try m catches h) Q R.
Proof.
  intros Hm Hh Hn s HP. specialize (Hm s HP). unfold st_try. destruct (m s) as [s' [a|e]]; [done|].
  destruct (catches e) eqn:C; [by apply Hh | by apply Hn].
Qed.

Lemma exn_for {A} (I : list A -> S -> Prop) (l : list A) (f : A -> ST S unit) R :
  (forall x t, triple_exn (I (x :: t)) (f x) (fun _ => I t) R) -> triple_exn (I l) (st_for l f) (fun _ => I []) R.
Proof.
  intros H. induction l as [|x l IH]; cbn [st_for]; [by intros s Hs|]. eapply exn_bind; [apply H|]. intros u. exact IH.
Qed.
End ExnRules.
