(* ===== verification/AsyncGoals.v ===== *)
(** The goals of the Serve controller ([serve/async_goal_manager.py]): what
    [deploy] and [delete] hand to the client to wait on. *)

From Stdlib Require Import ZArith Lia.
From stdpp Require Import base list strings option.
From S2P Require Import Prelude PyDict Hoare.

Module AsyncGoals.

(** A [GoalId] is a [UUID], its 128-bit integer. An exception is its class and
    its message. *)
Definition exception_value : Type := exn * string.

(** [event] is whether the [asyncio.Event] is set. *)
Record AsyncGoal : Type := mkGoal {
  goal_id : Z;
  event : bool;
  result_ : option Z;
  exception_ : option exception_value
}.

#[global] Instance AsyncGoal_eq_dec : EqDecision AsyncGoal.
Proof. solve_decision. Defined.

Definition new_goal (gid : Z) : AsyncGoal := mkGoal gid false None None.

Definition done_ (g : AsyncGoal) : bool := event g.

(** The two assertions that [set_result] and [set_exception] share *)
Definition unset (g : AsyncGoal) : result unit :=
  _ ← py_assert (negb (done_ g));
  py_assert (bool_decide (result_ g = None) && bool_decide (exception_ g = None)).

Definition set_result (r : Z) (g : AsyncGoal) : result AsyncGoal :=
  _ ← unset g; Ok (mkGoal (goal_id g) true (Some r) (exception_ g)).

Definition set_exception (e : exception_value) (g : AsyncGoal) : result AsyncGoal :=
  _ ← unset g; Ok (mkGoal (goal_id g) true (result_ g) (Some e)).

(** The [AsyncGoal] objects are shared with the coroutines that wait on them,
    and live on after they leave [_pending_goals]: [objects] is the store of
    all that were created, and the dict holds their addresses. *)
Record AsyncGoalManager : Type := mkManager {
  objects : list AsyncGoal;
  _pending_goals : dict Z nat
}.

Definition __init__ : AsyncGoalManager := mkManager [] [].

Definition num_pending_goals (m : AsyncGoalManager) : nat := length (_pending_goals m).

(** [fresh] is what [uuid4()] returns *)
Definition create_goal (fresh : Z) (gid : option Z) : ST AsyncGoalManager Z := fun m =>
  let gid := default fresh gid in
  (mkManager (objects m ++ [new_goal gid]) (dset gid (length (objects m)) (_pending_goals m)), Ok gid).

Definition get_goal (gid : Z) (m : AsyncGoalManager) : option AsyncGoal :=
  a ← dget gid (_pending_goals m); objects m !! a.

(** The object at an address, and its update by a method that can raise *)
Definition update_object (a : nat) (f : AsyncGoal -> result AsyncGoal) : ST AsyncGoalManager unit := fun m =>
  match objects m !! a with
  | Some g => match f g with
              | Ok g' => (mkManager (<[a := g']> (objects m)) (_pending_goals m), Ok tt)
              | Err e => (m, Err e)
              end
  | None => (m, Err KeyError)
  end.

Definition complete_goal (gid : Z) (exception : option exception_value) : ST AsyncGoalManager unit :=
  async_goal ← st_gets (fun m => dget gid (_pending_goals m));
  _ ← st_modify (fun m => mkManager (objects m) (ddel gid (_pending_goals m)));
  match async_goal with
  | None => mret tt
  | Some a => match exception with
              | Some e => update_object a (set_exception e)
              | None => update_object a (set_result gid)
              end
  end.

Definition check_complete (gid : Z) (m : AsyncGoalManager) : bool :=
  match get_goal gid m with
  | None => true
  | Some g => done_ g
  end.

(** [wait_for_goal] is a coroutine: it returns at once, or is suspended on the
    event of one object; [resume_wait] is what the event loop can do with it. *)
Inductive coroutine : Type :=
| Returned (r : option exception_value)
| Awaiting (a : nat).

Definition wait_for_goal (gid : Z) (m : AsyncGoalManager) : coroutine :=
  match dget gid (_pending_goals m) with
  | None => Returned None
  | Some a => Awaiting a
  end.

Definition resume_wait (c : coroutine) (m : AsyncGoalManager) : coroutine :=
  match c with
  | Returned r => Returned r
  | Awaiting a => match objects m !! a with
                  | Some g => if event g then Returned (exception_ g) else Awaiting a
                  | None => Awaiting a
                  end
  end.

(** ** The invariant: a pending goal's object is its own and is not done *)

Definition pending_ok (m : AsyncGoalManager) : Prop :=
  dwf (_pending_goals m) /\
  forall gid a, dget gid (_pending_goals m) = Some a -> objects m !! a = Some (new_goal gid).

Lemma manager_init_ok : pending_ok __init__.
Proof. split; [constructor | done]. Qed.

Lemma create_ok fresh gid m : pending_ok m -> pending_ok (create_goal fresh gid m).1.
Proof.
  intros [Hw H]. unfold create_goal. cbn [fst]. split; cbn [objects _pending_goals].
  - by apply dwf_dset.
  - intros g a. rewrite dget_dset. destruct (decide _) as [<-|Hne].
    + intros [= <-]. by rewrite list_lookup_middle.
    + intros Hg. specialize (H g a Hg). by apply lookup_app_l_Some.
Qed.

Lemma unset_new gid : unset (new_goal gid) = Ok tt.
Proof. reflexivity. Qed.

(** The object that completing a goal leaves behind *)
Definition completed (gid : Z) (e : option exception_value) : AsyncGoal :=
  match e with
  | Some x => mkGoal gid true None (Some x)
  | None => mkGoal gid true (Some gid) None
  end.

Lemma complete_pending gid e m a :
  pending_ok m -> dget gid (_pending_goals m) = Some a ->
  complete_goal gid e m =
    (mkManager (<[a := completed gid e]> (objects m)) (ddel gid (_pending_goals m)), Ok tt).
Proof.
  intros [Hw H] Hg. unfold complete_goal. st_simpl. rewrite Hg.
  specialize (H gid a Hg). destruct e; unfold update_object; cbn [objects]; by rewrite H.
Qed.

Lemma complete_absent gid e m :
  dget gid (_pending_goals m) = None ->
  complete_goal gid e m = (mkManager (objects m) (ddel gid (_pending_goals m)), Ok tt).
Proof. intros Hg. unfold complete_goal. st_simpl. by rewrite Hg. Qed.

Lemma complete_ok gid e m :
  pending_ok m -> pending_ok (complete_goal gid e m).1 /\ (complete_goal gid e m).2 = Ok tt.
Proof.
  intros Hm. pose proof Hm as [Hw H].
  destruct (dget gid (_pending_goals m)) as [a|] eqn:Hg.
  - rewrite (complete_pending _ _ _ a) by done. cbn [fst snd]. split; [|done].
    split; cbn [objects _pending_goals]; [by apply dwf_ddel|].
    intros g b Hb. destruct (decide (g = gid)) as [->|Hne].
    + by rewrite dget_ddel_eq in Hb.
    + rewrite dget_ddel_ne in Hb by done. specialize (H g b Hb) as Hob.
      rewrite list_lookup_insert_ne; [done|]. intros ->.
      specialize (H gid b Hg). rewrite Hob in H. by injection H.
  - rewrite complete_absent by done. cbn [fst snd]. split; [|done].
    split; cbn [objects _pending_goals]; [by apply dwf_ddel|].
    intros g b Hb. apply H. destruct (decide (g = gid)) as [->|Hne].
    + by rewrite dget_ddel_eq in Hb.
    + by rewrite dget_ddel_ne in Hb by done.
Qed.

(** The goals that are pending after an operation *)
Lemma pending_create fresh gid m x :
  x ∈ dkeys (_pending_goals (create_goal fresh gid m).1) <-> x = default fresh gid \/ x ∈ dkeys (_pending_goals m).
Proof. unfold create_goal. cbn [fst _pending_goals]. apply elem_dkeys_dset. Qed.

Lemma pending_complete gid e m x :
  pending_ok m ->
  x ∈ dkeys (_pending_goals (complete_goal gid e m).1) <-> x <> gid /\ x ∈ dkeys (_pending_goals m).
Proof.
  intros Hm. pose proof Hm as [Hw _].
  destruct (dget gid (_pending_goals m)) as [a|] eqn:Hg.
  - rewrite (complete_pending _ _ _ a) by done. by apply elem_dkeys_ddel.
  - rewrite complete_absent by done. by apply elem_dkeys_ddel.
Qed.

(** ** Sequences of operations *)

Inductive goal_op : Type :=
| Create (fresh : Z) (gid : option Z)
| Complete (gid : Z) (e : option exception_value).

Definition op_goal (o : goal_op) : Z :=
  match o with Create fresh gid => default fresh gid | Complete gid _ => gid end.

Definition do_op (o : goal_op) : ST AsyncGoalManager unit :=
  match o with
  | Create fresh gid => _ ← create_goal fresh gid; mret tt
  | Complete gid e => complete_goal gid e
  end.

Definition run_ops (ops : list goal_op) : ST AsyncGoalManager unit := st_for ops do_op.

Lemma do_op_ok o m : pending_ok m -> pending_ok (do_op o m).1 /\ (do_op o m).2 = Ok tt.
Proof. intros Hm. destruct o; [split; [by apply create_ok | done] | by apply complete_ok]. Qed.

Lemma run_ops_cons o ops m :
  pending_ok m -> run_ops (o :: ops) m = run_ops ops (do_op o m).1.
Proof.
  intros Hm. unfold run_ops. cbn [st_for]. st_simpl.
  destruct (do_op_ok o m Hm) as [_ E]. destruct (do_op o m) as [m' r]. cbn [fst snd] in *. by subst r.
Qed.

Lemma run_ops_ok ops m : pending_ok m -> pending_ok (run_ops ops m).1 /\ (run_ops ops m).2 = Ok tt.
Proof.
  revert m. induction ops as [|o ops IH]; intros m Hm; [done|].
  rewrite run_ops_cons by done. apply IH. by apply do_op_ok.
Qed.

(** An operation on other goals leaves a pending goal as it is. *)
Lemma do_op_other o m gid a :
  pending_ok m -> op_goal o <> gid -> dget gid (_pending_goals m) = Some a ->
  dget gid (_pending_goals (do_op o m).1) = Some a.
Proof.
  intros Hm Hne Hg. destruct o as [fresh g|g e]; cbn [op_goal] in Hne.
  - unfold do_op, create_goal. st_simpl. cbn [fst _pending_goals]. by rewrite dget_dset_ne.
  - unfold do_op. destruct (dget g (_pending_goals m)) as [b|] eqn:Eb.
    + rewrite (complete_pending _ _ _ b) by done. cbn. by rewrite dget_ddel_ne.
    + rewrite complete_absent by done. cbn. by rewrite dget_ddel_ne.
Qed.

(** An object that is done keeps its outcome. *)
Lemma do_op_done o m a g :
  pending_ok m -> objects m !! a = Some g -> done_ g = true -> objects (do_op o m).1 !! a = Some g.
Proof.
  intros Hm Ha Hd. destruct o as [fresh gid|gid e].
  - cbn. by apply lookup_app_l_Some.
  - unfold do_op. destruct (dget gid (_pending_goals m)) as [b|] eqn:Eb.
    + rewrite (complete_pending _ _ _ b) by done. cbn.
      rewrite list_lookup_insert_ne; [done|]. intros ->.
      destruct Hm as [_ H]. specialize (H gid a Eb). rewrite Ha in H. injection H as ->. done.
    + by rewrite complete_absent.
Qed.

Lemma run_ops_other ops m gid a :
  pending_ok m -> Forall (fun o => op_goal o <> gid) ops -> dget gid (_pending_goals m) = Some a ->
  dget gid (_pending_goals (run_ops ops m).1) = Some a.
Proof.
  intros Hm Ho. revert m Hm. induction Ho as [|o ops Hne _ IH]; intros m Hm Hg; [done|].
  rewrite run_ops_cons by done. apply IH; [by apply do_op_ok | by apply do_op_other].
Qed.

Lemma run_ops_done ops m a g :
  pending_ok m -> objects m !! a = Some g -> done_ g = true -> objects (run_ops ops m).1 !! a = Some g.
Proof.
  revert m. induction ops as [|o ops IH]; intros m Hm Ha Hd; [done|].
  rewrite run_ops_cons by done. apply IH; [by apply do_op_ok | by apply do_op_done | done].
Qed.

(** A client that waits on a pending goal stays suspended while operations on
    other goals run, and once its goal is completed it receives that outcome,
    whatever happens to the manager afterwards. No operation raises. *)
Theorem waiter_outcome (before ops1 ops2 : list goal_op) (gid : Z) (a : nat)
    (e : option exception_value) :
  let m0 := (run_ops before __init__).1 in
  let m1 := (run_ops ops1 m0).1 in
  let m2 := (complete_goal gid e m1).1 in
  wait_for_goal gid m0 = Awaiting a ->
  Forall (fun o => op_goal o <> gid) ops1 ->
  resume_wait (Awaiting a) m1 = Awaiting a
  /\ resume_wait (Awaiting a) (run_ops ops2 m2).1 = Returned e
  /\ (run_ops (before ++ ops1 ++ Complete gid e :: ops2) __init__).2 = Ok tt.
Proof.
  intros m0 m1 m2 Hw Ho.
  assert (Hm0 : pending_ok m0) by apply run_ops_ok, manager_init_ok.
  assert (Hm1 : pending_ok m1) by by apply run_ops_ok.
  assert (Hg : dget gid (_pending_goals m0) = Some a).
  { unfold wait_for_goal in Hw. destruct (dget gid _); [by injection Hw as -> | done]. }
  pose proof (run_ops_other ops1 m0 gid a Hm0 Ho Hg) as Hg1. fold m1 in Hg1.
  pose proof (proj2 Hm1 gid a Hg1) as Ha.
  split_and!; [by cbn; rewrite Ha | | apply run_ops_ok, manager_init_ok].
  cbn. rewrite (run_ops_done ops2 m2 a (completed gid e)); [by destruct e | by apply complete_ok | | by destruct e].
  unfold m2. rewrite (complete_pending _ _ _ a) by done. cbn.
  apply list_lookup_insert_eq. by eapply lookup_lt_Some.
Qed.

Lemma waiter_outcome_witness :
  resume_wait (Awaiting 0) (run_ops [Create 3 None] (run_ops [Create 1 None] __init__).1).1 = Awaiting 0.
Proof.
  apply (waiter_outcome [Create 1 None] [Create 3 None] [Create 4 (Some 1%Z)] 1 0
           (Some (RuntimeError, "failed"%string))); [reflexivity|].
  constructor; [done | constructor].
Defined.

End AsyncGoals.
