(* ===== verification/LongPoll.v ===== *)
(** Long polling between the Serve controller and its clients
    ([serve/long_poll.py]): [LongPollHost], the coroutine of
    [listen_for_change], and [LongPollClient]. *)

From Stdlib Require Import ZArith Lia.
From stdpp Require Import base list strings option relations.
From S2P Require Import Prelude PyDict.

Module LongPoll.
Section LongPoll.
Context {K : Type} `{!EqDecision K} {Obj : Type}.

Record UpdatedObject : Type := mkUpdated { object_snapshot : Obj; snapshot_id : Z }.

(** [asyncio.Event]s are shared by the host and the coroutines that wait on
    them: [events] is their store, [true] when set. *)
Record LongPollHost : Type := mkHost {
  snapshot_ids : dict K Z;
  object_snapshots : dict K Obj;
  notifier_events : dict K (list nat);
  events : list bool
}.

Definition init_host : LongPollHost := mkHost [] [] [] [].

Definition set_event (evs : list bool) (a : nat) : list bool := <[a := true]> evs.

(** [randint] is what the [defaultdict] draws for a key it does not have *)
Definition notify_changed (randint : Z) (object_key : K) (updated_object : Obj) (h : LongPollHost) : LongPollHost :=
  let ids := dset object_key (dget_or object_key randint (snapshot_ids h) + 1)%Z (snapshot_ids h) in
  let objs := dset object_key updated_object (object_snapshots h) in
  match dget object_key (notifier_events h) with
  | Some waiting => mkHost ids objs (ddel object_key (notifier_events h)) (foldl set_event (events h) waiting)
  | None => mkHost ids objs (notifier_events h) (events h)
  end.

(** [UpdatedObject(self.object_snapshots[key], self.snapshot_ids[key])] *)
Definition updated_object_of (h : LongPollHost) (key : K) : result UpdatedObject :=
  o ← dgetitem key (object_snapshots h);
  i ← dgetitem key (snapshot_ids h);
  Ok (mkUpdated o i).

(** The keys the client is outdated on, and their objects *)
Definition outdated (h : LongPollHost) (keys_to_snapshot_ids : dict K Z) (key : K) : bool :=
  match dget key (snapshot_ids h) with
  | Some i => negb (bool_decide (dget key keys_to_snapshot_ids = Some i))
  | None => false
  end.

Definition outdated_keys (h : LongPollHost) (keys_to_snapshot_ids : dict K Z) : list K :=
  filter (fun key => outdated h keys_to_snapshot_ids key = true) (dkeys keys_to_snapshot_ids).

(** A [listen_for_change] call: its updates, or the events it is suspended on *)
Inductive listening : Type :=
| Answer (updates : dict K UpdatedObject)
| Suspended (tasks : list (nat * K)).

(** One new event per watched key *)
Definition register (acc : LongPollHost * list (nat * K)) (key : K) : LongPollHost * list (nat * K) :=
  let '(h, tasks) := acc in
  let ev := length (events h) in
  (mkHost (snapshot_ids h) (object_snapshots h)
     (dset key (dget_or key [] (notifier_events h) ++ [ev]) (notifier_events h)) (events h ++ [false]),
   tasks ++ [(ev, key)]).

Definition listen_for_change (keys_to_snapshot_ids : dict K Z) : ST LongPollHost listening := fun h =>
  match mapM_r (fun key => u ← updated_object_of h key; Ok (key, u)) (outdated_keys h keys_to_snapshot_ids) with
  | Err e => (h, Err e)
  | Ok client_outdated_keys =>
      if (0 <? length client_outdated_keys)%nat then (h, Ok (Answer client_outdated_keys))
      else let '(h', tasks) := foldl register (h, []) (dkeys keys_to_snapshot_ids) in
           (h', Ok (Suspended tasks))
  end.

Definition task_done (h : LongPollHost) (task : nat * K) : bool := default false (events h !! task.1).

(** The coroutine after [asyncio.wait] returned: [done.pop()] is any of the
    tasks that are done, here [picked]; with none it timed out. *)
Definition resume_listen (h : LongPollHost) (tasks : list (nat * K)) (picked : option (nat * K)) :
  result (dict K UpdatedObject) :=
  match picked with
  | None => Err TimeoutError
  | Some task => u ← updated_object_of h task.2; Ok [(task.2, u)]
  end.

(** ** The client

    [queued] holds the callbacks posted to the event loop, [delivered] the
    calls of the callbacks so far, and [request] the [snapshot_ids] sent with
    the [listen_for_change] call that is under way. *)
Record LongPollClient : Type := mkClient {
  key_listeners : list K;
  event_loop : option bool;      (* [None], or whether the loop is running *)
  cl_snapshot_ids : dict K Z;
  cl_object_snapshots : dict K Obj;
  _callbacks_processed_count : nat;
  is_running : bool;
  request : option (dict K Z);
  queued : list (K * Obj * nat);
  delivered : list (K * Obj)
}.

Definition _poll_next (c : LongPollClient) : LongPollClient :=
  mkClient (key_listeners c) (event_loop c) (cl_snapshot_ids c) (cl_object_snapshots c)
    (_callbacks_processed_count c) (is_running c) (Some (cl_snapshot_ids c)) (queued c) (delivered c).

Definition init_client (listeners : list K) (loop : option bool) : result LongPollClient :=
  _ ← py_assert (0 <? length listeners)%nat;
  Ok (_poll_next (mkClient listeners loop (map (fun key => (key, -1)%Z) listeners) [] 0 true None [] [])).

Definition _on_callback_completed (trigger_at : nat) (c : LongPollClient) : LongPollClient :=
  let n := S (_callbacks_processed_count c) in
  let c' := mkClient (key_listeners c) (event_loop c) (cl_snapshot_ids c) (cl_object_snapshots c)
              (if (n =? trigger_at)%nat then 0 else n) (is_running c) (request c) (queued c) (delivered c) in
  if (n =? trigger_at)%nat then _poll_next c' else c'.

(** [chained]: the callback and the bookkeeping after it *)
Definition chained (key : K) (arg : Obj) (trigger_at : nat) (c : LongPollClient) : LongPollClient :=
  _on_callback_completed trigger_at
    (mkClient (key_listeners c) (event_loop c) (cl_snapshot_ids c) (cl_object_snapshots c)
       (_callbacks_processed_count c) (is_running c) (request c) (queued c) (delivered c ++ [(key, arg)])).

Definition process_one (n_updates : nat) (c : LongPollClient) (ku : K * UpdatedObject) : result LongPollClient :=
  let '(key, update) := ku in
  let c := mkClient (key_listeners c) (event_loop c) (dset key (snapshot_id update) (cl_snapshot_ids c))
             (dset key (object_snapshot update) (cl_object_snapshots c))
             (_callbacks_processed_count c) (is_running c) (request c) (queued c) (delivered c) in
  if negb (bool_decide (key ∈ key_listeners c)) then Err KeyError
  else match event_loop c with
       | None => Ok (chained key (object_snapshot update) n_updates c)
       | Some true =>
           Ok (mkClient (key_listeners c) (event_loop c) (cl_snapshot_ids c) (cl_object_snapshots c)
                 (_callbacks_processed_count c) (is_running c) (request c)
                 (queued c ++ [(key, object_snapshot update, n_updates)]) (delivered c))
       | Some false =>
           Ok (mkClient (key_listeners c) (event_loop c) (cl_snapshot_ids c) (cl_object_snapshots c)
                 (_callbacks_processed_count c) false (request c) (queued c) (delivered c))
       end.

(** What the call under way came back with *)
Inductive reply : Type :=
| Updates (updates : dict K UpdatedObject)
| ConnectionLost        (* [RayActorError] or [ConnectionError] *)
| TaskError.            (* [RayTaskError]: the poll timed out, or the host failed *)

Definition _process_update (r : reply) (c : LongPollClient) : result LongPollClient :=
  let c := mkClient (key_listeners c) (event_loop c) (cl_snapshot_ids c) (cl_object_snapshots c)
             (_callbacks_processed_count c) (is_running c) None (queued c) (delivered c) in
  match r with
  | ConnectionLost =>
      Ok (mkClient (key_listeners c) (event_loop c) (cl_snapshot_ids c) (cl_object_snapshots c)
            (_callbacks_processed_count c) false (request c) (queued c) (delivered c))
  | TaskError => Ok (_poll_next c)
  | Updates updates => foldM (process_one (length updates)) c updates
  end.

(** The event loop runs the first callback posted to it. *)
Definition run_callback (c : LongPollClient) : LongPollClient :=
  match queued c with
  | [] => c
  | (key, arg, trigger_at) :: rest =>
      chained key arg trigger_at
        (mkClient (key_listeners c) (event_loop c) (cl_snapshot_ids c) (cl_object_snapshots c)
           (_callbacks_processed_count c) (is_running c) (request c) rest (delivered c))
  end.

(** ** The host and one client

    The calls of the controller ([notify_changed]), the coroutine of the poll
    that is under way, its reply, and the client's callbacks, interleaved in
    any order. *)

Inductive flight : Type :=
| NotStarted                          (* the host has not seen the request *)
| Blocked (tasks : list (nat * K))
| Replied (r : reply).

Record system : Type := mkSystem { host : LongPollHost; client : LongPollClient; state : flight }.

Inductive step : system -> system -> Prop :=
| step_notify h c f r k v :
    (0 <= r)%Z -> step (mkSystem h c f) (mkSystem (notify_changed r k v h) c f)
| step_answer h c ids h' u :
    request c = Some ids -> listen_for_change ids h = (h', Ok (Answer u)) ->
    step (mkSystem h c NotStarted) (mkSystem h' c (Replied (Updates u)))
| step_suspend h c ids h' tasks :
    request c = Some ids -> listen_for_change ids h = (h', Ok (Suspended tasks)) ->
    step (mkSystem h c NotStarted) (mkSystem h' c (Blocked tasks))
| step_host_error h c ids h' e :
    request c = Some ids -> listen_for_change ids h = (h', Err e) ->
    step (mkSystem h c NotStarted) (mkSystem h' c (Replied TaskError))
| step_wake h c tasks task u :
    task ∈ tasks -> task_done h task = true -> resume_listen h tasks (Some task) = Ok u ->
    step (mkSystem h c (Blocked tasks)) (mkSystem h c (Replied (Updates u)))
| step_timeout h c tasks :
    Forall (fun t => task_done h t = false) tasks ->
    step (mkSystem h c (Blocked tasks)) (mkSystem h c (Replied TaskError))
| step_deliver h c c' r :
    _process_update r c = Ok c' -> step (mkSystem h c (Replied r)) (mkSystem h c' NotStarted)
| step_callback h c :
    queued c <> [] -> step (mkSystem h c NotStarted) (mkSystem h (run_callback c) NotStarted).

(** *** The host's invariant *)

Definition host_ok (h : LongPollHost) : Prop :=
  (forall k, is_Some (dget k (snapshot_ids h)) <-> is_Some (dget k (object_snapshots h))) /\
  (forall k i, dget k (snapshot_ids h) = Some i -> (1 <= i)%Z) /\
  (forall k ev, ev ∈ dget_or k [] (notifier_events h) -> (ev < length (events h))%nat) /\
  dwf (notifier_events h) /\
  (forall k k' ev, ev ∈ dget_or k [] (notifier_events h) -> ev ∈ dget_or k' [] (notifier_events h) -> k = k').

Lemma init_host_ok : host_ok init_host.
Proof.
  split_and!; [|done| |constructor|].
  - intros k. split; intros [x Hx]; discriminate Hx.
  - intros k ev H. by apply elem_of_nil in H.
  - intros k k' ev H. by apply elem_of_nil in H.
Qed.

Lemma length_set_events l evs : length (foldl set_event evs l) = length evs.
Proof.
  revert evs. induction l as [|a l IH]; intros evs; [done|]. cbn [foldl]. rewrite IH.
  apply length_insert.
Qed.

Lemma set_events_lookup l evs a :
  (a < length evs)%nat ->
  foldl set_event evs l !! a = if decide (a ∈ l) then Some true else evs !! a.
Proof.
  revert evs. induction l as [|b l IH]; intros evs Ha; cbn [foldl].
  - by rewrite decide_False by apply not_elem_of_nil.
  - rewrite IH by (unfold set_event; by rewrite length_insert).
    destruct (decide (a ∈ l)) as [Hl|Hl].
    + by rewrite decide_True by (by right).
    + unfold set_event. destruct (decide (a = b)) as [->|Hab].
      * rewrite decide_True by (by left). by apply list_lookup_insert_eq.
      * rewrite decide_False by (intros [?|?]%elem_of_cons; congruence).
        by apply list_lookup_insert_ne.
Qed.

(** What [notify_changed] does to the parts of the host *)
Lemma notify_ids r k v h :
  snapshot_ids (notify_changed r k v h) = dset k (dget_or k r (snapshot_ids h) + 1)%Z (snapshot_ids h).
Proof. unfold notify_changed. by destruct (dget k (notifier_events h)). Qed.

Lemma notify_objects r k v h : object_snapshots (notify_changed r k v h) = dset k v (object_snapshots h).
Proof. unfold notify_changed. by destruct (dget k (notifier_events h)). Qed.

Lemma notify_length r k v h : length (events (notify_changed r k v h)) = length (events h).
Proof.
  unfold notify_changed. destruct (dget k (notifier_events h)); [|done]. apply length_set_events.
Qed.

Lemma notify_event r k v h ev :
  (ev < length (events h))%nat ->
  events (notify_changed r k v h) !! ev =
    if decide (ev ∈ dget_or k [] (notifier_events h)) then Some true else events h !! ev.
Proof.
  intros Hev. unfold notify_changed, dget_or.
  destruct (dget k (notifier_events h)) as [w|]; cbn [events from_option id].
  - by rewrite set_events_lookup.
  - by rewrite decide_False by apply not_elem_of_nil.
Qed.

Lemma notify_notifiers r k v h k' :
  k' <> k -> dget_or k' [] (notifier_events (notify_changed r k v h)) = dget_or k' [] (notifier_events h).
Proof.
  intros Hne. unfold notify_changed, dget_or.
  destruct (dget k (notifier_events h)); cbn [notifier_events]; [|done]. by rewrite dget_ddel_ne.
Qed.

Lemma notify_notifiers_incl r k v h k' ev :
  dwf (notifier_events h) ->
  ev ∈ dget_or k' [] (notifier_events (notify_changed r k v h)) -> ev ∈ dget_or k' [] (notifier_events h).
Proof.
  intros Hwf. destruct (decide (k' = k)) as [->|Hne]; [|by rewrite notify_notifiers].
  unfold notify_changed. destruct (dget k (notifier_events h)) as [w|] eqn:E; cbn [notifier_events]; [|done].
  unfold dget_or. rewrite dget_ddel_eq by done. intros H; by apply elem_of_nil in H.
Qed.

Lemma notify_ok r k v h : (0 <= r)%Z -> host_ok h -> host_ok (notify_changed r k v h).
Proof.
  intros Hr (Hk & Hi & He & Hw & Hu). split_and!.
  - intros k'. rewrite notify_ids, notify_objects, !dget_dset.
    destruct (decide _); [split; by eexists | apply Hk].
  - intros k' i. rewrite notify_ids, dget_dset. destruct (decide _) as [<-|Hne]; [|apply Hi].
    intros [= <-]. unfold dget_or. destruct (dget k (snapshot_ids h)) as [j|] eqn:E; cbn; [|lia].
    specialize (Hi k j E). lia.
  - intros k' ev Hev. rewrite notify_length. eapply He. by eapply notify_notifiers_incl.
  - unfold notify_changed. destruct (dget k (notifier_events h)); cbn [notifier_events]; [|done].
    by apply dwf_ddel.
  - intros k1 k2 ev H1 H2. apply (Hu _ _ ev); by eapply notify_notifiers_incl.
Qed.

(** *** What a client can know of a key

    [view h k o i]: the pair [(o, i)] was the host's at some time; when its
    snapshot id is the host's, its object is. *)
Definition view (h : LongPollHost) (k : K) (o : Obj) (i : Z) : Prop :=
  exists j, dget k (snapshot_ids h) = Some j /\ (0 <= i <= j)%Z /\ (i = j -> dget k (object_snapshots h) = Some o).

Lemma view_notify r k' v h k o i : view h k o i -> view (notify_changed r k' v h) k o i.
Proof.
  intros (j & Hj & Hij & Ho). unfold view. rewrite notify_ids, notify_objects, !dget_dset.
  destruct (decide _) as [->|Hne]; [|by exists j].
  eexists; split; [reflexivity|]. unfold dget_or. rewrite Hj. cbn.
  split; [lia | intros; exfalso; lia].
Qed.

Lemma view_current h k u : host_ok h -> updated_object_of h k = Ok u -> view h k (object_snapshot u) (snapshot_id u).
Proof.
  intros (_ & Hi & _ & _) Hu. unfold updated_object_of, dgetitem in Hu.
  destruct (dget k (object_snapshots h)) as [o|] eqn:Eo; cbn in Hu; [|discriminate].
  destruct (dget k (snapshot_ids h)) as [i|] eqn:Ei; cbn in Hu; [|discriminate].
  injection Hu as <-. exists i. cbn. specialize (Hi k i Ei). split; [done | split; [lia | done]].
Qed.

(** The host's objects do not change while a coroutine registers its events. *)
Lemma register_frame ks acc :
  snapshot_ids (foldl register acc ks).1 = snapshot_ids acc.1 /\
  object_snapshots (foldl register acc ks).1 = object_snapshots acc.1.
Proof.
  revert acc. induction ks as [|k ks IH]; intros [h ts]; [done|]. cbn [foldl].
  destruct (IH (register (h, ts) k)) as [-> ->]. done.
Qed.

Lemma listen_frame ids h h' r :
  listen_for_change ids h = (h', r) ->
  snapshot_ids h' = snapshot_ids h /\ object_snapshots h' = object_snapshots h.
Proof.
  unfold listen_for_change. destruct (mapM_r _ _) as [us|e]; [|by intros [= <- _]].
  destruct (0 <? length us)%nat; [by intros [= <- _]|].
  pose proof (register_frame (dkeys ids) (h, [])) as [H1 H2].
  destruct (foldl register (h, []) (dkeys ids)) as [h1 ts]. by intros [= <- _].
Qed.

Lemma view_frame h h' k o i :
  snapshot_ids h' = snapshot_ids h -> object_snapshots h' = object_snapshots h -> view h k o i -> view h' k o i.
Proof. unfold view. by intros -> ->. Qed.

(** A key of the client is waited on when an event of the poll is registered
    for it, and the host has nothing newer for it. *)
Definition waits_on (h : LongPollHost) (ids : dict K Z) (task : nat * K) : Prop :=
  (events h !! task.1 = Some true /\ is_Some (dget task.2 (snapshot_ids h))) \/
  (events h !! task.1 = Some false /\ task.1 ∈ dget_or task.2 [] (notifier_events h) /\
   outdated h ids task.2 = false).

Lemma waits_notify r k v h ids task :
  host_ok h -> waits_on h ids task -> waits_on (notify_changed r k v h) ids task.
Proof.
  intros (_ & _ & He & _ & Hu) [[Ht Hs]|(Hf & Hin & Ho)].
  - left. rewrite notify_event by (by eapply lookup_lt_Some). split; [by destruct (decide _)|].
    rewrite notify_ids, dget_dset. by destruct (decide _).
  - assert (Hlt := He _ _ Hin). destruct (decide (task.2 = k)) as [E|Hne].
    + left. rewrite notify_event by done. subst k. rewrite decide_True by done. split; [done|].
      rewrite notify_ids, dget_dset. by rewrite decide_True.
    + destruct (decide (task.1 ∈ dget_or k [] (notifier_events h))) as [Hk|Hk].
      * by pose proof (Hu _ _ _ Hin Hk).
      * right. rewrite notify_event by done. rewrite decide_False by done.
        rewrite notify_notifiers by done. split_and!; [done | done|].
        unfold outdated in *. by rewrite notify_ids, dget_dset_ne.
Qed.

Lemma register_ok ids ks : forall h ts,
  host_ok h -> Forall (waits_on h ids) ts -> Forall (fun k => outdated h ids k = false) ks ->
  let '(h', ts') := foldl register (h, ts) ks in
  host_ok h' /\ Forall (waits_on h' ids) ts' /\ (forall k, k ∈ ts'.*2 <-> k ∈ ts.*2 \/ k ∈ ks).
Proof.
  induction ks as [|k ks IH]; intros h ts Hh Hts Hks; cbn [foldl].
  - split_and!; [done | done|]. intros k. rewrite elem_of_nil. tauto.
  - apply list.Forall_cons in Hks as [Hk Hks].
    set (h1 := (register (h, ts) k).1).
    assert (E : register (h, ts) k = (h1, ts ++ [(length (events h), k)])) by reflexivity.
    rewrite E. destruct Hh as (H1 & H2 & H3 & H4 & H5).
    assert (Hn : forall k' ev, ev ∈ dget_or k' [] (notifier_events h) -> ev ∈ dget_or k' [] (notifier_events h1)).
    { intros k' ev Hev. unfold h1, register. cbn [fst notifier_events]. rewrite dget_or_dset.
      destruct (decide _) as [->|?]; [|done]. apply elem_of_app. by left. }
    assert (Hh1 : host_ok h1).
    { split_and!; [exact H1 | exact H2 | | |].
      - intros k' ev. unfold h1, register. cbn [fst notifier_events events]. rewrite dget_or_dset, length_app.
        cbn [length]. destruct (decide _) as [->|?].
        + intros [Hev|Hev]%elem_of_app; [specialize (H3 _ _ Hev); lia|].
          apply list_elem_of_singleton in Hev. lia.
        + intros Hev. specialize (H3 _ _ Hev). lia.
      - by apply dwf_dset.
      - intros k1 k2 ev. unfold h1, register. cbn [fst notifier_events]. rewrite !dget_or_dset.
        assert (forall k', ev ∈ dget_or k' [] (notifier_events h) -> ev <> length (events h)) as Hfresh.
        { intros k' Hev ->. specialize (H3 _ _ Hev). lia. }
        repeat destruct (decide _) as [<-|?]; rewrite ?elem_of_app, ?list_elem_of_singleton; try done.
        + intros [Ha|Ha] Hb; [by apply (H5 _ _ ev) | by destruct (Hfresh _ Hb)].
        + intros Ha [Hb|Hb]; [by apply (H5 _ _ ev) | by destruct (Hfresh _ Ha)].
        + apply H5. }
    specialize (IH h1 (ts ++ [(length (events h), k)])).
    destruct (foldl register _ ks) as [h' ts'].
    destruct IH as (Hh' & Hts' & Hin); [exact Hh1 | | exact Hks |].
    + apply list.Forall_app. split.
      * eapply list.Forall_impl; [exact Hts|]. intros t [[Ht Hs]|(Ht & Hev & Ho)].
        -- left. split; [|exact Hs]. cbn [h1 register fst events]. by apply lookup_app_l_Some.
        -- right. split_and!; [by apply lookup_app_l_Some | by apply Hn | exact Ho].
      * apply list.Forall_cons. split; [|constructor]. right. split_and!.
        -- by apply list_lookup_middle.
        -- unfold h1, register. cbn [fst snd notifier_events]. rewrite dget_or_dset.
           rewrite decide_True by done. apply elem_of_app. right. by left.
        -- exact Hk.
    + split_and!; [done | done|]. intros k'. rewrite Hin, fmap_app, elem_of_app, elem_of_cons.
      cbn [fmap list_fmap snd]. rewrite list_elem_of_singleton. tauto.
Qed.

(** *** The invariant of the system *)

Definition knows (h : LongPollHost) (c : LongPollClient) : Prop :=
  dkeys (cl_snapshot_ids c) = key_listeners c /\
  forall k i, dget k (cl_snapshot_ids c) = Some i ->
    i = (-1)%Z \/ exists o, dget k (cl_object_snapshots c) = Some o /\ view h k o i.

(** Between two replies the callbacks of the last one are still to be run,
    or the next poll was sent with the client's snapshot ids, or the event
    loop is closed. *)
Definition polls (c : LongPollClient) : Prop :=
  (queued c = [] /\ _callbacks_processed_count c = 0%nat /\ request c = Some (cl_snapshot_ids c)) \/
  (exists n, event_loop c = Some true /\ request c = None /\ queued c <> [] /\
     Forall (fun q => q.2 = n) (queued c) /\ (_callbacks_processed_count c + length (queued c))%nat = n) \/
  (queued c = [] /\ _callbacks_processed_count c = 0%nat /\ request c = None /\
     event_loop c = Some false /\ is_running c = false).

Definition flight_ok (h : LongPollHost) (c : LongPollClient) (f : flight) : Prop :=
  match f with
  | NotStarted => polls c
  | Blocked tasks =>
      queued c = [] /\ _callbacks_processed_count c = 0%nat /\
      Forall (waits_on h (cl_snapshot_ids c)) tasks /\ (forall k, k ∈ tasks.*2 <-> k ∈ key_listeners c)
  | Replied r =>
      queued c = [] /\ _callbacks_processed_count c = 0%nat /\
      match r with
      | Updates u => u <> [] /\ Forall (fun ku => ku.1 ∈ key_listeners c /\
                       view h ku.1 (object_snapshot ku.2) (snapshot_id ku.2)) u
      | TaskError => True
      | ConnectionLost => False
      end
  end.

Definition system_ok (s : system) : Prop :=
  host_ok (host s) /\ knows (host s) (client s) /\ flight_ok (host s) (client s) (state s).

Lemma knows_frame h h' c :
  (forall k o i, view h k o i -> view h' k o i) -> knows h c -> knows h' c.
Proof.
  intros Hv [Hd Hk]. split; [done|]. intros k i Hi.
  destruct (Hk k i Hi) as [?|(o & Ho & Hview)]; [by left | right; eauto].
Qed.

Lemma knows_learn h c k (u : UpdatedObject) c' :
  knows h c -> k ∈ key_listeners c -> view h k (object_snapshot u) (snapshot_id u) ->
  key_listeners c' = key_listeners c ->
  cl_snapshot_ids c' = dset k (snapshot_id u) (cl_snapshot_ids c) ->
  cl_object_snapshots c' = dset k (object_snapshot u) (cl_object_snapshots c) -> knows h c'.
Proof.
  intros [Hd Hk] Hin Hv E1 E2 E3. split.
  - rewrite E1, E2, dkeys_dset, <- Hd. rewrite <- Hd in Hin.
    by destruct (decide (k ∈ dkeys (cl_snapshot_ids c))).
  - intros k' i. rewrite E2, E3, !dget_dset. destruct (decide _) as [<-|Hne]; [|apply Hk].
    intros [= <-]. right. eauto.
Qed.

(** Where the processing of [n] updates stands after [m] of them *)
Definition processed (n m : nat) (c : LongPollClient) : Prop :=
  match event_loop c with
  | None => queued c = [] /\
      if (m =? n)%nat then _callbacks_processed_count c = 0%nat /\ request c = Some (cl_snapshot_ids c)
      else _callbacks_processed_count c = m /\ request c = None
  | Some true => length (queued c) = m /\ Forall (fun q => q.2 = n) (queued c) /\
      _callbacks_processed_count c = 0%nat /\ request c = None
  | Some false => queued c = [] /\ _callbacks_processed_count c = 0%nat /\ request c = None /\
      (m = 0%nat \/ is_running c = false)
  end.

Lemma process_one_ok h n m c ku :
  (m < n)%nat -> knows h c -> processed n m c ->
  ku.1 ∈ key_listeners c -> view h ku.1 (object_snapshot ku.2) (snapshot_id ku.2) ->
  exists c', process_one n c ku = Ok c' /\ knows h c' /\ processed n (S m) c' /\
             key_listeners c' = key_listeners c.
Proof.
  intros Hm Hk Hp Hin Hv. destruct ku as [k u]. cbn [fst snd] in *. unfold process_one. cbn [key_listeners].
  rewrite bool_decide_true by done. cbn [negb event_loop]. unfold processed in Hp.
  destruct (event_loop c) as [[|]|] eqn:El.
  - eexists; split; [reflexivity|]. split_and!; [by eapply knows_learn | | done].
    unfold processed. cbn [event_loop queued _callbacks_processed_count request]. 
    destruct Hp as (H1 & H2 & H3 & H4). rewrite length_app, list.Forall_app. cbn [length].
    split_and!; [lia | done | by constructor | done | done].
  - eexists; split; [reflexivity|]. split_and!; [by eapply knows_learn | | done].
    unfold processed. cbn [event_loop queued _callbacks_processed_count request is_running].
    destruct Hp as (H1 & H2 & H3 & H4). split_and!; [done | done | done | by right].
  - eexists; split; [reflexivity|]. destruct Hp as (Hq & Hp).
    rewrite (proj2 (Nat.eqb_neq m n)) in Hp by lia. destruct Hp as (Hc & Hr).
    unfold chained, _on_callback_completed.
    cbn [_callbacks_processed_count key_listeners event_loop cl_snapshot_ids cl_object_snapshots is_running
         request queued delivered]. rewrite Hc.
    destruct (S m =? n)%nat eqn:En; (split_and!; [by eapply knows_learn | | done]);
      unfold processed, _poll_next; cbn [event_loop queued _callbacks_processed_count request cl_snapshot_ids];
      (split; [done|]); by rewrite En.
Qed.

Lemma process_updates_ok h n u : forall m c,
  (m + length u = n)%nat -> knows h c -> processed n m c ->
  Forall (fun ku => ku.1 ∈ key_listeners c /\ view h ku.1 (object_snapshot ku.2) (snapshot_id ku.2)) u ->
  exists c', foldM (process_one n) c u = Ok c' /\ knows h c' /\ processed n n c'.
Proof.
  induction u as [|ku u IH]; intros m c Hn Hk Hp Hu; cbn [length] in Hn.
  - exists c. replace n with m in * by lia. done.
  - apply list.Forall_cons in Hu as [[Hin Hv] Hu].
    destruct (process_one_ok h n m c ku) as (c1 & E & Hk1 & Hp1 & El); [lia | done | done | done | done |].
    cbn [foldM]. rewrite E. cbn. apply (IH (S m)); [lia | done | done |]. by rewrite El.
Qed.

Lemma deliver_ok h c r :
  knows h c -> flight_ok h c (Replied r) ->
  exists c', _process_update r c = Ok c' /\ knows h c' /\ polls c'.
Proof.
  intros Hk (Hq & Hc & Hr). destruct r as [u| |]; [|done|].
  - destruct Hr as [Hne Hu].
    set (c0 := mkClient (key_listeners c) (event_loop c) (cl_snapshot_ids c) (cl_object_snapshots c)
                 (_callbacks_processed_count c) (is_running c) None (queued c) (delivered c)).
    assert (Hpos : (0 < length u)%nat) by (destruct u; [done | cbn; lia]).
    assert (Hp0 : processed (length u) 0 c0).
    { unfold processed. cbn [c0 event_loop queued _callbacks_processed_count request is_running].
      rewrite Hq. destruct (event_loop c) as [[|]|]; [by split_and!; try constructor | by split_and!; try left |].
      split; [done|]. rewrite (proj2 (Nat.eqb_neq 0 (length u))) by lia. done. }
    destruct (process_updates_ok h (length u) u 0 c0) as (c' & E & Hk' & Hp'); [lia | done | done | done |].
    exists c'. split_and!; [exact E | done|].
    unfold processed in Hp'. rewrite Nat.eqb_refl in Hp'. destruct (event_loop c') as [[|]|] eqn:El.
    + destruct Hp' as (H1 & H2 & H3 & H4). right; left. exists (length u).
      split_and!; [done | done | | done | lia]. intros Q. rewrite Q in H1. cbn in H1. lia.
    + destruct Hp' as (H1 & H2 & H3 & [H4|H4]); [lia|]. by right; right.
    + destruct Hp' as (H1 & H2 & H3). by left.
  - eexists; split; [reflexivity|]. split; [exact Hk|]. left. by split_and!.
Qed.

Lemma callback_ok h c : knows h c -> polls c -> queued c <> [] -> knows h (run_callback c) /\ polls (run_callback c).
Proof.
  intros Hk Hp Hq. destruct Hp as [(Q & _)|[(n & El & Hr & _ & Hf & Hn)|(Q & _)]]; [done | | done].
  unfold run_callback. destruct (queued c) as [|[[k o] t] rest] eqn:Eq; [done|].
  apply list.Forall_cons in Hf as [Ht Hf]. cbn [snd] in Ht. subst t. cbn [length] in Hn.
  unfold chained, _on_callback_completed. 
  cbn [_callbacks_processed_count key_listeners event_loop cl_snapshot_ids cl_object_snapshots is_running
       request queued delivered].
  destruct (S (_callbacks_processed_count c) =? n)%nat eqn:En; (split; [exact Hk|]).
  - left. apply Nat.eqb_eq in En. cbn [_poll_next queued _callbacks_processed_count request cl_snapshot_ids].
    split_and!; [|done|done]. destruct rest; [done | cbn in Hn; lia].
  - right; left. apply Nat.eqb_neq in En. exists n.
    cbn [event_loop queued _callbacks_processed_count request]. split_and!; [done | done | | done | lia].
    intros ->. cbn in Hn. lia.
Qed.

Lemma outdated_known h ids k : outdated h ids k = true -> is_Some (dget k (snapshot_ids h)).
Proof. unfold outdated. destruct (dget k (snapshot_ids h)); by eauto. Qed.

Lemma updated_object_ok h k :
  host_ok h -> is_Some (dget k (snapshot_ids h)) -> exists u, updated_object_of h k = Ok u.
Proof.
  intros (Hk & _) Hs. pose proof Hs as [i Hi]. apply Hk in Hs as [o Ho].
  unfold updated_object_of, dgetitem. rewrite Hi, Ho. cbn. by eexists.
Qed.

(** [listen_for_change] answers at once when the client is outdated on a key,
    with all such keys, and otherwise waits on every key. *)
Lemma listen_spec h ids :
  host_ok h ->
  (exists u, listen_for_change ids h = (h, Ok (Answer u)) /\ u <> [] /\
     Forall (fun ku => ku.1 ∈ dkeys ids /\ view h ku.1 (object_snapshot ku.2) (snapshot_id ku.2)) u /\
     (forall k, k ∈ dkeys ids -> outdated h ids k = true ->
        exists x, (k, x) ∈ u /\ updated_object_of h k = Ok x)) \/
  (exists h' tasks, listen_for_change ids h = (h', Ok (Suspended tasks)) /\ host_ok h' /\
     Forall (waits_on h' ids) tasks /\ (forall k, k ∈ tasks.*2 <-> k ∈ dkeys ids) /\
     (forall k, k ∈ dkeys ids -> outdated h ids k = false)).
Proof.
  intros Hh. set (f := fun key => u ← updated_object_of h key; Ok (key, u)).
  destruct (mapM_r_ok f (outdated_keys h ids)) as [us Eus].
  { intros k Hk. apply list_elem_of_filter in Hk as [Ho _]. apply outdated_known in Ho.
    destruct (updated_object_ok h k Hh Ho) as [u Eu]. exists (k, u). unfold f. by rewrite Eu. }
  pose proof (mapM_r_Forall2 _ _ _ Eus) as HF.
  assert (Hof : forall k, k ∈ dkeys ids -> outdated h ids k = true ->
            exists x, (k, x) ∈ us /\ updated_object_of h k = Ok x).
  { intros k Hk Ho. assert (Hin : k ∈ outdated_keys h ids) by (by apply list_elem_of_filter).
    apply list_elem_of_lookup in Hin as [n Hn].
    destruct (Forall2_lookup_l _ _ _ n k HF Hn) as ([k' x] & Hx & Ef). unfold f in Ef.
    destruct (updated_object_of h k) as [y|]; cbn in Ef; [|discriminate]. injection Ef as <- <-.
    exists y. split; [by eapply list_elem_of_lookup_2 | done]. }
  unfold listen_for_change. fold f. rewrite Eus. destruct us as [|u0 us0] eqn:Ends.
  - right. cbn [length Nat.ltb Nat.leb].
    assert (Hno : forall k, k ∈ dkeys ids -> outdated h ids k = false).
    { intros k Hk. destruct (outdated h ids k) eqn:Eo; [|done].
      destruct (Hof k Hk Eo) as (x & Hx & _). by apply elem_of_nil in Hx. }
    pose proof (register_ok ids (dkeys ids) h [] Hh (Forall_nil_2 _)) as Hr.
    destruct (foldl register (h, []) (dkeys ids)) as [h' ts].
    destruct Hr as (H1 & H2 & H3); [by apply list.Forall_forall|].
    exists h', ts. split_and!; [done | done | done | | done]. intros k. rewrite H3. cbn [fmap list_fmap].
    rewrite elem_of_nil. tauto.
  - left. cbn [length Nat.ltb Nat.leb]. exists (u0 :: us0). split_and!; [done | done | | exact Hof].
    apply list.Forall_forall. intros [k u] Hin. apply list_elem_of_lookup in Hin as [n Hn].
    destruct (Forall2_lookup_r _ _ _ n (k, u) HF Hn) as (k' & Hk' & Ef). unfold f in Ef.
    destruct (updated_object_of h k') as [y|] eqn:Ey; cbn in Ef; [|discriminate]. injection Ef as <- <-.
    cbn. apply list_elem_of_lookup_2, list_elem_of_filter in Hk' as [_ Hin].
    split; [done | by apply view_current].
Qed.

Lemma polls_request c ids : polls c -> request c = Some ids ->
  ids = cl_snapshot_ids c /\ queued c = [] /\ _callbacks_processed_count c = 0%nat.
Proof.
  intros [(H1 & H2 & H3)|[(n & _ & H & _)|(_ & _ & H & _)]] Hr; [|congruence|congruence].
  split_and!; [congruence | done | done].
Qed.

Lemma step_ok s s' : system_ok s -> step s s' -> system_ok s'.
Proof.
  intros (Hh & Hk & Hf) Hs. destruct Hs; cbn [host client state] in *.
  - split_and!; [by apply notify_ok | |]; cbn [host client state].
    { eapply knows_frame; [|exact Hk]. intros *. apply view_notify. }
    destruct f as [|ts|[u| |]]; cbn [flight_ok] in *; [done | | |done|done].
    + destruct Hf as (H1 & H2 & H3 & H4). split_and!; [done | done | | done].
      eapply list.Forall_impl; [exact H3|]. intros t. by apply waits_notify.
    + destruct Hf as (H1 & H2 & H3 & H4). split_and!; [done | done | done|].
      eapply list.Forall_impl; [exact H4|]. intros t [? ?]. split; [done | by apply view_notify].
  - destruct (polls_request c ids Hf H) as (-> & Hq & Hc).
    destruct (listen_spec h (cl_snapshot_ids c) Hh) as [(u' & E & Hne & Hu & _)|(h1 & ts & E & _)];
      rewrite E in H0; [|discriminate]. injection H0 as <- <-.
    split_and!; [done | done|]. cbn [host client state flight_ok]. rewrite (proj1 Hk) in Hu. done.
  - destruct (polls_request c ids Hf H) as (-> & Hq & Hc).
    destruct (listen_spec h (cl_snapshot_ids c) Hh) as [(u' & E & _)|(h1 & ts & E & H1 & H2 & H3 & _)];
      rewrite E in H0; [discriminate|]. injection H0 as <- <-. apply listen_frame in E as [E1 E2].
    rewrite (proj1 Hk) in H3.
    split_and!; [done | | done]. eapply knows_frame; [|exact Hk]. intros *. by apply view_frame.
  - destruct (listen_spec h ids Hh) as [(u' & E & _)|(h1 & ts & E & _)]; congruence.
  - split_and!; [done | done|]. destruct Hf as (H2 & H3 & H4 & H5). unfold resume_listen in H1.
    destruct (updated_object_of h task.2) as [x|] eqn:Ex; cbn in H1; [|discriminate]. injection H1 as <-.
    split_and!; [done | done | done|]. cbn [client host]. constructor; [|constructor]. cbn [fst snd].
    split; [|by apply view_current].
    apply H5. apply list_elem_of_fmap. by exists task.
  - split_and!; [done | done|]. by destruct Hf as (H2 & H3 & _).
  - destruct (deliver_ok h c r Hk Hf) as (c1 & E & Hk1 & Hp1). rewrite E in H. injection H as <-. done.
  - destruct (callback_ok h c Hk Hf H). done.
Qed.

Lemma system_init_ok listeners loop c : init_client listeners loop = Ok c -> system_ok (mkSystem init_host c NotStarted).
Proof.
  unfold init_client. destruct (0 <? length listeners)%nat; cbn; [|discriminate]. intros [= <-].
  split_and!; [apply init_host_ok | | by left].
  split; [cbn; unfold dkeys; rewrite map_map; apply map_id|].
  intros k i Hi. left. apply dget_elem in Hi. apply list_elem_of_fmap in Hi as (k' & Hi & _). by injection Hi.
Qed.

Lemma reachable_ok listeners loop c s :
  init_client listeners loop = Ok c -> rtc step (mkSystem init_host c NotStarted) s -> system_ok s.
Proof.
  intros Hc Hr. apply system_init_ok in Hc. remember (mkSystem init_host c NotStarted) as s0. clear Heqs0.
  induction Hr; [done|]. eauto using step_ok.
Qed.

(** *** The calls of the callbacks *)

(** The calls so far, with the ones posted to the event loop *)
Definition callback_calls (c : LongPollClient) : list (K * Obj) := delivered c ++ (queued c).*1.

(** The argument of the latest call of a key's callback *)
Definition last_call (k : K) (l : list (K * Obj)) : option Obj :=
  foldl (fun latest ko => if decide (ko.1 = k) then Some ko.2 else latest) None l.

Definition update_calls (r : reply) : list (K * Obj) :=
  match r with
  | Updates u => map (fun ku => (ku.1, object_snapshot ku.2)) u
  | _ => []
  end.

(** Every object the client got was, or will be, the argument of a call. *)
Definition heard (c : LongPollClient) : Prop :=
  event_loop c <> Some false -> forall k, last_call k (callback_calls c) = dget k (cl_object_snapshots c).

Lemma last_call_snoc k l k' o :
  last_call k (l ++ [(k', o)]) = if decide (k' = k) then Some o else last_call k l.
Proof. unfold last_call. by rewrite foldl_app. Qed.

Lemma process_one_calls n c ku c' :
  process_one n c ku = Ok c' -> event_loop c <> Some false -> (event_loop c = None -> queued c = []) ->
  callback_calls c' = callback_calls c ++ [(ku.1, object_snapshot ku.2)] /\
  cl_object_snapshots c' = dset ku.1 (object_snapshot ku.2) (cl_object_snapshots c) /\
  event_loop c' = event_loop c /\ (event_loop c' = None -> queued c' = []).
Proof.
  destruct ku as [k u]. unfold process_one. cbn [key_listeners event_loop fst snd]. intros E Hl Hq.
  destruct (negb _); [discriminate|]. unfold callback_calls. destruct (event_loop c) as [[|]|] eqn:El; [| done |]; injection E as <-.
  - cbn. rewrite fmap_app, <- app_assoc. by split_and!.
  - specialize (Hq eq_refl). unfold chained, _on_callback_completed. cbn -[Nat.eqb]. rewrite Hq.
    destruct (_ =? _)%nat; cbn; rewrite !app_nil_r; by split_and!.
Qed.

Lemma process_updates_calls n u : forall c c',
  foldM (process_one n) c u = Ok c' -> event_loop c <> Some false -> (event_loop c = None -> queued c = []) ->
  (forall k, last_call k (callback_calls c) = dget k (cl_object_snapshots c)) ->
  callback_calls c' = callback_calls c ++ update_calls (Updates u) /\ event_loop c' = event_loop c /\
  (forall k, last_call k (callback_calls c') = dget k (cl_object_snapshots c')).
Proof.
  induction u as [|ku u IH]; intros c c' E Hl Hq Hh; cbn [foldM] in E.
  - injection E as <-. cbn. by rewrite app_nil_r.
  - destruct (process_one n c ku) as [c1|] eqn:E1; [|discriminate]. cbn in E.
    destruct (process_one_calls n c ku c1 E1 Hl Hq) as (Hc1 & Ho1 & Hl1 & Hq1).
    destruct (IH c1 c' E) as (Hc & Hl2 & Hh2); [by rewrite Hl1 | done | |].
    + intros k. rewrite Hc1, Ho1, last_call_snoc, dget_dset, Hh. repeat destruct (decide _); congruence.
    + split_and!; [|congruence | done]. rewrite Hc, Hc1, <- app_assoc. done.
Qed.

Lemma deliver_calls r c c' :
  _process_update r c = Ok c' -> queued c = [] -> heard c -> event_loop c <> Some false ->
  callback_calls c' = callback_calls c ++ update_calls r /\ event_loop c' = event_loop c /\ heard c'.
Proof.
  intros E Hq Hh Hl. destruct r as [u| |]; cbn [_process_update] in E.
  - destruct (process_updates_calls _ _ _ _ E Hl) as (H1 & H2 & H3);
      [done | exact (Hh Hl) | split_and!; [exact H1 | exact H2 | by intros _]].
  - injection E as <-. unfold heard, callback_calls in *. cbn. rewrite app_nil_r. split_and!; done.
  - injection E as <-. unfold heard, callback_calls in *. cbn. rewrite app_nil_r. split_and!; done.
Qed.

Lemma run_callback_calls c :
  callback_calls (run_callback c) = callback_calls c /\ cl_object_snapshots (run_callback c) = cl_object_snapshots c /\
  cl_snapshot_ids (run_callback c) = cl_snapshot_ids c /\ event_loop (run_callback c) = event_loop c /\
  key_listeners (run_callback c) = key_listeners c /\ queued (run_callback c) = tail (queued c).
Proof.
  unfold run_callback, callback_calls. destruct (queued c) as [|[[k o] t] rest] eqn:Eq; [by rewrite Eq|].
  unfold chained, _on_callback_completed. cbn -[Nat.eqb]. destruct (_ =? _)%nat; cbn; rewrite <- app_assoc; by split_and!.
Qed.

Lemma process_update_listeners r c c' :
  _process_update r c = Ok c' -> key_listeners c' = key_listeners c /\
    (event_loop c' = event_loop c).
Proof.
  assert (forall n u c c', foldM (process_one n) c u = Ok c' ->
            key_listeners c' = key_listeners c /\ event_loop c' = event_loop c) as Hf.
  { intros n u. induction u as [|[k x] u IH]; intros d d' E; cbn [foldM] in E; [by injection E as <-|].
    destruct (process_one n d (k, x)) as [d1|] eqn:E1; [|discriminate]. cbn in E.
    destruct (IH d1 d' E) as [-> ->]. unfold process_one in E1. cbn in E1. destruct (negb _); [discriminate|].
    destruct (event_loop d) as [[|]|] eqn:El; injection E1 as <-; [done .. |].
    unfold chained, _on_callback_completed. cbn -[Nat.eqb]. by destruct (_ =? _)%nat. }
  destruct r as [u| |]; cbn [_process_update]; [|by intros [= <-] ..].
  intros E. by destruct (Hf _ _ _ _ E).
Qed.

Lemma heard_step s s' : system_ok s -> heard (client s) -> step s s' -> heard (client s').
Proof.
  intros (_ & _ & Hf) Hh Hs. destruct Hs; cbn [client host state] in *; try done.
  - intros Hl. destruct (process_update_listeners _ _ _ H) as [_ El]. rewrite El in Hl.
    destruct Hf as (Hq & _). destruct (deliver_calls r c c' H Hq Hh Hl) as (_ & _ & Hh'). apply Hh'. by rewrite El.
  - destruct (run_callback_calls c) as (E1 & E2 & _ & E3 & _). unfold heard. by rewrite E1, E2, E3.
Qed.

Lemma init_heard listeners loop c : init_client listeners loop = Ok c -> heard c /\ event_loop c = loop /\ key_listeners c = listeners.
Proof. unfold init_client. destruct (0 <? length listeners)%nat; cbn; [|discriminate]. by intros [= <-]. Qed.

Lemma step_listeners s s' : step s s' ->
  key_listeners (client s') = key_listeners (client s) /\ event_loop (client s') = event_loop (client s).
Proof.
  intros Hs. destruct Hs; cbn [client]; try done; [by eapply process_update_listeners|].
  by destruct (run_callback_calls c) as (_ & _ & _ & -> & -> & _).
Qed.

Lemma reachable_heard listeners loop c s :
  init_client listeners loop = Ok c -> rtc step (mkSystem init_host c NotStarted) s ->
  system_ok s /\ heard (client s) /\ key_listeners (client s) = listeners /\ event_loop (client s) = loop.
Proof.
  intros Hc Hr. destruct (init_heard _ _ _ Hc) as (Hh & Hl & Hk). apply system_init_ok in Hc.
  remember (mkSystem init_host c NotStarted) as s0 eqn:E0.
  assert (heard (client s0) /\ key_listeners (client s0) = listeners /\ event_loop (client s0) = loop) as (H1 & H2 & H3)
    by (by subst s0). clear E0 Hh Hl Hk.
  induction Hr as [|x y z Hxy Hyz IH]; [done|]. destruct (step_listeners x y Hxy) as [E1 E2].
  apply IH; [by eapply step_ok | by eapply heard_step | congruence | congruence].
Qed.

(** A client that is up to date on a key called its callback with the host's object. *)
Lemma current_called s k i :
  system_ok s -> heard (client s) -> event_loop (client s) <> Some false ->
  dget k (cl_snapshot_ids (client s)) = Some i -> dget k (snapshot_ids (host s)) = Some i ->
  dget k (cl_object_snapshots (client s)) = dget k (object_snapshots (host s)) /\
  last_call k (callback_calls (client s)) = dget k (object_snapshots (host s)).
Proof.
  intros (Hh & [_ Hk] & _) Hd Hl Hci Hhi. rewrite (Hd Hl).
  destruct (Hk k i Hci) as [->|(o & Ho & j & Hj & Hij & Hv)].
  - destruct Hh as (_ & H1 & _). specialize (H1 k _ Hhi). lia.
  - rewrite Ho. assert (dget k (object_snapshots (host s)) = Some o) as -> by (apply Hv; congruence). done.
Qed.

(** *** Catching up

    A step in which the host publishes nothing new *)
Definition quiet (s s' : system) : Prop :=
  step s s' /\ snapshot_ids (host s') = snapshot_ids (host s) /\ object_snapshots (host s') = object_snapshots (host s).

(** The client has nothing to run, and its next poll is on the way. *)
Definition poll_ready (s : system) : Prop := state s = NotStarted /\ queued (client s) = [].

(** What a run of quiet steps keeps *)
Definition runs_to (s s' : system) : Prop :=
  rtc quiet s s' /\ system_ok s' /\ heard (client s') /\
  snapshot_ids (host s') = snapshot_ids (host s) /\ object_snapshots (host s') = object_snapshots (host s) /\
  key_listeners (client s') = key_listeners (client s) /\ event_loop (client s') = event_loop (client s).

Lemma runs_refl s : system_ok s -> heard (client s) -> runs_to s s.
Proof. intros. by split_and!. Qed.

Lemma runs_step s s1 s2 : system_ok s -> heard (client s) -> quiet s s1 ->
  (system_ok s1 -> heard (client s1) -> runs_to s1 s2) -> runs_to s s2.
Proof.
  intros Hok Hh Hq Hr. pose proof Hq as (Hs & E1 & E2). destruct (step_listeners _ _ Hs) as [E3 E4].
  destruct Hr as (R & H1 & H2 & H3 & H4 & H5 & H6); [by eapply step_ok | by eapply heard_step|].
  split_and!; [by eapply rtc_l | done | done | congruence ..].
Qed.

(** The callbacks of the event loop are run. *)
Lemma run_callbacks n : forall s, system_ok s -> heard (client s) -> state s = NotStarted ->
  length (queued (client s)) = n ->
  exists s', runs_to s s' /\ poll_ready s' /\ host s' = host s /\ cl_snapshot_ids (client s') = cl_snapshot_ids (client s).
Proof.
  induction n as [|n IH]; intros s Hok Hh Hst Hn.
  - exists s. split_and!; [by apply runs_refl | split; [done | by apply nil_length_inv] | done | done].
  - destruct s as [h c f]. cbn in Hst, Hn. subst f.
    destruct (run_callback_calls c) as (_ & _ & Eid & _ & _ & Eq).
    assert (quiet (mkSystem h c NotStarted) (mkSystem h (run_callback c) NotStarted)) as Hq.
    { split; [|done]. apply step_callback. by destruct (queued c). }
    destruct (IH (mkSystem h (run_callback c) NotStarted)) as (s' & Hr & Hre & E1 & E2);
      [exact (step_ok _ _ Hok (proj1 Hq)) | exact (heard_step _ _ Hok Hh (proj1 Hq)) | done | |].
    { cbn. rewrite Eq. destruct (queued c); [discriminate | by injection Hn]. }
    exists s'. split_and!; [by eapply runs_step | done | done |]. cbn in E2 |- *. congruence.
Qed.

(** A reply is processed, and its callbacks are run. *)
Lemma run_reply s r : system_ok s -> heard (client s) -> state s = Replied r ->
  exists c' s', _process_update r (client s) = Ok c' /\ runs_to s s' /\ poll_ready s' /\
    cl_snapshot_ids (client s') = cl_snapshot_ids c'.
Proof.
  intros Hok Hh Hst. destruct s as [h c f]. cbn in Hst. subst f. pose proof Hok as (_ & Hk & Hf).
  destruct (deliver_ok h c r Hk Hf) as (c' & E & _ & _).
  assert (quiet (mkSystem h c (Replied r)) (mkSystem h c' NotStarted)) as Hq by (split; [by apply step_deliver | done]).
  destruct (run_callbacks (length (queued c')) (mkSystem h c' NotStarted)) as (s' & Hr & Hre & _ & E2);
    [exact (step_ok _ _ Hok (proj1 Hq)) | exact (heard_step _ _ Hok Hh (proj1 Hq)) | done | done |].
  exists c', s'. split_and!; [done | by eapply runs_step | done | done].
Qed.

(** The poll that is under way comes back: with an update, or by its timeout. *)
Lemma run_to_ready s : system_ok s -> heard (client s) -> exists s', runs_to s s' /\ poll_ready s'.
Proof.
  intros Hok Hh. destruct (state s) as [|tasks|r] eqn:Est.
  - destruct (run_callbacks (length (queued (client s))) s Hok Hh Est eq_refl) as (s' & ? & ? & _). by exists s'.
  - destruct s as [h c f]. cbn in Est. subst f. pose proof Hok as (Hho & _ & _ & _ & Hw & _). cbn [host client] in *.
    assert (exists r, quiet (mkSystem h c (Blocked tasks)) (mkSystem h c (Replied r))) as [r Hq].
    { destruct (decide (Forall (fun t => task_done h t = false) tasks)) as [Hall|Hsome].
      { exists TaskError. split; [by apply step_timeout | done]. }
      apply not_Forall_Exists in Hsome; [|solve_decision]. apply list.Exists_exists in Hsome as (t & Ht & Hd).
      cbn in Hd. apply not_false_iff_true in Hd. apply list.Forall_forall with (x := t) in Hw; [|done].
      unfold waits_on, task_done in Hw, Hd. destruct Hw as [[_ Hs]|(Hf & _)]; [|by rewrite Hf in Hd].
      destruct (updated_object_ok h t.2 Hho Hs) as [u Eu].
      exists (Updates [(t.2, u)]). split; [|done]. apply step_wake with (task := t); [done | done |]. cbn. by rewrite Eu. }
    assert (system_ok (mkSystem h c (Replied r))) as Hok1 by (eapply step_ok; [exact Hok | apply Hq]).
    destruct (run_reply _ r Hok1 Hh eq_refl) as (_ & s' & _ & Hr & Hre & _).
    exists s'. split; [by eapply runs_step | done].
  - destruct (run_reply s r Hok Hh Est) as (_ & s' & _ & ? & ? & _). by exists s'.
Qed.

Lemma process_one_ids n c ku c' :
  process_one n c ku = Ok c' -> cl_snapshot_ids c' = dset ku.1 (snapshot_id ku.2) (cl_snapshot_ids c).
Proof.
  destruct ku as [k u]. unfold process_one. cbn [key_listeners event_loop fst snd].
  destruct (negb _); [discriminate|]. destruct (event_loop c) as [[|]|]; intros [= <-]; [done | done |].
  unfold chained, _on_callback_completed. cbn -[Nat.eqb]. by destruct (_ =? _)%nat.
Qed.

(** The client's snapshot id of a key after updates that agree on it *)
Lemma learned n i k u : forall c c', foldM (process_one n) c u = Ok c' ->
  (forall x, (k, x) ∈ u -> snapshot_id x = i) ->
  dget k (cl_snapshot_ids c) = Some i \/ k ∈ u.*1 -> dget k (cl_snapshot_ids c') = Some i.
Proof.
  induction u as [|[k' x] u IH]; intros c c' E Hu Hor; cbn [foldM] in E.
  - injection E as <-. destruct Hor as [?|H]; [done | by apply elem_of_nil in H].
  - destruct (process_one n c (k', x)) as [c1|] eqn:E1; [|discriminate]. cbn in E.
    apply process_one_ids in E1. cbn in E1. apply (IH c1 c' E); [intros y Hy; apply Hu; by right|].
    rewrite E1, dget_dset. destruct (decide _) as [<-|Hne]; [left; f_equal; apply Hu; left|].
    destruct Hor as [?|[Hk|?]%elem_of_cons]; [by left | by cbn in Hk | by right].
Qed.

Lemma answer_current ids h h' u :
  listen_for_change ids h = (h', Ok (Answer u)) -> forall k x, (k, x) ∈ u -> updated_object_of h k = Ok x.
Proof.
  unfold listen_for_change. intros E k x Hx. destruct (mapM_r _ _) as [us|] eqn:Em; [|discriminate].
  apply mapM_r_Forall2 in Em. destruct (0 <? length us)%nat; [injection E as <- <-|].
  2: { destruct (foldl register _ _). discriminate. }
  apply list_elem_of_lookup in Hx as [n Hn]. destruct (Forall2_lookup_r _ _ _ n _ Em Hn) as (k' & _ & Ef).
  destruct (updated_object_of h k') as [y|] eqn:Ey; cbn in Ef; [|discriminate]. by injection Ef as <- <-.
Qed.

(** A ready client is answered with everything it is outdated on. *)
Lemma run_ready s : system_ok s -> heard (client s) -> event_loop (client s) <> Some false -> poll_ready s ->
  exists s', runs_to s s' /\ queued (client s') = [] /\
    forall k, k ∈ key_listeners (client s') -> outdated (host s') (cl_snapshot_ids (client s')) k = false.
Proof.
  intros Hok Hh Hl [Hst Hq]. destruct s as [h c f]. cbn in Hst, Hq, Hl. subst f.
  pose proof Hok as (Hho & [Hd _] & Hp). cbn [host client state flight_ok] in *.
  assert (request c = Some (cl_snapshot_ids c)) as Hreq.
  { destruct Hp as [(_ & _ & H)|[(n & _ & _ & H & _)|(_ & _ & _ & H & _)]]; done. }
  destruct (listen_spec h (cl_snapshot_ids c) Hho) as [(u & E & _ & _ & Hall)|(h1 & ts & E & _ & _ & _ & Hno)].
  2: { exists (mkSystem h c NotStarted). split_and!; [by apply runs_refl | done|]. cbn. rewrite <- Hd. exact Hno. }
  assert (quiet (mkSystem h c NotStarted) (mkSystem h c (Replied (Updates u)))) as Hqu.
  { split; [by eapply step_answer | done]. }
  pose proof (step_ok _ _ Hok (proj1 Hqu)) as Hok1.
  destruct (run_reply _ (Updates u) Hok1 Hh eq_refl) as (c' & s' & Ep & Hr & [_ Hq'] & Eids).
  exists s'. split_and!; [by eapply runs_step | done|]. intros k Hk.
  destruct Hr as (_ & _ & _ & Hi & _ & Hks & _). cbn in Hi, Hks. rewrite Hks, <- Hd in Hk.
  unfold outdated. rewrite Hi, Eids. destruct (dget k (snapshot_ids h)) as [i|] eqn:Ei; [|done].
  rewrite bool_decide_true; [done|]. apply (learned _ i k _ _ _ Ep).
  - intros x Hx. pose proof (answer_current _ _ _ _ E k x Hx) as Hux. unfold updated_object_of, dgetitem in Hux.
    rewrite Ei in Hux. destruct (dget k (object_snapshots h)); [|discriminate]. by injection Hux as <-.
  - destruct (outdated h (cl_snapshot_ids c) k) eqn:Eo.
    + right. destruct (Hall k Hk Eo) as (x & Hx & _). apply list_elem_of_fmap. by exists (k, x).
    + left. unfold outdated in Eo. rewrite Ei in Eo. apply negb_false_iff, bool_decide_eq_true in Eo. done.
Qed.

Lemma run_catches_up s :
  system_ok s -> heard (client s) -> event_loop (client s) <> Some false ->
  exists s', rtc quiet s s' /\ forall k o, k ∈ key_listeners (client s) -> dget k (object_snapshots (host s)) = Some o ->
    last_call k (delivered (client s')) = Some o.
Proof.
  intros Hok Hh Hl. destruct (run_to_ready s Hok Hh) as (s1 & (R1 & Hok1 & Hh1 & Ei1 & Eo1 & Ek1 & El1) & Hre).
  destruct (run_ready s1 Hok1 Hh1) as (s2 & (R2 & Hok2 & Hh2 & Ei2 & Eo2 & Ek2 & El2) & Hq & Hcur); [congruence | done |].
  exists s2. split; [by etrans|]. intros k o Hk Ho. rewrite <- Ek1, <- Ek2 in Hk. rewrite <- Eo1, <- Eo2 in Ho.
  specialize (Hcur k Hk). pose proof Hok2 as (Hho & [Hd _] & _). destruct (proj2 (proj1 Hho k)) as [i Hi]; [by exists o|].
  unfold outdated in Hcur. rewrite Hi in Hcur. apply negb_false_iff, bool_decide_eq_true in Hcur.
  destruct (current_called s2 k i Hok2 Hh2) as [_ Hc]; [congruence | done | done |].
  unfold callback_calls in Hc. rewrite Hq in Hc. cbn in Hc. by rewrite app_nil_r, Ho in Hc.
Qed.

(** C13. Long poll clients hear of every change. In every interleaving of
    notifications, polls, timeouts and callbacks (the client without an event
    loop, or with one that runs):
    - a client whose snapshot id of a key is the host's has the host's object,
      and the latest call of the key's callback, made or posted to the loop,
      is with that object; with nothing posted, it was made;
    - processing a reply does not raise and calls, or posts, the callback of
      each updated key with its object, in the order of the reply, and nothing
      else;
    - while the client is outdated on a key, a blocked poll has an event that
      is set, and a poll the host has not seen is answered at once with that
      key's current object;
    - unless the host publishes something new, finitely many further steps
      lead to a state in which every callback whose key the host has an object
      for was last called with that object. *)
Theorem client_catches_up (listeners : list K) (loop : option bool) (c0 : LongPollClient) (s : system) :
  init_client listeners loop = Ok c0 -> loop <> Some false -> rtc step (mkSystem init_host c0 NotStarted) s ->
  (forall k i, dget k (cl_snapshot_ids (client s)) = Some i -> dget k (snapshot_ids (host s)) = Some i ->
     dget k (cl_object_snapshots (client s)) = dget k (object_snapshots (host s)) /\
     last_call k (callback_calls (client s)) = dget k (object_snapshots (host s)) /\
     (queued (client s) = [] -> last_call k (delivered (client s)) = dget k (object_snapshots (host s)))) /\
  (forall r, state s = Replied r -> exists c', _process_update r (client s) = Ok c' /\
     callback_calls c' = callback_calls (client s) ++ update_calls r /\ (is_Some (request c') \/ queued c' <> [])) /\
  (forall k, k ∈ listeners -> outdated (host s) (cl_snapshot_ids (client s)) k = true ->
     match state s with
     | Blocked tasks => exists task, task ∈ tasks /\ task_done (host s) task = true
     | NotStarted => forall ids, request (client s) = Some ids ->
         exists u x, listen_for_change ids (host s) = (host s, Ok (Answer u)) /\ (k, x) ∈ u /\
                     updated_object_of (host s) k = Ok x
     | Replied r => True
     end) /\
  (exists s', rtc quiet s s' /\ forall k o, k ∈ listeners -> dget k (object_snapshots (host s)) = Some o ->
     last_call k (delivered (client s')) = Some o).
Proof.
  intros Hc Hl Hr. destruct (reachable_heard _ _ _ _ Hc Hr) as (Hok & Hd & Hks & Hlo). rewrite <- Hlo in Hl.
  pose proof Hok as (Hh & Hk & Hf). split_and!.
  - intros k i Hci Hhi. destruct (current_called s k i Hok Hd Hl Hci Hhi) as [H1 H2]. split_and!; [done | done|].
    intros Hq. unfold callback_calls in H2. rewrite Hq in H2. cbn in H2. by rewrite app_nil_r in H2.
  - intros r Er. rewrite Er in Hf. destruct (deliver_ok _ _ _ Hk Hf) as (c' & E & _ & Hp). exists c'.
    destruct (deliver_calls r _ _ E (proj1 Hf) Hd Hl) as (H1 & H2 & _). split_and!; [done | done |].
    destruct Hp as [(_ & _ & ->)|[(n & _ & _ & Hq & _)|(_ & _ & _ & Hx & _)]]; [by left; eexists | by right | congruence].
  - intros k Hin Hout. rewrite <- Hks in Hin. destruct (state s) as [|tasks|r]; [| |done].
    + intros ids Hids. destruct (polls_request _ _ Hf Hids) as (-> & _). rewrite <- (proj1 Hk) in Hin.
      destruct (listen_spec _ (cl_snapshot_ids (client s)) Hh) as [(u & E & _ & _ & Hall)|(_ & _ & _ & _ & _ & _ & Hno)].
      * destruct (Hall k Hin Hout) as (x & Hx & Ex). eauto.
      * rewrite Hno in Hout by done. discriminate.
    + destruct Hf as (_ & _ & Hw & Htk). apply Htk in Hin.
      apply list_elem_of_fmap in Hin as (task & -> & Ht). exists task. split; [done|].
      apply list.Forall_forall with (x := task) in Hw; [|done].
      unfold task_done. destruct Hw as [[-> _]|(_ & _ & Hno)]; [done | congruence].
  - rewrite <- Hks. by apply run_catches_up.
Qed.

End LongPoll.
Arguments UpdatedObject : clear implicits.
Arguments LongPollHost : clear implicits.
Arguments LongPollClient : clear implicits.
Arguments listening : clear implicits.
Arguments reply : clear implicits.

(** *** A run: two notifications, the first before the client's poll *)

Definition ex_client : LongPollClient string nat :=
  mkClient ["a"; "b"] None [("a", -1); ("b", -1)]%Z [] 0 true (Some [("a", -1); ("b", -1)]%Z) [] [].
Definition ex_host : LongPollHost string nat := notify_changed 7 "a" 10%nat init_host.

Lemma client_catches_up_witness :
  (exists u x, listen_for_change [("a", -1); ("b", -1)]%Z ex_host = (ex_host, Ok (Answer u)) /\
               ("a", x) ∈ u /\ updated_object_of ex_host "a" = Ok x) /\
  exists s', rtc quiet (mkSystem ex_host ex_client NotStarted) s' /\ last_call "a" (delivered (client s')) = Some 10%nat.
Proof.
  destruct (client_catches_up ["a"; "b"] None ex_client (mkSystem ex_host ex_client NotStarted)) as (_ & _ & H & s' & Hr & Hs').
  - reflexivity.
  - discriminate.
  - apply rtc_once. by apply step_notify.
  - split; [apply (H "a"); [left | reflexivity | reflexivity]|]. exists s'. split; [exact Hr|]. apply Hs'; [left | reflexivity].
Defined.

End LongPoll.
