(* ===== verification/ServeVersion.v ===== *)
(** What the Serve controller compares and names: deployment versions
    ([serve/version.py], over [zlib.crc32]) and replica names
    ([serve/common.py]). *)

From Stdlib Require Import ZArith QArith Lqa Lia Ascii.
From stdpp Require Import base list strings option.
From S2P Require Import Prelude PyDict MlDict.

(** ** [zlib.crc32]

    The reflected CRC of the polynomial 0xEDB88320, on bytes in [0, 256). *)

Definition crc_bit (c : Z) : Z :=
  if Z.testbit c 0 then Z.lxor 0xEDB88320%Z (Z.shiftr c 1) else Z.shiftr c 1.

Definition crc_byte (c b : Z) : Z := Nat.iter 8 crc_bit (Z.lxor c b).

Definition crc32 (data : list Z) : Z := Z.lxor (foldl crc_byte 0xFFFFFFFF%Z data) 0xFFFFFFFF%Z.

Example crc32_check : crc32 (map Z.of_nat [49; 50; 51; 52; 53; 54; 55; 56; 57]%nat) = 0xCBF43926%Z.
Proof. reflexivity. Qed.

(** The CRC of a message is determined by the CRC of a prefix and the rest. *)
Lemma crc32_extend p q rest : crc32 p = crc32 q -> crc32 (p ++ rest) = crc32 (q ++ rest).
Proof.
  unfold crc32. rewrite !foldl_app. intros H.
  assert (E : foldl crc_byte 0xFFFFFFFF%Z p = foldl crc_byte 0xFFFFFFFF%Z q).
  { rewrite <- (Z.lxor_0_r (foldl _ _ p)), <- (Z.lxor_0_r (foldl _ _ q)).
    rewrite <- (Z.lxor_nilpotent 0xFFFFFFFF%Z), <- !Z.lxor_assoc. by rewrite H. }
  by rewrite E.
Qed.

(** [s.encode("utf-8")]: a string is the sequence of its bytes. *)
Fixpoint encode (s : string) : list Z :=
  match s with
  | EmptyString => []
  | String c s' => Z.of_nat (Ascii.nat_of_ascii c) :: encode s'
  end.

(** ** [DeploymentVersion]

    [Any] is the type of user configurations other than [None]; [pickle.dumps]
    and their [==] are parameters. *)

Class PyAny (Any : Type) := {
  pickle_dumps : option Any -> list Z;
  any_eqb : Any -> Any -> bool
}.

Section Version.
Context {Any : Type} {PA : PyAny Any}.

Record DeploymentVersion : Type := mkVersion {
  unversioned : bool;
  code_version : string;
  user_config : option Any;
  user_config_hash : Z;
  _hash : Z
}.

(** [letters] is what [get_random_letters()] returns. *)
Definition make_version (letters : string) (code : option string) (config : option Any) : DeploymentVersion :=
  let code_version := default letters code in
  let pickled_user_config := pickle_dumps config in
  mkVersion (bool_decide (code = None)) code_version config (crc32 pickled_user_config)
    (crc32 (pickled_user_config ++ encode code_version)).

(** [__eq__]: versions are equal when their hashes are. *)
Definition version_eqb (v w : DeploymentVersion) : bool := (_hash v =? _hash w)%Z.

(** [==] on [Optional[DeploymentVersion]] *)
Definition opt_version_eqb (v w : option DeploymentVersion) : bool :=
  match v, w with
  | Some v, Some w => version_eqb v w
  | None, None => true
  | _, _ => false
  end.

(** A version that [DeploymentVersion(...)] made *)
Definition version_ok (v : DeploymentVersion) : Prop :=
  user_config_hash v = crc32 (pickle_dumps (user_config v)) /\
  _hash v = crc32 (pickle_dumps (user_config v) ++ encode (code_version v)).

Lemma make_version_ok letters code config : version_ok (make_version letters code config).
Proof. done. Qed.

(** Versions that differ have another code version or another hash of the
    user config. *)
Lemma version_neq v w :
  version_ok v -> version_ok w -> version_eqb v w = false ->
  code_version v <> code_version w \/ user_config_hash v <> user_config_hash w.
Proof.
  intros [Hu Hh] [Hu' Hh'] Hne. apply Z.eqb_neq in Hne.
  destruct (decide (code_version v = code_version w)) as [Hc|]; [|by left].
  right. intros Hx. apply Hne. rewrite Hh, Hh', Hc. apply crc32_extend. congruence.
Qed.

(** The version of a replica after its user config is replaced *)
Lemma reconfigured_eqb letters v w :
  version_ok w -> code_version v = code_version w ->
  version_eqb (make_version letters (Some (code_version v)) (user_config w)) w = true.
Proof. intros [_ Hh] Hc. apply Z.eqb_eq. cbn. by rewrite Hh, Hc. Qed.

(** ** The replica's own version ([serve/replica.py])

    [reconfigure] of the replica's actor recomputes its version only when it
    is given a user config. *)
Definition replica_reconfigure (v : DeploymentVersion) (config : option Any) : DeploymentVersion :=
  match config with
  | None => v
  | Some _ => make_version "" (Some (code_version v)) config
  end.

End Version.
Arguments DeploymentVersion : clear implicits.

(** ** [ReplicaName] *)

Module ReplicaName.

Definition delimiter : string := "#".
Definition prefix : string := "SERVE_REPLICA::".

Record ReplicaName : Type := mkName {
  deployment_tag : string;
  replica_suffix : string;
  replica_tag : string
}.

Definition __init__ (deployment_tag replica_suffix : string) : ReplicaName :=
  mkName deployment_tag replica_suffix (deployment_tag +:+ delimiter +:+ replica_suffix).

(** [s.startswith(p)] *)
Definition is_replica_name (actor_name : string) : bool := String.prefix prefix actor_name.

(** [s.replace(old, new)] for a non-empty [old]: from the left, without
    overlaps; [skip] counts the characters of an occurrence just found. *)
Fixpoint replace_go (old new : string) (skip : nat) (s : string) : string :=
  match s with
  | EmptyString => ""
  | String c s' =>
      match skip with
      | S skip' => replace_go old new skip' s'
      | O => if String.prefix old s then new +:+ replace_go old new (String.length old - 1) s'
             else String c (replace_go old new 0 s')
      end
  end.

Definition from_str (actor_name : string) : result ReplicaName :=
  _ ← py_assert (is_replica_name actor_name);
  let replica_name := replace_go prefix "" 0 actor_name in
  parsed ← str_split delimiter replica_name;
  _ ← py_assert (length parsed =? 2)%nat;
  match parsed with
  | [tag; suffix] => Ok (__init__ tag suffix)
  | _ => Err AssertionError
  end.

(** The name of a replica's actor, [f"{ReplicaName.prefix}{format_actor_name(replica_tag)}"] *)
Definition format_actor_name (actor_name : string) (controller_name : option string) (modifiers : list string) : string :=
  let name := match controller_name with None => actor_name | Some c => c +:+ ":" +:+ actor_name end in
  foldl (fun name modifier => name +:+ "-" +:+ modifier) name modifiers.

Definition actor_name (replica_tag : string) : string := prefix +:+ format_actor_name replica_tag None [].

(** ** Facts about [replace] *)

Lemma index_cons c sub s :
  str_contains sub (String c s) = String.prefix sub (String c s) || str_contains sub s.
Proof.
  unfold str_contains. cbn [String.index]. destruct (String.prefix sub (String c s)); [done|].
  by destruct (String.index 0 sub s).
Qed.

Lemma replace_none old new s : str_contains old s = false -> replace_go old new 0 s = s.
Proof.
  induction s as [|c s IH]; [done|]. rewrite index_cons. intros H. apply orb_false_iff in H as [Hp Hs].
  cbn [replace_go]. by rewrite Hp, IH.
Qed.

Lemma replace_skip old new w rest :
  replace_go old new (String.length w) (w +:+ rest) = replace_go old new 0 rest.
Proof. induction w as [|c w IH]; [done|]. exact IH. Qed.

Lemma str_prefix_app a s : String.prefix a (a +:+ s) = true.
Proof.
  induction a as [|c a IH]; [by destruct s|]. change (String c a +:+ s) with (String c (a +:+ s)).
  cbn [String.prefix]. destruct (ascii_dec c c); [exact IH | done].
Qed.

Lemma replace_prefix c a new s :
  replace_go (String c a) new 0 (String c a +:+ s) = new +:+ replace_go (String c a) new 0 s.
Proof.
  change (String c a +:+ s) with (String c (a +:+ s)). cbn [replace_go].
  change (String c (a +:+ s)) with (String c a +:+ s). rewrite str_prefix_app.
  cbn [String.length Nat.sub]. rewrite Nat.sub_0_r. by rewrite replace_skip.
Qed.

(** A name that can be read back: neither part has the delimiter, and the tag
    does not contain the prefix. *)
Definition readable (tag suffix : string) : Prop :=
  str_contains delimiter tag = false /\ str_contains delimiter suffix = false /\
  str_contains prefix (replica_tag (__init__ tag suffix)) = false.

Lemma from_str_ok (tag suffix : string) :
  readable tag suffix -> from_str (actor_name (replica_tag (__init__ tag suffix))) = Ok (__init__ tag suffix).
Proof.
  intros (Ht & Hs & Hp). unfold from_str, actor_name, format_actor_name, is_replica_name. cbn [foldl].
  rewrite str_prefix_app. cbn [py_assert mbind result_bind].
  assert (E : replace_go prefix "" 0 (prefix +:+ replica_tag (__init__ tag suffix)) = replica_tag (__init__ tag suffix)).
  { unfold prefix at 1 2. rewrite replace_prefix. fold prefix. by apply replace_none. }
  rewrite E. unfold delimiter in *. rewrite str_contains_char, negb_false_iff in Ht, Hs.
  change (replica_tag (__init__ tag suffix)) with (join "#" [tag; suffix]).
  rewrite split_join; [reflexivity | done | repeat (apply Forall_cons_2; [done|]); constructor].
Qed.

(** The controller finds the deployment of a replica again from the name of
    its actor; with the delimiter in the deployment's name it does not. *)
Theorem from_str_actor_name (tag suffix : string) :
  readable tag suffix -> from_str (actor_name (replica_tag (__init__ tag suffix))) = Ok (__init__ tag suffix).
Proof. apply from_str_ok. Qed.

Lemma from_str_actor_name_witness :
  from_str "SERVE_REPLICA::model#krcwoa" = Ok (__init__ "model" "krcwoa").
Proof. apply (from_str_actor_name "model" "krcwoa"). split; [|split]; reflexivity. Defined.

(** The delimiter in a deployment's name makes the name unreadable. *)
Theorem delimiter_in_tag_unreadable (a b suffix : string) :
  str_contains delimiter a = false -> str_contains delimiter b = false -> str_contains delimiter suffix = false ->
  str_contains prefix (replica_tag (__init__ (a +:+ delimiter +:+ b) suffix)) = false ->
  from_str (actor_name (replica_tag (__init__ (a +:+ delimiter +:+ b) suffix))) = Err AssertionError.
Proof.
  intros Ha Hb Hs Hp. unfold from_str, actor_name, format_actor_name, is_replica_name. cbn [foldl].
  rewrite str_prefix_app. cbn [py_assert mbind result_bind].
  set (t := replica_tag _) in *.
  assert (E : replace_go prefix "" 0 (prefix +:+ t) = t).
  { unfold prefix at 1 2. rewrite replace_prefix. fold prefix. by apply replace_none. }
  rewrite E. unfold t, delimiter in *. rewrite str_contains_char, negb_false_iff in Ha, Hb, Hs.
  replace (replica_tag (__init__ (a +:+ "#" +:+ b) suffix)) with (join "#" [a; b; suffix]).
  - rewrite split_join; [reflexivity | done | repeat (apply Forall_cons_2; [done|]); constructor].
  - change (join "#" [a; b; suffix]) with (a +:+ "#" +:+ b +:+ "#" +:+ suffix).
    change (replica_tag (__init__ (a +:+ "#" +:+ b) suffix)) with ((a +:+ "#" +:+ b) +:+ "#" +:+ suffix).
    by rewrite !app_string_assoc.
Qed.

End ReplicaName.
