(* ===== verification/ServeReplica.v ===== *)
(** The replicas of a Serve deployment ([serve/deployment_state.py]): the
    wrapper of a replica's actor, the replica's state machine and the container
    that holds the replicas of a deployment by state. *)

From Stdlib Require Import ZArith QArith Lqa Lia.
From stdpp Require Import base list strings option.
From S2P Require Import Prelude PyDict ServeVersion ServeAutoscaling Hoare.

(** ** States *)

Inductive ReplicaState : Type := STARTING | UPDATING | RECOVERING | RUNNING | STOPPING.

Inductive ReplicaStartupStatus : Type :=
| PENDING_ALLOCATION | PENDING_INITIALIZATION | STARTUP_SUCCEEDED | STARTUP_FAILED.

#[global] Instance ReplicaState_eq_dec : EqDecision ReplicaState.
Proof. solve_decision. Defined.
#[global] Instance ReplicaStartupStatus_eq_dec : EqDecision ReplicaStartupStatus.
Proof. solve_decision. Defined.

Definition ALL_REPLICA_STATES : list ReplicaState := [STARTING; UPDATING; RECOVERING; RUNNING; STOPPING].

(** [RunningReplicaInfo]: the handle is a Python object, compared by identity.
    The controller, which never compares infos, has the actor's name here; a
    router has handles of its own ([Router]). *)
Record RunningReplicaInfo (Handle : Type) : Type := mkRunning {
  ri_deployment_name : string;
  ri_replica_tag : string;
  ri_actor_handle : option Handle;
  ri_max_concurrent_queries : option Z
}.
Arguments mkRunning {Handle}.
Arguments ri_deployment_name {Handle}.
Arguments ri_replica_tag {Handle}.
Arguments ri_actor_handle {Handle}.
Arguments ri_max_concurrent_queries {Handle}.

(** ** Configurations *)

Section Replica.
Context {Any : Type} {PA : PyAny Any}.

(** [DeploymentConfig] after its validators *)
Record DeploymentConfig : Type := mkDeploymentConfig {
  num_replicas : Z;
  max_concurrent_queries : Z;
  dc_user_config : option Any;
  graceful_shutdown_wait_loop_s : Q;
  graceful_shutdown_timeout_s : Q;
  autoscaling_config : option BasicAutoscalingPolicy.AutoscalingConfig
}.

(** The attributes of [ReplicaConfig] that the controller reads *)
Record ReplicaConfig : Type := mkReplicaConfig {
  func_or_class_name : string;
  resource_dict : dict string Q
}.

(** [autoscaling_policy] is a reference: shallow copies of a [DeploymentInfo]
    share the policy object. *)
Record DeploymentInfo : Type := mkInfo {
  deployment_config : DeploymentConfig;
  replica_config : ReplicaConfig;
  start_time_ms : Z;
  di_actor_name : option string;
  serialized_deployment_def : option (list Z);
  di_version : option string;
  deployer_job_id : option string;
  end_time_ms : option Z;
  autoscaling_policy : option nat
}.

Definition set_start_time (t : Z) (i : DeploymentInfo) : DeploymentInfo :=
  mkInfo (deployment_config i) (replica_config i) t (di_actor_name i) (serialized_deployment_def i)
    (di_version i) (deployer_job_id i) (end_time_ms i) (autoscaling_policy i).

Definition set_end_time (t : Z) (i : DeploymentInfo) : DeploymentInfo :=
  mkInfo (deployment_config i) (replica_config i) (start_time_ms i) (di_actor_name i)
    (serialized_deployment_def i) (di_version i) (deployer_job_id i) (Some t) (autoscaling_policy i).

(** ** Ray and the clock

    What the calls into Ray, the clock and the random number generators
    answer: the [n]-th such call of the controller gets the answer at [n], so
    any behaviour of the cluster over time is an instance.
    [ray_ready n a] is the outcome of [a]'s last [reconfigure] or
    [get_metadata] call: not there yet, an exception, or the replica's
    [max_concurrent_queries], [graceful_shutdown_timeout_s] and version. *)
Record Ray : Type := mkRay {
  time_ : nat -> Q;
  random_letters : nat -> string;
  uuid4 : nat -> Z;
  randint : nat -> Z;
  get_actor : nat -> string -> bool;
  get_placement_group : nat -> string -> bool;
  ray_allocated : nat -> string -> bool;
  ray_ready : nat -> string -> option (option (Z * Q * DeploymentVersion Any));
  ray_shutdown_done : nat -> string -> bool;
  ray_run_forever_done : nat -> string -> bool;
  use_placement_group : bool
}.

(** The calls that change something in the cluster, in order *)
Inductive command : Type :=
| CreatePlacementGroup (actor : string)
| StartActor (actor : string) (v : DeploymentVersion Any)
| Reconfigure (actor : string) (config : option Any)
| GetMetadata (actor : string)
| PrepareForShutdown (actor : string)
| KillActor (actor : string)
| RemovePlacementGroup (actor : string).

(** How many calls were made so far, and the commands among them *)
Record World : Type := mkWorld { calls : nat; log : list command }.

Definition tick : ST World nat := fun w => (mkWorld (S (calls w)) (log w), Ok (calls w)).
Definition command_ (c : command) : ST World unit := st_modify (fun w => mkWorld (calls w) (log w ++ [c])).

Variable ray : Ray.

Definition ask {A} (f : Ray -> nat -> A) : ST World A := n ← tick; mret (f ray n).

(** ** [ActorReplicaWrapper]

    Object refs and handles are recorded by whether they are set; the methods
    return the wrapper as they leave it. *)
Record ActorReplicaWrapper : Type := mkWrapper {
  _actor_name : string;
  _start_refs : bool;            (* [_allocated_obj_ref] and [_ready_obj_ref] *)
  _actor_resources : option (dict string Q);
  _max_concurrent_queries : option Z;
  _graceful_shutdown_timeout_s : Q;
  _health_check_ref : bool;
  _actor_handle : bool;
  _placement_group : bool;
  _graceful_shutdown_ref : bool
}.

Definition new_wrapper (actor_name : string) : ActorReplicaWrapper :=
  mkWrapper actor_name false None None 0 false false false false.

(** [actor_handle]: looks the actor up when there is no handle yet. *)
Definition wrapper_actor_handle (a : ActorReplicaWrapper) : ST World ActorReplicaWrapper :=
  if _actor_handle a then mret a
  else found ← ask (fun r n => get_actor r n (_actor_name a));
       mret (mkWrapper (_actor_name a) (_start_refs a) (_actor_resources a) (_max_concurrent_queries a)
               (_graceful_shutdown_timeout_s a) (_health_check_ref a) found (_placement_group a)
               (_graceful_shutdown_ref a)).

(** [actor_def] asserts that the class can be rebuilt. *)
Definition actor_def (info : DeploymentInfo) : result unit :=
  _ ← py_assert (bool_decide (is_Some (di_actor_name info)));
  py_assert (bool_decide (is_Some (serialized_deployment_def info))).

Definition wrapper_start (info : DeploymentInfo) (v : DeploymentVersion Any) (a : ActorReplicaWrapper) :
  ST World ActorReplicaWrapper :=
  pg ← (if use_placement_group ray
        then if _placement_group a then mret true
             else _ ← command_ (CreatePlacementGroup (_actor_name a)); mret true
        else mret (_placement_group a));
  _ ← st_lift (actor_def info);
  _ ← command_ (StartActor (_actor_name a) v);
  _ ← command_ (Reconfigure (_actor_name a) (dc_user_config (deployment_config info)));
  mret (mkWrapper (_actor_name a) true (Some (resource_dict (replica_config info)))
          (Some (max_concurrent_queries (deployment_config info)))
          (graceful_shutdown_timeout_s (deployment_config info)) (_health_check_ref a) true pg
          (_graceful_shutdown_ref a)).

Definition wrapper_update_user_config (config : option Any) (a : ActorReplicaWrapper) :
  ST World ActorReplicaWrapper :=
  if _actor_handle a
  then _ ← command_ (Reconfigure (_actor_name a) config);
       mret (mkWrapper (_actor_name a) true (_actor_resources a) (_max_concurrent_queries a)
               (_graceful_shutdown_timeout_s a) (_health_check_ref a) true (_placement_group a)
               (_graceful_shutdown_ref a))
  else st_raise AttributeError.

Definition wrapper_recover (a : ActorReplicaWrapper) : ST World ActorReplicaWrapper :=
  a ← wrapper_actor_handle a;
  pg ← (if use_placement_group ray
        then if _placement_group a then mret true
             else ask (fun r n => get_placement_group r n (_actor_name a))
        else mret (_placement_group a));
  if _actor_handle a
  then _ ← command_ (GetMetadata (_actor_name a));
       mret (mkWrapper (_actor_name a) true (_actor_resources a) (_max_concurrent_queries a)
               (_graceful_shutdown_timeout_s a) (_health_check_ref a) true pg (_graceful_shutdown_ref a))
  else st_raise AttributeError.

Definition check_ready (a : ActorReplicaWrapper) :
  ST World (ActorReplicaWrapper * ReplicaStartupStatus * option (DeploymentVersion Any)) :=
  if negb (_start_refs a) then st_raise TypeError
  else
    allocated ← ask (fun r n => ray_allocated r n (_actor_name a));
    if negb allocated then mret (a, PENDING_ALLOCATION, None)
    else
      ready ← ask (fun r n => ray_ready r n (_actor_name a));
      match ready with
      | None => mret (a, PENDING_INITIALIZATION, None)
      | Some None => mret (a, STARTUP_FAILED, None)
      | Some (Some (max_queries, timeout_s, version)) =>
          mret (mkWrapper (_actor_name a) (_start_refs a) (_actor_resources a) (Some max_queries) timeout_s
                  (_health_check_ref a) (_actor_handle a) (_placement_group a) (_graceful_shutdown_ref a),
                STARTUP_SUCCEEDED, Some version)
      end.

Definition graceful_stop (a : ActorReplicaWrapper) : ST World (ActorReplicaWrapper * Q) :=
  found ← ask (fun r n => get_actor r n (_actor_name a));
  if (found : bool)
  then _ ← command_ (PrepareForShutdown (_actor_name a));
       mret (mkWrapper (_actor_name a) (_start_refs a) (_actor_resources a) (_max_concurrent_queries a)
               (_graceful_shutdown_timeout_s a) (_health_check_ref a) (_actor_handle a) (_placement_group a) true,
             _graceful_shutdown_timeout_s a)
  else mret (a, _graceful_shutdown_timeout_s a).

Definition wrapper_check_stopped (a : ActorReplicaWrapper) : ST World bool :=
  found ← ask (fun r n => get_actor r n (_actor_name a));
  if negb found then mret true
  else if negb (_graceful_shutdown_ref a) then st_raise TypeError
  else
    stopped ← ask (fun r n => ray_shutdown_done r n (_actor_name a));
    _ ← (if (stopped : bool) then command_ (KillActor (_actor_name a)) else mret tt);
    mret stopped.

Definition wrapper_check_health (a : ActorReplicaWrapper) : ST World (ActorReplicaWrapper * bool) :=
  if negb (_health_check_ref a || _actor_handle a) then st_raise AttributeError
  else
    ready ← ask (fun r n => ray_run_forever_done r n (_actor_name a));
    mret (mkWrapper (_actor_name a) (_start_refs a) (_actor_resources a) (_max_concurrent_queries a)
            (_graceful_shutdown_timeout_s a) true (_actor_handle a) (_placement_group a)
            (_graceful_shutdown_ref a), negb ready).

Definition force_stop (a : ActorReplicaWrapper) : ST World unit :=
  found ← ask (fun r n => get_actor r n (_actor_name a));
  if (found : bool) then command_ (KillActor (_actor_name a)) else mret tt.

Definition cleanup (a : ActorReplicaWrapper) : ST World unit :=
  if negb (use_placement_group ray) then mret tt
  else if _placement_group a then command_ (RemovePlacementGroup (_actor_name a)) else mret tt.

(** ** [DeploymentReplica] *)

Record DeploymentReplica : Type := mkReplica {
  _actor : ActorReplicaWrapper;
  _replica_tag : string;
  _deployment_name : string;
  _version : option (DeploymentVersion Any);
  _start_time : option Q;
  _prev_slow_startup_warning_time : option Q;
  _shutdown_deadline : option Q
}.

Definition new_replica (replica_tag deployment_name : string) (v : option (DeploymentVersion Any)) :
  DeploymentReplica :=
  mkReplica (new_wrapper (ReplicaName.actor_name replica_tag)) replica_tag deployment_name v None None None.


Definition get_running_replica_info (r : DeploymentReplica) : ST World (DeploymentReplica * RunningReplicaInfo string) :=
  a ← wrapper_actor_handle (_actor r);
  mret (mkReplica a (_replica_tag r) (_deployment_name r) (_version r) (_start_time r)
          (_prev_slow_startup_warning_time r) (_shutdown_deadline r),
        mkRunning (_deployment_name r) (_replica_tag r)
          (if _actor_handle a then Some (_actor_name a) else None) (_max_concurrent_queries a)).

Definition start (info : DeploymentInfo) (v : DeploymentVersion Any) (r : DeploymentReplica) :
  ST World DeploymentReplica :=
  a ← wrapper_start info v (_actor r);
  start_time ← ask time_;
  warning_time ← ask time_;
  mret (mkReplica a (_replica_tag r) (_deployment_name r) (Some v) (Some start_time) (Some warning_time)
          (_shutdown_deadline r)).

Definition update_user_config (config : option Any) (r : DeploymentReplica) : ST World DeploymentReplica :=
  a ← wrapper_update_user_config config (_actor r);
  v ← st_lift (or_raise AttributeError (_version r));
  mret (mkReplica a (_replica_tag r) (_deployment_name r)
          (Some (make_version "" (Some (code_version v)) config)) (_start_time r)
          (_prev_slow_startup_warning_time r) (_shutdown_deadline r)).

Definition recover (r : DeploymentReplica) : ST World DeploymentReplica :=
  a ← wrapper_recover (_actor r);
  start_time ← ask time_;
  mret (mkReplica a (_replica_tag r) (_deployment_name r) (_version r) (Some start_time)
          (_prev_slow_startup_warning_time r) (_shutdown_deadline r)).

Definition check_started (r : DeploymentReplica) : ST World (DeploymentReplica * ReplicaStartupStatus) :=
  '(a, status, version) ← check_ready (_actor r);
  let v := if decide (status = STARTUP_SUCCEEDED)
           then match version with Some _ => version | None => _version r end
           else _version r in
  mret (mkReplica a (_replica_tag r) (_deployment_name r) v (_start_time r)
          (_prev_slow_startup_warning_time r) (_shutdown_deadline r), status).

Definition stop (graceful : bool) (r : DeploymentReplica) : ST World DeploymentReplica :=
  '(a, timeout_s) ← graceful_stop (_actor r);
  let timeout_s := if graceful then timeout_s else 0%Q in
  now ← ask time_;
  mret (mkReplica a (_replica_tag r) (_deployment_name r) (_version r) (_start_time r)
          (_prev_slow_startup_warning_time r) (Some (now + timeout_s)%Q)).

Definition check_stopped (r : DeploymentReplica) : ST World bool :=
  stopped ← wrapper_check_stopped (_actor r);
  if (stopped : bool) then _ ← cleanup (_actor r); mret true
  else
    now ← ask time_;
    deadline ← st_lift (or_raise AttributeError (_shutdown_deadline r));
    _ ← (if Qlt_bool deadline now then force_stop (_actor r) else mret tt);
    mret false.

Definition check_health (r : DeploymentReplica) : ST World (DeploymentReplica * bool) :=
  '(a, healthy) ← wrapper_check_health (_actor r);
  mret (mkReplica a (_replica_tag r) (_deployment_name r) (_version r) (_start_time r)
          (_prev_slow_startup_warning_time r) (_shutdown_deadline r), healthy).

(** ** [ReplicaStateContainer]

    [_replicas] is a [defaultdict(list)]: a state with no entry has no
    replicas. *)
Record ReplicaStateContainer : Type := mkContainer { _replicas : dict ReplicaState (list DeploymentReplica) }.

Definition empty_container : ReplicaStateContainer := mkContainer [].

Definition replicas_in (st : ReplicaState) (c : ReplicaStateContainer) : list DeploymentReplica :=
  dget_or st [] (_replicas c).

Definition set_replicas (st : ReplicaState) (l : list DeploymentReplica) (c : ReplicaStateContainer) :
  ReplicaStateContainer := mkContainer (dset st l (_replicas c)).

Definition add (st : ReplicaState) (r : DeploymentReplica) (c : ReplicaStateContainer) : ReplicaStateContainer :=
  set_replicas st (replicas_in st c ++ [r]) c.

Definition get (states : list ReplicaState) (c : ReplicaStateContainer) : list DeploymentReplica :=
  mjoin (map (fun st => replicas_in st c) states).

(** [exclude_version is not None and replica.version == exclude_version] *)
Definition excluded (exclude_version : option (DeploymentVersion Any)) (r : DeploymentReplica) : bool :=
  match exclude_version with
  | None => false
  | Some v => opt_version_eqb (_version r) (Some v)
  end.

(** The inner loop of [pop]: [n] replicas were popped before; [max_replicas]
    is [None] for infinity. *)
Fixpoint pop_loop (exclude_version : option (DeploymentVersion Any)) (max_replicas : option Z) (n : Z)
    (l : list DeploymentReplica) : list DeploymentReplica * list DeploymentReplica :=
  match l with
  | [] => ([], [])
  | r :: l' =>
      if bool_decide (max_replicas = Some n) || excluded exclude_version r
      then let '(popped, remaining) := pop_loop exclude_version max_replicas n l' in (popped, r :: remaining)
      else let '(popped, remaining) := pop_loop exclude_version max_replicas (n + 1) l' in (r :: popped, remaining)
  end.

Fixpoint pop_states (exclude_version : option (DeploymentVersion Any)) (max_replicas : option Z)
    (replicas : list DeploymentReplica) (states : list ReplicaState) (c : ReplicaStateContainer) :
  list DeploymentReplica * ReplicaStateContainer :=
  match states with
  | [] => (replicas, c)
  | st :: states' =>
      let '(popped, remaining) :=
        pop_loop exclude_version max_replicas (Z.of_nat (length replicas)) (replicas_in st c) in
      pop_states exclude_version max_replicas (replicas ++ popped) states' (set_replicas st remaining c)
  end.

Definition pop (exclude_version : option (DeploymentVersion Any)) (states : list ReplicaState)
    (max_replicas : option Z) (c : ReplicaStateContainer) : list DeploymentReplica * ReplicaStateContainer :=
  pop_states exclude_version max_replicas [] states c.

Definition count (exclude_version version : option (DeploymentVersion Any)) (states : list ReplicaState)
    (c : ReplicaStateContainer) : result Z :=
  match exclude_version, version with
  | None, None => Ok (Zsum (map (fun st => Z.of_nat (length (replicas_in st c))) states))
  | None, Some v =>
      Ok (Zsum (map (fun st => Z.of_nat (length
            (filter (fun r => opt_version_eqb (_version r) (Some v) = true) (replicas_in st c)))) states))
  | Some v, None =>
      Ok (Zsum (map (fun st => Z.of_nat (length
            (filter (fun r => opt_version_eqb (_version r) (Some v) = false) (replicas_in st c)))) states))
  | Some _, Some _ => Err ValueError
  end.

End Replica.
Arguments DeploymentConfig : clear implicits.
Arguments DeploymentInfo : clear implicits.
Arguments Ray : clear implicits.
Arguments command : clear implicits.
Arguments World : clear implicits.
Arguments DeploymentReplica : clear implicits.
Arguments ReplicaStateContainer : clear implicits.
