(* ===== verification/DeploymentState.v ===== *)
(** One Serve deployment ([DeploymentState] of [serve/deployment_state.py]):
    its target state, the goal a client waits on, its replicas, and the
    control loop's [update]. *)

From Stdlib Require Import ZArith QArith Lqa Lia.
From stdpp Require Import base list strings option.
From S2P Require Import Prelude PyDict ServeVersion ServeAutoscaling Hoare AsyncGoals LongPoll ServeReplica.
Import AsyncGoals LongPoll.

Inductive GoalStatus : Type := NONE | PENDING | SUCCEEDED | SUCCESSFULLY_DELETED | FAILED.

#[global] Instance GoalStatus_eq_dec : EqDecision GoalStatus.
Proof. solve_decision. Defined.

Definition SLOW_STARTUP_WARNING_S : Q := 30.
Definition SLOW_STARTUP_WARNING_PERIOD_S : Q := 30.
Definition MAX_DEPLOYMENT_CONSTRUCTOR_RETRY_COUNT : Z := 100.

(** The keys and the objects of the controller's long poll host *)
Inductive lp_key : Type := RUNNING_REPLICAS (deployment : string) | ROUTE_TABLE.
#[global] Instance lp_key_eq_dec : EqDecision lp_key.
Proof. solve_decision. Defined.

Record EndpointInfo : Type := mkEndpoint { route : option string }.
#[global] Instance EndpointInfo_eq_dec : EqDecision EndpointInfo.
Proof. solve_decision. Defined.

Inductive lp_obj : Type :=
| ReplicasObj (l : list (RunningReplicaInfo string))
| RoutesObj (l : dict string EndpointInfo).

(** [==] on [AutoscalingConfig] and [DeploymentConfig], pydantic models *)
Definition autoscaling_config_eqb (a b : BasicAutoscalingPolicy.AutoscalingConfig) : bool :=
  (BasicAutoscalingPolicy.min_replicas a =? BasicAutoscalingPolicy.min_replicas b)%Z &&
  (BasicAutoscalingPolicy.max_replicas a =? BasicAutoscalingPolicy.max_replicas b)%Z &&
  (BasicAutoscalingPolicy.target_num_ongoing_requests_per_replica a =?
     BasicAutoscalingPolicy.target_num_ongoing_requests_per_replica b)%Z &&
  Qeq_bool (BasicAutoscalingPolicy.metrics_interval_s a) (BasicAutoscalingPolicy.metrics_interval_s b) &&
  Qeq_bool (BasicAutoscalingPolicy.look_back_period_s a) (BasicAutoscalingPolicy.look_back_period_s b) &&
  Qeq_bool (BasicAutoscalingPolicy.smoothing_factor a) (BasicAutoscalingPolicy.smoothing_factor b) &&
  Qeq_bool (BasicAutoscalingPolicy.downscale_delay_s a) (BasicAutoscalingPolicy.downscale_delay_s b) &&
  Qeq_bool (BasicAutoscalingPolicy.upscale_delay_s a) (BasicAutoscalingPolicy.upscale_delay_s b).

Definition option_eqb {A} (eqb : A -> A -> bool) (x y : option A) : bool :=
  match x, y with Some a, Some b => eqb a b | None, None => true | _, _ => false end.

Section DeploymentState.
Context {Any : Type} {PA : PyAny Any} {KV : Type}.

Definition config_eqb (a b : DeploymentConfig Any) : bool :=
  (num_replicas a =? num_replicas b)%Z &&
  (max_concurrent_queries a =? max_concurrent_queries b)%Z &&
  option_eqb any_eqb (dc_user_config a) (dc_user_config b) &&
  Qeq_bool (graceful_shutdown_wait_loop_s a) (graceful_shutdown_wait_loop_s b) &&
  Qeq_bool (graceful_shutdown_timeout_s a) (graceful_shutdown_timeout_s b) &&
  option_eqb autoscaling_config_eqb (autoscaling_config a) (autoscaling_config b).

Record DeploymentState : Type := mkState {
  _name : string;
  _target_info : option (DeploymentInfo Any);
  _rollback_info : option (DeploymentInfo Any);
  _target_replicas : Z;
  _curr_goal : option Z;
  _target_version : option (DeploymentVersion Any);
  _prev_startup_warning : Q;
  _replica_constructor_retry_counter : Z;
  ds_replicas : ReplicaStateContainer Any
}.

Definition set_target (info : option (DeploymentInfo Any)) (n : Z) (v : option (DeploymentVersion Any))
  (s : DeploymentState) : DeploymentState :=
  mkState (_name s) info (_rollback_info s) n (_curr_goal s) v (_prev_startup_warning s)
    (_replica_constructor_retry_counter s) (ds_replicas s).
Definition set_rollback (i : option (DeploymentInfo Any)) (s : DeploymentState) : DeploymentState :=
  mkState (_name s) (_target_info s) i (_target_replicas s) (_curr_goal s) (_target_version s)
    (_prev_startup_warning s) (_replica_constructor_retry_counter s) (ds_replicas s).
Definition set_goal (g : option Z) (s : DeploymentState) : DeploymentState :=
  mkState (_name s) (_target_info s) (_rollback_info s) (_target_replicas s) g (_target_version s)
    (_prev_startup_warning s) (_replica_constructor_retry_counter s) (ds_replicas s).
Definition set_warning (t : Q) (s : DeploymentState) : DeploymentState :=
  mkState (_name s) (_target_info s) (_rollback_info s) (_target_replicas s) (_curr_goal s) (_target_version s)
    t (_replica_constructor_retry_counter s) (ds_replicas s).
Definition set_retries (n : Z) (s : DeploymentState) : DeploymentState :=
  mkState (_name s) (_target_info s) (_rollback_info s) (_target_replicas s) (_curr_goal s) (_target_version s)
    (_prev_startup_warning s) n (ds_replicas s).
Definition set_container (c : ReplicaStateContainer Any) (s : DeploymentState) : DeploymentState :=
  mkState (_name s) (_target_info s) (_rollback_info s) (_target_replicas s) (_curr_goal s) (_target_version s)
    (_prev_startup_warning s) (_replica_constructor_retry_counter s) c.

(** [now] is what [time.time()] returns. *)
Definition init_state (name : string) (now : Q) : DeploymentState :=
  mkState name None None (-1) None None now 0 empty_container.

(** The deployment and the objects it shares with the controller: the goal
    manager, the long poll host, the key-value store and the cluster *)
Record Ctx : Type := mkCtx {
  self : DeploymentState;
  goals : AsyncGoalManager;
  poll : LongPollHost lp_key lp_obj;
  kv : KV;
  world : World Any
}.

Definition set_self (s : DeploymentState) (c : Ctx) : Ctx := mkCtx s (goals c) (poll c) (kv c) (world c).
Definition set_goals (g : AsyncGoalManager) (c : Ctx) : Ctx := mkCtx (self c) g (poll c) (kv c) (world c).
Definition set_poll (p : LongPollHost lp_key lp_obj) (c : Ctx) : Ctx := mkCtx (self c) (goals c) p (kv c) (world c).
Definition set_kv (k : KV) (c : Ctx) : Ctx := mkCtx (self c) (goals c) (poll c) k (world c).
Definition set_world (w : World Any) (c : Ctx) : Ctx := mkCtx (self c) (goals c) (poll c) (kv c) w.

Definition on_world {A} (m : ST (World Any) A) : ST Ctx A := st_zoom world set_world m.
Definition on_goals {A} (m : ST AsyncGoalManager A) : ST Ctx A := st_zoom goals set_goals m.
Definition the {A} (f : DeploymentState -> A) : ST Ctx A := st_gets (fun c => f (self c)).
Definition change (f : DeploymentState -> DeploymentState) : ST Ctx unit :=
  st_modify (fun c => set_self (f (self c)) c).

Definition target_state : Type := option (DeploymentInfo Any) * Z * option (DeploymentVersion Any).

Variable ray : Ray Any.

(** The manager's callback: writes a checkpoint in which this deployment's
    target state is the given one. *)
Variable _save_checkpoint_func : target_state -> KV -> KV.

(** ** Checkpoints *)

Definition get_target_state_checkpoint_data (s : DeploymentState) : target_state :=
  (_target_info s, _target_replicas s, _target_version s).

Definition get_checkpoint_data (s : DeploymentState) : target_state := get_target_state_checkpoint_data s.

Definition save_checkpoint : ST Ctx unit :=
  data ← the get_checkpoint_data;
  st_modify (fun c => set_kv (_save_checkpoint_func data (kv c)) c).

Definition recover_target_state_from_checkpoint (t : target_state) (s : DeploymentState) : DeploymentState :=
  let '(info, n, v) := t in set_target info n v s.

Definition add_replica (st : ReplicaState) (r : DeploymentReplica Any) : ST Ctx unit :=
  change (fun s => set_container (add st r (ds_replicas s)) s).

Definition recover_replica (name : string) : ST Ctx unit :=
  rn ← st_lift (ReplicaName.from_str name);
  r ← on_world (recover ray (new_replica (ReplicaName.replica_tag rn) (ReplicaName.deployment_tag rn) None));
  add_replica RECOVERING r.

Definition recover_current_state_from_replica_actor_names (names : list string) : ST Ctx unit :=
  s ← the (fun s => s);
  _ ← st_lift (py_assert (bool_decide (is_Some (_target_info s)) && negb (_target_replicas s =? -1)%Z
                          && bool_decide (is_Some (_target_version s))));
  st_for names recover_replica.

(** ** Running replicas *)

(** The handles are looked up, and kept, as the infos are built. *)
Definition running_info_step (acc : list (DeploymentReplica Any) * list (RunningReplicaInfo string))
    (r : DeploymentReplica Any) : ST Ctx (list (DeploymentReplica Any) * list (RunningReplicaInfo string)) :=
  '(r, info) ← on_world (get_running_replica_info ray r);
  mret (acc.1 ++ [r], acc.2 ++ [info]).

Definition get_running_replica_infos : ST Ctx (list (RunningReplicaInfo string)) :=
  running ← the (fun s => get [RUNNING] (ds_replicas s));
  '(rs, infos) ← st_fold running_info_step ([], []) running;
  _ ← change (fun s => set_container (set_replicas RUNNING rs (ds_replicas s)) s);
  mret infos.

Definition _notify_running_replicas_changed : ST Ctx unit :=
  infos ← get_running_replica_infos;
  name ← the _name;
  known ← st_gets (fun c => dmem (RUNNING_REPLICAS name) (snapshot_ids (poll c)));
  r ← (if (known : bool) then mret 0%Z else on_world (ask ray randint));
  st_modify (fun c => set_poll (notify_changed r (RUNNING_REPLICAS name) (ReplicasObj infos) (poll c)) c).

(** ** Goals *)

(** [get_random_letters()] is called when the version has no code version. *)
Definition new_version (code : option string) (config : option Any) : ST Ctx (DeploymentVersion Any) :=
  letters ← (match code with Some _ => mret ""%string | None => on_world (ask ray random_letters) end);
  mret (make_version letters code config).

Definition _set_deployment_goal (deployment_info : option (DeploymentInfo Any)) : ST Ctx (Z * option Z) :=
  existing_goal_id ← the _curr_goal;
  fresh ← on_world (ask ray uuid4);
  new_goal_id ← on_goals (create_goal fresh None);
  _ ← (match deployment_info with
       | Some info =>
           v ← new_version (di_version info) (dc_user_config (deployment_config info));
           change (set_target (Some info) (num_replicas (deployment_config info)) (Some v))
       | None => change (fun s => set_target (_target_info s) 0 (_target_version s) s)
       end);
  _ ← change (set_goal (Some new_goal_id));
  mret (new_goal_id, existing_goal_id).

Definition complete (g : option Z) (e : option exception_value) : ST Ctx unit :=
  match g with
  | Some g => on_goals (complete_goal g e)
  | None => mret tt
  end.

(** The idempotence test of [deploy] *)
Definition same_deployment (existing info : DeploymentInfo Any) : bool :=
  config_eqb (deployment_config existing) (deployment_config info) &&
  bool_decide (di_version info <> None) && bool_decide (di_version existing = di_version info).

Definition deploy (deployment_info : DeploymentInfo Any) : ST Ctx (option Z * bool) :=
  existing_info ← the _target_info;
  let info := match existing_info with
              | Some e => set_start_time (start_time_ms e) deployment_info
              | None => deployment_info
              end in
  if match existing_info with Some e => same_deployment e info | None => false end
  then g ← the _curr_goal; mret (g, false)
  else
    _ ← change (fun s => set_rollback (_target_info s) s);
    _ ← change (set_retries 0);
    '(new_goal_id, existing_goal_id) ← _set_deployment_goal (Some info);
    _ ← save_checkpoint;
    _ ← complete existing_goal_id None;
    mret (Some new_goal_id, true).

Definition delete : ST Ctx Z :=
  '(new_goal_id, existing_goal_id) ← _set_deployment_goal None;
  _ ← save_checkpoint;
  _ ← complete existing_goal_id None;
  mret new_goal_id.

(** ** Rolling updates *)

Definition count_ (exclude_version version : option (DeploymentVersion Any)) (states : list ReplicaState) : ST Ctx Z :=
  c ← the ds_replicas; st_lift (count exclude_version version states c).

Definition pop_ (exclude_version : option (DeploymentVersion Any)) (states : list ReplicaState)
    (max_replicas : option Z) : ST Ctx (list (DeploymentReplica Any)) :=
  c ← the ds_replicas;
  let '(popped, c') := pop exclude_version states max_replicas c in
  _ ← change (set_container c');
  mret popped.

(** [int(0.2 * n)], the rollout size before it is raised to 1 *)
Definition rollout_size (target_replicas : Z) : Z := Z.max (int_of_Q ((2 # 10) * inject_Z target_replicas)) 1.

Definition update_replica (target : DeploymentVersion Any) (stopped : bool) (r : DeploymentReplica Any) : ST Ctx bool :=
  v ← st_lift (or_raise AttributeError (_version r));
  if negb (bool_decide (code_version v = code_version target))
  then r' ← on_world (stop ray true r);
       _ ← add_replica STOPPING r'; mret true
  else if negb (user_config_hash v =? user_config_hash target)%Z
  then r' ← on_world (update_user_config (user_config target) r);
       _ ← add_replica UPDATING r'; mret stopped
  else st_raise AssertionError.

Definition _stop_wrong_version_replicas : ST Ctx bool :=
  s ← the (fun s => s);
  let target_replicas := _target_replicas s in
  let target_version := _target_version s in
  if (target_replicas =? 0)%Z then mret false
  else
    old_running_replicas ← count_ target_version None [STARTING; UPDATING; RUNNING];
    old_stopping_replicas ← count_ target_version None [STOPPING];
    new_running_replicas ← count_ None target_version [RUNNING];
    if (target_replicas <? old_running_replicas + old_stopping_replicas)%Z then mret false
    else
      let pending_replicas := (target_replicas - new_running_replicas - old_running_replicas)%Z in
      let max_to_stop := Z.max (rollout_size target_replicas - pending_replicas) 0 in
      replicas_to_update ← pop_ target_version [STARTING; RUNNING] (Some max_to_stop);
      st_fold (fun stopped r =>
        target ← st_lift (or_raise AttributeError target_version);
        update_replica target stopped r) false replicas_to_update.

(** ** Scaling *)

Definition start_replica (_ : nat) : ST Ctx unit :=
  s ← the (fun s => s);
  letters ← on_world (ask ray random_letters);
  let replica_name := ReplicaName.__init__ (_name s) letters in
  info ← st_lift (or_raise AttributeError (_target_info s));
  v ← st_lift (or_raise AttributeError (_target_version s));
  r ← on_world (start ray info v
        (new_replica (ReplicaName.replica_tag replica_name) (ReplicaName.deployment_tag replica_name)
           (_target_version s)));
  add_replica STARTING r.

Definition stop_replica (graceful : bool) (r : DeploymentReplica Any) : ST Ctx unit :=
  r' ← on_world (stop ray graceful r);
  add_replica STOPPING r'.

Definition _scale_deployment_replicas : ST Ctx bool :=
  target_replicas ← the _target_replicas;
  _ ← st_lift (py_assert (0 <=? target_replicas)%Z);
  replicas_stopped ← _stop_wrong_version_replicas;
  current_replicas ← count_ None None [STARTING; UPDATING; RUNNING];
  recovering_replicas ← count_ None None [RECOVERING];
  let delta_replicas := (target_replicas - current_replicas - recovering_replicas)%Z in
  if (delta_replicas =? 0)%Z then mret false
  else if (0 <? delta_replicas)%Z then
    stopping_replicas ← count_ None None [STOPPING];
    let to_add := Z.max (delta_replicas - stopping_replicas) 0 in
    _ ← st_for (seq 0 (Z.to_nat to_add)) start_replica;
    mret replicas_stopped
  else
    let to_remove := (- delta_replicas)%Z in
    replicas_to_stop ← pop_ None [STARTING; UPDATING; RECOVERING; RUNNING] (Some to_remove);
    _ ← st_for replicas_to_stop (stop_replica true);
    mret true.

(** ** The state of the current goal *)

Definition _check_curr_goal_status : ST Ctx GoalStatus :=
  s ← the (fun s => s);
  match _curr_goal s with
  | None => mret NONE
  | Some _ =>
      let target_version := _target_version s in
      let target_replica_count := _target_replicas s in
      all_running_replica_cnt ← count_ None None [RUNNING];
      running_at_target_version_replica_cnt ← count_ None target_version [RUNNING];
      let failed_to_start_count := _replica_constructor_retry_counter s in
      let failed_to_start_threshold := Z.min MAX_DEPLOYMENT_CONSTRUCTOR_RETRY_COUNT (target_replica_count * 3) in
      let over := ((failed_to_start_threshold <=? failed_to_start_count)%Z &&
                   negb (failed_to_start_threshold =? 0)%Z)%bool in
      if over && (running_at_target_version_replica_cnt <=? 0)%Z then mret FAILED
      else
        _ ← (if over then change (set_retries (-1)) else mret tt);
        pending ← count_ None None [STARTING; UPDATING; RECOVERING; STOPPING];
        if (pending =? 0)%Z then
          if ((target_replica_count =? 0) && (all_running_replica_cnt =? 0))%Z then mret SUCCESSFULLY_DELETED
          else if (target_replica_count =? running_at_target_version_replica_cnt)%Z then mret SUCCEEDED
          else mret PENDING
        else mret PENDING
  end.

(** ** The replicas' own transitions *)

Definition check_startup_replica (original_state : ReplicaState) (stop_on_slow : bool)
    (acc : list (DeploymentReplica Any * ReplicaStartupStatus) * bool) (r : DeploymentReplica Any) :
  ST Ctx (list (DeploymentReplica Any * ReplicaStartupStatus) * bool) :=
  let '(slow_replicas, transitioned_to_running) := acc in
  '(r, start_status) ← on_world (check_started ray r);
  match start_status with
  | STARTUP_SUCCEEDED => _ ← add_replica RUNNING r; mret (slow_replicas, true)
  | STARTUP_FAILED =>
      _ ← change (fun s => if (0 <=? _replica_constructor_retry_counter s)%Z
                           then set_retries (_replica_constructor_retry_counter s + 1) s else s);
      _ ← stop_replica false r;
      mret (slow_replicas, transitioned_to_running)
  | PENDING_ALLOCATION | PENDING_INITIALIZATION =>
      now ← on_world (ask ray time_);
      start_time ← st_lift (or_raise TypeError (_start_time r));
      let is_slow := Qlt_bool SLOW_STARTUP_WARNING_S (now - start_time) in
      let slow_replicas := if is_slow then slow_replicas ++ [(r, start_status)] else slow_replicas in
      _ ← (if is_slow && stop_on_slow then stop_replica false r else add_replica original_state r);
      mret (slow_replicas, transitioned_to_running)
  end.

Definition _check_startup_replicas (original_state : ReplicaState) (stop_on_slow : bool) :
  ST Ctx (list (DeploymentReplica Any * ReplicaStartupStatus) * bool) :=
  popped ← pop_ None [original_state] None;
  st_fold (check_startup_replica original_state stop_on_slow) ([], false) popped.

Definition check_running_replica (changed : bool) (r : DeploymentReplica Any) : ST Ctx bool :=
  '(r, healthy) ← on_world (check_health ray r);
  if (healthy : bool) then _ ← add_replica RUNNING r; mret changed
  else _ ← stop_replica false r; mret true.

Definition check_stopping_replica (r : DeploymentReplica Any) : ST Ctx unit :=
  stopped ← on_world (check_stopped ray r);
  if (stopped : bool) then mret tt else add_replica STOPPING r.

(** The warnings about slow replicas are logs; the time of the last one is kept. *)
Definition warn_slow_replicas (slow : list (DeploymentReplica Any * ReplicaStartupStatus)) : ST Ctx unit :=
  if (length slow =? 0)%nat then mret tt
  else
    now ← on_world (ask ray time_);
    prev ← the _prev_startup_warning;
    if Qlt_bool SLOW_STARTUP_WARNING_PERIOD_S (now - prev)
    then t ← on_world (ask ray time_); change (set_warning t)
    else mret tt.

Definition _check_and_update_replicas : ST Ctx bool :=
  running ← pop_ None [RUNNING] None;
  running_replicas_changed ← st_fold check_running_replica false running;
  '(slow_start, starting_to_running) ← _check_startup_replicas STARTING false;
  '(slow_update, updating_to_running) ← _check_startup_replicas UPDATING false;
  '(slow_recover, recovering_to_running) ← _check_startup_replicas RECOVERING true;
  let running_replicas_changed :=
    running_replicas_changed || starting_to_running || updating_to_running || recovering_to_running in
  _ ← warn_slow_replicas (slow_start ++ slow_update ++ slow_recover);
  stopping ← pop_ None [STOPPING] None;
  _ ← st_for stopping check_stopping_replica;
  mret running_replicas_changed.

(** ** The control loop's step *)

Definition delete_message (name : string) : string :=
  "Deployment '" +:+ name +:+ "' failed, deleting it asynchronously.".
Definition rollback_message (name : string) (v : option string) : string :=
  "Deployment '" +:+ name +:+ "' failed, rolling back to version " +:+ default "None" v +:+ " asynchronously.".

Definition finish_goal (status : GoalStatus) : ST Ctx unit :=
  s ← the (fun s => s);
  match status with
  | SUCCEEDED =>
      _ ← complete (_curr_goal s) None;
      change (set_rollback None)
  | FAILED =>
      match _rollback_info s with
      | None =>
          _ ← complete (_curr_goal s) (Some (RuntimeError, delete_message (_name s)));
          _ ← delete; mret tt
      | Some rollback_info =>
          _ ← complete (_curr_goal s) (Some (RuntimeError, rollback_message (_name s) (di_version rollback_info)));
          _ ← change (set_goal None);
          _ ← change (set_rollback None);
          _ ← deploy rollback_info; mret tt
      end
  | SUCCESSFULLY_DELETED => complete (_curr_goal s) None
  | _ => mret tt
  end.

Definition update : ST Ctx bool :=
  changed1 ← _scale_deployment_replicas;
  changed2 ← _check_and_update_replicas;
  _ ← (if (changed1 : bool) || changed2 then _notify_running_replicas_changed else mret tt);
  status ← _check_curr_goal_status;
  _ ← finish_goal status;
  mret (bool_decide (status = SUCCESSFULLY_DELETED)).

End DeploymentState.
Arguments DeploymentState : clear implicits.
Arguments Ctx : clear implicits.
Arguments target_state : clear implicits.
