(* ===== verification/DeploymentSafety.v ===== *)
(** What a step of the control loop does to a deployment's replicas, whatever
    the cluster answers: no exception, no replica lost or duplicated, never
    more replicas than the target asks for, and a bounded rollout. *)

From Stdlib Require Import ZArith QArith Lqa Lia.
From stdpp Require Import base list strings option gmultiset.
From S2P Require Import Prelude PyDict ServeVersion ServeAutoscaling Hoare AsyncGoals LongPoll.
From S2P Require Import ServeReplica DeploymentState.
Import AsyncGoals LongPoll.

(** ** The container *)

Section Container.
Context {Any : Type} {PA : PyAny Any}.
Implicit Types (c : ReplicaStateContainer Any) (ex : option (DeploymentVersion Any)) (r : DeploymentReplica Any)
  (l p acc new rem : list (DeploymentReplica Any)).

Lemma replicas_in_set st st' l c :
  replicas_in st (set_replicas st' l c) = if decide (st = st') then l else replicas_in st c.
Proof.
  unfold replicas_in, set_replicas. cbn [_replicas]. rewrite dget_or_dset.
  destruct (decide (st' = st)), (decide (st = st')); congruence.
Qed.

Lemma replicas_in_add st st' r c :
  replicas_in st (add st' r c) = if decide (st = st') then replicas_in st c ++ [r] else replicas_in st c.
Proof. unfold add. rewrite replicas_in_set. by destruct (decide _) as [->|]. Qed.

(** [pop_loop] splits the list, popping at most what [max_replicas] leaves. *)
Lemma pop_loop_spec ex mx n l p rem :
  pop_loop ex mx n l = (p, rem) ->
  l ≡ₚ p ++ rem /\ Forall (fun r => excluded ex r = false) p /\
  (forall m, mx = Some m -> (n <= m)%Z -> (n + Z.of_nat (length p) <= m)%Z) /\
  (forall r, r ∈ rem -> excluded ex r = true \/ mx = Some (n + Z.of_nat (length p))%Z).
Proof.
  revert n p rem. induction l as [|r l IH]; intros n p rem H; cbn in H.
  - injection H as <- <-. split_and!; [done | constructor | intros; cbn; lia|].
    intros r Hr. by apply elem_of_nil in Hr.
  - destruct (bool_decide (mx = Some n) || excluded ex r) eqn:E.
    + destruct (pop_loop ex mx n l) as [p' rem'] eqn:Ep. injection H as <- <-.
      destruct (IH n p' rem' Ep) as (H1 & H2 & H3 & H4).
      split_and!; [rewrite H1; by rewrite Permutation_middle | done | done|].
      intros r' [->|Hr]%elem_of_cons; [|by apply H4].
      apply orb_true_iff in E as [E|E]; [|by left]. apply bool_decide_eq_true in E.
      right. specialize (H3 n E ltac:(lia)). rewrite E. f_equal. lia.
    + apply orb_false_iff in E as [E1 E2]. apply bool_decide_eq_false in E1.
      destruct (pop_loop ex mx (n + 1) l) as [p' rem'] eqn:Ep. injection H as <- <-.
      destruct (IH (n + 1)%Z p' rem' Ep) as (H1 & H2 & H3 & H4). cbn [length]. split_and!.
      * by rewrite H1.
      * by constructor.
      * intros m Em Hm. assert (n <> m) by congruence. specialize (H3 m Em ltac:(lia)). lia.
      * intros r' Hr. destruct (H4 r' Hr) as [?|Hm]; [by left | right]. rewrite Hm. f_equal. lia.
Qed.

(** The replicas of a container, all of them *)
Definition all c : list (DeploymentReplica Any) := get ALL_REPLICA_STATES c.

Definition tags_of (l : list (DeploymentReplica Any)) : gmultiset string :=
  list_to_set_disj (map _replica_tag l).

Lemma tags_of_app l1 l2 : tags_of (l1 ++ l2) = tags_of l1 ⊎ tags_of l2.
Proof. unfold tags_of. by rewrite map_app, list_to_set_disj_app. Qed.

Lemma tags_of_perm l1 l2 : l1 ≡ₚ l2 -> tags_of l1 = tags_of l2.
Proof. intros H. unfold tags_of. apply list_to_set_disj_perm. by rewrite H. Qed.

Lemma tags_of_cons r l : tags_of (r :: l) = {[+ _replica_tag r +]} ⊎ tags_of l.
Proof. done. Qed.

Lemma tags_of_nil : tags_of [] = ∅.
Proof. done. Qed.

Definition tags c : gmultiset string := tags_of (all c).

Lemma tags_all c :
  tags c = tags_of (replicas_in STARTING c) ⊎ tags_of (replicas_in UPDATING c) ⊎
           tags_of (replicas_in RECOVERING c) ⊎ tags_of (replicas_in RUNNING c) ⊎
           tags_of (replicas_in STOPPING c).
Proof.
  unfold tags, all, get, ALL_REPLICA_STATES. cbn [map mjoin list_join].
  rewrite !tags_of_app, app_nil_r || rewrite !tags_of_app. multiset_solver.
Qed.

Lemma tags_set st l c : tags (set_replicas st l c) ⊎ tags_of (replicas_in st c) = tags c ⊎ tags_of l.
Proof. rewrite !tags_all, !replicas_in_set. destruct st; cbn; multiset_solver. Qed.

Lemma tags_add st r c : tags (add st r c) = tags c ⊎ {[+ _replica_tag r +]}.
Proof.
  pose proof (tags_set st (replicas_in st c ++ [r]) c) as H. unfold add.
  rewrite tags_of_app, tags_of_cons, tags_of_nil in H. multiset_solver.
Qed.

(** What [pop] takes from the states, and leaves *)
Lemma pop_states_spec ex mx states : forall acc c p c',
  NoDup states -> pop_states ex mx acc states c = (p, c') ->
  exists new, p = acc ++ new /\ tags c = tags c' ⊎ tags_of new /\
    (forall st, st ∉ states -> replicas_in st c' = replicas_in st c) /\
    (forall st r, r ∈ replicas_in st c' -> r ∈ replicas_in st c) /\
    (forall r, r ∈ new -> excluded ex r = false /\ exists st, st ∈ states /\ r ∈ replicas_in st c) /\
    (forall m, mx = Some m -> (Z.of_nat (length acc) <= m)%Z -> (Z.of_nat (length p) <= m)%Z).
Proof.
  induction states as [|st states IH]; intros acc c p c' Hnd H; cbn [pop_states] in H.
  - injection H as <- <-. exists []. rewrite app_nil_r, tags_of_nil.
    split_and!; [done | multiset_solver | done | done | | done]. intros r Hr. by apply elem_of_nil in Hr.
  - apply list.NoDup_cons in Hnd as [Hst Hnd].
    destruct (pop_loop ex mx (Z.of_nat (length acc)) (replicas_in st c)) as [p1 rem] eqn:Ep.
    destruct (pop_loop_spec _ _ _ _ _ _ Ep) as (HP & Hex & Hmx & _).
    destruct (IH _ _ _ _ Hnd H) as (new & -> & Ht & H1 & H2 & H3 & H4).
    exists (p1 ++ new). rewrite <- app_assoc. split_and!.
    + done.
    + pose proof (tags_set st rem c) as Hs. rewrite (tags_of_perm _ _ HP), tags_of_app in Hs.
      rewrite tags_of_app. multiset_solver.
    + intros st' Hn. rewrite not_elem_of_cons in Hn. destruct Hn as [Hn1 Hn2].
      rewrite H1, replicas_in_set by done. by rewrite decide_False.
    + intros st' r Hr. apply H2 in Hr. rewrite replicas_in_set in Hr. destruct (decide _) as [->|]; [|done].
      rewrite HP. apply elem_of_app. by right.
    + intros r [Hr|Hr]%elem_of_app.
      * split; [by apply (proj1 (list.Forall_forall _ _) Hex)|]. exists st. split; [left|].
        rewrite HP. apply elem_of_app. by left.
      * destruct (H3 r Hr) as (He & st' & Hst' & Hin). split; [done|]. exists st'. split; [by right|].
        rewrite replicas_in_set in Hin. destruct (decide _) as [->|]; [|done].
        rewrite HP. apply elem_of_app. by right.
    + intros m Em Hm. rewrite app_assoc. apply H4; [done|]. rewrite length_app, Nat2Z.inj_add. auto.
Qed.

(** Without a version to exclude and without a maximum, [pop] empties its states. *)
Lemma pop_loop_all n l : pop_loop (Any := Any) None None n l = (l, []).
Proof.
  revert n. induction l as [|r l IH]; intros n; cbn [pop_loop]; [done|].
  rewrite bool_decide_false by done. cbn [orb excluded]. by rewrite IH.
Qed.

Lemma pop_all st c : pop None [st] None c = (replicas_in st c, set_replicas st [] c).
Proof. unfold pop. cbn [pop_states]. by rewrite pop_loop_all. Qed.

(** [count] without versions *)
Definition n_replicas c : Z := Z.of_nat (length (all c)).

Lemma count_plain states c : count None None states c = Ok (Z.of_nat (length (get states c))).
Proof.
  unfold count, get. f_equal. induction states as [|st states IH]; [done|].
  cbn [map]. rewrite Zsum_cons, IH. simpl. rewrite length_app. lia.
Qed.

Lemma size_list_to_set_disj (l : list string) : size (list_to_set_disj l : gmultiset string) = length l.
Proof.
  induction l as [|t l IH]; [done|]. cbn [length].
  change (list_to_set_disj (t :: l)) with ({[+ t +]} ⊎ list_to_set_disj l : gmultiset string).
  by rewrite gmultiset_size_disj_union, gmultiset_size_singleton, IH.
Qed.

Lemma n_replicas_tags c : n_replicas c = Z.of_nat (size (tags c)).
Proof. unfold n_replicas, tags, tags_of. by rewrite size_list_to_set_disj, length_map. Qed.

End Container.

(** ** The replicas' operations *)

Section Replicas.
Context {Any : Type} {PA : PyAny Any}.
Variable ray : Ray Any.

(** What the controller relies on: the versions that replicas report were made
    by [DeploymentVersion(...)], and an actor that [ray.get_actor] no longer
    finds does not come back under its name. *)
Record cluster_ok : Prop := {
  reported_version_ok : forall n a q t v, ray_ready ray n a = Some (Some (q, t, v)) -> version_ok v;
  gone_stays_gone : forall n m a, (n <= m)%nat -> get_actor ray n a = false -> get_actor ray m a = false
}.

Implicit Types (r : DeploymentReplica Any) (w : World Any).

Definition named r : Prop := _actor_name (_actor r) = ReplicaName.actor_name (_replica_tag r).

(** A replica whose actor was started or recovered *)
Definition live r : Prop :=
  named r /\ _start_refs (_actor r) = true /\ _actor_handle (_actor r) = true /\ is_Some (_start_time r).

Definition versioned r : Prop := exists v, _version r = Some v /\ version_ok v.

(** A replica that was told to stop before call [n] *)
Definition stopping (n : nat) r : Prop :=
  named r /\ is_Some (_shutdown_deadline r) /\
  (_graceful_shutdown_ref (_actor r) = true \/
   exists m, (m < n)%nat /\ get_actor ray m (_actor_name (_actor r)) = false).

Definition replica_ok (n : nat) (st : ReplicaState) r : Prop :=
  match st with
  | STARTING | UPDATING | RUNNING => live r /\ versioned r
  | RECOVERING => live r
  | STOPPING => stopping n r
  end.

(** Before call [n] the cluster confirmed that the replica's actor is gone or
    has shut down. *)
Definition confirmed (n : nat) (tag : string) : Prop :=
  exists m, (m < n)%nat /\ (get_actor ray m (ReplicaName.actor_name tag) = false \/
                            ray_shutdown_done ray m (ReplicaName.actor_name tag) = true).

Lemma stopping_mono n m r : (n <= m)%nat -> stopping n r -> stopping m r.
Proof. intros H (Hn & Hd & [?|(k & Hk & Hg)]); split_and!; eauto. right. exists k. split; [lia | done]. Qed.

Lemma replica_ok_mono n m st r : (n <= m)%nat -> replica_ok n st r -> replica_ok m st r.
Proof. destruct st; cbn; try done. apply stopping_mono. Qed.

Lemma confirmed_mono n m tag : (n <= m)%nat -> confirmed n tag -> confirmed m tag.
Proof. intros H (k & Hk & Hc). exists k. split; [lia | done]. Qed.

(** The actors started, in order *)
Definition starts (l : list (command Any)) : list string :=
  omap (fun c => match c with StartActor a _ => Some a | _ => None end) l.

(** The world after an operation that starts no actor *)
Definition wstep w w' : Prop := (calls w <= calls w')%nat /\ starts (log w') = starts (log w).

Lemma wstep_refl w : wstep w w.
Proof. done. Qed.

Lemma starts_app l1 l2 : starts (l1 ++ l2) = starts l1 ++ starts l2.
Proof. apply omap_app. Qed.

(** Runs the monadic code of an operation down to its case distinctions. *)
Local Ltac run := unfold ask, tick, command_; st_simpl; cbn [calls log].
Local Ltac world_done :=
  split; cbn [calls log]; [lia | rewrite ?starts_app; cbn; rewrite ?app_nil_r; reflexivity].

Lemma stop_spec g r w :
  exists w' r', stop ray g r w = (w', Ok r') /\ wstep w w' /\
    _replica_tag r' = _replica_tag r /\ _version r' = _version r /\ (named r -> stopping (calls w') r').
Proof.
  unfold stop, graceful_stop. run. destruct (get_actor ray (calls w) (_actor_name (_actor r))) eqn:Eg;
    cbn [calls log]; (eexists; eexists; split; [reflexivity|]); (split; [world_done|]);
    (split; [done|]); (split; [done|]); intros Hn; (split; [exact Hn|]); (split; [by eexists|]); cbn.
  - by left.
  - right. exists (calls w). split; [lia | done].
Qed.

Lemma replica_health_spec r w :
  live r ->
  exists w' r' b, check_health ray r w = (w', Ok (r', b)) /\ wstep w w' /\
    _replica_tag r' = _replica_tag r /\ _version r' = _version r /\ live r'.
Proof.
  intros (Hn & Hs & Ha & Ht). unfold check_health, wrapper_check_health. rewrite Ha, orb_true_r. cbn [negb]. run.
  do 3 eexists. split; [reflexivity|]. split; [world_done|]. done.
Qed.

Lemma check_started_spec r w :
  cluster_ok -> live r ->
  exists w' r' st, check_started ray r w = (w', Ok (r', st)) /\ wstep w w' /\
    _replica_tag r' = _replica_tag r /\ live r' /\
    (if decide (st = STARTUP_SUCCEEDED)
     then exists q t v, ray_ready ray (S (calls w)) (_actor_name (_actor r)) = Some (Some (q, t, v)) /\
                        _version r' = Some v /\ version_ok v
     else _version r' = _version r).
Proof.
  intros Hc (Hn & Hs & Ha & Ht). unfold check_started, check_ready. rewrite Hs. cbn [negb]. run.
  destruct (ray_allocated ray (calls w) (_actor_name (_actor r))); cbn [negb calls log].
  - destruct (ray_ready ray (S (calls w)) (_actor_name (_actor r))) as [[[[q t] v]|]|] eqn:Er;
      (do 3 eexists); (split; [reflexivity|]); (split; [world_done|]); (split; [done|]); (split; [done|]); cbn.
    + exists q, t, v. split_and!; [done | done|]. by eapply reported_version_ok.
    + done.
    + done.
  - do 3 eexists. split; [reflexivity|]. split; [world_done|]. done.
Qed.

Lemma check_stopped_spec r w :
  cluster_ok -> stopping (calls w) r ->
  exists w' b, check_stopped ray r w = (w', Ok b) /\ wstep w w' /\
    (b = true -> confirmed (calls w') (_replica_tag r)).
Proof.
  intros Hc (Hn & [dl Hd] & Hr). unfold check_stopped, wrapper_check_stopped, cleanup. run.
  destruct (get_actor ray (calls w) (_actor_name (_actor r))) eqn:Eg; cbn [negb].
  - destruct Hr as [Hr|(m & Hm & Hg)].
    2:{ rewrite (gone_stays_gone Hc m (calls w)) in Eg by (done || lia). done. }
    rewrite Hr. cbn [negb calls log].
    destruct (ray_shutdown_done ray (S (calls w)) (_actor_name (_actor r))) eqn:Es; cbn [calls log].
    + assert (Hcf : forall n, (S (calls w) < n)%nat -> confirmed n (_replica_tag r)).
      { intros n Hlt. exists (S (calls w)). split; [lia|]. right. by rewrite <- Hn. }
      destruct (use_placement_group ray); [destruct (_placement_group (_actor r))|]; cbn [negb calls log];
        (do 2 eexists); (split; [reflexivity|]); (split; [world_done|]); intros _; apply Hcf; cbn; lia.
    + rewrite Hd. cbn [or_raise]. unfold force_stop. 
      destruct (Qlt_bool dl (time_ ray (S (S (calls w))))); cbn [calls log].
      * run. destruct (get_actor ray (S (S (S (calls w)))) (_actor_name (_actor r))); cbn [calls log];
          (do 2 eexists); (split; [reflexivity|]); (split; [world_done|]); done.
      * (do 2 eexists); (split; [reflexivity|]); (split; [world_done|]); done.
  - assert (Hcf : forall n, (calls w < n)%nat -> confirmed n (_replica_tag r)).
    { intros n Hlt. exists (calls w). split; [lia|]. left. by rewrite <- Hn. }
    destruct (use_placement_group ray); [destruct (_placement_group (_actor r))|]; cbn [negb calls log];
      (do 2 eexists); (split; [reflexivity|]); (split; [world_done|]); intros _; apply Hcf; cbn; lia.
Qed.

Lemma update_user_config_spec config r w v :
  live r -> _version r = Some v ->
  exists w' r', update_user_config config r w = (w', Ok r') /\ wstep w w' /\
    _replica_tag r' = _replica_tag r /\ live r' /\
    _version r' = Some (make_version "" (Some (code_version v)) config).
Proof.
  intros (Hn & Hs & Ha & Ht) Hv. unfold update_user_config, wrapper_update_user_config. rewrite Ha. run.
  rewrite Hv. cbn [or_raise]. do 2 eexists. split; [reflexivity|]. split; [world_done|]. done.
Qed.

Definition startable (info : DeploymentInfo Any) : Prop :=
  is_Some (di_actor_name info) /\ is_Some (serialized_deployment_def info).

Lemma start_spec info v r w :
  startable info -> named r ->
  exists w' r', start ray info v r w = (w', Ok r') /\ (calls w <= calls w')%nat /\
    starts (log w') = starts (log w) ++ [_actor_name (_actor r)] /\
    _replica_tag r' = _replica_tag r /\ live r' /\ _version r' = Some v.
Proof.
  intros [Hi Hd] Hn. unfold start, wrapper_start, actor_def.
  rewrite !bool_decide_true by done. cbn [py_assert].
  destruct (use_placement_group ray); [destruct (_placement_group (_actor r))|]; run; cbn [calls log];
    (do 2 eexists); (split; [reflexivity|]); cbn [calls log];
    (split; [lia|]); (split; [rewrite !starts_app; cbn; by rewrite ?app_nil_r|]);
    (split; [done|]); (split; [|done]); (split; [exact Hn|]); (split_and!; [done | done | by eexists]).
Qed.

Lemma running_info_spec r w :
  live r -> exists info, get_running_replica_info ray r w = (w, Ok (r, info)) /\ ri_replica_tag info = _replica_tag r.
Proof.
  intros (Hn & Hs & Ha & Ht). unfold get_running_replica_info, wrapper_actor_handle. rewrite Ha. run.
  eexists. split; [by destruct r|]. done.
Qed.

End Replicas.

(** ** Keeping track of the replicas through a step *)

Section Keeps.
Context {Any : Type} {PA : PyAny Any} {KV : Type}.
Variable ray : Ray Any.
Implicit Types (r : DeploymentReplica Any) (c : Ctx Any KV) (hand : list (DeploymentReplica Any)).

Definition cont c : ReplicaStateContainer Any := ds_replicas (self c).

Definition container_ok c : Prop :=
  forall st r, r ∈ replicas_in st (cont c) -> replica_ok ray (calls (world c)) st r.

(** The parts of the deployment that a pass over its replicas leaves alone *)
Definition same_target c0 c : Prop :=
  goals c = goals c0 /\ kv c = kv c0 /\ _name (self c) = _name (self c0) /\
  _target_info (self c) = _target_info (self c0) /\ _rollback_info (self c) = _rollback_info (self c0) /\
  _target_replicas (self c) = _target_replicas (self c0) /\ _curr_goal (self c) = _curr_goal (self c0) /\
  _target_version (self c) = _target_version (self c0).

(** Since [c0], the replicas [started] were started and [gone] were dropped,
    each after the cluster confirmed its end; the replicas in [hand] are out of
    the container, each taken from one of [states]; all others are in it. *)
Record keeps c0 (started gone : list string) (states : list ReplicaState) hand c : Prop := {
  k_target : same_target c0 c;
  k_ok : container_ok c;
  k_calls : (calls (world c0) <= calls (world c))%nat;
  k_starts : starts (log (world c)) = starts (log (world c0)) ++ map ReplicaName.actor_name started;
  k_tags : tags (cont c) ⊎ tags_of hand ⊎ list_to_set_disj gone = tags (cont c0) ⊎ list_to_set_disj started;
  k_gone : Forall (confirmed ray (calls (world c))) gone;
  k_hand : Forall (fun r => exists st, st ∈ states /\ replica_ok ray (calls (world c)) st r) hand
}.

Lemma keeps_init c0 : container_ok c0 -> keeps c0 [] [] [] [] c0.
Proof.
  intros H. split; [done | done | lia | by rewrite app_nil_r | | constructor | constructor].
  rewrite tags_of_nil. cbn. multiset_solver.
Qed.

Lemma hand_mono n m (states : list ReplicaState) hand :
  (n <= m)%nat -> Forall (fun r => exists st, st ∈ states /\ replica_ok ray n st r) hand ->
  Forall (fun r => exists st, st ∈ states /\ replica_ok ray m st r) hand.
Proof.
  intros Hle H. eapply list.Forall_impl; [exact H|]. intros r (st & Hst & Hr).
  exists st. split; [done | by eapply replica_ok_mono].
Qed.

(** The world moves on, starting no actor. *)
Lemma keeps_world c0 S G sts hand c w :
  keeps c0 S G sts hand c -> wstep (world c) w -> keeps c0 S G sts hand (set_world w c).
Proof.
  intros [H1 H2 H3 H4 H5 H6 H7] [Hle Hs]. split.
  - exact H1.
  - intros st r Hr. eapply replica_ok_mono; [exact Hle | by apply H2].
  - cbn. lia.
  - cbn. by rewrite Hs.
  - exact H5.
  - eapply list.Forall_impl; [exact H6|]. intros t. by apply confirmed_mono.
  - by eapply hand_mono.
Qed.

(** A replica in hand goes back into the container. *)
Lemma keeps_add c0 S G sts r r' hand c st :
  keeps c0 S G sts (r :: hand) c -> _replica_tag r' = _replica_tag r ->
  replica_ok ray (calls (world c)) st r' ->
  keeps c0 S G sts hand (set_self (set_container (add st r' (cont c)) (self c)) c).
Proof.
  intros [H1 H2 H3 H4 H5 H6 H7] Ht Hr. split; try done.
  - intros st' x Hx. unfold cont in Hx. cbn in Hx. rewrite replicas_in_add in Hx. destruct (decide _) as [->|].
    + apply elem_of_app in Hx as [Hx|Hx]; [by apply H2|]. apply list_elem_of_singleton in Hx as ->. done.
    + by apply H2.
  - unfold cont at 1. cbn [self set_self set_container ds_replicas]. rewrite tags_add, Ht.
    rewrite tags_of_cons in H5. multiset_solver.
  - by apply list.Forall_cons in H7 as [_ ?].
Qed.

(** A replica in hand is dropped, its end confirmed. *)
Lemma keeps_drop c0 S G sts r hand c :
  keeps c0 S G sts (r :: hand) c -> confirmed ray (calls (world c)) (_replica_tag r) ->
  keeps c0 S (_replica_tag r :: G) sts hand c.
Proof.
  intros [H1 H2 H3 H4 H5 H6 H7] Hc. split; try done.
  - rewrite tags_of_cons in H5. cbn [list_to_set_disj foldr fmap list_fmap].
    change (list_to_set_disj (_replica_tag r :: G)) with ({[+ _replica_tag r +]} ⊎ list_to_set_disj G : gmultiset string).
    multiset_solver.
  - by constructor.
  - by apply list.Forall_cons in H7 as [_ ?].
Qed.

Lemma keeps_pop c0 S G sts c ex states mx p C :
  NoDup states -> keeps c0 S G sts [] c -> pop ex states mx (cont c) = (p, C) ->
  keeps c0 S G states p (set_self (set_container C (self c)) c).
Proof.
  intros Hnd [H1 H2 H3 H4 H5 H6 H7] Hp. unfold pop in Hp.
  destruct (pop_states_spec _ _ _ _ _ _ _ Hnd Hp) as (new & -> & Ht & _ & Hin & Hnew & _).
  cbn [app]. split; try done.
  - intros st x Hx. unfold cont in Hx. cbn in Hx. by apply H2, Hin.
  - unfold cont at 1. cbn [self set_self set_container ds_replicas]. rewrite tags_of_nil in H5. multiset_solver.
  - apply list.Forall_forall. intros x Hx. destruct (Hnew x Hx) as (_ & st & Hst & Hx'). exists st. split; [done|].
    by apply H2.
Qed.

(** A new replica *)
Lemma keeps_start c0 S G sts c w r :
  keeps c0 S G sts [] c -> (calls (world c) <= calls w)%nat ->
  starts (log w) = starts (log (world c)) ++ [ReplicaName.actor_name (_replica_tag r)] ->
  live r -> versioned r ->
  keeps c0 (S ++ [_replica_tag r]) G sts []
    (set_self (set_container (add STARTING r (cont c)) (self c)) (set_world w c)).
Proof.
  intros [H1 H2 H3 H4 H5 H6 H7] Hle Hs Hl Hv. split; try done.
  - intros st' x Hx. unfold cont in Hx. cbn in Hx. rewrite replicas_in_add in Hx.
    assert (Hold : x ∈ replicas_in st' (cont c) -> replica_ok ray (calls w) st' x).
    { intros Hx'. eapply replica_ok_mono; [exact Hle | by apply H2]. }
    destruct (decide _) as [->|]; [|by apply Hold].
    apply elem_of_app in Hx as [Hx|Hx]; [by apply Hold|]. by apply list_elem_of_singleton in Hx as ->.
  - cbn. lia.
  - cbn. by rewrite Hs, H4, map_app, app_assoc.
  - unfold cont at 1. cbn [self set_self set_container ds_replicas]. rewrite tags_add, list_to_set_disj_app.
    change (list_to_set_disj [_replica_tag r]) with ({[+ _replica_tag r +]} ⊎ ∅ : gmultiset string).
    multiset_solver.
  - eapply list.Forall_impl; [exact H6|]. intros t. by apply confirmed_mono.
Qed.

(** Counters and time stamps of the deployment *)
Lemma keeps_self c0 S G sts hand c s :
  keeps c0 S G sts hand c -> ds_replicas s = cont c -> same_target c (set_self s c) ->
  keeps c0 S G sts hand (set_self s c).
Proof.
  intros [H1 H2 H3 H4 H5 H6 H7] Hc Hs. split; try done.
  - unfold same_target in *. cbn in *. intuition congruence.
  - unfold container_ok, cont in *. cbn. by rewrite Hc.
  - unfold cont in *. cbn. by rewrite Hc.
Qed.

End Keeps.

(** ** The passes over the replicas *)

Definition never (e : exn) : Prop := False.

Section Passes.
Context {Any : Type} {PA : PyAny Any} {KV : Type}.
Variable ray : Ray Any.
Hypothesis Hcluster : cluster_ok ray.
Implicit Types (r : DeploymentReplica Any) (c : Ctx Any KV) (hand : list (DeploymentReplica Any)).

Lemma triple_on_world {A} (P : Ctx Any KV -> Prop) (m : ST (World Any) A) Q :
  (forall c, P c -> exists w a, m (world c) = (w, Ok a) /\ Q a (set_world w c)) ->
  triple P (on_world m) Q never.
Proof.
  intros H c HP. destruct (H c HP) as (w & a & E & HQ). unfold on_world, st_zoom. by rewrite E.
Qed.

Lemma replica_ok_named n st r : replica_ok ray n st r -> named r.
Proof. destruct st; cbn; unfold live, stopping; intuition. Qed.

Lemma hand_head c0 S G sts r hand c :
  keeps ray c0 S G sts (r :: hand) c -> exists st, st ∈ sts /\ replica_ok ray (calls (world c)) st r.
Proof. intros [_ _ _ _ _ _ H]. by apply list.Forall_cons in H as [? _]. Qed.

Lemma add_triple c0 S G sts r r' hand st :
  _replica_tag r' = _replica_tag r ->
  triple (fun c => keeps ray c0 S G sts (r :: hand) c /\ replica_ok ray (calls (world c)) st r')
    (add_replica st r') (fun _ => keeps ray c0 S G sts hand) never.
Proof. intros Ht c [HK Hr]. by eapply keeps_add. Qed.

Lemma stop_replica_triple c0 S G sts r r' hand g :
  _replica_tag r' = _replica_tag r -> named r' ->
  triple (keeps ray c0 S G sts (r :: hand)) (stop_replica ray g r') (fun _ => keeps ray c0 S G sts hand) never.
Proof.
  intros Ht Hn. eapply triple_bind.
  - apply triple_on_world with (Q := fun r2 c => _replica_tag r2 = _replica_tag r /\
      keeps ray c0 S G sts (r :: hand) c /\ stopping ray (calls (world c)) r2).
    intros c HK. destruct (stop_spec ray g r' (world c)) as (w & r2 & E & Hw & Ht2 & _ & Hs).
    exists w, r2. split; [done|]. split; [congruence|]. split; [by apply keeps_world | by apply Hs].
  - intros r2 c (Ht2 & HK & Hs). by eapply (add_triple c0 S G sts r r2 hand STOPPING).
Qed.

Lemma pop_triple c0 S G ex states mx sts :
  NoDup states ->
  triple (keeps ray c0 S G sts []) (pop_ ex states mx) (fun p => keeps ray c0 S G states p) never.
Proof.
  intros Hnd c HK. unfold pop_, the, change. st_simpl.
  destruct (pop ex states mx (ds_replicas (self c))) as [p C] eqn:E. by eapply keeps_pop.
Qed.

Lemma retries_triple c0 S G sts hand (f : DeploymentState Any -> DeploymentState Any) :
  (forall s, ds_replicas (f s) = ds_replicas s) -> (forall c, same_target c (set_self (f (self c)) c)) ->
  triple (keeps ray c0 S G sts hand) (change f) (fun _ => keeps ray c0 S G sts hand) never.
Proof. intros H1 H2 c HK. apply keeps_self; [done | apply H1 | apply H2]. Qed.

Lemma check_running_triple c0 S G r hand b :
  triple (keeps ray c0 S G [RUNNING] (r :: hand)) (check_running_replica ray b r)
    (fun _ => keeps ray c0 S G [RUNNING] hand) never.
Proof.
  eapply triple_bind.
  - apply triple_on_world with (Q := fun x c => _replica_tag x.1 = _replica_tag r /\
      keeps ray c0 S G [RUNNING] (r :: hand) c /\ live x.1 /\ versioned x.1).
    intros c HK. destruct (hand_head _ _ _ _ _ _ _ HK) as (st & ->%list_elem_of_singleton & Hl & v & Hv & Hvo).
    destruct (replica_health_spec ray r (world c) Hl) as (w & r' & h & E & Hw & Ht & Hv' & Hl').
    exists w, (r', h). split; [done|]. split; [done|]. split; [by apply keeps_world|]. split; [done|].
    exists v. cbn. by rewrite Hv'.
  - intros [r' h] c (Ht & HK & Hl & Hv). cbn [fst] in *. destruct h; st_simpl.
    + by eapply (add_triple c0 S G [RUNNING] r r' hand RUNNING).
    + pose proof (stop_replica_triple c0 S G [RUNNING] r r' hand false Ht (proj1 Hl) c HK) as Hs.
      destruct (stop_replica ray false r' c) as [c' [u|e]]; done.
Qed.

Definition startup_state (st : ReplicaState) : Prop := st = STARTING \/ st = UPDATING \/ st = RECOVERING.

Lemma startup_live st n r : startup_state st -> replica_ok ray n st r -> live r.
Proof. intros [->|[->| ->]]; cbn; tauto. Qed.

Lemma startup_again st n m r r' :
  startup_state st -> replica_ok ray n st r -> live r' -> _version r' = _version r -> replica_ok ray m st r'.
Proof. unfold replica_ok, versioned. intros [->|[->| ->]] Hr Hl Hv; rewrite ?Hv; tauto. Qed.

(** Reading the clock *)
Lemma ask_keeps {A} (f : Ray Any -> nat -> A) c0 S G sts hand c :
  keeps ray c0 S G sts hand c ->
  exists c', on_world (ask ray f) c = (c', Ok (f ray (calls (world c)))) /\ keeps ray c0 S G sts hand c' /\
    (calls (world c) <= calls (world c'))%nat /\ self c' = self c.
Proof.
  intros HK. unfold on_world, ask, tick. st_simpl. eexists. split; [reflexivity|].
  split; [apply keeps_world; [done|]; split; cbn; [lia | done]|]. cbn. split; [lia | done].
Qed.

Lemma check_startup_triple c0 S G st0 slow r hand acc :
  startup_state st0 ->
  triple (keeps ray c0 S G [st0] (r :: hand)) (check_startup_replica ray st0 slow acc r)
    (fun _ => keeps ray c0 S G [st0] hand) never.
Proof.
  intros Hst0. destruct acc as [slows trans]. eapply triple_bind.
  - apply triple_on_world with (Q := fun x c => _replica_tag x.1 = _replica_tag r /\
      keeps ray c0 S G [st0] (r :: hand) c /\ live x.1 /\
      (if decide (x.2 = STARTUP_SUCCEEDED) then versioned x.1 else forall m, replica_ok ray m st0 x.1)).
    intros c HK. destruct (hand_head _ _ _ _ _ _ _ HK) as (st & ->%list_elem_of_singleton & Hr).
    destruct (check_started_spec ray r (world c) Hcluster (startup_live _ _ _ Hst0 Hr))
      as (w & r' & s & E & Hw & Ht & Hl' & Hv).
    exists w, (r', s). split; [done|]. split; [done|]. split; [by apply keeps_world|]. split; [done|]. cbn [fst snd].
    destruct (decide (s = STARTUP_SUCCEEDED)).
    + destruct Hv as (q & t & v & _ & Hv & Hvo). by exists v.
    + intros m. by eapply startup_again.
  - intros [r' s] c (Ht & HK & Hl & Hv). cbn [fst snd] in *.
    assert (Hpend : (forall m, replica_ok ray m st0 r') ->
      match (now ← on_world (ask ray time_);
             start_time ← st_lift (or_raise TypeError (_start_time r'));
             let is_slow := Qlt_bool SLOW_STARTUP_WARNING_S (now - start_time) in
             let slow_replicas := if is_slow then slows ++ [(r', s)] else slows in
             _ ← (if is_slow && slow then stop_replica ray false r' else add_replica st0 r');
             mret (slow_replicas, trans)) c with
      | (c', Ok _) => keeps ray c0 S G [st0] hand c' | (_, Err e) => never e end).
    { intros Hback. destruct Hl as (Hn & Hs & Ha & t0 & Ht0). st_simpl.
      destruct (ask_keeps time_ _ _ _ _ _ _ HK) as (c1 & -> & HK1 & _). rewrite Ht0. cbn [or_raise].
      destruct (Qlt_bool _ _ && slow).
      - pose proof (stop_replica_triple c0 S G [st0] r r' hand false Ht Hn c1 HK1) as H.
        destruct (stop_replica ray false r' c1) as [c2 [u|e]]; done.
      - by eapply (add_triple c0 S G [st0] r r' hand st0 Ht c1). }
    destruct s; [by apply Hpend | by apply Hpend | |].
    + by eapply (add_triple c0 S G [st0] r r' hand RUNNING Ht c).
    + pose proof (retries_triple c0 S G [st0] (r :: hand)
        (fun s => if (0 <=? _replica_constructor_retry_counter s)%Z
                  then set_retries (_replica_constructor_retry_counter s + 1) s else s)) as H.
      specialize (H ltac:(intros s; cbv beta; by destruct (0 <=? _replica_constructor_retry_counter s)%Z)
                    ltac:(intros x; cbv beta; by destruct (0 <=? _replica_constructor_retry_counter (self x))%Z)
                    c HK).
      unfold change in *. st_simpl in H. st_simpl.
      match goal with |- context [stop_replica ray false r' ?x] => set (c1 := x) in * end.
      pose proof (stop_replica_triple c0 S G [st0] r r' hand false Ht (proj1 Hl) c1 H) as H2.
      destruct (stop_replica ray false r' c1) as [c2 [u|e]]; done.
Qed.

Lemma fold_hand_triple {B} c0 S G sts (f : B -> DeploymentReplica Any -> ST (Ctx Any KV) B) b l :
  (forall b r hand, triple (keeps ray c0 S G sts (r :: hand)) (f b r) (fun _ => keeps ray c0 S G sts hand) never) ->
  triple (keeps ray c0 S G sts l) (st_fold f b l) (fun _ => keeps ray c0 S G sts []) never.
Proof.
  intros H. apply (triple_fold never (fun _ t _ => keeps ray c0 S G sts t)). intros d x t b' _. apply H.
Qed.

Lemma check_startups_triple c0 S G sts st0 slow :
  startup_state st0 ->
  triple (keeps ray c0 S G sts []) (_check_startup_replicas ray st0 slow)
    (fun _ => keeps ray c0 S G [st0] []) never.
Proof.
  intros H. eapply triple_bind; [apply pop_triple, NoDup_singleton|].
  intros p. apply fold_hand_triple. intros b r hand. by apply check_startup_triple.
Qed.

Lemma warn_slow_triple c0 S G sts slow :
  triple (keeps ray c0 S G sts []) (warn_slow_replicas ray slow) (fun _ => keeps ray c0 S G sts []) never.
Proof.
  intros c HK. unfold warn_slow_replicas. destruct (length slow =? 0)%nat; [done|]. st_simpl.
  destruct (ask_keeps time_ _ _ _ _ _ _ HK) as (c1 & -> & HK1 & _). unfold the. st_simpl.
  destruct (Qlt_bool _ _); [|done].
  destruct (ask_keeps time_ _ _ _ _ _ _ HK1) as (c2 & -> & HK2 & _).
  by apply (retries_triple c0 S G sts [] (set_warning (time_ ray (calls (world c1))))).
Qed.

Lemma check_stopping_triple c0 S r hand :
  triple (fun c => exists G, keeps ray c0 S G [STOPPING] (r :: hand) c) (check_stopping_replica ray r)
    (fun _ c => exists G, keeps ray c0 S G [STOPPING] hand c) never.
Proof.
  eapply triple_bind.
  - apply triple_on_world with (Q := fun b c => exists G, keeps ray c0 S G [STOPPING] (r :: hand) c /\
      stopping ray (calls (world c)) r /\ (b = true -> confirmed ray (calls (world c)) (_replica_tag r))).
    intros c (G & HK). destruct (hand_head _ _ _ _ _ _ _ HK) as (st & ->%list_elem_of_singleton & Hr).
    destruct (check_stopped_spec ray r (world c) Hcluster Hr) as (w & b & E & Hw & Hb).
    exists w, b. split; [done|]. exists G. split; [by apply keeps_world|]. split; [|done].
    eapply stopping_mono; [|exact Hr]. apply Hw.
  - intros b c (G & HK & Hs & Hb). destruct b.
    + exists (_replica_tag r :: G). by apply keeps_drop; [|apply Hb].
    + exists G. by apply (keeps_add ray c0 S G [STOPPING] r r hand c STOPPING).
Qed.

(** [_check_and_update_replicas] *)
Lemma check_and_update_triple c0 S G sts :
  triple (keeps ray c0 S G sts []) (_check_and_update_replicas ray)
    (fun _ c => exists G', keeps ray c0 S G' [STOPPING] [] c) never.
Proof.
  unfold _check_and_update_replicas.
  eapply triple_bind; [apply pop_triple, NoDup_singleton|]. intros running.
  eapply triple_bind; [apply fold_hand_triple; intros; apply check_running_triple|]. intros ch.
  eapply triple_bind; [apply check_startups_triple; by left|]. intros [sl1 t1].
  eapply triple_bind; [apply check_startups_triple; right; by left|]. intros [sl2 t2].
  eapply triple_bind; [apply check_startups_triple; right; by right|]. intros [sl3 t3].
  cbv zeta. eapply triple_bind; [apply warn_slow_triple|]. intros u.
  eapply triple_bind; [apply pop_triple, NoDup_singleton|]. intros l. cbv beta.
  eapply (triple_bind never _ _ (fun _ c => exists G', keeps ray c0 S G' [STOPPING] [] c));
    [|intros u' c HK; exact HK].
  eapply triple_pre; [|apply (triple_for never (fun _ t c => exists G', keeps ray c0 S G' [STOPPING] t c))].
  - intros c HK. by exists G.
  - intros d x t _. apply check_stopping_triple.
Qed.

End Passes.

(** ** Scaling *)

Section Scaling.
Context {Any : Type} {PA : PyAny Any} {KV : Type}.
Variable ray : Ray Any.
Implicit Types (r : DeploymentReplica Any) (c : Ctx Any KV) (hand : list (DeploymentReplica Any)).

(** A target that can be worked towards: one that [deploy] or [delete] set *)
Definition target_ok (s : DeploymentState Any) : Prop :=
  (0 <= _target_replicas s)%Z /\ is_Some (_target_info s) /\
  (exists v, _target_version s = Some v /\ version_ok v) /\
  ((0 < _target_replicas s)%Z -> exists info, _target_info s = Some info /\ startable info).

Lemma same_target_ok c0 c : same_target c0 c -> target_ok (self c0) -> target_ok (self c).
Proof. unfold same_target, target_ok. intros (_ & _ & _ & -> & _ & -> & _ & ->). done. Qed.

Lemma update_replica_triple c0 S G target b r hand :
  version_ok target -> excluded (Some target) r = false ->
  triple (keeps ray c0 S G [STARTING; RUNNING] (r :: hand)) (update_replica ray target b r)
    (fun _ => keeps ray c0 S G [STARTING; RUNNING] hand) never.
Proof.
  intros Hvt Hex c HK. destruct (hand_head _ _ _ _ _ _ _ _ HK) as (st & Hst & Hr).
  assert (Hlv : live r /\ versioned r).
  { apply elem_of_cons in Hst as [->|Hst]; [done|]. by apply list_elem_of_singleton in Hst as ->. }
  destruct Hlv as (Hl & v & Hv & Hvo). unfold update_replica. rewrite Hv. st_simpl. cbn [or_raise].
  cbn [excluded] in Hex. rewrite Hv in Hex. cbn [opt_version_eqb] in Hex.
  pose proof (version_neq v target Hvo Hvt Hex) as Hne.
  destruct (bool_decide (code_version v = code_version target)) eqn:Ec; cbn [negb].
  - apply bool_decide_eq_true in Ec. destruct Hne as [Hne|Hne]; [done|].
    rewrite (proj2 (Z.eqb_neq _ _) Hne). cbn [negb]. st_simpl.
    destruct (update_user_config_spec (user_config target) r (world c) v Hl Hv)
      as (w & r' & E & Hw & Ht & Hl' & Hv').
    unfold on_world, st_zoom. rewrite E.
    apply (keeps_add ray c0 S G [STARTING; RUNNING] r r' hand (set_world w c) UPDATING);
      [by apply keeps_world | done |]. split; [done|]. eexists. split; [exact Hv' | done].
  - pose proof (stop_replica_triple ray c0 S G [STARTING; RUNNING] r r hand true eq_refl (proj1 Hl) c HK) as H.
    unfold stop_replica in H. st_simpl in H. st_simpl.
    destruct (on_world (stop ray true r) c) as [c1 [r1|e]]; [|done]. done.
Qed.

Lemma count_ok (exc v : option (DeploymentVersion Any)) sts C :
  exc = None \/ v = None -> exists n, count exc v sts C = Ok n.
Proof. intros [-> | ->]; [destruct v | destruct exc]; by eexists. Qed.

Lemma stop_wrong_triple c0 S G sts :
  target_ok (self c0) ->
  triple (keeps ray c0 S G sts []) (_stop_wrong_version_replicas ray)
    (fun _ c => exists sts', keeps ray c0 S G sts' [] c) never.
Proof.
  intros Ht0 c HK. pose proof (same_target_ok _ _ (k_target _ _ _ _ _ _ _ HK) Ht0) as (Hpos & _ & (v & Hv & Hvo) & _).
  unfold _stop_wrong_version_replicas, the. st_simpl.
  destruct (_target_replicas (self c) =? 0)%Z eqn:E0; [by exists sts|].
  apply Z.eqb_neq in E0. rewrite Hv.
  unfold count_, the. st_simpl. cbn [count].
  destruct (_target_replicas (self c) <? _)%Z; [by exists sts|].
  match goal with |- context [pop_ (Some v) _ ?m] => set (mx := m) end.
  unfold pop_ at 1, the, change. st_simpl.
  destruct (pop (Some v) [STARTING; RUNNING] mx (ds_replicas (self c))) as [p C] eqn:Ep.
  assert (Hnd : NoDup [STARTING; RUNNING]) by by_compute.
  pose proof (keeps_pop ray c0 S G sts c (Some v) _ mx p C Hnd HK Ep) as HK1. unfold pop in Ep.
  destruct (pop_states_spec _ _ _ _ _ _ _ Hnd Ep) as (new & -> & _ & _ & _ & Hnew & _). cbn [app] in *.
  set (c1 := set_self _ c) in *.
  pose proof (triple_fold never (fun _ t (_ : bool) => keeps ray c0 S G [STARTING; RUNNING] t) new
    (fun stopped r => target ← st_lift (or_raise AttributeError (Some v)); update_replica ray target stopped r) false) as HF.
  assert (Hstep : forall d x t (b : bool), new = d ++ x :: t ->
    triple (keeps ray c0 S G [STARTING; RUNNING] (x :: t))
      (target ← st_lift (or_raise AttributeError (Some v)); update_replica ray target b x)
      (fun _ => keeps ray c0 S G [STARTING; RUNNING] t) never).
  { intros d x t b El. assert (Hx : excluded (Some v) x = false).
    { apply Hnew. rewrite El. apply elem_of_app. right. by left. }
    exact (update_replica_triple c0 S G v b x t Hvo Hx). }
  specialize (HF Hstep c1 HK1). destruct (st_fold _ false new c1) as [c2 [b|e]]; [|done]. by exists [STARTING; RUNNING].
Qed.

Lemma start_replica_triple c0 S G sts k :
  target_ok (self c0) -> (0 < _target_replicas (self c0))%Z ->
  triple (keeps ray c0 S G sts []) (start_replica ray k)
    (fun _ c => exists t, keeps ray c0 (S ++ [t]) G sts [] c) never.
Proof.
  intros Ht0 Hpos c HK. pose proof (k_target _ _ _ _ _ _ _ HK) as Hst.
  destruct (same_target_ok _ _ Hst Ht0) as (_ & _ & (v & Hv & Hvo) & Ht).
  destruct Ht as (info & Hi & Hs).
  { destruct Hst as (_ & _ & _ & _ & _ & -> & _). done. }
  unfold start_replica, the. st_simpl.
  destruct (ask_keeps ray random_letters _ _ _ _ _ _ HK) as (c1 & -> & HK1 & _ & Es).
  rewrite Hi, Hv. cbn [or_raise].
  match goal with |- context [start ray info v ?x] => set (r0 := x) end.
  destruct (start_spec ray info v r0 (world c1) Hs eq_refl) as (w & r & E & Hle & Hst' & Htag & Hl & Hvr).
  unfold on_world, st_zoom. rewrite E. exists (_replica_tag r).
  apply (keeps_start ray c0 S G sts c1 w r); [done | done | | done | by exists v].
  by rewrite Hst', Htag.
Qed.

Lemma start_replicas_triple c0 G sts n :
  target_ok (self c0) -> (0 < _target_replicas (self c0))%Z ->
  triple (keeps ray c0 [] G sts []) (st_for (seq 0 n) (start_replica ray))
    (fun _ c => exists S, length S = n /\ keeps ray c0 S G sts [] c) never.
Proof.
  intros Ht0 Hpos.
  eapply triple_post; [eapply triple_pre; [|apply (triple_for never (fun d _ c =>
    exists S, length S = length d /\ keeps ray c0 S G sts [] c))]|].
  - intros c HK. by exists [].
  - intros d x t _. intros c (S & HS & HK).
    pose proof (start_replica_triple c0 S G sts x Ht0 Hpos c HK) as H.
    destruct (start_replica ray x c) as [c' [u|e]]; [|done]. destruct H as [t' HK'].
    exists (S ++ [t']). split; [rewrite !length_app, HS; done | done].
  - intros u c (S & HS & HK). exists S. split; [by rewrite HS, length_seq | done].
Qed.

Lemma keeps_size c0 S G sts c :
  keeps ray c0 S G sts [] c ->
  (n_replicas (cont c) + Z.of_nat (length G) = n_replicas (cont c0) + Z.of_nat (length S))%Z.
Proof.
  intros [_ _ _ _ H _ _]. apply (f_equal size) in H.
  rewrite !gmultiset_size_disj_union, tags_of_nil, gmultiset_size_empty in H.
  rewrite !n_replicas_tags. rewrite !size_list_to_set_disj in H. lia.
Qed.

Lemma stop_replicas_triple c0 S G sts l :
  triple (keeps ray c0 S G sts l) (st_for l (stop_replica ray true)) (fun _ => keeps ray c0 S G sts []) never.
Proof.
  apply (triple_for never (fun _ t => keeps ray c0 S G sts t)). intros d x t _.
  intros c HK. destruct (hand_head _ _ _ _ _ _ _ _ HK) as (st & _ & Hr).
  by apply (stop_replica_triple ray c0 S G sts x x t true eq_refl (replica_ok_named _ _ _ _ Hr)).
Qed.

(** The replicas by whether they are being stopped *)
Lemma n_replicas_split (C : ReplicaStateContainer Any) :
  n_replicas C = (Z.of_nat (length (get [STARTING; UPDATING; RUNNING] C)) +
                  Z.of_nat (length (get [RECOVERING] C)) + Z.of_nat (length (get [STOPPING] C)))%Z.
Proof.
  unfold n_replicas, all, get, ALL_REPLICA_STATES. simpl. rewrite !length_app. cbn [length]. lia.
Qed.

(** [_scale_deployment_replicas] starts at most what is missing. *)
Lemma scale_triple c0 :
  container_ok ray c0 -> target_ok (self c0) ->
  triple (eq c0) (_scale_deployment_replicas ray)
    (fun _ c => exists S sts, keeps ray c0 S [] sts [] c /\
       (Z.of_nat (length S) <= Z.max (_target_replicas (self c0) - n_replicas (cont c0)) 0)%Z) never.
Proof.
  intros Hok Ht c <-. unfold _scale_deployment_replicas, the. st_simpl.
  rewrite (proj2 (Z.leb_le _ _) (proj1 Ht)). cbn [py_assert].
  pose proof (stop_wrong_triple c0 [] [] [] Ht c0 (keeps_init ray c0 Hok)) as H.
  destruct (_stop_wrong_version_replicas ray c0) as [c1 [b|e]]; [|done]. destruct H as (sts & HK).
  unfold count_, the. st_simpl. rewrite !count_plain.
  pose proof (keeps_size _ _ _ _ _ HK) as Hsize. rewrite (n_replicas_split (cont c1)) in Hsize.
  change (ds_replicas (self c1)) with (cont c1). cbn [length] in Hsize.
  set (cur := Z.of_nat (length (get [STARTING; UPDATING; RUNNING] (cont c1)))) in *.
  set (rec := Z.of_nat (length (get [RECOVERING] (cont c1)))) in *.
  set (T := _target_replicas (self c0)) in *.
  destruct (T - cur - rec =? 0)%Z eqn:E0.
  { exists [], sts. split; [done|]. cbn. lia. }
  apply Z.eqb_neq in E0. destruct (0 <? T - cur - rec)%Z eqn:E1.
  - apply Z.ltb_lt in E1. rewrite count_plain. change (ds_replicas (self c1)) with (cont c1).
    set (stp := Z.of_nat (length (get [STOPPING] (cont c1)))) in *.
    pose proof (start_replicas_triple c0 [] sts (Z.to_nat (Z.max (T - cur - rec - stp) 0)) Ht ltac:(lia) c1 HK) as H.
    destruct (st_for _ _ c1) as [c2 [u|e]]; [|done]. destruct H as (S & HS & HK2).
    exists S, sts. split; [done|]. lia.
  - apply Z.ltb_ge in E1.
    pose proof (pop_triple ray c0 [] [] None [STARTING; UPDATING; RECOVERING; RUNNING]
      (Some (- (T - cur - rec)))%Z sts ltac:(by_compute) c1 HK) as H.
    destruct (pop_ None _ _ c1) as [c2 [l|e]]; [|done].
    pose proof (stop_replicas_triple c0 [] [] [STARTING; UPDATING; RECOVERING; RUNNING] l c2 H) as H2.
    destruct (st_for _ _ c2) as [c3 [u|e]]; [|done].
    exists [], [STARTING; UPDATING; RECOVERING; RUNNING]. split; [done|]. cbn. lia.
Qed.

End Scaling.

(** ** Deploying, deleting and the whole step *)

Section Step.
Context {Any : Type} {PA : PyAny Any} {KV : Type}.
Variable ray : Ray Any.
Variable save : target_state Any -> KV -> KV.
Implicit Types (r : DeploymentReplica Any) (c : Ctx Any KV).

(** What the validators of [DeploymentConfig] and [serve.deploy] establish *)
Definition info_ok (i : DeploymentInfo Any) : Prop := startable i /\ (0 < num_replicas (deployment_config i))%Z.

Definition infos_ok (s : DeploymentState Any) : Prop :=
  (forall i, _target_info s = Some i -> info_ok i) /\ (forall i, _rollback_info s = Some i -> info_ok i).

(** A deployment of the controller after its first [deploy] *)
Record ctx_ok c : Prop := {
  ok_container : container_ok ray c;
  ok_target : target_ok (self c);
  ok_infos : infos_ok (self c);
  ok_goals : pending_ok (goals c)
}.

(** The replicas and the cluster as an operation on goals leaves them *)
Definition replicas_kept c c' : Prop := cont c' = cont c /\ wstep (world c) (world c').

Lemma replicas_kept_refl c : replicas_kept c c.
Proof. done. Qed.

Lemma replicas_kept_trans c1 c2 c3 : replicas_kept c1 c2 -> replicas_kept c2 c3 -> replicas_kept c1 c3.
Proof. intros [E1 [H1 H2]] [E2 [H3 H4]]. split; [congruence|]. split; [lia | congruence]. Qed.

Lemma replicas_kept_ok c c' : replicas_kept c c' -> container_ok ray c -> container_ok ray c'.
Proof. intros [E [Hle _]] H st r. rewrite E. intros Hr. eapply replica_ok_mono; [exact Hle | by apply H]. Qed.

Lemma ask_world {A} (f : Ray Any -> nat -> A) c :
  exists c', on_world (ask ray f) c = (c', Ok (f ray (calls (world c)))) /\ replicas_kept c c' /\
    self c' = self c /\ goals c' = goals c /\ kv c' = kv c.
Proof. eexists. split; [reflexivity|]. split; [split; [done|]; split; cbn; [lia | done] | done]. Qed.

Lemma new_version_spec code config c :
  exists c' v, new_version ray code config c = (c', Ok v) /\ replicas_kept c c' /\ version_ok v /\
    self c' = self c /\ goals c' = goals c /\ kv c' = kv c.
Proof.
  unfold new_version. destruct code as [code|]; st_simpl.
  - do 2 eexists. split; [reflexivity|]. split; [apply replicas_kept_refl|]. split; [apply make_version_ok | done].
  - destruct (ask_world random_letters c) as (c' & -> & Hk & Hs).
    do 2 eexists. split; [reflexivity|]. split; [done|]. split; [apply make_version_ok | done].
Qed.

(** The goals that are pending *)
Definition pend c : list Z := dkeys (_pending_goals (goals c)).

Lemma complete_spec g e c :
  pending_ok (goals c) ->
  exists c', complete g e c = (c', Ok tt) /\ replicas_kept c c' /\ self c' = self c /\ pending_ok (goals c') /\
    (forall x, x ∈ pend c' <-> x ∈ pend c /\ g <> Some x).
Proof.
  intros Hp. destruct g as [g|]; [|exists c; split_and!; [done | done | done | done | naive_solver]].
  unfold complete, on_goals. st_simpl.
  pose proof (fun x => pending_complete g e (goals c) x Hp) as H3.
  destruct (complete_ok g e (goals c) Hp) as [H1 H2].
  destruct (complete_goal g e (goals c)) as [m r]. cbn in H1, H2. subst r. exists (set_goals m c).
  split_and!; [done | done | done | done|]. intros x. unfold pend. cbn. cbn in H3. rewrite H3. naive_solver.
Qed.

(** An operation leaves pending no goal of the deployment but its current one. *)
Definition goals_step c c' : Prop :=
  forall x, x ∈ pend c' -> (x ∈ pend c /\ _curr_goal (self c) <> Some x) \/ _curr_goal (self c') = Some x.

Lemma goals_step_refl c : goals_step c c.
Proof. intros x Hx. destruct (decide (_curr_goal (self c) = Some x)); [by right | by left]. Qed.

(** The target that [_set_deployment_goal] sets *)
Definition goal_target (info : option (DeploymentInfo Any)) (s s' : DeploymentState Any) : Prop :=
  match info with
  | Some i => _target_info s' = Some i /\ _target_replicas s' = num_replicas (deployment_config i) /\
              exists v, _target_version s' = Some v /\ version_ok v
  | None => _target_info s' = _target_info s /\ _target_replicas s' = 0%Z /\
            _target_version s' = _target_version s
  end.

Lemma set_goal_spec info c :
  pending_ok (goals c) ->
  exists c' g, _set_deployment_goal ray info c = (c', Ok (g, _curr_goal (self c))) /\ replicas_kept c c' /\
    pending_ok (goals c') /\ goal_target info (self c) (self c') /\
    _rollback_info (self c') = _rollback_info (self c) /\ _curr_goal (self c') = Some g /\
    (forall x, x ∈ pend c' <-> x = g \/ x ∈ pend c).
Proof.
  intros Hp. unfold _set_deployment_goal, the. st_simpl.
  destruct (ask_world uuid4 c) as (c1 & -> & Hk1 & Hs1 & Hg1 & _).
  unfold on_goals, change. st_simpl. set (g := uuid4 ray (calls (world c))).
  pose proof (create_ok g None (goals c1)) as Hc. rewrite Hg1 in Hc. specialize (Hc Hp). rewrite <- Hg1 in Hc.
  pose proof (pending_create g None (goals c1)) as Hpc.
  destruct (create_goal g None (goals c1)) as [m rr] eqn:Ec.
  assert (rr = Ok g) as -> by (by injection Ec). cbn [fst] in Hc, Hpc.
  assert (Hpend : forall x, x ∈ dkeys (_pending_goals m) <-> x = g \/ x ∈ pend c).
  { intros x. rewrite Hpc. unfold pend. by rewrite Hg1. }
  destruct info as [i|].
  - destruct (new_version_spec (di_version i) (dc_user_config (deployment_config i)) (set_goals m c1))
      as (c2 & v & -> & Hk2 & Hv & Hs2 & Hg2 & _).
    do 2 eexists. split; [reflexivity|]. split; [|split; [cbn; by rewrite Hg2|]].
    + eapply replicas_kept_trans; [exact Hk1|]. destruct Hk2 as [E2 Hw2]. split; [|exact Hw2].
      unfold cont in *. cbn in *. done.
    + unfold pend at 1. cbn. rewrite Hs2, Hg2. cbn. rewrite Hs1. split_and!; try done. by exists v.
  - do 2 eexists. split; [reflexivity|]. split; [|split; [cbn; done|]].
    + eapply replicas_kept_trans; [exact Hk1|]. split; done.
    + unfold pend at 1. cbn. rewrite Hs1. done.
Qed.

Lemma info_ok_start_time t i : info_ok i -> info_ok (set_start_time t i).
Proof. done. Qed.

(** A new goal takes the place of the current one, which is completed. *)
Lemma goals_step_new c g c1 c2 :
  (forall x, x ∈ pend c1 <-> x = g \/ x ∈ pend c) ->
  (forall x, x ∈ pend c2 <-> x ∈ pend c1 /\ _curr_goal (self c) <> Some x) ->
  _curr_goal (self c2) = Some g -> goals_step c c2.
Proof. intros H1 H2 Hg x Hx. apply H2 in Hx as [Hx Hne]. apply H1 in Hx as [->|Hx]; [by right | by left]. Qed.

(** [deploy] also brings up a deployment that was just created. *)
Lemma deploy_spec info c :
  container_ok ray c -> infos_ok (self c) -> pending_ok (goals c) ->
  (_target_info (self c) = None \/ target_ok (self c)) -> info_ok info ->
  exists c' res, deploy ray save info c = (c', Ok res) /\ replicas_kept c c' /\ ctx_ok c' /\ goals_step c c'.
Proof.
  intros Hc [Hi Hr] Hp Ht Hinfo. unfold deploy, the, change. st_simpl.
  set (info1 := match _target_info (self c) with
                | Some e => set_start_time (start_time_ms e) info | None => info end).
  assert (Hinfo1 : info_ok info1) by (unfold info1; destruct (_target_info (self c)); [by apply info_ok_start_time | done]).
  destruct (match _target_info (self c) with Some e => same_deployment e info1 | None => false end) eqn:Esame.
  { do 2 eexists. split; [reflexivity|]. split; [apply replicas_kept_refl|]. split; [|apply goals_step_refl].
    split; [done | | done | done]. destruct Ht as [Ht|]; [|done]. by rewrite Ht in Esame. }
  match goal with |- context [_set_deployment_goal ray _ ?x] => set (c1 := x) end.
  destruct (set_goal_spec (Some info1) c1 Hp) as (c2 & g & -> & Hk & Hp2 & (T1 & T2 & v & T3 & Hv) & Hrb & Hg & Hpd).
  unfold save_checkpoint, the. st_simpl.
  match goal with |- context [complete _ None ?x] => set (c3 := x) end.
  destruct (complete_spec (_curr_goal (self c1)) None c3 Hp2) as (c4 & -> & Hk4 & Hs4 & Hp4 & Hpd4).
  do 2 eexists. split; [reflexivity|].
  assert (Hkept : replicas_kept c c4).
  { eapply replicas_kept_trans; [|exact Hk4]. destruct Hk as [Ek Wk]. split; [exact Ek | exact Wk]. }
  split; [done|]. split; [|apply (goals_step_new c g c2 c4 Hpd Hpd4); by rewrite Hs4]. split.
  - by eapply replicas_kept_ok.
  - rewrite Hs4. unfold c3. cbn. split; [rewrite T2; unfold info_ok in *; lia|].
    split; [rewrite T1; by eexists|]. split; [by exists v|].
    intros _. exists info1. split; [done | apply Hinfo1].
  - rewrite Hs4. unfold c3. cbn. split; intros i Hi'.
    + rewrite T1 in Hi'. by injection Hi' as <-.
    + rewrite Hrb in Hi'. cbn in Hi'. by apply Hi.
  - done.
Qed.

Lemma delete_spec c :
  ctx_ok c -> exists c' g, delete ray save c = (c', Ok g) /\ replicas_kept c c' /\ ctx_ok c' /\ goals_step c c'.
Proof.
  intros [Hc Ht [Hi Hr] Hp]. unfold delete. st_simpl.
  destruct (set_goal_spec None c Hp) as (c2 & g & -> & Hk & Hp2 & (T1 & T2 & T3) & Hrb & Hg & Hpd).
  unfold save_checkpoint, the. st_simpl.
  match goal with |- context [complete _ None ?x] => set (c3 := x) end.
  destruct (complete_spec (_curr_goal (self c)) None c3 Hp2) as (c4 & -> & Hk4 & Hs4 & Hp4 & Hpd4).
  do 2 eexists. split; [reflexivity|].
  assert (Hkept : replicas_kept c c4).
  { eapply replicas_kept_trans; [|exact Hk4]. destruct Hk as [Ek Wk]. split; [exact Ek | exact Wk]. }
  split; [done|]. split; [|apply (goals_step_new c g c2 c4 Hpd Hpd4); by rewrite Hs4]. split.
  - by eapply replicas_kept_ok.
  - rewrite Hs4. unfold c3. cbn. split; [lia|]. rewrite T1, T2, T3. destruct Ht as (_ & H1 & H2 & _).
    split_and!; [done | done | lia].
  - rewrite Hs4. unfold c3, infos_ok. cbn. rewrite T1, Hrb. done.
  - done.
Qed.

(** The same replicas in every state *)
Definition same_replicas c c' : Prop := forall st, replicas_in st (cont c') = replicas_in st (cont c).

Lemma running_infos_fold l c rs infos :
  Forall live l ->
  exists infos', st_fold (running_info_step ray) (rs, infos) l c = (c, Ok (rs ++ l, infos ++ infos')) /\
    map ri_replica_tag infos' = map _replica_tag l.
Proof.
  intros Hl. revert rs infos. induction Hl as [|r l Hr Hl IH]; intros rs infos; cbn [st_fold]; st_simpl.
  - exists []. by rewrite !app_nil_r.
  - unfold running_info_step at 1. st_simpl. destruct (running_info_spec ray r (world c) Hr) as (info & E & Ht). unfold on_world, st_zoom. rewrite E. cbn [fst snd].
    replace (set_world (world c) c) with c by (by destruct c).
    destruct (IH (rs ++ [r]) (infos ++ [info])) as (infos' & E' & Ht').
    exists (info :: infos'). rewrite <- !app_assoc in E'. cbn [app] in E'. split; [exact E'|]. cbn. by rewrite Ht, Ht'.
Qed.

(** Clients are told the tags of the replicas in [RUNNING]. *)
Lemma notify_spec c :
  container_ok ray c ->
  exists c' infos n, _notify_running_replicas_changed ray c = (c', Ok tt) /\ same_target c c' /\
    same_replicas c c' /\ wstep (world c) (world c') /\
    poll c' = notify_changed n (RUNNING_REPLICAS (_name (self c))) (ReplicasObj infos) (poll c) /\
    map ri_replica_tag infos = map _replica_tag (replicas_in RUNNING (cont c)) /\
    _replica_constructor_retry_counter (self c') = _replica_constructor_retry_counter (self c).
Proof.
  intros Hok. unfold _notify_running_replicas_changed, get_running_replica_infos, the. st_simpl.
  change (get [RUNNING] (ds_replicas (self c))) with (replicas_in RUNNING (cont c) ++ []). rewrite app_nil_r.
  destruct (running_infos_fold (replicas_in RUNNING (cont c)) c [] []) as (infos & E & Ht).
  { apply list.Forall_forall. intros r Hr. apply (Hok RUNNING r Hr). }
  rewrite E. cbn [app]. unfold change. st_simpl.
  match goal with |- context [dmem _ (snapshot_ids (poll ?x))] => set (c1 := x) end.
  assert (Hsame : same_replicas c c1).
  { intros st. unfold c1, cont. cbn. rewrite replicas_in_set. by destruct (decide _) as [->|]. }
  destruct (dmem _ _).
  - do 3 eexists. split; [reflexivity|]. split; [done|]. split; [exact Hsame|]. split; [done|]. split; [reflexivity | done].
  - destruct (ask_world randint c1) as (c2 & E2 & (Ek & Hw) & Hs & Hg & Hkv).
    pose proof E2 as E3. unfold on_world, ask, tick in E3. st_simpl in E3. injection E3 as E3. rewrite E2.
    do 3 eexists. split; [reflexivity|]. split; [|split; [|split; [|split; [|split; [exact Ht|]]]]].
    + unfold same_target. cbn. rewrite Hg, Hkv, Hs. done.
    + intros st. rewrite <- Hsame. unfold cont in *. cbn. by rewrite Hs.
    + exact Hw.
    + cbn. by rewrite <- E3.
    + cbn. by rewrite Hs.
Qed.

Lemma status_spec c :
  exists c' st, _check_curr_goal_status c = (c', Ok st) /\ same_target c c' /\ cont c' = cont c /\
    world c' = world c /\ poll c' = poll c.
Proof.
  unfold _check_curr_goal_status, count_, the, change. st_simpl.
  destruct (_curr_goal (self c)); [|by do 2 eexists]. rewrite !count_plain.
  destruct (count_ok None (_target_version (self c)) [RUNNING] (ds_replicas (self c))) as [n ->]; [by left|].
  match goal with |- context [if ?a && ?b then _ else _] => destruct a; destruct b; cbn [andb] end;
    try (by do 2 eexists); rewrite ?count_plain;
    repeat match goal with |- context [(if ?b then _ else _) _] => destruct b end; by do 2 eexists.
Qed.

Lemma finish_goal_spec st c :
  ctx_ok c -> exists c', finish_goal ray save st c = (c', Ok tt) /\ replicas_kept c c' /\ ctx_ok c' /\
    goals_step c c' /\ (st = SUCCESSFULLY_DELETED -> forall x, _curr_goal (self c') = Some x -> x ∉ pend c').
Proof.
  intros [Hc Ht [Hi Hr] Hp]. unfold finish_goal, the. st_simpl. destruct st.
  - exists c. split_and!; [done | done | done | apply goals_step_refl | done].
  - exists c. split_and!; [done | done | done | apply goals_step_refl | done].
  - destruct (complete_spec (_curr_goal (self c)) None c Hp) as (c1 & -> & Hk & Hs & Hp1 & Hpd).
    unfold change. st_simpl. eexists. split; [reflexivity|].
    split; [destruct Hk as [E W]; by split|]. split; [|split; [|done]].
    + split; [|cbn; by rewrite Hs | split; cbn; [by rewrite Hs | done] | done].
      eapply (replicas_kept_ok c); [destruct Hk as [E W]; by split | done].
    + intros x Hx. left. by apply Hpd.
  - destruct (complete_spec (_curr_goal (self c)) None c Hp) as (c1 & -> & Hk & Hs & Hp1 & Hpd).
    exists c1. split_and!; [done | done | | |].
    + split; [by eapply replicas_kept_ok | by rewrite Hs | by rewrite Hs | done].
    + intros x Hx. left. by apply Hpd.
    + intros _ x. rewrite Hs. intros Hx Hin. apply Hpd in Hin as [_ Hne]. done.
  - destruct (_rollback_info (self c)) as [rb|] eqn:Erb.
    + destruct (complete_spec (_curr_goal (self c)) (Some (RuntimeError, rollback_message (_name (self c)) (di_version rb))) c Hp)
        as (c1 & -> & Hk & Hs & Hp1 & Hpd).
      unfold change. st_simpl.
      match goal with |- context [deploy ray save rb ?x] => set (c2 := x) end.
      assert (Hk2 : replicas_kept c c2) by (destruct Hk as [E W]; by split).
      assert (Hok2 : ctx_ok c2).
      { split; [by eapply replicas_kept_ok | | | done]; unfold c2; cbn; rewrite Hs; [done|]. split; cbn; [done|done]. }
      destruct Hok2 as [Hc2 Ht2 Hi2 Hp2].
      destruct (deploy_spec rb c2 Hc2 Hi2 Hp2) as (c3 & res & -> & Hk3 & Hok3 & Hg3); [by right | by apply Hr|].
      exists c3. split_and!; [done | by eapply replicas_kept_trans | done | | done].
      intros x Hx. destruct (Hg3 x Hx) as [[Hx2 _]|Hx2]; [left; by apply Hpd | by right].
    + destruct (complete_spec (_curr_goal (self c)) (Some (RuntimeError, delete_message (_name (self c)))) c Hp)
        as (c1 & -> & Hk & Hs & Hp1 & Hpd).
      assert (Hok1 : ctx_ok c1).
      { split; [by eapply replicas_kept_ok | by rewrite Hs | | done]. rewrite Hs. split; [done|]. by rewrite Erb. }
      destruct (delete_spec c1 Hok1) as (c3 & g & -> & Hk3 & Hok3 & Hg3).
      exists c3. split_and!; [done | by eapply replicas_kept_trans | done | | done].
      intros x Hx. destruct (Hg3 x Hx) as [[Hx2 _]|Hx2]; [left; by apply Hpd | by right].
Qed.

Lemma tags_same c c' : same_replicas c c' -> tags (cont c') = tags (cont c).
Proof. intros H. rewrite !tags_all, !H. done. Qed.

(** The step of the control loop, whatever the cluster answers *)
Lemma update_keeps c :
  cluster_ok ray -> ctx_ok c ->
  exists c' b started gone, update ray save c = (c', Ok b) /\ ctx_ok c' /\
    tags (cont c') ⊎ list_to_set_disj gone = tags (cont c) ⊎ list_to_set_disj started /\
    starts (log (world c')) = starts (log (world c)) ++ map ReplicaName.actor_name started /\
    Forall (confirmed ray (calls (world c'))) gone /\
    (Z.of_nat (length started) <= Z.max (_target_replicas (self c) - n_replicas (cont c)) 0)%Z /\
    (calls (world c) <= calls (world c'))%nat /\ goals_step c c' /\
    (b = true -> forall x, _curr_goal (self c') = Some x -> x ∉ pend c').
Proof.
  intros Hcl [Hc Ht Hi Hp]. unfold update. st_simpl.
  pose proof (scale_triple ray c Hc Ht c eq_refl) as H.
  destruct (_scale_deployment_replicas ray c) as [c1 [b1|e]]; [|done]. destruct H as (S & sts & HK1 & HS).
  pose proof (check_and_update_triple ray Hcl c S [] sts c1 HK1) as H.
  destruct (_check_and_update_replicas ray c1) as [c2 [b2|e]]; [|done].
  destruct H as (G & [T2 O2 L2 St2 Tg2 Go2 _]).
  assert (Hn : exists c3, (if b1 || b2 then _notify_running_replicas_changed ray else mret tt) c2 = (c3, Ok tt) /\
            same_target c2 c3 /\ same_replicas c2 c3 /\ wstep (world c2) (world c3)).
  { destruct (b1 || b2); [|by exists c2].
    destruct (notify_spec c2 O2) as (c3 & infos & n & E & H1 & H2 & H3 & _). by exists c3. }
  destruct Hn as (c3 & En & T3 & R3 & W3). st_simpl in En. rewrite En.
  destruct (status_spec c3) as (c4 & st & -> & T4 & C4 & W4 & _).
  assert (same_target c c4) as T by (unfold same_target in *; intuition congruence).
  assert (Hok4 : ctx_ok c4).
  { split.
    - intros s r. rewrite C4, R3, W4. intros Hr. eapply replica_ok_mono; [apply W3 | by apply O2].
    - by eapply same_target_ok.
    - unfold infos_ok in *. destruct T as (_ & _ & _ & -> & -> & _). done.
    - destruct T as (-> & _). done. }
  destruct (finish_goal_spec st c4 Hok4) as (c5 & -> & [C5 W5] & Hok5 & Hg5 & Hd5).
  exists c5, (bool_decide (st = SUCCESSFULLY_DELETED)), S, G. split; [done|]. split; [done|]. split_and!.
  - rewrite C5, C4, (tags_same c2 c3 R3). rewrite tags_of_nil in Tg2. multiset_solver.
  - destruct W5 as [_ ->]. rewrite W4. destruct W3 as [_ ->]. done.
  - eapply list.Forall_impl; [exact Go2|]. intros t. apply confirmed_mono.
    destruct W5, W3. rewrite W4 in *. lia.
  - done.
  - destruct W5, W3. rewrite W4 in *. lia.
  - intros x Hx. destruct (Hg5 x Hx) as [[Hx4 Hne]|?]; [left | by right].
    unfold pend in *. destruct T as (Eg & _ & _ & _ & _ & _ & Ec & _). rewrite <- Eg, <- Ec. done.
  - intros Hb. apply Hd5. by apply bool_decide_eq_true in Hb.
Qed.


(** *** Sequences of operations on one deployment *)

Inductive deployment_op : Type :=
| Deploy (info : DeploymentInfo Any)
| Delete
| Update.

Definition op_ok (o : deployment_op) : Prop :=
  match o with Deploy i => info_ok i | _ => True end.

Definition do_deployment_op (o : deployment_op) : ST (Ctx Any KV) unit :=
  match o with
  | Deploy i => _ ← deploy ray save i; mret tt
  | Delete => _ ← delete ray save; mret tt
  | Update => _ ← update ray save; mret tt
  end.

Lemma do_op_keeps_ok o c :
  cluster_ok ray -> ctx_ok c -> op_ok o -> exists c', do_deployment_op o c = (c', Ok tt) /\ ctx_ok c'.
Proof.
  intros Hcl Hc Ho. destruct o; cbn [do_deployment_op]; st_simpl.
  - destruct Hc as [H1 H2 H3 H4].
    destruct (deploy_spec info c H1 H3 H4 (or_intror H2) Ho) as (c' & res & -> & _ & Hok & _). by exists c'.
  - destruct (delete_spec c Hc) as (c' & g & -> & _ & Hok & _). by exists c'.
  - destruct (update_keeps c Hcl Hc) as (c' & b & ? & ? & -> & Hok & _). by exists c'.
Qed.

Lemma run_ops_keep_ok ops c :
  cluster_ok ray -> ctx_ok c -> Forall op_ok ops ->
  exists c', st_for ops do_deployment_op c = (c', Ok tt) /\ ctx_ok c'.
Proof.
  intros Hcl Hc Ho. revert c Hc. induction Ho as [|o ops Ho _ IH]; intros c Hc; cbn [st_for]; st_simpl; [by exists c|].
  destruct (do_op_keeps_ok o c Hcl Hc Ho) as (c1 & -> & Hc1). by apply IH.
Qed.

(** A deployment that [DeploymentStateManager.deploy] has just created *)
Definition fresh_ctx (name : string) (now : Q) (g : AsyncGoalManager) (p : LongPollHost lp_key lp_obj) (k : KV)
    (w : World Any) : Ctx Any KV := mkCtx (init_state name now) g p k w.

(** The state that a sequence of operations on a new deployment leads to *)
Definition run_deployment (name : string) (now : Q) (g : AsyncGoalManager) (p : LongPollHost lp_key lp_obj) (k : KV)
    (w : World Any) (i : DeploymentInfo Any) (ops : list deployment_op) : Ctx Any KV :=
  (st_for (Deploy i :: ops) do_deployment_op (fresh_ctx name now g p k w)).1.

Lemma run_fresh_ok name now g p k w i ops :
  cluster_ok ray -> pending_ok g -> info_ok i -> Forall op_ok ops ->
  exists c, st_for (Deploy i :: ops) do_deployment_op (fresh_ctx name now g p k w) = (c, Ok tt) /\ ctx_ok c.
Proof.
  intros Hcl Hg Hi Ho. cbn [st_for do_deployment_op]. st_simpl.
  destruct (deploy_spec i (fresh_ctx name now g p k w)) as (c1 & res & -> & _ & Hok & _).
  - intros st r Hr. by apply elem_of_nil in Hr.
  - by split.
  - done.
  - by left.
  - done.
  - by apply run_ops_keep_ok.
Qed.

Lemma run_deployment_ok name now g p k w i ops :
  cluster_ok ray -> pending_ok g -> info_ok i -> Forall op_ok ops -> ctx_ok (run_deployment name now g p k w i ops).
Proof.
  intros Hcl Hg Hi Ho. unfold run_deployment.
  by destruct (run_fresh_ok name now g p k w i ops Hcl Hg Hi Ho) as (c & -> & Hc).
Qed.

(** C10. From its creation on, no sequence of [deploy], [delete] and [update]
    raises an exception, whatever the cluster answers: the assertions, the
    attribute accesses on [None] and the goal manager's checks all pass, and
    the deployment stays well formed. *)
Theorem operations_never_raise (name : string) (now : Q) (g : AsyncGoalManager)
    (p : LongPollHost lp_key lp_obj) (k : KV) (w : World Any) (i : DeploymentInfo Any) (ops : list deployment_op) :
  cluster_ok ray -> pending_ok g -> info_ok i -> Forall op_ok ops ->
  exists c, st_for (Deploy i :: ops) do_deployment_op (fresh_ctx name now g p k w) = (c, Ok tt) /\ ctx_ok c.
Proof. apply run_fresh_ok. Qed.

(** C6. A step of the control loop loses no replica and duplicates none: those it
    tracks afterwards, with those it dropped, are those it tracked before with
    those it started; it drops a replica only after the cluster confirmed that
    its actor is gone or has shut down, and tracks every actor it starts. *)
Theorem update_conserves_replicas (c : Ctx Any KV) :
  cluster_ok ray -> ctx_ok c ->
  exists c' b started gone, update ray save c = (c', Ok b) /\
    tags (cont c') ⊎ list_to_set_disj gone = tags (cont c) ⊎ list_to_set_disj started /\
    starts (log (world c')) = starts (log (world c)) ++ map ReplicaName.actor_name started /\
    Forall (confirmed ray (calls (world c'))) gone.
Proof.
  intros Hcl Hc. destruct (update_keeps c Hcl Hc) as (c' & b & S & G & E & _ & Ht & Hs & Hg & _).
  by exists c', b, S, G.
Qed.

(** C35. A step never takes the number of replicas, those that are still stopping
    included, above the target or, when it was above already, above what it
    was. *)
Theorem update_within_target (c : Ctx Any KV) :
  cluster_ok ray -> ctx_ok c ->
  exists c' b, update ray save c = (c', Ok b) /\
    (n_replicas (cont c') <= Z.max (n_replicas (cont c)) (_target_replicas (self c)))%Z.
Proof.
  intros Hcl Hc. destruct (update_keeps c Hcl Hc) as (c' & b & S & G & E & _ & Ht & _ & _ & Hn & _).
  exists c', b. split; [done|]. apply (f_equal size) in Ht.
  rewrite !gmultiset_size_disj_union, !size_list_to_set_disj in Ht. rewrite n_replicas_tags, n_replicas_tags in *. lia.
Qed.

End Step.
