(* ===== verification/DeploymentRollout.v ===== *)
(** Rolling updates of a Serve deployment: how much capacity a step may take
    away, and that the control loop reaches the target once the cluster does
    as it is told. *)

From Stdlib Require Import ZArith QArith Lqa Lia.
From stdpp Require Import base list strings option gmultiset.
From S2P Require Import Prelude PyDict ServeVersion ServeAutoscaling Hoare AsyncGoals LongPoll.
From S2P Require Import ServeReplica DeploymentState DeploymentSafety.
Import AsyncGoals LongPoll.

Section Rollout.
Context {Any : Type} {PA : PyAny Any} {KV : Type}.
Variable ray : Ray Any.
Variable save : target_state Any -> KV -> KV.
Implicit Types (r : DeploymentReplica Any) (c : Ctx Any KV) (l : list (DeploymentReplica Any))
  (v : DeploymentVersion Any) (C : ReplicaStateContainer Any).

(** ** What the operations do to the container *)

Lemma stop_replica_adds g r c c' u :
  stop_replica ray g r c = (c', Ok u) ->
  exists r', cont c' = add STOPPING r' (cont c) /\ _version r' = _version r /\
    (calls (world c) <= calls (world c'))%nat /\ same_target c c' /\
    _replica_constructor_retry_counter (self c') = _replica_constructor_retry_counter (self c).
Proof.
  unfold stop_replica, on_world. st_simpl.
  destruct (stop_spec ray g r (world c)) as (w & r' & -> & [Hw _] & _ & Hv & _). intros [= <-].
  by exists r'.
Qed.

Definition is_old v r : Prop := opt_version_eqb (_version r) (Some v) = false.
Definition is_new v r : Prop := opt_version_eqb (_version r) (Some v) = true.

#[global] Instance is_old_dec v r : Decision (is_old v r) := bool_eq_dec _ _.
#[global] Instance is_new_dec v r : Decision (is_new v r) := bool_eq_dec _ _.

(** The replicas of a rollout that serve, or will: the old ones that are not
    being stopped, and the new ones that run *)
Definition old_in v (states : list ReplicaState) C : nat := length (filter (is_old v) (get states C)).
Definition new_running v C : nat := length (filter (is_new v) (replicas_in RUNNING C)).
Definition serving v C : Z := Z.of_nat (old_in v [STARTING; UPDATING; RUNNING] C) + Z.of_nat (new_running v C).

Lemma Zsum_lengths {A} (P : A -> Prop) `{!forall x, Decision (P x)} (f : ReplicaState -> list A) states :
  Zsum (map (fun st => Z.of_nat (length (filter P (f st)))) states) =
  Z.of_nat (length (filter P (mjoin (map f states)))).
Proof.
  induction states as [|st states IH]; [done|]. cbn [map]. rewrite Zsum_cons, IH. simpl.
  rewrite list.filter_app, length_app. lia.
Qed.

Lemma count_old v states C : count (Some v) None states C = Ok (Z.of_nat (old_in v states C)).
Proof. cbn [count]. f_equal. apply (Zsum_lengths (is_old v) (fun st => replicas_in st C)). Qed.

Lemma count_new v C : count None (Some v) [RUNNING] C = Ok (Z.of_nat (new_running v C)).
Proof.
  cbn [count]. f_equal. rewrite (Zsum_lengths (is_new v) (fun st => replicas_in st C)). simpl.
  by rewrite app_nil_r.
Qed.

(** The three states a serving replica can be in *)
Lemma old_in_split v C :
  old_in v [STARTING; UPDATING; RUNNING] C =
  (length (filter (is_old v) (replicas_in STARTING C)) + length (filter (is_old v) (replicas_in UPDATING C)) +
   length (filter (is_old v) (replicas_in RUNNING C)))%nat.
Proof.
  unfold old_in, get. simpl. rewrite !list.filter_app, !length_app. cbn [length filter]. simpl. lia.
Qed.

Lemma serving_add_stopping v r C : serving v (add STOPPING r C) = serving v C.
Proof.
  unfold serving, new_running. by rewrite !old_in_split, !replicas_in_add, !decide_False.
Qed.

Lemma serving_add_updating v r C : is_new v r -> serving v (add UPDATING r C) = serving v C.
Proof.
  intros Hr. unfold serving, new_running. rewrite !old_in_split, !replicas_in_add.
  rewrite decide_False, decide_True, !decide_False by done.
  rewrite list.filter_app, length_app, filter_cons_False, list.filter_nil.
  - cbn [length]. lia.
  - unfold is_old. by rewrite Hr.
Qed.

(** A replica of the old version is stopped, or reconfigured to the target. *)
Lemma update_replica_adds target b r c c' b' :
  version_ok target -> update_replica ray target b r c = (c', Ok b') ->
  exists r', (cont c' = add STOPPING r' (cont c) \/ (cont c' = add UPDATING r' (cont c) /\ is_new target r')) /\
    (calls (world c) <= calls (world c'))%nat /\ same_target c c' /\
    _replica_constructor_retry_counter (self c') = _replica_constructor_retry_counter (self c).
Proof.
  intros Hvt. unfold update_replica. destruct (_version r) as [vr|] eqn:Ev; [|done]. cbn [or_raise]. st_simpl.
  destruct (bool_decide (code_version vr = code_version target)) eqn:Ec; cbn [negb].
  - destruct (user_config_hash vr =? user_config_hash target)%Z; cbn [negb]; [done|].
    apply bool_decide_eq_true in Ec. unfold update_user_config, wrapper_update_user_config, on_world. st_simpl.
    destruct (_actor_handle (_actor r)); st_simpl; [|done]. rewrite Ev. cbn [or_raise]. intros [= <- _].
    eexists. split; [right; split; [reflexivity | by apply reconfigured_eqb]|]. cbn. done.
  - pose proof (stop_replica_adds true r c) as H. unfold stop_replica in H. st_simpl. st_simpl in H.
    destruct (on_world (stop ray true r) c) as [c1 [r1|e]]; [|done]. intros E. injection E as <- _.
    destruct (H _ tt eq_refl) as (r' & E' & _ & Hc & Ht & Hr). by exists r'; split; [left|].
Qed.

(** [pop] of the rolling update: the old replicas, at most [mx] of them *)
Lemma pop_old v mx C p C' :
  (0 <= mx)%Z -> pop (Some v) [STARTING; RUNNING] (Some mx) C = (p, C') ->
  (Z.of_nat (length p) <= mx)%Z /\
  (forall st, st <> STARTING -> st <> RUNNING -> replicas_in st C' = replicas_in st C) /\
  (exists p1 p2, p = p1 ++ p2 /\ Forall (is_old v) p1 /\ Forall (is_old v) p2 /\
    replicas_in STARTING C ≡ₚ p1 ++ replicas_in STARTING C' /\
    replicas_in RUNNING C ≡ₚ p2 ++ replicas_in RUNNING C' /\
    (forall r, r ∈ replicas_in RUNNING C' -> is_old v r -> Z.of_nat (length p) = mx)).
Proof.
  intros Hmx. unfold pop. cbn [pop_states length].
  destruct (pop_loop (Some v) (Some mx) (Z.of_nat 0) (replicas_in STARTING C)) as [p1 rem1] eqn:E1.
  rewrite replicas_in_set, decide_False by done. cbn [app].
  destruct (pop_loop (Some v) (Some mx) (Z.of_nat (length p1)) (replicas_in RUNNING C)) as [p2 rem2] eqn:E2.
  intros [= <- <-].
  destruct (pop_loop_spec _ _ _ _ _ _ E1) as (HP1 & Hx1 & Hm1 & _).
  destruct (pop_loop_spec _ _ _ _ _ _ E2) as (HP2 & Hx2 & Hm2 & Hr2).
  specialize (Hm1 mx eq_refl Hmx). specialize (Hm2 mx eq_refl ltac:(cbn in *; lia)).
  rewrite length_app. split_and!; [lia | |].
  - intros st H1 H2. by rewrite !replicas_in_set, !decide_False.
  - exists p1, p2. rewrite !replicas_in_set, decide_False, !decide_True by done.
    split_and!; [done | exact Hx1 | exact Hx2 | done | done|].
    intros r Hr Ho. destruct (Hr2 r Hr) as [He|He]; [cbn in He; unfold is_old in Ho; congruence|].
    injection He as ->. lia.
Qed.

Lemma filter_perm_old v l p l' :
  l ≡ₚ p ++ l' -> Forall (is_old v) p ->
  length (filter (is_old v) l) = (length p + length (filter (is_old v) l'))%nat /\
  length (filter (is_new v) l) = length (filter (is_new v) l').
Proof.
  intros HP Hp. rewrite HP, !list.filter_app, !length_app. rewrite (filter_all (is_old v)) by done.
  rewrite (filter_none (is_new v) p).
  - done.
  - eapply list.Forall_impl; [exact Hp|]. unfold is_old, is_new. intros r. by destruct (opt_version_eqb _ _).
Qed.

Lemma pop_serving v mx C p C' :
  (0 <= mx)%Z -> pop (Some v) [STARTING; RUNNING] (Some mx) C = (p, C') ->
  serving v C = (serving v C' + Z.of_nat (length p))%Z.
Proof.
  intros Hmx Hp. destruct (pop_old v mx C p C' Hmx Hp) as (_ & Hst & p1 & p2 & -> & H1 & H2 & HP1 & HP2 & _).
  unfold serving, new_running. rewrite !old_in_split, (Hst UPDATING) by done.
  destruct (filter_perm_old v _ _ _ HP1 H1) as [-> _]. destruct (filter_perm_old v _ _ _ HP2 H2) as [-> ->].
  rewrite length_app. lia.
Qed.

Lemma update_replicas_serving v p : forall b c c' b',
  version_ok v ->
  st_fold (fun stopped r => target ← st_lift (or_raise AttributeError (Some v)); update_replica ray target stopped r)
    b p c = (c', Ok b') -> serving v (cont c') = serving v (cont c).
Proof.
  induction p as [|r p IH]; intros b c c' b' Hv; cbn [st_fold or_raise]; st_simpl; [by intros [= <- _]|].
  destruct (update_replica ray v b r c) as [c1 [b1|e]] eqn:E; [|done]. intros H.
  rewrite (IH _ _ _ _ Hv H).
  destruct (update_replica_adds _ _ _ _ _ _ Hv E) as (r' & [->|[-> Hn]] & _);
    [apply serving_add_stopping | by apply serving_add_updating].
Qed.

(** C34. A rolling update takes at most the rollout size of replicas out of service
    at a time: after a step, the replicas that serve (the old ones that are not
    being stopped and the new ones that run) are no fewer than before, or no
    fewer than the target less the rollout size. *)
Theorem rolling_update_bounded c c' b v :
  _target_version (self c) = Some v -> version_ok v ->
  _stop_wrong_version_replicas ray c = (c', Ok b) ->
  (Z.min (serving v (cont c)) (_target_replicas (self c) - rollout_size (_target_replicas (self c))) <=
     serving v (cont c') <= serving v (cont c))%Z.
Proof.
  intros Hv Hvo. unfold _stop_wrong_version_replicas, count_, the. st_simpl.
  destruct (_target_replicas (self c) =? 0)%Z; [intros [= <- _]; lia|].
  rewrite Hv, !count_old, count_new. change (ds_replicas (self c)) with (cont c).
  destruct (_target_replicas (self c) <? _)%Z; [intros [= <- _]; lia|].
  set (T := _target_replicas (self c)).
  unfold pop_, the, change. st_simpl.
  match goal with |- context [pop _ _ (Some ?m) _] => set (mx := m) end.
  assert (Hmx : (0 <= mx)%Z) by lia.
  destruct (pop (Some v) [STARTING; RUNNING] (Some mx) (ds_replicas (self c))) as [p C] eqn:Ep.
  match goal with |- st_fold _ false p ?x = _ -> _ => set (c1 := x) end.
  intros H. apply update_replicas_serving in H; [|done].
  pose proof (pop_serving _ _ _ _ _ Hmx Ep) as Hs. change (ds_replicas (self c)) with (cont c) in Hs, Ep.
  destruct (pop_old _ _ _ _ _ Hmx Ep) as (Hle & _).
  rewrite H. change (cont c1) with C. unfold serving in *. unfold mx in Hle. lia.
Qed.

End Rollout.
