(* ===== verification/DeploymentConverge.v ===== *)
(** The control loop reaches its target: once the cluster does what it is told,
    the replicas of a deployment become the target's in a bounded number of
    steps, and the client's goal is completed. *)

From Stdlib Require Import ZArith QArith Lqa Lia.
From stdpp Require Import base list strings option gmultiset.
From S2P Require Import Prelude PyDict ServeVersion ServeAutoscaling Hoare AsyncGoals LongPoll.
From S2P Require Import ServeReplica DeploymentState DeploymentSafety DeploymentRollout.
Import AsyncGoals LongPoll.

Section Converge.
Context {Any : Type} {PA : PyAny Any} {KV : Type}.
Variable ray : Ray Any.
Variable save : target_state Any -> KV -> KV.
Implicit Types (r : DeploymentReplica Any) (c : Ctx Any KV) (l : list (DeploymentReplica Any))
  (v : DeploymentVersion Any) (C : ReplicaStateContainer Any).

(** ** The numbers of a step *)

Definition len (st : ReplicaState) c : nat := length (replicas_in st (cont c)).
Definition old_running v c : nat := old_in v [RUNNING] (cont c).

Lemma old_running_filter v c :
  old_running v c = length (filter (is_old v) (replicas_in RUNNING (cont c))).
Proof. unfold old_running, old_in, get. simpl. by rewrite app_nil_r. Qed.

Lemma running_split v c : len RUNNING c = (old_running v c + new_running v (cont c))%nat.
Proof.
  rewrite old_running_filter. unfold len, new_running. induction (replicas_in RUNNING (cont c)) as [|r l IH]; [done|].
  cbn [length]. destruct (opt_version_eqb (_version r) (Some v)) eqn:E.
  - rewrite filter_cons_False, filter_cons_True; [cbn [length]; lia | done | unfold is_old; congruence].
  - rewrite filter_cons_True, filter_cons_False; [cbn [length]; lia | unfold is_new; congruence | done].
Qed.

(** What stays of the deployment while its replicas move *)
Definition steady c c' : Prop :=
  same_target c c' /\ (calls (world c) <= calls (world c'))%nat /\
  _replica_constructor_retry_counter (self c') = _replica_constructor_retry_counter (self c).

Lemma steady_refl c : steady c c.
Proof. done. Qed.

Lemma steady_trans c1 c2 c3 : steady c1 c2 -> steady c2 c3 -> steady c1 c3.
Proof.
  intros (T1 & L1 & R1) (T2 & L2 & R2). split; [|split; [lia | congruence]].
  unfold same_target in *. intuition congruence.
Qed.

(** Some replicas were added to state [st], and no other state changed. *)
Definition grows (st : ReplicaState) (n : nat) c c' : Prop :=
  len st c' = (len st c + n)%nat /\ forall st', st' <> st -> replicas_in st' (cont c') = replicas_in st' (cont c).

Lemma stop_fold l : forall c c' u,
  st_for l (stop_replica ray true) c = (c', Ok u) -> steady c c' /\ grows STOPPING (length l) c c'.
Proof.
  induction l as [|r l IH]; intros c c' u; cbn [st_for]; st_simpl.
  - intros [= <-]. split; [apply steady_refl|]. split; [cbn; lia | done].
  - destruct (stop_replica ray true r c) as [c1 [u1|e]] eqn:E; [|done]. intros H.
    destruct (stop_replica_adds _ _ _ _ _ _ E) as (r' & Ec & _ & Hc & Ht & Hr).
    destruct (IH _ _ _ H) as (Hs & Hl & Ho). split; [by eapply steady_trans|]. split.
    + unfold len in *. rewrite Hl, Ec, replicas_in_add, decide_True by done. rewrite length_app. cbn. lia.
    + intros st' Hne. by rewrite (Ho st' Hne), Ec, replicas_in_add, decide_False.
Qed.

Lemma start_replica_adds k c c' u :
  start_replica ray k c = (c', Ok u) -> exists r, cont c' = add STARTING r (cont c) /\ steady c c'.
Proof.
  unfold start_replica, the. st_simpl.
  destruct (ask_world ray random_letters c) as (c1 & -> & (Ek & Hw) & Hs & Hg & Hkv).
  destruct (_target_info (self c)) as [info|]; [|done]. cbn [or_raise].
  destruct (_target_version (self c)) as [v|]; [|done]. cbn [or_raise].
  unfold on_world, st_zoom.
  match goal with |- context [start ray info v ?x] => set (r0 := x) end.
  destruct (decide (startable info)) as [Hst|Hst].
  - destruct (start_spec ray info v r0 (world c1) Hst eq_refl) as (w & r & -> & Hle & _).
    intros [= <-]. exists r. unfold cont in *. cbn. rewrite Hs. split; [done|].
    unfold steady, same_target. cbn. rewrite ?Hs, Hg, Hkv. destruct Hw. split_and!; try done. lia.
  - intros H. exfalso. unfold start, wrapper_start, actor_def, command_ in H. st_simpl in H.
    destruct (decide (is_Some (di_actor_name info))), (decide (is_Some (serialized_deployment_def info)));
      [by destruct Hst| | |]; rewrite ?bool_decide_true in H by done; rewrite ?bool_decide_false in H by done;
      cbn [py_assert] in H; destruct (use_placement_group ray); cbn in H; discriminate H.
Qed.

Lemma start_fold n : forall k c c' u,
  st_for (seq k n) (start_replica ray) c = (c', Ok u) -> steady c c' /\ grows STARTING n c c'.
Proof.
  induction n as [|n IH]; intros k c c' u; cbn [seq st_for]; st_simpl.
  - intros [= <-]. split; [apply steady_refl|]. split; [cbn; lia | done].
  - destruct (start_replica ray k c) as [c1 [u1|e]] eqn:E; [|done]. intros H.
    destruct (start_replica_adds _ _ _ _ E) as (r' & Ec & Hs1).
    destruct (IH _ _ _ _ H) as (Hs & Hl & Ho). split; [by eapply steady_trans|]. split.
    + unfold len in *. rewrite Hl, Ec, replicas_in_add, decide_True by done. rewrite length_app. cbn. lia.
    + intros st' Hne. by rewrite (Ho st' Hne), Ec, replicas_in_add, decide_False.
Qed.

(** The replicas taken by a rolling update: [kc] are stopped, the others updated. *)
Lemma update_fold v p : forall b c c' b',
  version_ok v ->
  st_fold (fun stopped r => target ← st_lift (or_raise AttributeError (Some v)); update_replica ray target stopped r)
    b p c = (c', Ok b') ->
  steady c c' /\ exists kc, (kc <= length p)%nat /\
    len STOPPING c' = (len STOPPING c + kc)%nat /\ (len UPDATING c' + kc = len UPDATING c + length p)%nat /\
    (forall st, st <> STOPPING -> st <> UPDATING -> replicas_in st (cont c') = replicas_in st (cont c)).
Proof.
  induction p as [|r p IH]; intros b c c' b' Hv; cbn [st_fold or_raise length]; st_simpl.
  { intros [= <- _]. split; [apply steady_refl|]. exists 0%nat. split_and!; [lia | lia | lia | done]. }
  destruct (update_replica ray v b r c) as [c1 [b1|e]] eqn:E; [|done]. intros H.
  destruct (IH _ _ _ _ Hv H) as (Hs & kc & Hk & Hst & Hup & Ho).
  destruct (update_replica_adds _ _ _ _ _ _ _ Hv E) as (r' & Ec & Hc & Ht & Hr).
  split; [by eapply steady_trans|]. unfold len in *.
  destruct Ec as [Ec|[Ec _]]; rewrite Ec, !replicas_in_add in Hst, Hup.
  - rewrite decide_True in Hst by done. rewrite decide_False in Hup by done. rewrite length_app in Hst. cbn in Hst.
    exists (S kc). split_and!; [lia | lia | lia|]. intros st H1 H2. by rewrite Ho, Ec, replicas_in_add, decide_False.
  - rewrite decide_False in Hst by done. rewrite decide_True in Hup by done. rewrite length_app in Hup. cbn in Hup.
    exists kc. split_and!; [lia | lia | lia|]. intros st H1 H2. by rewrite Ho, Ec, replicas_in_add, decide_False.
Qed.

(** ** A deployment at rest: all its replicas run *)

Definition at_rest c : Prop := forall st, st <> RUNNING -> replicas_in st (cont c) = [].

Lemma at_rest_old v c states : at_rest c -> RUNNING ∈ states -> NoDup states ->
  old_in v states (cont c) = old_running v c.
Proof.
  intros Hq Hin Hnd. unfold old_running, old_in, get. f_equal.
  assert (E : forall sts, RUNNING ∉ sts -> mjoin (map (fun st => replicas_in st (cont c)) sts) = []).
  { induction sts as [|st sts IH]; intros Hn; [done|]. rewrite not_elem_of_cons in Hn. simpl.
    rewrite (Hq st) by (intros ->; tauto). apply IH. tauto. }
  apply list_elem_of_split in Hin as (l1 & l2 & ->). apply list.NoDup_app in Hnd as (_ & Hd & Hnd).
  apply list.NoDup_cons in Hnd as [Hn2 _].
  assert (Hn1 : RUNNING ∉ l1) by (intros H; apply (Hd _ H); by left).
  rewrite map_app, join_app, (E l1 Hn1). simpl. by rewrite (E l2 Hn2).
Qed.

(** ** Scaling down *)

Lemma pop_loop_exact m n l p rem :
  pop_loop None (Some m) n l = (p, rem) -> (n <= m)%Z ->
  Z.of_nat (length p) = Z.min (m - n) (Z.of_nat (length l)).
Proof.
  revert n p rem. induction l as [|r l IH]; intros n p rem H Hn; cbn [pop_loop excluded] in H.
  - injection H as <- <-. cbn. lia.
  - rewrite orb_false_r in H. destruct (bool_decide (Some m = Some n)) eqn:E.
    + apply bool_decide_eq_true in E. injection E as ->.
      destruct (pop_loop None (Some n) n l) as [p' rem'] eqn:Ep. injection H as <- <-.
      rewrite (IH _ _ _ Ep) by lia. cbn [length]. lia.
    + apply bool_decide_eq_false in E. assert (n <> m) by congruence.
      destruct (pop_loop None (Some m) (n + 1) l) as [p' rem'] eqn:Ep. injection H as <- <-.
      cbn [length]. rewrite Nat2Z.inj_succ, (IH _ _ _ Ep) by lia. lia.
Qed.

Lemma get_cons st states C : get (st :: states) C = replicas_in st C ++ get states C.
Proof. done. Qed.

Lemma get_set_notin st l states C : st ∉ states -> get states (set_replicas st l C) = get states C.
Proof.
  induction states as [|st' states IH]; intros Hn; [done|]. rewrite not_elem_of_cons in Hn.
  rewrite !get_cons, replicas_in_set, decide_False by (intros ->; tauto). by rewrite IH by tauto.
Qed.

Lemma pop_states_exact m states : forall acc C p C',
  NoDup states -> (Z.of_nat (length acc) <= m)%Z -> pop_states None (Some m) acc states C = (p, C') ->
  Z.of_nat (length p) = Z.min m (Z.of_nat (length acc) + Z.of_nat (length (get states C)))%Z.
Proof.
  induction states as [|st states IH]; intros acc C p C' Hnd Hm H; cbn [pop_states] in H.
  - injection H as <- <-. cbn. lia.
  - apply list.NoDup_cons in Hnd as [Hn Hnd].
    destruct (pop_loop None (Some m) (Z.of_nat (length acc)) (replicas_in st C)) as [p1 rem] eqn:Ep.
    pose proof (pop_loop_exact _ _ _ _ _ Ep Hm) as Hl.
    apply IH in H; [|done | rewrite length_app; lia].
    rewrite H, get_set_notin, get_cons, !length_app by done. lia.
Qed.

(** The states a scale-down takes replicas from *)
Definition live_states : list ReplicaState := [STARTING; UPDATING; RECOVERING; RUNNING].

Lemma live_states_NoDup : NoDup live_states.
Proof. by_compute. Qed.

Lemma pop_live v m C p C' :
  (0 <= m <= Z.of_nat (length (get live_states C)))%Z -> pop None live_states (Some m) C = (p, C') ->
  Z.of_nat (length p) = m /\ replicas_in STOPPING C' = replicas_in STOPPING C /\
  (Z.of_nat (length (get live_states C')) = Z.of_nat (length (get live_states C)) - m)%Z /\
  (old_in v [RUNNING] C' <= old_in v [RUNNING] C)%nat /\
  (forall st, replicas_in st C = [] -> replicas_in st C' = []).
Proof.
  intros Hm Hp. pose proof live_states_NoDup as Hnd. unfold pop in Hp.
  pose proof (pop_states_exact m live_states [] C p C' Hnd ltac:(cbn; lia) Hp) as Hl. cbn [length] in Hl.
  destruct (pop_states_spec _ _ _ _ _ _ _ Hnd Hp) as (new & Ep & Ht & Hst & Hin & _). cbn [app] in Ep. subst new.
  assert (Hp' : Z.of_nat (length p) = m) by lia.
  assert (Hstop : replicas_in STOPPING C' = replicas_in STOPPING C) by (apply Hst; by_compute).
  assert (Hempty : forall st, replicas_in st C = [] -> replicas_in st C' = []).
  { intros st Hs. destruct (replicas_in st C') as [|x xs] eqn:E; [done|].
    specialize (Hin st x). rewrite E, Hs in Hin. specialize (Hin ltac:(left)). by apply elem_of_nil in Hin. }
  split_and!; [done | done | | | done].
  - apply (f_equal size) in Ht. rewrite gmultiset_size_disj_union in Ht. unfold tags, tags_of in Ht.
    rewrite !size_list_to_set_disj, !length_map in Ht. unfold all, ALL_REPLICA_STATES in Ht.
    rewrite !get_cons, !length_app, Hstop in Ht. unfold live_states. rewrite !get_cons, !length_app. cbn [get] in *. lia.
  - clear Hl Ht Hst Hin Hstop Hempty. unfold live_states in Hp. cbn [pop_states] in Hp.
    repeat match type of Hp with
    | context [let (popped, rem) := pop_loop ?e ?m ?n ?l in _] =>
        let E := fresh "E" in destruct (pop_loop e m n l) eqn:E
    end.
    injection Hp as _ <-. unfold old_in, get. simpl.
    rewrite !replicas_in_set, decide_True, app_nil_r, app_nil_r by done.
    match goal with E : pop_loop _ _ _ (replicas_in RUNNING _) = _ |- _ =>
      destruct (pop_loop_spec _ _ _ _ _ _ E) as (HP & _) end.
    rewrite !replicas_in_set, !decide_False in HP by done.
    rewrite HP, list.filter_app, length_app. lia.
Qed.

(** ** One call of [_scale_deployment_replicas] in numbers

    With [O] old and [N] new replicas that run, [O'] old ones still run and
    [tot] replicas are starting, being updated or running afterwards. *)
Definition scaled (T O N O' tot : Z) : Prop :=
  (T < O /\ 0 <= O' <= O /\ tot = T)%Z \/
  (O <= T /\ exists kc, let P := T - N - O in let k := Z.min O (Z.max (rollout_size T - P) 0) in
     0 <= kc <= k /\
     ((0 <= P + kc /\ O' = O - k /\ tot = T - P - kc + Z.max P 0) \/
      (P + kc < 0 /\ 0 <= O' <= O - k /\ tot = T)))%Z.

Lemma stop_wrong_rest v c c' b T :
  at_rest c -> _target_version (self c) = Some v -> version_ok v ->
  _target_replicas (self c) = T -> (1 <= T)%Z ->
  _stop_wrong_version_replicas ray c = (c', Ok b) ->
  let O := Z.of_nat (old_running v c) in let N := Z.of_nat (new_running v (cont c)) in
  let k := if (T <? O)%Z then 0%Z else Z.min O (Z.max (rollout_size T - (T - N - O)) 0) in
  steady c c' /\ replicas_in STARTING (cont c') = [] /\ replicas_in RECOVERING (cont c') = [] /\
  (Z.of_nat (old_running v c') = O - k)%Z /\ (Z.of_nat (len RUNNING c') = O + N - k)%Z /\
  exists kc, (0 <= kc <= k)%Z /\ (Z.of_nat (len UPDATING c') = k - kc)%Z /\ Z.of_nat (len STOPPING c') = kc.
Proof.
  intros Hq Hv Hvo HT HT1 H O N k.
  assert (HR : Z.of_nat (len RUNNING c) = (O + N)%Z) by (unfold O, N; rewrite (running_split v c); lia).
  assert (Hrest : steady c c /\ replicas_in STARTING (cont c) = [] /\ replicas_in RECOVERING (cont c) = [] /\
            len UPDATING c = 0%nat /\ len STOPPING c = 0%nat).
  { unfold len. rewrite !Hq by done. by split_and!. }
  destruct Hrest as (Hs & H1 & H2 & H3 & H4).
  unfold _stop_wrong_version_replicas, count_, the in H. st_simpl in H. rewrite HT, Hv in H.
  rewrite (proj2 (Z.eqb_neq T 0)) in H by lia. rewrite !count_old, count_new in H.
  change (ds_replicas (self c)) with (cont c) in H.
  rewrite (at_rest_old v c [STARTING; UPDATING; RUNNING]) in H; [|done | by_compute | by_compute].
  assert (E0 : old_in v [STOPPING] (cont c) = 0%nat).
  { unfold old_in. rewrite get_cons, Hq by done. done. }
  rewrite E0 in H. cbn [Z.of_nat] in H. rewrite Z.add_0_r in H. fold O N in H. unfold k.
  destruct (T <? O)%Z eqn:ETO.
  { injection H as <- _. split_and!; [done | done | done | unfold O; lia | lia|].
    exists 0%Z. rewrite H3, H4. split_and!; lia. }
  apply Z.ltb_ge in ETO. unfold pop_, the, change in H. st_simpl in H.
  set (mx := Z.max (rollout_size T - (T - N - O)) 0) in *.
  destruct (pop (Some v) [STARTING; RUNNING] (Some mx) (ds_replicas (self c))) as [p C] eqn:Ep.
  assert (Hmx : (0 <= mx)%Z) by lia.
  destruct (pop_old v mx _ p C Hmx Ep) as (Hle & Hsame & p1 & p2 & Epp & Ho1 & Ho2 & HP1 & HP2 & Hex).
  change (ds_replicas (self c)) with (cont c) in *.
  rewrite H1 in HP1. apply Permutation_nil_l in HP1. symmetry in HP1. apply app_eq_nil in HP1 as [-> HS]. cbn [app] in Epp. subst p2.
  destruct (filter_perm_old v _ _ _ HP2 Ho2) as [Hf _]. rewrite <- old_running_filter in Hf.
  assert (Hp : Z.of_nat (length p) = Z.min O mx).
  { destruct (filter (is_old v) (replicas_in RUNNING C)) as [|x xs] eqn:Ef.
    - cbn [length] in Hf. unfold O in *. lia.
    - assert (Hx : x ∈ filter (is_old v) (replicas_in RUNNING C)) by (rewrite Ef; left).
      apply list_elem_of_filter in Hx as [Hox Hx]. specialize (Hex x Hx Hox).
      assert (length p <= old_running v c)%nat by (rewrite Hf; lia). unfold O. lia. }
  apply update_fold in H as (Hst & kc & Hkc & Hstp & Hupd & Hother); [|done].
  set (c1 := set_self (set_container C (self c)) c) in *.
  assert (HC : cont c1 = C) by done. unfold len in *.
  rewrite !HC in Hstp, Hupd. rewrite !Hsame in Hstp, Hupd by done.
  assert (Hlen : length (replicas_in RUNNING (cont c)) = (length p + length (replicas_in RUNNING C))%nat).
  { rewrite HP2, length_app. done. }
  split_and!.
  - eapply steady_trans; [|exact Hst]. done.
  - by rewrite Hother, HC by done.
  - rewrite Hother, HC, Hsame by done. done.
  - rewrite old_running_filter, Hother, HC by done. unfold O. lia.
  - rewrite Hother, HC by done. lia.
  - exists (Z.of_nat kc). split_and!; lia.
Qed.

Lemma scale_rest v c c' b T :
  at_rest c -> _target_version (self c) = Some v -> version_ok v ->
  _target_replicas (self c) = T -> (1 <= T)%Z ->
  _scale_deployment_replicas ray c = (c', Ok b) ->
  steady c c' /\ replicas_in RECOVERING (cont c') = [] /\
  scaled T (Z.of_nat (old_running v c)) (Z.of_nat (new_running v (cont c))) (Z.of_nat (old_running v c'))
    (Z.of_nat (len STARTING c' + len UPDATING c' + len RUNNING c')).
Proof.
  intros Hq Hv Hvo HT HT1. unfold _scale_deployment_replicas, the. st_simpl. rewrite HT.
  rewrite (proj2 (Z.leb_le 0 T)) by lia. cbn [py_assert].
  destruct (_stop_wrong_version_replicas ray c) as [c1 [b1|e]] eqn:E1; [|done].
  destruct (stop_wrong_rest v c c1 b1 T Hq Hv Hvo HT HT1 E1) as (Hs1 & HS & HR & HO & HL & kc & Hk & HU & HP).
  set (O := Z.of_nat (old_running v c)) in *. set (N := Z.of_nat (new_running v (cont c))) in *.
  unfold count_, the. st_simpl. rewrite !count_plain. change (ds_replicas (self c1)) with (cont c1).
  assert (Ecur : Z.of_nat (length (get [STARTING; UPDATING; RUNNING] (cont c1))) = (O + N - kc)%Z).
  { rewrite !get_cons, !length_app, HS. unfold len in *. cbn. lia. }
  assert (Erec : Z.of_nat (length (get [RECOVERING] (cont c1))) = 0%Z) by (by rewrite get_cons, HR).
  assert (Estp : Z.of_nat (length (get [STOPPING] (cont c1))) = kc).
  { rewrite get_cons, length_app. unfold len in *. cbn. lia. }
  assert (Elive : Z.of_nat (length (get live_states (cont c1))) = (O + N - kc)%Z).
  { unfold live_states. rewrite !get_cons, !length_app, HS, HR. unfold len in *. cbn. lia. }
  rewrite Ecur, Erec. unfold scaled.
  assert (HlenS : len STARTING c1 = 0%nat) by (unfold len; by rewrite HS).
  destruct (T - (O + N - kc) - 0 =? 0)%Z eqn:Ed.
  { apply Z.eqb_eq in Ed. intros [= <- _]. split_and!; [done | done|].
    destruct (T <? O)%Z eqn:ETO; [apply Z.ltb_lt in ETO; left; lia | apply Z.ltb_ge in ETO; right].
    split; [lia|]. exists kc. cbv zeta. split; [lia|]. left. lia. }
  apply Z.eqb_neq in Ed. destruct (0 <? T - (O + N - kc) - 0)%Z eqn:Ep.
  - apply Z.ltb_lt in Ep. rewrite count_plain. change (ds_replicas (self c1)) with (cont c1). rewrite Estp.
    destruct (st_for _ _ c1) as [c2 [u|e]] eqn:E2; [|done]. intros [= <- _].
    destruct (start_fold _ _ _ _ _ E2) as (Hs2 & Hg & Hsame).
    assert (Hlen : forall st, st <> STARTING -> len st c2 = len st c1) by (intros st Hst; unfold len; by rewrite Hsame).
    rewrite (Hlen UPDATING), (Hlen RUNNING), Hg, HlenS by done.
    rewrite old_running_filter, (Hsame RUNNING), <- old_running_filter by done.
    split; [by eapply steady_trans|]. split; [by rewrite Hsame|].
    destruct (T <? O)%Z eqn:ETO; [apply Z.ltb_lt in ETO; lia | apply Z.ltb_ge in ETO; right].
    split; [lia|]. exists kc. cbv zeta. split; [lia|]. left. lia.
  - apply Z.ltb_ge in Ep. unfold pop_, the, change. st_simpl. fold live_states.
    match goal with |- context [pop None live_states (Some ?x) _] => set (m := x) end.
    destruct (pop None live_states (Some m) (ds_replicas (self c1))) as [p C] eqn:Epop.
    change (ds_replicas (self c1)) with (cont c1) in Epop.
    destruct (pop_live v m _ _ _ ltac:(rewrite Elive; unfold m; lia) Epop) as (Hlp & HstpC & HliveC & HoldC & Hemp).
    destruct (st_for p _ _) as [c3 [u|e]] eqn:E3; [|done]. intros [= <- _].
    destruct (stop_fold _ _ _ _ E3) as (Hs3 & Hg & Hsame).
    match type of E3 with st_for _ _ ?x = _ => set (c2 := x) in * end. assert (HC : cont c2 = C) by done.
    assert (Hlen : forall st, st <> STOPPING -> len st c3 = length (replicas_in st C))
      by (intros st Hst; unfold len; by rewrite Hsame, HC).
    rewrite (Hlen STARTING), (Hlen UPDATING), (Hlen RUNNING) by done.
    rewrite old_running_filter, (Hsame RUNNING), HC by done.
    assert (Hold : (length (filter (is_old v) (replicas_in RUNNING C)) <= old_running v c1)%nat).
    { unfold old_running. unfold old_in, get in HoldC. simpl in HoldC. rewrite !app_nil_r in HoldC.
      unfold old_in, get. simpl. by rewrite app_nil_r. }
    assert (HRC : replicas_in RECOVERING C = []) by (by apply Hemp).
    split; [eapply steady_trans; [exact Hs1 | eapply steady_trans; [|exact Hs3]; done]|].
    split; [by rewrite Hsame, HC|].
    assert (Htot : Z.of_nat (length (replicas_in STARTING C) + length (replicas_in UPDATING C) + length (replicas_in RUNNING C)) = T).
    { rewrite Elive in HliveC. unfold live_states in HliveC. rewrite !get_cons, !length_app, HRC in HliveC.
      change (get [] C) with (@nil (DeploymentReplica Any)) in HliveC. cbn [length] in HliveC. unfold m in HliveC. lia. }
    rewrite Htot.
    destruct (T <? O)%Z eqn:ETO; [apply Z.ltb_lt in ETO; left; lia | apply Z.ltb_ge in ETO; right].
    split; [lia|]. exists kc. cbv zeta. split; [lia|]. right. lia.
Qed.

(** ** A cluster that does as it is told

    From call [n0] on, actors are found and allocated, report a version equal
    to [v] when asked, shut down when told to and pass their health checks. *)
Record obliging v (n0 : nat) : Prop := {
  ob_actor : forall n a, (n0 <= n)%nat -> get_actor ray n a = true;
  ob_allocated : forall n a, (n0 <= n)%nat -> ray_allocated ray n a = true;
  ob_ready : forall n a, (n0 <= n)%nat -> exists q t v', ray_ready ray n a = Some (Some (q, t, v')) /\ version_eqb v' v = true;
  ob_shutdown : forall n a, (n0 <= n)%nat -> ray_shutdown_done ray n a = true;
  ob_health : forall n a, (n0 <= n)%nat -> ray_run_forever_done ray n a = false
}.

Section Obliging.
Hypothesis Hcluster : cluster_ok ray.
Variables (v0 : DeploymentVersion Any) (n0 : nat).
Hypothesis Hob : obliging v0 n0.

(** Replicas of the target version that went to [RUNNING]; nothing else moved. *)
Definition joins (l' : list (DeploymentReplica Any)) c c' : Prop :=
  replicas_in RUNNING (cont c') = replicas_in RUNNING (cont c) ++ l' /\
  forall st, st <> RUNNING -> replicas_in st (cont c') = replicas_in st (cont c).

Lemma joins_add r c c' : cont c' = add RUNNING r (cont c) -> joins [r] c c'.
Proof.
  intros E. split; [|intros st Hst]; rewrite E, replicas_in_add; by rewrite ?decide_True, ?decide_False by done.
Qed.

Lemma joins_nil c : joins [] c c.
Proof. split; [by rewrite app_nil_r | done]. Qed.

Lemma joins_trans l1 l2 c1 c2 c3 : joins l1 c1 c2 -> joins l2 c2 c3 -> joins (l1 ++ l2) c1 c3.
Proof.
  intros [R1 O1] [R2 O2]. split; [by rewrite R2, R1, app_assoc|]. intros st Hst. by rewrite O2, O1.
Qed.

Lemma check_running_obliging r b c :
  live r -> (n0 <= calls (world c))%nat ->
  exists c' r', check_running_replica ray b r c = (c', Ok b) /\ steady c c' /\ joins [r'] c c' /\
    _version r' = _version r.
Proof.
  intros (Hn & Hs & Ha & Ht) Hc. unfold check_running_replica, on_world, check_health, wrapper_check_health.
  rewrite Ha, orb_true_r. unfold ask, tick, add_replica, change. cbn [negb]. st_simpl. cbn [calls log].
  rewrite (ob_health _ _ Hob) by done. cbn [negb].
  match goal with |- context [add RUNNING ?r1 _] => set (r' := r1) end.
  do 2 eexists. split; [reflexivity|]. split; [|split; [by apply (joins_add r')|done]].
  split; [done|]. split; [cbn; lia | done].
Qed.

Lemma check_startup_obliging st0 slow acc r c :
  live r -> (n0 <= calls (world c))%nat ->
  exists c' r', check_startup_replica ray st0 slow acc r c = (c', Ok (acc.1, true)) /\ steady c c' /\
    joins [r'] c c' /\ is_new v0 r'.
Proof.
  intros (Hn & Hs & Ha & Ht) Hc. destruct acc as [sl tr].
  unfold check_startup_replica, on_world, check_started, check_ready. rewrite Hs.
  unfold ask, tick, add_replica, change. cbn [negb]. st_simpl. cbn [calls log].
  rewrite (ob_allocated _ _ Hob) by done. cbn [negb calls log].
  destruct (ob_ready _ _ Hob (S (calls (world c))) (_actor_name (_actor r))) as (q & t & v' & -> & Hv); [lia|].
  cbn [fst].
  match goal with |- context [add RUNNING ?r1 _] => set (r' := r1) end.
  do 2 eexists. split; [reflexivity|]. split; [|split; [by apply (joins_add r') | exact Hv]].
  split; [done|]. split; [cbn; lia | done].
Qed.

Lemma check_stopping_obliging r c :
  stopping ray (calls (world c)) r -> (n0 <= calls (world c))%nat ->
  exists c', check_stopping_replica ray r c = (c', Ok tt) /\ steady c c' /\ cont c' = cont c.
Proof.
  intros (Hn & Hd & Hr) Hc. unfold check_stopping_replica, on_world, check_stopped, wrapper_check_stopped, cleanup.
  assert (Href : _graceful_shutdown_ref (_actor r) = true).
  { destruct Hr as [?|(m & Hm & Hg)]; [done|].
    apply (gone_stays_gone ray Hcluster m (calls (world c))) in Hg; [|lia]. by rewrite (ob_actor _ _ Hob) in Hg. }
  unfold ask, tick, command_. st_simpl. cbn [calls log]. rewrite (ob_actor _ _ Hob) by done. rewrite Href.
  cbn [negb calls log]. rewrite (ob_shutdown _ _ Hob) by lia. cbn [calls log].
  destruct (use_placement_group ray); [destruct (_placement_group (_actor r))|]; cbn [negb calls log];
    (eexists; split; [reflexivity|]; split; [split; [done|]; split; [cbn; lia | done] | done]).
Qed.

Lemma running_fold l : forall b c,
  Forall live l -> (n0 <= calls (world c))%nat ->
  exists c' l', st_fold (check_running_replica ray) b l c = (c', Ok b) /\ steady c c' /\ joins l' c c' /\
    map _version l' = map _version l.
Proof.
  induction l as [|r l IH]; intros b c Hl Hc; cbn [st_fold]; st_simpl.
  - exists c, []. split_and!; [done | apply steady_refl | apply joins_nil | done].
  - apply list.Forall_cons in Hl as [Hr Hl].
    destruct (check_running_obliging r b c Hr Hc) as (c1 & r' & -> & Hs1 & Hj1 & Hv1).
    destruct (IH b c1 Hl) as (c2 & l' & -> & Hs2 & Hj2 & Hv2); [destruct Hs1 as (_ & ? & _); lia|].
    exists c2, (r' :: l'). split_and!; [done | by eapply steady_trans | | by cbn; rewrite Hv1, Hv2].
    by apply (joins_trans [r'] l' c c1 c2).
Qed.

Lemma startup_fold st0 slow l : forall acc c,
  Forall live l -> (n0 <= calls (world c))%nat ->
  exists c' l' b, st_fold (check_startup_replica ray st0 slow) acc l c = (c', Ok (acc.1, b)) /\ steady c c' /\
    joins l' c c' /\ Forall (is_new v0) l' /\ length l' = length l.
Proof.
  induction l as [|r l IH]; intros acc c Hl Hc; cbn [st_fold]; st_simpl.
  - exists c, [], acc.2. split_and!; [by destruct acc | apply steady_refl | apply joins_nil | done | done].
  - apply list.Forall_cons in Hl as [Hr Hl].
    destruct (check_startup_obliging st0 slow acc r c Hr Hc) as (c1 & r' & -> & Hs1 & Hj1 & Hv1).
    destruct (IH (acc.1, true) c1 Hl) as (c2 & l' & b & -> & Hs2 & Hj2 & Hv2 & Hl2);
      [destruct Hs1 as (_ & ? & _); lia|].
    exists c2, (r' :: l'), b. split_and!; [done | by eapply steady_trans | | by constructor | by cbn; rewrite Hl2].
    by apply (joins_trans [r'] l' c c1 c2).
Qed.

Lemma stopping_fold l : forall c,
  Forall (stopping ray (calls (world c))) l -> (n0 <= calls (world c))%nat ->
  exists c', st_for l (check_stopping_replica ray) c = (c', Ok tt) /\ steady c c' /\ cont c' = cont c.
Proof.
  induction l as [|r l IH]; intros c Hl Hc; cbn [st_for]; st_simpl; [by exists c|].
  apply list.Forall_cons in Hl as [Hr Hl].
  destruct (check_stopping_obliging r c Hr Hc) as (c1 & -> & Hs1 & E1). pose proof Hs1 as (_ & Hle & _).
  destruct (IH c1) as (c2 & -> & Hs2 & E2); [|lia|].
  - eapply list.Forall_impl; [exact Hl|]. intros x. by apply stopping_mono.
  - exists c2. split_and!; [done | by eapply steady_trans | congruence].
Qed.

Lemma pop_run st c : exists c',
  pop_ None [st] None c = (c', Ok (replicas_in st (cont c))) /\ steady c c' /\
  replicas_in st (cont c') = [] /\ (forall st', st' <> st -> replicas_in st' (cont c') = replicas_in st' (cont c)).
Proof.
  unfold pop_, the, change. st_simpl. rewrite pop_all. eexists. split; [reflexivity|]. split; [done|].
  unfold cont. cbn. split; [by rewrite replicas_in_set, decide_True|].
  intros st' Hne. by rewrite replicas_in_set, decide_False.
Qed.

(** A pass of startups: the replicas of one state join [RUNNING]. *)
Lemma startups_obliging st0 slow c :
  st0 <> RUNNING -> Forall live (replicas_in st0 (cont c)) -> (n0 <= calls (world c))%nat ->
  exists c' l' b, _check_startup_replicas ray st0 slow c = (c', Ok ([], b)) /\ steady c c' /\
    Forall (is_new v0) l' /\ length l' = len st0 c /\
    replicas_in RUNNING (cont c') = replicas_in RUNNING (cont c) ++ l' /\ replicas_in st0 (cont c') = [] /\
    (forall st, st <> RUNNING -> st <> st0 -> replicas_in st (cont c') = replicas_in st (cont c)).
Proof.
  intros Hne Hl Hc. unfold _check_startup_replicas. st_simpl.
  destruct (pop_run st0 c) as (c1 & -> & Hs1 & He & Ho). pose proof Hs1 as (_ & Hle & _).
  destruct (startup_fold st0 slow (replicas_in st0 (cont c)) ([], false) c1 Hl) as (c2 & l' & b & -> & Hs2 & [HR HO] & Hn & Hlen);
    [lia|].
  exists c2, l', b. split_and!; [done | by eapply steady_trans | done | done | | |].
  - by rewrite HR, Ho by done.
  - by rewrite HO.
  - intros st H1 H2. by rewrite HO, Ho.
Qed.

Lemma check_and_update_obliging c :
  container_ok ray c -> replicas_in RECOVERING (cont c) = [] -> (n0 <= calls (world c))%nat ->
  exists c' b, _check_and_update_replicas ray c = (c', Ok b) /\ steady c c' /\ at_rest c' /\
    old_running v0 c' = old_running v0 c /\
    len RUNNING c' = (len STARTING c + len UPDATING c + len RUNNING c)%nat.
Proof.
  intros Hok Hrec Hc.
  assert (Hlive : forall st, st <> STOPPING -> Forall live (replicas_in st (cont c))).
  { intros st Hst. apply list.Forall_forall. intros r Hr. apply Hok in Hr. destruct st; cbn in Hr; tauto. }
  unfold _check_and_update_replicas. st_simpl.
  destruct (pop_run RUNNING c) as (c1 & -> & Hs1 & He1 & Ho1). pose proof Hs1 as (_ & Hle1 & _).
  destruct (running_fold (replicas_in RUNNING (cont c)) false c1) as (c2 & lr & -> & Hs2 & [HR2 HO2] & Hv2);
    [by apply Hlive | lia|]. pose proof Hs2 as (_ & Hle2 & _).
  assert (H2 : forall st, st <> RUNNING -> replicas_in st (cont c2) = replicas_in st (cont c)).
  { intros st Hst. by rewrite HO2, Ho1. }
  destruct (startups_obliging STARTING false c2) as (c3 & l3 & b3 & -> & Hs3 & Hn3 & Hl3 & HR3 & He3 & HO3);
    [done | rewrite H2 by done; by apply Hlive | lia|]. pose proof Hs3 as (_ & Hle3 & _).
  destruct (startups_obliging UPDATING false c3) as (c4 & l4 & b4 & -> & Hs4 & Hn4 & Hl4 & HR4 & He4 & HO4);
    [done | rewrite HO3, H2 by done; by apply Hlive | lia|]. pose proof Hs4 as (_ & Hle4 & _).
  destruct (startups_obliging RECOVERING true c4) as (c5 & l5 & b5 & -> & Hs5 & Hn5 & Hl5 & HR5 & He5 & HO5);
    [done | rewrite HO4, HO3, H2 by done; by apply Hlive | lia|]. pose proof Hs5 as (_ & Hle5 & _).
  unfold warn_slow_replicas. cbn [app length Nat.eqb]. st_simpl.
  destruct (pop_run STOPPING c5) as (c6 & -> & Hs6 & He6 & Ho6). pose proof Hs6 as (_ & Hle6 & _).
  assert (Hstop : replicas_in STOPPING (cont c5) = replicas_in STOPPING (cont c)).
  { by rewrite HO5, HO4, HO3, H2. }
  destruct (stopping_fold (replicas_in STOPPING (cont c5)) c6) as (c7 & -> & Hs7 & E7); [|lia|].
  { rewrite Hstop. apply list.Forall_forall. intros r Hr. apply Hok in Hr. eapply stopping_mono; [|exact Hr]. lia. }
  assert (HRUN : replicas_in RUNNING (cont c7) = lr ++ l3 ++ l4).
  { rewrite E7, Ho6, HR5, HR4, HR3, HR2, He1 by done. cbn [app].
    assert (l5 = []) as ->.
    { destruct l5; [done|]. unfold len in Hl5. rewrite HO4, HO3, H2, Hrec in Hl5 by done. done. }
    by rewrite app_nil_r, <- app_assoc. }
  assert (Hlr : length lr = len RUNNING c) by (unfold len; rewrite <- (length_map _version lr), Hv2; apply length_map).
  exists c7. eexists. split; [reflexivity|]. split_and!.
  - repeat (eapply steady_trans; [eassumption|]). apply steady_refl.
  - intros st Hst. rewrite E7. destruct (decide (st = STOPPING)) as [->|H1]; [done|].
    rewrite Ho6 by done. destruct (decide (st = RECOVERING)) as [->|H3]; [done|].
    rewrite HO5 by done. destruct (decide (st = UPDATING)) as [->|H4]; [done|].
    rewrite HO4 by done. destruct (decide (st = STARTING)) as [->|H5]; [done|]. by destruct st.
  - rewrite !old_running_filter, HRUN, !list.filter_app, !length_app.
    assert (Hnone : forall l, Forall (is_new v0) l -> filter (is_old v0) l = []).
    { intros l Hl. apply filter_none. eapply list.Forall_impl; [exact Hl|]. unfold is_new, is_old. intros r ->. done. }
    rewrite (Hnone l3 Hn3), (Hnone l4 Hn4). cbn [length Nat.add]. rewrite Nat.add_0_r.
    clear -Hv2. revert Hv2. generalize (replicas_in RUNNING (cont c)). induction lr as [|x lr IH]; intros [|y l] H; try done.
    cbn in H. injection H as Hx Hl. specialize (IH l Hl).
    destruct (decide (is_old v0 x)) as [Ho|Ho].
    + rewrite filter_cons_True, filter_cons_True; [cbn; by rewrite IH | unfold is_old in *; congruence | done].
    + rewrite filter_cons_False, filter_cons_False; [done | unfold is_old in *; congruence | done].
  - unfold len at 1. rewrite HRUN, !length_app, Hlr, Hl3, Hl4. unfold len. rewrite HO3, !H2 by done. lia.
Qed.


(** ** A step of the control loop on a deployment at rest *)

Record rolling (T g : Z) c : Prop := {
  ro_ok : ctx_ok ray c;
  ro_rest : at_rest c;
  ro_version : _target_version (self c) = Some v0;
  ro_version_ok : version_ok v0;
  ro_target : _target_replicas (self c) = T;
  ro_positive : (1 <= T)%Z;
  ro_goal : _curr_goal (self c) = Some g;
  ro_retries : (_replica_constructor_retry_counter (self c) < Z.min MAX_DEPLOYMENT_CONSTRUCTOR_RETRY_COUNT (T * 3))%Z;
  ro_calls : (n0 <= calls (world c))%nat
}.

Definition succeeded (T : Z) c : bool := (T =? Z.of_nat (new_running v0 (cont c)))%Z.

Lemma status_rest T g c :
  at_rest c -> _target_version (self c) = Some v0 -> _target_replicas (self c) = T -> (1 <= T)%Z ->
  _curr_goal (self c) = Some g ->
  (_replica_constructor_retry_counter (self c) < Z.min MAX_DEPLOYMENT_CONSTRUCTOR_RETRY_COUNT (T * 3))%Z ->
  _check_curr_goal_status c = (c, Ok (if succeeded T c then SUCCEEDED else PENDING)).
Proof.
  intros Hq Hv HT HT1 Hg Hr. unfold _check_curr_goal_status, count_, the. st_simpl.
  rewrite Hg, Hv, HT, count_new, !count_plain. change (ds_replicas (self c)) with (cont c).
  rewrite (proj2 (Z.leb_gt _ _) Hr). cbn [andb].
  assert (E : length (get [STARTING; UPDATING; RECOVERING; STOPPING] (cont c)) = 0%nat).
  { rewrite !get_cons, !Hq by done. done. }
  rewrite !count_plain. change (ds_replicas (self c)) with (cont c). rewrite E. cbn [Z.of_nat Z.eqb].
  rewrite (proj2 (Z.eqb_neq T 0)) by lia. cbn [andb]. unfold succeeded. by destruct (T =? _)%Z.
Qed.

(** The goals after a step: the goal is completed when the step succeeded. *)
Definition goals_after (T g : Z) c c' : Prop :=
  goals c' = if succeeded T c' then (complete_goal g None (goals c)).1 else goals c.

Lemma step_rolling T g c :
  rolling T g c ->
  exists c', update ray save c = (c', Ok false) /\ rolling T g c' /\ goals_after T g c c' /\
    scaled T (Z.of_nat (old_running v0 c)) (Z.of_nat (new_running v0 (cont c))) (Z.of_nat (old_running v0 c'))
      (Z.of_nat (len RUNNING c')).
Proof.
  intros [Hok Hq Hv Hvo HT HT1 Hg Hr Hc].
  destruct (update_keeps ray save c Hcluster Hok) as (cf & bf & ? & ? & Ef & Hokf & _).
  pose proof Ef as E. unfold update in E. st_simpl in E.
  pose proof (scale_triple ray c (ok_container _ _ Hok) (ok_target _ _ Hok) c eq_refl) as Hsc.
  destruct (_scale_deployment_replicas ray c) as [c1 [b1|e]] eqn:E1; [|done]. destruct Hsc as (S & sts & [_ Hok1 _ _ _ _ _] & _).
  destruct (scale_rest v0 c c1 b1 T Hq Hv Hvo HT HT1 E1) as (Hs1 & Hrec & Hnum). pose proof Hs1 as (_ & Hle1 & _).
  destruct (check_and_update_obliging c1 Hok1 Hrec) as (c2 & b2 & E2 & Hs2 & Hq2 & Hold & Hlen); [lia|].
  rewrite E2 in E. pose proof Hs2 as (_ & Hle2 & _).
  assert (Hok2 : container_ok ray c2).
  { pose proof (check_and_update_triple ray Hcluster c1 [] [] [] c1 (keeps_init ray c1 Hok1)) as H.
    rewrite E2 in H. by destruct H as (G & [_ H _ _ _ _ _]). }
  assert (Hn : exists c3, (if b1 || b2 then _notify_running_replicas_changed ray else mret tt) c2 = (c3, Ok tt) /\
            steady c2 c3 /\ same_replicas c2 c3).
  { destruct (b1 || b2); [|exists c2; split_and!; [done | apply steady_refl | done]].
    destruct (notify_spec ray c2 Hok2) as (c3 & infos & n & En & H1 & H2 & [H3 _] & _ & _ & H4).
    exists c3. by split_and!. }
  destruct Hn as (c3 & En & Hs3 & Hsame). pose proof Hs3 as (_ & Hle3 & _). st_simpl in En. rewrite En in E.
  assert (Hs : steady c c3) by (repeat (eapply steady_trans; [eassumption|]); apply steady_refl).
  destruct Hs as ((Tg & Tk & Tn & Ti & Tr & TT & Tc & Tv) & HL & Hret).
  assert (Hq3 : at_rest c3) by (intros st Hst; by rewrite Hsame, Hq2).
  rewrite (status_rest T g c3 Hq3) in E; [|congruence | congruence | done | congruence | by rewrite Hret].
  assert (Hnew : new_running v0 (cont c3) = new_running v0 (cont c2)) by (unfold new_running; by rewrite Hsame).
  assert (Hold3 : old_running v0 c3 = old_running v0 c2) by (rewrite !old_running_filter; by rewrite Hsame).
  assert (Hlen3 : len RUNNING c3 = len RUNNING c2) by (unfold len; by rewrite Hsame).
  rewrite <- Hold, <- Hold3, <- Hlen, <- Hlen3 in Hnum.
  unfold finish_goal, the in E. st_simpl in E.
  destruct (succeeded T c3) eqn:Esuc.
  - destruct (complete_spec (_curr_goal (self c3)) None c3) as (c4 & E4 & [Ec4 [Hw4 _]] & Es4 & _).
    { rewrite Tg. apply Hok. }
    pose proof E4 as E5. rewrite Tc, Hg in E5. unfold complete, on_goals in E5. st_simpl in E5.
    rewrite E4 in E. unfold change in E. st_simpl in E. injection E as <- <-.
    set (c5 := set_self (set_rollback None (self c4)) c4) in *.
    assert (Hc5 : cont c5 = cont c3) by (unfold cont, c5 in *; cbn; by rewrite Es4).
    assert (Hsuc5 : succeeded T c5 = true) by (unfold succeeded in *; by rewrite Hc5).
    exists c5. split; [exact Ef|]. split; [|split].
    + assert (Ht5 : _target_version (self c5) = _target_version (self c3) /\
        _target_replicas (self c5) = _target_replicas (self c3) /\ _curr_goal (self c5) = _curr_goal (self c3) /\
        _replica_constructor_retry_counter (self c5) = _replica_constructor_retry_counter (self c3) /\
        (calls (world c3) <= calls (world c5))%nat) by (unfold c5; cbn; by rewrite Es4).
      destruct Ht5 as (X1 & X2 & X3 & X4 & X5).
      split; [done | intros st Hst; rewrite Hc5; by apply Hq3 | congruence | done | congruence | done | congruence | by rewrite X4, Hret | lia].
    + unfold goals_after. rewrite Hsuc5, <- Tg. unfold c5. cbn.
      destruct (complete_goal g None (goals c3)) as [m res]. injection E5 as <- _. done.
    + rewrite !old_running_filter in *. unfold len in *. rewrite Hc5. exact Hnum.
  - injection E as <- <-. exists c3. split; [exact Ef|]. split; [|split; [|exact Hnum]].
    + split; [done | done | congruence | done | congruence | done | congruence | by rewrite Hret | lia].
    + unfold goals_after. rewrite Esuc. done.
Qed.

(** ** Convergence *)

Fixpoint updates (n : nat) : ST (Ctx Any KV) unit :=
  match n with O => mret tt | S n' => _ ← update ray save; updates n' end.

Lemma updates_S n c c1 b : update ray save c = (c1, Ok b) -> updates (S n) c = updates n c1.
Proof. intros E. cbn [updates]. st_simpl. by rewrite E. Qed.

(** The target is reached: every replica runs, at the target's version. *)
Definition reached (T : Z) c : Prop := old_running v0 c = 0%nat /\ Z.of_nat (len RUNNING c) = T.

Lemma rollout_positive T : (1 <= rollout_size T)%Z.
Proof. unfold rollout_size. lia. Qed.

Lemma reached_succeeded T c :
  (Z.of_nat (len RUNNING c) <= T)%Z -> succeeded T c = true <-> reached T c.
Proof.
  intros Hle. unfold succeeded, reached. rewrite (running_split v0 c) in *. rewrite Z.eqb_eq. lia.
Qed.

Lemma goals_reached T g c c' :
  (Z.of_nat (len RUNNING c') <= T)%Z -> goals_after T g c c' ->
  (reached T c' /\ goals c' = (complete_goal g None (goals c)).1) \/ (~ reached T c' /\ goals c' = goals c).
Proof.
  intros Hle H. unfold goals_after in H. pose proof (reached_succeeded T c' Hle) as Hr.
  destruct (succeeded T c'); [left | right]; (split; [|done]); [by apply Hr|]. intros C. by apply Hr in C.
Qed.

Lemma converge_below T g m : forall c,
  rolling T g c -> (Z.of_nat (len RUNNING c) <= T)%Z ->
  (2 * Z.of_nat (old_running v0 c) +
     (if (rollout_size T <=? T - Z.of_nat (len RUNNING c))%Z then 1 else 0) <= Z.of_nat m)%Z ->
  exists n c', (n <= m + 1)%nat /\ updates n c = (c', Ok tt) /\ rolling T g c' /\ reached T c' /\
    goals c' = (complete_goal g None (goals c)).1.
Proof.
  induction m as [|m IH]; intros c Hro Hle Hm;
    destruct (step_rolling T g c Hro) as (c1 & E & Hro1 & Hg & Hsc); pose proof (rollout_positive T) as Hpos;
    unfold scaled in Hsc; pose proof (running_split v0 c) as Hsp; destruct Hsc as [Hsc|[_ (kc & Hsc)]]; try lia;
    cbv zeta in Hsc; set (O := old_running v0 c) in *; set (N := new_running v0 (cont c)) in *;
    destruct Hsc as (Hk & [(HP & HO1 & Ht1)|(HP & _)]); try lia;
    (destruct (goals_reached T g c c1) as [[Hre Hgo]|[Hnr Hgo]]; [lia | done | |]).
  - exists 1%nat, c1. by split_and!; [lia | rewrite (updates_S _ _ _ _ E) | |  | ].
  - exfalso. apply Hnr. unfold reached. destruct (rollout_size T <=? _)%Z; lia.
  - exists 1%nat, c1. by split_and!; [lia | rewrite (updates_S _ _ _ _ E) | | |].
  - destruct (IH c1 Hro1) as (n & c2 & Hn & E2 & Hro2 & Hre2 & Hgo2); [lia| |].
    + assert (O <> 0%nat) by (intros HO0; apply Hnr; unfold reached; lia).
      destruct (rollout_size T <=? T - Z.of_nat (len RUNNING c))%Z eqn:E1;
        [apply Z.leb_le in E1 | apply Z.leb_gt in E1];
        (destruct (rollout_size T <=? T - Z.of_nat (len RUNNING c1))%Z eqn:E2;
         [apply Z.leb_le in E2 | apply Z.leb_gt in E2]); lia.
    + exists (S n), c2. split_and!; [lia | by rewrite (updates_S _ _ _ _ E) | done | done | by rewrite Hgo2, Hgo].
Qed.

(** C5. Once the cluster does as it is told, a rolling update finishes: from any
    mix of old and new replicas that run, within twice the number of old ones
    plus three steps every replica runs the target version, there are as many
    as the target asks for, and a client that waits on the deployment's goal
    is told of its success. *)
Theorem rolling_update_converges (T g : Z) (c : Ctx Any KV) :
  rolling T g c ->
  exists n c', (n <= 2 * old_running v0 c + 3)%nat /\ updates n c = (c', Ok tt) /\
    at_rest c' /\ Forall (is_new v0) (replicas_in RUNNING (cont c')) /\
    Z.of_nat (len RUNNING c') = T /\
    (forall a, wait_for_goal g (goals c) = Awaiting a -> resume_wait (Awaiting a) (goals c') = Returned None).
Proof.
  intros Hro. pose proof (ro_ok _ _ _ Hro) as Hok.
  assert (Hend : forall c', rolling T g c' -> reached T c' ->
    goals c' = (complete_goal g None (goals c)).1 ->
    at_rest c' /\ Forall (is_new v0) (replicas_in RUNNING (cont c')) /\ Z.of_nat (len RUNNING c') = T /\
    (forall a, wait_for_goal g (goals c) = Awaiting a -> resume_wait (Awaiting a) (goals c') = Returned None)).
  { intros c' [_ Hq _ _ _ _ _ _ _] [Ho Hl] Hg. split_and!; [done | | done|].
    - apply list.Forall_forall. intros r Hr. destruct (opt_version_eqb (_version r) (Some v0)) eqn:E; [done|].
      exfalso. rewrite old_running_filter in Ho.
      assert (Hin : r ∈ filter (is_old v0) (replicas_in RUNNING (cont c'))) by (by apply list_elem_of_filter).
      destruct (filter (is_old v0) _); [by apply elem_of_nil in Hin | done].
    - intros a Hw. unfold wait_for_goal in Hw. destruct (dget g (_pending_goals (goals c))) as [a'|] eqn:Ed; [|done].
      injection Hw as <-. rewrite Hg, (complete_pending g None (goals c) a' (ok_goals _ _ Hok) Ed). cbn.
      rewrite list_lookup_insert_eq; [done|]. eapply lookup_lt_Some, (ok_goals _ _ Hok), Ed. }
  destruct (step_rolling T g c Hro) as (c1 & E & Hro1 & Hg & Hsc). pose proof (rollout_positive T) as Hpos.
  assert (Hle : (Z.of_nat (len RUNNING c1) <= T)%Z /\ (old_running v0 c1 <= old_running v0 c)%nat).
  { unfold scaled in Hsc. destruct Hsc as [Hsc|[_ (kc & Hsc)]]; [lia|]. cbv zeta in Hsc. lia. }
  destruct (goals_reached T g c c1) as [[Hre Hgo]|[_ Hgo]]; [lia | done | |].
  - exists 1%nat, c1. split; [lia|]. split; [by rewrite (updates_S _ _ _ _ E)|]. by apply Hend.
  - destruct (converge_below T g (2 * old_running v0 c1 + 1) c1 Hro1) as (n & c2 & Hn & E2 & Hro2 & Hre2 & Hgo2);
      [lia | destruct (rollout_size T <=? _)%Z; lia |].
    exists (S n), c2. split; [lia|]. split; [by rewrite (updates_S _ _ _ _ E)|].
    apply Hend; [done | done | by rewrite Hgo2, Hgo].
Qed.

End Obliging.
End Converge.
