(* ===== verification/ServeController.v ===== *)
(** The Serve controller's state: all deployments ([DeploymentStateManager] of
    [serve/deployment_state.py]), the endpoints ([serve/endpoint_state.py]) and
    the controller's own operations ([serve/controller.py]). *)

From Stdlib Require Import ZArith QArith Qround Lqa Lia.
From stdpp Require Import base list strings option.
From S2P Require Import Prelude PyDict ServeVersion ServeAutoscaling Hoare AsyncGoals LongPoll.
From S2P Require Import ServeReplica DeploymentState.
Import AsyncGoals LongPoll.

Definition DEPLOYMENT_CHECKPOINT_KEY : string := "serve-deployment-state-checkpoint".
Definition ENDPOINT_CHECKPOINT_KEY : string := "serve-endpoint-state-checkpoint".
Definition MAX_NUM_DELETED_DEPLOYMENTS : Z := 1000.

Section Controller.
Context {Any : Type} {PA : PyAny Any} {Bytes : Type}.

(** What a checkpoint of the deployments holds *)
Definition checkpoint : Type := dict string (target_state Any) * dict string (DeploymentInfo Any).

(** [pickle] and [cloudpickle] on the two kinds of checkpoint *)
Variable dumps : checkpoint -> Bytes.
Variable loads : Bytes -> result checkpoint.
Variable dumps_endpoints : dict string EndpointInfo -> Bytes.
Variable loads_endpoints : Bytes -> result (dict string EndpointInfo).

Variable ray : Ray Any.

(** The controller: the key-value store, the goal manager, the long poll host
    and the cluster are shared by its parts. [policies] is the store of the
    autoscaling policies, that shallow copies of a [DeploymentInfo] share. *)
Record Controller : Type := mkController {
  _deployment_states : dict string (DeploymentState Any);
  _deleted_deployment_metadata : dict string (DeploymentInfo Any);
  _endpoints : dict string EndpointInfo;
  goal_manager : AsyncGoalManager;
  long_poll_host : LongPollHost lp_key lp_obj;
  kv_store : dict string Bytes;
  cluster : World Any;
  autoscaling_metrics_store : dict string (list InMemoryMetricsStore.TimeStampedValue);
  policies : list BasicAutoscalingPolicy.BasicAutoscalingPolicy
}.

Definition set_states (d : dict string (DeploymentState Any)) (m : Controller) : Controller :=
  mkController d (_deleted_deployment_metadata m) (_endpoints m) (goal_manager m) (long_poll_host m) (kv_store m)
    (cluster m) (autoscaling_metrics_store m) (policies m).
Definition set_deleted (d : dict string (DeploymentInfo Any)) (m : Controller) : Controller :=
  mkController (_deployment_states m) d (_endpoints m) (goal_manager m) (long_poll_host m) (kv_store m)
    (cluster m) (autoscaling_metrics_store m) (policies m).
Definition set_endpoints (d : dict string EndpointInfo) (m : Controller) : Controller :=
  mkController (_deployment_states m) (_deleted_deployment_metadata m) d (goal_manager m) (long_poll_host m)
    (kv_store m) (cluster m) (autoscaling_metrics_store m) (policies m).
Definition set_host (h : LongPollHost lp_key lp_obj) (m : Controller) : Controller :=
  mkController (_deployment_states m) (_deleted_deployment_metadata m) (_endpoints m) (goal_manager m) h
    (kv_store m) (cluster m) (autoscaling_metrics_store m) (policies m).
Definition set_store (k : dict string Bytes) (m : Controller) : Controller :=
  mkController (_deployment_states m) (_deleted_deployment_metadata m) (_endpoints m) (goal_manager m)
    (long_poll_host m) k (cluster m) (autoscaling_metrics_store m) (policies m).
Definition set_cluster (w : World Any) (m : Controller) : Controller :=
  mkController (_deployment_states m) (_deleted_deployment_metadata m) (_endpoints m) (goal_manager m)
    (long_poll_host m) (kv_store m) w (autoscaling_metrics_store m) (policies m).
Definition set_metrics (d : dict string (list InMemoryMetricsStore.TimeStampedValue)) (m : Controller) : Controller :=
  mkController (_deployment_states m) (_deleted_deployment_metadata m) (_endpoints m) (goal_manager m)
    (long_poll_host m) (kv_store m) (cluster m) d (policies m).
Definition set_policies (l : list BasicAutoscalingPolicy.BasicAutoscalingPolicy) (m : Controller) : Controller :=
  mkController (_deployment_states m) (_deleted_deployment_metadata m) (_endpoints m) (goal_manager m)
    (long_poll_host m) (kv_store m) (cluster m) (autoscaling_metrics_store m) l.

Definition on_cluster {A} (m : ST (World Any) A) : ST Controller A := st_zoom cluster set_cluster m.

(** ** Deployments *)

(** [_save_checkpoint_func], called back by deployment [name]: the other
    deployments' data is read from the manager, its own from the object. *)
Definition checkpoint_of (m : Controller) (name : string) (own : target_state Any) : checkpoint :=
  (map (fun ns => (ns.1, if decide (ns.1 = name) then own else get_checkpoint_data ns.2)) (_deployment_states m),
   _deleted_deployment_metadata m).

Definition _save_checkpoint_func (m : Controller) (name : string) (own : target_state Any) (k : dict string Bytes) :
  dict string Bytes := dset DEPLOYMENT_CHECKPOINT_KEY (dumps (checkpoint_of m name own)) k.

(** A method of the deployment [name], on the objects it shares *)
Definition on_deployment {A} (name : string)
    (f : (target_state Any -> dict string Bytes -> dict string Bytes) -> ST (Ctx Any (dict string Bytes)) A) :
  ST Controller A := fun m =>
  match dget name (_deployment_states m) with
  | None => (m, Err KeyError)
  | Some s =>
      let '(c, r) := f (_save_checkpoint_func m name)
                       (mkCtx s (goal_manager m) (long_poll_host m) (kv_store m) (cluster m)) in
      (mkController (dset name (self c) (_deployment_states m)) (_deleted_deployment_metadata m) (_endpoints m)
         (goals c) (poll c) (kv c) (world c) (autoscaling_metrics_store m) (policies m), r)
  end.

Definition _create_deployment_state (name : string) : ST Controller (DeploymentState Any) :=
  now ← on_cluster (ask ray time_); mret (init_state name now).

(** The [defaultdict] of replicas with one more *)
Definition map_actor_name (d : dict string (list string)) (replica_name : string) : result (dict string (list string)) :=
  replica_tag ← ReplicaName.from_str replica_name;
  let tag := ReplicaName.deployment_tag replica_tag in
  Ok (dset tag (dget_or tag [] d ++ [replica_name]) d).

Definition _map_actor_names_to_deployment (all_current_actor_names : list string) :
  result (dict string (list string)) :=
  let all_replica_names := filter (fun n => ReplicaName.is_replica_name n = true) all_current_actor_names in
  foldM map_actor_name [] all_replica_names.

(** A method of a deployment that is not in the dict yet *)
Definition on_new_deployment (s : DeploymentState Any) (f : ST (Ctx Any (dict string Bytes)) unit) :
  ST Controller (DeploymentState Any) := fun m =>
  let '(c, r) := f (mkCtx s (goal_manager m) (long_poll_host m) (kv_store m) (cluster m)) in
  (mkController (_deployment_states m) (_deleted_deployment_metadata m) (_endpoints m)
     (goals c) (poll c) (kv c) (world c) (autoscaling_metrics_store m) (policies m), _ ← r; Ok (self c)).

Definition recover_deployment (replicas : dict string (list string)) (deployment_tag : string)
    (data : target_state Any) : ST Controller unit :=
  s ← _create_deployment_state deployment_tag;
  let s := recover_target_state_from_checkpoint data s in
  let names := dget_or deployment_tag [] replicas in
  s ← (if (0 <? length names)%nat
       then on_new_deployment s (recover_current_state_from_replica_actor_names ray names)
       else mret s);
  st_modify (fun m => set_states (dset deployment_tag s (_deployment_states m)) m).

(** On a new controller, whose store of policies is what unpickling yields *)
Definition _recover_from_checkpoint (all_current_actor_names : list string) : ST Controller unit :=
  replicas ← st_lift (_map_actor_names_to_deployment all_current_actor_names);
  checkpoint ← st_gets (fun m => dget DEPLOYMENT_CHECKPOINT_KEY (kv_store m));
  match checkpoint with
  | None => mret tt
  | Some bytes =>
      '(deployment_state_info, deleted) ← st_lift (loads bytes);
      _ ← st_modify (set_deleted deleted);
      st_for deployment_state_info (fun nd => recover_deployment replicas nd.1 nd.2)
  end.

Definition shutdown_deployments : ST Controller (list Z) :=
  names ← st_gets (fun m => dkeys (_deployment_states m));
  goals ← st_fold (fun goals name =>
    g ← on_deployment name (fun save => delete ray save);
    mret (goals ++ [g])) [] names;
  _ ← st_modify (fun m => set_store (ddel DEPLOYMENT_CHECKPOINT_KEY (kv_store m)) m);
  mret goals.

Definition get_deployment_configs (filter_tag : option string) (include_deleted : bool) (m : Controller) :
  result (dict string (DeploymentConfig Any)) :=
  let wanted name := match filter_tag with None => true | Some t => bool_decide (name = t) end in
  configs ← foldM (fun d ns =>
    if wanted ns.1
    then info ← or_raise AttributeError (_target_info ns.2); Ok (dset ns.1 (deployment_config info) d)
    else Ok d) [] (_deployment_states m);
  Ok (if include_deleted
      then foldl (fun d ni => if wanted ni.1 then dset ni.1 (deployment_config ni.2) d else d) configs
             (_deleted_deployment_metadata m)
      else configs).

Definition get_deployment (name : string) (include_deleted : bool) (m : Controller) : option (DeploymentInfo Any) :=
  match dget name (_deployment_states m) with
  | Some s => _target_info s
  | None => if include_deleted then dget name (_deleted_deployment_metadata m) else None
  end.

Definition manager_deploy (name : string) (info : DeploymentInfo Any) : ST Controller (option Z * bool) :=
  _ ← st_modify (fun m => if dmem name (_deleted_deployment_metadata m)
                          then set_deleted (ddel name (_deleted_deployment_metadata m)) m else m);
  known ← st_gets (fun m => dmem name (_deployment_states m));
  _ ← (if (known : bool) then mret tt
       else s ← _create_deployment_state name;
            st_modify (fun m => set_states (dset name s (_deployment_states m)) m));
  on_deployment name (fun save => deploy ray save info).

Definition manager_delete_deployment (name : string) : ST Controller (option Z) :=
  known ← st_gets (fun m => dmem name (_deployment_states m));
  if negb known then mret None
  else g ← on_deployment name (fun save => delete ray save); mret (Some g).

(** [popitem(last=False)] when there are more than the maximum, and the entry *)
Definition remember_deleted (name : string) (info : DeploymentInfo Any) (d : dict string (DeploymentInfo Any)) :
  dict string (DeploymentInfo Any) :=
  dset name info (if (MAX_NUM_DELETED_DEPLOYMENTS <? Z.of_nat (length d))%Z then drop 1 d else d).

Definition update_deployment (deleted_tags : list string) (name : string) : ST Controller (list string) :=
  deleted ← on_deployment name (fun save => update ray save);
  if (deleted : bool)
  then
    info ← on_deployment name (fun save => info ← the _target_info; st_lift (or_raise AttributeError info));
    now ← on_cluster (ask ray time_);
    let info := set_end_time (int_of_Q (now * 1000)) info in
    _ ← on_deployment name (fun save => change (fun s => set_target (Some info) (_target_replicas s) (_target_version s) s));
    _ ← st_modify (fun m => set_deleted (remember_deleted name info (_deleted_deployment_metadata m)) m);
    mret (deleted_tags ++ [name])
  else mret deleted_tags.

Definition manager_update : ST Controller unit :=
  names ← st_gets (fun m => dkeys (_deployment_states m));
  deleted_tags ← st_fold update_deployment [] names;
  st_for deleted_tags (fun tag =>
    d ← st_gets _deployment_states;
    d' ← st_lift (ddelitem tag d);
    st_modify (set_states d')).

(** ** Endpoints *)

(** The dict [_endpoints] itself is handed to the long poll host, and changed
    in place afterwards; every change is followed by another notification
    before the control returns to the event loop. *)
Definition _notify_route_table_changed : ST Controller unit :=
  known ← st_gets (fun m => dmem ROUTE_TABLE (snapshot_ids (long_poll_host m)));
  r ← (if (known : bool) then mret 0%Z else on_cluster (ask ray randint));
  st_modify (fun m => set_host (notify_changed r ROUTE_TABLE (RoutesObj (_endpoints m)) (long_poll_host m)) m).

Definition _checkpoint_endpoints : ST Controller unit :=
  st_modify (fun m => set_store (dset ENDPOINT_CHECKPOINT_KEY (dumps_endpoints (_endpoints m)) (kv_store m)) m).

Definition init_endpoint_state : ST Controller unit :=
  checkpoint ← st_gets (fun m => dget ENDPOINT_CHECKPOINT_KEY (kv_store m));
  _ ← (match checkpoint with
       | Some bytes => e ← st_lift (loads_endpoints bytes); st_modify (set_endpoints e)
       | None => mret tt
       end);
  _notify_route_table_changed.

Definition shutdown_endpoints : ST Controller unit :=
  st_modify (fun m => set_store (ddel ENDPOINT_CHECKPOINT_KEY (kv_store m)) m).

Definition _get_endpoint_for_route (r : option string) (m : Controller) : option string :=
  match list_find (fun ei : string * EndpointInfo => route ei.2 = r) (_endpoints m) with
  | Some (_, (endpoint, _)) => Some endpoint
  | None => None
  end.

Definition update_endpoint (endpoint : string) (endpoint_info : EndpointInfo) : ST Controller unit :=
  existing ← st_gets (_get_endpoint_for_route (route endpoint_info));
  if bool_decide (route endpoint_info <> None) && bool_decide (existing <> None) && bool_decide (existing <> Some endpoint)
  then st_raise ValueError
  else
    current ← st_gets (fun m => dget endpoint (_endpoints m));
    if bool_decide (current = Some endpoint_info) then mret tt
    else
      _ ← st_modify (fun m => set_endpoints (dset endpoint endpoint_info (_endpoints m)) m);
      _ ← _checkpoint_endpoints;
      _notify_route_table_changed.

Definition get_endpoint_route (endpoint : string) (m : Controller) : option string :=
  e ← dget endpoint (_endpoints m); route e.

Definition delete_endpoint (endpoint : string) : ST Controller unit :=
  known ← st_gets (fun m => dmem endpoint (_endpoints m));
  if negb known then mret tt
  else
    _ ← st_modify (fun m => set_endpoints (ddel endpoint (_endpoints m)) m);
    _ ← _checkpoint_endpoints;
    _notify_route_table_changed.

(** ** The controller *)

Definition init_controller (all_current_actor_names : list string) : ST Controller unit :=
  _ ← init_endpoint_state;
  _recover_from_checkpoint all_current_actor_names.

Definition list_deployments (include_deleted : bool) (m : Controller) :
  result (dict string (option (DeploymentInfo Any) * option string)) :=
  configs ← get_deployment_configs None include_deleted m;
  Ok (map (fun name => (name, (get_deployment name include_deleted m, get_endpoint_route name m))) (dkeys configs)).

Definition get_deployment_info (name : string) (m : Controller) : result (DeploymentInfo Any * option string) :=
  info ← or_raise KeyError (get_deployment name false m);
  Ok (info, get_endpoint_route name m).

Definition record_autoscaling_metrics (data : dict string Q) (send_timestamp : Q) : ST Controller unit :=
  st_zoom autoscaling_metrics_store set_metrics (InMemoryMetricsStore.add_metrics_point data send_timestamp).

(** [deployment_config.copy()] with another [num_replicas], which pydantic
    validates as a positive integer *)
Definition with_num_replicas (n : Z) (cfg : DeploymentConfig Any) : result (DeploymentConfig Any) :=
  if (0 <? n)%Z
  then Ok (mkDeploymentConfig n (max_concurrent_queries cfg) (dc_user_config cfg) (graceful_shutdown_wait_loop_s cfg)
             (graceful_shutdown_timeout_s cfg) (autoscaling_config cfg))
  else Err ValidationError.

Definition set_config (cfg : DeploymentConfig Any) (i : DeploymentInfo Any) : DeploymentInfo Any :=
  mkInfo cfg (replica_config i) (start_time_ms i) (di_actor_name i) (serialized_deployment_def i) (di_version i)
    (deployer_job_id i) (end_time_ms i) (autoscaling_policy i).

(** The averages of the replicas that have metrics *)
Definition ongoing_requests (look_back_period_s : Q) (running : list (DeploymentReplica Any)) : ST Controller (list Q) :=
  st_fold (fun acc r =>
    now ← on_cluster (ask ray time_);
    avg ← st_zoom autoscaling_metrics_store set_metrics
            (InMemoryMetricsStore.window_average (_replica_tag r) (now - look_back_period_s) true);
    mret (match avg with Some q => acc ++ [q] | None => acc end)) [] running.

Definition autoscale_deployment (name : string) (info : DeploymentInfo Any) : ST Controller unit :=
  match autoscaling_policy info with
  | None => mret tt
  | Some a =>
      policy ← (p ← st_gets (fun m => policies m !! a); st_lift (or_raise AttributeError p));
      s ← (s ← st_gets (fun m => dget name (_deployment_states m)); st_lift (or_raise KeyError s));
      current ← ongoing_requests (BasicAutoscalingPolicy.look_back_period_s (BasicAutoscalingPolicy.config policy))
                  (get [RUNNING] (ds_replicas s));
      if (length current =? 0)%nat then mret tt
      else
        let '(policy', decision) :=
          BasicAutoscalingPolicy.get_decision_num_replicas current (num_replicas (deployment_config info)) policy in
        _ ← st_modify (fun m => set_policies (<[a := policy']> (policies m)) m);
        n ← st_lift decision;
        cfg ← st_lift (with_num_replicas n (deployment_config info));
        _ ← manager_deploy name (set_config cfg info);
        mret tt
  end.

Definition autoscale : ST Controller unit :=
  deployments ← (l ← st_gets (list_deployments false); st_lift l);
  st_for deployments (fun d => info ← st_lift (or_raise AttributeError d.2.1); autoscale_deployment d.1 info).

(** One turn of [run_control_loop]: every part is run whether or not the one
    before raised. The HTTP proxies and the snapshot are not modelled. *)
Definition control_loop_step : ST Controller unit :=
  _ ← st_try autoscale (fun _ => true) (fun _ => mret tt);
  st_try manager_update (fun _ => true) (fun _ => mret tt).

Definition controller_shutdown : ST Controller (list Z) :=
  goal_ids ← shutdown_deployments;
  _ ← shutdown_endpoints;
  mret goal_ids.

(** [prev_version], a guard against concurrent deploys *)
Definition check_prev_version (name : string) (prev_version : option string) (m : Controller) : result unit :=
  match prev_version with
  | None => Ok tt
  | Some prev =>
      match get_deployment name false m with
      | None => Err ValueError
      | Some existing =>
          match di_version existing with
          | None => Err ValueError
          | Some v => if String.eqb v "" then Err ValueError
                      else if String.eqb v prev then Ok tt else Err ValueError
          end
      end
  end.

(** The policy object of a deployment with an autoscaling config *)
Definition make_policy (cfg : DeploymentConfig Any) : ST Controller (DeploymentConfig Any * option nat) :=
  match autoscaling_config cfg with
  | None => mret (cfg, None)
  | Some acfg =>
      cfg' ← st_lift (with_num_replicas (BasicAutoscalingPolicy.min_replicas acfg) cfg);
      a ← st_gets (fun m => length (policies m));
      _ ← st_modify (fun m => set_policies (policies m ++ [BasicAutoscalingPolicy.__init__ acfg]) m);
      mret (cfg', Some a)
  end.

Definition controller_deploy (name : string) (cfg : DeploymentConfig Any) (rc : ReplicaConfig)
    (serialized_def : list Z) (version prev_version route_prefix deployer_job : option string) :
  ST Controller (option Z * bool) :=
  _ ← (match route_prefix with
       | Some p => st_lift (py_assert (String.prefix "/" p))
       | None => mret tt
       end);
  _ ← (r ← st_gets (check_prev_version name prev_version); st_lift r);
  '(cfg, policy) ← make_policy cfg;
  now ← on_cluster (ask ray time_);
  let info := mkInfo cfg rc (int_of_Q (now * 1000)) (Some name) (Some serialized_def) version deployer_job None policy in
  res ← manager_deploy name info;
  _ ← update_endpoint name (mkEndpoint route_prefix);
  mret res.

Definition controller_delete_deployment (name : string) : ST Controller (option Z) :=
  _ ← delete_endpoint name;
  manager_delete_deployment name.

End Controller.
Arguments Controller : clear implicits.
