(* ===== verification/ControllerProps.v ===== *)
(** Properties of the Serve controller's operations on all deployments: no
    exception, no orphaned goal, bounded metadata, unique routes, and recovery
    from a checkpoint. *)

From Stdlib Require Import ZArith QArith Lqa Lia.
From stdpp Require Import base list strings option.
From S2P Require Import Prelude PyDict MlDict ServeVersion ServeAutoscaling Hoare AsyncGoals LongPoll.
From S2P Require Import ServeReplica DeploymentState DeploymentSafety ServeController.
Import AsyncGoals LongPoll.

Section Manager.
Context {Any : Type} {PA : PyAny Any} {Bytes : Type}.
Variable dumps : checkpoint (Any := Any) -> Bytes.
Variable ray : Ray Any.
Implicit Types (m : Controller Any Bytes) (s : DeploymentState Any) (c : Ctx Any (dict string Bytes)).

Definition ctx_of m s : Ctx Any (dict string Bytes) :=
  mkCtx s (goal_manager m) (long_poll_host m) (kv_store m) (cluster m).

(** The controller after a method of deployment [name] left it in [c] *)
Definition put m (name : string) c : Controller Any Bytes :=
  mkController (dset name (self c) (_deployment_states m)) (_deleted_deployment_metadata m) (_endpoints m)
    (goals c) (poll c) (kv c) (world c) (autoscaling_metrics_store m) (policies m).

Lemma on_deployment_run {A} m name s (f : _ -> ST _ A) c r :
  dget name (_deployment_states m) = Some s -> f (_save_checkpoint_func dumps m name) (ctx_of m s) = (c, r) ->
  on_deployment dumps name f m = (put m name c, r).
Proof. intros Hs Hf. unfold on_deployment. rewrite Hs. unfold ctx_of in Hf. by rewrite Hf. Qed.

Record manager_ok m : Prop := {
  mo_wf : dwf (_deployment_states m);
  mo_goals : pending_ok (goal_manager m);
  mo_states : forall name s, dget name (_deployment_states m) = Some s ->
    container_ok ray (ctx_of m s) /\ target_ok s /\ infos_ok s;
  mo_deleted : dwf (_deleted_deployment_metadata m);
  mo_bound : (Z.of_nat (length (_deleted_deployment_metadata m)) <= MAX_NUM_DELETED_DEPLOYMENTS + 1)%Z
}.

Lemma manager_ctx_ok m name s :
  manager_ok m -> dget name (_deployment_states m) = Some s -> ctx_ok ray (ctx_of m s).
Proof. intros Hm Hs. destruct (mo_states m Hm name s Hs) as (H1 & H2 & H3). split; [done | done | done | apply Hm]. Qed.

(** The replicas of the other deployments stay well formed as time passes. *)
Lemma container_later m w g p k s :
  (calls (cluster m) <= calls w)%nat -> container_ok ray (ctx_of m s) ->
  container_ok ray (mkCtx (KV := dict string Bytes) s g p k w).
Proof. intros Hle H st r Hr. eapply replica_ok_mono; [exact Hle | by apply H]. Qed.

Lemma put_ok m name c :
  manager_ok m -> ctx_ok ray c -> (calls (cluster m) <= calls (world c))%nat -> manager_ok (put m name c).
Proof.
  intros [H1 H2 H3 H4 H5] Hc Hle. split; cbn [put _deployment_states goal_manager _deleted_deployment_metadata].
  - by apply dwf_dset.
  - apply Hc.
  - intros n s. rewrite dget_dset. destruct (decide _) as [->|Hne].
    + intros [= <-]. destruct Hc as [K1 K2 K3 K4]. split_and!; [exact K1 | done | done].
    + intros Hs. destruct (H3 n s Hs) as (K1 & K2 & K3). split_and!; [by eapply container_later | done | done].
  - done.
  - done.
Qed.

(** Every pending goal is the current goal of a deployment that is not in [ex]. *)
Definition goals_owned (ex : list string) m : Prop :=
  forall g, g ∈ dkeys (_pending_goals (goal_manager m)) ->
    exists name s, name ∉ ex /\ dget name (_deployment_states m) = Some s /\ _curr_goal s = Some g.

Lemma put_goals ex m name s c :
  goals_owned ex m -> dget name (_deployment_states m) = Some s -> name ∉ ex ->
  goals_step (ctx_of m s) c -> goals_owned ex (put m name c).
Proof.
  intros Ho Hs Hn Hg g Hgin. destruct (Hg g Hgin) as [[Hp Hne]|Hc].
  - destruct (Ho g Hp) as (n' & s' & Hn' & Hs' & Hc'). exists n', s'. split_and!; [done | | done].
    cbn [put _deployment_states]. rewrite dget_dset_ne; [done|]. intros <-. rewrite Hs in Hs'.
    injection Hs' as <-. done.
  - exists name, (self c). split_and!; [done | | done]. cbn [put _deployment_states]. apply dget_dset_eq.
Qed.

(** ** [deploy] *)

Lemma create_state_run m name :
  exists m1 now, _create_deployment_state ray name m = (m1, Ok (init_state name now)) /\
    m1 = set_cluster (mkWorld (S (calls (cluster m))) (log (cluster m))) m.
Proof. by do 2 eexists. Qed.

Lemma manager_deploy_ok m name info :
  manager_ok m -> goals_owned [] m -> info_ok info ->
  exists m' r, manager_deploy dumps ray name info m = (m', Ok r) /\ manager_ok m' /\ goals_owned [] m'.
Proof.
  intros Hm Ho Hi. unfold manager_deploy. st_simpl.
  set (m1 := if dmem name (_deleted_deployment_metadata m) then _ else m).
  assert (Hm1 : manager_ok m1).
  { unfold m1. destruct (dmem name (_deleted_deployment_metadata m)) eqn:E; [|done]. destruct Hm as [H1 H2 H3 H4 H5].
    split; cbn; [done | done | done | by apply dwf_ddel|].
    apply dmem_true, ddel_length in E. lia. }
  assert (Ho1 : goals_owned [] m1) by (unfold m1; by destruct (dmem name _)).
  destruct (dmem name (_deployment_states m1)) eqn:Ek.
  - apply dmem_true, dget_is_Some in Ek as [s Hs].
    pose proof (manager_ctx_ok m1 name s Hm1 Hs) as [K1 K2 K3 K4].
    destruct (deploy_spec ray (_save_checkpoint_func dumps m1 name) info (ctx_of m1 s) K1 K3 K4)
      as (c & res & E & [_ [Hle _]] & Hc & Hg); [by right | done|].
    rewrite (on_deployment_run m1 name s _ c (Ok res) Hs E). do 2 eexists. split; [reflexivity|].
    split; [by apply put_ok | eapply put_goals; [done | done | apply not_elem_of_nil | done]].
  - destruct (create_state_run m1 name) as (m2 & now & -> & Em2). st_simpl.
    set (m3 := set_states _ m2).
    assert (Hs : dget name (_deployment_states m3) = Some (init_state name now)) by apply dget_dset_eq.
    destruct (deploy_spec ray (_save_checkpoint_func dumps m3 name) info (ctx_of m3 (init_state name now)))
      as (c & res & E & [_ [Hle _]] & Hc & Hg).
    + intros st r Hr. by apply elem_of_nil in Hr.
    + done.
    + unfold m3. rewrite Em2. apply Hm1.
    + by left.
    + done.
    + rewrite (on_deployment_run m3 name _ _ c (Ok res) Hs E). do 2 eexists. split; [reflexivity|].
      assert (Hle3 : (calls (cluster m1) <= calls (world c))%nat).
      { unfold m3 in Hle. rewrite Em2 in Hle. cbn in Hle. lia. }
      assert (Eput : put m3 name c = put m1 name c).
      { unfold put, m3. rewrite Em2. cbn. by rewrite dset_dset. }
      rewrite Eput. split; [by apply put_ok|].
      intros g Hgin. destruct (Hg g Hgin) as [[Hp _]|Hcg].
      * unfold pend in Hp. unfold m3 in Hp. rewrite Em2 in Hp. cbn in Hp. destruct (Ho1 g Hp) as (n' & s' & Hn' & Hs' & Hc').
        exists n', s'. split_and!; [done | | done]. cbn [put _deployment_states]. rewrite dget_dset_ne; [done|].
        intros <-. apply dmem_false in Ek. apply Ek, dget_is_Some. by eexists.
      * exists name, (self c). split_and!; [apply not_elem_of_nil | | done]. cbn [put _deployment_states]. apply dget_dset_eq.
Qed.

(** ** [delete_deployment] *)

Lemma manager_delete_ok m name :
  manager_ok m -> goals_owned [] m ->
  exists m' r, manager_delete_deployment dumps ray name m = (m', Ok r) /\ manager_ok m' /\ goals_owned [] m'.
Proof.
  intros Hm Ho. unfold manager_delete_deployment. st_simpl.
  destruct (dmem name (_deployment_states m)) eqn:Ek; cbn [negb]; [|by do 2 eexists].
  apply dmem_true, dget_is_Some in Ek as [s Hs]. st_simpl.
  destruct (delete_spec ray (_save_checkpoint_func dumps m name) (ctx_of m s) (manager_ctx_ok m name s Hm Hs))
    as (c & g & E & [_ [Hle _]] & Hc & Hg).
  rewrite (on_deployment_run m name s (fun save => delete ray save) c (Ok g) Hs E). do 2 eexists. split; [reflexivity|].
  split; [by apply put_ok | eapply put_goals; [done | done | apply not_elem_of_nil | done]].
Qed.

(** ** [update] *)

Lemma remember_deleted_ok name info d :
  dwf d -> (Z.of_nat (length d) <= MAX_NUM_DELETED_DEPLOYMENTS + 1)%Z ->
  dwf (remember_deleted (Any := Any) name info d) /\
  (Z.of_nat (length (remember_deleted name info d)) <= MAX_NUM_DELETED_DEPLOYMENTS + 1)%Z.
Proof.
  intros Hw Hl. unfold remember_deleted.
  assert (Hset : forall d', dwf d' -> (Z.of_nat (length d') <= MAX_NUM_DELETED_DEPLOYMENTS)%Z ->
    dwf (dset name info d') /\ (Z.of_nat (length (dset name info d')) <= MAX_NUM_DELETED_DEPLOYMENTS + 1)%Z).
  { intros d' Hw' Hl'. split; [by apply dwf_dset|].
    assert (length (dset name info d') <= S (length d'))%nat; [|lia].
    rewrite <- (length_fmap fst (dset name info d')), <- (length_fmap fst d').
    change (length (dkeys (dset name info d')) <= S (length (dkeys d')))%nat. rewrite dkeys_dset.
    destruct (decide _); [lia|]. rewrite length_app. cbn. lia. }
  destruct (MAX_NUM_DELETED_DEPLOYMENTS <? Z.of_nat (length d))%Z eqn:E.
  - apply Z.ltb_lt in E. apply Hset.
    + unfold dwf, dkeys in *. rewrite fmap_drop. destruct (d.*1) as [|k l]; [done|]. cbn.
      by apply list.NoDup_cons in Hw as [_ ?].
    + rewrite length_drop. unfold MAX_NUM_DELETED_DEPLOYMENTS in *. lia.
  - apply Z.ltb_ge in E. by apply Hset.
Qed.

Lemma ctx_ok_end_time c info :
  ctx_ok ray c -> _target_info (self c) = Some info -> forall t,
  ctx_ok ray (set_self (set_target (Some (set_end_time t info)) (_target_replicas (self c)) (_target_version (self c)) (self c)) c).
Proof.
  intros [H1 (T1 & T2 & Hv & T3) [I1 I2] H4] Hi t. split; [exact H1 | | | exact H4].
  - split; [exact T1|]. split; [by eexists|]. split; [exact Hv|]. intros Hpos. destruct (T3 Hpos) as (i & Ei & Hsi).
    rewrite Hi in Ei. injection Ei as <-. by eexists.
  - split; [|exact I2]. cbn. intros i [= <-]. exact (I1 info Hi).
Qed.

Lemma update_deployment_ok m name ex :
  cluster_ok ray -> manager_ok m -> goals_owned ex m -> name ∉ ex -> name ∈ dkeys (_deployment_states m) ->
  exists m' ex', update_deployment dumps ray ex name m = (m', Ok ex') /\ manager_ok m' /\ goals_owned ex' m' /\
    (ex' = ex \/ ex' = ex ++ [name]) /\ dkeys (_deployment_states m') = dkeys (_deployment_states m).
Proof.
  intros Hcl Hm Ho Hn Hin. pose proof Hin as Hin'. apply dget_is_Some in Hin as [s Hs]. unfold update_deployment. st_simpl.
  destruct (update_keeps ray (_save_checkpoint_func dumps m name) (ctx_of m s) Hcl (manager_ctx_ok m name s Hm Hs))
    as (c & b & ? & ? & E & Hc & _ & _ & _ & _ & Hle & Hg & Hdel).
  rewrite (on_deployment_run m name s (fun save => update ray save) c (Ok b) Hs E).
  assert (Hm1 : manager_ok (put m name c)) by (by apply put_ok).
  assert (Hk : forall y, dkeys (dset name y (_deployment_states m)) = dkeys (_deployment_states m)).
  { intros y. rewrite dkeys_dset. by rewrite decide_True. }
  destruct b; [|do 2 eexists; split; [reflexivity|]; split_and!;
                [done | by eapply put_goals | by left | cbn [put _deployment_states]; apply Hk]].
  destruct (ok_target _ _ Hc) as (_ & [info Hi] & _).
  set (m1 := put m name c) in *.
  assert (Hs1 : dget name (_deployment_states m1) = Some (self c)) by apply dget_dset_eq.
  assert (Hctx : ctx_of m1 (self c) = c) by (unfold ctx_of, m1; by destruct c).
  assert (Eput : put m1 name c = m1) by (unfold put, m1; cbn; by rewrite dset_dset).
  rewrite (on_deployment_run m1 name (self c) _ c (Ok info) Hs1); [|rewrite Hctx; unfold the; st_simpl; by rewrite Hi].
  rewrite Eput. unfold on_cluster, ask, tick. st_simpl.
  set (w := mkWorld (S (calls (cluster m1))) (log (cluster m1))).
  set (m2 := set_cluster w m1). set (t := int_of_Q _).
  assert (Hs2 : dget name (_deployment_states m2) = Some (self c)) by exact Hs1.
  set (c2 := set_world w c).
  assert (Hc2 : ctx_ok ray c2).
  { destruct Hc as [K1 K2 K3 K4]. split; [|done|done|done]. intros st r Hr.
    eapply replica_ok_mono; [|by apply K1]. cbn. lia. }
  set (c3 := set_self (set_target (Some (set_end_time t info)) (_target_replicas (self c2)) (_target_version (self c2)) (self c2)) c2).
  assert (Hc3 : ctx_ok ray c3) by (by apply ctx_ok_end_time).
  rewrite (on_deployment_run m2 name (self c) _ c3 (Ok tt) Hs2).
  2:{ unfold change. st_simpl. reflexivity. }
  assert (Hm2 : manager_ok m2).
  { destruct Hm1 as [A1 A2 A3 A4 A5]. split; [done | done | | done | done]. intros n' s' Hs'.
    destruct (A3 n' s' Hs') as (B1 & B2 & B3). split_and!; [|done|done]. intros st r Hr.
    eapply replica_ok_mono; [|by apply B1]. cbn. lia. }
  assert (Hm3 : manager_ok (put m2 name c3)) by (apply put_ok; [done | done | cbn; lia]).
  destruct Hm3 as [A1 A2 A3 A4 A5].
  destruct (remember_deleted_ok name (set_end_time t info) _ A4 A5) as [R1 R2].
  do 2 eexists. split; [reflexivity|]. split_and!.
  - split; [exact A1 | exact A2 | exact A3 | exact R1 | exact R2].
  - intros g Hgin. change (g ∈ pend c) in Hgin. destruct (Hg g Hgin) as [[Hp Hne]|Hcg].
    + destruct (Ho g Hp) as (n' & s' & Hn' & Hs' & Hc'). exists n', s'.
      assert (n' <> name).
      { intros ->. rewrite Hs in Hs'. injection Hs' as <-. done. }
      split_and!; [rewrite not_elem_of_app, list_elem_of_singleton; tauto | | done].
      cbn [put _deployment_states set_deleted m2 m1 set_cluster]. by rewrite !dget_dset_ne.
    + exfalso. by eapply (Hdel eq_refl g).
  - by right.
  - cbn [put _deployment_states set_deleted m2 m1 set_cluster]. rewrite dset_dset. apply Hk.
Qed.

Lemma update_deployments_ok names : forall m ex,
  cluster_ok ray -> manager_ok m -> goals_owned ex m -> NoDup (ex ++ names) ->
  (forall n, n ∈ ex ++ names -> n ∈ dkeys (_deployment_states m)) ->
  exists m' ex', st_fold (update_deployment dumps ray) ex names m = (m', Ok ex') /\ manager_ok m' /\
    goals_owned ex' m' /\ NoDup ex' /\ (forall n, n ∈ ex' -> n ∈ dkeys (_deployment_states m')).
Proof.
  induction names as [|name names IH]; intros m ex Hcl Hm Ho Hnd Hin; cbn [st_fold]; st_simpl.
  - rewrite app_nil_r in *. by exists m, ex.
  - assert (Hn : name ∉ ex).
    { apply list.NoDup_app in Hnd as (_ & Hd & _). intros H. apply (Hd name H). by left. }
    destruct (update_deployment_ok m name ex Hcl Hm Ho Hn) as (m1 & ex1 & -> & Hm1 & Ho1 & Hex & Hk).
    { apply Hin, elem_of_app. right. by left. }
    apply IH; [done | done | done | |].
    + destruct Hex as [->| ->]; [|by rewrite <- app_assoc].
      apply list.NoDup_app in Hnd as (H1 & H2 & H3). apply list.NoDup_app.
      split_and!; [done | intros x Hx Hx'; apply (H2 x Hx); by right | by apply list.NoDup_cons in H3 as [_ ?]].
    + intros n Hn'. rewrite Hk. apply Hin. rewrite !elem_of_app, elem_of_cons.
      destruct Hex as [->| ->]; rewrite !elem_of_app, ?list_elem_of_singleton in Hn'; tauto.
Qed.

Definition drop_deployment (tag : string) : ST (Controller Any Bytes) unit :=
  d ← st_gets _deployment_states;
  d' ← st_lift (ddelitem tag d);
  st_modify (set_states d').

Lemma drop_deployment_run tag m :
  tag ∈ dkeys (_deployment_states m) ->
  drop_deployment tag m = (set_states (ddel tag (_deployment_states m)) m, Ok tt).
Proof. intros H. unfold drop_deployment, ddelitem. st_simpl. by rewrite (proj2 (dmem_true _ _) H). Qed.

Lemma drop_deployments_ok ex : forall m,
  manager_ok m -> goals_owned ex m -> NoDup ex -> (forall n, n ∈ ex -> n ∈ dkeys (_deployment_states m)) ->
  exists m', st_for ex drop_deployment m = (m', Ok tt) /\ manager_ok m' /\ goals_owned [] m'.
Proof.
  induction ex as [|tag ex IH]; intros m Hm Ho Hnd Hin; cbn [st_for]; [by exists m|].
  apply list.NoDup_cons in Hnd as [Hn Hnd]. st_simpl. rewrite drop_deployment_run by (apply Hin; by left).
  pose proof (mo_wf m Hm) as Hw.
  apply IH; [ | | done |].
  - destruct Hm as [H1 H2 H3 H4 H5]. split; [by apply dwf_ddel | done | | done | done].
    intros n s Hs. cbn in Hs. apply (H3 n s). destruct (decide (tag = n)) as [->|Hne].
    + by rewrite dget_ddel_eq in Hs.
    + by rewrite dget_ddel_ne in Hs.
  - intros g Hg. destruct (Ho g Hg) as (n & s & Hne & Hs & Hc). rewrite not_elem_of_cons in Hne.
    exists n, s. split_and!; [tauto | | done]. cbn. rewrite dget_ddel_ne; [done|]. intros ->. tauto.
  - intros n Hn'. cbn. apply elem_dkeys_ddel; [done|]. split; [intros ->; done | apply Hin; by right].
Qed.

Lemma manager_update_ok m :
  cluster_ok ray -> manager_ok m -> goals_owned [] m ->
  exists m', manager_update dumps ray m = (m', Ok tt) /\ manager_ok m' /\ goals_owned [] m'.
Proof.
  intros Hcl Hm Ho. unfold manager_update. st_simpl.
  destruct (update_deployments_ok (dkeys (_deployment_states m)) m [] Hcl Hm Ho) as (m1 & ex & -> & Hm1 & Ho1 & Hnd & Hin).
  - apply Hm.
  - done.
  - destruct (drop_deployments_ok ex m1 Hm1 Ho1 Hnd Hin) as (m2 & E & Hm2 & Ho2).
    exists m2. split; [exact E | done].
Qed.

(** ** Sequences of operations *)

Inductive manager_op : Type :=
| MDeploy (name : string) (info : DeploymentInfo Any)
| MDelete (name : string)
| MUpdate.

Definition manager_op_ok (o : manager_op) : Prop := match o with MDeploy _ i => info_ok i | _ => True end.

Definition do_manager_op (o : manager_op) : ST (Controller Any Bytes) unit :=
  match o with
  | MDeploy name info => _ ← manager_deploy dumps ray name info; mret tt
  | MDelete name => _ ← manager_delete_deployment dumps ray name; mret tt
  | MUpdate => manager_update dumps ray
  end.

Definition empty_controller (k : dict string Bytes) (w : World Any) : Controller Any Bytes :=
  mkController [] [] [] AsyncGoals.__init__ init_host k w [] [].

Lemma empty_controller_ok k w : manager_ok (empty_controller k w) /\ goals_owned [] (empty_controller k w).
Proof.
  split; [|intros g Hg; by apply elem_of_nil in Hg].
  split; [constructor | apply AsyncGoals.manager_init_ok | done | constructor | cbn; unfold MAX_NUM_DELETED_DEPLOYMENTS; lia].
Qed.

Lemma do_manager_op_ok o m :
  cluster_ok ray -> manager_op_ok o -> manager_ok m -> goals_owned [] m ->
  exists m', do_manager_op o m = (m', Ok tt) /\ manager_ok m' /\ goals_owned [] m'.
Proof.
  intros Hcl Hop Hm Ho. destruct o; cbn [do_manager_op]; st_simpl.
  - destruct (manager_deploy_ok m name info Hm Ho Hop) as (m' & r & -> & H). by exists m'.
  - destruct (manager_delete_ok m name Hm Ho) as (m' & r & -> & H). by exists m'.
  - by apply manager_update_ok.
Qed.

Lemma run_manager_ops ops : forall m,
  cluster_ok ray -> Forall manager_op_ok ops -> manager_ok m -> goals_owned [] m ->
  exists m', st_for ops do_manager_op m = (m', Ok tt) /\ manager_ok m' /\ goals_owned [] m'.
Proof.
  induction ops as [|o ops IH]; intros m Hcl Hops Hm Ho; cbn [st_for]; st_simpl; [by exists m|].
  apply list.Forall_cons in Hops as [Hop Hops].
  destruct (do_manager_op_ok o m Hcl Hop Hm Ho) as (m1 & -> & Hm1 & Ho1). by apply IH.
Qed.

(** C33. Whatever the cluster answers, a sequence of [deploy], [delete_deployment]
    and [update] calls on a new controller raises nothing and orphans no goal:
    every goal that is still pending is the current goal of a deployment the
    controller still works on, so no client waits on a goal that was
    superseded, rolled back or whose deployment is gone. *)
Theorem goals_never_orphaned (k : dict string Bytes) (w : World Any) (ops : list manager_op) :
  cluster_ok ray -> Forall manager_op_ok ops ->
  exists m, st_for ops do_manager_op (empty_controller k w) = (m, Ok tt) /\
    forall g a, wait_for_goal g (goal_manager m) = Awaiting a ->
      exists name s, dget name (_deployment_states m) = Some s /\ _curr_goal s = Some g.
Proof.
  intros Hcl Hops. destruct (empty_controller_ok k w) as [Hm Ho].
  destruct (run_manager_ops ops _ Hcl Hops Hm Ho) as (m & E & _ & Ho'). exists m. split; [done|].
  intros g a Hw. unfold wait_for_goal in Hw. destruct (dget g _) eqn:Eg; [|done].
  destruct (Ho' g) as (name & s & _ & Hs & Hc); [apply dget_is_Some; by eexists|]. by exists name, s.
Qed.

(** The metadata kept of deleted deployments is bounded, by one more than
    [MAX_NUM_DELETED_DEPLOYMENTS]. *)
Theorem deleted_metadata_bounded (k : dict string Bytes) (w : World Any) (ops : list manager_op) :
  cluster_ok ray -> Forall manager_op_ok ops ->
  exists m, st_for ops do_manager_op (empty_controller k w) = (m, Ok tt) /\
    dwf (_deleted_deployment_metadata m) /\
    (Z.of_nat (length (_deleted_deployment_metadata m)) <= MAX_NUM_DELETED_DEPLOYMENTS + 1)%Z.
Proof.
  intros Hcl Hops. destruct (empty_controller_ok k w) as [Hm Ho].
  destruct (run_manager_ops ops _ Hcl Hops Hm Ho) as (m & E & Hm' & _). exists m. split; [done|]. split; apply Hm'.
Qed.

(** The bound is reached: with the maximum stored, one more is added. *)
Lemma remember_deleted_exceeds name info d :
  name ∉ dkeys d -> Z.of_nat (length d) = MAX_NUM_DELETED_DEPLOYMENTS ->
  Z.of_nat (length (remember_deleted (Any := Any) name info d)) = (MAX_NUM_DELETED_DEPLOYMENTS + 1)%Z.
Proof.
  intros Hn Hl. unfold remember_deleted. rewrite Hl, Z.ltb_irrefl, dset_fresh, length_app by done. cbn. lia.
Qed.

End Manager.

(** ** Recovery from a checkpoint *)

Section Recovery.
Context {Any : Type} {PA : PyAny Any} {Bytes : Type}.
Variable dumps : checkpoint (Any := Any) -> Bytes.
Variable loads : Bytes -> result (checkpoint (Any := Any)).
Variable ray : Ray Any.
Implicit Types (m : Controller Any Bytes) (s : DeploymentState Any).

(** The replicas of the cluster, by deployment and suffix, and their actors' names *)
Definition replica_actor (p : string * string) : string :=
  ReplicaName.actor_name (ReplicaName.replica_tag (ReplicaName.__init__ p.1 p.2)).

Definition of_deployment (tag : string) (reps : list (string * string)) : list (string * string) :=
  filter (fun p => p.1 = tag) reps.

Lemma replica_actor_read p :
  ReplicaName.readable p.1 p.2 -> ReplicaName.from_str (replica_actor p) = Ok (ReplicaName.__init__ p.1 p.2).
Proof. apply ReplicaName.from_str_ok. Qed.

Lemma map_actor_names_fold reps : forall d,
  Forall (fun p => ReplicaName.readable p.1 p.2) reps ->
  exists d', foldM map_actor_name d (map replica_actor reps) = Ok d' /\
    forall tag, dget_or tag [] d' = dget_or tag [] d ++ map replica_actor (of_deployment tag reps).
Proof.
  induction reps as [|p reps IH]; intros d Hr; cbn [map foldM].
  - exists d. split; [done|]. intros tag. by rewrite app_nil_r.
  - apply list.Forall_cons in Hr as [Hp Hr]. unfold map_actor_name at 2. rewrite replica_actor_read by done. cbn [ReplicaName.deployment_tag ReplicaName.__init__ mbind result_bind].
    destruct (IH (dset p.1 (dget_or p.1 [] d ++ [replica_actor p]) d) Hr) as (d' & -> & Hd').
    exists d'. split; [done|]. intros tag. rewrite Hd', dget_or_dset. unfold of_deployment.
    destruct (decide (p.1 = tag)) as [<-|Hne].
    + rewrite filter_cons_True by done. cbn [map]. by rewrite <- app_assoc.
    + by rewrite filter_cons_False.
Qed.

(** The actors of the replicas are alive. *)
Hypothesis alive : forall n a, get_actor ray n a = true.

Lemma recover_run r (w : World Any) :
  named r -> exists w' r', recover ray r w = (w', Ok r') /\ wstep w w' /\ live r' /\ _replica_tag r' = _replica_tag r.
Proof.
  intros Hn. unfold recover, wrapper_recover, wrapper_actor_handle, ask, tick, command_.
  destruct (_actor_handle (_actor r)) eqn:Ea; st_simpl; cbn [calls log]; rewrite ?alive;
    cbn [_placement_group _actor_handle _actor_name];
    (destruct (use_placement_group ray); [destruct (_placement_group (_actor r))|]); st_simpl; cbn [calls log];
    rewrite ?Ea; cbn [calls log]; (do 2 eexists); (split; [reflexivity|]);
    (split; [split; cbn [calls log]; [lia | rewrite ?starts_app; cbn; by rewrite ?app_nil_r]|]);
    (split; [|done]); (split_and!; [exact Hn | done | done | by eexists]).
Qed.

(** What recovering a deployment's replicas leaves *)
Lemma recover_replicas_fold {KV} reps : forall (c : Ctx Any KV),
  Forall (fun p => ReplicaName.readable p.1 p.2) reps -> container_ok ray c ->
  exists c', st_for (map replica_actor reps) (recover_replica ray) c = (c', Ok tt) /\
    same_target c c' /\ (calls (world c) <= calls (world c'))%nat /\ container_ok ray c' /\
    map _replica_tag (replicas_in RECOVERING (cont c')) =
      map _replica_tag (replicas_in RECOVERING (cont c)) ++ map (fun p => ReplicaName.replica_tag (ReplicaName.__init__ p.1 p.2)) reps /\
    (forall st, st <> RECOVERING -> replicas_in st (cont c') = replicas_in st (cont c)).
Proof.
  induction reps as [|p reps IH]; intros c Hr Hok; cbn [map st_for].
  - exists c. st_simpl. split_and!; [done | done | lia | done | by rewrite app_nil_r | done].
  - apply list.Forall_cons in Hr as [Hp Hr]. st_simpl.
    set (tag := ReplicaName.replica_tag (ReplicaName.__init__ p.1 p.2)).
    destruct (recover_run (new_replica tag p.1 None) (world c) eq_refl) as (w & r & E & [Hw _] & Hl & Ht).
    set (c1 := set_self (set_container (add RECOVERING r (cont c)) (self c)) (set_world w c)).
    assert (E1 : recover_replica ray (replica_actor p) c = (c1, Ok tt)).
    { unfold recover_replica, on_world, add_replica, change. st_simpl. rewrite replica_actor_read by done.
      cbn [ReplicaName.deployment_tag ReplicaName.__init__]. fold tag. by rewrite E. }
    rewrite E1. assert (Hc1 : cont c1 = add RECOVERING r (cont c)) by done.
    destruct (IH c1 Hr) as (c2 & E2 & HT & Hle & Hok2 & Hrec & Hoth).
    { intros st x Hx. rewrite Hc1, replicas_in_add in Hx. cbn in *.
      destruct (decide _) as [->|]; [|eapply replica_ok_mono; [exact Hw | by apply Hok]].
      apply elem_of_app in Hx as [Hx|Hx]; [eapply replica_ok_mono; [exact Hw | by apply Hok]|].
      by apply list_elem_of_singleton in Hx as ->. }
    exists c2. split_and!.
    + exact E2.
    + exact HT.
    + cbn in Hle. lia.
    + done.
    + rewrite Hrec, Hc1, replicas_in_add, decide_True, map_app by done. rewrite <- app_assoc. cbn [map app]. by rewrite Ht.
    + intros st Hst. by rewrite Hoth, Hc1, replicas_in_add, decide_False.
Qed.

(** A deployment as recovery leaves it *)
Definition recovered (reps : list (string * string)) (tag : string) (data : target_state Any) s : Prop :=
  get_checkpoint_data s = data /\ _curr_goal s = None /\ _rollback_info s = None /\
  map _replica_tag (replicas_in RECOVERING (ds_replicas s)) =
    map (fun p => ReplicaName.replica_tag (ReplicaName.__init__ p.1 p.2)) (of_deployment tag reps) /\
  (forall st, st <> RECOVERING -> replicas_in st (ds_replicas s) = []).

(** A target state that [deploy] or [delete] wrote *)
Definition data_ok (data : target_state Any) : Prop :=
  forall s, get_checkpoint_data s = data -> target_ok s /\ forall i, _target_info s = Some i -> info_ok i.

Lemma recover_deployment_ok m d reps tag data :
  manager_ok ray m -> data_ok data -> Forall (fun p => ReplicaName.readable p.1 p.2) reps ->
  (forall t, dget_or t [] d = map replica_actor (of_deployment t reps)) ->
  exists m' s, recover_deployment ray d tag data m = (m', Ok tt) /\ manager_ok ray m' /\
    _deployment_states m' = dset tag s (_deployment_states m) /\ recovered reps tag data s /\
    goal_manager m' = goal_manager m /\ kv_store m' = kv_store m /\
    _deleted_deployment_metadata m' = _deleted_deployment_metadata m.
Proof.
  intros Hm Hd Hr Hdict. unfold recover_deployment, _create_deployment_state, on_cluster, ask, tick. st_simpl.
  set (w := mkWorld _ _). set (now := time_ ray _). set (m1 := set_cluster w m).
  set (s0 := recover_target_state_from_checkpoint data (init_state tag now)).
  assert (Hs0 : get_checkpoint_data s0 = data) by (unfold s0; by destruct data as [[? ?] ?]).
  assert (Hsf : _curr_goal s0 = None /\ _rollback_info s0 = None /\ ds_replicas s0 = empty_container)
    by (unfold s0; by destruct data as [[? ?] ?]).
  destruct Hsf as (F1 & F2 & F3). destruct (Hd s0 Hs0) as [Ht Hi].
  assert (Hok0 : container_ok ray (ctx_of m1 s0)).
  { intros st r Hx. unfold cont in Hx. cbn in Hx. rewrite F3 in Hx. by apply elem_of_nil in Hx. }
  assert (Hfin : forall (c : Ctx Any (dict string Bytes)), container_ok ray c -> (calls (cluster m) <= calls (world c))%nat ->
    goals c = goal_manager m -> target_ok (self c) -> infos_ok (self c) -> manager_ok ray (put m tag c)).
  { intros c H1 H2 H3 H4 H5. apply put_ok; [done| |done]. split; [done | done | done|]. rewrite H3. apply Hm. }
  destruct (0 <? length (dget_or tag [] d))%nat eqn:El.
  - unfold on_new_deployment, recover_current_state_from_replica_actor_names, the. st_simpl. cbn [self].
    destruct Ht as (T1 & [i0 T2] & (v & T3 & T3') & T4).
    rewrite T2, T3, !bool_decide_true by (by eexists).
    rewrite (proj2 (Z.eqb_neq (_target_replicas s0) (-1))) by lia. cbn [negb andb py_assert].
    rewrite Hdict.
    assert (Hr' : Forall (fun p => ReplicaName.readable p.1 p.2) (of_deployment tag reps)).
    { apply list.Forall_forall. intros p Hp. apply list_elem_of_filter in Hp as [_ Hp].
      by apply (proj1 (list.Forall_forall _ _) Hr). }
    destruct (recover_replicas_fold (of_deployment tag reps) (ctx_of m1 s0) Hr' Hok0)
      as (c & E & HT & Hle & Hok & Hrec & Hoth).
    unfold ctx_of in E. st_simpl in E. rewrite E. unfold put in *.
    destruct HT as (Eg & Ek & _ & Ei & Er & En & Ec & Ev).
    assert (Hc : recovered reps tag data (self c)).
    { split_and!.
      - rewrite <- Hs0. unfold get_checkpoint_data, get_target_state_checkpoint_data. cbn in Ei, En, Ev. by rewrite Ei, En, Ev.
      - cbn in Ec. congruence.
      - cbn in Er. congruence.
      - unfold cont in Hrec. cbn in Hrec. rewrite F3 in Hrec. exact Hrec.
      - intros st Hst. unfold cont in Hoth. rewrite Hoth by done. cbn. by rewrite F3. }
    do 2 eexists. split; [reflexivity|]. split; [|split; [reflexivity|split; [exact Hc|]]].
    + apply Hfin; [done | cbn in Hle; lia | done | |].
      * apply (Hd (self c)). apply Hc.
      * split; [apply (Hd (self c)); apply Hc|]. intros i. destruct Hc as (_ & _ & -> & _). done.
    + cbn in Eg, Ek. cbn. rewrite Eg, Ek. done.
  - do 2 eexists. split; [reflexivity|]. split; [|split; [reflexivity|split]].
    + apply (Hfin (ctx_of m1 s0)); [done | cbn; lia | done | done|]. split; [done|]. cbn. by rewrite F2.
    + split_and!; [done | done | done | |].
      * rewrite F3. cbn. apply Nat.ltb_ge in El. rewrite Hdict, length_map in El.
        destruct (of_deployment tag reps); [done | cbn in El; lia].
      * intros st _. by rewrite F3.
    + done.
Qed.

Lemma recover_all_ok d reps infos : forall m,
  manager_ok ray m -> Forall (fun nd => data_ok nd.2) infos -> Forall (fun p => ReplicaName.readable p.1 p.2) reps ->
  (forall t, dget_or t [] d = map replica_actor (of_deployment t reps)) ->
  NoDup (dkeys (_deployment_states m) ++ dkeys infos) ->
  exists m', st_for infos (fun nd => recover_deployment ray d nd.1 nd.2) m = (m', Ok tt) /\ manager_ok ray m' /\
    dkeys (_deployment_states m') = dkeys (_deployment_states m) ++ dkeys infos /\
    (forall tag data, (tag, data) ∈ infos -> exists s, dget tag (_deployment_states m') = Some s /\ recovered reps tag data s) /\
    (forall tag, tag ∉ dkeys infos -> dget tag (_deployment_states m') = dget tag (_deployment_states m)) /\
    _deleted_deployment_metadata m' = _deleted_deployment_metadata m.
Proof.
  induction infos as [|[tag data] infos IH]; intros m Hm Hd Hr Hdict Hnd; cbn [st_for fst snd].
  - exists m. st_simpl. split_and!; [done | done | by rewrite app_nil_r | | done | done].
    intros t x Hx. by apply elem_of_nil in Hx.
  - apply list.Forall_cons in Hd as [Hd1 Hd]. cbn [snd] in Hd1.
    destruct (recover_deployment_ok m d reps tag data Hm Hd1 Hr Hdict) as (m1 & s & E & Hm1 & Hst & Hrec & Hg & Hk & Hdel).
    st_simpl. rewrite E. rewrite dkeys_cons in Hnd. apply list.NoDup_app in Hnd as (N1 & N2 & N3).
    apply list.NoDup_cons in N3 as [N3 N4].
    assert (Hfresh : tag ∉ dkeys (_deployment_states m)) by (intros H; apply (N2 tag H); by left).
    assert (Hkeys : dkeys (_deployment_states m1) = dkeys (_deployment_states m) ++ [tag]).
    { rewrite Hst, dkeys_dset. by rewrite decide_False. }
    destruct (IH m1 Hm1 Hd Hr Hdict) as (m2 & E2 & Hm2 & Hk2 & Hin2 & Hout2 & Hdel2).
    { rewrite Hkeys, <- app_assoc. apply list.NoDup_app. split_and!; [done | |].
      - intros x Hx Hx'. apply (N2 x Hx). exact Hx'.
      - cbn. by apply list.NoDup_cons. }
    exists m2. split_and!; [done | done | | | |congruence].
    + rewrite Hk2, Hkeys, <- app_assoc. done.
    + intros t x [[= -> ->]|Hx]%elem_of_cons; [|by apply Hin2].
      exists s. split; [|done]. rewrite Hout2 by done. rewrite Hst. apply dget_dset_eq.
    + intros t Ht. rewrite dkeys_cons, not_elem_of_cons in Ht. rewrite Hout2 by tauto. rewrite Hst, dget_dset_ne; [done|].
      intros ->. tauto.
Qed.

(** The data of all deployments, as a checkpoint holds it *)
Definition states_data (d : dict string (DeploymentState Any)) : dict string (target_state Any) :=
  map (fun ns => (ns.1, get_checkpoint_data ns.2)) d.

(** The store holds the current state of the controller. *)
Definition saved m : Prop :=
  dget DEPLOYMENT_CHECKPOINT_KEY (kv_store m) =
    Some (dumps (states_data (_deployment_states m), _deleted_deployment_metadata m)).

Lemma states_data_dset name s d :
  dwf d -> name ∈ dkeys d ->
  states_data (dset name s d) =
    map (fun ns => (ns.1, if decide (ns.1 = name) then get_checkpoint_data s else get_checkpoint_data ns.2)) d.
Proof.
  intros Hw Hin. unfold states_data. induction d as [|[k x] d IH]; [by apply elem_of_nil in Hin|].
  apply dwf_cons in Hw as [Hk Hw]. cbn. destruct (decide (name = k)) as [->|Hne].
  - cbn. rewrite decide_True by done. f_equal. apply map_ext_in. intros [k' x'] Hin'. cbn.
    rewrite decide_False; [done|]. intros ->. apply Hk. apply list_elem_of_fmap. exists (k, x').
    split; [done | by apply list_elem_of_In].
  - cbn. rewrite decide_False by congruence. f_equal. apply IH; [done|].
    rewrite dkeys_cons in Hin. by apply elem_of_cons in Hin as [|?].
Qed.

Lemma kv_set_goal {KV} info : st_preserves (S := Ctx Any KV) kv (_set_deployment_goal ray info).
Proof.
  unfold _set_deployment_goal, new_version, the, change, on_world, on_goals. destruct info; preserves_tac.
Qed.

Lemma self_kv_complete {KV} g e : st_preserves (S := Ctx Any KV) (fun c => (self c, kv c)) (complete g e).
Proof. unfold complete, on_goals. preserves_tac. Qed.

(** A deployment saves its state after it set its goal, and does not change it
    afterwards. *)
Lemma deploy_kv {KV} (save : target_state Any -> KV -> KV) info (c c' : Ctx Any KV) g :
  deploy ray save info c = (c', Ok (g, true)) -> kv c' = save (get_checkpoint_data (self c')) (kv c).
Proof.
  unfold deploy, the, change, save_checkpoint. st_simpl.
  match goal with |- (if ?b then _ else _) _ = _ -> _ => destruct b end; [by intros [= _ _]|].
  match goal with |- context [_set_deployment_goal ray ?i ?x] => pose proof (kv_set_goal i x) as Hk end.
  destruct (_set_deployment_goal ray _ _) as [c2 [[ng eg]|e]]; [|done]. cbn [fst] in Hk. cbn in Hk.
  unfold the. st_simpl.
  match goal with |- context [complete eg None ?x] => pose proof (self_kv_complete eg None x) as Hs end.
  destruct (complete eg None _) as [c4 [u|e]]; [|done]. cbn in Hs. injection Hs as H1 H2. intros [= <- _].
  by rewrite H2, H1, Hk.
Qed.

Lemma delete_kv {KV} (save : target_state Any -> KV -> KV) (c c' : Ctx Any KV) g :
  delete ray save c = (c', Ok g) -> kv c' = save (get_checkpoint_data (self c')) (kv c).
Proof.
  unfold delete, save_checkpoint, the. st_simpl.
  match goal with |- context [_set_deployment_goal ray ?i ?x] => pose proof (kv_set_goal i x) as Hk end.
  destruct (_set_deployment_goal ray _ _) as [c2 [[ng eg]|e]]; [|done]. cbn in Hk.
  unfold the. st_simpl.
  match goal with |- context [complete eg None ?x] => pose proof (self_kv_complete eg None x) as Hs end.
  destruct (complete eg None _) as [c4 [u|e]]; [|done]. cbn in Hs. injection Hs as H1 H2. intros [= <- _].
  by rewrite H2, H1, Hk.
Qed.

Lemma saved_put m name s c :
  dwf (_deployment_states m) -> dget name (_deployment_states m) = Some s ->
  kv c = _save_checkpoint_func dumps m name (get_checkpoint_data (self c)) (kv_store m) -> saved (put m name c).
Proof.
  intros Hw Hs Hk. unfold saved. cbn [put kv_store _deployment_states _deleted_deployment_metadata]. rewrite Hk.
  unfold _save_checkpoint_func, checkpoint_of. rewrite dget_dset_eq, states_data_dset; [done | done|].
  apply dget_is_Some. by eexists.
Qed.

(** [deploy] and [delete_deployment] checkpoint what they did. *)
Lemma manager_deploy_saved m name info m' g :
  dwf (_deployment_states m) -> manager_deploy dumps ray name info m = (m', Ok (g, true)) -> saved m'.
Proof.
  intros Hw. unfold manager_deploy. st_simpl. set (m1 := if dmem name (_deleted_deployment_metadata m) then _ else m).
  assert (Hw1 : dwf (_deployment_states m1)) by (unfold m1; by destruct (dmem name _)).
  assert (Hmain : forall m2, dwf (_deployment_states m2) ->
    on_deployment dumps name (fun save => deploy ray save info) m2 = (m', Ok (g, true)) -> saved m').
  { intros m2 Hw2 H. unfold on_deployment in H. destruct (dget name (_deployment_states m2)) as [s|] eqn:Es; [|done].
    destruct (deploy ray _ info _) as [c r] eqn:Ed. injection H as <- ->.
    apply deploy_kv in Ed. by apply (saved_put m2 name s c). }
  destruct (dmem name (_deployment_states m1)); [by apply Hmain|].
  unfold _create_deployment_state, on_cluster, ask, tick. st_simpl. apply Hmain. by apply dwf_dset.
Qed.

Lemma manager_delete_saved m name m' g :
  dwf (_deployment_states m) -> manager_delete_deployment dumps ray name m = (m', Ok (Some g)) -> saved m'.
Proof.
  intros Hw. unfold manager_delete_deployment. st_simpl. destruct (dmem name (_deployment_states m)); cbn [negb]; [|done].
  st_simpl. unfold on_deployment. destruct (dget name (_deployment_states m)) as [s|] eqn:Es; [|done].
  destruct (delete ray _ _) as [c [r|e]] eqn:Ed; [|done]. intros [= <- <-].
  apply delete_kv in Ed. by apply (saved_put m name s c).
Qed.

Lemma states_data_ok m : manager_ok ray m -> Forall (fun nd => data_ok nd.2) (states_data (_deployment_states m)).
Proof.
  intros [Hw _ Hs _ _]. apply list.Forall_forall. intros [n data] Hin. unfold states_data in Hin.
  apply list_elem_of_fmap in Hin as ([n' s] & [= -> ->] & Hin).
  destruct (Hs n' s) as (_ & Ht & Hi & _); [by apply elem_dget|].
  intros s' E. unfold get_checkpoint_data, get_target_state_checkpoint_data in E. injection E as E1 E2 E3.
  unfold target_ok. by rewrite E1, E2, E3.
Qed.

Lemma recover_saved m names reps w :
  (forall x, loads (dumps x) = Ok x) -> manager_ok ray m -> saved m ->
  Forall (fun p => ReplicaName.readable p.1 p.2) reps ->
  filter (fun n => ReplicaName.is_replica_name n = true) names = map replica_actor reps ->
  exists m', _recover_from_checkpoint loads ray names (empty_controller (kv_store m) w) = (m', Ok tt) /\
    manager_ok ray m' /\ dkeys (_deployment_states m') = dkeys (_deployment_states m) /\
    _deleted_deployment_metadata m' = _deleted_deployment_metadata m /\
    (forall tag s, dget tag (_deployment_states m) = Some s ->
       exists s', dget tag (_deployment_states m') = Some s' /\ recovered reps tag (get_checkpoint_data s) s').
Proof.
  intros Hpickle Hm Hsv Hr Hnames. unfold _recover_from_checkpoint, _map_actor_names_to_deployment. rewrite Hnames. st_simpl.
  destruct (map_actor_names_fold reps [] Hr) as (d & -> & Hd).
  cbn [kv_store empty_controller]. rewrite Hsv, Hpickle.
  set (m0 := set_deleted _ _).
  assert (Hm0 : manager_ok ray m0).
  { destruct (empty_controller_ok ray (kv_store m) w) as [[A1 A2 A3 A4 A5] _]. split; [done | done | done | apply Hm | apply Hm]. }
  assert (Hkeys : dkeys (states_data (_deployment_states m)) = dkeys (_deployment_states m)).
  { unfold states_data, dkeys. rewrite map_map. done. }
  destruct (recover_all_ok d reps (states_data (_deployment_states m)) m0 Hm0 (states_data_ok m Hm) Hr) as (m' & E & Hm' & Hk & Hin & _ & Hdel).
  - intros t. by rewrite Hd.
  - cbn. rewrite Hkeys. apply Hm.
  - exists m'. split_and!; [exact E | done | cbn in Hk; by rewrite Hk, Hkeys | done|].
    intros tag s Hs. apply (Hin tag (get_checkpoint_data s)). apply list_elem_of_fmap. exists (tag, s).
    split; [done | by apply dget_elem].
Qed.

(** C11. A controller that fails right after [deploy] or [delete_deployment] is
    recovered: from the store and the names of the actors in the cluster a new
    controller gets the same deployments with the same targets, the metadata of
    the deleted ones, and under each deployment exactly its replicas, and its
    state is well formed. *)
Theorem checkpoint_restores (m m1 : Controller Any Bytes) (name : string) (info : DeploymentInfo Any) (g : Z)
    (names : list string) (reps : list (string * string)) (w : World Any) :
  (forall x, loads (dumps x) = Ok x) ->
  manager_ok ray m -> goals_owned [] m -> info_ok info ->
  manager_deploy dumps ray name info m = (m1, Ok (Some g, true)) \/
  manager_delete_deployment dumps ray name m = (m1, Ok (Some g)) ->
  Forall (fun p => ReplicaName.readable p.1 p.2) reps ->
  filter (fun n => ReplicaName.is_replica_name n = true) names = map replica_actor reps ->
  exists m2, _recover_from_checkpoint loads ray names (empty_controller (kv_store m1) w) = (m2, Ok tt) /\
    manager_ok ray m2 /\ dkeys (_deployment_states m2) = dkeys (_deployment_states m1) /\
    _deleted_deployment_metadata m2 = _deleted_deployment_metadata m1 /\
    (forall tag s, dget tag (_deployment_states m1) = Some s ->
       exists s', dget tag (_deployment_states m2) = Some s' /\ recovered reps tag (get_checkpoint_data s) s').
Proof.
  intros Hpickle Hm Ho Hi Hop Hr Hnames.
  assert (H1 : manager_ok ray m1 /\ saved m1).
  { destruct Hop as [E|E].
    - split; [|by eapply manager_deploy_saved; [apply Hm | exact E]].
      destruct (manager_deploy_ok dumps ray m name info Hm Ho Hi) as (m' & r & E' & Hm' & _). congruence.
    - split; [|by eapply manager_delete_saved; [apply Hm | exact E]].
      destruct (manager_delete_ok dumps ray m name Hm Ho) as (m' & r & E' & Hm' & _). congruence. }
  destruct H1 as [Hm1 Hs1]. by apply recover_saved.
Qed.

End Recovery.
