(* ===== verification/HttpProxy.v ===== *)
(** The HTTP proxy's routes ([serve/http_proxy.py]): [LongestPrefixRouter] and
    the routing part of [HTTPProxy]. *)

From Stdlib Require Import ZArith Lia Ascii.
From stdpp Require Import base list strings option sorting.
From S2P Require Import Prelude PyDict MlDict DeploymentState.

Section HttpProxy.
Context {Handle : Type}.
Variable get_handle : string -> Handle.

(** ** [LongestPrefixRouter] *)

Record LongestPrefixRouter : Type := mkPrefixRouter {
  sorted_routes : list string;
  route_info : dict string string;
  handles : dict string Handle
}.

Definition init_prefix_router : LongestPrefixRouter := mkPrefixRouter [] [] [].

Definition endpoint_exists (endpoint : string) (t : LongestPrefixRouter) : bool := dmem endpoint (handles t).

(** The route of an endpoint, the default one without a prefix *)
Definition route_of (endpoint : string) (info : EndpointInfo) : string :=
  match route info with None => "/" +:+ endpoint | Some r => r end.

(** The locals of the loop of [update_routes] and the router's handles *)
Record update_locals : Type := mkLocals {
  existing_handles : list string;
  routes : list string;
  new_route_info : dict string string;
  new_handles : dict string Handle
}.

Definition update_route (l : update_locals) (ei : string * EndpointInfo) : result update_locals :=
  let '(endpoint, info) := ei in
  let r := route_of endpoint info in
  let rs := routes l ++ [r] in
  let infos := dset r endpoint (new_route_info l) in
  if dmem endpoint (new_handles l)
  then if bool_decide (endpoint ∈ existing_handles l)
       then Ok (mkLocals (filter (fun e => e <> endpoint) (existing_handles l)) rs infos (new_handles l))
       else Err KeyError
  else Ok (mkLocals (existing_handles l) rs infos (dset endpoint (get_handle endpoint) (new_handles l))).

Definition shorter (a b : string) : bool := (String.length a <? String.length b)%nat.

Definition update_routes (endpoints : dict string EndpointInfo) (t : LongestPrefixRouter) : result LongestPrefixRouter :=
  l ← foldM update_route (mkLocals (dkeys (handles t)) [] [] (handles t)) endpoints;
  hs ← foldM (fun hs endpoint => ddelitem endpoint hs) (new_handles l) (existing_handles l);
  Ok (mkPrefixRouter (py_sorted_reverse shorter (routes l)) (new_route_info l) hs).

Definition endswith_slash (s : string) : bool :=
  match String.get (String.length s - 1) s with Some c => Ascii.eqb c "/"%char | None => false end.

(** Whether a route that is a prefix of the target matches it *)
Definition matched (target_route r : string) : result bool :=
  if endswith_slash r then Ok true
  else if (String.length target_route =? String.length r)%nat then Ok true
  else c ← or_raise IndexError (String.get (String.length r) target_route); Ok (Ascii.eqb c "/"%char).

Fixpoint match_loop (target_route : string) (t : LongestPrefixRouter) (rs : list string) :
  result (option (string * Handle)) :=
  match rs with
  | [] => Ok None
  | r :: rs' =>
      if String.prefix r target_route
      then
        m ← matched target_route r;
        if (m : bool)
        then endpoint ← dgetitem r (route_info t); h ← dgetitem endpoint (handles t); Ok (Some (r, h))
        else match_loop target_route t rs'
      else match_loop target_route t rs'
  end.

Definition match_route (target_route : string) (t : LongestPrefixRouter) : result (option (string * Handle)) :=
  match_loop target_route t (sorted_routes t).

(** ** [HTTPProxy] *)

Record HTTPProxy : Type := mkProxy {
  proxy_route_info : dict string string;
  prefix_router : LongestPrefixRouter
}.

Definition _update_routes (endpoints : dict string EndpointInfo) (p : HTTPProxy) : result HTTPProxy :=
  let info := foldl (fun d ei => dset (route_of ei.1 ei.2) ei.1 d) [] endpoints in
  t ← update_routes endpoints (prefix_router p);
  Ok (mkProxy info t).

(** [s.replace(old, '', 1)] *)
Fixpoint remove_first (old s : string) : string :=
  if String.prefix old s then String.substring (String.length old) (String.length s - String.length old) s
  else match s with EmptyString => EmptyString | String c s' => String c (remove_first old s') end.

(** What becomes of a request: the route table, a 404, or a handle with the
    path and the root path of the scope *)
Inductive routed : Type :=
| RouteTable (info : dict string string)
| NotFound
| Forward (h : Handle) (path root_path : string).

Definition call (path root_path : string) (p : HTTPProxy) : result routed :=
  if String.eqb path "/-/routes" then Ok (RouteTable (proxy_route_info p))
  else
    m ← match_route path (prefix_router p);
    match m with
    | None => Ok NotFound
    | Some (route_prefix, handle) =>
        if String.eqb route_prefix "/" then Ok (Forward handle path root_path)
        else
          _ ← py_assert (negb (endswith_slash route_prefix));
          Ok (Forward handle (remove_first route_prefix path) route_prefix)
    end.

(** ** Requests to handles

    [_send_request_to_handle]: what each attempt gave, and the response *)
Inductive attempt (Result : Type) : Type :=
| Done (r : Result)
| TaskError
| ActorError.
Arguments Done {Result} _.
Arguments TaskError {Result}.
Arguments ActorError {Result}.

Definition MAX_REPLICA_FAILURE_RETRIES : nat := 10.

Inductive response (Result : Type) : Type :=
| Respond (r : Result)
| InternalError (retries_spent : bool).
Arguments Respond {Result} _.
Arguments InternalError {Result} _.

(** [remote n] is the outcome of the n-th attempt; the response and the number
    of attempts *)
Fixpoint send_loop {Result} (remote : nat -> attempt Result) (retries left : nat) : response Result * nat :=
  match left with
  | 0 => (InternalError true, retries)
  | S left' =>
      match remote retries with
      | Done r => (Respond r, S retries)
      | TaskError => (InternalError false, S retries)
      | ActorError => send_loop remote (S retries) left'
      end
  end.

Definition _send_request_to_handle {Result} (remote : nat -> attempt Result) : response Result * nat :=
  send_loop remote 0 MAX_REPLICA_FAILURE_RETRIES.
(** ** Strings *)

Lemma prefix_iff (r t : string) : String.prefix r t = true <-> exists s, t = r +:+ s.
Proof.
  revert t. induction r as [|c r IH]; intros t.
  - split; [intros _; by exists t | by destruct t].
  - destruct t as [|c' t]; cbn; [split; [done | by intros [s ?]]|].
    destruct (ascii_dec c c') as [->|Hne].
    + rewrite IH. split; intros [s Hs]; exists s; [by rewrite Hs | by injection Hs].
    + split; [done|]. intros [s Hs]. injection Hs. congruence.
Qed.

Lemma length_app_string (r s : string) : String.length (r +:+ s) = (String.length r + String.length s)%nat.
Proof. induction r as [|c r IH]; [done|].
  change (S (String.length (r +:+ s)) = S (String.length r + String.length s)). by f_equal.
Qed.

Lemma get_app (r s : string) : String.get (String.length r) (r +:+ s) = String.get 0 s.
Proof. induction r as [|c r IH]; [done | exact IH]. Qed.

Lemma substring_all (s : string) : String.substring 0 (String.length s) s = s.
Proof. induction s as [|c s IH]; [done|]. cbn. by f_equal. Qed.

Lemma substring_app (r s : string) : String.substring (String.length r) (String.length s) (r +:+ s) = s.
Proof. induction r as [|c r IH]; [apply substring_all | exact IH]. Qed.

Lemma remove_first_prefix (r s : string) : remove_first r (r +:+ s) = s.
Proof.
  assert (Hp : String.prefix r (r +:+ s) = true) by (apply prefix_iff; by exists s).
  destruct (r +:+ s) as [|c t] eqn:E; cbn [remove_first]; rewrite Hp, <- E, length_app_string, Nat.add_comm, Nat.add_sub;
    apply substring_app.
Qed.

(** ** Matching *)

(** A route covers the paths under it: itself, and what follows it after a
    slash. *)
Definition covers (r path : string) : Prop :=
  exists s, path = r +:+ s /\ (endswith_slash r = true \/ s = "" \/ exists s', s = String "/" s').

Lemma matched_ok r s :
  exists b, matched (r +:+ s) r = Ok b /\
    (b = true <-> endswith_slash r = true \/ s = "" \/ exists s', s = String "/" s').
Proof.
  unfold matched. destruct (endswith_slash r) eqn:Ee; [exists true; split; [done|]; tauto|].
  rewrite length_app_string, get_app. destruct s as [|c s]; cbn [String.length String.get].
  - rewrite Nat.add_0_r, Nat.eqb_refl. exists true. split; [done|]. tauto.
  - rewrite (proj2 (Nat.eqb_neq _ _)) by lia. cbn. exists (Ascii.eqb c "/"%char). split; [done|].
    rewrite Ascii.eqb_eq. split; [intros ->; eauto|]. intros [?|[?|[s' Hs]]]; [done | done | congruence].
Qed.

Lemma match_loop_ok path t rs :
  (forall r, r ∈ rs -> exists e h, dget r (route_info t) = Some e /\ dget e (handles t) = Some h) ->
  StronglySorted (fun a b => shorter a b = false) rs ->
  (match_loop path t rs = Ok None /\ forall r, r ∈ rs -> ~ covers r path) \/
  (exists r e h, r ∈ rs /\ covers r path /\ dget r (route_info t) = Some e /\ dget e (handles t) = Some h /\
     match_loop path t rs = Ok (Some (r, h)) /\
     forall r', r' ∈ rs -> covers r' path -> (String.length r' <= String.length r)%nat).
Proof.
  induction rs as [|r rs IH]; intros Hin Hs; [left; split; [done|]; intros r Hr; by apply elem_of_nil in Hr|].
  apply StronglySorted_inv in Hs as [Hs Hr]. rewrite list.Forall_forall in Hr.
  assert (Hskip : ~ covers r path -> match_loop path t (r :: rs) = match_loop path t rs ->
    (match_loop path t (r :: rs) = Ok None /\ forall r0, r0 ∈ r :: rs -> ~ covers r0 path) \/
    (exists r0 e h, r0 ∈ r :: rs /\ covers r0 path /\ dget r0 (route_info t) = Some e /\ dget e (handles t) = Some h /\
       match_loop path t (r :: rs) = Ok (Some (r0, h)) /\
       forall r', r' ∈ r :: rs -> covers r' path -> (String.length r' <= String.length r0)%nat)).
  { intros Hn ->. destruct IH as [[E Hno]|(r0 & e & h & H0 & Hc & Hi & Hh & E & Hmax)];
      [intros; apply Hin; by right | done | left | right].
    - split; [done|]. intros r0 [->|H0]%elem_of_cons; [done | by apply Hno].
    - exists r0, e, h. split_and!; try done; [by right|]. intros r' [->|H']%elem_of_cons; [done | by apply Hmax]. }
  cbn [match_loop] in *. destruct (String.prefix r path) eqn:Ep.
  - apply prefix_iff in Ep as [s ->]. destruct (matched_ok r s) as (b & Em & Hb). rewrite Em in *. cbn [mbind result_bind] in *.
    destruct b.
    + right. destruct (Hin r) as (e & h & Hi & Hh); [left|]. exists r, e, h. unfold dgetitem. rewrite Hi. cbn.
      rewrite Hh. cbn. split_and!; try done; [left | exists s; split; [done | by apply Hb] |].
      intros r' [->|H']%elem_of_cons _; [done|]. specialize (Hr r' H').
      unfold shorter in Hr. apply Nat.ltb_ge in Hr. done.
    + apply Hskip; [|done]. intros (s' & Hs' & Hc). apply Hb in Hc || idtac.
      assert (s' = s) as ->. { clear -Hs'. induction r as [|c r IHr]; [done|]. injection Hs'. auto. }
      by apply Hb in Hc.
  - apply Hskip; [|done]. intros (s & -> & _). assert (String.prefix r (r +:+ s) = true) by (apply prefix_iff; by exists s).
    congruence.
Qed.

(** ** The routes of an endpoint table *)

(** What the loop of [update_routes] has built from [done], the endpoints so
    far, and [hs], the handles before it *)
Record update_inv (hs : dict string Handle) (done : dict string EndpointInfo) (l : update_locals) : Prop := {
  ui_existing : forall e, e ∈ existing_handles l <-> e ∈ dkeys hs /\ e ∉ dkeys done;
  ui_nodup : NoDup (existing_handles l);
  ui_routes : routes l = map (fun ei => route_of ei.1 ei.2) done;
  ui_info : forall r e, dget r (new_route_info l) = Some e -> exists i, (e, i) ∈ done /\ route_of e i = r;
  ui_infos : forall r, r ∈ routes l -> is_Some (dget r (new_route_info l));
  ui_wf : dwf (new_handles l);
  ui_handles : forall e, dget e (new_handles l) =
    if decide (e ∈ dkeys done) then Some (default (get_handle e) (dget e hs)) else dget e hs
}.

Lemma update_route_inv hs done l e i :
  update_inv hs done l -> e ∉ dkeys done ->
  exists l', update_route l (e, i) = Ok l' /\ update_inv hs (done ++ [(e, i)]) l'.
Proof.
  intros [He Hn Hr Hi His Hw Hh] Hne. cbn [update_route].
  assert (Hk : forall x, x ∈ dkeys (done ++ [(e, i)]) <-> x ∈ dkeys done \/ x = e).
  { intros x. unfold dkeys. rewrite map_app, elem_of_app. cbn. by rewrite list_elem_of_singleton. }
  set (ri := dset (route_of e i) e (new_route_info l)).
  assert (Hri : forall r x, dget r ri = Some x -> exists j, (x, j) ∈ done ++ [(e, i)] /\ route_of x j = r).
  { intros r x. unfold ri. rewrite dget_dset. destruct (decide _) as [<-|].
    - intros [= <-]. exists i. split; [|done]. apply elem_of_app. right. by apply list_elem_of_singleton.
    - intros H. destruct (Hi r x H) as (j & Hj & <-). exists j. split; [|done]. apply elem_of_app. by left. }
  assert (Hris : forall r, r ∈ routes l ++ [route_of e i] -> is_Some (dget r ri)).
  { intros r Hr'. unfold ri. rewrite dget_dset. destruct (decide _) as [|Hd]; [by eexists|].
    apply elem_of_app in Hr' as [Hr'|Hr']; [by apply His|]. apply list_elem_of_singleton in Hr'. congruence. }
  assert (Hrs : routes l ++ [route_of e i] = map (fun ei => route_of ei.1 ei.2) (done ++ [(e, i)])).
  { by rewrite map_app, Hr. }
  pose proof (Hh e) as Hhe. rewrite decide_False in Hhe by done.
  destruct (dmem e (new_handles l)) eqn:Ed.
  - apply dmem_true in Ed. assert (Heh : e ∈ dkeys hs) by (apply dget_is_Some; rewrite <- Hhe; by apply dget_is_Some).
    rewrite bool_decide_true by (by apply He). eexists. split; [reflexivity|]. split; cbn; try done.
    + intros x. rewrite list_elem_of_filter, He, Hk. naive_solver.
    + by apply NoDup_filter.
    + intros x. rewrite Hh. destruct (decide (x ∈ dkeys done)) as [Hx|Hx].
      * rewrite decide_True by (apply Hk; by left). done.
      * destruct (decide (x = e)) as [->|Hxe].
        -- rewrite decide_True by (apply Hk; by right). apply dget_is_Some in Heh as [h Hh']. by rewrite Hh'.
        -- rewrite decide_False; [done|]. rewrite Hk. tauto.
  - apply dmem_false in Ed. assert (Heh : e ∉ dkeys hs).
    { rewrite <- dget_None. rewrite <- Hhe. by apply dget_None. }
    eexists. split; [reflexivity|]. split; cbn; try done.
    + intros x. rewrite He, Hk. naive_solver.
    + by apply dwf_dset.
    + intros x. rewrite dget_dset, Hh. destruct (decide (e = x)) as [<-|Hxe].
      * rewrite decide_True by (apply Hk; by right). by rewrite (proj2 (dget_None _ _) Heh).
      * destruct (decide (x ∈ dkeys done)); [rewrite decide_True by (apply Hk; by left); done|].
        rewrite decide_False; [done|]. rewrite Hk. naive_solver.
Qed.

Lemma update_route_fold hs todo : forall done l,
  update_inv hs done l -> NoDup (dkeys (done ++ todo)) ->
  exists l', foldM update_route l todo = Ok l' /\ update_inv hs (done ++ todo) l'.
Proof.
  induction todo as [|[e i] todo IH]; intros done l Hl Hn; cbn [foldM].
  - exists l. by rewrite app_nil_r.
  - destruct (update_route_inv hs done l e i Hl) as (l1 & -> & H1).
    + unfold dkeys in Hn. rewrite map_app in Hn. apply list.NoDup_app in Hn as (_ & Hd & _).
      intros He. apply (Hd e He). cbn. left.
    + cbn [mbind result_bind]. destruct (IH (done ++ [(e, i)]) l1 H1) as (l' & E & H'); [by rewrite <- app_assoc|].
      exists l'. by rewrite <- app_assoc in H'.
Qed.

(** What a router holds for a table: its routes by decreasing length, each
    with an endpoint that has it, and the handles of exactly the endpoints, the
    old ones where there were. *)
Record serves (hs : dict string Handle) (endpoints : dict string EndpointInfo) (t : LongestPrefixRouter) : Prop := {
  sv_routes : forall r, r ∈ sorted_routes t <-> exists e i, dget e endpoints = Some i /\ route_of e i = r;
  sv_sorted : StronglySorted (fun a b => shorter a b = false) (sorted_routes t);
  sv_info : forall r, r ∈ sorted_routes t ->
    exists e i, dget r (route_info t) = Some e /\ dget e endpoints = Some i /\ route_of e i = r;
  sv_wf : dwf (handles t);
  sv_handles : forall e, dget e (handles t) =
    if decide (e ∈ dkeys endpoints) then Some (default (get_handle e) (dget e hs)) else None
}.

Lemma shorter_sorted rs : StronglySorted (fun a b => shorter a b = false) (py_sorted_reverse shorter rs).
Proof.
  apply py_sorted_reverse_sorted; unfold shorter; intros x y; [intros z|]; rewrite ?Nat.ltb_ge, ?Nat.ltb_lt; intros; lia.
Qed.

Lemma update_routes_ok endpoints t :
  dwf endpoints -> dwf (handles t) ->
  exists t', update_routes endpoints t = Ok t' /\ serves (handles t) endpoints t'.
Proof.
  intros Hw Hh. unfold update_routes.
  destruct (update_route_fold (handles t) endpoints [] (mkLocals (dkeys (handles t)) [] [] (handles t)))
    as (l & -> & [He Hn Hr Hi His Hwf Hhs]).
  - split; cbn; try done.
    + intros e. rewrite elem_of_nil. tauto.
    + intros r Hr. by apply elem_of_nil in Hr.
  - done.
  - cbn [mbind result_bind app] in *. destruct (ddelitem_all (existing_handles l) (new_handles l)) as (hs & E & Hw' & Hg); [done | done | |].
    { intros e Hin. apply He in Hin as [H1 H2]. apply dget_is_Some. rewrite Hhs, decide_False by done. by apply dget_is_Some. }
    rewrite E. cbn [mbind result_bind]. eexists. split; [reflexivity|].
    assert (Hroutes : forall r, r ∈ py_sorted_reverse shorter (routes l) <-> exists e i, dget e endpoints = Some i /\ route_of e i = r).
    { intros r. rewrite py_sorted_reverse_Permutation, Hr, list_elem_of_fmap. split.
      - intros ([e i] & -> & Hin). exists e, i. split; [by apply elem_dget | done].
      - intros (e & i & Hd & <-). exists (e, i). split; [done | by apply dget_elem]. }
    split; cbn; [done | | | done|].
    + apply shorter_sorted.
    + intros r Hin. rewrite py_sorted_reverse_Permutation in Hin. destruct (His r Hin) as [e Ee].
      destruct (Hi r e Ee) as (i & Hei & Hro). exists e, i. split_and!; [done | by apply elem_dget | done].
    + intros e. rewrite Hg, Hhs. destruct (decide (e ∈ existing_handles l)) as [Hx|Hx].
      * apply He in Hx as [_ Hx]. by rewrite decide_False.
      * destruct (decide (e ∈ dkeys endpoints)) as [|Hd]; [done|]. apply dget_None. intros Hk. apply Hx. by apply He.
Qed.

(** An endpoint table whose routes the deployment API allows *)
Definition valid_routes (endpoints : dict string EndpointInfo) : Prop :=
  forall e i, dget e endpoints = Some i -> route_of e i = "/" \/ endswith_slash (route_of e i) = false.

(** C30. After the proxy was told an endpoint table, it holds a handle for each
    endpoint of the table and no other, keeping those it had. A request is then
    answered with 404 when no route of the table covers its path; otherwise it
    goes to an endpoint whose route covers the path and is the longest that
    does, and root path and remaining path put together are the path. *)
Theorem request_takes_longest_route (endpoints : dict string EndpointInfo) (p : HTTPProxy) :
  dwf endpoints -> dwf (handles (prefix_router p)) -> valid_routes endpoints ->
  exists p', _update_routes endpoints p = Ok p' /\
    (forall e, dget e (handles (prefix_router p')) =
       if decide (e ∈ dkeys endpoints)
       then Some (default (get_handle e) (dget e (handles (prefix_router p)))) else None) /\
    forall path root, path <> "/-/routes" ->
      (call path root p' = Ok NotFound /\
       forall e i, dget e endpoints = Some i -> ~ covers (route_of e i) path) \/
      (exists e i h path' root', dget e endpoints = Some i /\ covers (route_of e i) path /\
         dget e (handles (prefix_router p')) = Some h /\ call path root p' = Ok (Forward h path' root') /\
         (if decide (route_of e i = "/") then path' = path /\ root' = root
          else root' = route_of e i /\ root' +:+ path' = path) /\
         forall e' i', dget e' endpoints = Some i' -> covers (route_of e' i') path ->
           (String.length (route_of e' i') <= String.length (route_of e i))%nat).
Proof.
  intros Hw Hh Hv. unfold _update_routes.
  destruct (update_routes_ok endpoints (prefix_router p) Hw Hh) as (t & -> & [Hr Hs Hi Hwt Hht]).
  cbn [mbind result_bind]. eexists. split; [reflexivity|]. cbn [prefix_router]. split; [done|].
  intros path root Hpath. unfold call. cbn [prefix_router]. rewrite (proj2 (String.eqb_neq _ _) Hpath). unfold match_route.
  destruct (match_loop_ok path t (sorted_routes t)) as [[-> Hno]|(r & e & h & Hin & Hc & Hri & Hhe & -> & Hmax)].
  - intros r Hin. destruct (Hi r Hin) as (e & i & Hri & Hd & _). exists e. rewrite Hri, Hht, decide_True; [by eexists|].
    apply dget_is_Some. by eexists.
  - done.
  - left. split; [done|]. intros e i Hd. apply Hno, Hr. by exists e, i.
  - right. cbn [mbind result_bind]. destruct (Hi r Hin) as (e' & i & Hri' & Hd & <-).
    assert (e' = e) as -> by congruence.
    assert (Hlong : forall e' i', dget e' endpoints = Some i' -> covers (route_of e' i') path ->
      (String.length (route_of e' i') <= String.length (route_of e i))%nat).
    { intros e' i' Hd' Hc'. apply Hmax; [|done]. apply Hr. by exists e', i'. }
    destruct (String.eqb_spec (route_of e i) "/") as [E|Hne].
    + exists e, i, h, path, root. split_and!; try done. by rewrite decide_True.
    + destruct (Hv e i Hd) as [?|Hend]; [done|]. rewrite Hend. cbn.
      exists e, i, h, (remove_first (route_of e i) path), (route_of e i). split_and!; try done.
      rewrite decide_False by done. split; [done|]. destruct Hc as (s & -> & _). by rewrite remove_first_prefix.
Qed.

(** At most ten attempts: the first result or task error is the answer, and
    only ten failed replicas in a row give up. *)
Theorem send_request_retries {Result} (remote : nat -> attempt Result) :
  exists n, (1 <= n <= MAX_REPLICA_FAILURE_RETRIES)%nat /\ (_send_request_to_handle remote).2 = n /\
    (forall k, (k < n - 1)%nat -> remote k = ActorError) /\
    (_send_request_to_handle remote).1 =
      match remote (n - 1)%nat with Done r => Respond r | TaskError => InternalError false | ActorError => InternalError true end /\
    (remote (n - 1)%nat = ActorError -> n = MAX_REPLICA_FAILURE_RETRIES).
Proof.
  unfold _send_request_to_handle.
  assert (H : forall left retries, (1 <= left)%nat -> exists n, (S retries <= n <= retries + left)%nat /\
    (send_loop remote retries left).2 = n /\
    (forall k, (retries <= k < n - 1)%nat -> remote k = ActorError) /\
    (send_loop remote retries left).1 =
      match remote (n - 1)%nat with Done r => Respond r | TaskError => InternalError false | ActorError => InternalError true end /\
    (remote (n - 1)%nat = ActorError -> n = (retries + left)%nat)).
  { induction left as [|left IH]; intros retries Hl; [lia|]. cbn [send_loop].
    destruct (remote retries) eqn:E.
    - exists (S retries). cbn. rewrite Nat.sub_0_r, E. split_and!; [lia | lia | done | intros; lia | done | done].
    - exists (S retries). cbn. rewrite Nat.sub_0_r, E. split_and!; [lia | lia | done | intros; lia | done | done].
    - destruct left as [|left].
      + exists (S retries). cbn. rewrite Nat.sub_0_r, E. split_and!; [lia | lia | done | intros; lia | done | lia].
      + destruct (IH (S retries)) as (n & Hn & H2 & H3 & H4 & H5); [lia|].
        exists n. split_and!; [lia | lia | done | | done | intros Hr; rewrite (H5 Hr); lia].
        intros k Hk. destruct (decide (k = retries)) as [->|]; [done|]. apply H3. lia. }
  destruct (H MAX_REPLICA_FAILURE_RETRIES 0%nat) as (n & Hn & H2 & H3 & H4 & H5); [unfold MAX_REPLICA_FAILURE_RETRIES; lia|].
  exists n. split_and!; [lia | lia | done | intros; apply H3; lia | done | done].
Qed.

End HttpProxy.

(** ** Examples *)

Definition ex_table : dict string EndpointInfo :=
  [("a", mkEndpoint None); ("ab", mkEndpoint (Some "/a/b")); ("all", mkEndpoint (Some "/"))].
Definition ex_get_handle (e : string) : string := "handle of " +:+ e.
Definition ex_proxy : HTTPProxy (Handle := string) := mkProxy [] (mkPrefixRouter [] [] [("gone", "old"); ("a", "kept")]).

Lemma request_takes_longest_route_witness :
  exists p', _update_routes ex_get_handle ex_table ex_proxy = Ok p' /\
    (forall e, dget e (handles (prefix_router p')) =
       if decide (e ∈ dkeys ex_table)
       then Some (default (ex_get_handle e) (dget e (handles (prefix_router ex_proxy)))) else None) /\
    forall path root, path <> "/-/routes" ->
      (call path root p' = Ok NotFound /\
       forall e i, dget e ex_table = Some i -> ~ covers (route_of e i) path) \/
      (exists e i h path' root', dget e ex_table = Some i /\ covers (route_of e i) path /\
         dget e (handles (prefix_router p')) = Some h /\ call path root p' = Ok (Forward h path' root') /\
         (if decide (route_of e i = "/") then path' = path /\ root' = root
          else root' = route_of e i /\ root' +:+ path' = path) /\
         forall e' i', dget e' ex_table = Some i' -> covers (route_of e' i') path ->
           (String.length (route_of e' i') <= String.length (route_of e i))%nat).
Proof.
  apply (request_takes_longest_route ex_get_handle ex_table ex_proxy); [by_compute | by_compute|].
  intros e i He. apply dget_elem in He. repeat (apply elem_of_cons in He as [[= -> ->]|He]); [| | |by apply elem_of_nil in He];
    vm_compute; tauto.
Defined.

Definition ex_answer (path : string) : result (routed (Handle := string)) :=
  p ← _update_routes ex_get_handle ex_table ex_proxy; call path "" p.

Example routes_by_longest_prefix :
  map ex_answer ["/a"; "/a/b/c"; "/abc"] =
    [Ok (Forward "kept" "" "/a"); Ok (Forward "handle of ab" "/c" "/a/b"); Ok (Forward "handle of all" "/abc" "")].
Proof. vm_compute. reflexivity. Qed.

(** The default route of an endpoint can be another one's route: only one of
    the two gets the requests. *)
Example default_route_taken :
  (p ← _update_routes ex_get_handle [("a", mkEndpoint None); ("b", mkEndpoint (Some "/a"))] ex_proxy; call "/a/x" "" p) =
    Ok (Forward "handle of b" "/x" "/a").
Proof. vm_compute. reflexivity. Qed.
