(* ===== verification/EndpointProps.v ===== *)
(** The routes of the Serve endpoints ([serve/endpoint_state.py]): the table is
    what the accepted operations leave, an explicit route belongs to one
    endpoint, every change is published by the long poll host, and a new
    controller finds the table of the one before it. *)

From Stdlib Require Import ZArith QArith Lia.
From stdpp Require Import base list strings option.
From S2P Require Import Prelude PyDict ServeVersion ServeAutoscaling Hoare AsyncGoals LongPoll.
From S2P Require Import ServeReplica DeploymentState ServeController ControllerProps HttpProxy.
Import AsyncGoals LongPoll.

Section Endpoints.
Context {Any : Type} {PA : PyAny Any} {Bytes : Type}.
Variable dumps_endpoints : dict string EndpointInfo -> Bytes.
Variable loads_endpoints : Bytes -> result (dict string EndpointInfo).
Variable ray : Ray Any.
Implicit Types (m : Controller Any Bytes) (d : dict string EndpointInfo).

Definition routes_unique d : Prop :=
  forall e1 e2 i1 i2 r, dget e1 d = Some i1 -> dget e2 d = Some i2 ->
    route i1 = Some r -> route i2 = Some r -> e1 = e2.

(** The long poll host's snapshot of the table is the current one. *)
Definition published m : Prop :=
  dget ROUTE_TABLE (object_snapshots (long_poll_host m)) = Some (RoutesObj (_endpoints m)).

Definition stored m : Prop :=
  match dget ENDPOINT_CHECKPOINT_KEY (kv_store m) with
  | Some b => b = dumps_endpoints (_endpoints m)
  | None => _endpoints m = []
  end.

Record endpoints_ok m : Prop := {
  eo_wf : dwf (_endpoints m);
  eo_unique : routes_unique (_endpoints m);
  eo_published : published m;
  eo_stored : stored m
}.

Lemma notify_run m :
  exists m', _notify_route_table_changed ray m = (m', Ok tt) /\ published m' /\
    _endpoints m' = _endpoints m /\ kv_store m' = kv_store m.
Proof.
  unfold _notify_route_table_changed, on_cluster, ask, tick. st_simpl.
  destruct (dmem ROUTE_TABLE (snapshot_ids (long_poll_host m))); st_simpl;
    (eexists; split; [reflexivity|]); (split; [|by split]);
    unfold published, notify_changed; cbn [long_poll_host set_host set_cluster _endpoints];
    by destruct (dget ROUTE_TABLE (notifier_events _)); cbn [object_snapshots]; rewrite dget_dset_eq.
Qed.

(** Every change of the table ends in the same two steps. *)
Lemma commit_ok m :
  dwf (_endpoints m) -> routes_unique (_endpoints m) ->
  exists m', (_ ← _checkpoint_endpoints dumps_endpoints; _notify_route_table_changed ray) m = (m', Ok tt) /\
    endpoints_ok m' /\ _endpoints m' = _endpoints m.
Proof.
  intros Hw Hu. unfold _checkpoint_endpoints. st_simpl.
  match goal with |- context [_notify_route_table_changed ray ?x] => destruct (notify_run x) as (m' & -> & Hp & He & Hk) end.
  exists m'. cbn in He, Hk. split; [done|]. split; [|done].
  split; rewrite ?He; [done | done | done|]. unfold stored. by rewrite Hk, dget_dset_eq, He.
Qed.

Lemma endpoint_for_route m r e i :
  dwf (_endpoints m) -> dget e (_endpoints m) = Some i -> route i = r -> _get_endpoint_for_route r m <> None.
Proof.
  intros Hw He Hr. unfold _get_endpoint_for_route. intros H.
  destruct (list_find _ _) as [[n [e' i']]|] eqn:El; [done|].
  apply list_find_None in El. rewrite list.Forall_forall in El. by apply (El (e, i)); [apply dget_elem|].
Qed.

Lemma endpoint_for_route_inv m r e :
  dwf (_endpoints m) -> _get_endpoint_for_route r m = Some e ->
  exists i, dget e (_endpoints m) = Some i /\ route i = r.
Proof.
  intros Hw. unfold _get_endpoint_for_route.
  destruct (list_find _ _) as [[n [e1 i1]]|] eqn:El; [|done]. intros [= <-].
  apply list_find_Some in El as (El & Hr & _). exists i1. split; [|done].
  apply elem_dget; [done|]. by eapply list_elem_of_lookup_2.
Qed.

Lemma endpoint_for_route_unique m r e i e' :
  dwf (_endpoints m) -> routes_unique (_endpoints m) ->
  dget e (_endpoints m) = Some i -> route i = Some r -> _get_endpoint_for_route (Some r) m = Some e' -> e = e'.
Proof.
  intros Hw Hu He Hr Hg. destruct (endpoint_for_route_inv _ _ _ Hw Hg) as (i' & Hi' & Hr').
  by apply (Hu e e' i i' r).
Qed.

(** No other endpoint than [e] has route [r]. *)
Definition free_for e (r : option string) d : Prop :=
  forall e' i' x, e' <> e -> dget e' d = Some i' -> route i' = Some x -> r <> Some x.

Lemma unique_dset e i d : routes_unique d -> free_for e (route i) d -> routes_unique (dset e i d).
Proof.
  intros Hu Hf e1 e2 i1 i2 r. rewrite !dget_dset.
  destruct (decide (e = e1)) as [<-|H1], (decide (e = e2)) as [<-|H2].
  - done.
  - intros [= <-] H2' Hr1 Hr2. by destruct (Hf e2 i2 r (not_eq_sym H2) H2' Hr2).
  - intros H1' [= <-] Hr1 Hr2. by destruct (Hf e1 i1 r (not_eq_sym H1) H1' Hr1).
  - apply Hu.
Qed.

Lemma unique_ddel e d : dwf d -> routes_unique d -> routes_unique (ddel e d).
Proof.
  intros Hw Hu e1 e2 i1 i2 r. rewrite !dget_ddel by done.
  destruct (decide (e = e1)), (decide (e = e2)); try done. apply Hu.
Qed.

Definition assign_endpoint e i : ST (Controller Any Bytes) unit :=
  current ← st_gets (fun m => dget e (_endpoints m));
  if bool_decide (current = Some i) then mret tt
  else
    _ ← st_modify (fun m => set_endpoints (dset e i (_endpoints m)) m);
    _ ← _checkpoint_endpoints dumps_endpoints;
    _notify_route_table_changed ray.

Lemma assign_endpoint_ok e i m :
  endpoints_ok m -> free_for e (route i) (_endpoints m) ->
  exists m', assign_endpoint e i m = (m', Ok tt) /\ endpoints_ok m' /\ _endpoints m' = dset e i (_endpoints m).
Proof.
  intros Hm Hf. pose proof Hm as [Hw Hu _ _]. unfold assign_endpoint. st_simpl.
  destruct (bool_decide _) eqn:Eb.
  - apply bool_decide_eq_true in Eb. exists m. split_and!; [done | done | by rewrite dset_id].
  - destruct (commit_ok (set_endpoints (dset e i (_endpoints m)) m)) as (m' & E & Hok & He).
    + by apply dwf_dset.
    + by apply unique_dset.
    + exists m'. split_and!; [exact E | done | done].
Qed.

(** Another endpoint has the explicit route of [i]. *)
Definition route_taken e i d : Prop := Exists (fun ei => ei.1 <> e /\ route i <> None /\ route ei.2 = route i) d.

#[global] Instance route_taken_dec e i d : Decision (route_taken e i d).
Proof. unfold route_taken. apply _. Defined.

(** [update_endpoint] refuses a route that another endpoint has, and only that. *)
Lemma update_endpoint_ok e i m :
  endpoints_ok m ->
  (route_taken e i (_endpoints m) /\ update_endpoint dumps_endpoints ray e i m = (m, Err ValueError)) \/
  (~ route_taken e i (_endpoints m) /\
   exists m', update_endpoint dumps_endpoints ray e i m = (m', Ok tt) /\ endpoints_ok m' /\
     _endpoints m' = dset e i (_endpoints m)).
Proof.
  intros Hm. pose proof Hm as [Hw Hu Hp Hs].
  change (update_endpoint dumps_endpoints ray e i m) with
    ((existing ← st_gets (_get_endpoint_for_route (route i));
      if bool_decide (route i <> None) && bool_decide (existing <> None) && bool_decide (existing <> Some e)
      then st_raise ValueError else assign_endpoint e i) m).
  st_simpl. destruct (_ && _) eqn:Eb.
  - left. apply andb_prop in Eb as [[H1 H2]%andb_prop H3].
    apply bool_decide_eq_true in H1, H2, H3.
    destruct (route i) as [r|] eqn:Er; [|done]. destruct (_get_endpoint_for_route (Some r) m) as [e'|] eqn:Eg; [|done].
    destruct (endpoint_for_route_inv m (Some r) e' Hw Eg) as (i' & Hi' & Hr'). split; [|done].
    apply list.Exists_exists. exists (e', i'). split; [by apply dget_elem|]. cbn. rewrite Er. split_and!; [congruence | done | done].
  - right. assert (free_for e (route i) (_endpoints m)) as Hf.
    { intros e' i' r Hne He' Hr' Hr. rewrite Hr in Eb.
      rewrite bool_decide_true in Eb by done. cbn [andb] in Eb. apply andb_false_iff in Eb.
      destruct Eb as [Eb|Eb]; apply bool_decide_eq_false in Eb.
      + apply Eb. by apply (endpoint_for_route m (Some r) e' i').
      + destruct (_get_endpoint_for_route (Some r) m) as [e1|] eqn:Eg.
        * pose proof (endpoint_for_route_unique m r e' i' e1 Hw Hu He' Hr' Eg). apply Eb. congruence.
        * by apply (endpoint_for_route m (Some r) e' i'). }
    split; [|by apply assign_endpoint_ok].
    intros [[e' i'] (Hin & Hne & Hsome & Hr)]%list.Exists_exists. cbn in Hne, Hr.
    destruct (route i) as [r|] eqn:Er; [|done]. by apply (Hf e' i' r Hne (elem_dget _ _ _ Hw Hin) Hr).
Qed.

Lemma delete_endpoint_ok e m :
  endpoints_ok m ->
  exists m', delete_endpoint dumps_endpoints ray e m = (m', Ok tt) /\ endpoints_ok m' /\
    _endpoints m' = ddel e (_endpoints m).
Proof.
  intros Hm. pose proof Hm as [Hw Hu _ _]. unfold delete_endpoint. st_simpl.
  destruct (dmem e (_endpoints m)) eqn:Ed; cbn [negb]; st_simpl.
  - destruct (commit_ok (set_endpoints (ddel e (_endpoints m)) m)) as (m' & E & Hok & He).
    + by apply dwf_ddel.
    + by apply unique_ddel.
    + exists m'. split_and!; [exact E | done | done].
  - exists m. split_and!; [done | done | ]. symmetry. apply ddel_fresh. intros Hin.
    apply dmem_true in Hin. congruence.
Qed.

(** ** Sequences of operations *)

Inductive endpoint_op : Type :=
| EUpdate (endpoint : string) (info : EndpointInfo)
| EDelete (endpoint : string).

(** A refused route leaves the controller running. *)
Definition do_endpoint_op (o : endpoint_op) : ST (Controller Any Bytes) unit :=
  match o with
  | EUpdate e i => st_try (update_endpoint dumps_endpoints ray e i) (fun x => bool_decide (x = ValueError)) (fun _ => mret tt)
  | EDelete e => delete_endpoint dumps_endpoints ray e
  end.

(** The table that an operation is to leave *)
Definition table_after d (o : endpoint_op) : dict string EndpointInfo :=
  match o with
  | EUpdate e i => if decide (route_taken e i d) then d else dset e i d
  | EDelete e => ddel e d
  end.

Lemma endpoint_ops_ok ops : forall m,
  endpoints_ok m -> exists m', st_for ops do_endpoint_op m = (m', Ok tt) /\ endpoints_ok m' /\
    _endpoints m' = foldl table_after (_endpoints m) ops.
Proof.
  induction ops as [|o ops IH]; intros m Hm; cbn [st_for foldl]; st_simpl; [by exists m|].
  destruct o as [e i|e]; cbn [do_endpoint_op table_after]; st_simpl.
  - destruct (update_endpoint_ok e i m Hm) as [[Ht ->]|(Ht & m' & -> & Hm' & Hd)].
    + rewrite decide_True by done. cbn. by apply IH.
    + rewrite decide_False by done. rewrite <- Hd. by apply IH.
  - destruct (delete_endpoint_ok e m Hm) as (m' & -> & Hm' & Hd). rewrite <- Hd. by apply IH.
Qed.

(** Two endpoints that are served under one route: one of them has the
    default route of the other as its explicit one. *)
Lemma served_unique d e1 e2 i1 i2 :
  routes_unique d -> dget e1 d = Some i1 -> dget e2 d = Some i2 -> e1 <> e2 -> route_of e1 i1 = route_of e2 i2 ->
  (route i1 = None /\ route i2 = Some (route_of e1 i1)) \/ (route i2 = None /\ route i1 = Some (route_of e2 i2)).
Proof.
  intros Hu H1 H2 Hne. unfold route_of. destruct (route i1) as [r1|] eqn:E1, (route i2) as [r2|] eqn:E2; cbn; intros E.
  - subst r2. by destruct (Hne (Hu e1 e2 i1 i2 r1 H1 H2 E1 E2)).
  - right. by rewrite E.
  - left. by rewrite E.
  - by injection E.
Qed.

Lemma init_endpoints_ok k w :
  (forall b, dget ENDPOINT_CHECKPOINT_KEY k = Some b ->
     exists d, loads_endpoints b = Ok d /\ b = dumps_endpoints d /\ dwf d /\ routes_unique d) ->
  exists m, init_endpoint_state loads_endpoints ray (empty_controller k w) = (m, Ok tt) /\ endpoints_ok m /\
    match dget ENDPOINT_CHECKPOINT_KEY k with
    | Some b => loads_endpoints b = Ok (_endpoints m)
    | None => _endpoints m = []
    end.
Proof.
  intros Hk. unfold init_endpoint_state. st_simpl. cbn [empty_controller kv_store].
  destruct (dget ENDPOINT_CHECKPOINT_KEY k) as [b|] eqn:Eb; st_simpl.
  - destruct (Hk b eq_refl) as (d & Hl & -> & Hw & Hu). rewrite Hl. st_simpl.
    match goal with |- context [_notify_route_table_changed ray ?x] => destruct (notify_run x) as (m' & -> & Hp & He & Hkv) end.
    cbn in He, Hkv. exists m'. split; [done|]. rewrite He. split; [|done].
    split; rewrite ?He; [done | done | done|]. unfold stored. by rewrite Hkv, Eb, He.
  - match goal with |- context [_notify_route_table_changed ray ?x] => destruct (notify_run x) as (m' & -> & Hp & He & Hkv) end.
    cbn in He, Hkv. exists m'. split; [done|]. split; [|done].
    split; rewrite ?He; [constructor | done | done|]. unfold stored. by rewrite Hkv, Eb, He.
Qed.

(** C36. From an empty store, whatever endpoints are updated and deleted, the
    table is what the operations are to leave: an update is refused with
    [ValueError], and changes nothing, exactly when another endpoint has its
    explicit route. So no two endpoints have the same explicit route, and two
    are served under one route only when the explicit one of the first is the
    default one of the second ([/name]), which is not checked. The long poll
    host's snapshot is the table, and a controller started on the same store
    has the table again and publishes it. *)
Theorem endpoint_table_consistent (k : dict string Bytes) (w w' : World Any) (ops : list endpoint_op) :
  (forall d, loads_endpoints (dumps_endpoints d) = Ok d) ->
  dget ENDPOINT_CHECKPOINT_KEY k = None ->
  exists m m', (_ ← init_endpoint_state loads_endpoints ray; st_for ops do_endpoint_op) (empty_controller k w) = (m, Ok tt) /\
    _endpoints m = foldl table_after [] ops /\
    (forall e i, (update_endpoint dumps_endpoints ray e i m).2 =
       if decide (route_taken e i (_endpoints m)) then Err ValueError else Ok tt) /\
    routes_unique (_endpoints m) /\
    (forall e1 e2 i1 i2, dget e1 (_endpoints m) = Some i1 -> dget e2 (_endpoints m) = Some i2 -> e1 <> e2 ->
       route_of e1 i1 = route_of e2 i2 ->
       (route i1 = None /\ route i2 = Some (route_of e1 i1)) \/ (route i2 = None /\ route i1 = Some (route_of e2 i2))) /\
    published m /\
    init_endpoint_state loads_endpoints ray (empty_controller (kv_store m) w') = (m', Ok tt) /\
    _endpoints m' = _endpoints m /\ published m'.
Proof.
  intros Hp Hk. destruct (init_endpoints_ok k w) as (m0 & E0 & Hm0 & He0); [by rewrite Hk|]. rewrite Hk in He0.
  destruct (endpoint_ops_ok ops m0 Hm0) as (m & E & Hok & Hd). pose proof Hok as [Hw Hu Hpub Hs].
  destruct (init_endpoints_ok (kv_store m) w') as (m' & E' & Hm' & Heq).
  { intros b Hb. unfold stored in Hs. rewrite Hb in Hs. exists (_endpoints m). by rewrite Hs, Hp. }
  exists m, m'. split_and!; [st_simpl; by rewrite E0 | by rewrite Hd, He0 | | done | | done | done | | apply Hm'].
  - intros e i. destruct (update_endpoint_ok e i m Hok) as [[Ht ->]|(Ht & m1 & -> & _)];
      [by rewrite decide_True | by rewrite decide_False].
  - intros e1 e2 i1 i2. by apply served_unique.
  - unfold stored in Hs. destruct (dget ENDPOINT_CHECKPOINT_KEY (kv_store m)); [|congruence].
    subst. rewrite Hp in Heq. congruence.
Qed.

End Endpoints.
