(* ===== verification/DeploymentExamples.v ===== *)
(** A deployment on a concrete cluster: the instances that the theorems on
    Serve deployments are applied to, and the corner cases of the control loop
    that they show. *)

From Stdlib Require Import ZArith QArith Lqa Lia.
From stdpp Require Import base list strings option pretty gmultiset.
From S2P Require Import Prelude PyDict MlDict ServeVersion ServeAutoscaling Hoare AsyncGoals LongPoll.
From S2P Require Import ServeReplica DeploymentState DeploymentSafety DeploymentRollout.
From S2P Require Import DeploymentConverge ServeController ControllerProps EndpointProps.
Import AsyncGoals LongPoll.

(** User configurations that are numbers, pickled as small integers are *)
#[local] Instance PyNat : PyAny nat := {|
  pickle_dumps c := match c with None => [78; 46]%Z | Some n => [75; Z.of_nat n; 46]%Z end;
  any_eqb := Nat.eqb
|}.

Definition ex_v1 : DeploymentVersion nat := make_version "" (Some "v1") None.
Definition ex_v2 : DeploymentVersion nat := make_version "" (Some "v2") None.

(** A cluster whose actors do as they are told, and report version v1 up to
    call [n0], v2 from then on *)
Definition ex_ray (n0 : nat) : Ray nat :=
  mkRay (fun n => inject_Z (Z.of_nat n)) (fun n => "r" +:+ pretty n) (fun n => Z.of_nat n) (fun _ => 5%Z)
    (fun _ _ => true) (fun _ _ => true) (fun _ _ => true)
    (fun n _ => Some (Some (100%Z, 20%Q, if (n <? n0)%nat then ex_v1 else ex_v2)))
    (fun _ _ => true) (fun _ _ => false) true.

Definition ex_config (n : Z) : DeploymentConfig nat := mkDeploymentConfig n 100 None 2 20 None.
Definition ex_info (n : Z) (v : string) : DeploymentInfo nat :=
  mkInfo (ex_config n) (mkReplicaConfig "f" []) 5 (Some "m") (Some []) (Some v) None None None.

Definition ex_save (t : target_state nat) (_ : option (target_state nat)) : option (target_state nat) := Some t.

(** Version v1 with [n] replicas, run by [n0] updates; then [ops] *)
Definition ex_run (n0 : nat) (n : Z) (ops : list deployment_op) : Ctx nat (option (target_state nat)) :=
  run_deployment (ex_ray n0) ex_save "m" 0 AsyncGoals.__init__ init_host None (mkWorld 0 []) (ex_info n "v1") ops.

Definition ex_show (c : Ctx nat (option (target_state nat))) : list (list (option string)) * Z :=
  (map (fun st => map (fun r => code_version <$> _version r) (replicas_in st (cont c))) ALL_REPLICA_STATES,
   _target_replicas (self c)).

Lemma ex_cluster_ok n0 : cluster_ok (ex_ray n0).
Proof.
  split; [|done]. intros n a q t v [= <- <- <-]. destruct (n <? n0)%nat; apply make_version_ok.
Qed.

Lemma ex_info_ok n v : (0 < n)%Z -> info_ok (ex_info n v).
Proof. intros Hn. repeat split; try (cbn; done); by eexists. Qed.

Lemma ex_run_ok n0 n ops : (0 < n)%Z -> Forall op_ok ops -> ctx_ok (ex_ray n0) (ex_run n0 n ops).
Proof.
  intros Hn Ho. unfold ex_run. eapply run_deployment_ok.
  - apply ex_cluster_ok.
  - apply AsyncGoals.manager_init_ok.
  - apply ex_info_ok, Hn.
  - exact Ho.
Qed.

Lemma ex_obliging n0 : obliging (ex_ray n0) ex_v2 n0.
Proof.
  split; try (intros; reflexivity). intros n a Hn. exists 100%Z, 20%Q, ex_v2. split; [|reflexivity].
  cbv [ex_ray ray_ready]. by destruct (Nat.ltb_spec n n0); [lia|].
Qed.

(** ** Instances of the theorems *)

(** A deployment, its update to v2 and its deletion *)
Definition ex_ops : list deployment_op := [Update; Deploy (ex_info 3 "v2"); Update; Update; Delete; Update; Update].

Lemma ex_ops_ok : Forall (op_ok (Any := nat)) ex_ops.
Proof. repeat constructor; try (cbn; done); by eexists. Qed.

Lemma operations_never_raise_witness :
  exists c, st_for (Deploy (ex_info 3 "v1") :: ex_ops) (do_deployment_op (ex_ray 20) ex_save)
              (fresh_ctx "m" 0 AsyncGoals.__init__ init_host None (mkWorld 0 [])) = (c, Ok tt) /\ ctx_ok (ex_ray 20) c.
Proof.
  apply (operations_never_raise (ex_ray 20) ex_save).
  - apply ex_cluster_ok.
  - apply AsyncGoals.manager_init_ok.
  - by apply ex_info_ok.
  - apply ex_ops_ok.
Defined.

(** Three replicas of v1 run, and v2 has just been deployed. *)
Definition ex_rolling : Ctx nat (option (target_state nat)) := ex_run 20 3 [Update; Update; Deploy (ex_info 3 "v2")].

Lemma ex_rolling_ok : ctx_ok (ex_ray 20) ex_rolling.
Proof. apply ex_run_ok; [done|]. repeat constructor; try (cbn; done); by eexists. Qed.

Lemma update_conserves_replicas_witness :
  exists c' b started gone, update (ex_ray 20) ex_save ex_rolling = (c', Ok b) /\
    tags (cont c') ⊎ list_to_set_disj gone = tags (cont ex_rolling) ⊎ list_to_set_disj started /\
    starts (log (world c')) = starts (log (world ex_rolling)) ++ map ReplicaName.actor_name started /\
    Forall (confirmed (ex_ray 20) (calls (world c'))) gone.
Proof. apply (update_conserves_replicas (ex_ray 20) ex_save ex_rolling); [apply ex_cluster_ok | apply ex_rolling_ok]. Defined.

Lemma update_within_target_witness :
  exists c' b, update (ex_ray 20) ex_save ex_rolling = (c', Ok b) /\
    (n_replicas (cont c') <= Z.max (n_replicas (cont ex_rolling)) (_target_replicas (self ex_rolling)))%Z.
Proof. apply (update_within_target (ex_ray 20) ex_save ex_rolling); [apply ex_cluster_ok | apply ex_rolling_ok]. Defined.

Lemma rolling_update_bounded_witness :
  serving ex_v2 (cont ex_rolling) = 3%Z /\
  (Z.min 3 (3 - rollout_size 3) <=
     serving ex_v2 (cont (_stop_wrong_version_replicas (ex_ray 20) ex_rolling).1) <= 3)%Z.
Proof.
  split; [reflexivity|].
  apply (rolling_update_bounded (ex_ray 20) ex_rolling
           (_stop_wrong_version_replicas (ex_ray 20) ex_rolling).1 true ex_v2);
    [vm_compute; reflexivity | apply make_version_ok | vm_compute; reflexivity].
Defined.

Lemma ex_rolling_rolling : rolling (ex_ray 20) ex_v2 20 3 20 ex_rolling.
Proof.
  split.
  - apply ex_rolling_ok.
  - intros [] H; by vm_compute.
  - vm_compute. reflexivity.
  - apply make_version_ok.
  - vm_compute. reflexivity.
  - lia.
  - vm_compute. reflexivity.
  - vm_compute. reflexivity.
  - apply Nat.leb_le. vm_compute. reflexivity.
Qed.

Lemma rolling_update_converges_witness :
  exists n c', (n <= 2 * old_running ex_v2 ex_rolling + 3)%nat /\
    updates (ex_ray 20) ex_save n ex_rolling = (c', Ok tt) /\
    at_rest c' /\ Forall (is_new ex_v2) (replicas_in RUNNING (cont c')) /\ Z.of_nat (len RUNNING c') = 3%Z /\
    (forall a, wait_for_goal 20 (goals ex_rolling) = Awaiting a ->
       resume_wait (Awaiting a) (goals c') = Returned None).
Proof.
  apply (rolling_update_converges (ex_ray 20) ex_save (ex_cluster_ok 20) ex_v2 20 (ex_obliging 20) 3 20 ex_rolling).
  apply ex_rolling_rolling.
Defined.

(** The controller with an identity pickle, on a cluster with other actors *)
Definition ex_bytes : Type := checkpoint (Any := nat).
Definition ex_dumps (x : ex_bytes) : ex_bytes := x.
Definition ex_loads (x : ex_bytes) : result ex_bytes := Ok x.

Definition ex_manager_ops : list manager_op :=
  [MDeploy "m" (ex_info 2 "v1"); MUpdate; MDeploy "n" (ex_info 1 "v1"); MDeploy "m" (ex_info 2 "v2"); MUpdate;
   MDelete "n"; MUpdate; MUpdate].

Lemma ex_manager_ops_ok : Forall (manager_op_ok (Any := nat)) ex_manager_ops.
Proof. repeat constructor; try (cbn; done); by eexists. Qed.

Lemma goals_never_orphaned_witness :
  exists m, st_for ex_manager_ops (do_manager_op ex_dumps (ex_ray 20)) (empty_controller [] (mkWorld 0 [])) = (m, Ok tt) /\
    forall g a, wait_for_goal g (goal_manager m) = Awaiting a ->
      exists name s, dget name (_deployment_states m) = Some s /\ _curr_goal s = Some g.
Proof. apply (goals_never_orphaned ex_dumps (ex_ray 20)); [apply ex_cluster_ok | apply ex_manager_ops_ok]. Defined.

Lemma deleted_metadata_bounded_witness :
  exists m, st_for ex_manager_ops (do_manager_op ex_dumps (ex_ray 20)) (empty_controller [] (mkWorld 0 [])) = (m, Ok tt) /\
    dwf (_deleted_deployment_metadata m) /\
    (Z.of_nat (length (_deleted_deployment_metadata m)) <= MAX_NUM_DELETED_DEPLOYMENTS + 1)%Z.
Proof. apply (deleted_metadata_bounded ex_dumps (ex_ray 20)); [apply ex_cluster_ok | apply ex_manager_ops_ok]. Defined.

(** The controller fails after the first deploy; two replicas of [m] are found. *)
Definition ex_reps : list (string * string) := [("m", "abc"); ("other", "xyz"); ("m", "def")]%string.
Definition ex_actors : list string := ["SERVE_CONTROLLER_ACTOR"; "SERVE_REPLICA::m#abc"; "SERVE_REPLICA::other#xyz";
  "trainer"; "SERVE_REPLICA::m#def"]%string.
Definition ex_new : Controller nat ex_bytes := empty_controller [] (mkWorld 0 []).
Definition ex_deployed : Controller nat ex_bytes := (manager_deploy ex_dumps (ex_ray 20) "m" (ex_info 2 "v1") ex_new).1.

Lemma checkpoint_restores_witness :
  exists m2, _recover_from_checkpoint ex_loads (ex_ray 20) ex_actors (empty_controller (kv_store ex_deployed) (mkWorld 50 [])) = (m2, Ok tt) /\
    manager_ok (ex_ray 20) m2 /\ dkeys (_deployment_states m2) = dkeys (_deployment_states ex_deployed) /\
    _deleted_deployment_metadata m2 = _deleted_deployment_metadata ex_deployed /\
    (forall tag s, dget tag (_deployment_states ex_deployed) = Some s ->
       exists s', dget tag (_deployment_states m2) = Some s' /\ recovered ex_reps tag (get_checkpoint_data s) s').
Proof.
  destruct (empty_controller_ok (Bytes := ex_bytes) (ex_ray 20) [] (mkWorld 0 [])) as [Hm Ho].
  apply (checkpoint_restores ex_dumps ex_loads (ex_ray 20) (fun n a => eq_refl) ex_new ex_deployed "m" (ex_info 2 "v1") 1).
  - intros x. reflexivity.
  - exact Hm.
  - exact Ho.
  - by apply ex_info_ok.
  - left. vm_compute. reflexivity.
  - repeat constructor; vm_compute; reflexivity.
  - vm_compute. reflexivity.
Defined.

Definition ex_endpoint_ops : list endpoint_op :=
  [EUpdate "m" (mkEndpoint (Some "/m")); EUpdate "n" (mkEndpoint (Some "/m")); EUpdate "n" (mkEndpoint None); EDelete "m";
   EUpdate "n" (mkEndpoint (Some "/m"))]%string.

Lemma endpoint_table_consistent_witness :
  let dumps (d : dict string EndpointInfo) := d in
  let loads := @Ok (dict string EndpointInfo) in
  exists m m', (_ ← init_endpoint_state loads (ex_ray 20); st_for ex_endpoint_ops (do_endpoint_op dumps (ex_ray 20)))
                 (empty_controller [] (mkWorld 0 [])) = (m, Ok tt) /\
    _endpoints m = [("n", mkEndpoint (Some "/m"))]%string /\
    (update_endpoint dumps (ex_ray 20) "a" (mkEndpoint (Some "/m")) m).2 = Err ValueError /\ published m /\
    init_endpoint_state loads (ex_ray 20) (empty_controller (kv_store m) (mkWorld 9 [])) = (m', Ok tt) /\
    _endpoints m' = _endpoints m /\ published m'.
Proof.
  intros dumps loads.
  destruct (endpoint_table_consistent dumps loads (ex_ray 20) [] (mkWorld 0 []) (mkWorld 9 []) ex_endpoint_ops)
    as (m & m' & E & Hd & Hup & _ & _ & Hp & E' & Hd' & Hp'); [intros d; reflexivity | vm_compute; reflexivity|].
  exists m, m'. split_and!; [exact E | rewrite Hd; vm_compute; reflexivity | | exact Hp | exact E' | exact Hd' | exact Hp'].
  rewrite Hup, Hd. vm_compute. reflexivity.
Defined.

(** ** Corner cases of the control loop *)

(** A deployment that is being deleted is not revived by a [deploy] of the same
    version and configuration: the call reports the goal of the deletion and
    that nothing is updated, and the deployment goes away. *)
Example redeploy_while_deleting_ignored :
  let c := ex_run 20 3 [Update; Update; Delete] in
  (deploy (ex_ray 20) ex_save (ex_info 3 "v1") c).2 = Ok (_curr_goal (self c), false) /\
  ex_show (ex_run 20 3 [Update; Update; Delete; Deploy (ex_info 3 "v1"); Update; Update]) = ([[]; []; []; []; []], 0%Z).
Proof. split; vm_compute; reflexivity. Qed.

(** A controller that fails once a deployment is gone recovers it from a
    checkpoint that still has it, with no goal and a target of zero replicas:
    it is never dropped again, and deploying the same version again is ignored. *)
Definition ex_zombie : Controller nat ex_bytes :=
  let m := (st_for [MDeploy "m" (ex_info 2 "v1"); MUpdate; MUpdate; MDelete "m"; MUpdate; MUpdate]
              (do_manager_op ex_dumps (ex_ray 100)) ex_new).1 in
  let m' := (_recover_from_checkpoint ex_loads (ex_ray 100) [] (empty_controller (kv_store m) (mkWorld 100 []))).1 in
  (st_for [MUpdate; MUpdate; MUpdate] (do_manager_op ex_dumps (ex_ray 100)) m').1.

Example deleted_deployment_recovered :
  map (fun ns => (ns.1, _target_replicas ns.2, _curr_goal ns.2)) (_deployment_states ex_zombie) = [("m", 0%Z, None)] /\
  (manager_deploy ex_dumps (ex_ray 100) "m" (ex_info 2 "v1") ex_zombie).2 = Ok (None, false).
Proof. split; vm_compute; reflexivity. Qed.

(** Three replicas of v2 and one of v1 run when the target becomes three: the
    old one is stopped and the handles are not told. *)
Definition ex_shrink : Ctx nat (option (target_state nat)) :=
  ex_run 26 4 [Update; Update; Deploy (ex_info 4 "v2"); Update; Update; Update; Update; Update; Update; Deploy (ex_info 3 "v2")].

Example stopped_replica_not_notified :
  ex_show ex_shrink = ([[]; []; []; [Some "v1"; Some "v2"; Some "v2"; Some "v2"]; []], 3%Z) /\
  ex_show (update (ex_ray 26) ex_save ex_shrink).1 = ([[]; []; []; [Some "v2"; Some "v2"; Some "v2"]; []], 3%Z) /\
  poll (update (ex_ray 26) ex_save ex_shrink).1 = poll ex_shrink.
Proof. split_and!; vm_compute; reflexivity. Qed.

(** From call [n0] on no replica starts: the update to v2 fails, is rolled back
    to v1, which fails too and is rolled back to v2: the deployment is never
    deleted. *)
Definition ex_failing (n0 : nat) : Ray nat :=
  mkRay (fun n => inject_Z (Z.of_nat n)) (fun n => "r" +:+ pretty n) (fun n => Z.of_nat n) (fun _ => 5%Z)
    (fun _ _ => true) (fun _ _ => true) (fun _ _ => true)
    (fun n _ => if (n <? n0)%nat then Some (Some (100%Z, 20%Q, ex_v1)) else Some None)
    (fun _ _ => true) (fun _ _ => false) true.

Definition ex_rollbacks (n : nat) : option string * option string :=
  let c := run_deployment (ex_failing 10) ex_save "m" 0 AsyncGoals.__init__ init_host None (mkWorld 0 [])
             (ex_info 1 "v1") ([Update; Update; Deploy (ex_info 1 "v2")] ++ repeat Update n) in
  (_target_info (self c) ≫= di_version, _rollback_info (self c) ≫= di_version).

Example failed_rollback_rolls_forward :
  map ex_rollbacks [0; 4; 7; 10; 13]%nat =
    [(Some "v2", Some "v1"); (Some "v1", Some "v2"); (Some "v2", Some "v1"); (Some "v1", Some "v2"); (Some "v2", Some "v1")].
Proof. vm_compute. reflexivity. Qed.

(** A replica that is told to drop its user config keeps its version, so that
    it does not get the target's. *)
Example config_to_none_keeps_version :
  let v := make_version "" (Some "v1") (Some 7%nat) in
  version_eqb (replica_reconfigure v None) (make_version "" (Some "v1") None) = false.
Proof. vm_compute. reflexivity. Qed.
