(* ===== verification/Router.v ===== *)
(** The router of a deployment handle ([serve/router.py]): [ReplicaSet] assigns
    queries to replicas round robin, within the replicas' limits, and queries
    that find no free replica wait for one. *)

From Stdlib Require Import ZArith Lia.
From stdpp Require Import base list strings option sorting sets.
From S2P Require Import Prelude PyDict ServeReplica.

(** A handle object of the router: [ActorHandle] has no equality of its own, two
    handles are equal when they are one object. Its number is its identity. *)
Record ActorHandle : Type := mkHandle { _ray_actor_id : string; object_id : nat }.

#[global] Instance ActorHandle_eq_dec : EqDecision ActorHandle.
Proof. solve_decision. Defined.

Abbreviation Info := (RunningReplicaInfo ActorHandle).

#[global] Instance Info_eq_dec : EqDecision Info.
Proof. solve_decision. Defined.

(** Object refs are numbers. A replica answers a query with two, of which the
    router tracks the first; they share their number here. *)
Definition ObjectRef : Type := nat.

(** The object, with the part of the cluster that its queries touch: the refs
    that were handed out and those that are ready, and the queries that were
    sent, with the info whose handle they went through. The gauge of queued
    queries is the number it is set to. *)
Record ReplicaSet : Type := mkReplicaSet {
  in_flight_queries : dict Info (list ObjectRef);
  replica_iterator : list Info;
  config_updated_event : bool;
  num_queued_queries : Z;
  next_ref : ObjectRef;
  ready_refs : list ObjectRef;
  sent : list (ObjectRef * Info)
}.

Definition init_replica_set : ReplicaSet := mkReplicaSet [] [] false 0 0 [] [].

Definition set_in_flight (d : dict Info (list ObjectRef)) (s : ReplicaSet) : ReplicaSet :=
  mkReplicaSet d (replica_iterator s) (config_updated_event s) (num_queued_queries s) (next_ref s) (ready_refs s) (sent s).
Definition set_iterator (l : list Info) (s : ReplicaSet) : ReplicaSet :=
  mkReplicaSet (in_flight_queries s) l (config_updated_event s) (num_queued_queries s) (next_ref s) (ready_refs s) (sent s).
Definition set_updated (b : bool) (s : ReplicaSet) : ReplicaSet :=
  mkReplicaSet (in_flight_queries s) (replica_iterator s) b (num_queued_queries s) (next_ref s) (ready_refs s) (sent s).
Definition set_queued (n : Z) (s : ReplicaSet) : ReplicaSet :=
  mkReplicaSet (in_flight_queries s) (replica_iterator s) (config_updated_event s) n (next_ref s) (ready_refs s) (sent s).
Definition set_refs (n : ObjectRef) (l : list ObjectRef) (s : ReplicaSet) : ReplicaSet :=
  mkReplicaSet (in_flight_queries s) (replica_iterator s) (config_updated_event s) (num_queued_queries s) n l (sent s).
Definition add_sent (ref : ObjectRef) (r : Info) (s : ReplicaSet) : ReplicaSet :=
  mkReplicaSet (in_flight_queries s) (replica_iterator s) (config_updated_event s) (num_queued_queries s) (next_ref s) (ready_refs s)
    (sent s ++ [(ref, r)]).

(** ** The replicas *)

(** [compute_iterable_delta]; the order of Python's sets is that of the lists. *)
Definition added_replicas (old new : list Info) : list Info :=
  filter (fun r => r ∉ old) (remove_dups new).
Definition removed_replicas (old new : list Info) : list Info :=
  filter (fun r => r ∉ new) old.

(** [shuffled] is what [random.shuffle] makes of the keys. *)
Definition update_running_replicas (running_replicas : list Info)
    (shuffle : list Info -> list Info) (s : ReplicaSet) : result ReplicaSet :=
  let old := dkeys (in_flight_queries s) in
  let added := added_replicas old running_replicas in
  let removed := removed_replicas old running_replicas in
  let d := foldl (fun d r => dset r [] d) (in_flight_queries s) added in
  d ← foldM (fun d r => ddelitem r d) d removed;
  let s := set_in_flight d s in
  Ok (if (0 <? length added)%nat || (0 <? length removed)%nat
      then set_updated true (set_iterator (shuffle (dkeys d)) s)
      else s).

(** [next] of an [itertools.cycle] *)
Definition next_replica : ST ReplicaSet Info := fun s =>
  match replica_iterator s with
  | [] => (s, Err StopIteration)
  | r :: l => (set_iterator (l ++ [r]) s, Ok r)
  end.

(** [handle_request.remote] *)
Definition submit (r : Info) : ST ReplicaSet ObjectRef :=
  _ ← st_lift (or_raise AttributeError (ri_actor_handle r));
  ref ← st_gets next_ref;
  _ ← st_modify (fun s => add_sent ref r (set_refs (S ref) (ready_refs s) s));
  mret ref.

Fixpoint try_loop (n : nat) : ST ReplicaSet (option ObjectRef) :=
  match n with
  | 0 => mret None
  | S n =>
      replica ← next_replica;
      queries ← (d ← st_gets in_flight_queries; st_lift (dgetitem replica d));
      limit ← st_lift (or_raise TypeError (ri_max_concurrent_queries replica));
      if (limit <=? Z.of_nat (length queries))%Z then try_loop n
      else
        ref ← submit replica;
        _ ← st_modify (fun s => set_in_flight (dset replica (queries ++ [ref]) (in_flight_queries s)) s);
        mret (Some ref)
  end.

Definition _try_assign_replica : ST ReplicaSet (option ObjectRef) :=
  n ← st_gets (fun s => length (in_flight_queries s)); try_loop n.

Definition _all_query_refs (s : ReplicaSet) : list ObjectRef := concat (map snd (in_flight_queries s)).

(** [ray.wait(refs, num_returns=len(refs), timeout=0)] *)
Definition ready (s : ReplicaSet) (refs : list ObjectRef) : list ObjectRef := filter (fun r => r ∈ ready_refs s) refs.

Definition _drain_completed_object_refs : ST ReplicaSet nat :=
  done ← st_gets (fun s => ready s (_all_query_refs s));
  _ ← st_modify (fun s =>
        set_in_flight (map (fun rq => (rq.1, filter (fun r => r ∉ done) rq.2)) (in_flight_queries s)) s);
  mret (length done).

(** ** Assignment

    The coroutine runs up to its result or to the [await], where it is left
    with the refs that it waits on besides the event. *)
Inductive assignment : Type :=
| Assigned (ref : ObjectRef)
| Waiting (refs : list ObjectRef).

Fixpoint assign_loop (fuel : nat) : ST ReplicaSet assignment :=
  match fuel with
  | 0 => st_raise OutOfFuel
  | S fuel =>
      assigned ← _try_assign_replica;
      match assigned with
      | Some ref => _ ← st_modify (fun s => set_queued (num_queued_queries s - 1) s); mret (Assigned ref)
      | None =>
          num_finished ← _drain_completed_object_refs;
          if (num_finished =? 0)%nat then refs ← st_gets _all_query_refs; mret (Waiting refs)
          else assign_loop fuel
      end
  end.

(** Every turn of the loop that does not wait drops a query: one more turn
    than there are queries in flight is enough. *)
Definition run_loop : ST ReplicaSet assignment :=
  n ← st_gets (fun s => length (_all_query_refs s)); assign_loop (S n).

Definition assign_replica : ST ReplicaSet assignment :=
  _ ← st_modify (fun s => set_queued (num_queued_queries s + 1) s); run_loop.

(** What follows the [await] *)
Definition resume_assign : ST ReplicaSet assignment :=
  _ ← st_modify (fun s => if config_updated_event s then set_updated false s else s); run_loop.

(** ** The event loop

    [asyncio.wait] makes a task of [config_updated_event.wait()]; it sees the
    event only once it runs. *)
Inductive event_task : Type := NotStarted | Pending | Fired.
#[global] Instance event_task_eq_dec : EqDecision event_task.
Proof. solve_decision. Defined.

Record waiter : Type := mkWaiter { waits_on : list ObjectRef; event_wait : event_task }.

(** [next_handle] is the identity of the next object in the router's process. *)
Record system : Type := mkSystem { replica_set : ReplicaSet; waiters : list waiter; next_handle : nat }.

Definition init_system : system := mkSystem init_replica_set [] 0.

(** The controller's list arrives serialized: every handle becomes a new object. *)
Definition deserialize_info (n : nat) (i : RunningReplicaInfo string) : Info :=
  mkRunning (ri_deployment_name i) (ri_replica_tag i) ((fun a => mkHandle a n) <$> ri_actor_handle i)
    (ri_max_concurrent_queries i).

Definition deserialize (n : nat) (l : list (RunningReplicaInfo string)) : list Info :=
  imap (fun i x => deserialize_info (n + i) x) l.

(** [asyncio.wait(..., return_when=FIRST_COMPLETED)] is over. *)
Definition woken (s : ReplicaSet) (w : waiter) : bool :=
  bool_decide (event_wait w = Fired) || bool_decide (Exists (fun r => r ∈ ready_refs s) (waits_on w)).

(** [Event.set()] completes the tasks that wait. *)
Definition fire (w : waiter) : waiter :=
  if decide (event_wait w = Pending) then mkWaiter (waits_on w) Fired else w.

Definition start_task (s : ReplicaSet) (w : waiter) : waiter :=
  if decide (event_wait w = NotStarted)
  then mkWaiter (waits_on w) (if config_updated_event s then Fired else Pending) else w.

Definition with_outcome (s : ReplicaSet) (a : assignment) (ws : list waiter) (next : nat) : system :=
  mkSystem s (match a with Assigned _ => ws | Waiting refs => ws ++ [mkWaiter refs NotStarted] end) next.

Inductive action : Type :=
| Call                                   (* a query arrives *)
| Update (running : list (RunningReplicaInfo string)) (shuffle : list Info -> list Info)
| Finish (ref : ObjectRef)               (* a query is answered *)
| StartTask (i : nat)                    (* a waiter's event task runs *)
| Resume (i : nat).                      (* a woken waiter runs *)

Definition do_action (a : action) (sys : system) : option (result system) :=
  let s := replica_set sys in
  match a with
  | Call =>
      Some (match assign_replica s with
            | (s', Ok o) => Ok (with_outcome s' o (waiters sys) (next_handle sys))
            | (_, Err e) => Err e
            end)
  | Update running shuffle =>
      Some (s' ← update_running_replicas (deserialize (next_handle sys) running) shuffle s;
            Ok (mkSystem s' (if config_updated_event s' && negb (config_updated_event s)
                             then map fire (waiters sys) else waiters sys) (next_handle sys + length running)))
  | Finish ref =>
      if (ref <? next_ref s)%nat
      then Some (Ok (mkSystem (set_refs (next_ref s) (ref :: ready_refs s) s) (waiters sys) (next_handle sys))) else None
  | StartTask i => Some (Ok (mkSystem s (alter (start_task s) i (waiters sys)) (next_handle sys)))
  | Resume i =>
      match waiters sys !! i with
      | Some w =>
          if woken s w
          then Some (match resume_assign s with
                     | (s', Ok o) => Ok (with_outcome s' o (delete i (waiters sys)) (next_handle sys))
                     | (_, Err e) => Err e
                     end)
          else None
      | None => None
      end
  end.

(** ** Invariants of the replica set *)

(** A replica as the controller announces it: it runs and its limit is known. *)
Definition announced {Handle} (r : RunningReplicaInfo Handle) : Prop :=
  is_Some (ri_actor_handle r) /\ is_Some (ri_max_concurrent_queries r).

Definition limit (r : Info) : Z := default 0%Z (ri_max_concurrent_queries r).

(** The queries sent through the handle of [r] that are not answered *)
Definition unanswered (s : ReplicaSet) (r : Info) : list ObjectRef :=
  map fst (filter (fun q => q.2 = r /\ q.1 ∉ ready_refs s) (sent s)).

Definition full (d : dict Info (list ObjectRef)) (r : Info) : Prop :=
  (limit r <= Z.of_nat (length (dget_or r [] d)))%Z.

#[global] Instance full_dec d r : Decision (full d r) := Z_le_dec _ _.

Record set_ok (s : ReplicaSet) : Prop := {
  so_wf : dwf (in_flight_queries s);
  so_announced : Forall announced (dkeys (in_flight_queries s));
  so_iterator : replica_iterator s ≡ₚ dkeys (in_flight_queries s);
  so_refs : NoDup (_all_query_refs s);
  so_issued : Forall (fun r => (r < next_ref s)%nat) (_all_query_refs s);
  so_limits : forall r qs, dget r (in_flight_queries s) = Some qs -> (Z.of_nat (length qs) <= Z.max 0 (limit r))%Z;
  so_sent : Forall (fun q => (q.1 < next_ref s)%nat) (sent s);
  so_once : NoDup (map fst (sent s));
  so_tracked : forall ref r qs, (ref, r) ∈ sent s -> dget r (in_flight_queries s) = Some qs -> ref ∉ ready_refs s -> ref ∈ qs;
  so_unanswered : forall r, (Z.of_nat (length (unanswered s r)) <= Z.max 0 (limit r))%Z
}.

Lemma unanswered_tracked s r qs :
  NoDup (map fst (sent s)) -> (forall ref, (ref, r) ∈ sent s -> ref ∉ ready_refs s -> ref ∈ qs) ->
  (length (unanswered s r) <= length qs)%nat.
Proof.
  intros Hn Ht. unfold unanswered. apply submseteq_length, NoDup_submseteq.
  - clear Ht. induction (sent s) as [|q l IH]; [constructor|]. cbn in Hn. apply list.NoDup_cons in Hn as [Hq Hn].
    rewrite filter_cons. case_decide; [|by apply IH]. cbn. apply list.NoDup_cons. split; [|by apply IH].
    intros Hin. apply Hq. apply list_elem_of_fmap in Hin as (x & -> & [_ Hx]%list_elem_of_filter).
    apply list_elem_of_fmap. by exists x.
  - intros ref Hin. apply list_elem_of_fmap in Hin as ([ref' r'] & -> & Hin).
    apply list_elem_of_filter in Hin as [[Hr Hx] Hin]. cbn in Hr. subst r'. by apply Ht.
Qed.

(** The infos that the router has, or has sent queries to *)
Definition infos (s : ReplicaSet) : list Info := dkeys (in_flight_queries s) ++ map snd (sent s).

(** All replicas are full, with queries that are not answered yet. *)
Definition blocked (s : ReplicaSet) : Prop :=
  Forall (full (in_flight_queries s)) (dkeys (in_flight_queries s)) /\
  Forall (fun r => r ∉ ready_refs s) (_all_query_refs s).

#[global] Instance blocked_dec s : Decision (blocked s) := _.

Lemma set_iterator_id s : set_iterator (replica_iterator s) s = s.
Proof. by destruct s. Qed.

(** The state after the next ref went to replica [r], which the iterator has
    just passed *)
Definition assigned_to (r : Info) (it : list Info) (s : ReplicaSet) : ReplicaSet :=
  set_in_flight (dset r (dget_or r [] (in_flight_queries s) ++ [next_ref s]) (in_flight_queries s))
    (add_sent (next_ref s) r (set_refs (S (next_ref s)) (ready_refs s) (set_iterator it s))).

Lemma try_loop_ok l1 : forall l2 s,
  Forall (fun r => announced r /\ r ∈ dkeys (in_flight_queries s)) l1 -> replica_iterator s = l1 ++ l2 ->
  (Forall (full (in_flight_queries s)) l1 /\ try_loop (length l1) s = (set_iterator (l2 ++ l1) s, Ok None)) \/
  (exists a r b, l1 = a ++ r :: b /\ Forall (full (in_flight_queries s)) a /\ ~ full (in_flight_queries s) r /\
     try_loop (length l1) s = (assigned_to r (b ++ l2 ++ a ++ [r]) s, Ok (Some (next_ref s)))).
Proof.
  induction l1 as [|x l1 IH]; intros l2 s Hl Hit.
  - left. split; [constructor|]. cbn. rewrite app_nil_r. cbn in Hit. rewrite <- Hit, set_iterator_id. done.
  - apply list.Forall_cons in Hl as [[[[h Hh] [m Hm]] Hx] Hl]. apply dget_is_Some in Hx as [qs Hqs].
    cbn [length try_loop]. unfold next_replica, submit. st_simpl. rewrite Hit. cbn [app].
    cbn [in_flight_queries set_iterator]. unfold dgetitem. rewrite Hqs. cbn [or_raise]. rewrite Hm. cbn [or_raise].
    assert (Hf : full (in_flight_queries s) x <-> (m <= Z.of_nat (length qs))%Z).
    { unfold full, limit, dget_or. by rewrite Hm, Hqs. }
    destruct (m <=? Z.of_nat (length qs))%Z eqn:Em.
    + apply Z.leb_le, Hf in Em.
      destruct (IH (l2 ++ [x]) (set_iterator ((l1 ++ l2) ++ [x]) s)) as [[Hall E]|(a & r & b & -> & Ha & Hr & E)];
        [exact Hl | cbn; by rewrite app_assoc | left | right].
      * split; [by constructor|]. rewrite E. cbn. by rewrite <- app_assoc.
      * exists (x :: a), r, b. split_and!; [done | by constructor | done|]. rewrite E. unfold assigned_to. cbn.
        by rewrite <- !app_assoc.
    + right. apply Z.leb_gt in Em. exists [], x, l1. split_and!; [done | constructor | rewrite Hf; lia|].
      rewrite Hh. cbn [or_raise]. unfold assigned_to, dget_or. rewrite Hqs. cbn. by rewrite <- app_assoc.
Qed.

Lemma concat_dset (d : dict Info (list ObjectRef)) r qs ref :
  dget r d = Some qs -> concat (map snd (dset r (qs ++ [ref]) d)) ≡ₚ ref :: concat (map snd d).
Proof.
  induction d as [|[r' qs'] d IH]; cbn; [done|]. destruct (decide (r = r')) as [->|].
  - intros [= ->]. cbn. rewrite <- app_assoc. cbn. by rewrite <- Permutation_middle.
  - intros H. cbn. rewrite (IH H). by rewrite <- Permutation_middle.
Qed.

Lemma assigned_to_ok r it s :
  set_ok s -> r ∈ dkeys (in_flight_queries s) -> ~ full (in_flight_queries s) r -> it ≡ₚ replica_iterator s ->
  set_ok (assigned_to r it s).
Proof.
  intros [Hw Ha Hi Hn Hr Hl Hs Ho Ht Hu] Hin Hf Hit. apply dget_is_Some in Hin as [qs Hqs].
  assert (Hg : dget_or r [] (in_flight_queries s) = qs) by (unfold dget_or; by rewrite Hqs).
  unfold full in Hf. rewrite Hg in Hf.
  assert (Hk : dkeys (dset r (qs ++ [next_ref s]) (in_flight_queries s)) = dkeys (in_flight_queries s)).
  { rewrite dkeys_dset, decide_True; [done|]. apply dget_is_Some. by eexists. }
  pose proof (concat_dset _ _ _ (next_ref s) Hqs) as HP.
  assert (Ho' : NoDup (map fst (sent s ++ [(next_ref s, r)]))).
  { rewrite map_app. apply list.NoDup_app. split_and!; [done | | apply list.NoDup_singleton].
    intros ref Hin Hx. cbn in Hx. apply list_elem_of_singleton in Hx as ->. apply list_elem_of_fmap in Hin as ([a b] & Hq & Hin).
    rewrite list.Forall_forall in Hs. apply Hs in Hin. cbn in Hq, Hin. lia. }
  assert (Ht' : forall ref r' qs', (ref, r') ∈ sent s ++ [(next_ref s, r)] ->
            dget r' (dset r (qs ++ [next_ref s]) (in_flight_queries s)) = Some qs' -> ref ∉ ready_refs s -> ref ∈ qs').
  { intros ref r' qs' Hin. rewrite dget_dset. apply elem_of_app in Hin as [Hin|Hin].
    - destruct (decide (r = r')) as [<-|]; [|by apply Ht]. intros [= <-] Hx. apply elem_of_app. left. by apply (Ht ref r qs).
    - apply list_elem_of_singleton in Hin as [= -> ->]. rewrite decide_True by done. intros [= <-] _.
      apply elem_of_app. right. left. }
  unfold assigned_to. rewrite Hg. split; cbn [in_flight_queries set_in_flight replica_iterator set_refs set_iterator add_sent sent ready_refs next_ref _all_query_refs];
    unfold _all_query_refs in *; cbn [in_flight_queries set_in_flight].
  - by apply dwf_dset.
  - by rewrite Hk.
  - by rewrite Hk, Hit.
  - rewrite HP. apply list.NoDup_cons. split; [|done]. intros Hx. rewrite list.Forall_forall in Hr. apply Hr in Hx. lia.
  - rewrite HP. constructor; [lia|]. eapply list.Forall_impl; [exact Hr|]. cbn. lia.
  - intros r' qs'. rewrite dget_dset. destruct (decide (r = r')) as [<-|]; [|apply Hl].
    intros [= <-]. rewrite length_app. cbn. lia.
  - apply list.Forall_app. split; [|constructor; [cbn; lia | constructor]]. eapply list.Forall_impl; [exact Hs|]. cbn. lia.
  - exact Ho'.
  - exact Ht'.
  - intros r'. destruct (decide (r = r')) as [<-|Hne].
    + match goal with |- context [unanswered ?x r] => pose proof (unanswered_tracked x r (qs ++ [next_ref s]) Ho') as Hlen end.
      rewrite length_app in Hlen. cbn [length] in Hlen.
      assert (HH : forall ref, (ref, r) ∈ sent s ++ [(next_ref s, r)] -> ref ∉ ready_refs s -> ref ∈ qs ++ [next_ref s]).
      { intros ref H1. apply (Ht' ref r); [done|]. by rewrite dget_dset_eq. }
      specialize (Hlen HH). lia.
    + unfold unanswered. cbn [sent ready_refs add_sent set_in_flight set_refs set_iterator]. rewrite filter_app, filter_cons.
      rewrite decide_False by (cbn; tauto). rewrite filter_nil, app_nil_r. apply Hu.
Qed.

Lemma try_assign_ok s :
  set_ok s ->
  (Forall (full (in_flight_queries s)) (dkeys (in_flight_queries s)) /\ _try_assign_replica s = (s, Ok None)) \/
  (~ Forall (full (in_flight_queries s)) (dkeys (in_flight_queries s)) /\
   exists s', _try_assign_replica s = (s', Ok (Some (next_ref s))) /\ set_ok s' /\
     config_updated_event s' = config_updated_event s /\ ready_refs s' = ready_refs s /\
     num_queued_queries s' = num_queued_queries s /\ forall x, x ∈ infos s' -> x ∈ infos s).
Proof.
  intros Hs. pose proof Hs as [Hw Ha Hi _ _ _ _ _ _ _]. unfold _try_assign_replica. st_simpl.
  assert (Hlen : length (in_flight_queries s) = length (replica_iterator s)).
  { rewrite Hi. unfold dkeys. by rewrite length_map. }
  rewrite Hlen.
  destruct (try_loop_ok (replica_iterator s) [] s) as [[Hall E]|(a & r & b & Hl & _ & Hr & E)].
  - apply list.Forall_forall. intros r Hr. rewrite Hi in Hr. rewrite list.Forall_forall in Ha. auto.
  - by rewrite app_nil_r.
  - left. rewrite E. cbn. rewrite set_iterator_id. split; [by rewrite <- Hi | done].
  - right. assert (Hin : r ∈ dkeys (in_flight_queries s)).
    { rewrite <- Hi, Hl, elem_of_app, elem_of_cons. tauto. }
    split; [intros Hall; rewrite list.Forall_forall in Hall; by apply Hr, Hall|].
    rewrite E. eexists. split; [reflexivity|]. split; [apply assigned_to_ok; [done | done | done|]; rewrite Hl; cbn [app]; solve_Permutation|].
    split_and!; [done | done | done|]. intros x. unfold infos, assigned_to. cbn [in_flight_queries set_in_flight sent add_sent set_refs set_iterator].
    rewrite dkeys_dset, decide_True, map_app by done. cbn. rewrite !elem_of_app, list_elem_of_singleton. naive_solver.
Qed.

Lemma drained_keys (d : dict Info (list ObjectRef)) (f : list ObjectRef -> list ObjectRef) :
  dkeys (map (fun rq => (rq.1, f rq.2)) d) = dkeys d.
Proof. unfold dkeys. by rewrite map_map. Qed.

Lemma drained_get (d : dict Info (list ObjectRef)) (f : list ObjectRef -> list ObjectRef) r :
  dget r (map (fun rq => (rq.1, f rq.2)) d) = f <$> dget r d.
Proof. induction d as [|[r' q] d IH]; cbn; [done|]. by destruct (decide (r = r')). Qed.

Lemma drained_refs (d : dict Info (list ObjectRef)) (done : list ObjectRef) :
  concat (map snd (map (fun rq => (rq.1, filter (fun r => r ∉ done) rq.2)) d)) =
  filter (fun r => r ∉ done) (concat (map snd d)).
Proof. induction d as [|[r q] d IH]; cbn; [done|]. by rewrite IH, list.filter_app. Qed.

(** The state after a drain *)
Definition drained (s : ReplicaSet) : ReplicaSet :=
  set_in_flight (map (fun rq => (rq.1, filter (fun r => r ∉ ready s (_all_query_refs s)) rq.2)) (in_flight_queries s)) s.

Lemma drain_run s : _drain_completed_object_refs s = (drained s, Ok (length (ready s (_all_query_refs s)))).
Proof. done. Qed.

Lemma drained_ok s : set_ok s -> set_ok (drained s).
Proof.
  intros [Hw Ha Hi Hn Hr Hl Hs Ho Ht Hu]. unfold drained. split; unfold _all_query_refs in *;
    cbn [in_flight_queries set_in_flight replica_iterator next_ref] in *; rewrite ?drained_refs.
  - unfold dwf. by rewrite drained_keys.
  - by rewrite drained_keys.
  - by rewrite drained_keys.
  - by apply NoDup_filter.
  - apply list.Forall_forall. intros r [_ Hx]%list_elem_of_filter. rewrite list.Forall_forall in Hr. by apply Hr.
  - intros r qs. rewrite drained_get. destruct (dget r (in_flight_queries s)) as [q|] eqn:E; [|done].
    cbn. intros [= <-]. specialize (Hl r q E). pose proof (length_filter (fun r => r ∉ ready s (concat (map snd (in_flight_queries s)))) q). lia.
  - exact Hs.
  - exact Ho.
  - intros ref r qs Hin. rewrite drained_get. destruct (dget r (in_flight_queries s)) as [q|] eqn:E; [|done].
    cbn. intros [= <-] Hx. apply list_elem_of_filter. split; [|by apply (Ht ref r q)].
    unfold ready. rewrite list_elem_of_filter. tauto.
  - exact Hu.
Qed.

Lemma drained_nothing s : length (ready s (_all_query_refs s)) = 0%nat ->
  drained s = s /\ Forall (fun r => r ∉ ready_refs s) (_all_query_refs s).
Proof.
  intros H. apply nil_length_inv in H. split.
  - unfold drained. rewrite H. assert (E : map (fun rq => (rq.1, filter (fun r => r ∉ []) rq.2)) (in_flight_queries s) = in_flight_queries s).
    { rewrite <- (map_id (in_flight_queries s)) at 2. apply map_ext. intros [r q]. cbn. f_equal.
      apply filter_all. apply list.Forall_forall. intros x _. apply not_elem_of_nil. }
    rewrite E. by destruct s.
  - apply list.Forall_forall. intros r Hr Hx. assert (Hin : r ∈ ready s (_all_query_refs s)) by (by apply list_elem_of_filter).
    rewrite H in Hin. by apply elem_of_nil in Hin.
Qed.

Lemma drained_fewer s : ready s (_all_query_refs s) <> [] ->
  (length (_all_query_refs (drained s)) < length (_all_query_refs s))%nat.
Proof.
  intros H. destruct (ready s (_all_query_refs s)) as [|x l] eqn:E; [done|].
  assert (Hx : x ∈ ready s (_all_query_refs s)) by (rewrite E; left).
  pose proof Hx as [_ Hx']%list_elem_of_filter. unfold drained, _all_query_refs at 1. cbn [in_flight_queries set_in_flight].
  rewrite drained_refs. change (concat (map snd (in_flight_queries s))) with (_all_query_refs s).
  apply (length_filter_lt _ _ x); [done|]. tauto.
Qed.

(** The replica of a query that was drained has room. *)
Lemma drained_not_full s : set_ok s -> ready s (_all_query_refs s) <> [] ->
  ~ Forall (full (in_flight_queries (drained s))) (dkeys (in_flight_queries (drained s))).
Proof.
  intros [Hw _ _ _ _ Hl _ _ _ _] H Hall. destruct (ready s (_all_query_refs s)) as [|x l] eqn:E; [done|].
  assert (Hx : x ∈ ready s (_all_query_refs s)) by (rewrite E; left).
  pose proof Hx as [_ Hx']%list_elem_of_filter. unfold _all_query_refs in Hx'.
  apply list_elem_of_In, in_concat in Hx' as (q & Hq & Hxq). apply in_map_iff in Hq as ([r q'] & Hq & Hin). cbn in Hq. subst q'.
  assert (Hd : dget r (in_flight_queries s) = Some q) by (apply elem_dget; [done | by apply list_elem_of_In]).
  unfold drained in Hall. cbn [in_flight_queries set_in_flight] in Hall. rewrite drained_keys, list.Forall_forall in Hall.
  specialize (Hall r (proj1 (dget_is_Some _ _) (ex_intro _ q Hd))). unfold full, dget_or in Hall.
  rewrite drained_get, Hd in Hall. cbn in Hall.
  assert (Hlt : (length (filter (fun r => r ∉ ready s (_all_query_refs s)) q) < length q)%nat).
  { apply (length_filter_lt _ _ x); [by apply list_elem_of_In | tauto]. }
  specialize (Hl r q Hd). lia.
Qed.

(** Running the loop to its result or to the [await] *)
Record loop_ok (s s' : ReplicaSet) (o : assignment) : Prop := {
  lo_ok : set_ok s';
  lo_event : config_updated_event s' = config_updated_event s;
  lo_ready : ready_refs s' = ready_refs s;
  lo_infos : forall x, x ∈ infos s' -> x ∈ infos s;
  lo_blocked : blocked s -> s' = s /\ o = Waiting (_all_query_refs s);
  lo_outcome : match o with
               | Assigned _ => num_queued_queries s' = (num_queued_queries s - 1)%Z /\ ~ blocked s
               | Waiting refs => num_queued_queries s' = num_queued_queries s /\ blocked s /\ s' = s /\ refs = _all_query_refs s
               end
}.

Lemma assign_loop_ok fuel : forall s,
  set_ok s -> (length (_all_query_refs s) < fuel)%nat -> exists s' o, assign_loop fuel s = (s', Ok o) /\ loop_ok s s' o.
Proof.
  induction fuel as [|fuel IH]; intros s Hs Hlen; [lia|]. cbn [assign_loop]. st_simpl.
  destruct (try_assign_ok s Hs) as [[Hall ->]|[Hn (s1 & -> & Hs1 & He & Hr & Hq & Hin)]]; cycle 1.
  - eexists _, _. split; [reflexivity|]. split; cbn; try done.
    + by destruct s1, Hs1.
    + intros [Hf _]. done.
    + rewrite Hq. split; [done|]. intros [Hf _]. done.
  - rewrite drain_run. destruct (length (ready s (_all_query_refs s)) =? 0)%nat eqn:E0.
    + apply Nat.eqb_eq in E0. destruct (drained_nothing s E0) as [-> Hno].
      exists s, (Waiting (_all_query_refs s)). split; [done|]. split; try done.
    + apply Nat.eqb_neq in E0.
      assert (Hne : ready s (_all_query_refs s) <> []) by (intros C; by rewrite C in E0).
      pose proof (drained_fewer s Hne) as Hf. pose proof (drained_not_full s Hs Hne) as Hnf.
      destruct (IH (drained s)) as (s' & o & -> & [H1 H2 H3 Hi H4 H5]); [by apply drained_ok | lia|].
      exists s', o. split; [done|].
      assert (Hnb : ~ blocked s).
      { intros [_ Hb]. destruct (ready s (_all_query_refs s)) as [|x l] eqn:E; [done|].
        assert (Hx : x ∈ ready s (_all_query_refs s)) by (rewrite E; left). apply list_elem_of_filter in Hx as [Hx1 Hx2].
        rewrite list.Forall_forall in Hb. by apply (Hb x). }
      split; try done.
      { intros x Hx. apply Hi in Hx. unfold infos, drained in Hx. cbn [in_flight_queries set_in_flight sent] in Hx.
        by rewrite drained_keys in Hx. }
      destruct o as [ref|refs]; [by split; [apply H5|]|].
      destruct H5 as (_ & [Hb _] & _). done.
Qed.

Lemma run_loop_ok s : set_ok s -> exists s' o, run_loop s = (s', Ok o) /\ loop_ok s s' o.
Proof. intros Hs. unfold run_loop. st_simpl. apply assign_loop_ok; [done | lia]. Qed.

(** ** New replicas *)

Lemma add_all_run (l : list Info) : forall (d : dict Info (list ObjectRef)),
  NoDup l -> (forall r, r ∈ l -> r ∉ dkeys d) ->
  foldl (fun d r => dset r [] d) d l = d ++ map (fun r => (r, [])) l.
Proof.
  induction l as [|r l IH]; intros d Hn Hd; cbn; [by rewrite app_nil_r|]. apply list.NoDup_cons in Hn as [Hr Hn].
  rewrite dset_fresh by (apply Hd; left). rewrite IH, <- app_assoc; [done | done|].
  intros x Hx. unfold dkeys. rewrite map_app, elem_of_app. cbn. rewrite list_elem_of_singleton. intros [C| ->]; [|done].
  apply (Hd x); [by right | done].
Qed.

Lemma del_all_perm (l : list Info) : forall (d d' : dict Info (list ObjectRef)),
  foldM (fun d r => ddelitem r d) d l = Ok d' -> exists rest, d ≡ₚ d' ++ rest.
Proof.
  induction l as [|r l IH]; intros d d'; cbn [foldM]; [intros [= ->]; exists []; by rewrite app_nil_r|].
  destruct (ddelitem r d) as [d1|e] eqn:Ed; [|done]. cbn [mbind result_bind]. intros H.
  unfold ddelitem in Ed. destruct (dmem r d) eqn:E; [|done]. injection Ed as <-.
  destruct (IH _ _ H) as [rest Hr]. apply dmem_true, dget_is_Some in E as [q Hq].
  exists ((r, q) :: rest). rewrite (ddel_Permutation r q d Hq), Hr. apply Permutation_middle.
Qed.

Lemma refs_perm (d d' rest : dict Info (list ObjectRef)) :
  d ≡ₚ d' ++ rest -> concat (map snd d) ≡ₚ concat (map snd d') ++ concat (map snd rest).
Proof. intros ->. by rewrite map_app, concat_app. Qed.

Lemma no_refs (l : list Info) : concat (map snd (map (fun r => (r, [] : list ObjectRef)) l)) = [].
Proof. by induction l. Qed.

Lemma dget_new r (l : list Info) :
  dget r (map (fun x => (x, [])) l) = if decide (r ∈ l) then Some ([] : list ObjectRef) else None.
Proof.
  induction l as [|x l IH]; cbn; [done|]. destruct (decide (r = x)) as [->|].
  - rewrite decide_True by left. done.
  - rewrite IH. destruct (decide (r ∈ l)); [rewrite decide_True by (by right); done|].
    rewrite decide_False; [done|]. rewrite elem_of_cons. tauto.
Qed.

(** The dict after the replicas were added and removed *)
Lemma delta_ok (d : dict Info (list ObjectRef)) running :
  let added := added_replicas (dkeys d) running in
  let removed := removed_replicas (dkeys d) running in
  dwf d ->
  exists d2 rest, foldM (fun d r => ddelitem r d) (foldl (fun d r => dset r [] d) d added) removed = Ok d2 /\ dwf d2 /\
    (forall r, dget r d2 = if decide (r ∈ running) then Some (dget_or r [] d) else None) /\
    concat (map snd d) ≡ₚ concat (map snd d2) ++ rest /\ (added = [] -> removed = [] -> d2 = d).
Proof.
  intros added removed Hw.
  assert (Hadd : forall r, r ∈ added <-> r ∉ dkeys d /\ r ∈ running).
  { intros r. unfold added, added_replicas. by rewrite list_elem_of_filter, elem_of_remove_dups. }
  assert (Hrem : forall r, r ∈ removed <-> r ∉ running /\ r ∈ dkeys d).
  { intros r. unfold removed, removed_replicas. by rewrite list_elem_of_filter. }
  assert (Hna : NoDup added) by (apply list.NoDup_filter, NoDup_remove_dups).
  rewrite add_all_run; [|done | intros r Hx; by apply Hadd in Hx as [? _]].
  set (d1 := d ++ map (fun r => (r, [])) added).
  assert (Hk1 : dkeys d1 = dkeys d ++ added) by (unfold d1, dkeys; rewrite map_app, map_map; cbn; by rewrite map_id).
  assert (Hw1 : dwf d1).
  { unfold dwf. rewrite Hk1. apply list.NoDup_app. split_and!; [exact Hw | | done]. intros r H1 H2. by apply Hadd in H2 as [? _]. }
  assert (Hg1 : forall r, dget r d1 = if decide (r ∈ added) then Some [] else dget r d).
  { intros r. unfold d1. rewrite dget_app. destruct (dget r d) as [q|] eqn:E; [|apply dget_new].
    rewrite decide_False; [done|]. intros [C _]%Hadd. apply C, dget_is_Some. by eexists. }
  destruct (ddelitem_all removed d1) as (d2 & E2 & Hw2 & Hg2); [done | by apply list.NoDup_filter | |].
  { intros r Hx. rewrite Hk1, elem_of_app. left. by apply Hrem in Hx as [_ ?]. }
  destruct (del_all_perm _ _ _ E2) as [rest HP]. exists d2, (concat (map snd rest)). split_and!; [done | done | | |].
  - intros r. rewrite Hg2, Hg1. unfold dget_or. destruct (dget r d) as [q|] eqn:E.
    + assert (r ∈ dkeys d) by (apply dget_is_Some; by eexists).
      destruct (decide (r ∈ running)); repeat (destruct (decide _)); naive_solver.
    + apply dget_None in E. destruct (decide (r ∈ running)); repeat (destruct (decide _)); naive_solver.
  - rewrite <- (refs_perm _ _ _ HP). unfold d1. by rewrite map_app, concat_app, no_refs, app_nil_r.
  - intros Ha0 Hr0. rewrite Hr0 in E2. cbn in E2. injection E2 as <-. unfold d1. by rewrite Ha0, app_nil_r.
Qed.

Lemma update_ok running shuffle s :
  set_ok s -> Forall announced running -> (forall l, shuffle l ≡ₚ l) ->
  (forall r, r ∈ running -> r ∉ dkeys (in_flight_queries s) -> r ∉ map snd (sent s)) ->
  exists s', update_running_replicas running shuffle s = Ok s' /\ set_ok s' /\
    (forall r, dget r (in_flight_queries s') =
       if decide (r ∈ running) then Some (dget_or r [] (in_flight_queries s)) else None) /\
    ready_refs s' = ready_refs s /\ num_queued_queries s' = num_queued_queries s /\ sent s' = sent s /\
    (config_updated_event s' = true \/ s' = s).
Proof.
  intros [Hw Ha Hi Hn Hr Hl Hs Ho Ht Hu] Hrun Hsh Hfresh. unfold update_running_replicas.
  destruct (delta_ok (in_flight_queries s) running Hw) as (d2 & rest & -> & Hw2 & Hg & Hrefs & Hsame). cbn [mbind result_bind].
  assert (Hlim : forall r qs, dget r d2 = Some qs -> (Z.of_nat (length qs) <= Z.max 0 (limit r))%Z).
  { intros r qs. rewrite Hg. destruct (decide _); [|done]. intros [= <-]. unfold dget_or.
    destruct (dget r (in_flight_queries s)) as [q|] eqn:E; [by apply Hl | cbn; lia]. }
  assert (Han : Forall announced (dkeys d2)).
  { apply list.Forall_forall. intros r Hx. rewrite list.Forall_forall in Hrun. apply Hrun.
    apply dget_is_Some in Hx as [q Hq]. rewrite Hg in Hq. by destruct (decide (r ∈ running)). }
  assert (Hrs : NoDup (concat (map snd d2)) /\ Forall (fun r => (r < next_ref s)%nat) (concat (map snd d2))).
  { unfold _all_query_refs in Hn, Hr. rewrite Hrefs in Hn, Hr. apply list.NoDup_app in Hn as (Hn & _ & _).
    by apply list.Forall_app in Hr as [Hr _]. }
  assert (Ht2 : forall ref r qs, (ref, r) ∈ sent s -> dget r d2 = Some qs -> ref ∉ ready_refs s -> ref ∈ qs).
  { intros ref r qs Hin. rewrite Hg. destruct (decide (r ∈ running)) as [Hrr|]; [|done]. intros [= <-] Hx. unfold dget_or.
    destruct (dget r (in_flight_queries s)) as [q|] eqn:E; [by apply (Ht ref r q)|]. apply dget_None in E.
    destruct (Hfresh r Hrr E). apply list_elem_of_fmap. by exists (ref, r). }
  destruct Hrs as [Hn2 Hr2]. eexists. split; [reflexivity|].
  destruct (_ || _) eqn:Ech; cbn.
  - split; [split; cbn; try done; apply Hsh|]. split; [exact Hg|]. split_and!; [done | done | done | by left].
  - apply orb_false_iff in Ech as [E3%Nat.ltb_ge E4%Nat.ltb_ge].
    assert (Hd : d2 = in_flight_queries s) by (apply Hsame; apply nil_length_inv; lia).
    rewrite Hd in *. split; [split; cbn; done|]. split; [exact Hg|]. split_and!; [done | done | done|].
    right. by destruct s.
Qed.

(** ** The event loop *)

(** What may happen: a replica is announced with what it needs, a shuffle
    permutes; with [prompt], a waiter's event task has run before another
    waiter is resumed. *)
Definition allowed (prompt : bool) (a : action) (sys : system) : Prop :=
  match a with
  | Update running shuffle => Forall announced running /\ forall l, shuffle l ≡ₚ l
  | Resume _ => prompt = true -> Forall (fun w => event_wait w <> NotStarted) (waiters sys)
  | _ => True
  end.

Inductive reachable (prompt : bool) : system -> Prop :=
| reach_init : reachable prompt init_system
| reach_step a sys sys' :
    reachable prompt sys -> allowed prompt a sys -> do_action a sys = Some (Ok sys') -> reachable prompt sys'.

(** The handle is an object that was made before the [n]-th. *)
Definition made_before (n : nat) (r : Info) : Prop := exists h, ri_actor_handle r = Some h /\ (object_id h < n)%nat.

Definition counted (sys : system) : Prop :=
  set_ok (replica_set sys) /\ num_queued_queries (replica_set sys) = Z.of_nat (length (waiters sys)) /\
  Forall (made_before (next_handle sys)) (infos (replica_set sys)).

Lemma outcome_counted s s' o ws n :
  num_queued_queries s = (Z.of_nat (length ws) + 1)%Z -> Forall (made_before n) (infos s) -> loop_ok s s' o ->
  counted (with_outcome s' o ws n).
Proof.
  intros Hq Hh [H1 _ _ Hi _ H5]. split; [done|]. split; cbn.
  - destruct o; [destruct H5; lia|]. rewrite length_app. cbn. destruct H5 as (H5 & _). lia.
  - apply list.Forall_forall. intros x Hx. rewrite list.Forall_forall in Hh. auto.
Qed.

Lemma deserialize_lookup n l i : deserialize n l !! i = deserialize_info (n + i) <$> l !! i.
Proof. unfold deserialize. by rewrite list_lookup_imap. Qed.

Lemma deserialize_announced n l : Forall announced l -> Forall announced (deserialize n l).
Proof.
  rewrite !list.Forall_lookup. intros Hl i x. rewrite deserialize_lookup. destruct (l !! i) as [y|] eqn:E; [|done].
  intros [= <-]. destruct (Hl i y E) as [[h Hh] Hm]. split; [|exact Hm]. cbn. rewrite Hh. by eexists.
Qed.

Lemma deserialize_new n l r : Forall announced l -> r ∈ deserialize n l ->
  ~ made_before n r /\ made_before (n + length l) r.
Proof.
  intros Hl Hr. apply list_elem_of_lookup in Hr as [i Hi]. rewrite deserialize_lookup in Hi.
  destruct (l !! i) as [y|] eqn:E; [|done]. injection Hi as <-. rewrite list.Forall_lookup in Hl.
  destruct (Hl i y E) as [[h Hh] _]. apply lookup_lt_Some in E. unfold made_before. cbn. rewrite Hh. cbn. split.
  - intros (h' & [= <-] & Hlt). cbn in Hlt. lia.
  - eexists. split; [reflexivity|]. cbn. lia.
Qed.

(** An update of the announced replicas: the router has new infos only, and
    tracks no query of theirs. *)
Lemma receive_ok sys running shuffle :
  counted sys -> Forall announced running -> (forall l, shuffle l ≡ₚ l) ->
  let new := deserialize (next_handle sys) running in
  exists s', update_running_replicas new shuffle (replica_set sys) = Ok s' /\ set_ok s' /\
    (forall r, dget r (in_flight_queries s') = if decide (r ∈ new) then Some [] else None) /\
    Forall (made_before (next_handle sys + length running)) (infos s') /\
    ready_refs s' = ready_refs (replica_set sys) /\ num_queued_queries s' = num_queued_queries (replica_set sys) /\
    sent s' = sent (replica_set sys) /\ (config_updated_event s' = true \/ s' = replica_set sys).
Proof.
  intros (Hs & Hq & Hh) Ha Hsh new. rewrite list.Forall_forall in Hh.
  assert (Hnew : forall r, r ∈ new -> r ∉ infos (replica_set sys)).
  { intros r Hr Hi. by apply (deserialize_new _ _ _ Ha Hr), Hh. }
  destruct (update_ok new shuffle _ Hs (deserialize_announced _ _ Ha) Hsh) as (s' & E & Hs' & Hg & Hr & Hq' & Hse & Hc).
  { intros r Hr _ Hx. apply (Hnew r Hr). apply elem_of_app. by right. }
  exists s'. split_and!; [done | done | | | done | done | done | done].
  - intros r. rewrite Hg. destruct (decide (r ∈ new)) as [Hin|]; [|done]. unfold dget_or.
    destruct (dget r (in_flight_queries (replica_set sys))) as [q|] eqn:Eq; [|done].
    destruct (Hnew r Hin). apply elem_of_app. left. apply dget_is_Some. by eexists.
  - apply list.Forall_forall. intros r [Hr'|Hr']%elem_of_app.
    + apply dget_is_Some in Hr' as [q Hq0]. rewrite Hg in Hq0. destruct (decide (r ∈ new)) as [Hin|]; [|done].
      by apply (deserialize_new _ _ _ Ha).
    + rewrite Hse in Hr'. destruct (Hh r) as (h & H1 & H2); [apply elem_of_app; by right|]. exists h. split; [done | lia].
Qed.

Lemma set_queued_ok n s : set_ok s -> set_ok (set_queued n s).
Proof. by destruct s, 1. Qed.

Lemma set_updated_ok b s : set_ok s -> set_ok (set_updated b s).
Proof. by destruct s, 1. Qed.

Lemma assign_ok s :
  set_ok s -> exists s' o, assign_replica s = (s', Ok o) /\ loop_ok (set_queued (num_queued_queries s + 1) s) s' o.
Proof. intros Hs. unfold assign_replica. st_simpl. by apply run_loop_ok, set_queued_ok. Qed.

Lemma resume_ok s :
  set_ok s -> exists s' o, resume_assign s = (s', Ok o) /\ loop_ok (set_updated false s) s' o.
Proof.
  intros Hs. unfold resume_assign. st_simpl.
  assert (E : (if config_updated_event s then set_updated false s else s) = set_updated false s) by (by destruct s as [? ? []]).
  rewrite E. by apply run_loop_ok, set_updated_ok.
Qed.

(** A query is answered. *)
Lemma finish_ok ref s : set_ok s -> set_ok (set_refs (next_ref s) (ref :: ready_refs s) s).
Proof.
  intros [Hw Ha Hi Hn Hr Hl Hs Ho Ht Hu]. split; cbn; try done.
  - intros x r qs H1 H2 H3. apply (Ht x r qs H1 H2). intros H. apply H3. by right.
  - intros r. specialize (Hu r). unfold unanswered in *. cbn [sent set_refs ready_refs]. rewrite !length_map in *.
    assert (length (filter (fun q => q.2 = r /\ q.1 ∉ ref :: ready_refs s) (sent s)) <=
            length (filter (fun q => q.2 = r /\ q.1 ∉ ready_refs s) (sent s)))%nat; [|lia].
    clear. induction (sent s) as [|q l IH]; [done|]. rewrite !filter_cons.
    repeat case_decide; cbn [length]; try lia. exfalso. set_solver.
Qed.

Lemma action_counted prompt a sys :
  counted sys -> allowed prompt a sys ->
  match do_action a sys with Some (Ok sys') => counted sys' | Some (Err _) => False | None => True end.
Proof.
  intros Hc Ha. pose proof Hc as (Hs & Hq & Hh). destruct a as [|running shuffle|ref|i|i]; cbn [do_action].
  - destruct (assign_ok _ Hs) as (s' & o & -> & Hl). eapply outcome_counted; [| |exact Hl]; [cbn; lia | exact Hh].
  - destruct Ha as [Ha Hsh]. destruct (receive_ok sys running shuffle Hc Ha Hsh) as (s' & -> & Hs' & _ & Hh' & _ & Hq' & _).
    cbn. split; [done|]. split; [|exact Hh']. cbn. rewrite Hq', Hq. destruct (_ && _); by rewrite ?length_map.
  - destruct (ref <? next_ref (replica_set sys))%nat; [|done]. split; [by apply finish_ok | done].
  - split; [done|]. cbn. by rewrite length_alter.
  - destruct (waiters sys !! i) as [w|] eqn:Ew; [|done]. destruct (woken _ w); [|done].
    destruct (resume_ok _ Hs) as (s' & o & -> & Hl). eapply outcome_counted; [| |exact Hl]; [|exact Hh].
    cbn. rewrite Hq. rewrite length_delete by (by eexists). apply lookup_lt_Some in Ew. lia.
Qed.

Lemma init_counted : counted init_system.
Proof.
  split; [|split; [done | constructor]].
  split; cbn; [constructor | constructor | done | constructor | constructor | done | constructor | constructor | |].
  - by intros ref r qs ?%elem_of_nil.
  - intros r. unfold unanswered. cbn. lia.
Qed.

Lemma reachable_counted prompt sys : reachable prompt sys -> counted sys.
Proof.
  induction 1 as [|a sys sys' _ IH Ha E]; [apply init_counted|].
  pose proof (action_counted prompt a sys IH Ha) as H. by rewrite E in H.
Qed.

(** C29. A replica's limit holds per announcement. An announcement reaches the
    router as a new [RunningReplicaInfo] object, with a new handle. Whatever
    happens in whatever order, of the queries sent through the handle of one
    such object at most its [max_concurrent_queries] are unanswered; the router
    tracks every unanswered query of the infos it has; the gauge counts the
    queries that wait, and no operation raises an exception. After an update
    the router has exactly the new infos and tracks no query of theirs: what is
    in flight on a replica that stays is forgotten, so that its actor may get
    more queries at a time than it allows. *)
Theorem replicas_never_overloaded (sys : system) :
  reachable false sys ->
  (forall r, (Z.of_nat (length (unanswered (replica_set sys) r)) <= Z.max 0 (limit r))%Z) /\
  (forall r qs ref, dget r (in_flight_queries (replica_set sys)) = Some qs ->
     ref ∈ unanswered (replica_set sys) r -> ref ∈ qs) /\
  num_queued_queries (replica_set sys) = Z.of_nat (length (waiters sys)) /\
  (forall a e, allowed false a sys -> do_action a sys <> Some (Err e)) /\
  (forall running shuffle sys', allowed false (Update running shuffle) sys ->
     do_action (Update running shuffle) sys = Some (Ok sys') ->
     let new := deserialize (next_handle sys) running in
     (forall r, r ∈ new -> r ∉ infos (replica_set sys)) /\
     forall r, dget r (in_flight_queries (replica_set sys')) = if decide (r ∈ new) then Some [] else None).
Proof.
  intros Hr. pose proof (reachable_counted _ _ Hr) as Hc. pose proof Hc as (Hs & Hq & Hh). split_and!; [apply Hs | | done | |].
  - intros r qs ref Hd Hin. apply list_elem_of_fmap in Hin as ([x r'] & -> & Hin).
    apply list_elem_of_filter in Hin as [[Hx Hn] Hin]. cbn in Hx. subst r'. by apply (so_tracked _ Hs x r qs).
  - intros a e Ha E. pose proof (action_counted false a sys Hc Ha) as H. by rewrite E in H.
  - intros running shuffle sys' [Ha Hsh] E new. split.
    + intros r Hn Hi. rewrite list.Forall_forall in Hh. by apply (deserialize_new _ _ _ Ha Hn), Hh.
    + cbn [do_action] in E. destruct (receive_ok sys running shuffle Hc Ha Hsh) as (s' & Eu & _ & Hg & _).
      rewrite Eu in E. cbn in E. injection E as <-. exact Hg.
Qed.

(** ** Waiting *)

(** A waiter that is not woken waits for a reason: all replicas are full with
    queries it waits on, or an event is set that its task is about to see. *)
Definition justified (s : ReplicaSet) (w : waiter) : Prop :=
  woken s w = true \/ (blocked s /\ forall r, r ∈ _all_query_refs s -> r ∈ waits_on w) \/
  (config_updated_event s = true /\ event_wait w = NotStarted).

Record waiting_ok (sys : system) : Prop := {
  wo_counted : counted sys;
  wo_event : config_updated_event (replica_set sys) = true -> Forall (fun w => event_wait w <> Pending) (waiters sys);
  wo_justified : Forall (justified (replica_set sys)) (waiters sys)
}.

Lemma woken_ready s s' w : ready_refs s' = ready_refs s -> woken s w = true -> woken s' w = true.
Proof. unfold woken. by intros ->. Qed.

(** Running a query leaves the others' reasons to wait. *)
Lemma outcome_waiting s s' o ws n :
  loop_ok s s' o -> Forall (justified s) ws ->
  (config_updated_event s = true -> Forall (fun w => event_wait w <> Pending) ws) ->
  counted (with_outcome s' o ws n) -> waiting_ok (with_outcome s' o ws n).
Proof.
  intros [H1 H2 H3 _ H4 H5] Hj He Hc.
  assert (Hj' : Forall (justified s') ws).
  { eapply list.Forall_impl; [exact Hj|]. intros w [Hw|[[Hb Hin]|[Hev Hns]]].
    - left. by eapply woken_ready.
    - right. left. destruct (H4 Hb) as [-> _]. done.
    - right. right. by rewrite H2. }
  destruct o as [ref|refs]; cbn in *; split; cbn; try done.
  - by rewrite H2.
  - rewrite H2. intros Hev. apply list.Forall_app. split; [by apply He | by repeat constructor].
  - apply list.Forall_app. split; [done|]. constructor; [|constructor]. right. left.
    destruct H5 as (_ & Hb & -> & ->). done.
Qed.

Lemma waiting_update running shuffle sys :
  waiting_ok sys -> Forall announced running -> (forall l, shuffle l ≡ₚ l) ->
  forall sys', do_action (Update running shuffle) sys = Some (Ok sys') -> waiting_ok sys'.
Proof.
  intros [Hc He Hj] Ha Hsh sys' E.
  pose proof (action_counted false (Update running shuffle) sys Hc (conj Ha Hsh)) as Hc'. rewrite E in Hc'.
  cbn [do_action] in E.
  destruct (receive_ok sys running shuffle Hc Ha Hsh) as (s' & Eu & Hs' & _ & _ & Hr & _ & _ & Hcase). rewrite Eu in E. cbn in E.
  injection E as <-. destruct Hcase as [Hev| ->]; cycle 1.
  { rewrite andb_negb_r in *. by split. }
  rewrite Hev in *. cbn [andb] in *. destruct (config_updated_event (replica_set sys)) eqn:Eo; cbn [negb] in *.
  - split; cbn; [done | by intros _; apply He|]. eapply list.Forall_impl; [apply list.Forall_and; split; [exact Hj | by apply He]|].
    intros w [[Hw|[_|[_ Hns]]] Hp]; [left; by eapply woken_ready | |right; right; by split].
    destruct (event_wait w) eqn:Ew; [right; right; by split | done | left]. unfold woken. by rewrite Ew.
  - split; cbn; [done | intros _ |]; apply List.Forall_map.
    + apply list.Forall_true. intros w. unfold fire. cbn. destruct (decide (event_wait w = Pending)); cbn; congruence.
    + apply list.Forall_true. intros w. cbn. unfold fire. destruct (event_wait w) eqn:Ew.
      * rewrite decide_False by done. right. right. by split.
      * rewrite decide_True by done. left. done.
      * rewrite decide_False by done. left. unfold woken. by rewrite Ew.
Qed.

Lemma waiting_finish ref sys sys' :
  waiting_ok sys -> do_action (Finish ref) sys = Some (Ok sys') -> waiting_ok sys'.
Proof.
  intros [(Hs & Hq & Hh) He Hj]. cbn [do_action]. destruct (ref <? next_ref (replica_set sys))%nat; [|done]. intros [= <-].
  split; cbn; [split; [by apply finish_ok | done] | done|].
  eapply list.Forall_impl; [exact Hj|]. intros w [Hw|[[[Hf Hn] Hin]|Hev]]; [left | | by right; right].
  - unfold woken in *. cbn. apply orb_true_iff in Hw as [Hw|Hw]; [by rewrite Hw|].
    apply bool_decide_eq_true, list.Exists_exists in Hw as (r & H1 & H2).
    rewrite orb_true_iff, bool_decide_eq_true, (bool_decide_eq_true (Exists _ _)), list.Exists_exists. right. exists r.
    split; [done|]. by right.
  - destruct (decide (ref ∈ _all_query_refs (replica_set sys))) as [Hr|Hr].
    + left. unfold woken. rewrite orb_true_iff, (bool_decide_eq_true (Exists _ _)), list.Exists_exists. right. exists ref.
      split; [by apply Hin | left].
    + right. left. split; [|exact Hin]. split; [exact Hf|]. apply list.Forall_forall. intros r Hr' Hx. cbn in Hx.
      apply elem_of_cons in Hx as [->|Hx]; [done|]. rewrite list.Forall_forall in Hn. by apply (Hn r).
Qed.

Lemma start_task_justified s w : justified s w -> justified s (start_task s w) /\
  (config_updated_event s = true -> event_wait w <> Pending -> event_wait (start_task s w) <> Pending).
Proof.
  unfold start_task. destruct (decide (event_wait w = NotStarted)) as [Hw|]; [|done].
  intros Hj. destruct (config_updated_event s) eqn:Ee; (split; [|done]).
  - by left.
  - destruct Hj as [Hj|[Hj|[Hj _]]]; [left | right; left | congruence].
    + unfold woken in *. cbn. by rewrite Hw in Hj.
    + exact Hj.
Qed.

Lemma waiting_start i sys sys' :
  waiting_ok sys -> do_action (StartTask i) sys = Some (Ok sys') -> waiting_ok sys'.
Proof.
  intros [(Hs & Hq & Hh) He Hj]. cbn [do_action]. intros [= <-]. split; cbn.
  - split; [done|]. cbn. by rewrite length_alter.
  - intros Hev. specialize (He Hev). apply list.Forall_alter; [done|].
    intros w Hw Hp. apply start_task_justified; [|done | done]. rewrite list.Forall_forall in Hj.
    apply Hj. by eapply list_elem_of_lookup_2.
  - apply list.Forall_alter; [done|]. intros w _ Hw. by apply start_task_justified.
Qed.

Lemma waiting_resume i sys sys' :
  waiting_ok sys -> allowed true (Resume i) sys -> do_action (Resume i) sys = Some (Ok sys') -> waiting_ok sys'.
Proof.
  intros [Hc He Hj] Ha E. pose proof (action_counted true (Resume i) sys Hc Ha) as Hc'. rewrite E in Hc'.
  cbn [do_action] in E. destruct (waiters sys !! i) as [w|]; [|done]. destruct (woken _ w); [|done].
  destruct Hc as (Hs & Hq & _). destruct (resume_ok _ Hs) as (s' & o & Er & Hl). rewrite Er in E. injection E as <-.
  apply (outcome_waiting (set_updated false (replica_set sys))); [done | | done | done].
  specialize (Ha eq_refl). apply list.Forall_delete.
  eapply list.Forall_impl; [apply list.Forall_and; split; [exact Hj | exact Ha]|].
  intros x [[Hx|[Hx|[_ Hx]]] Hn]; [by left | right; by left | done].
Qed.

Lemma reachable_waiting sys : reachable true sys -> waiting_ok sys.
Proof.
  induction 1 as [|a sys sys' Hr IH Ha E]; [split; [apply init_counted | done | constructor]|].
  destruct a as [|running shuffle|ref|i|i].
  - pose proof (wo_counted _ IH) as Hc. pose proof (action_counted true Call sys Hc I) as Hc'. rewrite E in Hc'.
    destruct IH as [(Hs & Hq & _) He Hj]. cbn [do_action] in E. destruct (assign_ok _ Hs) as (s' & o & Er & Hl).
    rewrite Er in E. injection E as <-.
    by apply (outcome_waiting (set_queued (num_queued_queries (replica_set sys) + 1) (replica_set sys))).
  - destruct Ha as [Ha Hsh]. by eapply waiting_update.
  - by eapply waiting_finish.
  - by eapply waiting_start.
  - by eapply waiting_resume.
Qed.

(** C28. No query waits without need: when the tasks that wait for the event run
    before other queries are resumed, a query that is neither woken nor about
    to see the event waits while every replica is full with unanswered queries;
    and a woken query that is resumed when a replica has room, or a query in
    flight is answered, is assigned. *)
Theorem no_idle_replica_while_waiting (sys : system) :
  reachable true sys ->
  (forall w, w ∈ waiters sys -> woken (replica_set sys) w = false -> event_wait w <> NotStarted ->
     blocked (replica_set sys)) /\
  (forall i w, waiters sys !! i = Some w -> woken (replica_set sys) w = true -> ~ blocked (replica_set sys) ->
     exists sys', do_action (Resume i) sys = Some (Ok sys') /\ waiters sys' = delete i (waiters sys)).
Proof.
  intros Hr. destruct (reachable_waiting sys Hr) as [[Hs _] _ Hj]. rewrite list.Forall_forall in Hj. split.
  - intros w Hw Hn Hns. destruct (Hj w Hw) as [?|[[? _]|[_ ?]]]; [congruence | done | done].
  - intros i w Hw Hwk Hb. cbn [do_action]. rewrite Hw, Hwk.
    destruct (resume_ok _ Hs) as (s' & o & -> & [_ _ _ _ _ Ho]). eexists. split; [reflexivity|].
    destruct o as [ref|refs]; [done|]. by destruct Ho as (_ & ? & _).
Qed.

(** ** Runs *)

Definition action_ok (a : action) : Prop :=
  match a with Update running shuffle => Forall announced running /\ forall l, shuffle l ≡ₚ l | _ => True end.

Fixpoint run (prompt : bool) (l : list action) (sys : system) : option system :=
  match l with
  | [] => Some sys
  | a :: l =>
      if decide (prompt = true /\ Exists (fun w => event_wait w = NotStarted) (waiters sys) /\
                 match a with Resume _ => true | _ => false end = true)
      then None
      else match do_action a sys with Some (Ok sys') => run prompt l sys' | _ => None end
  end.

Lemma run_reachable prompt l : forall sys sys',
  Forall action_ok l -> reachable prompt sys -> run prompt l sys = Some sys' -> reachable prompt sys'.
Proof.
  induction l as [|a l IH]; intros sys sys' Hl Hr; cbn [run]; [by intros [= <-]|].
  apply list.Forall_cons in Hl as [Ha Hl]. destruct (decide _) as [|Hd]; [done|].
  destruct (do_action a sys) as [[sys1|]|] eqn:E; [|done|done]. apply IH; [done|].
  eapply reach_step; [exact Hr | | exact E]. destruct a; try done. cbn. intros ->.
  apply list.Forall_forall. intros w Hw Hns. apply Hd. split; [done|]. split; [|done].
  apply list.Exists_exists. by exists w.
Qed.

Definition ex_replica (tag : string) (n : Z) : RunningReplicaInfo string := mkRunning "d" tag (Some tag) (Some n).

Lemma ex_replica_announced tag n : announced (ex_replica tag n).
Proof. split; by eexists. Qed.

Lemma update_action_ok l : Forall announced l -> action_ok (Update l id).
Proof. by split. Qed.

Ltac ex_actions_tac :=
  repeat first [apply List.Forall_nil | apply List.Forall_cons | exact I | apply update_action_ok | apply ex_replica_announced].

(** Two replicas: a query waits, is woken and runs. *)
Definition ex_actions : list action :=
  [Call; StartTask 0; Update [ex_replica "r1" 1] id; Resume 0; Call; StartTask 0; Call; StartTask 1; Finish 0].
Definition ex_system : system := default init_system (run true ex_actions init_system).

Lemma ex_actions_ok : Forall action_ok ex_actions.
Proof. ex_actions_tac. Qed.

Lemma no_idle_replica_while_waiting_witness :
  (forall w, w ∈ waiters ex_system -> woken (replica_set ex_system) w = false -> event_wait w <> NotStarted ->
     blocked (replica_set ex_system)) /\
  (forall i w, waiters ex_system !! i = Some w -> woken (replica_set ex_system) w = true -> ~ blocked (replica_set ex_system) ->
     exists sys', do_action (Resume i) ex_system = Some (Ok sys') /\ waiters sys' = delete i (waiters ex_system)).
Proof.
  apply (no_idle_replica_while_waiting ex_system).
  apply (run_reachable true ex_actions init_system); [apply ex_actions_ok | constructor | vm_compute; reflexivity].
Defined.

Lemma replicas_never_overloaded_witness :
  (forall r, (Z.of_nat (length (unanswered (replica_set ex_system) r)) <= Z.max 0 (limit r))%Z) /\
  num_queued_queries (replica_set ex_system) = Z.of_nat (length (waiters ex_system)).
Proof.
  assert (reachable false ex_system -> (forall r, (Z.of_nat (length (unanswered (replica_set ex_system) r)) <= Z.max 0 (limit r))%Z) /\
    num_queued_queries (replica_set ex_system) = Z.of_nat (length (waiters ex_system))) as H.
  { intros Hr. destruct (replicas_never_overloaded ex_system Hr) as (H1 & _ & H2 & _). by split. }
  apply H.
  apply (run_reachable false ex_actions init_system); [apply ex_actions_ok | constructor | vm_compute; reflexivity].
Defined.

(** A lost update: the event is set while a query's task has not run, and
    cleared by another query that resumes. The query goes on waiting for the
    query it saw on the first replica although the second one has room. *)
Definition ex_lost : list action :=
  [Call; StartTask 0; Update [ex_replica "r1" 1] id; Call; Call; Update [ex_replica "r1" 1; ex_replica "r2" 2] id;
   Resume 0; StartTask 0].
Definition ex_lost_system : system := default init_system (run false ex_lost init_system).

Example lost_update :
  reachable false ex_lost_system /\ Forall (fun w => woken (replica_set ex_lost_system) w = false) (waiters ex_lost_system) /\
  length (waiters ex_lost_system) = 1%nat /\
  map (fun rq => (ri_replica_tag rq.1, limit rq.1, rq.2)) (in_flight_queries (replica_set ex_lost_system)) =
    [("r1", 1%Z, [1%nat]); ("r2", 2%Z, [])].
Proof.
  split_and!; [|by_compute | vm_compute; reflexivity | vm_compute; reflexivity].
  apply (run_reachable false ex_lost init_system); [|constructor | vm_compute; reflexivity].
  ex_actions_tac.
Qed.

(** The same replica is announced again: its query is forgotten, and its actor
    gets a second one at a time although it allows one. *)
Definition ex_again : list action :=
  [Update [ex_replica "r1" 1] id; Call; Update [ex_replica "r1" 1] id; Call].
Definition ex_again_system : system := default init_system (run false ex_again init_system).

Example overloaded_after_update :
  reachable false ex_again_system /\
  ready_refs (replica_set ex_again_system) = [] /\
  map (fun q => (q.1, _ray_actor_id <$> ri_actor_handle q.2, limit q.2)) (sent (replica_set ex_again_system)) =
    [(0%nat, Some "r1", 1%Z); (1%nat, Some "r1", 1%Z)] /\
  map snd (in_flight_queries (replica_set ex_again_system)) = [[1%nat]].
Proof.
  split_and!; [| vm_compute; reflexivity ..].
  apply (run_reachable false ex_again init_system); [|constructor | vm_compute; reflexivity].
  ex_actions_tac.
Qed.
