(* ===== verification/RunningFilter.v ===== *)
(** RLlib's observation filters: the running statistics of
    [rllib/utils/filter.py] and their aggregation over rollout workers
    ([rllib/utils/filter_manager.py], [rllib/evaluation/rollout_worker.py]). *)

From Stdlib Require Import ZArith QArith Qfield Lqa Lia.
From stdpp Require Import base list strings option.
From S2P Require Import Prelude PyDict.

(** ** numpy arrays, flattened *)

Record ndarray : Type := mkArray { ashape : list nat; adata : list Q }.

Definition size_of (shape : list nat) : nat := foldr Nat.mul 1%nat shape.
Definition np_zeros (shape : list nat) : ndarray := mkArray shape (repeat 0%Q (size_of shape)).
Definition zip_arrays (f : Q -> Q -> Q) (a b : ndarray) : ndarray := mkArray (ashape a) (zip_with f (adata a) (adata b)).
Definition array_ok (a : ndarray) : Prop := length (adata a) = size_of (ashape a).

(** [x[i]] *)
Definition row (i : nat) (x : ndarray) : ndarray :=
  mkArray (tail (ashape x)) (take (size_of (tail (ashape x))) (drop (i * size_of (tail (ashape x))) (adata x))).

(** ** [RunningStat] *)

Record RunningStat : Type := mkStat { _n : nat; _M : ndarray; _S : ndarray }.

Definition new_stat (shape : list nat) : RunningStat := mkStat 0 (np_zeros shape) (np_zeros shape).

Definition Qnat (n : nat) : Q := inject_Z (Z.of_nat n).

Definition push (x : ndarray) (s : RunningStat) : result RunningStat :=
  if decide (ashape x = ashape (_M s))
  then
    let n1 := _n s in
    let n := S n1 in
    Ok (if (n =? 1)%nat then mkStat n (mkArray (ashape (_M s)) (adata x)) (_S s)
        else
          let delta := zip_arrays Qminus x (_M s) in
          mkStat n (zip_arrays (fun m d => m + d / Qnat n) (_M s) delta)%Q
            (zip_arrays (fun v d => v + d * d * Qnat n1 / Qnat n) (_S s) delta)%Q)
  else Err ValueError.

Definition update (other s : RunningStat) : RunningStat :=
  let n1 := _n s in
  let n2 := _n other in
  let n := (n1 + n2)%nat in
  if (n =? 0)%nat then s
  else
    let delta := zip_arrays Qminus (_M s) (_M other) in
    mkStat n (zip_arrays (fun m1 m2 => (Qnat n1 * m1 + Qnat n2 * m2) / Qnat n) (_M s) (_M other))%Q
      (zip_arrays (fun v d => v + d * d * Qnat n1 * Qnat n2 / Qnat n)
         (zip_arrays Qplus (_S s) (_S other)) delta)%Q.

(** [var] *)
Definition var (s : RunningStat) : list Q :=
  if (1 <? _n s)%nat then map (fun v => v / (Qnat (_n s) - 1))%Q (adata (_S s))
  else map (fun m => m * m)%Q (adata (_M s)).

(** ** [MeanStdFilter]

    [observe] is the part of [__call__] that changes the object: it adds the
    observation, or each row of a batch of observations, to both statistics. *)
Record MeanStdFilter : Type := mkFilter {
  f_shape : list nat;
  demean : bool;
  destd : bool;
  clip : option Q;
  rs : RunningStat;
  buffer : RunningStat
}.

Definition new_filter (shape : list nat) (de dest : bool) (c : option Q) : MeanStdFilter :=
  mkFilter shape de dest c (new_stat shape) (new_stat shape).

Definition set_stats (r b : RunningStat) (f : MeanStdFilter) : MeanStdFilter :=
  mkFilter (f_shape f) (demean f) (destd f) (clip f) r b.

Definition clear_buffer (f : MeanStdFilter) : MeanStdFilter := set_stats (rs f) (new_stat (f_shape f)) f.

Definition apply_changes (other : MeanStdFilter) (with_buffer : bool) (f : MeanStdFilter) : MeanStdFilter :=
  set_stats (update (buffer other) (rs f)) (if with_buffer then buffer other else buffer f) f.

Definition sync (other f : MeanStdFilter) : result MeanStdFilter :=
  _ ← py_assert (bool_decide (f_shape other = f_shape f));
  Ok (mkFilter (f_shape f) (demean other) (destd other) (clip other) (rs other) (buffer other)).

(** [copy] and [as_serializable] *)
Definition copy (f : MeanStdFilter) : result MeanStdFilter := sync f (new_filter (f_shape f) true true (Some 10%Q)).

Definition push_both (x : ndarray) (f : MeanStdFilter) : result MeanStdFilter :=
  r ← push x (rs f); b ← push x (buffer f); Ok (set_stats r b f).

Definition observe (x : ndarray) (f : MeanStdFilter) : result MeanStdFilter :=
  if (length (ashape x) =? length (ashape (_M (rs f))) + 1)%nat
  then foldM (fun f i => push_both (row i x) f) f (seq 0 (hd 0%nat (ashape x)))
  else push_both x f.

(** ** Aggregation *)

Notation filters := (dict string MeanStdFilter).

Definition flush (w : filters) : filters := map (fun kf => (kf.1, clear_buffer kf.2)) w.

(** A rollout worker's [get_filters(flush_after)] and [sync_filters] *)
Definition get_filters (flush_after : bool) (w : filters) : result (filters * filters) :=
  copies ← mapM_r (fun kf => c ← copy kf.2; Ok (kf.1, c)) w;
  Ok (copies, if flush_after then flush w else w).

Definition sync_filters (new_filters w : filters) : result filters :=
  _ ← py_assert (forallb (fun k => dmem k new_filters) (dkeys w));
  mapM_r (fun kf => g ← dgetitem kf.1 new_filters; f ← sync g kf.2; Ok (kf.1, f)) w.

(** [apply_changes] of each of a remote's filters *)
Definition apply_remote (local rf : filters) : result filters :=
  mapM_r (fun kf => g ← dgetitem kf.1 rf; Ok (kf.1, apply_changes g false kf.2)) local.

(** *** [FilterManager.synchronize]

    The calls of the remote workers are asynchronous. A worker runs the calls of
    its mailbox in their order, and observes at any time between two of them;
    [reply] is what its [get_filters] has returned to the manager. *)

Inductive call : Type :=
| GetFilters                            (* [get_filters.remote(flush_after=True)] *)
| SyncFilters (remote_copy : filters).  (* [sync_filters.remote(remote_copy)] *)

Record remote : Type := mkRemote { r_filters : filters; mailbox : list call; reply : option filters }.

(** [syncing] is [update_remote] while the manager waits in [ray.get]. *)
Record filter_system : Type := mkFilterSystem {
  local_filters : filters;
  remotes : list remote;
  syncing : option bool
}.

Definition send (c : call) (r : remote) : remote := mkRemote (r_filters r) (mailbox r ++ [c]) (reply r).

(** Up to [ray.get] *)
Definition start_synchronize (update_remote : bool) (sys : filter_system) : option filter_system :=
  match syncing sys with
  | None => Some (mkFilterSystem (local_filters sys) (map (send GetFilters) (remotes sys)) (Some update_remote))
  | Some _ => None
  end.

(** A worker runs its next call. *)
Definition run_call (r : remote) : option (result remote) :=
  match mailbox r with
  | [] => None
  | GetFilters :: rest =>
      Some ('(copies, w) ← get_filters true (r_filters r); Ok (mkRemote w rest (Some copies)))
  | SyncFilters c :: rest =>
      Some (w ← sync_filters c (r_filters r); Ok (mkRemote w rest (reply r)))
  end.

(** Once every reply is there: the loop over the replies, and the broadcast *)
Definition finish_synchronize (sys : filter_system) : option (result filter_system) :=
  match syncing sys, mapM reply (remotes sys) with
  | Some update_remote, Some remote_filters =>
      Some (local' ← foldM apply_remote (local_filters sys) remote_filters;
            let taken := map (fun r => mkRemote (r_filters r) (mailbox r) None) (remotes sys) in
            if update_remote : bool
            then copies ← mapM_r (fun kf => c ← copy kf.2; Ok (kf.1, c)) local';
                 Ok (mkFilterSystem local' (map (send (SyncFilters copies)) taken) None)
            else Ok (mkFilterSystem local' taken None))
  | _, _ => None
  end.

(** A worker observes. *)
Definition observe_remote (key : string) (x : ndarray) (r : remote) : result remote :=
  f ← dgetitem key (r_filters r);
  f' ← observe x f;
  Ok (mkRemote (dset key f' (r_filters r)) (mailbox r) (reply r)).

Inductive filter_event : Type :=
| Observe (i : nat) (key : string) (x : ndarray)
| StartSynchronize (update_remote : bool)
| RunCall (i : nat)
| FinishSynchronize.

Definition on_remote (i : nat) (f : remote -> option (result remote)) (sys : filter_system) : option (result filter_system) :=
  match remotes sys !! i with
  | Some r =>
      match f r with
      | Some (Ok r') => Some (Ok (mkFilterSystem (local_filters sys) (<[i := r']> (remotes sys)) (syncing sys)))
      | Some (Err e) => Some (Err e)
      | None => None
      end
  | None => None
  end.

(** [None]: the event cannot happen now *)
Definition do_filter_event (e : filter_event) (sys : filter_system) : option (result filter_system) :=
  match e with
  | Observe i key x => on_remote i (fun r => Some (observe_remote key x r)) sys
  | StartSynchronize update_remote => Ok <$> start_synchronize update_remote sys
  | RunCall i => on_remote i run_call sys
  | FinishSynchronize => finish_synchronize sys
  end.

(** ** Statistics of a list of numbers *)

Definition mean (l : list Q) : Q := (Qsum l / Qnat (length l))%Q.
Definition squared_deviations (l : list Q) : Q := Qsum (map (fun x => (x - mean l) * (x - mean l)) l)%Q.

(** [m] and [v] are what [n] numbers [l] give; with no numbers both are zero. *)
Definition describes (n : nat) (m v : Q) (l : list Q) : Prop :=
  n = length l /\ (m * Qnat n == Qsum l)%Q /\
  (v * Qnat n == Qnat n * Qsum (map (fun x => x * x) l) - Qsum l * Qsum l)%Q /\
  (n = 0%nat -> m == 0 /\ v == 0)%Q.

Lemma Qnat_S n : (Qnat (S n) == Qnat n + 1)%Q.
Proof. unfold Qnat. rewrite Nat2Z.inj_succ. unfold Z.succ. by rewrite inject_Z_plus. Qed.

Lemma Qnat_add n m : (Qnat (n + m) == Qnat n + Qnat m)%Q.
Proof. unfold Qnat. by rewrite Nat2Z.inj_add, inject_Z_plus. Qed.

Lemma Qnat_nonneg n : (0 <= Qnat n)%Q.
Proof. unfold Qnat. change 0%Q with (inject_Z 0). rewrite <- Zle_Qle. lia. Qed.

Lemma Qnat_pos n : (0 < n)%nat -> (0 < Qnat n)%Q.
Proof. intros Hn. unfold Qnat. change 0%Q with (inject_Z 0). rewrite <- Zlt_Qlt. lia. Qed.

Lemma Qpos_neq (N : Q) : (0 < N)%Q -> ~ (N == 0)%Q.
Proof. intros H E. apply (Qlt_not_eq _ _ H). by symmetry. Qed.

(** The sum of squares, from the sum of squared deviations *)
Lemma squares_of (N m v sx sq : Q) :
  (0 < N)%Q -> (m * N == sx)%Q -> (v * N == N * sq - sx * sx)%Q -> (sq == v + m * m * N)%Q.
Proof.
  intros HN Hm Hv. rewrite <- Hm in Hv. assert (H : (N * sq == N * (v + m * m * N))%Q).
  { transitivity (v * N + m * N * (m * N))%Q; [rewrite Hv; ring | ring]. }
  apply Qmult_inj_l in H; [done | by apply Qpos_neq].
Qed.

Lemma push_describes n m v l x :
  (0 < n)%nat -> describes n m v l ->
  let d := (x - m)%Q in
  describes (S n) (m + d / Qnat (S n))%Q (v + d * d * Qnat n / Qnat (S n))%Q (l ++ [x]).
Proof.
  intros Hn (Hl & Hm & Hv & _) d. pose proof (Qnat_pos n Hn) as HN.
  pose proof (squares_of _ _ _ _ _ HN Hm Hv) as Hs. unfold describes, d.
  rewrite length_app, map_app, !Qsum_app. split_and!; [cbn; lia | | | done]; rewrite Hs || idtac;
    change (Qsum [x]) with (x + 0)%Q; cbn [map]; change (Qsum [(x * x)%Q]) with (x * x + 0)%Q;
    rewrite <- Hm, Qnat_S; field; apply Qpos_neq; lra.
Qed.

Lemma first_describes v l x : describes 0 0 v l -> describes 1 x v (l ++ [x]).
Proof.
  intros (Hl & _ & _ & Hz). destruct l; [|done]. destruct (Hz eq_refl) as [_ Hv]. unfold describes.
  change (Qnat 1) with 1%Q. unfold Qsum. cbn [app map foldr length]. split_and!; [done | ring | rewrite Hv; ring | done].
Qed.

Lemma update_describes n1 m1 v1 l1 n2 m2 v2 l2 :
  (0 < n1 + n2)%nat -> describes n1 m1 v1 l1 -> describes n2 m2 v2 l2 ->
  let d := (m1 - m2)%Q in
  describes (n1 + n2) ((Qnat n1 * m1 + Qnat n2 * m2) / Qnat (n1 + n2))%Q
    (v1 + v2 + d * d * Qnat n1 * Qnat n2 / Qnat (n1 + n2))%Q (l1 ++ l2).
Proof.
  intros Hn (Hl1 & Hm1 & Hv1 & Hz1) (Hl2 & Hm2 & Hv2 & Hz2) d.
  pose proof (Qnat_pos _ Hn) as HN. rewrite Qnat_add in HN. unfold describes, d.
  rewrite length_app, map_app, !Qsum_app, <- Hm1, <- Hm2. split_and!; [lia | | | lia]; rewrite Qnat_add; [field; by apply Qpos_neq|].
  set (s1 := Qsum (map _ l1)) in *. set (s2 := Qsum (map _ l2)) in *.
  assert (Hs : forall n m v l s, describes n m v l -> s = Qsum (map (fun x => x * x)%Q l) -> (s == v + m * m * Qnat n)%Q).
  { intros n m v l s (E & Em & Ev & Ez) ->. destruct (decide (n = 0%nat)) as [->|Hne].
    - destruct (Ez eq_refl) as [-> ->]. destruct l; [|done]. change (Qnat 0) with 0%Q. cbn [map]. unfold Qsum. cbn [foldr]. ring.
    - apply (squares_of _ _ _ (Qsum l)); [apply Qnat_pos; lia | done | done]. }
  rewrite (Hs n1 m1 v1 l1 s1), (Hs n2 m2 v2 l2 s2) by done. field. by apply Qpos_neq.
Qed.

Lemma Qsum_shift (c : Q) (l : list Q) :
  (Qsum (map (fun x => (x - c) * (x - c)) l) ==
     Qsum (map (fun x => x * x) l) - 2 * c * Qsum l + Qnat (length l) * c * c)%Q.
Proof.
  unfold Qsum. induction l as [|x l IH]; cbn [map foldr length]; [change (Qnat 0) with 0%Q; ring|].
  rewrite IH, Qnat_S. ring.
Qed.

(** For at least one number they are the mean and the sum of the squared
    deviations from it. *)
Lemma describes_reference n m v l :
  describes n m v l -> l <> [] -> (m == mean l)%Q /\ (v == squared_deviations l)%Q.
Proof.
  intros (Hl & Hm & Hv & _) Hne. assert (Hn : (0 < n)%nat) by (destruct l; [done | cbn in Hl; lia]).
  pose proof (Qnat_pos n Hn) as HN. assert (Hmean : (m == mean l)%Q).
  { unfold mean. rewrite <- Hl, <- Hm. field. by apply Qpos_neq. }
  split; [done|]. unfold squared_deviations. rewrite Qsum_shift, <- Hmean, <- Hl, <- Hm.
  rewrite (squares_of _ _ _ _ _ HN Hm Hv). ring.
Qed.

(** ** Statistics of arrays, one column per component *)

Definition column (j : nat) (obs : list (list Q)) : list Q := map (fun x => nth j x 0%Q) obs.

Record stat_of (shape : list nat) (obs : list (list Q)) (s : RunningStat) : Prop := {
  st_n : _n s = length obs;
  st_M : ashape (_M s) = shape /\ array_ok (_M s);
  st_S : ashape (_S s) = shape /\ array_ok (_S s);
  st_columns : forall j, (j < size_of shape)%nat ->
    describes (_n s) (nth j (adata (_M s)) 0%Q) (nth j (adata (_S s)) 0%Q) (column j obs)
}.

Lemma nth_zip_with (f : Q -> Q -> Q) a b j :
  (j < length a)%nat -> (j < length b)%nat -> nth j (zip_with f a b) 0%Q = f (nth j a 0%Q) (nth j b 0%Q).
Proof.
  revert a b. induction j as [|j IH]; intros [|x a] [|y b] Ha Hb; cbn in *; try lia; [done|]. apply IH; lia.
Qed.

Lemma zip_arrays_ok f a b shape :
  ashape a = shape -> array_ok a -> ashape b = shape -> array_ok b ->
  ashape (zip_arrays f a b) = shape /\ array_ok (zip_arrays f a b) /\
  forall j, (j < size_of shape)%nat ->
    nth j (adata (zip_arrays f a b)) 0%Q = f (nth j (adata a) 0%Q) (nth j (adata b) 0%Q).
Proof.
  unfold array_ok, zip_arrays. intros <- Ha Hs Hb. cbn [ashape adata]. rewrite Hs in Hb.
  split; [done|]. split; [rewrite length_zip_with; lia|]. intros j Hj. apply nth_zip_with; lia.
Qed.

Lemma new_stat_of shape : stat_of shape [] (new_stat shape).
Proof.
  assert (Hz : array_ok (np_zeros shape)) by (unfold array_ok; cbn; apply repeat_length).
  split; cbn; try done. intros j Hj. rewrite nth_repeat. unfold describes. cbn. split_and!; done.
Qed.

(** An observation of the shape *)
Definition fits (shape : list nat) (x : ndarray) : Prop := ashape x = shape /\ array_ok x.

Lemma push_stat_of shape obs s x :
  stat_of shape obs s -> fits shape x -> exists s', push x s = Ok s' /\ stat_of shape (obs ++ [adata x]) s'.
Proof.
  intros [Hn [HM1 HM2] [HS1 HS2] Hc] [Hx1 Hx2]. unfold push. rewrite decide_True by congruence.
  eexists. split; [reflexivity|].
  assert (Hcol : forall j, column j (obs ++ [adata x]) = column j obs ++ [nth j (adata x) 0%Q]).
  { intros j. unfold column. by rewrite map_app. }
  destruct (S (_n s) =? 1)%nat eqn:E.
  - apply Nat.eqb_eq in E. assert (H0 : _n s = 0%nat) by lia.
    split; cbn [_n _M _S ashape adata]; [rewrite length_app; cbn; lia | split; [done | unfold array_ok in *; cbn [ashape adata]; congruence] | done|].
    intros j Hj. rewrite Hcol, H0. specialize (Hc j Hj). rewrite H0 in Hc. apply first_describes.
    destruct Hc as (E1 & _ & E3 & E4). destruct (E4 eq_refl) as [E5 E6]. split_and!; [done | | done | by intros _; split].
    destruct (column j obs); [|done]. cbn. ring.
  - apply Nat.eqb_neq in E.
    destruct (zip_arrays_ok Qminus x (_M s) shape Hx1 Hx2 HM1 HM2) as (D1 & D2 & D3).
    destruct (zip_arrays_ok (fun m d => m + d / Qnat (S (_n s)))%Q (_M s) _ shape HM1 HM2 D1 D2) as (M1 & M2 & M3).
    destruct (zip_arrays_ok (fun v d => v + d * d * Qnat (_n s) / Qnat (S (_n s)))%Q (_S s) _ shape HS1 HS2 D1 D2) as (S1 & S2 & S3).
    split; cbn [_n _M _S]; [rewrite length_app; cbn; lia | done | done|].
    intros j Hj. rewrite M3, S3, D3, Hcol by done. apply push_describes; [lia | by apply Hc].
Qed.

Lemma update_stat_of shape o1 o2 s1 s2 :
  stat_of shape o1 s1 -> stat_of shape o2 s2 -> stat_of shape (o1 ++ o2) (update s2 s1).
Proof.
  intros H1 H2. pose proof H1 as [Hn [HM1 HM2] [HS1 HS2] Hc]. pose proof H2 as [Kn [KM1 KM2] [KS1 KS2] Kc]. unfold update.
  destruct (_n s1 + _n s2 =? 0)%nat eqn:E.
  - apply Nat.eqb_eq in E. destruct o2; [by rewrite app_nil_r | cbn in Kn; lia].
  - apply Nat.eqb_neq in E.
    destruct (zip_arrays_ok Qminus (_M s1) (_M s2) shape HM1 HM2 KM1 KM2) as (D1 & D2 & D3).
    destruct (zip_arrays_ok Qplus (_S s1) (_S s2) shape HS1 HS2 KS1 KS2) as (P1 & P2 & P3).
    destruct (zip_arrays_ok (fun m1 m2 => (Qnat (_n s1) * m1 + Qnat (_n s2) * m2) / Qnat (_n s1 + _n s2))%Q
                (_M s1) (_M s2) shape HM1 HM2 KM1 KM2) as (M1 & M2 & M3).
    destruct (zip_arrays_ok (fun v d => v + d * d * Qnat (_n s1) * Qnat (_n s2) / Qnat (_n s1 + _n s2))%Q _ _ shape P1 P2 D1 D2)
      as (S1 & S2 & S3).
    split; cbn [_n _M _S]; [rewrite length_app; lia | done | done|].
    intros j Hj. rewrite M3, S3, D3, P3 by done. unfold column. rewrite map_app.
    apply update_describes; [lia | by apply Hc | by apply Kc].
Qed.

Lemma pushes_stat_of shape xs : forall obs s,
  stat_of shape obs s -> Forall (fits shape) xs ->
  exists s', foldM (fun s x => push x s) s xs = Ok s' /\ stat_of shape (obs ++ map adata xs) s'.
Proof.
  induction xs as [|x xs IH]; intros obs s Hs Hx; cbn [foldM map]; [exists s; by rewrite app_nil_r|].
  apply list.Forall_cons in Hx as [Hx Hxs]. destruct (push_stat_of _ _ _ _ Hs Hx) as (s1 & -> & H1). cbn.
  destruct (IH _ _ H1 Hxs) as (s' & E & H'). exists s'. split; [done|]. by rewrite <- app_assoc in H'.
Qed.

Lemma chunks_stats shape chunks : Forall (Forall (fits shape)) chunks ->
  exists stats, mapM_r (fun c => foldM (fun s x => push x s) (new_stat shape) c) chunks = Ok stats /\
    Forall2 (fun c s => stat_of shape (map adata c) s) chunks stats.
Proof.
  induction 1 as [|c chunks Hc _ (stats & E & IH)]; cbn [mapM_r]; [by exists []|].
  destruct (pushes_stat_of shape c [] (new_stat shape) (new_stat_of shape) Hc) as (s & -> & Hs). rewrite E. cbn.
  exists (s :: stats). split; [done | by constructor].
Qed.

Lemma merge_stats shape chunks stats : Forall2 (fun c s => stat_of shape (map adata c) s) chunks stats ->
  forall obs s, stat_of shape obs s ->
    stat_of shape (obs ++ map adata (concat chunks)) (foldl (fun s other => update other s) s stats).
Proof.
  induction 1 as [|c st chunks stats Hc _ IH]; intros obs s Hs; cbn; [by rewrite app_nil_r|].
  rewrite map_app, app_assoc. apply IH. by apply update_stat_of.
Qed.

(** C26. One pass is as good as two: however observations are split into chunks,
    pushing each chunk into a statistic of its own and merging the statistics
    gives the number of all observations and, for every component, their exact
    mean, sum of squared deviations and (from two observations on) sample
    variance. *)
Theorem running_stat_equals_two_pass (shape : list nat) (chunks : list (list ndarray)) :
  Forall (Forall (fits shape)) chunks ->
  exists stats, mapM_r (fun c => foldM (fun s x => push x s) (new_stat shape) c) chunks = Ok stats /\
    let s := foldl (fun s other => update other s) (new_stat shape) stats in
    let obs := map adata (concat chunks) in
    _n s = length obs /\
    forall j, (j < size_of shape)%nat -> obs <> [] ->
      (nth j (adata (_M s)) 0 == mean (column j obs))%Q /\
      (nth j (adata (_S s)) 0 == squared_deviations (column j obs))%Q /\
      ((2 <= length obs)%nat -> (nth j (var s) 0 == squared_deviations (column j obs) / (Qnat (length obs) - 1))%Q).
Proof.
  intros Hc. destruct (chunks_stats shape chunks Hc) as (stats & -> & Hs). exists stats. split; [done|]. intros s obs.
  assert (Hst : stat_of shape obs s) by (exact (merge_stats shape chunks stats Hs [] (new_stat shape) (new_stat_of shape))).
  destruct Hst as [Hn [M1 M2] [S1 S2] Hd].
  split; [done|]. intros j Hj Hne. specialize (Hd j Hj).
  destruct (describes_reference _ _ _ _ Hd) as [Hm Hv]; [unfold column; by destruct obs|]. split_and!; [done | done|].
  intros H2. unfold var. rewrite Hn. destruct (Nat.ltb_spec 1 (length obs)); [|lia].
  rewrite (nth_indep _ _ (0 / (Qnat (length obs) - 1))%Q) by (rewrite length_map; unfold array_ok in S2; rewrite S2, S1; lia).
  rewrite (map_nth (fun v => v / (Qnat (length obs) - 1))%Q). by rewrite Hv.
Qed.

(** ** Filters *)

(** The observations in [x]: one, or the rows of a batch *)
Definition rows (shape : list nat) (x : ndarray) : list ndarray :=
  if (length (ashape x) =? length shape + 1)%nat then map (fun i => row i x) (seq 0 (hd 0%nat (ashape x))) else [x].

Definition observation (shape : list nat) (x : ndarray) : Prop :=
  array_ok x /\ (ashape x = shape \/ exists b, ashape x = b :: shape).

Lemma rows_fit shape x : observation shape x -> Forall (fits shape) (rows shape x).
Proof.
  intros [Hx [Hs|[b Hs]]]; unfold rows; rewrite Hs.
  - destruct (Nat.eqb_spec (length shape) (length shape + 1)); [lia|]. repeat constructor; done.
  - cbn [length hd]. destruct (Nat.eqb_spec (S (length shape)) (length shape + 1)); [|lia].
    apply List.Forall_map, list.Forall_forall. intros i Hi. apply elem_of_seq in Hi.
    unfold fits, row, array_ok in *. rewrite Hs in *. cbn [ashape adata tail]. split; [done|].
    rewrite length_take, length_drop, Hx. cbn [size_of foldr]. fold (size_of shape). nia.
Qed.

(** A filter of the shape that has seen [all] observations, [pending] of them
    since its buffer was cleared *)
Definition filter_of (shape : list nat) (all pending : list (list Q)) (f : MeanStdFilter) : Prop :=
  f_shape f = shape /\ stat_of shape all (rs f) /\ stat_of shape pending (buffer f).

Lemma push_both_of shape all pending f x :
  filter_of shape all pending f -> fits shape x ->
  exists f', push_both x f = Ok f' /\ filter_of shape (all ++ [adata x]) (pending ++ [adata x]) f'.
Proof.
  intros (Hs & Hr & Hb) Hx. unfold push_both.
  destruct (push_stat_of _ _ _ _ Hr Hx) as (r & -> & Hr'). cbn. destruct (push_stat_of _ _ _ _ Hb Hx) as (b & -> & Hb'). cbn.
  eexists. split; [reflexivity|]. by split_and!.
Qed.

Lemma observe_rows shape f x :
  ashape (_M (rs f)) = shape -> observe x f = foldM (fun f r => push_both r f) f (rows shape x).
Proof.
  intros <-. unfold observe, rows. destruct (_ =? _)%nat.
  - generalize (seq 0 (hd 0%nat (ashape x))). intros l. revert f. induction l as [|i l IH]; intros f; cbn [foldM map]; [done|].
    destruct (push_both (row i x) f); cbn; [apply IH | done].
  - cbn. by destruct (push_both x f).
Qed.

Lemma push_rows_of shape xs : forall all pending f,
  filter_of shape all pending f -> Forall (fits shape) xs ->
  exists f', foldM (fun f r => push_both r f) f xs = Ok f' /\
    filter_of shape (all ++ map adata xs) (pending ++ map adata xs) f'.
Proof.
  induction xs as [|x xs IH]; intros all pending f Hf Hx; cbn [foldM map]; [exists f; by rewrite !app_nil_r|].
  apply list.Forall_cons in Hx as [Hx Hxs]. destruct (push_both_of _ _ _ _ _ Hf Hx) as (f1 & -> & H1). cbn.
  destruct (IH _ _ _ H1 Hxs) as (f' & E & H'). exists f'. split; [done|]. by rewrite <- !app_assoc in H'.
Qed.

Lemma observe_of shape all pending f x :
  filter_of shape all pending f -> observation shape x ->
  exists f', observe x f = Ok f' /\
    filter_of shape (all ++ map adata (rows shape x)) (pending ++ map adata (rows shape x)) f'.
Proof.
  intros Hf Hx. pose proof Hf as (_ & [_ [HM _] _ _] & _). rewrite (observe_rows shape _ _ HM).
  apply push_rows_of; [done | by apply rows_fit].
Qed.

Lemma copy_id f : copy f = Ok f.
Proof. unfold copy, sync. cbn [f_shape new_filter]. rewrite bool_decide_true by done. by destruct f. Qed.

Lemma copies_id (w : filters) : mapM_r (fun kf => c ← copy kf.2; Ok (kf.1, c)) w = Ok w.
Proof.
  induction w as [|[k f] w IH]; [done|]. cbn [mapM_r]. rewrite IH. cbn [fst snd]. by rewrite copy_id.
Qed.

Lemma get_filters_run w : get_filters true w = Ok (w, flush w).
Proof. unfold get_filters. by rewrite copies_id. Qed.

(** A loop over the filters of a dict that keeps the keys *)
Lemma mapM_filters (F : string * MeanStdFilter -> result (string * MeanStdFilter)) (P : string -> MeanStdFilter -> MeanStdFilter -> Prop)
    (d : filters) :
  (forall k f, dget k d = Some f -> exists g, F (k, f) = Ok (k, g) /\ P k f g) -> dwf d ->
  exists d', mapM_r F d = Ok d' /\ dkeys d' = dkeys d /\
    forall k f, dget k d = Some f -> exists g, dget k d' = Some g /\ P k f g.
Proof.
  intros HF Hw. assert (HF' : forall k f, (k, f) ∈ d -> exists g, F (k, f) = Ok (k, g) /\ P k f g).
  { intros k f Hin. apply HF. by apply elem_dget. }
  clear HF Hw. induction d as [|[k f] d IH]; cbn [mapM_r]; [by exists []|].
  destruct (HF' k f) as (g & -> & Hg); [left|]. destruct IH as (d' & -> & Hk & Hd); [intros; apply HF'; by right|].
  cbn. exists ((k, g) :: d'). split; [done|]. split; [by rewrite !dkeys_cons, Hk|].
  intros k' f'. cbn. destruct (decide (k' = k)) as [->|]; [intros [= <-]; by exists g | apply Hd].
Qed.

(** ** Rollout workers *)

Section Workers.
Variable shape_of : string -> list nat.

(** A worker whose filters have seen [all], [pending] of it unreported *)
Definition worker_of (keys : list string) (all pending : string -> list (list Q)) (w : filters) : Prop :=
  dkeys w = keys /\ forall k f, dget k w = Some f -> filter_of (shape_of k) (all k) (pending k) f.

Definition none : string -> list (list Q) := fun _ => [].

Lemma flushed_of keys all pending w :
  worker_of keys all pending w -> worker_of keys all none (flush w).
Proof.
  intros [Hk Hw]. unfold flush. split; [unfold dkeys; rewrite map_map; exact Hk|].
  assert (Hg : forall k, dget k (map (fun kf => (kf.1, clear_buffer kf.2)) w) = clear_buffer <$> dget k w).
  { intros k. clear. induction w as [|[k' f] w IH]; cbn; [done|]. by destruct (decide (k = k')). }
  intros k f. rewrite Hg. destruct (dget k w) as [f0|] eqn:E; [|done]. cbn. intros [= <-].
  destruct (Hw k f0 E) as (Hs & Hr & _). split_and!; [done | done|]. cbn. rewrite Hs. apply new_stat_of.
Qed.

Lemma apply_remote_of keys all a p local rf :
  NoDup keys -> worker_of keys all none local -> worker_of keys a p rf ->
  exists local', apply_remote local rf = Ok local' /\ worker_of keys (fun k => all k ++ p k) none local'.
Proof.
  intros Hn [Hk Hl] [Hk' Hr]. unfold apply_remote.
  destruct (mapM_filters (fun kf => g ← dgetitem kf.1 rf; Ok (kf.1, apply_changes g false kf.2))
              (fun k _ g => filter_of (shape_of k) (all k ++ p k) [] g) local) as (l' & E & Hk2 & Hl').
  - intros k f Hf. cbn [fst snd]. assert (Hin : k ∈ dkeys rf) by (rewrite Hk', <- Hk; apply dget_is_Some; by eexists).
    apply dget_is_Some in Hin as [g Hg]. unfold dgetitem. rewrite Hg. cbn. eexists. split; [reflexivity|].
    destruct (Hl k f Hf) as (H1 & H2 & H3), (Hr k g Hg) as (G1 & G2 & G3). split_and!; [done | by apply update_stat_of | done].
  - unfold dwf. by rewrite Hk.
  - exists l'. split; [exact E|]. split; [by rewrite Hk2|]. intros k g Hg.
    assert (Hin : k ∈ dkeys local) by (rewrite <- Hk2; apply dget_is_Some; by eexists).
    apply dget_is_Some in Hin as [f Hf]. destruct (Hl' k f Hf) as (g' & Hg' & HP). assert (g' = g) as -> by congruence. exact HP.
Qed.

Lemma apply_remotes_of keys (remotes : list filters) (ps : list (string -> list (list Q))) : forall all local,
  NoDup keys -> worker_of keys all none local -> Forall2 (fun rf p => exists a, worker_of keys a p rf) remotes ps ->
  exists local', foldM apply_remote local remotes = Ok local' /\
    worker_of keys (fun k => all k ++ concat (map (fun p => p k) ps)) none local'.
Proof.
  revert ps. induction remotes as [|rf remotes IH]; intros ps all local Hn Hl Hr; cbn [foldM].
  - apply Forall2_nil_inv_l in Hr as ->. exists local. split; [done|]. split; [apply Hl|]. cbn. intros k f Hf.
    rewrite app_nil_r. by apply Hl.
  - apply Forall2_cons_inv_l in Hr as (p & ps' & [a Hp] & Hps & ->).
    destruct (apply_remote_of keys all a p local rf Hn Hl Hp) as (l1 & -> & H1). cbn [mbind result_bind].
    destruct (IH ps' _ l1 Hn H1 Hps) as (l' & E & Hk & H'). exists l'. split; [done|]. split; [done|].
    intros k f Hf. specialize (H' k f Hf). cbn. by rewrite <- app_assoc in H'.
Qed.

Lemma sync_filters_of keys all a p local w :
  NoDup keys -> worker_of keys all none local -> worker_of keys a p w ->
  exists w', sync_filters local w = Ok w' /\ worker_of keys all none w'.
Proof.
  intros Hn [Hk Hl] [Hk' Hw]. unfold sync_filters.
  assert (Hall : forallb (fun k => dmem k local) (dkeys w) = true).
  { apply forallb_forall. intros k Hin. apply dmem_true. rewrite Hk, <- Hk'. by apply list_elem_of_In. }
  rewrite Hall. cbn [py_assert mbind result_bind].
  destruct (mapM_filters (fun kf => g ← dgetitem kf.1 local; f ← sync g kf.2; Ok (kf.1, f))
              (fun k _ g => filter_of (shape_of k) (all k) [] g) w) as (w' & E & Hk2 & Hw').
  - intros k f Hf. cbn [fst snd]. assert (Hin : k ∈ dkeys local) by (rewrite Hk, <- Hk'; apply dget_is_Some; by eexists).
    apply dget_is_Some in Hin as [g Hg]. unfold dgetitem, sync. rewrite Hg. cbn [or_raise mbind result_bind].
    destruct (Hl k g Hg) as (G1 & G2 & G3), (Hw k f Hf) as (F1 & _ & _).
    rewrite bool_decide_true by congruence. cbn. eexists. split; [reflexivity|]. by split_and!.
  - unfold dwf. by rewrite Hk'.
  - exists w'. split; [exact E|]. split; [by rewrite Hk2|]. intros k g Hg.
    assert (Hin : k ∈ dkeys w) by (rewrite <- Hk2; apply dget_is_Some; by eexists).
    apply dget_is_Some in Hin as [f Hf]. destruct (Hw' k f Hf) as (g' & Hg' & HP). assert (g' = g) as -> by congruence. exact HP.
Qed.

(** The statistic holds the number, the mean and the sum of squared deviations
    of the observations. *)
Definition exact (shape : list nat) (obs : list (list Q)) (s : RunningStat) : Prop :=
  _n s = length obs /\
  forall j, (j < size_of shape)%nat -> obs <> [] ->
    (nth j (adata (_M s)) 0 == mean (column j obs))%Q /\ (nth j (adata (_S s)) 0 == squared_deviations (column j obs))%Q.

Lemma stat_of_perm shape obs obs' s : obs ≡ₚ obs' -> stat_of shape obs s -> stat_of shape obs' s.
Proof.
  intros HP [Hn HM HS Hd]. split; [by rewrite <- HP | done | done|]. intros j Hj.
  assert (Hc : column j obs ≡ₚ column j obs') by (unfold column; by apply Permutation_map).
  destruct (Hd j Hj) as (H1 & H2 & H3 & H4). split_and!; [by rewrite <- Hc | by rewrite <- Hc | | done].
  assert (Hs : (Qsum (map (fun x => x * x) (column j obs)) == Qsum (map (fun x => x * x) (column j obs')))%Q).
  { apply Qsum_Permutation. by apply Permutation_map. }
  by rewrite <- Hs, <- Hc.
Qed.

Lemma stat_of_exact shape obs s : stat_of shape obs s -> exact shape obs s.
Proof.
  intros [Hn _ _ Hd]. split; [done|]. intros j Hj Hne. apply (describes_reference _ _ _ _ (Hd j Hj)).
  unfold column. by destruct obs.
Qed.

Definition new_filters (keys : list string) : filters := map (fun k => (k, new_filter (shape_of k) true true None)) keys.

Lemma new_filters_of keys all : NoDup keys -> (forall k, all k = []) -> worker_of keys all none (new_filters keys).
Proof.
  intros Hn Ha. split; [unfold new_filters, dkeys; rewrite map_map; apply map_id|].
  intros k f Hf. apply dget_elem in Hf. unfold new_filters in Hf. apply list_elem_of_fmap in Hf as (k' & [= -> ->] & _).
  rewrite Ha. split_and!; [done | apply new_stat_of | apply new_stat_of].
Qed.

(** ** The tally

    What becomes of the observations: [collected] are in the local filters,
    [reported] are in a worker's reply that the manager has not taken, [pending]
    will be reported, [lost] will not. [current]: the manager has sent all that
    it collected to the workers. *)
Abbreviation observations := (string -> list (list Q)).

Record tally : Type := mkTally {
  collected : observations;
  reported : list observations;
  pending : list observations;
  lost : observations;
  current : bool
}.

Definition init_tally (n : nat) : tally := mkTally none (repeat none n) (repeat none n) none true.

Definition is_sync (c : call) : bool := match c with SyncFilters _ => true | GetFilters => false end.

(** The worker has run [get_filters], and will run the [sync_filters] of the same synchronization. *)
Definition between (s : option bool) (r : remote) : bool :=
  existsb is_sync (mailbox r) || match reply r, s with Some _, Some true => true | _, _ => false end.

Definition rows_of (key : string) (x : ndarray) : observations :=
  fun k => if decide (key = k) then map adata (rows (shape_of k) x) else [].

Definition tally_event (sys : filter_system) (t : tally) (e : filter_event) : tally :=
  match e with
  | Observe i key x =>
      match remotes sys !! i with
      | Some r =>
          if between (syncing sys) r
          then mkTally (collected t) (reported t) (pending t) (fun k => lost t k ++ rows_of key x k) (current t)
          else mkTally (collected t) (reported t) (alter (fun p k => p k ++ rows_of key x k) i (pending t)) (lost t) (current t)
      | None => t
      end
  | StartSynchronize _ => t
  | RunCall i =>
      match remotes sys !! i with
      | Some (mkRemote _ (GetFilters :: _) _) =>
          mkTally (collected t) (<[i := default none (pending t !! i)]> (reported t)) (<[i := none]> (pending t)) (lost t) (current t)
      | _ => t
      end
  | FinishSynchronize =>
      mkTally (fun k => collected t k ++ concat (map (fun p => p k) (reported t))) (map (fun _ => none) (reported t))
        (pending t) (lost t) (bool_decide (syncing sys = Some true))
  end.

Fixpoint run_events (es : list filter_event) (st : filter_system * tally) : option (result (filter_system * tally)) :=
  match es with
  | [] => Some (Ok st)
  | e :: es =>
      match do_filter_event e st.1 with
      | Some (Ok sys) => run_events es (sys, tally_event st.1 st.2 e)
      | Some (Err x) => Some (Err x)
      | None => None
      end
  end.

Definition event_ok (keys : list string) (e : filter_event) : Prop :=
  match e with Observe _ key x => key ∈ keys /\ observation (shape_of key) x | _ => True end.

(** All observations made under a key *)
Definition observed (k : string) (es : list filter_event) : list (list Q) :=
  concat (map (fun e => match e with Observe _ key x => rows_of key x k | _ => [] end) es).

(** ** The invariant *)

(** A worker that will report [pend], of which the manager has [rep] already *)
Definition idle_worker keys (cur : bool) (coll rep pend : observations) (w : filters) : Prop :=
  exists all, worker_of keys all pend w /\ (cur = true -> forall k, all k = coll k ++ rep k ++ pend k).

Definition some_worker keys (w : filters) : Prop := exists all buf, worker_of keys all buf w.

(** What is sent to the workers *)
Definition sent_copies keys (cur : bool) (coll : observations) (c : filters) : Prop :=
  exists all, worker_of keys all none c /\ (cur = true -> forall k, all k = coll k).

Inductive remote_ok keys (s : option bool) (cur : bool) (coll rep pend : observations) : remote -> Prop :=
| ro_idle w :
    s = None -> (forall k, rep k = []) -> idle_worker keys cur coll rep pend w ->
    remote_ok keys s cur coll rep pend (mkRemote w [] None)
| ro_sync w c :
    s = None -> (forall k, rep k = []) -> (forall k, pend k = []) -> some_worker keys w -> sent_copies keys cur coll c ->
    remote_ok keys s cur coll rep pend (mkRemote w [SyncFilters c] None)
| ro_get w u :
    s = Some u -> (forall k, rep k = []) -> idle_worker keys cur coll rep pend w ->
    remote_ok keys s cur coll rep pend (mkRemote w [GetFilters] None)
| ro_sync_get w c u :
    s = Some u -> (forall k, rep k = []) -> (forall k, pend k = []) -> some_worker keys w -> sent_copies keys cur coll c ->
    remote_ok keys s cur coll rep pend (mkRemote w [SyncFilters c; GetFilters] None)
| ro_reply_kept w rf :
    s = Some false -> (exists all, worker_of keys all rep rf) -> idle_worker keys cur coll rep pend w ->
    remote_ok keys s cur coll rep pend (mkRemote w [] (Some rf))
| ro_reply_synced w rf :
    s = Some true -> (exists all, worker_of keys all rep rf) -> (forall k, pend k = []) -> some_worker keys w ->
    remote_ok keys s cur coll rep pend (mkRemote w [] (Some rf)).

Record tallied keys (sys : filter_system) (t : tally) : Prop := mkTallied {
  ta_local : worker_of keys (collected t) none (local_filters sys);
  ta_reported : length (reported t) = length (remotes sys);
  ta_pending : length (pending t) = length (remotes sys);
  ta_remotes : forall i r rep pend, remotes sys !! i = Some r -> reported t !! i = Some rep -> pending t !! i = Some pend ->
    remote_ok keys (syncing sys) (current t) (collected t) rep pend r
}.

Lemma tallied_at keys sys t i r : tallied keys sys t -> remotes sys !! i = Some r ->
  exists rep pend, reported t !! i = Some rep /\ pending t !! i = Some pend /\
    remote_ok keys (syncing sys) (current t) (collected t) rep pend r.
Proof.
  intros [Hl Hr Hp Ho] Hi. pose proof (lookup_lt_Some _ _ _ Hi) as Hlt.
  destruct (lookup_lt_is_Some_2 (reported t) i) as [rep Er]; [lia|].
  destruct (lookup_lt_is_Some_2 (pending t) i) as [pend Ep]; [lia|]. eauto 6.
Qed.

Lemma worker_of_ext keys all all' buf buf' w :
  (forall k, all' k = all k) -> (forall k, buf' k = buf k) -> worker_of keys all buf w -> worker_of keys all' buf' w.
Proof. intros Ha Hb [Hk Hw]. split; [done|]. intros k f Hf. rewrite Ha, Hb. by apply Hw. Qed.

(** *** Observing *)

Lemma observe_worker_of keys all buf w key x :
  worker_of keys all buf w -> key ∈ keys -> observation (shape_of key) x ->
  exists f f', dget key w = Some f /\ observe x f = Ok f' /\
    worker_of keys (fun k => all k ++ rows_of key x k) (fun k => buf k ++ rows_of key x k) (dset key f' w).
Proof.
  intros [Hk Hw] Hkey Hx. assert (Hin : key ∈ dkeys w) by (by rewrite Hk). apply dget_is_Some in Hin as [f Hf].
  destruct (observe_of _ _ _ _ _ (Hw key f Hf) Hx) as (f' & E & Hf'). exists f, f'. split_and!; [done | done|]. split.
  - rewrite dkeys_dset, decide_True; [done|]. apply dget_is_Some. by eexists.
  - intros k g. rewrite dget_dset. unfold rows_of. destruct (decide (key = k)) as [<-|]; [by intros [= <-]|].
    rewrite !app_nil_r. apply Hw.
Qed.

Lemma observe_remote_ok keys s cur coll rep pend r key x :
  remote_ok keys s cur coll rep pend r -> key ∈ keys -> observation (shape_of key) x ->
  exists r', observe_remote key x r = Ok r' /\ mailbox r' = mailbox r /\ reply r' = reply r /\
    if between s r then remote_ok keys s cur coll rep pend r'
    else remote_ok keys s cur coll rep (fun k => pend k ++ rows_of key x k) r'.
Proof.
  intros Hr Hkey Hx. unfold observe_remote, dgetitem.
  assert (Hidle : forall w, idle_worker keys cur coll rep pend w -> exists f f', dget key w = Some f /\ observe x f = Ok f' /\
            idle_worker keys cur coll rep (fun k => pend k ++ rows_of key x k) (dset key f' w)).
  { intros w (all & Hw & Hc). destruct (observe_worker_of keys all pend w key x Hw Hkey Hx) as (f & f' & E1 & E2 & H).
    exists f, f'. split_and!; [done | done|]. eexists. split; [exact H|]. intros Hcur k. cbn. by rewrite (Hc Hcur), <- !app_assoc. }
  assert (Hsome : forall w, some_worker keys w -> exists f f', dget key w = Some f /\ observe x f = Ok f' /\
            some_worker keys (dset key f' w)).
  { intros w (all & buf & Hw). destruct (observe_worker_of keys all buf w key x Hw Hkey Hx) as (f & f' & E1 & E2 & H).
    exists f, f'. split_and!; [done | done|]. by eexists _, _. }
  destruct Hr as [w -> Hn Hw | w c -> Hn1 Hn2 Hw Hc | w u -> Hn Hw | w c u -> Hn1 Hn2 Hw Hc | w rf -> Hrf Hw | w rf -> Hrf Hn Hw];
    cbn [r_filters mailbox reply between existsb is_sync orb].
  - destruct (Hidle w Hw) as (f & f' & -> & E & H). cbn. rewrite E. cbn. eexists. split_and!; [done | done | done|]. by apply ro_idle.
  - destruct (Hsome w Hw) as (f & f' & -> & E & H). cbn. rewrite E. cbn. eexists. split_and!; [done | done | done|]. by apply ro_sync.
  - destruct (Hidle w Hw) as (f & f' & -> & E & H). cbn. rewrite E. cbn. eexists. split_and!; [done | done | done|]. by eapply ro_get.
  - destruct (Hsome w Hw) as (f & f' & -> & E & H). cbn. rewrite E. cbn. eexists. split_and!; [done | done | done|]. by eapply ro_sync_get.
  - destruct (Hidle w Hw) as (f & f' & -> & E & H). cbn. rewrite E. cbn. eexists. split_and!; [done | done | done|]. by apply ro_reply_kept.
  - destruct (Hsome w Hw) as (f & f' & -> & E & H). cbn. rewrite E. cbn. eexists. split_and!; [done | done | done|]. by apply ro_reply_synced.
Qed.

(** *** Calls *)

Lemma flush_idle keys cur coll rep pend w :
  (forall k, rep k = []) -> idle_worker keys cur coll rep pend w -> idle_worker keys cur coll pend none (flush w).
Proof.
  intros Hn (all & Hw & Hc). exists all. split; [by eapply flushed_of|]. intros Hcur k. rewrite (Hc Hcur), Hn. by rewrite app_nil_r.
Qed.

Lemma sync_copies keys cur coll rep pend c w :
  NoDup keys -> (forall k, rep k = []) -> (forall k, pend k = []) -> some_worker keys w -> sent_copies keys cur coll c ->
  exists w', sync_filters c w = Ok w' /\ idle_worker keys cur coll rep pend w'.
Proof.
  intros Hnd Hn1 Hn2 (all & buf & Hw) (b & Hb & Hc). destruct (sync_filters_of keys b all buf c w Hnd Hb Hw) as (w' & E & H).
  exists w'. split; [done|]. exists b. split; [by eapply worker_of_ext; [| |exact H]|]. intros Hcur k. by rewrite Hn1, Hn2, !app_nil_r, (Hc Hcur).
Qed.

Lemma run_call_ok keys s cur coll rep pend r :
  NoDup keys -> remote_ok keys s cur coll rep pend r ->
  match mailbox r with
  | [] => run_call r = None
  | GetFilters :: _ => exists r', run_call r = Some (Ok r') /\ (forall k, rep k = []) /\ mailbox r' = tail (mailbox r) /\
      remote_ok keys s cur coll pend none r'
  | SyncFilters _ :: _ => exists r', run_call r = Some (Ok r') /\ mailbox r' = tail (mailbox r) /\ remote_ok keys s cur coll rep pend r'
  end.
Proof.
  intros Hnd Hr.
  destruct Hr as [w -> Hn Hw | w c -> Hn1 Hn2 Hw Hc | w u -> Hn Hw | w c u -> Hn1 Hn2 Hw Hc | w rf -> Hrf Hw | w rf -> Hrf Hn Hw];
    cbn [mailbox run_call r_filters reply]; try done.
  - destruct (sync_copies keys cur coll rep pend c w Hnd Hn1 Hn2 Hw Hc) as (w' & -> & H). cbn.
    eexists. split_and!; [done | done|]. by apply ro_idle.
  - unfold run_call. cbn [mailbox r_filters]. rewrite get_filters_run. cbn. eexists. split_and!; [done | done | done|].
    pose proof (flush_idle _ _ _ _ _ _ Hn Hw) as Hf. destruct Hw as (all & Hw & _).
    destruct u; [|by apply ro_reply_kept; [| exists all|]]. apply ro_reply_synced; [done | by exists all | done|].
    destruct Hf as (a & Ha & _). by exists a, none.
  - destruct (sync_copies keys cur coll rep pend c w Hnd Hn1 Hn2 Hw Hc) as (w' & -> & H). cbn.
    eexists. split_and!; [done | done|]. by eapply ro_get.
Qed.

(** *** Every observation is accounted for once *)

Definition under (k : string) (l : list observations) : list (list Q) := concat (map (fun p => p k) l).

Definition accounted (t : tally) (k : string) : list (list Q) :=
  collected t k ++ under k (reported t) ++ under k (pending t) ++ lost t k.

Lemma under_insert k (l : list observations) : forall i p q, l !! i = Some p -> under k (<[i := q]> l) ++ p k ≡ₚ under k l ++ q k.
Proof.
  unfold under. induction l as [|a l IH]; intros [|i] p q Hi; cbn in Hi; try done.
  - injection Hi as ->. cbn. solve_Permutation.
  - cbn. rewrite <- !app_assoc. by rewrite (IH i p q Hi).
Qed.

Lemma alter_insert {A} (f : A -> A) (l : list A) : forall i x, l !! i = Some x -> alter f i l = <[i := f x]> l.
Proof. induction l as [|a l IH]; intros [|i] x Hi; cbn in Hi; try done; [by injection Hi as ->|]. cbn. f_equal. by apply IH. Qed.

Lemma under_alter k (l : list observations) i p new : l !! i = Some p ->
  under k (alter (fun p k => p k ++ new k) i l) ≡ₚ under k l ++ new k.
Proof.
  intros Hi. rewrite (alter_insert _ l i p Hi).
  pose proof (under_insert k l i p (fun k => p k ++ new k) Hi) as H. apply (Permutation_app_inv_r (p k)). rewrite H. solve_Permutation.
Qed.

Lemma under_none k {A} (l : list A) : under k (map (fun _ => none) l) = [].
Proof. unfold under. induction l; done. Qed.

Lemma tallied_insert keys sys t i r rep pend r' t' :
  tallied keys sys t -> remotes sys !! i = Some r -> collected t' = collected t -> current t' = current t ->
  reported t' = <[i := rep]> (reported t) -> pending t' = <[i := pend]> (pending t) ->
  remote_ok keys (syncing sys) (current t) (collected t) rep pend r' ->
  tallied keys (mkFilterSystem (local_filters sys) (<[i := r']> (remotes sys)) (syncing sys)) t'.
Proof.
  intros [Hl Hr Hp Ho] Hi E1 E2 E3 E4 Hn. pose proof (lookup_lt_Some _ _ _ Hi) as Hlt. split; cbn.
  - by rewrite E1.
  - by rewrite E3, !length_insert.
  - by rewrite E4, !length_insert.
  - intros j x a b. rewrite E1, E2, E3, E4. destruct (decide (j = i)) as [->|Hne].
    + rewrite !list_lookup_insert_eq by lia. by intros [= <-] [= <-] [= <-].
    + rewrite !list_lookup_insert_ne by done. apply Ho.
Qed.

Definition step_ok keys sys t e : Prop :=
  match do_filter_event e sys with
  | Some (Ok sys') => tallied keys sys' (tally_event sys t e) /\ length (remotes sys') = length (remotes sys) /\
      forall k, accounted (tally_event sys t e) k ≡ₚ accounted t k ++ observed k [e]
  | Some (Err _) => False
  | None => True
  end.

Lemma observed_one k i key x : observed k [Observe i key x] = rows_of key x k.
Proof. unfold observed. cbn. by rewrite app_nil_r. Qed.

Lemma observe_step keys sys t i key x :
  tallied keys sys t -> key ∈ keys -> observation (shape_of key) x -> step_ok keys sys t (Observe i key x).
Proof.
  intros Ht Hkey Hx. unfold step_ok. cbn [do_filter_event tally_event]. unfold on_remote.
  destruct (remotes sys !! i) as [r|] eqn:Hi; [|done]. destruct (tallied_at keys sys t i r Ht Hi) as (rep & pend & Er & Ep & Hr).
  destruct (observe_remote_ok _ _ _ _ _ _ _ _ _ Hr Hkey Hx) as (r' & -> & _ & _ & Hr').
  split; [|split; [by cbn; rewrite length_insert|]].
  - destruct (between (syncing sys) r).
    + apply (tallied_insert keys sys t i r rep pend); cbn; try done; by rewrite list_insert_id.
    + apply (tallied_insert keys sys t i r rep (fun k => pend k ++ rows_of key x k)); cbn; try done; [by rewrite list_insert_id|].
      by rewrite (alter_insert _ _ i pend Ep).
  - intros k. rewrite observed_one. unfold accounted. destruct (between (syncing sys) r); cbn.
    + by rewrite <- !app_assoc.
    + rewrite (under_alter k (pending t) i pend (rows_of key x) Ep). solve_Permutation.
Qed.

Lemma start_step keys sys t u : tallied keys sys t -> step_ok keys sys t (StartSynchronize u).
Proof.
  intros [Hl Hr Hp Ho]. unfold step_ok. cbn [do_filter_event tally_event]. unfold start_synchronize.
  destruct (syncing sys) as [?|] eqn:Es; [done|]. cbn. split; [|split; [by rewrite length_map | intros k; by rewrite app_nil_r]].
  split; cbn; [done | by rewrite length_map | by rewrite length_map |].
  intros i r rep pend Hi Er Ep. change (map (send GetFilters) (remotes sys)) with (send GetFilters <$> remotes sys) in Hi.
  rewrite list_lookup_fmap in Hi. destruct (remotes sys !! i) as [r0|] eqn:Ei; [|done]. injection Hi as <-.
  destruct (Ho i r0 rep pend Ei Er Ep) as [w E Hn Hw | w c E Hn1 Hn2 Hw Hc | w v E | w c v E | w rf E | w rf E]; try done;
    unfold send; cbn.
  - by eapply ro_get.
  - by eapply ro_sync_get.
Qed.

Lemma call_step keys sys t i : NoDup keys -> tallied keys sys t -> step_ok keys sys t (RunCall i).
Proof.
  intros Hnd Ht. unfold step_ok. cbn [do_filter_event tally_event]. unfold on_remote.
  destruct (remotes sys !! i) as [r|] eqn:Hi; [|done]. destruct (tallied_at keys sys t i r Ht Hi) as (rep & pend & Er & Ep & Hr).
  pose proof (run_call_ok _ _ _ _ _ _ _ Hnd Hr) as Hc. destruct r as [w mb rp]. cbn [mailbox] in Hc.
  destruct mb as [|[|c] mb]; [by rewrite Hc | |].
  - destruct Hc as (r' & -> & Hn & _ & Hr'). split; [|split; [by cbn; rewrite length_insert|]].
    + rewrite Ep. by apply (tallied_insert keys sys t i (mkRemote w (GetFilters :: mb) rp) pend none).
    + intros k. unfold accounted, observed. cbn. rewrite Ep. cbn.
      pose proof (under_insert k _ i rep pend Er) as H1. rewrite Hn, app_nil_r in H1.
      pose proof (under_insert k _ i pend none Ep) as H2. unfold none in H2 at 2. rewrite app_nil_r in H2.
      rewrite H1, <- H2. solve_Permutation.
  - destruct Hc as (r' & -> & _ & Hr'). split; [|split; [by cbn; rewrite length_insert|]].
    + apply (tallied_insert keys sys t i (mkRemote w (SyncFilters c :: mb) rp) rep pend); try done; by rewrite list_insert_id.
    + intros k. unfold observed. cbn. by rewrite app_nil_r.
Qed.

(** The replies are what the workers reported. *)
Lemma replies_of keys sys t rfs :
  tallied keys sys t -> mapM reply (remotes sys) = Some rfs ->
  Forall2 (fun rf p => exists a, worker_of keys a p rf) rfs (reported t).
Proof.
  intros Ht Hm. apply mapM_Some in Hm. pose proof (list.Forall2_length _ _ _ Hm) as Hlen. apply list.Forall2_same_length_lookup_2.
  - rewrite <- Hlen. symmetry. apply (ta_reported _ _ _ Ht).
  - intros i rf rep Hrf Er. destruct (Forall2_lookup_r _ _ _ _ _ Hm Hrf) as (r & Hi & Hreply).
    destruct (tallied_at keys sys t i r Ht Hi) as (rep' & pend & Er' & _ & Hr). assert (rep' = rep) as -> by congruence.
    destruct Hr; cbn in Hreply; try done; injection Hreply as ->; done.
Qed.

Lemma taken_ok keys s u cur coll rep pend cur' coll' rep' r rf local' :
  remote_ok keys s cur coll rep pend r -> s = Some u -> reply r = Some rf -> (forall k, rep' k = []) ->
  cur' = u -> worker_of keys coll' none local' ->
  remote_ok keys None cur' coll' rep' pend
    (if u then send (SyncFilters local') (mkRemote (r_filters r) (mailbox r) None) else mkRemote (r_filters r) (mailbox r) None).
Proof.
  intros Hr Es Hrf Hn -> Hl. destruct Hr as [| | | | w rf' E Hx Hw | w rf' E Hx Hp Hw]; cbn in Hrf; try done;
    rewrite Es in E; injection E as ->; unfold send; cbn.
  - apply ro_idle; [done | done|]. destruct Hw as (all & Hw & _). by exists all.
  - apply ro_sync; [done | done | done | done|]. exists coll'. done.
Qed.

Lemma finish_step keys sys t : NoDup keys -> tallied keys sys t -> step_ok keys sys t FinishSynchronize.
Proof.
  intros Hnd Ht. unfold step_ok. cbn [do_filter_event tally_event]. unfold finish_synchronize.
  destruct (syncing sys) as [u|] eqn:Es; [|done]. destruct (mapM reply (remotes sys)) as [rfs|] eqn:Em; [|done].
  pose proof (replies_of keys sys t rfs Ht Em) as Hrf. pose proof Ht as [Hl Hr Hp Ho].
  destruct (apply_remotes_of keys rfs (reported t) (collected t) (local_filters sys) Hnd Hl Hrf) as (l' & -> & Hl').
  cbn [mbind result_bind]. rewrite copies_id. cbn [mbind result_bind].
  set (new := if u then _ else _).
  assert (Hnew : exists rs', new = Ok (mkFilterSystem l' rs' None) /\ length rs' = length (remotes sys) /\
    forall i x, rs' !! i = Some x -> exists r, remotes sys !! i = Some r /\
      x = if u then send (SyncFilters l') (mkRemote (r_filters r) (mailbox r) None) else mkRemote (r_filters r) (mailbox r) None).
  { set (take_reply := fun r => mkRemote (r_filters r) (mailbox r) None) in *.
    unfold new. destruct u; eexists; (split; [reflexivity|]); (split; [by rewrite ?length_map|]); intros i x Hx.
    - rewrite map_map in Hx. change (map ?f (remotes sys)) with (f <$> remotes sys) in Hx. rewrite list_lookup_fmap in Hx.
      destruct (remotes sys !! i) as [r|]; [|done]. injection Hx as <-. eauto.
    - change (map take_reply (remotes sys)) with (take_reply <$> remotes sys) in Hx. rewrite list_lookup_fmap in Hx.
      destruct (remotes sys !! i) as [r|]; [|done]. injection Hx as <-. eauto. }
  destruct Hnew as (rs' & -> & Hlen & Hrs). split; [|split; [done|]].
  - split; cbn; [exact Hl' | by rewrite length_map, Hr | by rewrite Hp|].
    intros i x rep pend Hi Er Ep. destruct (Hrs i x Hi) as (r & Ei & ->).
    change (map (fun _ => none) (reported t)) with ((fun _ : observations => none) <$> reported t) in Er.
    rewrite list_lookup_fmap in Er. destruct (reported t !! i) as [rep0|] eqn:Er0; [|done]. injection Er as <-.
    apply mapM_Some in Em. destruct (Forall2_lookup_l _ _ _ _ _ Em Ei) as (rf & _ & Hreply).
    eapply (taken_ok keys _ u _ _ _ _ _ _ _ r rf l'); [by apply (Ho i r rep0 pend Ei Er0 Ep) | done | done | done | | exact Hl'].
    destruct u; [by rewrite bool_decide_true | by rewrite bool_decide_false].
  - intros k. unfold accounted, observed. cbn [collected reported pending lost]. rewrite under_none.
    change (concat (map _ [FinishSynchronize])) with (@nil (list Q)). rewrite app_nil_r. cbn [app]. unfold under. by rewrite <- !app_assoc.
Qed.

Lemma event_step keys sys t e : NoDup keys -> tallied keys sys t -> event_ok keys e -> step_ok keys sys t e.
Proof.
  intros Hnd Ht He. destruct e as [i key x|u|i|]; [|by apply start_step | by apply call_step | by apply finish_step].
  destruct He. by apply observe_step.
Qed.

Lemma observed_cons k e es : observed k (e :: es) = observed k [e] ++ observed k es.
Proof. unfold observed. cbn. by rewrite app_nil_r. Qed.

Lemma run_tallied keys es : forall sys t, NoDup keys -> tallied keys sys t -> Forall (event_ok keys) es ->
  match run_events es (sys, t) with
  | Some (Ok (sys', t')) => tallied keys sys' t' /\ length (remotes sys') = length (remotes sys) /\
      forall k, accounted t' k ≡ₚ accounted t k ++ observed k es
  | Some (Err _) => False
  | None => True
  end.
Proof.
  induction es as [|e es IH]; intros sys t Hnd Ht He; cbn [run_events fst snd].
  - split; [done|]. split; [done|]. intros k. unfold observed. cbn. by rewrite app_nil_r.
  - apply list.Forall_cons in He as [He Hes]. pose proof (event_step keys sys t e Hnd Ht He) as Hs. unfold step_ok in Hs.
    destruct (do_filter_event e sys) as [[sys1|]|]; [|done|done]. destruct Hs as (Ht1 & Hl1 & Ha1).
    specialize (IH sys1 _ Hnd Ht1 Hes). destruct (run_events es _) as [[[sys' t']|]|]; [|done|done].
    destruct IH as (Ht' & Hl' & Ha'). split; [done|]. split; [lia|]. intros k.
    rewrite (observed_cons k e es), Ha', Ha1. by rewrite app_assoc.
Qed.

(** *** Completing a synchronization *)

(** No call is under way. *)
Definition quiescent (sys : filter_system) : Prop :=
  syncing sys = None /\ Forall (fun r => mailbox r = []) (remotes sys).

Definition calls_left (sys : filter_system) : nat := foldr (fun r n => length (mailbox r) + n)%nat 0%nat (remotes sys).

Lemma calls_insert (l : list remote) : forall i r r', l !! i = Some r -> length (mailbox r) = S (length (mailbox r')) ->
  foldr (fun r n => length (mailbox r) + n)%nat 0%nat l = S (foldr (fun r n => length (mailbox r) + n)%nat 0%nat (<[i := r']> l)).
Proof.
  induction l as [|a l IH]; intros [|i] r r' Hi Hr; cbn in *; try done.
  - injection Hi as ->. lia.
  - pose proof (IH i r r' Hi Hr) as H. unfold insert in *. lia.
Qed.

Definition is_call (e : filter_event) : Prop := match e with RunCall _ | FinishSynchronize => True | _ => False end.

(** The workers run all calls in their mailboxes. *)
Lemma run_calls keys n : forall sys t, NoDup keys -> tallied keys sys t -> calls_left sys = n ->
  exists es sys' t', Forall is_call es /\ run_events es (sys, t) = Some (Ok (sys', t')) /\ tallied keys sys' t' /\
    syncing sys' = syncing sys /\ Forall (fun r => mailbox r = []) (remotes sys') /\ lost t' = lost t.
Proof.
  induction n as [|n IH]; intros sys t Hnd Ht Hn.
  - exists [], sys, t. split_and!; try done. unfold calls_left in Hn. clear Ht. induction (remotes sys) as [|r l IHl]; [constructor|].
    cbn in Hn. constructor; [by destruct (mailbox r) | apply IHl; lia].
  - assert (exists i r, remotes sys !! i = Some r /\ mailbox r <> []) as (i & r & Hi & Hne).
    { unfold calls_left in Hn. clear Ht. induction (remotes sys) as [|r l IHl]; [done|]. cbn in Hn.
      destruct (mailbox r) as [|c mb] eqn:E; [|exists 0%nat, r; by rewrite E]. destruct IHl as (i & r' & H1 & H2); [done|]. by exists (S i), r'. }
    pose proof (call_step keys sys t i Hnd Ht) as Hs. unfold step_ok in Hs. cbn [do_filter_event] in Hs.
    destruct (tallied_at keys sys t i r Ht Hi) as (rep & pend & _ & _ & Hr).
    assert (exists r', run_call r = Some (Ok r') /\ mailbox r' = tail (mailbox r)) as (r' & Hrun & Hmb).
    { pose proof (run_call_ok _ _ _ _ _ _ _ Hnd Hr) as Hc. destruct (mailbox r) as [|[|c] mb]; [done | |].
      - destruct Hc as (r' & H1 & _ & H2 & _). eauto.
      - destruct Hc as (r' & H1 & H2 & _). eauto. }
    assert (do_filter_event (RunCall i) sys = Some (Ok (mkFilterSystem (local_filters sys) (<[i := r']> (remotes sys)) (syncing sys)))) as Hdo.
    { cbn. unfold on_remote. by rewrite Hi, Hrun. }
    cbn [do_filter_event] in Hdo. rewrite Hdo in Hs. destruct Hs as (Ht1 & _ & _).
    destruct (IH _ _ Hnd Ht1) as (es & sys' & t' & H1 & H2 & H3 & H4 & H5 & H6).
    { unfold calls_left in *. cbn. rewrite (calls_insert _ i r r' Hi) in Hn; [lia|]. rewrite Hmb. by destruct (mailbox r). }
    exists (RunCall i :: es), sys', t'. split_and!; [by constructor | | done | done | done |].
    + cbn [run_events fst snd do_filter_event]. by rewrite Hdo.
    + rewrite H6. cbn. rewrite Hi. by destruct r as [w [|[] mb] rp].
Qed.

Lemma run_app es1 : forall es2 st st', run_events es1 st = Some (Ok st') -> run_events (es1 ++ es2) st = run_events es2 st'.
Proof.
  induction es1 as [|e es1 IH]; intros es2 st st' E; cbn [run_events app] in *; [by injection E as <-|].
  destruct (do_filter_event e st.1) as [[sys|]|]; [|done|done]. by apply IH.
Qed.

Lemma completes keys sys t : NoDup keys -> tallied keys sys t ->
  exists es sys' t', Forall is_call es /\ run_events es (sys, t) = Some (Ok (sys', t')) /\ quiescent sys' /\ lost t' = lost t.
Proof.
  intros Hnd Ht. destruct (run_calls keys _ sys t Hnd Ht eq_refl) as (es1 & sys1 & t1 & C1 & E1 & Ht1 & S1 & M1 & L1).
  destruct (syncing sys) as [u|] eqn:Es; [|exists es1, sys1, t1; by split_and!].
  assert (exists rfs, mapM reply (remotes sys1) = Some rfs) as [rfs Em].
  { destruct Ht1 as [_ Hr Hp Ho]. rewrite S1 in Ho. apply mapM_is_Some. apply list.Forall_forall. intros r Hin.
    apply list_elem_of_lookup in Hin as [i Hi]. rewrite list.Forall_lookup in M1. pose proof (M1 i r Hi) as Hm.
    pose proof (lookup_lt_Some _ _ _ Hi). destruct (lookup_lt_is_Some_2 (reported t1) i) as [rep Er]; [lia|].
    destruct (lookup_lt_is_Some_2 (pending t1) i) as [pend Ep]; [lia|].
    destruct (Ho i r rep pend Hi Er Ep); cbn in Hm |- *; by eauto. }
  pose proof (finish_step keys sys1 t1 Hnd Ht1) as Hs. unfold step_ok in Hs. cbn [do_filter_event] in Hs.
  destruct (finish_synchronize sys1) as [[sys2|]|] eqn:Ef; [|done | by unfold finish_synchronize in Ef; rewrite S1, Em in Ef].
  destruct Hs as (Ht2 & _ & _). assert (syncing sys2 = None) as S2.
  { unfold finish_synchronize in Ef. rewrite S1, Em in Ef. destruct (foldM apply_remote _ _) as [l'|]; [|done]. cbn in Ef.
    destruct u; [rewrite copies_id in Ef|]; by injection Ef as <-. }
  destruct (run_calls keys _ sys2 _ Hnd Ht2 eq_refl) as (es3 & sys3 & t3 & C3 & E3 & Ht3 & S3 & M3 & L3).
  exists (es1 ++ FinishSynchronize :: es3), sys3, t3. split_and!.
  - apply list.Forall_app. split; [done|]. by constructor.
  - rewrite (run_app es1 _ _ _ E1). cbn [run_events fst snd do_filter_event]. by rewrite Ef.
  - split; [congruence | done].
  - rewrite L3. cbn. exact L1.
Qed.

(** *** Exact statistics *)

Definition init_filter_system (keys : list string) (n : nat) : filter_system :=
  mkFilterSystem (new_filters keys) (repeat (mkRemote (new_filters keys) [] None) n) None.

Lemma init_tallied keys n : NoDup keys -> tallied keys (init_filter_system keys n) (init_tally n).
Proof.
  intros Hnd. split; cbn; [by apply new_filters_of | by rewrite !repeat_length | by rewrite !repeat_length|].
  intros i r rep pend Hi Er Ep. apply list_elem_of_lookup_2, list_elem_of_In, repeat_spec in Hi, Er, Ep. subst.
  apply ro_idle; [done | done|]. exists none. split; [by apply new_filters_of | done].
Qed.

(** C27. The filters of the workers are synchronized by asynchronous calls,
    between which the workers go on observing. Whatever the remote workers
    observe and whenever synchronizations run (the local worker does not
    observe itself), no call raises, and every observation is accounted for
    exactly once: it is in the local filters, in a reply, pending in its
    worker, or lost, and it is lost exactly when its worker makes it between
    its own [get_filters] and the [sync_filters] of the same synchronization.
    The local filters hold the exact statistics of what was collected. When no
    call is under way, every worker's buffer holds exactly what is pending, and
    after a synchronization with [update_remote] its statistics are those of
    what was collected and what it has pending. The calls under way can always
    be completed, without losing anything more. *)
Theorem synchronized_filters_exact (keys : list string) (n : nat) (es : list filter_event) :
  NoDup keys -> Forall (event_ok keys) es ->
  match run_events es (init_filter_system keys n, init_tally n) with
  | Some (Ok (sys, t)) =>
      (forall k, observed k es ≡ₚ collected t k ++ under k (reported t) ++ under k (pending t) ++ lost t k) /\
      (forall k f, dget k (local_filters sys) = Some f ->
         exact (shape_of k) (collected t k) (rs f) /\ exact (shape_of k) [] (buffer f)) /\
      (quiescent sys -> forall i r p, remotes sys !! i = Some r -> pending t !! i = Some p ->
         dkeys (r_filters r) = keys /\ (forall k, under k (reported t) = []) /\
         forall k f, dget k (r_filters r) = Some f ->
           exact (shape_of k) (p k) (buffer f) /\
           (current t = true -> exact (shape_of k) (collected t k ++ p k) (rs f))) /\
      (exists es' sys' t', Forall is_call es' /\ run_events es' (sys, t) = Some (Ok (sys', t')) /\ quiescent sys' /\ lost t' = lost t)
  | Some (Err _) => False
  | None => True
  end.
Proof.
  intros Hnd He. pose proof (run_tallied keys es _ _ Hnd (init_tallied keys n Hnd) He) as H.
  destruct (run_events es _) as [[[sys t]|]|]; [|done|done]. destruct H as (Ht & _ & Ha). pose proof Ht as [Hl Hr Hp Ho].
  split_and!.
  - intros k. pose proof (Ha k) as Hk. unfold accounted in Hk at 2. cbn [collected reported pending lost init_tally] in Hk.
    assert (Hz : under k (repeat none n) = []) by (unfold under; clear; induction n; done).
    rewrite Hz in Hk. unfold none in Hk. cbn [app] in Hk. symmetry. exact Hk.
  - intros k f Hf. destruct Hl as [_ Hl]. destruct (Hl k f Hf) as (_ & H1 & H2). split; by apply stat_of_exact.
  - intros [Hs Hm] i r p Hi Ep. destruct (tallied_at keys sys t i r Ht Hi) as (rep & pend & Er & Ep' & Hro).
    rewrite list.Forall_lookup in Hm. assert (Hrep0 : forall j rep, reported t !! j = Some rep -> forall k, rep k = []).
    { intros j rep' Er'. destruct (lookup_lt_is_Some_2 (remotes sys) j) as [rj Hj]; [pose proof (lookup_lt_Some _ _ _ Er'); lia|].
      destruct (tallied_at keys sys t j rj Ht Hj) as (rep2 & pend2 & E1 & E2 & Hrj). assert (rep2 = rep') as -> by congruence.
      rewrite Hs in Hrj. pose proof (Hm j rj Hj) as Hmj. destruct Hrj; done. }
    assert (pend = p) as -> by congruence. rewrite Hs in Hro. pose proof (Hm i r Hi) as Hmi.
    destruct Hro as [w E Hn (all & [Hk Hw] & Hc) | | | | w rf E | w rf E]; try done. cbn [r_filters]. split_and!; [done | |].
    + intros k. unfold under. clear -Hrep0. induction (reported t) as [|a l IH]; [done|]. cbn. rewrite (Hrep0 0%nat a eq_refl k).
      apply IH. intros j. by apply (Hrep0 (S j)).
    + intros k f Hf. destruct (Hw k f Hf) as (_ & H1 & H2). split; [by apply stat_of_exact|]. intros Hcur.
      rewrite (Hc Hcur k), (Hn k) in H1. by apply stat_of_exact.
  - by apply (completes keys).
Qed.

End Workers.

(** ** Examples *)

Definition scalar (q : Q) : ndarray := mkArray [] [q].
Definition ex_chunks : list (list ndarray) := [[scalar 1; scalar 2]; []; [scalar 6]].

Lemma running_stat_equals_two_pass_witness :
  exists stats, mapM_r (fun c => foldM (fun s x => push x s) (new_stat []) c) ex_chunks = Ok stats /\
    let s := foldl (fun s other => update other s) (new_stat []) stats in
    let obs := map adata (concat ex_chunks) in
    _n s = length obs /\
    forall j, (j < size_of [])%nat -> obs <> [] ->
      (nth j (adata (_M s)) 0 == mean (column j obs))%Q /\
      (nth j (adata (_S s)) 0 == squared_deviations (column j obs))%Q /\
      ((2 <= length obs)%nat -> (nth j (var s) 0 == squared_deviations (column j obs) / (Qnat (length obs) - 1))%Q).
Proof. apply (running_stat_equals_two_pass [] ex_chunks). repeat constructor. Defined.

Example two_chunks :
  match mapM_r (fun c => foldM (fun s x => push x s) (new_stat []) c) ex_chunks with
  | Ok stats => map Qred (adata (_M (foldl (fun s other => update other s) (new_stat []) stats))) = [3%Q]
  | Err _ => False
  end.
Proof. vm_compute. reflexivity. Qed.

Definition ex_shape (_ : string) : list nat := [].

(** Two workers, one of which observes a batch. The second synchronization
    starts while the first worker has not run the [sync_filters] of the first;
    it then observes 5 between its [get_filters] and its [sync_filters]. *)
Definition ex_filter_events : list filter_event :=
  [Observe 0 "p" (scalar 1); StartSynchronize true; RunCall 0; RunCall 1; FinishSynchronize; RunCall 1;
   Observe 1 "p" (mkArray [2%nat] [2; 3]%Q); StartSynchronize true; RunCall 0; Observe 0 "p" (scalar 4); RunCall 0;
   Observe 0 "p" (scalar 5); RunCall 1; FinishSynchronize; RunCall 0; RunCall 1; Observe 1 "p" (scalar 6)].

Lemma synchronized_filters_exact_witness :
  match run_events ex_shape ex_filter_events (init_filter_system ex_shape ["p"] 2, init_tally 2) with
  | Some (Ok (sys, t)) =>
      (collected t "p" = [[1]; [4]; [2]; [3]] /\ lost t "p" = [[5]] /\ under "p" (pending t) = [[6]])%Q /\
      forall k f, dget k (local_filters sys) = Some f -> exact (ex_shape k) (collected t k) (rs f)
  | _ => False
  end.
Proof.
  pose proof (synchronized_filters_exact ex_shape ["p"] 2 ex_filter_events) as H.
  assert (match run_events ex_shape ex_filter_events (init_filter_system ex_shape ["p"] 2, init_tally 2) with
          | Some (Ok (sys, t)) => (collected t "p", lost t "p", under "p" (pending t)) | _ => ([], [], []) end =
          ([[1]; [4]; [2]; [3]], [[5]], [[6]])%Q) as E by (vm_compute; reflexivity).
  destruct (run_events ex_shape ex_filter_events _) as [[[sys t]|e]|]; [|discriminate E ..]. injection E as E1 E2 E3.
  split; [split_and!; [exact E1 | exact E2 | exact E3]|].
  destruct H as (_ & Hl & _); [by_compute | | intros k f Hf; by apply Hl].
  repeat (apply List.Forall_cons || apply List.Forall_nil); cbn [event_ok]; try exact I;
    (split; [left|]; split; [reflexivity|]); try (by left); right; by exists 2%nat.
Defined.

(** The buffer of the local filters is sent to the workers with the rest, who
    report it back: an observation that the local worker makes itself is
    counted again by every worker at every synchronization. *)
Definition ex_round : list filter_event :=
  [StartSynchronize true; RunCall 0; RunCall 1; FinishSynchronize; RunCall 0; RunCall 1].
Definition ex_local_counts (rounds : nat) : option nat :=
  match observe (scalar 1) (new_filter [] true true None) with
  | Ok f =>
      match run_events ex_shape (concat (repeat ex_round rounds))
              (mkFilterSystem [("p"%string, f)] (repeat (mkRemote (new_filters ex_shape ["p"]) [] None) 2) None, init_tally 2) with
      | Some (Ok (sys, _)) => Some (foldr (fun kf n => (_n (rs kf.2) + n)%nat) 0%nat (local_filters sys))
      | _ => None
      end
  | Err _ => None
  end.

Example local_observation_counted_again : map ex_local_counts [1; 2; 3]%nat = [Some 1; Some 3; Some 5]%nat.
Proof. vm_compute. reflexivity. Qed.

(** An observation between a worker's [get_filters] and its [sync_filters] is
    lost, although [sync_filters] is to rebase what was accumulated. *)
Example observation_lost_in_between :
  match run_events ex_shape
          [StartSynchronize true; RunCall 0; Observe 0 "p" (scalar 1); FinishSynchronize; RunCall 0;
           StartSynchronize true; RunCall 0; FinishSynchronize; RunCall 0]
          (init_filter_system ex_shape ["p"] 1, init_tally 1) with
  | Some (Ok (sys, t)) =>
      map (fun kf => _n (rs kf.2)) (local_filters sys) = [0%nat] /\ lost t "p" = [[1]]%Q /\
      map (fun r => map (fun kf => (_n (rs kf.2), _n (buffer kf.2))) (r_filters r)) (remotes sys) = [[(0, 0)]]%nat
  | _ => False
  end.
Proof. vm_compute. repeat split. Qed.
