(* ===== verification/ReplayBuffer.v ===== *)
(** RLlib's replay buffers ([rllib/execution/replay_buffer.py]): the ring buffer
    and prioritized replay on top of the segment trees. *)

From Stdlib Require Import ZArith QArith Qround Qpower Lqa Lia.
From stdpp Require Import base list strings option.
From S2P Require Import Prelude SegmentTree.

Section ReplayBuffer.
(** Items are batches with a number of timesteps; [concat_samples] joins them. *)
Context {Item Batch : Type}.
Variable count size_bytes : Item -> Z.
Variable concat_samples : list Item -> Batch.
(** The actual size of an item: [max_seq_len] of a zero-padded [SampleBatch] *)
Variable zero_padded : Item -> bool.
Variable max_seq_len : Item -> Z.
(** [x**y] on floats *)
Variable pow : Q -> Q -> Q.

(** ** [ReplayBuffer]

    [_evicted_hit_stats] is the list of what was pushed to it. *)
Record ReplayBuffer : Type := mkBuffer {
  _storage : list Item;
  rb_capacity : Z;
  _next_idx : nat;
  _hit_count : list Z;
  _eviction_started : bool;
  _num_timesteps_added : Z;
  _num_timesteps_added_wrap : Z;
  _num_timesteps_sampled : Z;
  _evicted_hit_stats : list Z;
  _est_size_bytes : Z
}.

Definition new_buffer (capacity : Z) : ReplayBuffer :=
  mkBuffer [] capacity 0 (replicate (Z.to_nat capacity) 0%Z) false 0 0 0 [] 0.

(** [log_once] says whether the warning is due; [total_bytes] is the memory of
    the machine. *)
Definition warn_replay_capacity (log_once : bool) (total_bytes : Q) (item : Item) (num_items : Q) : result unit :=
  if log_once && Qlt_bool total_bytes (num_items * inject_Z (size_bytes item)) then Err ValueError else Ok tt.

(** The [if] that stores the item *)
Definition store (item : Item) (b : ReplayBuffer) : ReplayBuffer :=
  let append := (length (_storage b) <=? _next_idx b)%nat in
  mkBuffer (if append then _storage b ++ [item] else <[_next_idx b := item]> (_storage b)) (rb_capacity b) (_next_idx b)
    (_hit_count b) (_eviction_started b) (_num_timesteps_added b + count item) (_num_timesteps_added_wrap b + count item)
    (_num_timesteps_sampled b) (_evicted_hit_stats b)
    (if append then _est_size_bytes b + size_bytes item else _est_size_bytes b).

(** The [if] that moves the index *)
Definition advance (b : ReplayBuffer) : ReplayBuffer :=
  let wrap := (rb_capacity b <=? _num_timesteps_added_wrap b)%Z in
  mkBuffer (_storage b) (rb_capacity b) (if wrap then 0%nat else S (_next_idx b)) (_hit_count b)
    (wrap || _eviction_started b) (_num_timesteps_added b) (if wrap then 0%Z else _num_timesteps_added_wrap b)
    (_num_timesteps_sampled b) (_evicted_hit_stats b) (_est_size_bytes b).

(** The statistics of the item that is evicted next *)
Definition count_eviction : ST ReplayBuffer unit := fun b =>
  if _eviction_started b
  then match _hit_count b !! _next_idx b with
       | Some h => (mkBuffer (_storage b) (rb_capacity b) (_next_idx b) (<[_next_idx b := 0%Z]> (_hit_count b))
                      (_eviction_started b) (_num_timesteps_added b) (_num_timesteps_added_wrap b)
                      (_num_timesteps_sampled b) (_evicted_hit_stats b ++ [h]) (_est_size_bytes b), Ok tt)
       | None => (b, Err IndexError)
       end
  else (b, Ok tt).

Definition add (log_once : bool) (total_bytes : Q) (item : Item) : ST ReplayBuffer unit :=
  _ ← st_lift (py_assert (0 <? count item)%Z);
  capacity ← st_gets rb_capacity;
  _ ← st_lift (warn_replay_capacity log_once total_bytes item (inject_Z capacity / inject_Z (count item)));
  _ ← st_modify (store item);
  _ ← st_modify advance;
  count_eviction.

Definition _encode_sample (idxes : list nat) (b : ReplayBuffer) : result Batch :=
  items ← mapM_r (fun i => or_raise IndexError (_storage b !! i)) idxes; Ok (concat_samples items).

(** [random.randint(0, len - 1)] for each item raises on an empty buffer; the
    object has no attribute [_num_sampled] to add to. *)
Definition sample (num_items : nat) (b : ReplayBuffer) : result Batch :=
  if (0 <? num_items)%nat && (length (_storage b) =? 0)%nat then Err ValueError else Err AttributeError.

(** [get_state] and [set_state] *)
Definition buffer_state : Type := list Item * nat * Z * Z * bool * Z * Z.

Definition rb_get_state (b : ReplayBuffer) : buffer_state :=
  (_storage b, _next_idx b, _num_timesteps_added b, _num_timesteps_added_wrap b, _eviction_started b,
   _num_timesteps_sampled b, _est_size_bytes b).

Definition rb_set_state (s : buffer_state) (b : ReplayBuffer) : ReplayBuffer :=
  let '(storage, next, added, wrapped, started, sampled, est) := s in
  mkBuffer storage (rb_capacity b) next (_hit_count b) started added wrapped sampled (_evicted_hit_stats b) est.

(** [self._num_timesteps_sampled += n] *)
Definition add_sampled (n : Z) (b : ReplayBuffer) : ReplayBuffer :=
  mkBuffer (_storage b) (rb_capacity b) (_next_idx b) (_hit_count b) (_eviction_started b) (_num_timesteps_added b)
    (_num_timesteps_added_wrap b) (_num_timesteps_sampled b + n) (_evicted_hit_stats b) (_est_size_bytes b).

(** ** [PrioritizedReplayBuffer] *)

Record PrioritizedReplayBuffer : Type := mkPrio {
  base : ReplayBuffer;
  _alpha : Q;
  _it_sum : SegmentTree Q;
  _it_min : SegmentTree (option Q);
  _max_priority : Q;
  _prio_change_stats : list Q
}.

Definition set_base (b : ReplayBuffer) (p : PrioritizedReplayBuffer) : PrioritizedReplayBuffer :=
  mkPrio b (_alpha p) (_it_sum p) (_it_min p) (_max_priority p) (_prio_change_stats p).
Definition set_sum (t : SegmentTree Q) (p : PrioritizedReplayBuffer) : PrioritizedReplayBuffer :=
  mkPrio (base p) (_alpha p) t (_it_min p) (_max_priority p) (_prio_change_stats p).
Definition set_min (t : SegmentTree (option Q)) (p : PrioritizedReplayBuffer) : PrioritizedReplayBuffer :=
  mkPrio (base p) (_alpha p) (_it_sum p) t (_max_priority p) (_prio_change_stats p).
Definition set_max_priority (q : Q) (p : PrioritizedReplayBuffer) : PrioritizedReplayBuffer :=
  mkPrio (base p) (_alpha p) (_it_sum p) (_it_min p) q (_prio_change_stats p).
Definition push_change (q : Q) (p : PrioritizedReplayBuffer) : PrioritizedReplayBuffer :=
  mkPrio (base p) (_alpha p) (_it_sum p) (_it_min p) (_max_priority p) (_prio_change_stats p ++ [q]).

(** [while it_capacity < self.capacity: it_capacity *= 2]; the capacity doubles
    in each round *)
Fixpoint it_capacity_loop (fuel : nat) (it_capacity capacity : Z) : result Z :=
  if (it_capacity <? capacity)%Z
  then match fuel with
       | O => Err OutOfFuel
       | S fuel' => it_capacity_loop fuel' (it_capacity * 2) capacity
       end
  else Ok it_capacity.

Definition new_prioritized (capacity : Z) (alpha : Q) : result PrioritizedReplayBuffer :=
  _ ← py_assert (Qlt_bool 0 alpha);
  it_capacity ← it_capacity_loop (Z.to_nat capacity) 1 capacity;
  it_sum ← sum_tree it_capacity;
  it_min ← min_tree it_capacity;
  Ok (mkPrio (new_buffer capacity) alpha it_sum it_min 1 []).

(** [self._it_sum[idx] = w; self._it_min[idx] = w] *)
Definition set_priority (idx : Z) (w : Q) : ST PrioritizedReplayBuffer unit :=
  _ ← st_zoom _it_sum set_sum (__setitem__ idx w);
  st_zoom _it_min set_min (__setitem__ idx (Some w)).

Definition prio_add (log_once : bool) (total_bytes : Q) (item : Item) (weight : option Q) :
  ST PrioritizedReplayBuffer unit :=
  idx ← st_gets (fun p => _next_idx (base p));
  _ ← st_zoom base set_base (add log_once total_bytes item);
  weight ← st_gets (fun p => default (_max_priority p) weight);
  alpha ← st_gets _alpha;
  set_priority (Z.of_nat idx) (pow weight alpha).

(** One index per number that [random.random()] gives *)
Definition sample_one (random : Q) (p : PrioritizedReplayBuffer) : result Z :=
  total ← sum 0 (Some (Z.of_nat (length (_storage (base p))))) (_it_sum p);
  find_prefixsum_idx (random * total) (_it_sum p).

Definition _sample_proportional (randoms : list Q) (p : PrioritizedReplayBuffer) : result (list Z) :=
  mapM_r (fun r => sample_one r p) randoms.

Definition actual_size (item : Item) : Z := if zero_padded item then max_seq_len item else count item.

Definition float_div (x y : Q) : result Q := if Qeq_bool y 0 then Err ZeroDivisionError else Ok (x / y)%Q.

(** The weights and indices of one sampled item *)
Definition weigh (beta max_weight : Q) (acc : list Q * list Z) (idx : Z) :
  ST PrioritizedReplayBuffer (list Q * list Z) :=
  p ← st_get;
  w ← st_lift (__getitem__ idx (_it_sum p));
  total ← st_lift (sum 0 None (_it_sum p));
  p_sample ← st_lift (float_div w total);
  let weight := pow (p_sample * inject_Z (Z.of_nat (length (_storage (base p))))) (- beta) in
  item ← st_lift (or_raise IndexError (_storage (base p) !! Z.to_nat idx));
  q ← st_lift (float_div weight max_weight);
  let k := Z.to_nat (actual_size item) in
  _ ← st_modify (fun p => set_base (add_sampled (count item) (base p)) p);
  mret (acc.1 ++ replicate k q, acc.2 ++ replicate k idx).

(** [inf / 0.0], the minimum and the total of empty trees, raises. *)
Definition prio_sample (randoms : list Q) (beta : Q) : ST PrioritizedReplayBuffer (Batch * list Q * list Z) :=
  _ ← st_lift (py_assert (Qle_bool 0 beta));
  p ← st_get;
  idxes ← st_lift (_sample_proportional randoms p);
  smallest ← st_lift (min 0 None (_it_min p));
  total ← st_lift (sum 0 None (_it_sum p));
  smallest ← st_lift (or_raise ZeroDivisionError smallest);
  p_min ← st_lift (float_div smallest total);
  let max_weight := pow (p_min * inject_Z (Z.of_nat (length (_storage (base p))))) (- beta) in
  '(weights, batch_indexes) ← st_fold (weigh beta max_weight) ([], []) idxes;
  batch ← st_lift (_encode_sample (map Z.to_nat idxes) (base p));
  mret (batch, weights, batch_indexes).

Definition update_priority (ip : Z * Q) : ST PrioritizedReplayBuffer unit :=
  let '(idx, priority) := ip in
  _ ← st_lift (py_assert (Qlt_bool 0 priority));
  n ← st_gets (fun p => length (_storage (base p)));
  _ ← st_lift (py_assert ((0 <=? idx)%Z && (idx <? Z.of_nat n)%Z));
  alpha ← st_gets _alpha;
  old ← (t ← st_gets _it_sum; st_lift (__getitem__ idx t));
  _ ← st_modify (push_change (pow priority alpha - old)%Q);
  _ ← set_priority idx (pow priority alpha);
  st_modify (fun p => set_max_priority (Qmax_py (_max_priority p) priority) p).

Definition update_priorities (idxes : list Z) (priorities : list Q) : ST PrioritizedReplayBuffer unit :=
  _ ← st_lift (py_assert (length idxes =? length priorities)%nat);
  st_for (zip idxes priorities) update_priority.

Definition prio_get_state (p : PrioritizedReplayBuffer) : buffer_state * list Q * list (option Q) * Q :=
  (rb_get_state (base p), get_state (_it_sum p), get_state (_it_min p), _max_priority p).

Definition prio_set_state (s : buffer_state * list Q * list (option Q) * Q) : ST PrioritizedReplayBuffer unit :=
  let '(b, sums, mins, top) := s in
  _ ← st_modify (fun p => set_base (rb_set_state b (base p)) p);
  _ ← st_zoom _it_sum set_sum (set_state sums);
  _ ← st_zoom _it_min set_min (set_state mins);
  st_modify (set_max_priority top).

(** ** The ring

    [add] either raises before it changes anything or appends to the storage
    or overwrites one slot of it. *)

Record ring_ok (b : ReplayBuffer) : Prop := mkRingOk {
  ring_capacity : (0 < rb_capacity b)%Z;
  ring_hits : length (_hit_count b) = Z.to_nat (rb_capacity b);
  ring_index : (_next_idx b <= length (_storage b))%nat;
  ring_wrap : (Z.of_nat (_next_idx b) <= _num_timesteps_added_wrap b < rb_capacity b)%Z;
  ring_length : (Z.of_nat (length (_storage b)) <= rb_capacity b)%Z
}.

Lemma new_buffer_ok capacity : (0 < capacity)%Z -> ring_ok (new_buffer capacity).
Proof. intros H. split; cbn; rewrite ?length_replicate; lia. Qed.

(** The slot that [add] writes *)
Definition put_slot (item : Item) (b : ReplayBuffer) : list Item :=
  if (length (_storage b) <=? _next_idx b)%nat then _storage b ++ [item] else <[_next_idx b := item]> (_storage b).

Lemma put_slot_length item b :
  (_next_idx b <= length (_storage b))%nat ->
  length (put_slot item b) = Nat.max (length (_storage b)) (S (_next_idx b)).
Proof.
  intros H. unfold put_slot. destruct (Nat.leb_spec (length (_storage b)) (_next_idx b)).
  - rewrite length_app. cbn. lia.
  - rewrite length_insert. lia.
Qed.

Lemma add_ring log_once total item b :
  ring_ok b -> exists b' r, add log_once total item b = (b', r) /\
  ((r <> Ok tt /\ b' = b /\
    ((count item <= 0)%Z \/
     warn_replay_capacity log_once total item (inject_Z (rb_capacity b) / inject_Z (count item)) <> Ok tt)) \/
   (r = Ok tt /\ ring_ok b' /\ (0 < count item)%Z /\ _storage b' = put_slot item b /\
    rb_capacity b' = rb_capacity b /\
    if (rb_capacity b <=? _num_timesteps_added_wrap b + count item)%Z
    then _next_idx b' = O /\ _num_timesteps_added_wrap b' = 0%Z
    else _next_idx b' = S (_next_idx b) /\
         _num_timesteps_added_wrap b' = (_num_timesteps_added_wrap b + count item)%Z)).
Proof.
  intros [Hc Hh Hi Hw Hl]. unfold add. st_simpl.
  destruct (Z.ltb_spec 0 (count item)) as [Hp|Hp]; cbn [py_assert]; [|by eexists _, _; split; [done|left]; eauto].
  destruct (warn_replay_capacity _ _ _ _) as [[]|e]; [|by eexists _, _; split; [done|left]; eauto].
  pose proof (put_slot_length item b Hi) as Hs. unfold put_slot in Hs |- *.
  set (b1 := advance (store item b)).
  assert (rb_capacity b1 = rb_capacity b /\ length (_hit_count b1) = length (_hit_count b) /\
          (Z.of_nat (_next_idx b1) <= _num_timesteps_added_wrap b1 < rb_capacity b)%Z /\
          (_next_idx b1 <= length (_storage b1))%nat /\ (Z.of_nat (length (_storage b1)) <= rb_capacity b)%Z)
    as (E1 & E2 & E3 & E4 & E5).
  { subst b1. cbn. rewrite Hs. destruct (Z.leb_spec (rb_capacity b) (_num_timesteps_added_wrap b + count item)); lia. }
  unfold count_eviction. destruct (_eviction_started b1) eqn:Ee.
  - destruct (lookup_lt_is_Some_2 (_hit_count b1) (_next_idx b1)) as [h ->]; [lia|].
    eexists _, _; split; [reflexivity|]. right. split; [done|]. split.
    { split; cbn [rb_capacity _hit_count _next_idx _storage _num_timesteps_added_wrap]; rewrite ?length_insert; lia. }
    cbn. repeat split; [done..|]. by destruct (_ <=? _)%Z.
  - eexists _, _; split; [reflexivity|]. right. split; [done|]. split; [split; lia|].
    cbn. repeat split; [done..|]. by destruct (_ <=? _)%Z.
Qed.

(** *** Items of one size

    A buffer that was given the items [ys], each of [k] timesteps, has [slots]
    slots; read from the next index around, it holds the latest of [ys]. *)

Definition oldest_first (b : ReplayBuffer) : list Item :=
  drop (_next_idx b) (_storage b) ++ take (_next_idx b) (_storage b).

Section SameSize.
Context (k : Z) (slots : nat).

Record fifo (b : ReplayBuffer) (ys : list Item) : Prop := mkFifo {
  fifo_ring : ring_ok b;
  fifo_slots : ((Z.of_nat slots - 1) * k < rb_capacity b <= Z.of_nat slots * k)%Z;
  fifo_wrap : _num_timesteps_added_wrap b = (Z.of_nat (_next_idx b) * k)%Z;
  fifo_round : exists q, length ys = (slots * q + _next_idx b)%nat;
  fifo_next : (_next_idx b < slots)%nat;
  fifo_full : length (_storage b) = slots \/ (_next_idx b = length (_storage b) /\ (length (_storage b) < slots)%nat);
  fifo_items : oldest_first b = drop (length ys - slots) ys
}.

(** Rotating once forgets the oldest item of a full buffer. *)
Lemma rotate_put item b next' :
  length (_storage b) = slots \/ _next_idx b = length (_storage b) ->
  (_next_idx b < slots)%nat -> (length (_storage b) <= slots)%nat ->
  next' = (if decide (S (_next_idx b) = slots) then O else S (_next_idx b)) ->
  drop next' (put_slot item b) ++ take next' (put_slot item b) =
  drop (S (length (_storage b)) - slots) (oldest_first b) ++ [item].
Proof.
  intros Hf Hn Hle ->. unfold put_slot, oldest_first.
  destruct (Nat.leb_spec (length (_storage b)) (_next_idx b)) as [C|C].
  - assert (_next_idx b = length (_storage b)) as E by lia. rewrite E in *.
    replace (S (length (_storage b)) - slots)%nat with O by lia.
    rewrite drop_0, drop_all, firstn_all. cbn [app].
    case_decide; [by rewrite drop_0, take_0, app_nil_r|].
    rewrite drop_ge, take_ge; rewrite ?length_app; cbn; [done | lia..].
  - destruct Hf as [Hf|Hf]; [|lia]. rewrite Hf. replace (S slots - slots)%nat with 1%nat by lia.
    destruct (lookup_lt_is_Some_2 (_storage b) (_next_idx b) C) as [y Hy].
    rewrite (drop_S _ _ _ Hy). cbn [app drop]. rewrite drop_0, <- app_assoc.
    assert (take (S (_next_idx b)) (<[_next_idx b:=item]> (_storage b)) = take (_next_idx b) (_storage b) ++ [item]) as Et.
    { rewrite (take_S_r _ _ item); [|by apply list_lookup_insert_eq]. by rewrite take_insert_ge. }
    case_decide as E.
    + rewrite (drop_ge _ (S (_next_idx b))) by lia. rewrite drop_0, take_0, app_nil_r. cbn [app]. rewrite <- Et.
      rewrite take_ge; [done|]. rewrite length_insert. lia.
    + rewrite Et, drop_insert_lt by lia. done.
Qed.

Lemma drop_snoc_fifo (ys : list Item) item n :
  drop (length (ys ++ [item]) - n) (ys ++ [item]) =
  drop (S (length (drop (length ys - n) ys)) - n) (drop (length ys - n) ys ++ [item]).
Proof.
  rewrite length_app, length_drop. cbn [length].
  destruct (Nat.le_gt_cases (length ys) n).
  - replace (length ys - n)%nat with O by lia. rewrite drop_0. f_equal. lia.
  - destruct n as [|n].
    + rewrite (drop_ge (ys ++ [item])), (drop_ge (_ ++ [item])); [done|..];
        rewrite ?length_app, ?length_drop; cbn [length]; lia.
    + rewrite !drop_app_le by (rewrite ?length_drop; lia). f_equal. rewrite drop_drop. f_equal. lia.
Qed.

Lemma fifo_add log_once total item b ys :
  fifo b ys -> (0 < k)%Z -> count item = k ->
  warn_replay_capacity log_once total item (inject_Z (rb_capacity b) / inject_Z k) = Ok tt ->
  exists b', add log_once total item b = (b', Ok tt) /\ fifo b' (ys ++ [item]) /\ rb_capacity b' = rb_capacity b.
Proof.
  intros [Hr Hs Hw [q Hq] Hn Hf Hi] Hk Hc Hwarn. pose proof (add_ring log_once total item b Hr) as (b' & r & E & H).
  destruct H as [(_ & _ & [?|?])|(-> & Hr' & _ & Est & Ecap & Hnext)]; [lia | by rewrite Hc in * |].
  exists b'. split; [done|]. split; [|done].
  assert (_next_idx b' = (if decide (S (_next_idx b) = slots) then O else S (_next_idx b)) /\
          _num_timesteps_added_wrap b' = (Z.of_nat (_next_idx b') * k)%Z) as [En Ew].
  { rewrite Hw, Hc in Hnext. destruct (Z.leb_spec (rb_capacity b) (Z.of_nat (_next_idx b) * k + k)) as [C|C];
      destruct Hnext as [-> ->]; case_decide as D; split; try lia; nia. }
  pose proof (put_slot_length item b (ring_index b Hr)) as Hl. rewrite <- Est in Hl.
  assert (length (_storage b) <= slots)%nat by lia.
  assert (oldest_first b' = drop (S (length (_storage b)) - slots) (oldest_first b) ++ [item]) as Eo.
  { unfold oldest_first at 1. rewrite Est. apply rotate_put; [|done..]. destruct Hf as [?|[? _]]; eauto. }
  split.
  - done.
  - by rewrite Ecap.
  - done.
  - rewrite length_app, En, Hq. cbn [length]. case_decide; [exists (S q) | exists q]; lia.
  - rewrite En. case_decide; lia.
  - rewrite Hl, En. case_decide; lia.
  - rewrite Eo, drop_snoc_fifo, <- Hi. assert (length (oldest_first b) = length (_storage b)) as ->.
    { unfold oldest_first. rewrite length_app, length_drop, length_take. pose proof (ring_index b Hr). lia. }
    rewrite drop_app_le; [done|]. unfold oldest_first. rewrite length_app, length_drop, length_take.
    pose proof (ring_index b Hr). lia.
Qed.

Lemma fifo_add_all log_once total xs : forall b ys,
  fifo b ys -> (0 < k)%Z ->
  Forall (fun x => count x = k /\
    warn_replay_capacity log_once total x (inject_Z (rb_capacity b) / inject_Z k) = Ok tt) xs ->
  exists b', st_for xs (add log_once total) b = (b', Ok tt) /\ fifo b' (ys ++ xs).
Proof.
  induction xs as [|x xs IH]; intros b ys Hb Hk Hxs; cbn [st_for]; st_simpl; [exists b; by rewrite app_nil_r|].
  apply list.Forall_cons in Hxs as [[Hc Hw] Hxs].
  destruct (fifo_add log_once total x b ys) as (b1 & -> & Hb1 & Ecap); [done..|].
  rewrite <- Ecap in Hxs. destruct (IH b1 (ys ++ [x])) as (b' & -> & Hb'); [done..|].
  exists b'. split; [done|]. by rewrite <- app_assoc in Hb'.
Qed.

End SameSize.

(** C21. A replay buffer is a bounded queue: whatever number of items of [k]
    timesteps each is added (items that fit into the memory, which [add]
    checks), no call raises, the buffer holds the latest [ceil(capacity / k)]
    of them and nothing else, the item at the next index is the oldest one,
    and that index has gone around the slots. So the buffer stores less than
    [capacity + k] timesteps; the documented maximum [capacity] is kept only
    when [k] divides it. *)
Theorem replay_buffer_keeps_latest log_once total capacity k xs :
  (0 < capacity)%Z -> (0 < k)%Z ->
  Forall (fun x => count x = k /\ (inject_Z capacity / inject_Z k * inject_Z (size_bytes x) <= total)%Q) xs ->
  let slots := Z.to_nat ((capacity + k - 1) / k) in
  exists b, st_for xs (add log_once total) (new_buffer capacity) = (b, Ok tt) /\
    oldest_first b = drop (length xs - slots) xs /\
    length (_storage b) = Nat.min (length xs) slots /\ _next_idx b = (length xs mod slots)%nat /\
    (Z.of_nat (length (_storage b)) * k < capacity + k)%Z /\
    ((k | capacity)%Z -> (Z.of_nat (length (_storage b)) * k <= capacity)%Z).
Proof.
  intros Hc Hk Hxs slots.
  assert ((Z.of_nat slots - 1) * k < capacity <= Z.of_nat slots * k)%Z as Hs.
  { subst slots. rewrite Z2Nat.id by (apply Z.div_pos; lia).
    pose proof (Z.mul_div_le (capacity + k - 1) k Hk). pose proof (Z.mul_succ_div_gt (capacity + k - 1) k Hk). nia. }
  assert (0 < slots)%nat by nia.
  destruct (fifo_add_all k slots log_once total xs (new_buffer capacity) []) as (b & E & [Hr _ _ [q Hq] Hn Hf Hi]).
  - split; cbn; [by apply new_buffer_ok | done | done | exists O; lia | done | by right | done].
  - done.
  - eapply list.Forall_impl; [exact Hxs|]. cbn. intros x [-> Hle]. split; [done|]. unfold warn_replay_capacity, Qlt_bool.
    rewrite (proj2 (Qle_bool_iff _ _)) by done. by rewrite andb_false_r.
  - exists b. split; [done|]. split; [done|]. cbn [app] in *. apply (f_equal length) in Hi as Hl.
    unfold oldest_first in Hl. rewrite length_app, !length_drop, length_take in Hl.
    pose proof (ring_index b Hr). split_and!; [lia | by apply (Nat.mod_unique _ _ q) | nia |].
    intros [m ->]. assert (Z.of_nat slots <= m)%Z by nia. nia.
Qed.

(** ** The priorities

    The leaves of the two trees below the length of the storage are the
    priorities of the stored items, all positive; the others are neutral. *)

Hypothesis pow_positive : forall x y, (0 < x)%Q -> (0 < pow x y)%Q.

Abbreviation sum_tree_ok := (tree_ok Qeq Qplus 0%Q).
Abbreviation min_tree_ok := (tree_ok (option_Forall2 Qeq) min_inf None).

(** [ps] padded to the width of the trees *)
Definition padded {A} (d : nat) (e : A) (ps : list A) : list A := ps ++ replicate (2 ^ d - length ps) e.

(** Writes slot [i], which is at most one past the end *)
Definition put {A} (i : nat) (x : A) (ps : list A) : list A :=
  if (length ps <=? i)%nat then ps ++ [x] else <[i := x]> ps.

Lemma put_padded {A} d (e x : A) i ps :
  (i <= length ps)%nat -> (i < 2 ^ d)%nat -> <[i := x]> (padded d e ps) = padded d e (put i x ps).
Proof.
  intros Hi Hd. unfold put, padded. destruct (Nat.leb_spec (length ps) i).
  - replace i with (length ps + 0)%nat by lia. rewrite insert_app_r, length_app, <- app_assoc. f_equal.
    replace (2 ^ d - length ps)%nat with (S (2 ^ d - (length ps + 1))) by lia. done.
  - by rewrite insert_app_l, length_insert by lia.
Qed.

Lemma put_map {A B} (f : A -> B) i x ps : map f (put i x ps) = put i (f x) (map f ps).
Proof.
  unfold put. rewrite length_map. destruct (_ <=? _)%nat; [by rewrite map_app|].
  exact (list_fmap_insert f ps i x).
Qed.

Lemma put_Forall {A} (P : A -> Prop) i x ps : Forall P ps -> P x -> Forall P (put i x ps).
Proof.
  intros H Hx. unfold put. destruct (_ <=? _)%nat; [|by apply Forall_insert].
  apply Forall_app. split; [done|]. by constructor.
Qed.

Lemma put_slot_put item b : put_slot item b = put (_next_idx b) item (_storage b).
Proof. done. Qed.

Lemma put_length {A B} i (x : A) (y : B) l m : length l = length m -> length (put i x l) = length (put i y m).
Proof.
  intros H. unfold put. rewrite H. destruct (_ <=? _)%nat; rewrite ?length_app, ?length_insert; cbn; lia.
Qed.

Record prio_ok (capacity : Z) (d : nat) (p : PrioritizedReplayBuffer) (ps : list Q) : Prop := mkPrioOk {
  prio_ring : ring_ok (base p);
  prio_cap : rb_capacity (base p) = capacity /\ (capacity <= 2 ^ Z.of_nat d)%Z;
  prio_sum : sum_tree_ok (_it_sum p) (2 ^ d);
  prio_min : min_tree_ok (_it_min p) (2 ^ d);
  prio_sums : leaves (_it_sum p) = padded d 0%Q ps;
  prio_mins : leaves (_it_min p) = padded d None (map Some ps);
  prio_len : length ps = length (_storage (base p));
  prio_pos : Forall (fun x => 0 < x)%Q ps;
  prio_max : (0 < _max_priority p)%Q
}.

Lemma it_capacity_loop_ok fuel d capacity :
  (capacity <= Z.of_nat fuel + 2 ^ Z.of_nat d)%Z ->
  exists d', it_capacity_loop fuel (2 ^ Z.of_nat d) capacity = Ok (2 ^ Z.of_nat d')%Z /\ (capacity <= 2 ^ Z.of_nat d')%Z.
Proof.
  revert d. induction fuel as [|fuel IH]; intros d H; cbn [it_capacity_loop].
  - rewrite (proj2 (Z.ltb_ge _ _)) by lia. exists d. split; [done | lia].
  - destruct (Z.ltb_spec (2 ^ Z.of_nat d) capacity); [|by exists d].
    replace (2 ^ Z.of_nat d * 2)%Z with (2 ^ Z.of_nat (S d))%Z by (rewrite Nat2Z.inj_succ, Z.pow_succ_r; lia).
    apply IH. rewrite Nat2Z.inj_succ, Z.pow_succ_r by lia. pose proof (Z.pow_pos_nonneg 2 (Z.of_nat d)). lia.
Qed.

Lemma pow2_land d : Z.land (2 ^ Z.of_nat d) (2 ^ Z.of_nat d - 1) = 0%Z.
Proof.
  rewrite Z.sub_1_r, <- Z.ones_equiv, Z.land_ones by lia. apply Z.mod_same, Z.pow_nonzero; lia.
Qed.

Lemma pow2_nat d : Z.to_nat (2 ^ Z.of_nat d) = (2 ^ d)%nat.
Proof. rewrite <- (Nat2Z.id (2 ^ d)). f_equal. by rewrite Nat2Z.inj_pow. Qed.

(** The width of the trees of a buffer *)
Definition tree_depth (capacity : Z) (d : nat) : Prop :=
  it_capacity_loop (Z.to_nat capacity) 1 capacity = Ok (2 ^ Z.of_nat d)%Z /\ (capacity <= 2 ^ Z.of_nat d)%Z.

Lemma tree_depth_exists capacity : (0 < capacity)%Z -> exists d, tree_depth capacity d.
Proof. intros H. apply (it_capacity_loop_ok _ 0). cbn. lia. Qed.

Lemma new_prioritized_ok capacity alpha d :
  (0 < capacity)%Z -> (0 < alpha)%Q -> tree_depth capacity d ->
  exists p, new_prioritized capacity alpha = Ok p /\ prio_ok capacity d p [].
Proof.
  intros Hc Ha [Hd Hle]. unfold new_prioritized, sum_tree, min_tree. rewrite Hd. cbn [mbind result_bind].
  rewrite (proj2 (Qlt_bool_iff _ _)) by done. cbn [py_assert].
  assert (0 < 2 ^ Z.of_nat d)%Z by (apply Z.pow_pos_nonneg; lia).
  destruct Qplus_comm_monoid as (Hpa & Hpc & Hpu).
  destruct (init_ok Qeq Qplus 0%Q Hpu (2 ^ Z.of_nat d) None) as (s & -> & Hs & _ & Ls); [done | apply pow2_land | by left |].
  destruct (init_ok (option_Forall2 Qeq) min_inf None min_inf_unit (2 ^ Z.of_nat d) None)
    as (m & -> & Hm & _ & Lm); [done | apply pow2_land | by left |].
  rewrite pow2_nat in *. eexists; split; [reflexivity|]. split; cbn [base _it_sum _it_min _max_priority].
  - by apply new_buffer_ok.
  - done.
  - done.
  - done.
  - rewrite Ls. unfold padded. cbn. by rewrite Nat.sub_0_r.
  - rewrite Lm. unfold padded. cbn. by rewrite Nat.sub_0_r.
  - done.
  - constructor.
  - reflexivity.
Qed.

(** Writing the priority of a slot into both trees *)
Lemma set_priority_ok d p ps i w :
  sum_tree_ok (_it_sum p) (2 ^ d) -> min_tree_ok (_it_min p) (2 ^ d) ->
  leaves (_it_sum p) = padded d 0%Q ps -> leaves (_it_min p) = padded d None (map Some ps) ->
  (i <= length ps)%nat -> (i < 2 ^ d)%nat ->
  exists s m, set_priority (Z.of_nat i) w p = (set_min m (set_sum s p), Ok tt) /\
    sum_tree_ok s (2 ^ d) /\ min_tree_ok m (2 ^ d) /\
    leaves s = padded d 0%Q (put i w ps) /\ leaves m = padded d None (map Some (put i w ps)).
Proof.
  intros Hs Hm Ls Lm Hi Hd. unfold set_priority. st_simpl.
  destruct (setitem_ok Qeq Qplus 0%Q (_it_sum p) (2 ^ d) i w) as (s & -> & Hs' & Ls'); [done..|].
  cbn [_it_min set_sum].
  destruct (setitem_ok (option_Forall2 Qeq) min_inf None (_it_min p) (2 ^ d) i (Some w)) as (m & -> & Hm' & Lm'); [done..|].
  exists s, m. split; [done|]. split; [done|]. split; [done|].
  rewrite Ls', Ls, Lm', Lm, put_map, !put_padded; rewrite ?length_map; done.
Qed.

Lemma next_fits capacity d p ps : prio_ok capacity d p ps -> (_next_idx (base p) < 2 ^ d)%nat.
Proof.
  intros H. destruct (prio_cap _ _ _ _ H). pose proof (ring_wrap _ (prio_ring _ _ _ _ H)).
  rewrite <- pow2_nat. lia.
Qed.

(** The priority that [add] gives an item *)
Definition weight_of (p : PrioritizedReplayBuffer) (weight : option Q) : Q :=
  pow (default (_max_priority p) weight) (_alpha p).

Definition weight_ok (weight : option Q) : Prop := match weight with Some w => (0 < w)%Q | None => True end.

Lemma prio_add_ok capacity d p ps log_once total item weight p' r :
  prio_ok capacity d p ps -> weight_ok weight -> prio_add log_once total item weight p = (p', r) ->
  prio_ok capacity d p' ps \/
  (r = Ok tt /\ prio_ok capacity d p' (put (_next_idx (base p)) (weight_of p weight) ps)).
Proof.
  intros Hp Hw E. pose proof (next_fits _ _ _ _ Hp) as Hnext. destruct Hp as [Hr Hc Hs Hm Ls Lm Hl Hpos Hmax].
  unfold prio_add in E. st_simpl in E.
  destruct (add_ring log_once total item (base p) Hr) as (b & r1 & Ea & H). rewrite Ea in E.
  destruct H as [(Hne & -> & _)|(-> & Hr' & Hcount & Est & Ecap & _)].
  { left. destruct r1 as [[]|e]; [done|]. injection E as <- <-. by destruct p. }
  right. cbn [_alpha _max_priority set_base] in E.
  destruct (set_priority_ok d (set_base b p) ps (_next_idx (base p)) (weight_of p weight))
    as (s & m & Es & Hs' & Hm' & Ls' & Lm'); [done..| |done|].
  { rewrite Hl. by apply ring_index. }
  unfold weight_of in Es at 1. rewrite Es in E. injection E as <- <-. split; [done|].
  split; cbn [base _it_sum _it_min _max_priority set_min set_sum set_base]; [done | by rewrite Ecap | done.. | | | done].
  - rewrite Est, put_slot_put. by apply put_length.
  - apply put_Forall; [done|]. apply pow_positive. by destruct weight.
Qed.

Lemma update_priority_ok capacity d p ps idx priority p' r :
  prio_ok capacity d p ps -> update_priority (idx, priority) p = (p', r) ->
  exists ps', prio_ok capacity d p' ps' /\
    (if Qlt_bool 0 priority && ((0 <=? idx)%Z && (idx <? Z.of_nat (length ps))%Z)
     then r = Ok tt /\ ps' = <[Z.to_nat idx := pow priority (_alpha p)]> ps
     else r = Err AssertionError /\ p' = p /\ ps' = ps).
Proof.
  intros Hp E. pose proof Hp as [Hr Hc Hs Hm Ls Lm Hl Hpos Hmax]. unfold update_priority in E. st_simpl in E.
  rewrite Hl. destruct (Qlt_bool 0 priority) eqn:Eq; cbn [py_assert andb] in *; [|injection E as <- <-; by exists ps].
  destruct (_ && _) eqn:Ei; cbn [py_assert] in E; [|injection E as <- <-; by exists ps].
  apply andb_true_iff in Ei as [E1%Z.leb_le E2%Z.ltb_lt]. apply Qlt_bool_iff in Eq.
  assert (Z.to_nat idx < 2 ^ d)%nat as Hd.
  { pose proof (ring_length _ Hr). rewrite <- pow2_nat. lia. }
  destruct (getitem_leaf Qeq Qplus 0%Q (_it_sum p) (2 ^ d) idx Hs) as (x & Ex & _).
  { destruct (ok_cap _ _ _ _ _ Hs) as [-> _]. lia. }
  rewrite Ex in E.
  destruct (set_priority_ok d (push_change (pow priority (_alpha p) - x) p) ps (Z.to_nat idx) (pow priority (_alpha p)))
    as (s & m & Es & Hs' & Hm' & Ls' & Lm'); [done..| lia | done |].
  rewrite Z2Nat.id in Es by done. rewrite Es in E. injection E as <- <-.
  assert (put (Z.to_nat idx) (pow priority (_alpha p)) ps = <[Z.to_nat idx := pow priority (_alpha p)]> ps) as Eput.
  { unfold put. by rewrite (proj2 (Nat.leb_gt _ _)) by lia. }
  rewrite Eput in Ls', Lm'. eexists; split; [|split; reflexivity].
  split; cbn [base _it_sum _it_min _max_priority set_min set_sum set_base push_change set_max_priority];
    [done..| by rewrite length_insert | by apply Forall_insert, pow_positive |].
  unfold Qmax_py. by destruct (Qlt_bool _ _).
Qed.

(** An invariant of the loop, which holds also where it stops *)
Lemma update_priorities_ok capacity d idxes priorities p ps p' r :
  prio_ok capacity d p ps -> update_priorities idxes priorities p = (p', r) -> exists ps', prio_ok capacity d p' ps'.
Proof.
  intros Hp E. unfold update_priorities in E. st_simpl in E.
  destruct (_ =? _)%nat; cbn [py_assert] in E; [|injection E as <- <-; eauto].
  refine (st_for_inv (fun a b => forall ps, prio_ok capacity d a ps -> exists ps', prio_ok capacity d b ps')
            _ _ _ _ _ _ _ _ E ps Hp); [eauto | |].
  - intros a b c Hab Hbc qs Ha. destruct (Hab qs Ha) as [ps1 H1]. eauto.
  - intros [i q] a b r1 _ E1 qs Ha. destruct (update_priority_ok _ _ _ _ _ _ _ _ Ha E1) as (ps1 & H1 & _). eauto.
Qed.

(** *** Sampling *)













(** What the importance weights need of powers: a larger base gives a smaller
    power for an exponent that is not positive. *)
Hypothesis pow_antitone : forall x y z, (0 < x)%Q -> (x <= y)%Q -> (z <= 0)%Q -> (pow y z <= pow x z)%Q.





Lemma add_sampled_ok capacity d p ps n :
  prio_ok capacity d p ps -> prio_ok capacity d (set_base (add_sampled n (base p)) p) ps.
Proof. intros [[] ? ? ? ? ? ? ? ?]. by split; [split|..]. Qed.




(** *** Saving and restoring *)

Lemma tree_restore {A} (R : relation A) (op : A -> A -> A) e t t' cap :
  tree_ok R op e t cap -> tree_ok R op e t' cap -> set_state (get_state t') t = (t', Ok tt).
Proof.
  intros [[Hc Hp] [Ho He] Hl Hn] [[Hc' _] [Ho' He'] Hl' _]. unfold set_state, get_state. st_simpl.
  rewrite Hl', Hc, (proj2 (Z.eqb_eq _ _)) by lia. cbn [py_assert]. destruct t, t'. cbn in *. by subst.
Qed.

(** The state of [q] with the configuration and the statistics of [p] *)
Definition restored (q p : PrioritizedReplayBuffer) : PrioritizedReplayBuffer :=
  mkPrio (rb_set_state (rb_get_state (base q)) (base p)) (_alpha p) (_it_sum q) (_it_min q) (_max_priority q)
    (_prio_change_stats p).

Lemma restore_ok capacity d p ps q qs :
  prio_ok capacity d p ps -> prio_ok capacity d q qs ->
  prio_set_state (prio_get_state q) p = (restored q p, Ok tt) /\ prio_ok capacity d (restored q p) qs.
Proof.
  intros Hp Hq. split.
  - unfold prio_set_state, prio_get_state. st_simpl. cbn [_it_sum _it_min set_base set_sum].
    rewrite (tree_restore _ _ _ _ _ _ (prio_sum _ _ _ _ Hp) (prio_sum _ _ _ _ Hq)). cbn [_it_min set_sum set_base].
    by rewrite (tree_restore _ _ _ _ _ _ (prio_min _ _ _ _ Hp) (prio_min _ _ _ _ Hq)).
  - destruct Hp as [[] [Hc _] ? ? ? ? ? ? ?], Hq as [[] [Hc' ?] ? ? ? ? ? ? ?].
    assert (rb_capacity (base p) = rb_capacity (base q)) as E by congruence.
    split; [split|..]; cbn; first [done | by rewrite E].
Qed.

(** ** Every buffer that the calls can produce

    A call that raises leaves its state behind too. *)

Inductive reached (capacity : Z) (alpha : Q) : PrioritizedReplayBuffer -> Prop :=
| reached_new p : new_prioritized capacity alpha = Ok p -> reached capacity alpha p
| reached_add p p' r log_once total item weight :
    reached capacity alpha p -> weight_ok weight -> prio_add log_once total item weight p = (p', r) ->
    reached capacity alpha p'
| reached_update p p' r idxes priorities :
    reached capacity alpha p -> update_priorities idxes priorities p = (p', r) -> reached capacity alpha p'
| reached_sample p p' r randoms beta :
    reached capacity alpha p -> prio_sample randoms beta p = (p', r) -> reached capacity alpha p'
| reached_restore p q p' r :
    reached capacity alpha p -> reached capacity alpha q -> prio_set_state (prio_get_state q) p = (p', r) ->
    reached capacity alpha p'.

Lemma st_fold_keeps {S A B} (P : S -> Prop) (f : B -> A -> ST S B) l : forall b s s' r,
  (forall b x s s' r, f b x s = (s', r) -> P s -> P s') -> st_fold f b l s = (s', r) -> P s -> P s'.
Proof.
  induction l as [|x l IH]; intros b s s' r Hf E Hs; cbn [st_fold] in E; st_simpl in E; [by injection E as <- _|].
  destruct (f b x s) as [s1 [b1|e]] eqn:E1; [|injection E as <- _]; eauto.
Qed.

Lemma weigh_keeps capacity d ps beta mw acc idx p p' r :
  weigh beta mw acc idx p = (p', r) -> prio_ok capacity d p ps -> prio_ok capacity d p' ps.
Proof.
  intros E Hp. unfold weigh in E. st_simpl in E.
  repeat (case_match; simplify_eq; try done). by apply add_sampled_ok.
Qed.

Lemma prio_sample_keeps capacity d ps randoms beta p p' r :
  prio_sample randoms beta p = (p', r) -> prio_ok capacity d p ps -> prio_ok capacity d p' ps.
Proof.
  intros E Hp. unfold prio_sample in E. st_simpl in E.
  repeat match type of E with
  | match ?c with Ok _ => _ | Err _ => _ end = _ => destruct c; [|by injection E as <- _]
  end.
  destruct (st_fold _ _ _ _) as [p1 r1] eqn:E1.
  assert (prio_ok capacity d p1 ps) as Hp1.
  { eapply (st_fold_keeps (fun p => prio_ok capacity d p ps)); [|exact E1|done].
    intros acc idx s s' r2 E2 Hs. by eapply weigh_keeps. }
  destruct r1 as [[]|]; [|by injection E as <- _]. by destruct (_encode_sample _ _); injection E as <- _.
Qed.

Lemma reached_ok capacity alpha d p :
  (0 < capacity)%Z -> (0 < alpha)%Q -> tree_depth capacity d -> reached capacity alpha p ->
  exists ps, prio_ok capacity d p ps.
Proof.
  intros Hc Ha Hd. induction 1 as [p E | p p' r log_once total item weight _ [ps IH] Hw E |
    p p' r idxes priorities _ [ps IH] E | p p' r randoms beta _ [ps IH] E | p q p' r _ [ps IH] _ [qs IHq] E].
  - destruct (new_prioritized_ok capacity alpha d Hc Ha Hd) as (p0 & E0 & Hp). rewrite E in E0.
    injection E0 as <-. by exists [].
  - destruct (prio_add_ok _ _ _ _ _ _ _ _ _ _ IH Hw E) as [?|[_ ?]]; eauto.
  - by eapply update_priorities_ok.
  - exists ps. by eapply prio_sample_keeps.
  - destruct (restore_ok _ _ _ _ _ _ IH IHq) as [E' Hp']. rewrite E in E'. injection E' as -> _. eauto.
Qed.


(** Two buffers that agree on what [sample] reads *)
Definition same_content (p q : PrioritizedReplayBuffer) : Prop :=
  _storage (base p) = _storage (base q) /\ _it_sum p = _it_sum q /\ _it_min p = _it_min q.

Lemma weigh_same beta mw acc idx p q :
  same_content p q -> exists p' q' r, weigh beta mw acc idx p = (p', r) /\ weigh beta mw acc idx q = (q', r) /\
    same_content p' q'.
Proof.
  intros (E1 & E2 & E3). unfold weigh. st_simpl. rewrite E1, E2.
  by repeat (case_match; try (by eexists _, _, _)).
Qed.

Lemma weigh_all_same beta mw idxes : forall acc p q,
  same_content p q -> (st_fold (weigh beta mw) acc idxes p).2 = (st_fold (weigh beta mw) acc idxes q).2.
Proof.
  induction idxes as [|idx idxes IH]; intros acc p q H; cbn [st_fold]; st_simpl; [done|].
  destruct (weigh_same beta mw acc idx p q H) as (p' & q' & [r|e] & -> & -> & H'); [by apply IH | done].
Qed.

Lemma sample_same randoms beta p q :
  same_content p q -> (prio_sample randoms beta p).2 = (prio_sample randoms beta q).2.
Proof.
  intros H. pose proof H as (E1 & E2 & E3). unfold prio_sample, _sample_proportional, sample_one, _encode_sample. st_simpl.
  rewrite E1, E2, E3.
  repeat match goal with
  | |- (match ?c with Ok _ => _ | Err _ => _ end).2 = _ => destruct c; [|done]
  end.
  match goal with
  | |- (let (_, _) := st_fold (weigh ?b ?mw) ?acc ?l p in _).2 = _ => pose proof (weigh_all_same b mw l acc p q H) as Hf
  end.
  destruct (st_fold _ _ _ p) as [p1 r1], (st_fold _ _ _ q) as [q1 r2]. cbn [snd] in Hf. subst r2.
  destruct r1 as [[ws is_]|]; [|done]. by destruct (mapM_r _ _).
Qed.

(** Saving and restoring a prioritized buffer: [set_state(get_state())] of
    any reachable buffer, applied to any reachable buffer of the same capacity
    (a new one included), does not raise, gives a buffer with the same state,
    and from it [sample] returns exactly what the saved buffer returns for
    the same random numbers, whether it succeeds or raises. *)
Theorem replay_state_roundtrip capacity alpha p q randoms beta :
  (0 < capacity)%Z -> (0 < alpha)%Q -> reached capacity alpha p -> reached capacity alpha q ->
  exists p', prio_set_state (prio_get_state q) p = (p', Ok tt) /\ prio_get_state p' = prio_get_state q /\
    (prio_sample randoms beta p').2 = (prio_sample randoms beta q).2.
Proof.
  intros Hc Ha Hp Hq. destruct (tree_depth_exists capacity Hc) as [d Hd].
  destruct (reached_ok _ _ d p Hc Ha Hd Hp) as [ps Hps]. destruct (reached_ok _ _ d q Hc Ha Hd Hq) as [qs Hqs].
  exists (restored q p). split; [by eapply restore_ok|]. split; [done|]. by apply sample_same.
Qed.

End ReplayBuffer.

(** ** Examples *)

(** A power for whole exponents *)
Definition floor_pow (x y : Q) : Q := Qpower x (Qfloor y).

Lemma floor_pow_positive x y : (0 < x)%Q -> (0 < floor_pow x y)%Q.
Proof. apply Qpower_0_lt. Qed.


(** Items of two timesteps and eight bytes each *)
Definition two (_ : Z) : Z := 2.
Definition eight (_ : Z) : Z := 8.

Lemma replay_buffer_keeps_latest_witness :
  exists b, st_for [10; 11; 12; 13; 14]%Z (add two eight true 1000) (new_buffer 5) = (b, Ok tt) /\
    oldest_first b = [12; 13; 14]%Z.
Proof.
  destruct (replay_buffer_keeps_latest two eight true 1000 5 2 [10; 11; 12; 13; 14]%Z) as (b & E & Ho & _);
    [done | done | by_compute |]. exists b. by split.
Defined.

(** A prioritized buffer with two items, of which the second has priority 3 *)
Definition start : PrioritizedReplayBuffer (Item := Z) :=
  match new_prioritized 6 1 with
  | Ok p => p
  | Err _ => mkPrio (new_buffer 6) 1 (mkTree 1 Qplus 0%Q []) (mkTree 1 min_inf None []) 1 []
  end.
Definition with_items : PrioritizedReplayBuffer (Item := Z) :=
  let p1 := (prio_add two eight floor_pow true 1000 10%Z None start).1 in
  (prio_add two eight floor_pow true 1000 11%Z (Some 3%Q) p1).1.

Definition plain (_ : Z) : bool := false.
Abbreviation reached_example := (reached (Batch := list Z) two eight id plain two floor_pow 6 1%Q).

Lemma with_items_reached : reached_example with_items.
Proof.
  eapply reached_add; [eapply reached_add; [apply reached_new|..]|..]; [vm_compute; reflexivity | |
    apply surjective_pairing | | apply surjective_pairing]; done.
Qed.

Lemma start_reached : reached_example start.
Proof. apply reached_new. vm_compute. reflexivity. Qed.


Lemma replay_state_roundtrip_witness :
  exists p', prio_set_state (prio_get_state with_items) start = (p', Ok tt) /\
    prio_get_state p' = prio_get_state with_items.
Proof.
  destruct (replay_state_roundtrip two eight id plain two floor_pow floor_pow_positive
              6 1 start with_items [] 1 eq_refl eq_refl start_reached with_items_reached) as (p' & E & Es & _).
  exists p'. split; [exact E | exact Es].
Defined.

(** With items of unequal size the buffer does not drop its oldest items: after
    four items of one timestep and then any number of pairs of three timesteps
    a buffer for four timesteps holds eight, two of the first items among them. *)
Example stale_items_stay :
  let b := (st_for [1; 1; 1; 1; 3; 3; 3; 3; 3; 3]%Z (add id eight false 0) (new_buffer 4)).1 in
  _storage b = [3; 3; 1; 1]%Z.
Proof. vm_compute. reflexivity. Qed.
