(* ===== verification/TrialScheduler.v ===== *)
(** What Tune's schedulers share ([tune/schedulers/trial_scheduler.py],
    [tune/trial.py], [tune/result.py]): the decisions, the status of a trial, the
    search properties and the default scheduler, which runs trials in order. *)

From Stdlib Require Import ZArith QArith Lia.
From stdpp Require Import base list strings option.
From S2P Require Import Prelude PyDict.

(** [TrialScheduler.CONTINUE], [PAUSE] and [STOP] *)
Inductive action : Type := CONTINUE | PAUSE | STOP.
(** The status of a [Trial] *)
Inductive status : Type := PENDING | RUNNING | PAUSED | TERMINATED | ERROR.

#[global] Instance action_eq_dec : EqDecision action.
Proof. solve_decision. Defined.
#[global] Instance status_eq_dec : EqDecision status.
Proof. solve_decision. Defined.

(** A trial is identified by its id; a result maps names to numbers. *)
Notation trial := string (only parsing).
Notation result_dict := (dict string Q) (only parsing).

Definition DEFAULT_METRIC : string := "_metric".

(** [if s:] for an optional string *)
Definition truthy (s : option string) : bool :=
  match s with Some s => negb (bool_decide (s = EmptyString)) | None => false end.

(** ** The metric and its direction *)
Record search_props : Type := mkProps {
  _metric : option string;
  _mode : option string;
  _metric_op : option Q
}.

Definition op_of_mode (mode : option string) (old : option Q) : option Q :=
  if bool_decide (mode = Some "max") then Some 1%Q
  else if bool_decide (mode = Some "min") then Some (-1)%Q
  else old.

(** The constructor's [assert mode in ["min", "max"]] *)
Definition new_props (metric mode : option string) : result search_props :=
  _ ← (if truthy mode then py_assert (bool_decide (mode = Some "min") || bool_decide (mode = Some "max")) else Ok tt);
  Ok (mkProps metric mode (op_of_mode mode None)).

Definition set_search_properties (metric mode : option string) (p : search_props) : search_props * bool :=
  if truthy (_metric p) && truthy metric then (p, false)
  else if truthy (_mode p) && truthy mode then (p, false)
  else
    let m := if truthy metric then metric else _metric p in
    let d := if truthy mode then mode else _mode p in
    let m' := match m with None => if truthy d then Some DEFAULT_METRIC else None | Some _ => m end in
    (mkProps m' d (op_of_mode d (_metric_op p)), true).

(** [not self._metric or not self._metric_op] *)
Definition has_props (p : search_props) : bool :=
  truthy (_metric p) && match _metric_op p with Some op => negb (Qeq_bool op 0) | None => false end.

(** ** [FIFOScheduler.choose_trial_to_run]: the first pending trial for which
    there are resources, else the first paused one *)
Definition first_ready (s : status) (has_resources : trial -> bool) (trials : list (trial * status)) : option trial :=
  fst <$> (snd <$> list_find (fun t => t.2 = s /\ has_resources t.1 = true) trials).

Definition choose_trial_to_run (has_resources : trial -> bool) (trials : list (trial * status)) : option trial :=
  match first_ready PENDING has_resources trials with
  | Some t => Some t
  | None => first_ready PAUSED has_resources trials
  end.

(** Setting properties keeps them set. *)
Lemma set_search_properties_keeps metric mode p :
  has_props p = true -> has_props (set_search_properties metric mode p).1 = true.
Proof.
  unfold has_props, set_search_properties, op_of_mode. intros [Hm Hop]%andb_true_iff. rewrite Hm.
  destruct (truthy metric) eqn:Em; cbn [andb]; [cbn; by rewrite Hm, Hop|].
  destruct (truthy (_mode p) && truthy mode); cbn [fst]; [by rewrite Hm, Hop|].
  destruct (_metric p) as [m|]; [|done]. cbn [_metric _metric_op]. rewrite Hm. cbn [andb].
  by repeat case_bool_decide.
Qed.

Lemma has_props_some p : has_props p = true -> exists m op, _metric p = Some m /\ _metric_op p = Some op.
Proof.
  unfold has_props. intros [Hm Hop]%andb_true_iff.
  destruct (_metric p); [|done]. destruct (_metric_op p); [|done]. by eexists _, _.
Qed.
