(* ===== verification/Asha.v ===== *)
(** Tune's asynchronous successive halving
    ([tune/schedulers/async_hyperband.py]). *)

From Stdlib Require Import ZArith QArith Qround Qpower Lqa Lia Sorting.Sorted.
From stdpp Require Import base list strings option.
From S2P Require Import Prelude PyDict TrialScheduler.

Section Asha.
(** [np.log], and [np.nanpercentile] on a list of numbers *)
Variable log : Q -> Q.
Variable nanpercentile : list Q -> Q -> Q.

(** ** [_Bracket]: the rungs from the highest milestone down, each with the
    reward of every trial recorded at it *)

Record _Bracket : Type := mkBracket {
  rf : Q;
  _rungs : list (Q * dict trial Q)
}.

Definition new_bracket (min_t max_t reduction_factor : Q) (s : nat) : _Bracket :=
  let MAX_RUNGS := int_of_Q (log (max_t / min_t) / log reduction_factor - inject_Z (Z.of_nat s) + 1) in
  mkBracket reduction_factor
    (map (fun k => (min_t * Qpower reduction_factor (Z.of_nat (k + s)), [])%Q) (reverse (seq 0 (Z.to_nat MAX_RUNGS)))).

Definition cutoff (b : _Bracket) (recorded : dict trial Q) : option Q :=
  match recorded with
  | [] => None
  | _ => Some (nanpercentile (dvalues recorded) ((1 - 1 / rf b) * 100))
  end.

(** The [for] loop of [on_result] over the rungs, with its [break] *)
Fixpoint on_rungs (b : _Bracket) (t : trial) (cur_iter cur_rew : Q) (rungs : list (Q * dict trial Q)) :
  list (Q * dict trial Q) * action :=
  match rungs with
  | [] => ([], CONTINUE)
  | (milestone, recorded) :: rest =>
      if Qlt_bool cur_iter milestone || dmem t recorded
      then let '(rest', a) := on_rungs b t cur_iter cur_rew rest in ((milestone, recorded) :: rest', a)
      else let a := match cutoff b recorded with
                    | Some c => if Qlt_bool cur_rew c then STOP else CONTINUE
                    | None => CONTINUE
                    end in
           ((milestone, dset t cur_rew recorded) :: rest, a)
  end.

Definition on_result (t : trial) (cur_iter cur_rew : Q) (b : _Bracket) : _Bracket * action :=
  let '(rungs, a) := on_rungs b t cur_iter cur_rew (_rungs b) in (mkBracket (rf b) rungs, a).

(** ** [AsyncHyperBandScheduler]

    [_trial_info] refers to the brackets by their position in [_brackets]. *)

Record AsyncHyperBandScheduler : Type := mkAsha {
  _reduction_factor : Q;
  _max_t : Q;
  _trial_info : dict trial nat;
  _brackets : list _Bracket;
  _num_stopped : Z;
  props : search_props;
  _time_attr : string
}.

Definition set_info (info : dict trial nat) (a : AsyncHyperBandScheduler) : AsyncHyperBandScheduler :=
  mkAsha (_reduction_factor a) (_max_t a) info (_brackets a) (_num_stopped a) (props a) (_time_attr a).
Definition set_brackets (bs : list _Bracket) (a : AsyncHyperBandScheduler) : AsyncHyperBandScheduler :=
  mkAsha (_reduction_factor a) (_max_t a) (_trial_info a) bs (_num_stopped a) (props a) (_time_attr a).
Definition set_num_stopped (n : Z) (a : AsyncHyperBandScheduler) : AsyncHyperBandScheduler :=
  mkAsha (_reduction_factor a) (_max_t a) (_trial_info a) (_brackets a) n (props a) (_time_attr a).
Definition set_props (p : search_props) (a : AsyncHyperBandScheduler) : AsyncHyperBandScheduler :=
  mkAsha (_reduction_factor a) (_max_t a) (_trial_info a) (_brackets a) (_num_stopped a) p (_time_attr a).

Definition new_scheduler (time_attr : string) (metric mode : option string) (max_t grace_period reduction_factor : Q)
  (brackets : nat) : result AsyncHyperBandScheduler :=
  _ ← py_assert (Qlt_bool 0 max_t);
  _ ← py_assert (Qle_bool grace_period max_t);
  _ ← py_assert (Qlt_bool 0 grace_period);
  _ ← py_assert (Qlt_bool 1 reduction_factor);
  _ ← py_assert (0 <? brackets)%nat;
  p ← new_props metric mode;
  Ok (mkAsha reduction_factor max_t [] (map (new_bracket grace_period max_t reduction_factor) (seq 0 brackets)) 0 p time_attr).

(** [np.random.choice] draws [idx]. *)
Definition on_trial_add (t : trial) (idx : nat) : ST AsyncHyperBandScheduler unit :=
  a ← st_get;
  if has_props (props a)
  then match _brackets a !! idx with
       | Some _ => st_put (set_info (dset t idx (_trial_info a)) a)
       | None => st_raise IndexError
       end
  else st_raise ValueError.

(** [bracket.on_result(trial, time, self._metric_op * value)] *)
Definition bracket_result (t : trial) (time value : Q) : ST AsyncHyperBandScheduler action :=
  a ← st_get;
  idx ← st_lift (dgetitem t (_trial_info a));
  b ← st_lift (or_raise IndexError (_brackets a !! idx));
  op ← st_lift (or_raise TypeError (_metric_op (props a)));
  let '(b', act) := on_result t time (op * value)%Q b in
  _ ← st_put (set_brackets (<[idx := b']> (_brackets a)) a);
  mret act.

(** The time and the metric of a result that has both *)
Definition time_and_value (result : result_dict) (a : AsyncHyperBandScheduler) : option (Q * Q) :=
  match dget (_time_attr a) result, _metric (props a) with
  | Some time, Some metric => match dget metric result with Some v => Some (time, v) | None => None end
  | _, _ => None
  end.

Definition on_trial_result (t : trial) (result : result_dict) : ST AsyncHyperBandScheduler action :=
  a ← st_get;
  match time_and_value result a with
  | None => mret CONTINUE
  | Some (time, value) =>
      act ← (if Qle_bool (_max_t a) time then mret STOP else bracket_result t time value);
      _ ← (if decide (act = STOP) then st_modify (fun a => set_num_stopped (_num_stopped a + 1) a) else mret tt);
      mret act
  end.

Definition on_trial_remove (t : trial) : ST AsyncHyperBandScheduler unit :=
  a ← st_get;
  info ← st_lift (ddelitem t (_trial_info a));
  st_put (set_info info a).

Definition on_trial_complete (t : trial) (result : result_dict) : ST AsyncHyperBandScheduler unit :=
  a ← st_get;
  match time_and_value result a with
  | None => mret tt
  | Some (time, value) => _ ← bracket_result t time value; on_trial_remove t
  end.

Definition asha_set_search_properties (metric mode : option string) : ST AsyncHyperBandScheduler bool := fun a =>
  let '(p, ok) := set_search_properties metric mode (props a) in (set_props p a, Ok ok).

(** ** Counting the better trials *)

(** How many of the recorded rewards are strictly better *)
Definition better (r : Q) (l : list Q) : nat := length (List.filter (fun v => Qlt_bool r v) l).

(** The documented linear interpolation: the percentile lies between the two
    elements of the sorted list around the position [(n - 1) q / 100]. *)
Definition position (n : nat) (q : Q) : Q := (inject_Z (Z.of_nat n - 1) * q / 100)%Q.

Hypothesis percentile_interpolates : forall l q,
  l <> [] -> (0 <= q <= 100)%Q -> exists lo hi,
    py_sorted Qlt_bool l !! Z.to_nat (Qfloor (position (length l) q)) = Some lo /\
    py_sorted Qlt_bool l !! Z.to_nat (Qceiling (position (length l) q)) = Some hi /\
    (lo <= nanpercentile l q <= hi)%Q.

Lemma better_Permutation r l l' : l ≡ₚ l' -> better r l = better r l'.
Proof.
  unfold better. induction 1; cbn; repeat case_match; cbn; congruence.
Qed.

Lemma better_app r l1 l2 : better r (l1 ++ l2) = (better r l1 + better r l2)%nat.
Proof. unfold better. by rewrite List.filter_app, length_app. Qed.

Lemma better_all r l : Forall (fun v => r < v)%Q l -> better r l = length l.
Proof.
  unfold better. induction 1 as [|v l Hv _ IH]; [done|]. cbn. rewrite (proj2 (Qlt_bool_iff r v) Hv). cbn. congruence.
Qed.

Lemma better_none r l : Forall (fun v => v <= r)%Q l -> better r l = 0%nat.
Proof.
  unfold better. induction 1 as [|v l Hv _ IH]; [done|]. cbn. by rewrite (proj2 (Qlt_bool_false r v) Hv).
Qed.

Lemma better_le r l : (better r l <= length l)%nat.
Proof. unfold better. apply List.filter_length_le. Qed.

Lemma sorted_split (l : list Q) i x :
  StronglySorted (fun a b => Qlt_bool b a = false) l -> l !! i = Some x ->
  Forall (fun v => v <= x)%Q (take (S i) l) /\ Forall (fun v => x <= v)%Q (drop i l).
Proof.
  intros Hs. revert i. induction Hs as [|y l Hs IH Hy]; intros i Hi; [done|].
  assert (Forall (fun v => y <= v)%Q l) as Hyl.
  { eapply list.Forall_impl; [exact Hy|]. intros v Hv. by apply Qlt_bool_false. }
  destruct i as [|i]; cbn in *.
  - injection Hi as ->. rewrite take_0. split; constructor; [apply Qle_refl | done | apply Qle_refl | done].
  - destruct (IH i Hi) as [H1 H2]. split; [|done]. constructor; [|done].
    rewrite list.Forall_forall in Hyl. eapply Hyl, list_elem_of_lookup_2, Hi.
Qed.

(** A reward below the cutoff has many better ones, a reward from the cutoff on
    has few. *)
Lemma cutoff_rank (f r : Q) (l : list Q) :
  (1 < f)%Q -> l <> [] ->
  let n := inject_Z (Z.of_nat (length l) - 1) in let k := inject_Z (Z.of_nat (better r l)) in
  if Qlt_bool r (nanpercentile l ((1 - 1 / f) * 100)) then (n / f < k)%Q else (k < n / f + 1)%Q.
Proof.
  intros Hf Hne n k. set (q := ((1 - 1 / f) * 100)%Q).
  assert (0 <= 1 / f <= 1)%Q as Hinv by (split; [apply Qle_shift_div_l | apply Qle_shift_div_r]; lra).
  destruct (percentile_interpolates l q Hne) as (lo & hi & Hlo & Hhi & Hp); [unfold q; lra|].
  set (pos := position (length l) q) in *.
  assert (0 <= n)%Q as Hn.
  { unfold n. change 0%Q with (inject_Z 0). rewrite <- Zle_Qle. destruct l; [done | cbn; lia]. }
  assert (pos == n - n / f)%Q as Epos.
  { unfold pos, position, q, n. field. lra. }
  assert (n / f == n * (1 / f))%Q as Ediv by (field; lra).
  assert (0 <= pos)%Q as Hpos by (rewrite Epos, Ediv; nra).
  assert (StronglySorted (fun a b => Qlt_bool b a = false) (py_sorted Qlt_bool l)) as Hs.
  { apply py_sorted_sorted; [intros a b c | intros a b]; rewrite ?Qlt_bool_iff, ?Qlt_bool_false; intros; lra. }
  assert (better r (py_sorted Qlt_bool l) = better r l) as Eb by apply better_Permutation, py_sorted_Permutation.
  pose proof (Permutation_length (py_sorted_Permutation Qlt_bool l)) as El.
  destruct (Qlt_bool r _) eqn:E.
  - apply Qlt_bool_iff in E. destruct (sorted_split _ _ _ Hs Hhi) as [_ Hd].
    set (c := Z.to_nat (Qceiling pos)) in *.
    assert (length l - c <= better r l)%nat as Hk.
    { rewrite <- Eb, <- (take_drop c (py_sorted Qlt_bool l)), better_app, (better_all r (drop _ _)), length_drop; [lia|].
      eapply list.Forall_impl; [exact Hd|]. intros v Hv. cbn in *. lra. }
    pose proof (lookup_lt_Some _ _ _ Hhi) as Hc. rewrite El in Hc.
    pose proof (Qceiling_lt pos) as Hceil.
    assert (0 <= Qceiling pos)%Z by (change 0%Z with (Qceiling 0); by apply Qceiling_resp_le).
    assert (inject_Z (Z.of_nat (length l) - 1) - inject_Z (Qceiling pos - 1) <= k)%Q as Hle.
    { unfold k. unfold Qminus. rewrite <- inject_Z_opp, <- inject_Z_plus, <- Zle_Qle. lia. }
    fold n in Hle. lra.
  - apply Qlt_bool_false in E. destruct (sorted_split _ _ _ Hs Hlo) as [Ht _].
    set (c := Z.to_nat (Qfloor pos)) in *.
    assert (better r l <= length l - S c)%nat as Hk.
    { rewrite <- Eb, <- (take_drop (S c) (py_sorted Qlt_bool l)), better_app, (better_none r (take _ _)).
      - pose proof (better_le r (drop (S c) (py_sorted Qlt_bool l))) as H. rewrite length_drop, El in H. lia.
      - eapply list.Forall_impl; [exact Ht|]. intros v Hv. cbn in *. lra. }
    pose proof (lookup_lt_Some _ _ _ Hlo) as Hc. rewrite El in Hc.
    pose proof (Qlt_floor pos) as Hfl.
    assert (0 <= Qfloor pos)%Z by (change 0%Z with (Qfloor 0); by apply Qfloor_resp_le).
    assert (k <= inject_Z (Z.of_nat (length l) - 1) - inject_Z (Qfloor pos))%Q as Hle.
    { unfold k. unfold Qminus. rewrite <- inject_Z_opp, <- inject_Z_plus, <- Zle_Qle. lia. }
    fold n in Hle. rewrite inject_Z_plus in Hfl. change (inject_Z 1) with 1%Q in Hfl. lra.
Qed.

(** ** One result at one bracket *)

(** A rung that a result at [time] passes over *)
Definition passes (t : trial) (time : Q) (rung : Q * dict trial Q) : Prop :=
  (time < rung.1)%Q \/ t ∈ dkeys rung.2.

(** What a result does to the rungs: nothing when every rung is passed over,
    else it is recorded at the first one that is not, and the trial is stopped
    or continued by the number of better rewards recorded there before. *)
Definition rung_step (t : trial) (time r f : Q) (rungs rungs' : list (Q * dict trial Q)) (act : action) : Prop :=
  (Forall (passes t time) rungs /\ rungs' = rungs /\ act = CONTINUE) \/
  exists pre m recorded post,
    rungs = pre ++ (m, recorded) :: post /\ Forall (passes t time) pre /\ ~ passes t time (m, recorded) /\
    rungs' = pre ++ (m, dset t r recorded) :: post /\
    let n := inject_Z (Z.of_nat (length recorded) - 1) in
    let k := inject_Z (Z.of_nat (better r (dvalues recorded))) in
    match act with
    | STOP => recorded <> [] /\ (n / f < k)%Q
    | CONTINUE => (k < n / f + 1)%Q
    | PAUSE => False
    end.

Lemma on_rungs_step b t time r rungs :
  (1 < rf b)%Q -> let '(rungs', act) := on_rungs b t time r rungs in rung_step t time r (rf b) rungs rungs' act.
Proof.
  intros Hf. induction rungs as [|[m recorded] rest IH]; cbn [on_rungs]; [by left; split; [constructor|]|].
  destruct (Qlt_bool time m || dmem t recorded) eqn:E.
  - assert (passes t time (m, recorded)) as Hpass.
    { apply orb_true_iff in E as [?%Qlt_bool_iff | ?%dmem_true]; [by left | by right]. }
    destruct (on_rungs b t time r rest) as [rest' act].
    destruct IH as [(H & -> & ->)|(pre & m' & rec' & post & -> & Hpre & Hn & -> & Hact)].
    + left. by split; [constructor|].
    + right. exists ((m, recorded) :: pre), m', rec', post. split; [done|]. by split; [constructor|].
  - apply orb_false_iff in E as [E1%Qlt_bool_false E2%dmem_false]. right. exists [], m, recorded, rest.
    split; [done|]. split; [constructor|]. split; [intros [C|C]; cbn [fst snd] in C; [lra | done]|]. split; [done|].
    destruct recorded as [|p recorded]; cbn [cutoff].
    + change (0 < (-1) / rf b + 1)%Q. assert (1 / rf b < 1)%Q by (apply Qlt_shift_div_r; lra).
      assert ((-1) / rf b == - (1 / rf b))%Q as -> by (field; lra). lra.
    + pose proof (cutoff_rank (rf b) r (dvalues (p :: recorded)) Hf ltac:(done)) as H.
      unfold dvalues in H at 1. rewrite length_fmap in H. destruct (Qlt_bool r _); [|exact H]. split; [done | exact H].
Qed.

(** ** Every history of calls *)

Inductive event : Type :=
| Add (t : trial) (idx : nat)
| Result (t : trial) (result : result_dict)
| Complete (t : trial) (result : result_dict)
| Remove (t : trial)
| Properties (metric mode : option string).

(** The scheduler after the call, also when it raises *)
Definition after (a : AsyncHyperBandScheduler) (e : event) : AsyncHyperBandScheduler :=
  match e with
  | Add t idx => (on_trial_add t idx a).1
  | Result t result => (on_trial_result t result a).1
  | Complete t result => (on_trial_complete t result a).1
  | Remove t => (on_trial_remove t a).1
  | Properties metric mode => (asha_set_search_properties metric mode a).1
  end.

Record asha_ok (min_t : Q) (a : AsyncHyperBandScheduler) : Prop := mkAshaOk {
  asha_factor : (1 < _reduction_factor a)%Q;
  asha_props : _trial_info a = [] \/ has_props (props a) = true;
  asha_info : forall t idx, dget t (_trial_info a) = Some idx -> (idx < length (_brackets a))%nat;
  asha_wf : dwf (_trial_info a);
  asha_brackets : forall idx b, _brackets a !! idx = Some b ->
    rf b = _reduction_factor a /\
    map fst (_rungs b) = map fst (_rungs (new_bracket min_t (_max_t a) (_reduction_factor a) idx))
}.

Lemma rung_step_milestones t time r f rungs rungs' act :
  rung_step t time r f rungs rungs' act -> map fst rungs' = map fst rungs.
Proof. intros [(_ & -> & _)|(pre & m & rec & post & -> & _ & _ & -> & _)]; [done|]. by rewrite !map_app. Qed.

(** What a call on a bracket does when the trial is known *)
Lemma bracket_result_ok min_t a t idx time value :
  asha_ok min_t a -> dget t (_trial_info a) = Some idx ->
  exists b b' op act, _brackets a !! idx = Some b /\ _metric_op (props a) = Some op /\
    rf b = _reduction_factor a /\ rf b' = rf b /\
    map fst (_rungs b) = map fst (_rungs (new_bracket min_t (_max_t a) (_reduction_factor a) idx)) /\
    rung_step t time (op * value) (_reduction_factor a) (_rungs b) (_rungs b') act /\
    bracket_result t time value a = (set_brackets (<[idx := b']> (_brackets a)) a, Ok act).
Proof.
  intros [Hf Hp Hi _ Hb] Ht. destruct (lookup_lt_is_Some_2 _ _ (Hi _ _ Ht)) as [b Eb].
  destruct (Hb _ _ Eb) as [Erf Em]. destruct Hp as [Hp|Hp]; [by rewrite Hp in Ht|].
  destruct (has_props_some _ Hp) as (m & op & _ & Eop).
  unfold bracket_result, on_result, dgetitem. st_simpl. rewrite Ht. cbn [or_raise]. rewrite Eb, Eop. cbn [or_raise].
  pose proof (on_rungs_step b t time (op * value) (_rungs b) ltac:(by rewrite Erf)) as Hstep.
  destruct (on_rungs b t time (op * value) (_rungs b)) as [rungs' act]. rewrite Erf in Hstep.
  exists b, (mkBracket (rf b) rungs'), op, act. by split_and!.
Qed.

Lemma set_bracket_ok min_t a idx b b' :
  asha_ok min_t a -> _brackets a !! idx = Some b -> rf b' = rf b -> map fst (_rungs b') = map fst (_rungs b) ->
  asha_ok min_t (set_brackets (<[idx := b']> (_brackets a)) a).
Proof.
  intros [Hf Hp Hi Hw Hb] Eb E1 E2. split; cbn [_reduction_factor _trial_info props set_brackets _brackets _max_t]; try done.
  - intros t i Ht. rewrite length_insert. eauto.
  - intros i c Hc. apply list_lookup_insert_Some in Hc as [(-> & -> & _)|[_ Hc]]; [|by apply Hb].
    rewrite E1, E2. by apply Hb.
Qed.

Lemma bracket_result_keeps min_t a t time value :
  asha_ok min_t a -> asha_ok min_t (bracket_result t time value a).1.
Proof.
  intros Ha. destruct (dget t (_trial_info a)) as [idx|] eqn:Et.
  - destruct (bracket_result_ok min_t a t idx time value Ha Et)
      as (b & b' & op & act & Eb & _ & _ & Er & _ & Hs & ->). cbn [fst].
    eapply set_bracket_ok; [done | exact Eb | done | by eapply rung_step_milestones].
  - unfold bracket_result, dgetitem. st_simpl. by rewrite Et.
Qed.

Lemma remove_keeps min_t a t : asha_ok min_t a -> asha_ok min_t (on_trial_remove t a).1.
Proof.
  intros Ha. unfold on_trial_remove, ddelitem. st_simpl. destruct (dmem t (_trial_info a)) eqn:E; [|done].
  destruct Ha as [Hf Hp Hi Hw Hb]. split; cbn [fst set_info _trial_info props _brackets _reduction_factor _max_t]; try done.
  - destruct Hp as [Hp|Hp]; [by rewrite Hp in E | by right].
  - intros t' idx. rewrite dget_ddel by done. case_decide; [done | apply Hi].
  - by apply dwf_ddel.
Qed.

Lemma after_ok min_t a e : asha_ok min_t a -> asha_ok min_t (after a e).
Proof.
  intros Ha. destruct e as [t idx|t res|t res|t|metric mode]; cbn [after].
  - unfold on_trial_add. st_simpl. destruct (has_props (props a)) eqn:Ep; [|done].
    destruct (_brackets a !! idx) as [b|] eqn:Eb; [|done].
    destruct Ha as [Hf Hp Hi Hw Hb]. split; cbn [fst set_info _trial_info props _brackets _reduction_factor _max_t];
      [done | by right | | by apply dwf_dset | done].
    intros t' i. rewrite dget_dset. case_decide; [intros [= <-]; by eapply lookup_lt_Some | apply Hi].
  - unfold on_trial_result. st_simpl. destruct (time_and_value res a) as [[time value]|]; [|done].
    pose proof (bracket_result_keeps min_t a t time value Ha) as Hk.
    destruct (Qle_bool (_max_t a) time); [by destruct Ha; split|].
    destruct (bracket_result t time value a) as [a' [act|e]]; [|done].
    destruct (decide (act = STOP)); [by destruct Hk; split | done].
  - unfold on_trial_complete. st_simpl. destruct (time_and_value res a) as [[time value]|]; [|done].
    pose proof (bracket_result_keeps min_t a t time value Ha) as Hk.
    destruct (bracket_result t time value a) as [a' [act|e]]; [|done]. by apply remove_keeps.
  - by apply remove_keeps.
  - unfold asha_set_search_properties. destruct (set_search_properties metric mode (props a)) as [p ok] eqn:E. cbn [fst].
    destruct Ha as [Hf Hp Hi Hw Hb]. split; cbn; try done. destruct Hp as [Hp|Hp]; [by left|right].
    pose proof (set_search_properties_keeps metric mode (props a) Hp) as H. by rewrite E in H.
Qed.

Lemma new_scheduler_ok time_attr metric mode max_t grace_period factor n a :
  new_scheduler time_attr metric mode max_t grace_period factor n = Ok a ->
  asha_ok grace_period a /\ _max_t a = max_t /\ _reduction_factor a = factor.
Proof.
  unfold new_scheduler. intros E. simpl_result. split; [|done].
  destruct (Qlt_bool 1 factor) eqn:Ef; [|done]. apply Qlt_bool_iff in Ef.
  split; cbn; [done | by left | done | constructor |].
  intros idx b Hb. rewrite list_lookup_fmap in Hb. destruct (seq 0 n !! idx) as [s|] eqn:Es; [|done].
  apply lookup_seq in Es as [-> _]. by injection Hb as <-.
Qed.

Lemma asha_history_ok min_t es : forall a, asha_ok min_t a -> asha_ok min_t (foldl after a es).
Proof. induction es as [|e es IH]; intros a Ha; [done|]. by apply IH, after_ok. Qed.

Lemma after_config a e : _max_t (after a e) = _max_t a /\ _reduction_factor (after a e) = _reduction_factor a.
Proof.
  destruct e; cbn [after]; unfold on_trial_add, on_trial_result, on_trial_complete, on_trial_remove,
    asha_set_search_properties, bracket_result; st_simpl; repeat (case_match; simplify_eq; try done).
Qed.

Lemma history_config es : forall a,
  _max_t (foldl after a es) = _max_t a /\ _reduction_factor (foldl after a es) = _reduction_factor a.
Proof.
  induction es as [|e es IH]; intros a; [done|]. cbn [foldl]. destruct (IH (after a e)) as [-> ->]. apply after_config.
Qed.

(** C23. Asynchronous successive halving. After any history of calls on a new
    scheduler, a result of a known trial that has the time and the metric is
    decided without an exception. From [max_t] on the trial is stopped. Before,
    the trial's bracket, whose milestones are [grace_period * factor**(k + s)]
    as on creation, passes over the rungs that the trial has not reached or is
    recorded at; when none is left the trial continues, else its reward is
    recorded at the first one left, and the [n] rewards recorded there before
    decide: it is stopped only when more than [(n - 1) / factor] of them are
    strictly better, and continues only when fewer than [(n - 1) / factor + 1]
    are, so that the top [1 / factor] of a rung goes on and a trial that is
    the best of its rung is never stopped. Stopped trials are counted. *)
Theorem asha_keeps_top_fraction time_attr metric mode max_t grace_period factor n a0 es t idx result time value :
  new_scheduler time_attr metric mode max_t grace_period factor n = Ok a0 ->
  let a := foldl after a0 es in
  dget t (_trial_info a) = Some idx -> time_and_value result a = Some (time, value) ->
  exists a' act, on_trial_result t result a = (a', Ok act) /\
    _num_stopped a' = (_num_stopped a + if decide (act = STOP) then 1 else 0)%Z /\
    if Qle_bool max_t time then act = STOP /\ _brackets a' = _brackets a
    else exists b b' op, _brackets a !! idx = Some b /\ _brackets a' = <[idx := b']> (_brackets a) /\
      _metric_op (props a) = Some op /\
      map fst (_rungs b) = map fst (_rungs (new_bracket grace_period max_t factor idx)) /\
      rung_step t time (op * value) factor (_rungs b) (_rungs b') act.
Proof.
  intros E a Ht Htv. destruct (new_scheduler_ok _ _ _ _ _ _ _ _ E) as (Ha & <- & <-).
  apply (asha_history_ok _ es) in Ha. destruct (history_config es a0) as [<- <-]. fold a in Ha |- *.
  unfold on_trial_result. st_simpl. rewrite Htv. destruct (Qle_bool (_max_t a) time) eqn:El.
  - eexists _, STOP; split; [reflexivity|]. by rewrite decide_True by done.
  - destruct (bracket_result_ok grace_period a t idx time value Ha Ht)
      as (b & b' & op & act & Eb & Eop & _ & _ & Em & Hs & ->).
    exists (if decide (act = STOP) then set_num_stopped (_num_stopped a + 1) (set_brackets (<[idx:=b']> (_brackets a)) a)
            else set_brackets (<[idx:=b']> (_brackets a)) a), act.
    destruct (decide (act = STOP)); (split; [done|]; split; [cbn; lia|]; by exists b, b', op).
Qed.

End Asha.

(** ** An example

    Linear interpolation as numpy documents it. *)
Definition linear_percentile (l : list Q) (q : Q) : Q :=
  let s := py_sorted Qlt_bool l in
  let pos := position (length l) q in
  let at_pos z := default 0%Q (s !! Z.to_nat z) in
  let lo := at_pos (Qfloor pos) in
  (lo + (pos - inject_Z (Qfloor pos)) * (at_pos (Qceiling pos) - lo))%Q.

Lemma linear_percentile_interpolates l q :
  l <> [] -> (0 <= q <= 100)%Q -> exists lo hi,
    py_sorted Qlt_bool l !! Z.to_nat (Qfloor (position (length l) q)) = Some lo /\
    py_sorted Qlt_bool l !! Z.to_nat (Qceiling (position (length l) q)) = Some hi /\
    (lo <= linear_percentile l q <= hi)%Q.
Proof.
  intros Hne Hq. set (pos := position (length l) q).
  assert (0 <= pos <= inject_Z (Z.of_nat (length l) - 1))%Q as Hpos.
  { assert (0 <= inject_Z (Z.of_nat (length l) - 1))%Q as Hn.
    { change 0%Q with (inject_Z 0). rewrite <- Zle_Qle. destruct l; [done | cbn; lia]. }
    unfold pos, position. split; [apply Qle_shift_div_l | apply Qle_shift_div_r]; try lra; nra. }
  pose proof (Permutation_length (py_sorted_Permutation Qlt_bool l)) as El.
  assert (0 <= Qfloor pos)%Z by (change 0%Z with (Qfloor 0); apply Qfloor_resp_le, Hpos).
  assert (Qceiling pos <= Z.of_nat (length l) - 1)%Z.
  { rewrite <- (Qceiling_Z (Z.of_nat (length l) - 1)). apply Qceiling_resp_le, Hpos. }
  assert (Qfloor pos <= Qceiling pos <= Qfloor pos + 1)%Z as Hfc.
  { pose proof (Qfloor_le pos). pose proof (Qle_ceiling pos). pose proof (Qlt_floor pos). pose proof (Qceiling_lt pos).
    split; [rewrite Zle_Qle; lra|].
    enough (Qceiling pos - 1 < Qfloor pos + 1)%Z by lia. rewrite Zlt_Qlt. lra. }
  destruct (lookup_lt_is_Some_2 (py_sorted Qlt_bool l) (Z.to_nat (Qfloor pos))) as [lo Elo]; [lia|].
  destruct (lookup_lt_is_Some_2 (py_sorted Qlt_bool l) (Z.to_nat (Qceiling pos))) as [hi Ehi]; [lia|].
  exists lo, hi. split; [done|]. split; [done|]. unfold linear_percentile. fold pos. rewrite Elo, Ehi. cbn [default].
  assert (lo <= hi)%Q as Hle.
  { assert (StronglySorted (fun a b => Qlt_bool b a = false) (py_sorted Qlt_bool l)) as Hs.
    { apply py_sorted_sorted; [intros a b c | intros a b]; rewrite ?Qlt_bool_iff, ?Qlt_bool_false; intros; lra. }
    destruct (sorted_split _ _ _ Hs Elo) as [_ Hd]. rewrite list.Forall_forall in Hd. apply Hd.
    apply list_elem_of_lookup. exists (Z.to_nat (Qceiling pos) - Z.to_nat (Qfloor pos))%nat.
    rewrite lookup_drop. rewrite <- Ehi. f_equal. lia. }
  pose proof (Qfloor_le pos). pose proof (Qlt_floor pos) as Hlt. rewrite inject_Z_plus in Hlt.
  change (inject_Z 1) with 1%Q in Hlt.
  pose proof (Qmult_le_0_compat (pos - inject_Z (Qfloor pos)) (hi - lo) ltac:(lra) ltac:(lra)).
  pose proof (Qmult_le_0_compat (1 - (pos - inject_Z (Qfloor pos))) (hi - lo) ltac:(lra) ltac:(lra)).
  set (d := inject_Z (Qfloor pos)) in *. clearbody d pos. unfold id. split; lra.
Qed.

(** Three trials at the rung of milestone 1, where the third is the worst *)
Definition some_log (x : Q) : Q := x.
Definition example_history : list event :=
  [Add "a" 0; Add "b" 0; Add "c" 0; Result "a" [("t", 1%Q); ("m", 5%Q)]; Result "b" [("t", 1%Q); ("m", 7%Q)]].

Lemma asha_keeps_top_fraction_witness :
  exists a0, new_scheduler some_log "t" (Some "m") (Some "max") 4 1 2 1 = Ok a0 /\
    exists a', on_trial_result linear_percentile "c" [("t", 1%Q); ("m", 2%Q)]
                 (foldl (after linear_percentile) a0 example_history) = (a', Ok STOP).
Proof.
  eexists. split; [vm_compute; reflexivity|].
  match goal with |- exists a', on_trial_result _ _ _ (foldl _ ?a0 _) = _ =>
    destruct (asha_keeps_top_fraction some_log linear_percentile linear_percentile_interpolates
      "t" (Some "m") (Some "max") 4 1 2 1 a0 example_history "c" 0 [("t", 1%Q); ("m", 2%Q)] 1%Q 2%Q) as (a' & act & E & _);
      [vm_compute; reflexivity.. |]
  end.
  exists a'. rewrite E. f_equal. apply (f_equal snd) in E. revert E. vm_compute. congruence.
Defined.
