(* ===== verification/HyperBand.v ===== *)
(** Tune's HyperBand scheduler ([tune/schedulers/hyperband.py]) and the part of
    the trial runner that drives it ([tune/trial_runner.py],
    [tune/trial_executor.py]).

    Stopping a paused trial makes the runner call the scheduler again, so that
    [_process_bracket] can run inside itself. *)

From Stdlib Require Import ZArith QArith Qround Qpower Lqa Lia Sorting.Sorted.
From stdpp Require Import base list strings option.
From S2P Require Import Prelude PyDict TrialScheduler.

(** ** [Bracket] *)

Record Bracket : Type := mkBracket {
  _live_trials : dict trial (option result_dict);
  _all_trials : list trial;
  b_time_attr : string;
  _n : Z;
  _r : Z;
  _cumul_r : Z;
  b_max_t_attr : Z;
  b_eta : Q;
  _halves : nat;
  _total_work : Z;
  _completed_progress : Q;
  stop_last_trials : bool
}.

Definition set_live (l : dict trial (option result_dict)) (b : Bracket) : Bracket :=
  mkBracket l (_all_trials b) (b_time_attr b) (_n b) (_r b) (_cumul_r b) (b_max_t_attr b) (b_eta b) (_halves b)
    (_total_work b) (_completed_progress b) (stop_last_trials b).
Definition set_all (l : list trial) (b : Bracket) : Bracket :=
  mkBracket (_live_trials b) l (b_time_attr b) (_n b) (_r b) (_cumul_r b) (b_max_t_attr b) (b_eta b) (_halves b)
    (_total_work b) (_completed_progress b) (stop_last_trials b).
Definition add_progress (q : Q) (b : Bracket) : Bracket :=
  mkBracket (_live_trials b) (_all_trials b) (b_time_attr b) (_n b) (_r b) (_cumul_r b) (b_max_t_attr b) (b_eta b)
    (_halves b) (_total_work b) (_completed_progress b + q) (stop_last_trials b).

(** The number of trials and the milestone of the next round *)
Definition next_n (eta : Q) (n : Z) : Z := Qceiling (inject_Z n / eta).
Definition next_r (eta : Q) (r max_t cumulative_r : Z) : Z :=
  int_of_Q (Qmin_py (inject_Z r * eta) (inject_Z (max_t - cumulative_r))).

Fixpoint total_work_loop (rounds : nat) (eta : Q) (max_t cumulative_r work n r : Z) : Z :=
  match rounds with
  | O => work
  | S rounds' => total_work_loop rounds' eta max_t cumulative_r (work + n * r) (next_n eta n)
                   (next_r eta r max_t cumulative_r)
  end.
Definition _calculate_total_work (eta : Q) (max_t n r : Z) (s : nat) : Z :=
  total_work_loop (S s) eta max_t r 0 n r.

Definition new_bracket (time_attr : string) (max_trials init_t_attr max_t_attr : Z) (eta : Q) (s : nat)
  (stop_last : bool) : Bracket :=
  mkBracket [] [] time_attr max_trials init_t_attr init_t_attr max_t_attr eta s
    (_calculate_total_work eta max_t_attr max_trials init_t_attr s) 0 stop_last.

Definition _get_result_time (b : Bracket) (r : option result_dict) : result Q :=
  match r with None => Ok 0%Q | Some d => dgetitem (b_time_attr b) d end.

(** [all(... for result in ...)] stops at the first one that is not done. *)
Fixpoint all_done (b : Bracket) (rs : list (option result_dict)) : result bool :=
  match rs with
  | [] => Ok true
  | r :: rs' => t ← _get_result_time b r; if Qle_bool (inject_Z (_cumul_r b)) t then all_done b rs' else Ok false
  end.
Definition cur_iter_done (b : Bracket) : result bool := all_done b (dvalues (_live_trials b)).

Definition finished (b : Bracket) : result bool :=
  if stop_last_trials b then if (_halves b =? 0)%nat then cur_iter_done b else Ok false else Ok false.

Definition current_trials (b : Bracket) : list trial := dkeys (_live_trials b).

Definition continue_trial (t : trial) (b : Bracket) : result bool :=
  r ← dgetitem t (_live_trials b);
  if negb (stop_last_trials b) && (_halves b =? 0)%nat then Ok true
  else time ← _get_result_time b r; Ok (Qlt_bool time (inject_Z (_cumul_r b))).

Definition filled (b : Bracket) : bool := (Z.of_nat (length (_live_trials b)) =? _n b)%Z.

Definition add_trial (t : trial) : ST Bracket unit :=
  b ← st_get;
  _ ← st_lift (py_assert (negb (filled b)));
  st_put (set_all (_all_trials b ++ [t]) (set_live (dset t None (_live_trials b)) b)).

(** The next round's numbers *)
Definition halve (b : Bracket) : Bracket :=
  let r := next_r (b_eta b) (_r b) (b_max_t_attr b) (_cumul_r b) in
  mkBracket (_live_trials b) (_all_trials b) (b_time_attr b) (next_n (b_eta b) (_n b)) r r (b_max_t_attr b) (b_eta b)
    (_halves b - 1) (_total_work b) (_completed_progress b) (stop_last_trials b).

(** [metric_op * self._live_trials[t][metric]]; subscripting [None] raises. *)
Definition sort_key (metric : string) (op : Q) (live : trial * option result_dict) : result (Q * trial) :=
  d ← or_raise TypeError live.2; v ← dgetitem metric d; Ok (op * v, live.1)%Q.

(** [l[-n:]] and [l[:-n]] *)
Definition split_last {A} (n : nat) (l : list A) : list A * list A :=
  if (n =? 0)%nat then (l, []) else (drop (length l - n) l, take (length l - n) l).

Definition successive_halving (metric : string) (op : Q) : ST Bracket (list trial * list trial) :=
  b ← st_get;
  if (_halves b =? 0)%nat && negb (stop_last_trials b) then mret (current_trials b, [])
  else
    _ ← st_lift (py_assert (0 <? _halves b)%nat);
    _ ← st_modify halve;
    b ← st_get;
    keyed ← st_lift (mapM_r (sort_key metric op) (_live_trials b));
    let sorted_trials := map snd (py_sorted (fun x y => Qlt_bool x.1 y.1) keyed) in
    mret (split_last (Z.to_nat (_n b)) sorted_trials).

Definition update_trial_stats (t : trial) (r : result_dict) : ST Bracket unit :=
  b ← st_get;
  _ ← st_lift (py_assert (dmem t (_live_trials b)));
  observed ← st_lift (_get_result_time b (Some r));
  _ ← st_lift (py_assert (Qle_bool 0 observed));
  old ← st_lift (dgetitem t (_live_trials b));
  last ← st_lift (_get_result_time b old);
  _ ← st_modify (add_progress (observed - last)%Q);
  st_modify (set_live (dset t (Some r) (_live_trials b))).

Definition cleanup_trial (t : trial) : ST Bracket unit :=
  b ← st_get;
  _ ← st_lift (py_assert (dmem t (_live_trials b)));
  st_put (set_live (ddel t (_live_trials b)) b).

Definition completion_percentage (b : Bracket) : result Q :=
  f ← finished b;
  if f : bool then Ok 1%Q
  else if (_total_work b =? 0)%Z then Err ZeroDivisionError
  else Ok (Qmin_py (_completed_progress b / inject_Z (_total_work b)) 1)%Q.

(** ** [HyperBandScheduler]

    Brackets are shared between the bands, the trials and the current state:
    they are kept in [brackets] and referred to by position. *)

Record HyperBandScheduler : Type := mkHyperBand {
  _eta : Q;
  _s_max_1 : nat;
  _max_t_attr : Z;
  brackets : list Bracket;
  _hyperbands : list (list (option nat));
  _trial_info : dict trial (nat * nat);
  state_bracket : option nat;
  state_band_idx : nat;
  _num_stopped : Z;
  props : search_props;
  _time_attr : string;
  _stop_last_trials : bool
}.

(** The scheduler and the trials of the runner that it sees *)
Record world : Type := mkWorld {
  sched : HyperBandScheduler;
  trials : dict trial status
}.

Definition with_brackets (bs : list Bracket) (h : HyperBandScheduler) : HyperBandScheduler :=
  mkHyperBand (_eta h) (_s_max_1 h) (_max_t_attr h) bs (_hyperbands h) (_trial_info h) (state_bracket h)
    (state_band_idx h) (_num_stopped h) (props h) (_time_attr h) (_stop_last_trials h).
Definition with_bands (bands : list (list (option nat))) (bracket : option nat) (idx : nat) (h : HyperBandScheduler) :
  HyperBandScheduler :=
  mkHyperBand (_eta h) (_s_max_1 h) (_max_t_attr h) (brackets h) bands (_trial_info h) bracket idx
    (_num_stopped h) (props h) (_time_attr h) (_stop_last_trials h).
Definition with_info (info : dict trial (nat * nat)) (h : HyperBandScheduler) : HyperBandScheduler :=
  mkHyperBand (_eta h) (_s_max_1 h) (_max_t_attr h) (brackets h) (_hyperbands h) info (state_bracket h)
    (state_band_idx h) (_num_stopped h) (props h) (_time_attr h) (_stop_last_trials h).
Definition with_stopped (n : Z) (h : HyperBandScheduler) : HyperBandScheduler :=
  mkHyperBand (_eta h) (_s_max_1 h) (_max_t_attr h) (brackets h) (_hyperbands h) (_trial_info h) (state_bracket h)
    (state_band_idx h) n (props h) (_time_attr h) (_stop_last_trials h).
Definition with_props (p : search_props) (h : HyperBandScheduler) : HyperBandScheduler :=
  mkHyperBand (_eta h) (_s_max_1 h) (_max_t_attr h) (brackets h) (_hyperbands h) (_trial_info h) (state_bracket h)
    (state_band_idx h) (_num_stopped h) p (_time_attr h) (_stop_last_trials h).
Definition set_sched (h : HyperBandScheduler) (w : world) : world := mkWorld h (trials w).
Definition set_status (t : trial) (s : status) : ST world unit :=
  st_modify (fun w => mkWorld (sched w) (dset t s (trials w))).

(** [log_max_t] is [np.round(np.log(max_t) / np.log(reduction_factor))]. *)
Definition new_scheduler (time_attr : string) (metric mode : option string) (max_t : Z) (reduction_factor : Q)
  (stop_last : bool) (log_max_t : Z) : result HyperBandScheduler :=
  _ ← py_assert (0 <? max_t)%Z;
  p ← new_props metric mode;
  Ok (mkHyperBand reduction_factor (Z.to_nat (log_max_t + 1)) max_t [] [[]] [] None 0 0 p time_attr stop_last).

Definition _get_n0 (h : HyperBandScheduler) (s : nat) : Z :=
  Qceiling (inject_Z (Z.of_nat (_s_max_1 h)) / inject_Z (Z.of_nat (s + 1)) * Qpower (_eta h) (Z.of_nat s)).
Definition _get_r0 (h : HyperBandScheduler) (s : nat) : Z :=
  int_of_Q (inject_Z (_max_t_attr h) * Qpower (_eta h) (- Z.of_nat s)).

Definition _create_bracket (s : nat) (h : HyperBandScheduler) : Bracket :=
  new_bracket (_time_attr h) (_get_n0 h s) (_get_r0 h s) (_max_t_attr h) (_eta h) s (_stop_last_trials h).

(** An operation on the bracket at a position *)
Definition on_bracket {A} (bid : nat) (m : ST Bracket A) : ST world A := fun w =>
  match brackets (sched w) !! bid with
  | Some b => let '(b', r) := m b in (set_sched (with_brackets (<[bid := b']> (brackets (sched w))) (sched w)) w, r)
  | None => (w, Err IndexError)
  end.
Definition ask_bracket {A} (bid : nat) (f : Bracket -> result A) : ST world A :=
  on_bracket bid (b ← st_get; st_lift (f b)).

Definition _cur_band_filled (h : HyperBandScheduler) : bool :=
  (length (default [] (_hyperbands h !! state_band_idx h)) =? _s_max_1 h)%nat.

(** One round of [while retry]: a new band when the current one is filled, then a
    new bracket, or no bracket when it would be too small *)
Definition new_band_if_filled (h : HyperBandScheduler) : HyperBandScheduler :=
  if _cur_band_filled h then with_bands (_hyperbands h ++ [[]]) (state_bracket h) (S (state_band_idx h)) h else h.

Definition append_to_band (entry : option nat) (h : HyperBandScheduler) : HyperBandScheduler :=
  with_bands (alter (fun band => band ++ [entry]) (state_band_idx h) (_hyperbands h)) entry (state_band_idx h) h.

Fixpoint find_bracket (fuel : nat) : ST HyperBandScheduler unit :=
  match fuel with
  | O => st_raise OutOfFuel
  | S fuel' =>
      _ ← st_modify new_band_if_filled;
      h ← st_get;
      let s := length (default [] (_hyperbands h !! state_band_idx h)) in
      _ ← st_lift (py_assert (s <? _s_max_1 h)%nat);
      if (_get_r0 h s =? 0)%Z
      then _ ← st_put (append_to_band None h); find_bracket fuel'
      else st_put (append_to_band (Some (length (brackets h))) (with_brackets (brackets h ++ [_create_bracket s h]) h))
  end.

Definition bracket_filled (h : HyperBandScheduler) : bool :=
  match state_bracket h with
  | Some bid => match brackets h !! bid with Some b => filled b | None => true end
  | None => true
  end.

Definition on_trial_add (t : trial) : ST world unit :=
  h ← st_gets sched;
  if has_props (props h)
  then
    _ ← st_zoom sched set_sched (if bracket_filled h then find_bracket (S (S (_s_max_1 h))) else mret tt);
    h ← st_gets sched;
    bid ← st_lift (or_raise AttributeError (state_bracket h));
    _ ← on_bracket bid (add_trial t);
    st_modify (fun w => set_sched (with_info (dset t (bid, state_band_idx (sched w)) (_trial_info (sched w))) (sched w)) w)
  else st_raise ValueError.

(** ** The runner's side *)

Definition status_of (t : trial) : ST world status := w ← st_get; st_lift (dgetitem t (trials w)).

(** [trial_executor.stop_trial] *)
Definition executor_stop (t : trial) (error : bool) : ST world unit :=
  set_status t (if error then ERROR else TERMINATED).

(** [trial_executor.unpause_trial] *)
Definition unpause_trial (t : trial) : ST world unit :=
  s ← status_of t;
  _ ← st_lift (py_assert (bool_decide (s = PAUSED)));
  set_status t PENDING.

(** [trial_executor.pause_trial], whose checkpoint succeeds *)
Definition pause_trial (t : trial) : ST world unit :=
  s ← status_of t;
  _ ← st_lift (py_assert (bool_decide (s = RUNNING)));
  _ ← executor_stop t false;
  set_status t PAUSED.

(** [TrialRunner.stop_trial]: [on_trial_remove] is the scheduler's handler for a
    removed, completed or failed trial; [fetched] says whether a running
    trial's result can be fetched. *)
Definition runner_stop (on_trial_remove : trial -> ST world unit) (fetched : bool) (t : trial) : ST world unit :=
  s ← status_of t;
  match s with
  | ERROR | TERMINATED => mret tt
  | PENDING | PAUSED => _ ← on_trial_remove t; executor_stop t false
  | RUNNING =>
      error ← st_try (if fetched then _ ← on_trial_remove t; mret false else st_raise PyException) (fun _ => true)
                (fun _ => _ ← on_trial_remove t; mret true);
      executor_stop t error
  end.

(** ** Processing a bracket *)

(** [on_trial_remove]; [process] is [_process_bracket]. *)
Definition remove_with (process : nat -> ST world action) (t : trial) : ST world unit :=
  h ← st_gets sched;
  '(bid, _) ← st_lift (dgetitem t (_trial_info h));
  _ ← on_bracket bid (cleanup_trial t);
  f ← ask_bracket bid finished;
  if f : bool then mret tt else _ ← process bid; mret tt.

(** [for t in bad] *)
Definition stop_bad (stop : trial -> ST world unit) (bid : nat) (act : action) (t : trial) : ST world action :=
  s ← status_of t;
  match s with
  | PAUSED => _ ← stop t; mret act
  | RUNNING => _ ← on_bracket bid (cleanup_trial t); mret STOP
  | _ => st_raise TuneError
  end.

(** [for t in good] *)
Definition ready_good (bid : nat) (act : action) (t : trial) : ST world action :=
  s ← status_of t;
  match s with
  | PAUSED => c ← ask_bracket bid (continue_trial t); if c : bool then _ ← unpause_trial t; mret act else mret act
  | RUNNING => c ← ask_bracket bid (continue_trial t); mret (if c : bool then CONTINUE else act)
  | _ => st_raise TuneError
  end.

(** [cleanup_full] *)
Definition stop_if_paused (stop : trial -> ST world unit) (t : trial) : ST world unit :=
  s ← status_of t; if bool_decide (s = PAUSED) then stop t else mret tt.

Definition cleanup_full (stop : trial -> ST world unit) (bid : nat) : ST world unit :=
  ts ← ask_bracket bid (fun b => Ok (current_trials b));
  st_for ts (stop_if_paused stop).

(** The body of [_process_bracket]; [stop] is the runner's [stop_trial]. *)
Definition process_with (stop : trial -> ST world unit) (bid : nat) : ST world action :=
  cur ← ask_bracket bid cur_iter_done;
  if cur : bool then
    fin ← ask_bracket bid finished;
    if fin : bool then _ ← cleanup_full stop bid; mret STOP
    else
      h ← st_gets sched;
      metric ← st_lift (or_raise KeyError (_metric (props h)));
      op ← st_lift (or_raise TypeError (_metric_op (props h)));
      '(good, bad) ← on_bracket bid (successive_halving metric op);
      _ ← st_modify (fun w => set_sched (with_stopped (_num_stopped (sched w) + Z.of_nat (length bad)) (sched w)) w);
      act ← st_fold (stop_bad stop bid) PAUSE bad;
      st_fold (ready_good bid) act good
  else mret PAUSE.

(** [fuel] bounds how deep [_process_bracket] runs inside itself. *)
Fixpoint _process_bracket (fuel : nat) (bid : nat) : ST world action :=
  process_with (runner_stop (remove_with (match fuel with
                                          | O => fun _ => st_raise OutOfFuel
                                          | S fuel' => _process_bracket fuel'
                                          end)) true) bid.

(** Every call that goes deeper has halved the bracket once more. *)
Definition process_bracket (bid : nat) : ST world action :=
  k ← ask_bracket bid (fun b => Ok (_halves b));
  _process_bracket (S k) bid.

Definition on_trial_remove : trial -> ST world unit := remove_with process_bracket.
Definition stop_trial : bool -> trial -> ST world unit := runner_stop on_trial_remove.

Definition on_trial_result (t : trial) (r : result_dict) : ST world action :=
  h ← st_gets sched;
  '(bid, _) ← st_lift (dgetitem t (_trial_info h));
  _ ← on_bracket bid (update_trial_stats t r);
  c ← ask_bracket bid (continue_trial t);
  if c : bool then mret CONTINUE else process_bracket bid.

Definition hyperband_set_search_properties (metric mode : option string) : ST HyperBandScheduler bool := fun h =>
  let '(p, ok) := set_search_properties metric mode (props h) in (with_props p h, Ok ok).

(** [choose_trial_to_run]: bands in order, brackets by progress *)
Fixpoint first_some {A B} (f : A -> result (option B)) (l : list A) : result (option B) :=
  match l with
  | [] => Ok None
  | x :: l' => o ← f x; match o with Some y => Ok (Some y) | None => first_some f l' end
  end.

Definition pending_in (has_resources : trial -> bool) (w : world) (b : Bracket) : result (option trial) :=
  first_some (fun t => s ← dgetitem t (trials w);
                       Ok (if bool_decide (s = PENDING) && has_resources t then Some t else None)) (current_trials b).

Definition by_progress (bs : list Bracket) : result (list Bracket) :=
  keyed ← mapM_r (fun b => p ← completion_percentage b; Ok (p, b)) bs;
  Ok (map snd (py_sorted (fun x y => Qlt_bool x.1 y.1) keyed)).

Definition choose_trial (has_resources : trial -> bool) (w : world) : result (option trial) :=
  first_some (fun band =>
    let scrubbed := omap (fun e => bid ← e; brackets (sched w) !! bid) band in
    sorted ← by_progress scrubbed;
    first_some (pending_in has_resources w) sorted) (_hyperbands (sched w)).

(** [TrialRunner.add_trial] *)
Definition runner_add (t : trial) : ST world unit :=
  _ ← set_status t PENDING; on_trial_add t.

(** [TrialRunner._execute_action] *)
Definition _execute_action (t : trial) (act : action) : ST world unit :=
  match act with
  | CONTINUE => mret tt
  | PAUSE => pause_trial t
  | STOP => executor_stop t false
  end.

(** [TrialRunner._process_trial_result]; [done] is what the stopper and the
    trial's stopping criterion say *)
Definition _process_trial_result (t : trial) (r : result_dict) (done : bool) : ST world unit :=
  act ← (if done then _ ← on_trial_remove t; mret STOP else on_trial_result t r);
  _execute_action t act.

(** [TrialRunner._process_trial_failure] of a trial that is not recovered *)
Definition _process_trial_failure (t : trial) : ST world unit :=
  s ← status_of t;
  if bool_decide (s = RUNNING) then _ ← on_trial_remove t; executor_stop t true else mret tt.
