(* ===== verification/HyperBandProps.v ===== *)
(** HyperBand's rounds: what one round of successive halving keeps, and that
    trials that follow the milestones never leave a bracket stuck. *)

From Stdlib Require Import ZArith QArith Qround Qpower Lqa Lia Sorting.Sorted.
From stdpp Require Import base list strings option.
From S2P Require Import Prelude PyDict TrialScheduler HyperBand.

(** ** Times and milestones *)

Definition rtime (b : Bracket) (r : option result_dict) : Q :=
  match r with None => 0%Q | Some d => default 0%Q (dget (b_time_attr b) d) end.

(** The trial has not reached the milestone. *)
Definition below (b : Bracket) (r : option result_dict) : Prop := (rtime b r < inject_Z (_cumul_r b))%Q.

(** A result has the time and the metric. *)
Definition res_ok (metric : string) (b : Bracket) (r : option result_dict) : Prop :=
  match r with None => True | Some d => is_Some (dget (b_time_attr b) d) /\ is_Some (dget metric d) end.

Lemma get_result_time_ok metric b r : res_ok metric b r -> _get_result_time b r = Ok (rtime b r).
Proof. destruct r as [d|]; [|done]. cbn. intros [[x Hx] _]. unfold dgetitem. by rewrite Hx. Qed.

Lemma below_dec b r : {below b r} + {~ below b r}.
Proof. unfold below. destruct (decide (rtime b r < inject_Z (_cumul_r b))%Q); [by left | by right]. Qed.

Lemma not_below b r : ~ below b r <-> (inject_Z (_cumul_r b) <= rtime b r)%Q.
Proof. unfold below. split; [apply Qnot_lt_le | apply Qle_not_lt]. Qed.

Lemma all_done_spec metric b rs :
  Forall (res_ok metric b) rs ->
  exists v, all_done b rs = Ok v /\ if v then Forall (fun r => ~ below b r) rs else Exists (below b) rs.
Proof.
  induction 1 as [|r rs Hr _ (v & Ev & Hv)]; cbn [all_done]; [by exists true|].
  rewrite (get_result_time_ok metric b r Hr). cbn [mbind result_bind].
  destruct (Qle_bool (inject_Z (_cumul_r b)) (rtime b r)) eqn:E.
  - apply Qle_bool_iff in E. exists v. split; [done|]. destruct v; [constructor; [by apply not_below | done] | by right].
  - exists false. split; [done|]. left. by apply Qle_bool_false.
Qed.

Lemma elem_dvalues {K V} `{!EqDecision K} (r : V) (d : dict K V) : dwf d -> r ∈ dvalues d <-> exists t, dget t d = Some r.
Proof.
  intros Hw. unfold dvalues. rewrite list_elem_of_fmap. split.
  - intros ([t r'] & -> & H). exists t. by apply elem_dget.
  - intros [t H]. exists (t, r). split; [done|]. by apply dget_elem.
Qed.

Lemma cur_iter_done_spec metric b :
  dwf (_live_trials b) -> (forall t r, dget t (_live_trials b) = Some r -> res_ok metric b r) ->
  exists v, cur_iter_done b = Ok v /\
    if v then forall t r, dget t (_live_trials b) = Some r -> ~ below b r
    else exists t r, dget t (_live_trials b) = Some r /\ below b r.
Proof.
  intros Hw Hr. destruct (all_done_spec metric b (dvalues (_live_trials b))) as (v & Ev & Hv).
  { apply list.Forall_forall. intros r Hin. apply (elem_dvalues r) in Hin as [t Ht]; [eauto | done]. }
  exists v. split; [exact Ev|]. destruct v.
  - intros t r Ht. rewrite list.Forall_forall in Hv. apply Hv, elem_dvalues; eauto.
  - apply list.Exists_exists in Hv as (r & Hin & Hb). apply elem_dvalues in Hin as [t Ht]; [|done]. eauto.
Qed.

(** *** The milestones grow while halvings are left. *)

Lemma int_of_Q_floor q : (0 <= q)%Q -> int_of_Q q = Qfloor q.
Proof.
  intros H. unfold int_of_Q, Qfloor. destruct q as [n d]. cbn. unfold Qle in H. cbn in H.
  apply Z.quot_div_nonneg; lia.
Qed.

Lemma Qmult_grow a p : (0 <= a -> 1 <= p -> a <= a * p)%Q.
Proof. intros Ha Hp. pose proof (Qmult_le_0_compat a (p - 1) Ha ltac:(lra)). lra. Qed.

Lemma Qmult_mono_r a b c : (a <= b -> 0 <= c -> a * c <= b * c)%Q.
Proof. intros. by apply Qmult_le_compat_r. Qed.

Lemma next_r_grows eta c max_t k :
  (2 < eta)%Q -> (1 <= c)%Z -> (inject_Z c * Qpower eta (Z.of_nat (S k)) <= inject_Z max_t)%Q ->
  (c < next_r eta c max_t c)%Z /\ (inject_Z (next_r eta c max_t c) * Qpower eta (Z.of_nat k) <= inject_Z max_t)%Q.
Proof.
  intros He Hc Hm. rewrite Nat2Z.inj_succ, <- Z.add_1_l, Qpower_plus in Hm by lra. change (eta ^ 1)%Q with eta in Hm.
  assert (0 < eta ^ Z.of_nat k)%Q as Hp by (apply Qpower_0_lt; lra).
  assert (1 <= eta ^ Z.of_nat k)%Q as Hp1.
  { clear -He. induction k as [|k IH]; [apply Qle_refl|]. rewrite Nat2Z.inj_succ, <- Z.add_1_l, Qpower_plus by lra.
    change (eta ^ 1)%Q with eta. pose proof (Qmult_grow eta (eta ^ Z.of_nat k) ltac:(lra) IH). lra. }
  assert (1 <= inject_Z c)%Q as Hcq by (change 1%Q with (inject_Z 1); by rewrite <- Zle_Qle).
  assert (2 * inject_Z c < inject_Z c * eta)%Q as Hce.
  { pose proof (Qmult_lt_0_compat (inject_Z c) (eta - 2) ltac:(lra) ltac:(lra)). lra. }
  assert (inject_Z c * eta <= inject_Z max_t)%Q as Hcm.
  { pose proof (Qmult_grow (inject_Z c * eta) (eta ^ Z.of_nat k) ltac:(lra) Hp1). lra. }
  unfold next_r. set (m := Qmin_py _ _).
  assert (inject_Z (c + 1) <= m /\ m <= inject_Z c * eta)%Q as [Hlo Hhi].
  { assert (2 * c + 1 <= max_t)%Z as Hz.
    { enough (2 * c < max_t)%Z by lia. rewrite Zlt_Qlt, inject_Z_mult. change (inject_Z 2) with 2%Q. lra. }
    assert (inject_Z (c + 1) <= inject_Z (max_t - c))%Q by (rewrite <- Zle_Qle; lia).
    rewrite inject_Z_plus in *. change (inject_Z 1) with 1%Q in *.
    unfold m, Qmin_py. destruct (Qlt_bool _ _) eqn:E; [apply Qlt_bool_iff in E | apply Qlt_bool_false in E]; split; lra. }
  assert (0 <= m)%Q by (rewrite inject_Z_plus in Hlo; change (inject_Z 1) with 1%Q in Hlo; lra).
  rewrite int_of_Q_floor by done. split.
  - enough (c + 1 <= Qfloor m)%Z by lia. rewrite <- (Qfloor_Z (c + 1)). by apply Qfloor_resp_le.
  - pose proof (Qmult_mono_r (inject_Z (Qfloor m)) (inject_Z c * eta) (eta ^ Z.of_nat k)) as H1.
    pose proof (Qfloor_le m). specialize (H1 ltac:(lra) ltac:(lra)). lra.
Qed.

Lemma next_n_pos eta n : (1 < eta)%Q -> (1 <= n)%Z -> (1 <= next_n eta n)%Z.
Proof.
  intros He Hn. unfold next_n. enough (0 < Qceiling (inject_Z n / eta))%Z by lia.
  rewrite Zlt_Qlt. eapply Qlt_le_trans; [|apply Qle_ceiling].
  apply Qlt_shift_div_l; [lra|]. rewrite Qmult_0_l. change 0%Q with (inject_Z 0). rewrite <- Zlt_Qlt. lia.
Qed.

(** ** One round of successive halving *)

(** The reward of a live trial, larger is better *)
Definition score (metric : string) (op : Q) (b : Bracket) (t : trial) : Q :=
  match dget t (_live_trials b) with
  | Some (Some d) => op * default 0%Q (dget metric d)
  | _ => 0
  end.

(** Every live trial has reported. *)
Definition reported (metric : string) (b : Bracket) : Prop :=
  forall t r, dget t (_live_trials b) = Some r -> exists d, r = Some d /\ is_Some (dget metric d).

Lemma sort_keys_ok metric op b :
  dwf (_live_trials b) -> reported metric b ->
  mapM_r (sort_key metric op) (_live_trials b) = Ok (map (fun t => (score metric op b t, t)) (dkeys (_live_trials b))).
Proof.
  intros Hw Hr. unfold dkeys.
  assert (Forall (fun p => sort_key metric op p = Ok (score metric op b p.1, p.1)) (_live_trials b)) as H.
  { apply list.Forall_forall. intros [t r] Hin. apply elem_dget in Hin; [|done].
    destruct (Hr t r Hin) as (d & -> & x & Hx). unfold sort_key, score, dgetitem. cbn [fst snd or_raise mbind result_bind].
    rewrite Hin, Hx. done. }
  clear Hw Hr. induction H as [|p live Hp _ IH]; cbn [mapM_r fmap list_fmap map]; [done|].
  rewrite Hp. cbn [mbind result_bind]. by rewrite IH.
Qed.

Lemma split_last_app {A} n (l : list A) : let '(good, bad) := split_last n l in l = bad ++ good.
Proof. unfold split_last. destruct (n =? 0)%nat; [done|]. cbn. by rewrite take_drop. Qed.

Lemma split_last_length {A} n (l : list A) : (0 < n)%nat -> length (split_last n l).1 = Nat.min n (length l).
Proof.
  intros Hn. unfold split_last. rewrite (proj2 (Nat.eqb_neq _ _)) by lia. cbn. rewrite length_drop. lia.
Qed.

Lemma sorted_app_le {A} (R : A -> A -> Prop) l1 l2 x y :
  StronglySorted R (l1 ++ l2) -> x ∈ l1 -> y ∈ l2 -> R x y.
Proof.
  induction l1 as [|z l1 IH]; cbn; intros Hs Hx Hy; [by apply elem_of_nil in Hx|].
  apply StronglySorted_inv in Hs as [Hs Hz]. apply elem_of_cons in Hx as [->|Hx]; [|by apply IH].
  rewrite list.Forall_forall in Hz. apply Hz, elem_of_app. by right.
Qed.

(** The trials that are kept and those that are dropped *)
Lemma successive_halving_split metric op b :
  dwf (_live_trials b) -> reported metric b -> (0 < _halves b)%nat -> (1 < b_eta b)%Q -> (1 <= _n b)%Z ->
  exists good bad, successive_halving metric op b = (halve b, Ok (good, bad)) /\
    bad ++ good ≡ₚ dkeys (_live_trials b) /\
    length good = Nat.min (Z.to_nat (next_n (b_eta b) (_n b))) (length (_live_trials b)) /\
    (forall x y, x ∈ bad -> y ∈ good -> (score metric op b x <= score metric op b y)%Q).
Proof.
  intros Hw Hr Hh He Hn. unfold successive_halving. st_simpl. rewrite (proj2 (Nat.eqb_neq _ _)) by lia. cbn [andb].
  rewrite (proj2 (Nat.ltb_lt _ _)) by lia. cbn [py_assert]. change (_live_trials (halve b)) with (_live_trials b).
  rewrite (sort_keys_ok metric op b Hw Hr). change (_n (halve b)) with (next_n (b_eta b) (_n b)).
  pose proof (next_n_pos (b_eta b) (_n b) He Hn) as Hpos.
  set (keyed := map (fun t => (score metric op b t, t)) (dkeys (_live_trials b))).
  set (s := py_sorted (fun x y : Q * trial => Qlt_bool x.1 y.1) keyed).
  pose proof (split_last_app (Z.to_nat (next_n (b_eta b) (_n b))) (map snd s)) as Happ.
  pose proof (split_last_length (Z.to_nat (next_n (b_eta b) (_n b))) (map snd s) ltac:(lia)) as Hlen.
  assert (s ≡ₚ keyed) as Hperm by apply py_sorted_Permutation.
  assert (map snd keyed = dkeys (_live_trials b)) as Ekeys.
  { unfold keyed. rewrite map_map. apply map_id. }
  destruct (split_last _ (map snd s)) as [good bad] eqn:Esplit. exists good, bad.
  split; [done|]. split; [|split].
  - rewrite <- Happ, <- Ekeys. by apply Permutation_map.
  - cbn [fst] in Hlen. rewrite Hlen, length_map, (Permutation_length Hperm). unfold keyed, dkeys.
    by rewrite length_map, length_fmap.
  - intros x y Hx Hy.
    assert (map snd s = map snd (take (length bad) s) ++ map snd (drop (length bad) s)) as Es.
    { by rewrite <- map_app, take_drop. }
    rewrite Happ in Es. apply app_inj_1 in Es as [Eb Eg].
    2: { rewrite length_map, length_take. apply (f_equal length) in Happ. rewrite length_map, length_app in Happ. lia. }
    rewrite Eb in Hx. rewrite Eg in Hy.
    apply list_elem_of_In, in_map_iff in Hx as ([kx x'] & <- & Hx%list_elem_of_In).
    apply list_elem_of_In, in_map_iff in Hy as ([ky y'] & <- & Hy%list_elem_of_In). cbn [snd].
    assert (StronglySorted (fun p q : Q * trial => Qlt_bool q.1 p.1 = false) s) as Hs.
    { apply py_sorted_sorted; [intros p q r | intros p q]; rewrite ?Qlt_bool_iff, ?Qlt_bool_false; intros; lra. }
    rewrite <- (take_drop (length bad) s) in Hs. pose proof (sorted_app_le _ _ _ _ _ Hs Hx Hy) as Hle.
    apply Qlt_bool_false in Hle. cbn [fst] in Hle.
    assert (forall k t, (k, t) ∈ s -> k = score metric op b t) as Hkey.
    { intros k t Hin. rewrite Hperm in Hin. unfold keyed in Hin.
      apply list_elem_of_In, in_map_iff in Hin as (t' & [= <- <-] & _). done. }
    rewrite <- (Hkey kx x'), <- (Hkey ky y'); [done|..];
      rewrite <- (take_drop (length bad) s), elem_of_app; [by right | by left].
Qed.

(** ** One bracket of the world

    Processing bracket [bid] changes this bracket, the status of its trials
    and the number of stopped trials. *)

Definition at_bracket (h : HyperBandScheduler) (bid : nat) (b : Bracket) (sts : dict trial status) : world :=
  mkWorld (with_brackets (<[bid := b]> (brackets h)) h) sts.

Section OneBracket.
Context (h : HyperBandScheduler) (bid : nat).
Hypothesis bid_ok : (bid < length (brackets h))%nat.
Implicit Types (b : Bracket) (sts : dict trial status) (t : trial).

Lemma on_bracket_at {A} (m : ST Bracket A) b sts b' r :
  m b = (b', r) -> on_bracket bid m (at_bracket h bid b sts) = (at_bracket h bid b' sts, r).
Proof using bid_ok.
  intros E. unfold on_bracket, at_bracket. cbn. rewrite list_lookup_insert_eq by done. rewrite E.
  unfold set_sched, with_brackets. cbn. by rewrite list_insert_insert_eq.
Qed.

Lemma ask_bracket_at {A} (f : Bracket -> result A) b sts :
  ask_bracket bid f (at_bracket h bid b sts) = (at_bracket h bid b sts, f b).
Proof using bid_ok. unfold ask_bracket. by apply on_bracket_at. Qed.

Lemma status_of_at t b sts s :
  dget t sts = Some s -> status_of t (at_bracket h bid b sts) = (at_bracket h bid b sts, Ok s).
Proof. intros E. unfold status_of, dgetitem. st_simpl. cbn [trials at_bracket]. by rewrite E. Qed.

Lemma set_status_at t s b sts :
  set_status t s (at_bracket h bid b sts) = (at_bracket h bid b (dset t s sts), Ok tt).
Proof. done. Qed.

Lemma cleanup_trial_ok t b :
  t ∈ dkeys (_live_trials b) -> cleanup_trial t b = (set_live (ddel t (_live_trials b)) b, Ok tt).
Proof. intros H. unfold cleanup_trial. st_simpl. by rewrite (proj2 (dmem_true _ _) H). Qed.

(** A trial that is removed while another one has not reached the milestone is
    only taken out of the bracket. *)
Lemma remove_below metric process t b sts band :
  dget t (_trial_info h) = Some (bid, band) -> t ∈ dkeys (_live_trials b) ->
  dwf (_live_trials b) -> (forall t r, dget t (_live_trials b) = Some r -> res_ok metric b r) ->
  (exists g r, g <> t /\ dget g (_live_trials b) = Some r /\ below b r) ->
  (forall b' sts', cur_iter_done b' = Ok false ->
     process bid (at_bracket h bid b' sts') = (at_bracket h bid b' sts', Ok PAUSE)) ->
  remove_with process t (at_bracket h bid b sts) = (at_bracket h bid (set_live (ddel t (_live_trials b)) b) sts, Ok tt).
Proof using bid_ok.
  intros Hi Ht Hw Hres (g & r & Hg & Hgr & Hbel) Hproc. unfold remove_with, dgetitem. st_simpl.
  change (_trial_info (sched (at_bracket h bid b sts))) with (_trial_info h). rewrite Hi. cbn [or_raise].
  rewrite (on_bracket_at _ _ _ _ _ (cleanup_trial_ok t b Ht)), ask_bracket_at.
  set (b' := set_live (ddel t (_live_trials b)) b).
  assert (cur_iter_done b' = Ok false) as Hcur.
  { destruct (cur_iter_done_spec metric b') as (v & Ev & Hv); [by apply dwf_ddel | |].
    - intros t' r' H. cbn in H. rewrite dget_ddel in H by done. case_decide; [done|]. by apply (Hres t').
    - destruct v; [|done]. exfalso. apply (Hv g r); [|exact Hbel]. cbn. by rewrite dget_ddel_ne by congruence. }
  assert (finished b' = Ok false) as Hfin.
  { unfold finished. rewrite Hcur. by destruct (stop_last_trials b'), (_halves b' =? 0)%nat. }
  rewrite Hfin. by rewrite Hproc.
Qed.

(** What [stop_bad] does with one trial and with all of them *)

Definition live_without (ts : list trial) b : dict trial (option result_dict) :=
  foldl (fun live t => ddel t live) (_live_trials b) ts.

Lemma dget_foldl_ddel {V} ts : forall (d : dict trial V) t, dwf d ->
  dget t (foldl (fun live t => ddel t live) d ts) = if decide (t ∈ ts) then None else dget t d.
Proof.
  induction ts as [|x ts IH]; intros d t Hw; cbn [foldl].
  - rewrite decide_False by apply not_elem_of_nil. done.
  - rewrite IH by (by apply dwf_ddel). destruct (decide (t ∈ ts)) as [H|H].
    + rewrite decide_True by (by right). done.
    + rewrite dget_ddel by done. destruct (decide (x = t)) as [->|Hne].
      * rewrite decide_True by left. done.
      * rewrite decide_False; [done|]. intros [->|?]%elem_of_cons; done.
Qed.

Definition set_all_status (s : status) (ts : list trial) sts : dict trial status :=
  foldl (fun d t => dset t s d) sts ts.

Lemma dget_set_all s ts : forall sts t,
  dget t (set_all_status s ts sts) = if decide (t ∈ ts) then Some s else dget t sts.
Proof.
  unfold set_all_status. induction ts as [|x ts IH]; intros sts t; cbn [foldl].
  - rewrite decide_False by apply not_elem_of_nil. done.
  - rewrite IH, dget_dset. destruct (decide (t ∈ ts)) as [H|H].
    + rewrite decide_True by (by right). done.
    + destruct (decide (x = t)) as [->|Hne].
      * rewrite decide_True by left. done.
      * rewrite decide_False; [done|]. intros [->|?]%elem_of_cons; done.
Qed.

(** The other trials of a list *)
Definition others (cur : option trial) (ts : list trial) : list trial :=
  List.filter (fun t => negb (bool_decide (cur = Some t))) ts.

Lemma elem_of_others cur ts t : t ∈ others cur ts <-> t ∈ ts /\ cur <> Some t.
Proof.
  unfold others. rewrite !list_elem_of_In, filter_In, negb_true_iff. by rewrite bool_decide_eq_false.
Qed.

Lemma stop_bad_all metric process cur ts : forall b sts act,
  NoDup ts -> dwf (_live_trials b) ->
  (forall t, t ∈ ts -> (exists band, dget t (_trial_info h) = Some (bid, band)) /\ t ∈ dkeys (_live_trials b) /\
     dget t sts = Some (if bool_decide (cur = Some t) then RUNNING else PAUSED)) ->
  (forall t r, dget t (_live_trials b) = Some r -> res_ok metric b r) ->
  (exists g r, g ∉ ts /\ dget g (_live_trials b) = Some r /\ below b r) ->
  (forall b' sts', cur_iter_done b' = Ok false ->
     process bid (at_bracket h bid b' sts') = (at_bracket h bid b' sts', Ok PAUSE)) ->
  st_fold (stop_bad (runner_stop (remove_with process) true) bid) act ts (at_bracket h bid b sts) =
    (at_bracket h bid (set_live (live_without ts b) b) (set_all_status TERMINATED (others cur ts) sts),
     Ok (if existsb (fun t => bool_decide (cur = Some t)) ts then STOP else act)).
Proof using bid_ok.
  unfold live_without.
  induction ts as [|t ts IH]; intros b sts act Hnd Hw Hts Hres Hg Hproc; cbn [st_fold foldl others List.filter existsb];
    st_simpl.
  - by destruct b.
  - apply list.NoDup_cons in Hnd as [Hni Hnd].
    destruct (Hts t ltac:(left)) as ([band Hi] & Hl & Hst).
    destruct Hg as (g & r & Hgts & Hgl & Hgb).
    assert (g <> t) as Hgt by (intros ->; apply Hgts; left).
    set (b' := set_live (ddel t (_live_trials b)) b).
    assert (forall act sts', (forall x, x ∈ ts -> dget x sts' = dget x sts) ->
      st_fold (stop_bad (runner_stop (remove_with process) true) bid) act ts (at_bracket h bid b' sts') =
        (at_bracket h bid (set_live (foldl (fun live t => ddel t live) (ddel t (_live_trials b)) ts) b)
           (set_all_status TERMINATED (others cur ts) sts'),
         Ok (if existsb (fun t => bool_decide (cur = Some t)) ts then STOP else act))) as Hrest.
    { intros act' sts' Hsts. rewrite (IH b' sts' act'); [done | done | by apply dwf_ddel | | | | done].
      - intros x Hx. destruct (Hts x ltac:(by right)) as (H1 & H2 & H3). split; [done|].
        split; [|by rewrite Hsts]. apply elem_dkeys_ddel; [done|]. split; [by intros ->|done].
      - intros x rx Hx. cbn in Hx. rewrite dget_ddel in Hx by done. case_decide; [done|]. by apply (Hres x).
      - exists g, r. split; [by intros ?; apply Hgts; right|]. split; [|done].
        cbn. by rewrite dget_ddel_ne by congruence. }
    unfold stop_bad at 1. st_simpl. rewrite (status_of_at t b sts _ Hst).
    destruct (bool_decide (cur = Some t)) eqn:Ec; cbn [negb orb].
    + rewrite (on_bracket_at _ _ _ _ _ (cleanup_trial_ok t b Hl)). fold b'. rewrite (Hrest STOP sts) by done.
      by destruct (existsb _ ts).
    + unfold runner_stop at 1. st_simpl. rewrite (status_of_at t b sts _ Hst).
      rewrite (remove_below metric process t b sts band) by (done || eauto).
      unfold executor_stop. rewrite set_status_at. fold b'. apply Hrest.
      intros x Hx. rewrite dget_dset, decide_False; [done|]. by intros ->.
Qed.

(** [ready_good] for trials that go on *)
Lemma ready_good_all cur ts : forall b sts act,
  NoDup ts ->
  (forall t, t ∈ ts -> continue_trial t b = Ok true /\
     dget t sts = Some (if bool_decide (cur = Some t) then RUNNING else PAUSED)) ->
  st_fold (ready_good bid) act ts (at_bracket h bid b sts) =
    (at_bracket h bid b (set_all_status PENDING (others cur ts) sts),
     Ok (if existsb (fun t => bool_decide (cur = Some t)) ts then CONTINUE else act)).
Proof using bid_ok.
  induction ts as [|t ts IH]; intros b sts act Hnd Hts; cbn [st_fold others List.filter existsb]; st_simpl; [done|].
  apply list.NoDup_cons in Hnd as [Hni Hnd]. destruct (Hts t ltac:(left)) as [Hc Hst].
  assert (forall act sts', (forall x, x ∈ ts -> dget x sts' = dget x sts) ->
    st_fold (ready_good bid) act ts (at_bracket h bid b sts') =
      (at_bracket h bid b (set_all_status PENDING (others cur ts) sts'),
       Ok (if existsb (fun t => bool_decide (cur = Some t)) ts then CONTINUE else act))) as Hrest.
  { intros act' sts' Hsts. apply IH; [done|]. intros x Hx. destruct (Hts x ltac:(by right)). by rewrite Hsts. }
  unfold ready_good at 1. st_simpl. rewrite (status_of_at t b sts _ Hst).
  destruct (bool_decide (cur = Some t)) eqn:Ec; cbn [negb orb]; rewrite ask_bracket_at, Hc.
  - rewrite (Hrest CONTINUE sts) by done. by destruct (existsb _ ts).
  - unfold unpause_trial. st_simpl. rewrite (status_of_at t b sts _ Hst). cbn [py_assert bool_decide decide_rel].
    rewrite bool_decide_true by done. cbn [py_assert]. rewrite set_status_at. apply Hrest.
    intros x Hx. rewrite dget_dset, decide_False; [done|]. by intros ->.
Qed.

(** In the last round without a stop every live trial is running. *)
Lemma ready_good_running ts b sts : forall act,
  (forall t, t ∈ ts -> continue_trial t b = Ok true /\ dget t sts = Some RUNNING) ->
  exists act', st_fold (ready_good bid) act ts (at_bracket h bid b sts) = (at_bracket h bid b sts, Ok act').
Proof using bid_ok.
  induction ts as [|t ts IH]; intros act Hts; cbn [st_fold]; st_simpl; [by exists act|].
  destruct (Hts t ltac:(left)) as [Hc Hst]. unfold ready_good at 1. st_simpl.
  rewrite (status_of_at t b sts _ Hst), ask_bracket_at, Hc. apply IH. intros x Hx. apply Hts. by right.
Qed.

(** [cleanup_full] of a finished bracket stops the paused trials. *)
Definition paused_in sts (ts : list trial) : list trial := List.filter (fun t => bool_decide (dget t sts = Some PAUSED)) ts.

Lemma elem_of_paused sts ts t : t ∈ paused_in sts ts <-> t ∈ ts /\ dget t sts = Some PAUSED.
Proof. unfold paused_in. rewrite !list_elem_of_In, filter_In. by rewrite bool_decide_eq_true. Qed.

Lemma finished_without metric t b :
  dwf (_live_trials b) -> (forall t r, dget t (_live_trials b) = Some r -> res_ok metric b r) ->
  stop_last_trials b = true -> _halves b = 0%nat -> (forall t r, dget t (_live_trials b) = Some r -> ~ below b r) ->
  finished (set_live (ddel t (_live_trials b)) b) = Ok true.
Proof.
  intros Hw Hres Hs Hh Hnb. unfold finished. cbn [stop_last_trials _halves set_live]. rewrite Hs, Hh. cbn [Nat.eqb].
  set (b' := set_live _ b). assert (forall t' r', dget t' (_live_trials b') = Some r' -> dget t' (_live_trials b) = Some r') as Hsub.
  { intros t' r'. cbn. rewrite dget_ddel by done. by case_decide. }
  destruct (cur_iter_done_spec metric b') as (v & Ev & Hv); [by apply dwf_ddel | |].
  - intros t' r' H. by apply (Hres t'), Hsub.
  - destruct v; [done|]. destruct Hv as (t' & r' & H & Hb). exfalso. by apply (Hnb t' r' (Hsub _ _ H)).
Qed.

Lemma cleanup_loop metric process ts : forall b sts,
  NoDup ts -> dwf (_live_trials b) ->
  (forall t, t ∈ ts -> (exists band, dget t (_trial_info h) = Some (bid, band)) /\ t ∈ dkeys (_live_trials b) /\
     is_Some (dget t sts)) ->
  (forall t r, dget t (_live_trials b) = Some r -> res_ok metric b r) ->
  stop_last_trials b = true -> _halves b = 0%nat -> (forall t r, dget t (_live_trials b) = Some r -> ~ below b r) ->
  st_for ts (stop_if_paused (runner_stop (remove_with process) true))
    (at_bracket h bid b sts) =
    (at_bracket h bid (set_live (live_without (paused_in sts ts) b) b) (set_all_status TERMINATED (paused_in sts ts) sts), Ok tt).
Proof using bid_ok.
  unfold live_without.
  induction ts as [|t ts IH]; intros b sts Hnd Hw Hts Hres Hs Hh Hnb; cbn [st_for paused_in List.filter]; st_simpl;
    [by destruct b|].
  apply list.NoDup_cons in Hnd as [Hni Hnd]. destruct (Hts t ltac:(left)) as ([band Hi] & Hl & [s Hst]).
  unfold stop_if_paused at 1. st_simpl. rewrite (status_of_at t b sts s Hst), Hst.
  destruct (decide (s = PAUSED)) as [->|Hne].
  - rewrite !bool_decide_true by done. unfold runner_stop at 1. st_simpl. rewrite (status_of_at t b sts _ Hst).
    unfold remove_with at 1, dgetitem. st_simpl.
    change (_trial_info (sched (at_bracket h bid b sts))) with (_trial_info h). rewrite Hi. cbn [or_raise].
    rewrite (on_bracket_at _ _ _ _ _ (cleanup_trial_ok t b Hl)), ask_bracket_at.
    rewrite (finished_without metric t b) by done. unfold executor_stop. rewrite set_status_at.
    assert (forall x, x ∈ ts -> dget x (dset t TERMINATED sts) = dget x sts) as Hsts.
    { intros x Hx. rewrite dget_dset, decide_False; [done|]. by intros ->. }
    assert (paused_in (dset t TERMINATED sts) ts = paused_in sts ts) as Ep.
    { clear -Hsts. unfold paused_in. induction ts as [|x ts IHt]; [done|]. cbn [List.filter].
      rewrite (Hsts x) by left. rewrite IHt; [done|]. intros y Hy. apply Hsts. by right. }
    rewrite IH; [rewrite Ep; done | done | by apply dwf_ddel | | | done | done |].
    + intros x Hx. destruct (Hts x ltac:(by right)) as (H1 & H2 & H3). split; [done|]. split; [|by rewrite Hsts].
      apply elem_dkeys_ddel; [done|]. split; [by intros ->|done].
    + intros x rx Hx. cbn in Hx. rewrite dget_ddel in Hx by done. case_decide; [done|]. by apply (Hres x).
    + intros x rx Hx. cbn in Hx. rewrite dget_ddel in Hx by done. case_decide; [done|]. by apply (Hnb x).
  - rewrite !bool_decide_false by congruence. apply IH; try done. intros x Hx. apply Hts. by right.
Qed.

End OneBracket.

(** ** A bracket between two calls *)

(** The last round of a scheduler that lets its last trials run on *)
Definition last_stage (b : Bracket) : Prop := stop_last_trials b = false /\ _halves b = 0%nat.

Definition status_ok (b : Bracket) (r : option result_dict) (s : option status) : Prop :=
  match s with
  | Some PENDING => below b r
  | Some RUNNING => below b r \/ last_stage b
  | Some PAUSED => ~ below b r /\ ~ last_stage b
  | Some TERMINATED => ~ below b r /\ stop_last_trials b = true /\ _halves b = 0%nat
  | _ => False
  end.

Record numbers_ok (metric : string) (b : Bracket) : Prop := mkNumbersOk {
  num_wf : dwf (_live_trials b);
  num_res : forall t r, dget t (_live_trials b) = Some r -> res_ok metric b r;
  num_n : (1 <= _n b)%Z /\ (Z.of_nat (length (_live_trials b)) <= _n b)%Z;
  num_eta : (2 < b_eta b)%Q;
  num_r : _r b = _cumul_r b /\ (1 <= _cumul_r b)%Z;
  num_max : (inject_Z (_cumul_r b) * Qpower (b_eta b) (Z.of_nat (_halves b)) <= inject_Z (b_max_t_attr b))%Q;
  num_next : forall t r, dget t (_live_trials b) = Some r -> (0 < _halves b)%nat ->
    (rtime b r < inject_Z (_cumul_r (halve b)))%Q
}.

(** A bracket that has a paused trial has one that has not reached the milestone. *)
Definition not_stuck (sts : dict trial status) (b : Bracket) : Prop :=
  (exists t r, dget t (_live_trials b) = Some r /\ dget t sts = Some PAUSED) ->
  exists t r, dget t (_live_trials b) = Some r /\ below b r.

Record bracket_ok (metric : string) (sts : dict trial status) (b : Bracket) : Prop := mkBracketOk {
  bracket_numbers : numbers_ok metric b;
  bracket_status : forall t r, dget t (_live_trials b) = Some r -> status_ok b r (dget t sts);
  bracket_not_stuck : not_stuck sts b
}.

(** Fewer live trials *)
Lemma numbers_subset metric b live :
  numbers_ok metric b -> dwf live -> (length live <= length (_live_trials b))%nat ->
  (forall t r, dget t live = Some r -> dget t (_live_trials b) = Some r) -> numbers_ok metric (set_live live b).
Proof.
  intros [Hw Hr Hn He Hc Hm Hx] Hwl Hl Hsub. split; cbn; try done; [eauto | lia | eauto].
Qed.

Lemma foldl_ddel_length {V} ts : forall (d : dict trial V), dwf d -> NoDup ts -> (forall t, t ∈ ts -> t ∈ dkeys d) ->
  (length (foldl (fun live t => ddel t live) d ts) + length ts = length d)%nat /\
  dwf (foldl (fun live t => ddel t live) d ts).
Proof.
  induction ts as [|t ts IH]; intros d Hw Hnd Hin; cbn [foldl length]; [split; [lia | done]|].
  apply list.NoDup_cons in Hnd as [Hni Hnd]. destruct (IH (ddel t d)) as [Hl Hw']; [by apply dwf_ddel | done | |].
  - intros x Hx. apply elem_dkeys_ddel; [done|]. split; [by intros ->|]. apply Hin. by right.
  - split; [|done]. rewrite (ddel_length t d); [lia|]. apply Hin. left.
Qed.

(** After a round: the milestone grows and every trial is below it. *)
Lemma halve_numbers metric b :
  numbers_ok metric b -> (0 < _halves b)%nat ->
  (_cumul_r b < _cumul_r (halve b))%Z /\ (1 <= _n (halve b))%Z /\
  (inject_Z (_cumul_r (halve b)) * Qpower (b_eta b) (Z.of_nat (_halves b - 1)) <= inject_Z (b_max_t_attr b))%Q /\
  (forall t r, dget t (_live_trials b) = Some r -> below (halve b) r) /\
  (forall t r, dget t (_live_trials b) = Some r -> (0 < _halves (halve b))%nat ->
     (rtime b r < inject_Z (_cumul_r (halve (halve b))))%Q).
Proof.
  intros [Hw Hr [Hn Hl] He [Hrc Hc] Hm Hx] Hh.
  destruct (_halves b) as [|k] eqn:Ek; [lia|].
  destruct (next_r_grows (b_eta b) (_cumul_r b) (b_max_t_attr b) k He Hc Hm) as [Hgrow Hmax].
  assert (_cumul_r (halve b) = next_r (b_eta b) (_cumul_r b) (b_max_t_attr b) (_cumul_r b)) as Ec.
  { cbn. by rewrite Hrc. }
  rewrite Ec. replace (S k - 1)%nat with k by lia. split; [done|]. split; [apply next_n_pos; [lra | done]|]. split; [done|].
  assert (forall t r, dget t (_live_trials b) = Some r -> below (halve b) r) as Hbel.
  { intros t r Ht. unfold below. apply (Hx t r Ht). lia. }
  split; [done|]. intros t r Ht Hk. eapply Qlt_trans; [exact (Hbel t r Ht)|]. rewrite <- Zlt_Qlt.
  assert (_cumul_r (halve (halve b)) = next_r (b_eta b) (_cumul_r (halve b)) (b_max_t_attr b) (_cumul_r (halve b))) as ->.
  { done. }
  rewrite Ec. cbn [_halves halve] in Hk. rewrite Ek in Hk. destruct k as [|k]; [lia|].
  by apply (next_r_grows (b_eta b) _ (b_max_t_attr b) k); [|lia|].
Qed.

(** All live trials have reported when none is below the milestone. *)
Lemma done_reported metric b :
  numbers_ok metric b -> (forall t r, dget t (_live_trials b) = Some r -> ~ below b r) -> reported metric b.
Proof.
  intros [_ Hr _ _ [_ Hc] _ _] Hd t [d|] Ht; [exists d; split; [done | by apply (Hr t _ Ht)]|].
  exfalso. apply (Hd t None Ht). unfold below. cbn. change 0%Q with (inject_Z 0). rewrite <- Zlt_Qlt. lia.
Qed.

(** The status of the trial whose result is processed *)
Definition status_after (act : action) : status :=
  match act with CONTINUE => RUNNING | PAUSE => PAUSED | STOP => TERMINATED end.
Definition finalize (cur : option trial) (act : action) (sts : dict trial status) : dict trial status :=
  match cur with Some t => dset t (status_after act) sts | None => sts end.

Lemma dget_finalize cur act sts t :
  dget t (finalize cur act sts) = if bool_decide (cur = Some t) then Some (status_after act) else dget t sts.
Proof.
  destruct cur as [c|]; cbn; [|done]. rewrite dget_dset. case_decide as E; case_bool_decide; congruence.
Qed.

(** Before processing: the current trial is running and has reached the
    milestone, the others are as between two calls. *)
Record processing (metric : string) (cur : option trial) (sts : dict trial status) (b : Bracket) : Prop := mkProcessing {
  pr_numbers : numbers_ok metric b;
  pr_cur : forall t, cur = Some t ->
    exists r, dget t (_live_trials b) = Some r /\ ~ below b r /\ ~ last_stage b /\ dget t sts = Some RUNNING;
  pr_status : forall t r, dget t (_live_trials b) = Some r -> cur <> Some t -> status_ok b r (dget t sts);
  pr_finished : cur = None -> finished b = Ok false
}.

(** After processing *)
Record processed (metric : string) (cur : option trial) (sts sts' : dict trial status) (b b' : Bracket) (act : action) :
  Prop := mkProcessed {
  pd_cur : forall t, cur = Some t -> dget t sts' = Some RUNNING;
  pd_ok : bracket_ok metric (finalize cur act sts') b';
  pd_frame : forall t, t ∉ dkeys (_live_trials b) -> dget t sts' = dget t sts;
  pd_live : forall t, t ∈ dkeys (_live_trials b') -> t ∈ dkeys (_live_trials b);
  pd_gone : forall t, t ∈ dkeys (_live_trials b) -> t ∉ dkeys (_live_trials b') ->
    dget t (finalize cur act sts') = Some TERMINATED;
  pd_config : b_time_attr b' = b_time_attr b /\ stop_last_trials b' = stop_last_trials b
}.

Lemma processed_wait metric cur sts b :
  processing metric cur sts b -> (exists t r, dget t (_live_trials b) = Some r /\ below b r) ->
  processed metric cur sts sts b b PAUSE.
Proof.
  intros [Hn Hc Hs Hf] Hb. split; [| split | done | done | done | done].
  - intros t Ht. by destruct (Hc t Ht) as (r & _ & _ & _ & ?).
  - done.
  - intros t r Ht. rewrite dget_finalize. case_bool_decide as E; [|by apply Hs].
    destruct (Hc t E) as (r' & Ht' & Hnb & Hnl & _). cbn. rewrite Ht in Ht'. injection Ht' as <-. done.
  - by intros _.
Qed.

Lemma processed_finish metric cur sts b :
  processing metric cur sts b -> stop_last_trials b = true -> _halves b = 0%nat ->
  (forall t r, dget t (_live_trials b) = Some r -> ~ below b r) ->
  let ts := paused_in sts (current_trials b) in
  processed metric cur sts (set_all_status TERMINATED ts sts) b (set_live (live_without ts b) b) STOP.
Proof.
  intros [Hn Hc Hs Hf] Hstop Hh Hnb ts. pose proof (num_wf _ _ Hn) as Hw.
  assert (forall t r, dget t (live_without ts b) = Some r ->
    dget t (_live_trials b) = Some r /\ dget t sts <> Some PAUSED) as Hlive.
  { intros t r. unfold live_without. rewrite dget_foldl_ddel by done. case_decide as E; [done|]. intros H. split; [done|].
    intros C. apply E, elem_of_paused. split; [|done]. apply dget_is_Some. by rewrite H. }
  assert (forall t, cur = Some t -> dget t (set_all_status TERMINATED ts sts) = Some RUNNING) as Hrun.
  { intros t Ht. rewrite dget_set_all. destruct (Hc t Ht) as (_ & _ & _ & _ & E).
    rewrite decide_False; [done|]. intros [_ C]%elem_of_paused. congruence. }
  assert (forall t, t ∈ ts -> t ∈ dkeys (_live_trials b)) as Hin by (intros t [? _]%elem_of_paused; done).
  destruct (foldl_ddel_length ts (_live_trials b) Hw) as [Hlen Hwl]; [|done|].
  { apply NoDup_ListNoDup, List.NoDup_filter, NoDup_ListNoDup, Hw. }
  split; [done | split | | | |done].
  - apply numbers_subset; [done | done | unfold live_without; lia | apply Hlive].
  - intros t r Ht. destruct (Hlive t r Ht) as [Ht' Hnp]. rewrite dget_finalize. change (below (set_live _ b)) with (below b).
    case_bool_decide as E; [by split; [apply (Hnb t)|]|].
    rewrite dget_set_all, decide_False by (intros [_ C]%elem_of_paused; done).
    pose proof (Hs t r Ht' E) as H. pose proof (Hnb t r Ht') as Hb.
    destruct (dget t sts) as [[]|]; by cbn in *.
  - intros (t & r & Ht & Hp). exfalso. destruct (Hlive t r Ht) as [_ Hnp]. rewrite dget_finalize in Hp.
    case_bool_decide; [done|]. rewrite dget_set_all in Hp. by case_decide.
  - intros t Ht. rewrite dget_set_all, decide_False; [done|]. intros C. by apply Ht, Hin.
  - intros t [r Ht]%dget_is_Some. destruct (Hlive t r Ht) as [H _]. apply dget_is_Some. by rewrite H.
  - intros t [r Ht]%dget_is_Some Hgone. rewrite dget_finalize. case_bool_decide; [done|].
    rewrite dget_set_all. case_decide as E; [done|]. exfalso. apply Hgone, dget_is_Some. cbn. unfold live_without.
    by rewrite dget_foldl_ddel, decide_False, Ht.
Qed.

(** Without halvings left and without a stop, every live trial is running. *)
Lemma processed_last metric sts b act :
  processing metric None sts b -> last_stage b -> (forall t r, dget t (_live_trials b) = Some r -> ~ below b r) ->
  (forall t, t ∈ current_trials b -> continue_trial t b = Ok true /\ dget t sts = Some RUNNING) /\
  processed metric None sts sts b b act.
Proof.
  intros [Hn Hc Hs Hf] [Hstop Hh] Hnb.
  assert (forall t r, dget t (_live_trials b) = Some r -> dget t sts = Some RUNNING) as Hrun.
  { intros t r Ht. pose proof (Hs t r Ht ltac:(done)) as H. pose proof (Hnb t r Ht).
    destruct (dget t sts) as [[]|]; cbn in H; try done; exfalso; [by apply H | destruct H as (_ & C & _); congruence]. }
  split.
  - intros t [r Ht]%dget_is_Some. split; [|by eapply Hrun]. unfold continue_trial, dgetitem. rewrite Ht. cbn.
    by rewrite Hstop, Hh.
  - split; [done | split; [done | |] | done | done | done | done].
    + intros t r Ht. by apply Hs.
    + intros (t & r & Ht & Hp). cbn in Hp. rewrite (Hrun t r Ht) in Hp. done.
Qed.

(** A round of halving *)
Lemma processed_halved metric cur sts b good bad :
  processing metric cur sts b -> (0 < _halves b)%nat ->
  (forall t r, dget t (_live_trials b) = Some r -> ~ below b r) ->
  bad ++ good ≡ₚ dkeys (_live_trials b) ->
  length good = Nat.min (Z.to_nat (next_n (b_eta b) (_n b))) (length (_live_trials b)) ->
  let b' := set_live (live_without bad (halve b)) (halve b) in
  let sts' := set_all_status PENDING (others cur good) (set_all_status TERMINATED (others cur bad) sts) in
  let is_cur := existsb (fun t => bool_decide (cur = Some t)) in
  processed metric cur sts sts' b b' (if is_cur good then CONTINUE else if is_cur bad then STOP else PAUSE).
Proof.
  intros [Hn Hc Hs Hf] Hh Hnb Hperm Hlen b' sts' is_cur. pose proof (num_wf _ _ Hn) as Hw.
  destruct (halve_numbers metric b Hn Hh) as (Hgrow & Hn1 & Hmax & Hbel & Hnext).
  assert (NoDup (bad ++ good)) as Hnd by (rewrite Hperm; exact Hw).
  apply list.NoDup_app in Hnd as (Hndb & Hdisj & Hndg).
  assert (forall t, t ∈ bad \/ t ∈ good <-> t ∈ dkeys (_live_trials b)) as Hmem.
  { intros t. by rewrite <- Hperm, elem_of_app. }
  assert (forall t, t ∈ bad -> t ∈ dkeys (_live_trials b)) as Hbad by (intros t ?; apply Hmem; by left).
  destruct (foldl_ddel_length bad (_live_trials b) Hw Hndb Hbad) as [Hlen' Hwl].
  assert (forall t r, dget t (_live_trials b') = Some r -> dget t (_live_trials b) = Some r /\ t ∈ good) as Hlive.
  { intros t r. unfold b', live_without. cbn [set_live _live_trials halve]. rewrite dget_foldl_ddel by done.
    case_decide as E; [done|]. intros H. split; [done|]. assert (t ∈ dkeys (_live_trials b)) as [?|?]%Hmem; [|done..].
    apply dget_is_Some. by rewrite H. }
  assert (forall t, cur = Some t -> dget t sts' = Some RUNNING) as Hrun.
  { intros t Ht. unfold sts'. rewrite !dget_set_all, !decide_False by (intros [_ C]%elem_of_others; done).
    by destruct (Hc t Ht) as (_ & _ & _ & _ & ?). }
  assert (forall ts, is_cur ts = true <-> exists t, cur = Some t /\ t ∈ ts) as Hcur.
  { intros ts. unfold is_cur. rewrite existsb_exists. split.
    - intros (t & Hin & E%bool_decide_eq_true). exists t. by rewrite list_elem_of_In.
    - intros (t & E & Hin). exists t. rewrite <- list_elem_of_In. by rewrite bool_decide_eq_true. }
  split; [done | split | | | | done].
  - split.
    + done.
    + intros t r Ht. destruct (Hlive t r Ht) as [Ht' _]. by apply (num_res _ _ Hn t).
    + unfold b', live_without. cbn [set_live _live_trials halve _n]. split; [done|].
      pose proof (Permutation_length Hperm) as Hp. unfold dkeys in Hp. rewrite length_app, length_fmap in Hp. cbn [_n halve] in Hn1. lia.
    + apply (num_eta _ _ Hn).
    + split; [done|]. cbn in *. pose proof (num_r _ _ Hn). lia.
    + exact Hmax.
    + intros t r Ht Hk. destruct (Hlive t r Ht) as [Ht' _]. by apply (Hnext t).
  - intros t r Ht. destruct (Hlive t r Ht) as [Ht' Hg]. rewrite dget_finalize. case_bool_decide as E.
    + rewrite (proj2 (Hcur good)) by eauto. left. by apply (Hbel t).
    + unfold sts'. rewrite dget_set_all, decide_True by (by apply elem_of_others). by apply (Hbel t).
  - intros (t & r & Ht & _). exists t, r. split; [done|]. destruct (Hlive t r Ht) as [Ht' _]. by apply (Hbel t).
  - intros t Ht. unfold sts'. rewrite !dget_set_all, !decide_False; [done|..]; intros [C _]%elem_of_others; apply Ht, Hmem; auto.
  - intros t [r Ht]%dget_is_Some. destruct (Hlive t r Ht) as [H _]. apply dget_is_Some. by rewrite H.
  - intros t Ht Hgone. rewrite dget_finalize. apply Hmem in Ht as Hbg.
    assert (t ∉ good) as Hng.
    { intros Hg. apply Hgone, dget_is_Some. unfold b', live_without. cbn [set_live _live_trials halve].
      rewrite dget_foldl_ddel by done. rewrite decide_False; [by apply dget_is_Some|]. intros C. by apply (Hdisj t C). }
    destruct Hbg as [Hb|]; [|done]. case_bool_decide as E.
    + destruct (is_cur good) eqn:Eg.
      { apply Hcur in Eg as (t' & E' & Hin). rewrite E in E'. injection E' as <-. done. }
      by rewrite (proj2 (Hcur bad)) by eauto.
    + unfold sts'. rewrite !dget_set_all, decide_False, decide_True; [done | by apply elem_of_others |].
      by intros [C _]%elem_of_others.
Qed.

(** ** [_process_bracket] *)

Lemma with_stopped_id h : with_stopped (_num_stopped h) h = h.
Proof. by destruct h. Qed.

Section Process.
Context (h : HyperBandScheduler) (bid : nat) (metric : string) (op : Q).
Hypothesis bid_ok : (bid < length (brackets h))%nat.
Hypothesis metric_ok : _metric (props h) = Some metric.
Hypothesis op_ok : _metric_op (props h) = Some op.

Lemma process_waits fuel k b sts :
  cur_iter_done b = Ok false ->
  _process_bracket fuel bid (at_bracket (with_stopped k h) bid b sts) = (at_bracket (with_stopped k h) bid b sts, Ok PAUSE).
Proof using bid_ok.
  intros E. destruct fuel; cbn [_process_bracket]; unfold process_with; st_simpl; rewrite ask_bracket_at by done; by rewrite E.
Qed.

Lemma halved_process fuel cur b sts good bad :
  (forall t, t ∈ dkeys (_live_trials b) -> exists band, dget t (_trial_info h) = Some (bid, band)) ->
  processing metric cur sts b -> (0 < _halves b)%nat -> finished b = Ok false ->
  (forall t r, dget t (_live_trials b) = Some r -> ~ below b r) ->
  successive_halving metric op b = (halve b, Ok (good, bad)) -> bad ++ good ≡ₚ dkeys (_live_trials b) ->
  length good = Nat.min (Z.to_nat (next_n (b_eta b) (_n b))) (length (_live_trials b)) ->
  cur_iter_done b = Ok true ->
  let is_cur := existsb (fun t => bool_decide (cur = Some t)) in
  _process_bracket (S fuel) bid (at_bracket h bid b sts) =
    (at_bracket (with_stopped (_num_stopped h + Z.of_nat (length bad)) h) bid (set_live (live_without bad (halve b)) (halve b))
       (set_all_status PENDING (others cur good) (set_all_status TERMINATED (others cur bad) sts)),
     Ok (if is_cur good then CONTINUE else if is_cur bad then STOP else PAUSE)).
Proof using bid_ok metric_ok op_ok.
  intros Hinfo Hpr Hh Hfin Hnb Ehalf Hperm Hlen Hcur is_cur. pose proof Hpr as [Hn Hc Hs _]. pose proof (num_wf _ _ Hn) as Hw.
  destruct (halve_numbers metric b Hn Hh) as (Hgrow & Hn1 & Hmax & Hbel & Hnext). cbn [_n halve] in Hn1.
  assert (NoDup (bad ++ good)) as Hnd by (rewrite Hperm; exact Hw).
  apply list.NoDup_app in Hnd as (Hndb & Hdisj & Hndg).
  assert (forall t, t ∈ bad \/ t ∈ good -> exists r, dget t (_live_trials b) = Some r) as Hmem.
  { intros t Ht. apply dget_is_Some. by rewrite <- Hperm, elem_of_app. }
  assert (forall t, t ∈ bad \/ t ∈ good ->
    dget t sts = Some (if bool_decide (cur = Some t) then RUNNING else PAUSED)) as Hstatus.
  { intros t Ht. destruct (Hmem t Ht) as [r Hr]. case_bool_decide as E; [by destruct (Hc t E) as (_ & _ & _ & _ & ?)|].
    pose proof (Hs t r Hr E) as H. pose proof (Hnb t r Hr) as Hb. destruct (dget t sts) as [[]|]; cbn in H; try done; exfalso.
    - destruct H as [?|[_ ?]]; [done | lia].
    - destruct H as (_ & _ & ?). lia. }
  cbn [_process_bracket]. unfold process_with. st_simpl.
  rewrite (ask_bracket_at h bid bid_ok), Hcur. rewrite (ask_bracket_at h bid bid_ok), Hfin.
  change (props (sched (at_bracket h bid b sts))) with (props h). rewrite metric_ok, op_ok. cbn [or_raise].
  rewrite (on_bracket_at h bid bid_ok _ _ _ _ _ Ehalf).
  set (h' := with_stopped (_num_stopped h + Z.of_nat (length bad)) h).
  change (set_sched _ (at_bracket h bid (halve b) sts)) with (at_bracket h' bid (halve b) sts).
  assert (bid < length (brackets h'))%nat as Hbid' by exact bid_ok.
  assert (st_fold (stop_bad (runner_stop (remove_with (_process_bracket fuel)) true) bid) PAUSE bad (at_bracket h' bid (halve b) sts)
    = (at_bracket h' bid (set_live (live_without bad (halve b)) (halve b)) (set_all_status TERMINATED (others cur bad) sts),
       Ok (if is_cur bad then STOP else PAUSE))) as ->.
  { destruct bad as [|x bad'] eqn:Ebad; [by destruct b|]. rewrite <- Ebad in *.
    apply (stop_bad_all h' bid Hbid' metric); [done | done | | | |].
    - intros t Ht. split; [apply Hinfo; rewrite <- Hperm; apply elem_of_app; by left|].
      split; [|apply Hstatus; by left]. cbn. rewrite <- Hperm. apply elem_of_app. by left.
    - intros t r Ht. by apply (num_res _ _ Hn t).
    - assert (0 < length good)%nat.
      { rewrite Hlen. assert (length (_live_trials b) <> 0%nat); [|lia]. pose proof (Permutation_length Hperm) as Hp.
        unfold dkeys in Hp. rewrite length_app, length_fmap, Ebad in Hp. cbn in Hp. lia. }
      destruct good as [|g good']; [cbn in *; lia|]. destruct (Hmem g ltac:(right; left)) as [r Hr].
      exists g, r. split; [|split; [done | by apply (Hbel g)]]. intros C. apply (Hdisj g C). left.
    - intros b' sts' E. by apply process_waits. }
  assert (forall t, t ∈ good -> t ∉ bad) as Hgb by (intros t ? C; by apply (Hdisj t C)).
  apply (ready_good_all h' bid Hbid'); [done|]. intros t Ht. split.
  - destruct (Hmem t ltac:(by right)) as [r Hr]. unfold continue_trial, dgetitem, live_without.
    cbn [set_live _live_trials halve stop_last_trials _halves].
    rewrite dget_foldl_ddel, decide_False by auto. rewrite Hr. cbn [or_raise mbind result_bind].
    destruct (negb _ && _); [done|].
    erewrite (get_result_time_ok metric) by (apply (num_res _ _ Hn t r Hr)). cbn [mbind result_bind].
    f_equal. apply Qlt_bool_iff, (Hbel t r Hr).
  - rewrite dget_set_all, decide_False by (intros [C _]%elem_of_others; by apply (Hgb t Ht)). apply Hstatus. by right.
Qed.

Lemma process_spec fuel cur b sts :
  (forall t, t ∈ dkeys (_live_trials b) -> exists band, dget t (_trial_info h) = Some (bid, band)) ->
  processing metric cur sts b ->
  exists k b' sts' act, _process_bracket (S fuel) bid (at_bracket h bid b sts) = (at_bracket (with_stopped k h) bid b' sts', Ok act) /\
    processed metric cur sts sts' b b' act.
Proof using bid_ok metric_ok op_ok.
  intros Hinfo Hpr. pose proof Hpr as [Hn Hc Hs Hf]. pose proof (num_wf _ _ Hn) as Hw.
  destruct (cur_iter_done_spec metric b Hw (num_res _ _ Hn)) as ([|] & Ecur & Hcur).
  2: { exists (_num_stopped h), b, sts, PAUSE. split; [|by apply processed_wait].
       rewrite <- (with_stopped_id h) at 1. by apply process_waits. }
  destruct (_halves b) as [|k] eqn:Eh.
  - assert (finished b = Ok (stop_last_trials b)) as Efin.
    { unfold finished. rewrite Eh, Ecur. by destruct (stop_last_trials b). }
    destruct (stop_last_trials b) eqn:Estop.
    + eexists (_num_stopped h), _, _, STOP. split; [|by apply processed_finish].
      rewrite with_stopped_id. cbn [_process_bracket]. unfold process_with, cleanup_full. st_simpl.
      rewrite !(ask_bracket_at h bid bid_ok), Ecur, (ask_bracket_at h bid bid_ok), Efin, (ask_bracket_at h bid bid_ok).
      rewrite (cleanup_loop h bid bid_ok metric); [done | exact Hw | done | | apply (num_res _ _ Hn) | done | done | done].
      intros t Ht. split; [by apply Hinfo|]. split; [done|].
      destruct (decide (cur = Some t)) as [E|E]; [by destruct (Hc t E) as (_ & _ & _ & _ & ->)|].
      apply dget_is_Some in Ht as [r Ht]. pose proof (Hs t r Ht E) as H. by destruct (dget t sts).
    + assert (last_stage b) as Hl by done. assert (cur = None) as ->.
      { destruct cur as [c|]; [|done]. by destruct (Hc c eq_refl) as (_ & _ & _ & ? & _). }
      destruct (processed_last metric sts b PAUSE Hpr Hl Hcur) as [Hrun _].
      destruct (ready_good_running h bid bid_ok (current_trials b) b sts PAUSE Hrun) as [act Ea].
      exists (_num_stopped h), b, sts, act. split; [|by apply processed_last].
      rewrite with_stopped_id. cbn [_process_bracket]. unfold process_with. st_simpl.
      rewrite (ask_bracket_at h bid bid_ok), Ecur, (ask_bracket_at h bid bid_ok), Efin.
      change (props (sched (at_bracket h bid b sts))) with (props h). rewrite metric_ok, op_ok. cbn [or_raise].
      assert (successive_halving metric op b = (b, Ok (current_trials b, []))) as Es.
      { unfold successive_halving. st_simpl. by rewrite Eh, Estop. }
      rewrite (on_bracket_at h bid bid_ok _ _ _ _ _ Es).
      change (set_sched _ (at_bracket h bid b sts)) with (at_bracket (with_stopped (_num_stopped h + 0) h) bid b sts).
      rewrite Z.add_0_r, with_stopped_id. exact Ea.
  - destruct (successive_halving_split metric op b Hw (done_reported metric b Hn Hcur)) as (good & bad & Ehalf & Hperm & Hlen & _);
      [lia | pose proof (num_eta _ _ Hn); lra | apply (num_n _ _ Hn) |].
    eexists _, _, _, _. split; [eapply halved_process; eauto; [lia | unfold finished; rewrite Eh; by destruct (stop_last_trials b)]|].
    apply processed_halved; [done | lia | done..].
Qed.

End Process.
