(* ===== verification/HyperBandSafety.v ===== *)
(** HyperBand under the trial runner: in every history in which trials follow the
    milestones no call raises and no bracket gets stuck. *)

From Stdlib Require Import ZArith QArith Qround Qpower Lqa Lia.
From stdpp Require Import base list strings option.
From S2P Require Import Prelude PyDict TrialScheduler HyperBand HyperBandProps.

Section World.
Context (metric : string) (op : Q).

(** ** The invariant *)

Record world_ok (w : world) : Prop := mkWorldOk {
  wo_metric : _metric (props (sched w)) = Some metric;
  wo_op : _metric_op (props (sched w)) = Some op;
  wo_props : has_props (props (sched w)) = true;
  wo_params : (2 < _eta (sched w))%Q /\ (1 <= _s_max_1 (sched w))%nat /\ (1 <= _max_t_attr (sched w))%Z;
  wo_brackets : forall bid b, brackets (sched w) !! bid = Some b ->
    bracket_ok metric (trials w) b /\ b_time_attr b = _time_attr (sched w);
  wo_info : forall bid b t, brackets (sched w) !! bid = Some b -> t ∈ dkeys (_live_trials b) ->
    exists band, dget t (_trial_info (sched w)) = Some (bid, band);
  wo_trials : forall t s, dget t (trials w) = Some s -> s <> TERMINATED -> s <> ERROR ->
    exists bid b, brackets (sched w) !! bid = Some b /\ t ∈ dkeys (_live_trials b);
  wo_bands : S (state_band_idx (sched w)) = length (_hyperbands (sched w)) /\
    Forall (fun band => length band <= _s_max_1 (sched w))%nat (_hyperbands (sched w));
  wo_state : forall bid, state_bracket (sched w) = Some bid -> (bid < length (brackets (sched w)))%nat
}.

Lemma bracket_ok_ext sts sts' b :
  (forall t, t ∈ dkeys (_live_trials b) -> dget t sts' = dget t sts) -> bracket_ok metric sts b -> bracket_ok metric sts' b.
Proof.
  intros E [Hn Hs Hk]. assert (forall t r, dget t (_live_trials b) = Some r -> dget t sts' = dget t sts) as E'.
  { intros t r Ht. apply E, dget_is_Some. by rewrite Ht. }
  split; [done | |].
  - intros t r Ht. rewrite (E' t r Ht). by apply Hs.
  - intros (t & r & Ht & Hp). rewrite (E' t r Ht) in Hp. apply Hk. eauto.
Qed.

(** An operation on one bracket of the world *)
Lemma on_bracket_world {A} (m : ST Bracket A) w bid b b' r :
  brackets (sched w) !! bid = Some b -> m b = (b', r) ->
  on_bracket bid m w = (at_bracket (sched w) bid b' (trials w), r).
Proof. intros Eb E. unfold on_bracket. by rewrite Eb, E. Qed.

(** One bracket and the status of its trials change. *)
Lemma world_update w bid b b' sts' k :
  world_ok w -> brackets (sched w) !! bid = Some b ->
  bracket_ok metric sts' b' -> b_time_attr b' = b_time_attr b ->
  (forall t, t ∈ dkeys (_live_trials b') -> t ∈ dkeys (_live_trials b)) ->
  (forall t, t ∉ dkeys (_live_trials b) -> dget t sts' = dget t (trials w)) ->
  (forall t, t ∈ dkeys (_live_trials b) -> t ∉ dkeys (_live_trials b') ->
     dget t sts' = Some TERMINATED \/ dget t sts' = Some ERROR) ->
  world_ok (at_bracket (with_stopped k (sched w)) bid b' sts').
Proof.
  intros [Hm Ho Hp Hpar Hb Hi Ht Hba Hst] Eb Hb' Ea Hsub Hframe Hgone.
  pose proof (lookup_lt_Some _ _ _ Eb) as Hlt.
  assert (forall bid2 b2 t, bid2 <> bid -> brackets (sched w) !! bid2 = Some b2 -> t ∈ dkeys (_live_trials b2) ->
    t ∉ dkeys (_live_trials b)) as Hother.
  { intros bid2 b2 t Hne E2 Hin C. destruct (Hi _ _ _ E2 Hin) as [band2 E]. destruct (Hi _ _ _ Eb C) as [band E'].
    rewrite E in E'. injection E' as -> _. done. }
  split; cbn; try done.
  - intros bid2 b2 E2. apply list_lookup_insert_Some in E2 as [(-> & -> & _)|[Hne E2]].
    + split; [done|]. rewrite Ea. by apply (Hb bid2).
    + destruct (Hb _ _ E2) as [Hok Eq]. split; [|done]. eapply bracket_ok_ext; [|exact Hok].
      intros t Hin. apply Hframe. by eapply Hother.
  - intros bid2 b2 t E2 Hin. apply list_lookup_insert_Some in E2 as [(-> & -> & _)|[Hne E2]]; [|by eapply Hi].
    eapply Hi; [exact Eb | by apply Hsub].
  - intros t s Es Hs1 Hs2. destruct (decide (t ∈ dkeys (_live_trials b))) as [Hin|Hin].
    + destruct (decide (t ∈ dkeys (_live_trials b'))) as [Hin'|Hin'].
      * exists bid, b'. split; [by apply list_lookup_insert_eq | done].
      * destruct (Hgone t Hin Hin') as [C|C]; congruence.
    + rewrite Hframe in Es by done. destruct (Ht t s Es Hs1 Hs2) as (bid2 & b2 & E2 & Hin2).
      assert (bid2 <> bid) by (intros ->; rewrite Eb in E2; injection E2 as <-; done).
      exists bid2, b2. split; [|done]. by rewrite list_lookup_insert_ne.
  - intros bid2 E2. rewrite length_insert. by apply Hst.
Qed.

(** ** Removing a trial *)

(** A removal leaves paused trials behind only while another trial has not reached the milestone. *)
Definition removal_safe (w : world) (t : trial) : Prop :=
  forall bid b, brackets (sched w) !! bid = Some b -> t ∈ dkeys (_live_trials b) ->
  stop_last_trials b = true -> _halves b = 0%nat ->
  (exists x r, x <> t /\ dget x (_live_trials b) = Some r /\ below b r) \/
  (forall x, x <> t -> x ∈ dkeys (_live_trials b) -> dget x (trials w) <> Some PAUSED).

Lemma numbers_ddel t b : numbers_ok metric b -> t ∈ dkeys (_live_trials b) ->
  numbers_ok metric (set_live (ddel t (_live_trials b)) b).
Proof.
  intros Hn Hin. pose proof (num_wf _ _ Hn) as Hw.
  apply numbers_subset; [done | by apply dwf_ddel | rewrite (ddel_length t (_live_trials b) Hin); lia|].
  intros x r. rewrite dget_ddel by done. by case_decide.
Qed.

Lemma remove_ok w t bid b :
  world_ok w -> brackets (sched w) !! bid = Some b -> t ∈ dkeys (_live_trials b) -> removal_safe w t ->
  exists w1, on_trial_remove t w = (w1, Ok tt) /\
    (forall s, s = TERMINATED \/ s = ERROR -> world_ok (mkWorld (sched w1) (dset t s (trials w1)))).
Proof.
  intros Hw Eb Hin Hsafe. pose proof Hw as [Hm Ho Hp Hpar Hb Hi Ht Hba Hst].
  destruct (Hb _ _ Eb) as [Hok Eattr]. pose proof Hok as [Hn Hs Hk]. pose proof (num_wf _ _ Hn) as Hwf.
  destruct (Hi _ _ _ Eb Hin) as [band Einfo]. pose proof (lookup_lt_Some _ _ _ Eb) as Hlt.
  set (b1 := set_live (ddel t (_live_trials b)) b). pose proof (numbers_ddel t b Hn Hin) as Hn1. fold b1 in Hn1.
  assert (forall x r, dget x (_live_trials b1) = Some r -> x <> t /\ dget x (_live_trials b) = Some r) as Hlive1.
  { intros x r. cbn. rewrite dget_ddel by done. case_decide; [done|]. intros; split; congruence. }
  assert (t ∉ dkeys (_live_trials b1)) as Hnot.
  { cbn. rewrite elem_dkeys_ddel by done. by intros [? _]. }
  assert (exists k b' sts' (act : action), on_trial_remove t w = (at_bracket (with_stopped k (sched w)) bid b' sts', Ok tt) /\
    bracket_ok metric sts' b' /\ b_time_attr b' = b_time_attr b /\
    (forall x, x ∈ dkeys (_live_trials b') -> x ∈ dkeys (_live_trials b1)) /\
    (forall x, x ∉ dkeys (_live_trials b1) -> dget x sts' = dget x (trials w)) /\
    (forall x, x ∈ dkeys (_live_trials b1) -> x ∉ dkeys (_live_trials b') -> dget x sts' = Some TERMINATED))
    as (k & b' & sts' & act & E & Hok' & Ea & Hsub & Hframe & Hgone).
  { unfold on_trial_remove, remove_with, dgetitem. st_simpl. rewrite Einfo. cbn [or_raise].
    rewrite (on_bracket_world _ _ _ _ _ _ Eb (cleanup_trial_ok t b Hin)).
    rewrite (ask_bracket_at _ bid Hlt). fold b1.
    destruct (cur_iter_done_spec metric b1 (num_wf _ _ Hn1) (num_res _ _ Hn1)) as (v & Ev & Hv).
    assert (exists f, finished b1 = Ok f) as [f Ef].
    { unfold finished. rewrite Ev. destruct (stop_last_trials b1), (_halves b1 =? 0)%nat; eauto. }
    rewrite Ef. destruct f.
    - exists (_num_stopped (sched w)), b1, (trials w), PAUSE. split; [by rewrite with_stopped_id|]. split; [|done].
      unfold finished in Ef. rewrite Ev in Ef. destruct (stop_last_trials b1) eqn:Estop, (_halves b1 =? 0)%nat eqn:Eh; try done.
      injection Ef as ->. apply Nat.eqb_eq in Eh.
      split; [done | intros x r Hx; destruct (Hlive1 x r Hx); by apply Hs |].
      intros (x & r & Hx & Hxp). exfalso. destruct (Hlive1 x r Hx) as [Hxt Hx'].
      destruct (Hsafe bid b Eb Hin Estop Eh) as [(y & ry & Hyt & Hy & Hyb)|Hnp].
      + apply (Hv y ry); [cbn; by rewrite dget_ddel_ne by congruence | exact Hyb].
      + apply (Hnp x Hxt); [|done]. apply dget_is_Some. by rewrite Hx'.
    - unfold process_bracket. st_simpl. rewrite (ask_bracket_at _ bid Hlt).
      destruct (process_spec (sched w) bid metric op Hlt Hm Ho (_halves b1) None b1 (trials w))
        as (k & b' & sts' & act & -> & [_ Hok' Hframe Hlive Hgone [Ha _]]).
      + intros x Hx. eapply Hi; [exact Eb|]. by apply dkeys_ddel_subset in Hx.
      + split; [done | done | | done]. intros x r Hx _. destruct (Hlive1 x r Hx). by apply Hs.
      + exists k, b', sts', act. by split_and!. }
  eexists; split; [exact E|]. intros s Hsx. cbn [sched at_bracket trials].
  change (world_ok (at_bracket (with_stopped k (sched w)) bid b' (dset t s sts'))).
  assert (t ∉ dkeys (_live_trials b')) as Hnot' by (intros C; by apply Hnot, Hsub).
  apply (world_update w bid b); [done | done | | done | | |].
  - eapply bracket_ok_ext; [|exact Hok']. intros x Hx. rewrite dget_dset, decide_False; [done|]. by intros ->.
  - intros x Hx%Hsub. by apply dkeys_ddel_subset in Hx.
  - intros x Hx. rewrite dget_dset, decide_False by (by intros ->). apply Hframe. intros C. by apply dkeys_ddel_subset in C.
  - intros x Hx Hx'. rewrite dget_dset. case_decide as D; [destruct Hsx as [->| ->]; auto|]. left. apply Hgone; [|done].
    apply elem_dkeys_ddel; [done|]. split; congruence.
Qed.

(** ** Reporting a result *)

(** The result has a time and the metric, and its time does not skip the next milestone. *)
Definition on_schedule (w : world) (t : trial) (r : result_dict) : Prop :=
  (exists time, dget (_time_attr (sched w)) r = Some time /\ (0 <= time)%Q) /\ is_Some (dget metric r) /\
  forall bid b, brackets (sched w) !! bid = Some b -> t ∈ dkeys (_live_trials b) -> (0 < _halves b)%nat ->
    (rtime b (Some r) < inject_Z (_cumul_r (halve b)))%Q.

(** The bracket after the result is recorded *)
Definition recorded (t : trial) (r : result_dict) (old : option result_dict) (b : Bracket) : Bracket :=
  set_live (dset t (Some r) (_live_trials b)) (add_progress (rtime b (Some r) - rtime b old)%Q b).

Lemma dset_length {K V} `{!EqDecision K} (k : K) (v : V) d : k ∈ dkeys d -> length (dset k v d) = length d.
Proof.
  intros H. pose proof (dkeys_dset k v d) as E. unfold dkeys in *. apply (f_equal length) in E.
  rewrite length_fmap in E. rewrite E. case_decide; [by rewrite length_fmap | done].
Qed.

Lemma update_trial_stats_ok t r old b :
  numbers_ok metric b -> dget t (_live_trials b) = Some old ->
  (exists time, dget (b_time_attr b) r = Some time /\ (0 <= time)%Q) -> is_Some (dget metric r) ->
  ((0 < _halves b)%nat -> (rtime b (Some r) < inject_Z (_cumul_r (halve b)))%Q) ->
  update_trial_stats t r b = (recorded t r old b, Ok tt) /\ numbers_ok metric (recorded t r old b).
Proof.
  intros [Hw Hr [Hn Hl] He Hc Hm Hx] Ht (time & Etime & Hpos) Hmet Hsched.
  assert (t ∈ dkeys (_live_trials b)) as Hin by (apply dget_is_Some; by rewrite Ht).
  split.
  - unfold update_trial_stats. st_simpl. rewrite (proj2 (dmem_true _ _) Hin). cbn [py_assert _get_result_time].
    unfold dgetitem. rewrite Etime. cbn [or_raise]. rewrite (proj2 (Qle_bool_iff _ _) Hpos). cbn [py_assert].
    rewrite Ht. cbn [or_raise]. rewrite (get_result_time_ok metric b old) by (by apply (Hr t)).
    unfold recorded. cbn [rtime]. by rewrite Etime.
  - assert (res_ok metric b (Some r)) as Hrok by (split; [by exists time | done]).
    split; cbn; try done.
    + by apply dwf_dset.
    + intros x rx. rewrite dget_dset. case_decide; [intros [= <-]; exact Hrok | apply Hr].
    + rewrite dset_length by done. lia.
    + intros x rx. rewrite dget_dset. case_decide; [by intros [= <-] | apply Hx].
Qed.

Lemma continue_trial_spec t r b :
  res_ok metric b r -> dget t (_live_trials b) = Some r ->
  exists c, continue_trial t b = Ok c /\ if c then below b r \/ last_stage b else ~ below b r /\ ~ last_stage b.
Proof.
  intros Hr Ht. unfold continue_trial, dgetitem. rewrite Ht. cbn [or_raise mbind result_bind].
  rewrite (get_result_time_ok metric b r Hr). cbn [mbind result_bind]. unfold last_stage.
  destruct (stop_last_trials b) eqn:Es, (_halves b =? 0)%nat eqn:Eh; cbn [negb andb];
    first [apply Nat.eqb_eq in Eh | apply Nat.eqb_neq in Eh].
  3: { exists true. split; [done|]. by right. }
  all: exists (Qlt_bool (rtime b r) (inject_Z (_cumul_r b))); split; [done|];
    destruct (Qlt_bool _ _) eqn:E; [left; by apply Qlt_bool_iff in E | split; [apply Qlt_bool_false in E; by apply not_below |]];
    intros [C1 C2]; congruence.
Qed.

(** The decision is carried out. *)
Lemma execute_action_ok h bid b sts t act :
  dget t sts = Some RUNNING ->
  _execute_action t act (at_bracket h bid b sts) = (at_bracket h bid b (finalize (Some t) act sts), Ok tt).
Proof.
  intros E. destruct act; cbn [_execute_action finalize status_after].
  - by rewrite (dset_id t RUNNING sts E).
  - unfold pause_trial, executor_stop. st_simpl. rewrite (status_of_at h bid t b sts _ E).
    rewrite bool_decide_true by done. cbn [py_assert]. rewrite !set_status_at. by rewrite dset_dset.
  - done.
Qed.

Lemma report_ok w t r :
  world_ok w -> dget t (trials w) = Some RUNNING -> on_schedule w t r ->
  exists w', _process_trial_result t r false w = (w', Ok tt) /\ world_ok w'.
Proof.
  intros Hw Hrun ((time & Etime & Hpos) & Hmet & Hsched). pose proof Hw as [Hm Ho Hp Hpar Hb Hi Ht Hba Hst].
  destruct (Ht t RUNNING Hrun ltac:(done) ltac:(done)) as (bid & b & Eb & Hin).
  destruct (Hb _ _ Eb) as [[Hn Hs Hk] Eattr]. pose proof (lookup_lt_Some _ _ _ Eb) as Hlt.
  destruct (Hi _ _ _ Eb Hin) as [band Einfo]. pose proof (proj2 (dget_is_Some _ _) Hin) as [old Hold].
  destruct (update_trial_stats_ok t r old b Hn Hold) as [Eup Hn1];
    [by exists time; rewrite Eattr | done | by apply (Hsched bid) |].
  set (b1 := recorded t r old b) in *.
  assert (dget t (_live_trials b1) = Some (Some r)) as Ht1 by (cbn; apply dget_dset_eq).
  assert (forall x rx, x <> t -> dget x (_live_trials b1) = Some rx -> dget x (_live_trials b) = Some rx) as Hother.
  { intros x rx Hne. cbn. by rewrite dget_dset_ne by congruence. }
  assert (forall x, x ∈ dkeys (_live_trials b1) <-> x ∈ dkeys (_live_trials b)) as Hkeys.
  { intros x. cbn. rewrite elem_dkeys_dset. split; [by intros [->|?] | by right]. }
  unfold _process_trial_result, on_trial_result, dgetitem. st_simpl. rewrite Einfo. cbn [or_raise].
  rewrite (on_bracket_world _ _ _ _ _ _ Eb Eup), (ask_bracket_at _ bid Hlt).
  destruct (continue_trial_spec t (Some r) b1 (num_res _ _ Hn1 t _ Ht1) Ht1) as (c & Ec & Hc). rewrite Ec. destruct c.
  - cbn [_execute_action]. eexists; split; [reflexivity|].
    rewrite <- (with_stopped_id (sched w)). apply (world_update w bid b); [done | done | | done | apply Hkeys | done |].
    + split; [done | |].
      * intros x rx Hx. destruct (decide (x = t)) as [->|Hne]; [|by apply Hs, Hother].
        rewrite Ht1 in Hx. injection Hx as <-. rewrite Hrun. exact Hc.
      * intros (x & rx & Hx & Hxp). destruct Hc as [Hc|Hl]; [by exists t, (Some r)|].
        assert (x <> t) as Hne by congruence. pose proof (Hs x rx (Hother x rx Hne Hx)) as H. rewrite Hxp in H.
        by destruct H as [_ []].
    + intros x Hx C. by rewrite Hkeys in C.
  - unfold process_bracket. st_simpl. rewrite (ask_bracket_at _ bid Hlt).
    destruct (process_spec (sched w) bid metric op Hlt Hm Ho (_halves b1) (Some t) b1 (trials w))
      as (k & b' & sts' & act & -> & [Hcur Hok' Hframe Hlive Hgone [Ha _]]).
    + intros x Hx%Hkeys. by eapply Hi.
    + split; [done | | | done].
      * intros x [= <-]. destruct Hc. by exists (Some r).
      * intros x rx Hx Hne. apply Hs, Hother; [congruence | done].
    + rewrite (execute_action_ok _ _ _ _ _ _ (Hcur t eq_refl)). eexists; split; [reflexivity|].
      apply (world_update w bid b); [done | done | done | done | | |].
      * intros x Hx. by apply Hkeys, Hlive.
      * intros x Hx. cbn [finalize]. rewrite dget_dset, decide_False by (by intros ->). apply Hframe. by rewrite Hkeys.
      * intros x Hx Hx'. left. apply Hgone; [by apply Hkeys | done].
Qed.

(** ** Adding a trial *)

Definition params_ok (h : HyperBandScheduler) : Prop :=
  (2 < _eta h)%Q /\ (1 <= _s_max_1 h)%nat /\ (1 <= _max_t_attr h)%Z.
Definition bands_ok (h : HyperBandScheduler) : Prop :=
  S (state_band_idx h) = length (_hyperbands h) /\ Forall (fun band => length band <= _s_max_1 h)%nat (_hyperbands h).

Lemma r0_bounds h s : params_ok h -> (0 <= _get_r0 h s)%Z /\
  (inject_Z (_get_r0 h s) * Qpower (_eta h) (Z.of_nat s) <= inject_Z (_max_t_attr h))%Q.
Proof.
  intros (He & _ & Hm). unfold _get_r0.
  assert (0 < _eta h ^ Z.of_nat s)%Q as Hp by (apply Qpower_0_lt; lra).
  assert (0 < _eta h ^ (- Z.of_nat s))%Q as Hp' by (apply Qpower_0_lt; lra).
  assert (0 < inject_Z (_max_t_attr h))%Q as Hmq by (change 0%Q with (inject_Z 0); rewrite <- Zlt_Qlt; lia).
  set (q := (inject_Z (_max_t_attr h) * _eta h ^ (- Z.of_nat s))%Q).
  assert (0 <= q)%Q as Hq by (unfold q; apply Qmult_le_0_compat; lra).
  rewrite int_of_Q_floor by done. split; [change 0%Z with (Qfloor 0); by apply Qfloor_resp_le|].
  pose proof (Qmult_mono_r _ q (_eta h ^ Z.of_nat s) (Qfloor_le q) ltac:(lra)) as H.
  assert (q * _eta h ^ Z.of_nat s == inject_Z (_max_t_attr h))%Q as E.
  { unfold q. rewrite Qpower_opp. field. lra. }
  lra.
Qed.

Lemma n0_positive h s : params_ok h -> (1 <= _get_n0 h s)%Z.
Proof.
  intros (He & Hs & _). unfold _get_n0.
  assert (0 < _eta h ^ Z.of_nat s)%Q as Hp by (apply Qpower_0_lt; lra).
  set (q := (inject_Z (Z.of_nat (_s_max_1 h)) / inject_Z (Z.of_nat (s + 1)))%Q).
  assert (0 < q)%Q as Hq.
  { unfold q. apply Qlt_shift_div_l; [|rewrite Qmult_0_l]; change 0%Q with (inject_Z 0); rewrite <- Zlt_Qlt; lia. }
  enough (0 < Qceiling (q * _eta h ^ Z.of_nat s))%Z by lia. rewrite Zlt_Qlt.
  eapply Qlt_le_trans; [|apply Qle_ceiling]. by apply Qmult_lt_0_compat.
Qed.

Lemma create_bracket_ok h s sts :
  params_ok h -> _get_r0 h s <> 0%Z -> bracket_ok metric sts (_create_bracket s h).
Proof.
  intros Hp Hr. destruct (r0_bounds h s Hp) as [H0 Hm]. pose proof (n0_positive h s Hp) as Hn.
  split; [|done | by intros (t & r & Ht & _)].
  split; cbn; [constructor | done | lia | apply Hp | split; [done | lia] | exact Hm | done].
Qed.

Lemma find_bracket_ok fuel : forall h,
  params_ok h -> bands_ok h ->
  (_s_max_1 h - length (default [] (_hyperbands h !! state_band_idx h)) < fuel)%nat ->
  exists s bands idx, _get_r0 h s <> 0%Z /\
    find_bracket fuel h = (with_bands bands (Some (length (brackets h))) idx
      (with_brackets (brackets h ++ [_create_bracket s h]) h), Ok tt) /\
    S idx = length bands /\ Forall (fun band => length band <= _s_max_1 h)%nat bands.
Proof.
  induction fuel as [|fuel IH]; intros h Hp [Hidx Hbands] Hfuel; [lia|].
  cbn [find_bracket]. st_simpl. pose proof Hp as (He & Hs & Hm). unfold new_band_if_filled, _cur_band_filled.
  destruct (lookup_lt_is_Some_2 (_hyperbands h) (state_band_idx h)) as [band Eband]; [lia|]. rewrite Eband in *. cbn [default] in *.
  unfold id in *. destruct (length band =? _s_max_1 h)%nat eqn:Efull.
  - cbn [_hyperbands with_bands state_band_idx]. rewrite lookup_app_r by lia.
    replace (S (state_band_idx h) - length (_hyperbands h))%nat with 0%nat by lia. cbn [lookup list_lookup default length].
    change (_s_max_1 (with_bands _ _ _ h)) with (_s_max_1 h). rewrite (proj2 (Nat.ltb_lt _ _)) by lia. cbn [py_assert].
    assert (_get_r0 h 0 = _max_t_attr h) as E0.
    { unfold _get_r0. cbn. unfold int_of_Q, inject_Z, Qmult. cbn. rewrite Z.mul_1_r. apply Z.quot_1_r. }
    change (_get_r0 (with_bands _ _ _ h) 0) with (_get_r0 h 0). rewrite E0, (proj2 (Z.eqb_neq _ _)) by lia.
    eexists 0%nat, _, _. split; [rewrite E0; lia|]. split; [reflexivity|]. cbn. rewrite length_alter, length_app. cbn.
    split; [lia|]. apply list.Forall_forall. intros x Hx. apply list_elem_of_lookup in Hx as [i Hi].
    rewrite list_lookup_alter in Hi. case_decide as D.
    + subst i. rewrite lookup_app_r in Hi by lia.
      replace (S (state_band_idx h) - length (_hyperbands h))%nat with 0%nat in Hi by lia. injection Hi as <-. cbn. lia.
    + apply lookup_app_Some in Hi as [Hi|[Hle Hi]]; [by eapply Forall_lookup_1 in Hi; [|exact Hbands]|].
      destruct (i - length (_hyperbands h))%nat as [|j]; [by injection Hi as <-; cbn; lia | done].
  - apply Nat.eqb_neq in Efull. pose proof (Forall_lookup_1 _ _ _ _ Hbands Eband) as Hle. cbn in Hle.
    rewrite Eband. cbn [default]. unfold id. rewrite (proj2 (Nat.ltb_lt _ _)) by lia. cbn [py_assert].
    assert (forall entry, S (state_band_idx h) = length (alter (fun b => b ++ [entry]) (state_band_idx h) (_hyperbands h)) /\
      Forall (fun b : list (option nat) => length b <= _s_max_1 h)%nat
        (alter (fun b => b ++ [entry]) (state_band_idx h) (_hyperbands h))) as Halter.
    { intros entry. rewrite length_alter. split; [done|]. apply list.Forall_forall. intros x Hx.
      apply list_elem_of_lookup in Hx as [i Hi]. rewrite list_lookup_alter in Hi. case_decide as D.
      - subst i. rewrite Eband in Hi. injection Hi as <-. rewrite length_app. cbn. lia.
      - by eapply Forall_lookup_1 in Hi; [|exact Hbands]. }
    destruct (_get_r0 h (length band) =? 0)%Z eqn:Er.
    + set (h1 := append_to_band None h).
      destruct (IH h1) as (s & bands & idx & Hr & E & H1 & H2); [done | by apply Halter | |].
      * cbn. rewrite list_lookup_alter, decide_True, Eband by done. cbn. unfold id. rewrite length_app. cbn. lia.
      * exists s, bands, idx. split; [done|]. by split.
    + apply Z.eqb_neq in Er. eexists (length band), _, _. split; [done|]. split; [reflexivity|]. by apply Halter.
Qed.

(** A new bracket has no trials. *)
Lemma world_new_bracket h sts s bands idx :
  world_ok (mkWorld h sts) -> _get_r0 h s <> 0%Z -> S idx = length bands ->
  Forall (fun band => length band <= _s_max_1 h)%nat bands ->
  world_ok (mkWorld (with_bands bands (Some (length (brackets h))) idx
    (with_brackets (brackets h ++ [_create_bracket s h]) h)) sts).
Proof.
  intros [Hm Ho Hp Hpar Hb Hi Ht Hba Hst] Hr Hidx Hbands. cbn in *.
  assert (forall bid b, (brackets h ++ [_create_bracket s h]) !! bid = Some b ->
    brackets h !! bid = Some b \/ b = _create_bracket s h) as Hlook.
  { intros bid b [?|[_ E]]%lookup_app_Some; [by left|]. destruct (bid - length (brackets h))%nat; [|done].
    injection E as <-. by right. }
  split; cbn; try done.
  - intros bid b [E| ->]%Hlook; [by apply (Hb bid)|]. split; [by apply create_bracket_ok | done].
  - intros bid b t [E| ->]%Hlook Hin; [by eapply Hi | by apply elem_of_nil in Hin].
  - intros t st E H1 H2. destruct (Ht t st E H1 H2) as (bid & b & Eb & Hin). exists bid, b.
    split; [|done]. by apply lookup_app_l_Some.
  - intros bid [= <-]. rewrite length_app. cbn. lia.
Qed.

(** A new trial in a bracket that is not filled *)
Lemma world_add h sts bid b t band :
  world_ok (mkWorld h sts) -> brackets h !! bid = Some b -> filled b = false -> dget t sts = None ->
  let b' := set_all (_all_trials b ++ [t]) (set_live (dset t None (_live_trials b)) b) in
  world_ok (mkWorld (with_info (dset t (bid, band) (_trial_info h)) (with_brackets (<[bid := b']> (brackets h)) h))
              (dset t PENDING sts)).
Proof.
  intros Hw Eb Hf Hfresh b'. pose proof Hw as [Hm Ho Hp Hpar Hb Hi Ht Hba Hst]. cbn in *.
  assert (forall bid2 b2, brackets h !! bid2 = Some b2 -> t ∉ dkeys (_live_trials b2)) as Hnew.
  { intros bid2 b2 E2 [r Hr]%dget_is_Some. destruct (Hb _ _ E2) as [[_ Hs _] _]. pose proof (Hs t r Hr) as C.
    by rewrite Hfresh in C. }
  assert (forall x sx, x <> t -> dget x (dset t sx sts) = dget x sts) as Hsts by (intros; by rewrite dget_dset_ne by congruence).
  destruct (Hb _ _ Eb) as [[[Hwf Hres [Hn Hl] He [Hr Hc] Hmx Hnx] Hs Hk] Ea].
  assert (0 < inject_Z (_cumul_r b))%Q as Hcq by (change 0%Q with (inject_Z 0); rewrite <- Zlt_Qlt; lia).
  assert (forall x rx, dget x (dset t None (_live_trials b)) = Some rx ->
    (x = t /\ rx = None) \/ (x <> t /\ dget x (_live_trials b) = Some rx)) as Hlive.
  { intros x rx. rewrite dget_dset. case_decide; [intros [= <-]; by left | intros; right; split; [congruence | done]]. }
  assert (bracket_ok metric (dset t PENDING sts) b') as Hb'.
  { split; [split|..]; cbn; try done.
    - by apply dwf_dset.
    - intros x rx [[-> ->]|[_ H]]%Hlive; [done | by apply (Hres x)].
    - rewrite dset_fresh by (by eapply Hnew). rewrite length_app. cbn. unfold filled in Hf. apply Z.eqb_neq in Hf. lia.
    - intros x rx [[-> ->]|[_ H]]%Hlive Hh; [|by apply (Hnx x)].
      destruct (halve_numbers metric b) as [Hg _]; [by split|done|]. cbn [rtime]. change 0%Q with (inject_Z 0).
      change (next_r _ _ _ _) with (_cumul_r (halve b)). rewrite <- Zlt_Qlt. lia.
    - intros x rx [[-> ->]|[Hx H]]%Hlive; [rewrite dget_dset_eq; exact Hcq|]. rewrite Hsts by done. by apply Hs.
    - intros _. exists t, None. split; [cbn; apply dget_dset_eq | exact Hcq]. }
  pose proof (lookup_lt_Some _ _ _ Eb) as Hlt.
  split; cbn; try done.
  - intros bid2 b2 E2. apply list_lookup_insert_Some in E2 as [(-> & <- & _)|[Hne E2]]; [done|].
    destruct (Hb _ _ E2) as [Hok ?]. split; [|done]. eapply bracket_ok_ext; [|exact Hok].
    intros x Hx. apply Hsts. intros ->. by eapply Hnew.
  - intros bid2 b2 x E2 Hx. apply list_lookup_insert_Some in E2 as [(-> & <- & _)|[Hne E2]].
    + cbn in Hx. apply elem_dkeys_dset in Hx as [->|Hx]; [exists band; apply dget_dset_eq|].
      destruct (Hi _ _ _ Eb Hx) as [band' E]. exists band'. rewrite dget_dset_ne; [done|]. intros ->. by eapply Hnew.
    + destruct (Hi _ _ _ E2 Hx) as [band' E]. exists band'. rewrite dget_dset_ne; [done|]. intros ->. by eapply Hnew.
  - intros x sx Hx H1 H2. destruct (decide (x = t)) as [->|Hne].
    + exists bid, b'. split; [by apply list_lookup_insert_eq|]. cbn. apply elem_dkeys_dset. by left.
    + rewrite Hsts in Hx by done. destruct (Ht x sx Hx H1 H2) as (bid2 & b2 & E2 & Hin).
      destruct (decide (bid2 = bid)) as [->|Hne2].
      * rewrite Eb in E2. injection E2 as <-. exists bid, b'. split; [by apply list_lookup_insert_eq|].
        cbn. apply elem_dkeys_dset. by right.
      * exists bid2, b2. split; [|done]. by rewrite list_lookup_insert_ne.
  - intros bid2 E2. rewrite length_insert. by apply Hst.
Qed.

Lemma submit_ok w t :
  world_ok w -> dget t (trials w) = None -> exists w', runner_add t w = (w', Ok tt) /\ world_ok w'.
Proof.
  destruct w as [h sts]. intros Hw Hfresh. pose proof Hw as [Hm Ho Hp Hpar Hb Hi Ht Hba Hst]. cbn in *.
  unfold runner_add, on_trial_add, set_status. st_simpl. cbn [sched]. rewrite Hp.
  assert (exists h', (if bracket_filled h then find_bracket (S (S (_s_max_1 h))) else fun s => (s, Ok tt)) h = (h', Ok tt) /\
    world_ok (mkWorld h' sts) /\ exists bid b, state_bracket h' = Some bid /\ brackets h' !! bid = Some b /\ filled b = false)
    as (h' & E & Hw' & bid & b & Estate & Eb & Hfill).
  { destruct (bracket_filled h) eqn:Efill.
    - destruct (find_bracket_ok (S (S (_s_max_1 h))) h) as (s & bands & idx & Hr & E & H1 & H2); [done | done | lia |].
      eexists; split; [exact E|]. split; [by apply world_new_bracket|].
      exists (length (brackets h)), (_create_bracket s h). cbn. split; [done|].
      split; [rewrite lookup_app_r, Nat.sub_diag by lia; done|].
      unfold filled. cbn. apply Z.eqb_neq. pose proof (n0_positive h s Hpar). lia.
    - exists h. split; [done|]. split; [done|]. unfold bracket_filled in Efill.
      destruct (state_bracket h) as [bid|] eqn:Es; [|done]. destruct (brackets h !! bid) as [b|] eqn:Eb; [|done]. eauto. }
  cbn [sched]. rewrite E. cbn [set_sched sched trials]. rewrite Estate. cbn [or_raise].
  change (set_sched h' (mkWorld h (dset t PENDING sts))) with (mkWorld h' (dset t PENDING sts)).
  unfold on_bracket. cbn [sched trials]. rewrite Eb. unfold add_trial. st_simpl. rewrite Hfill. cbn [negb py_assert].
  eexists; split; [reflexivity|]. cbn [set_sched sched trials].
  exact (world_add h' sts bid b t (state_band_idx h') Hw' Eb Hfill Hfresh).
Qed.

End World.

(** ** One round *)

(** C22. Successive halving. For a reduction factor above two, when every live
    trial of a bracket with halvings left has reached the milestone and none
    has reported a result at or beyond the next one, processing the bracket does not raise, keeps
    [ceil(n / eta)] of the live trials (all when there are fewer) and drops
    the others, none of which scores better than one that is kept. The kept
    trials go back to pending (the reporting one continues), the dropped ones
    are terminated (the reporting one by the decision [STOP]) and counted, one
    halving is used up and the milestone rises. *)
Theorem halving_keeps_best h bid metric op fuel cur b sts :
  (bid < length (brackets h))%nat -> _metric (props h) = Some metric -> _metric_op (props h) = Some op ->
  (forall t, t ∈ dkeys (_live_trials b) -> exists band, dget t (_trial_info h) = Some (bid, band)) ->
  processing metric cur sts b -> (0 < _halves b)%nat -> cur_iter_done b = Ok true ->
  exists k b' sts' act,
    _process_bracket (S fuel) bid (at_bracket h bid b sts) = (at_bracket (with_stopped k h) bid b' sts', Ok act) /\
    length (_live_trials b') = Nat.min (Z.to_nat (Qceiling (inject_Z (_n b) / b_eta b))) (length (_live_trials b)) /\
    (k = _num_stopped h + Z.of_nat (length (_live_trials b) - length (_live_trials b')))%Z /\
    (forall t, t ∈ dkeys (_live_trials b') -> t ∈ dkeys (_live_trials b) /\
       dget t (finalize cur act sts') = Some (if bool_decide (cur = Some t) then RUNNING else PENDING)) /\
    (forall t, t ∈ dkeys (_live_trials b) -> t ∉ dkeys (_live_trials b') ->
       dget t (finalize cur act sts') = Some TERMINATED /\
       forall s, s ∈ dkeys (_live_trials b') -> (score metric op b t <= score metric op b s)%Q) /\
    _halves b' = (_halves b - 1)%nat /\ (_cumul_r b < _cumul_r b')%Z.
Proof.
  intros Hbid Hm Ho Hinfo Hpr Hh Hdone. pose proof Hpr as [Hn Hc Hs Hf]. pose proof (num_wf _ _ Hn) as Hw.
  destruct (cur_iter_done_spec metric b Hw (num_res _ _ Hn)) as (v & Ev & Hnb). rewrite Hdone in Ev. injection Ev as <-.
  assert (finished b = Ok false) as Hfin.
  { unfold finished. rewrite (proj2 (Nat.eqb_neq _ _)) by lia. by destruct (stop_last_trials b). }
  destruct (successive_halving_split metric op b Hw (done_reported metric b Hn Hnb) Hh) as (good & bad & Ehalf & Hperm & Hlen & Hbest);
    [pose proof (num_eta _ _ Hn); lra | apply (num_n _ _ Hn) |].
  pose proof (halved_process h bid metric op Hbid Hm Ho fuel cur b sts good bad Hinfo Hpr Hh Hfin Hnb Ehalf Hperm Hlen Hdone) as E.
  pose proof (processed_halved metric cur sts b good bad Hpr Hh Hnb Hperm Hlen) as [Hcur Hok _ Hlive Hgone _].
  assert (NoDup (bad ++ good)) as Hnd by (rewrite Hperm; exact Hw). apply list.NoDup_app in Hnd as (Hndb & Hdisj & Hndg).
  destruct (foldl_ddel_length bad (_live_trials b) Hw Hndb) as [Hl _].
  { intros t Ht. rewrite <- Hperm. apply elem_of_app. by left. }
  pose proof (Permutation_length Hperm) as Hp. unfold dkeys in Hp. rewrite length_app, length_fmap in Hp.
  set (b' := set_live (live_without bad (halve b)) (halve b)) in *.
  assert (forall t, t ∈ dkeys (_live_trials b') <-> t ∈ good) as Hgood.
  { intros t. rewrite <- dget_is_Some. unfold b', live_without. cbn [set_live _live_trials halve].
    rewrite dget_foldl_ddel by done. case_decide as D.
    - split; [by intros [? ?] | intros Hg; by destruct (Hdisj t D)].
    - rewrite dget_is_Some, <- Hperm, elem_of_app. tauto. }
  eexists _, b', _, _. split; [exact E|]. split; [unfold b', live_without; cbn; unfold next_n in Hlen; lia|].
  split; [unfold b', live_without; cbn; lia|]. split; [|split; [|split; [done | by apply (halve_numbers metric b Hn Hh)]]].
  - intros t Ht. split; [by apply Hlive|]. rewrite Hgood in Ht. rewrite dget_finalize. case_bool_decide as D.
    + destruct (existsb _ good) eqn:Eg; [done|]. exfalso. apply not_true_iff_false in Eg. apply Eg, existsb_exists.
      exists t. rewrite <- list_elem_of_In. by rewrite bool_decide_true.
    + rewrite dget_set_all, decide_True; [done|]. by apply elem_of_others.
  - intros t Ht Ht'. split; [by apply Hgone|]. intros s Hs'. apply Hbest; [|by apply Hgood].
    rewrite <- Hperm, elem_of_app in Ht. destruct Ht as [?|C]; [done|]. by apply Hgood in C.
Qed.

(** ** Every history *)

Inductive tune_event : Type :=
| Submit (t : trial)
| Start (t : trial)
| Report (t : trial) (r : result_dict)
| Finish (t : trial) (r : result_dict)
| Fail (t : trial)
| Stop (fetched : bool) (t : trial).

Definition perform (e : tune_event) : ST world unit :=
  match e with
  | Submit t => runner_add t
  | Start t => set_status t RUNNING
  | Report t r => _process_trial_result t r false
  | Finish t r => _process_trial_result t r true
  | Fail t => _process_trial_failure t
  | Stop fetched t => stop_trial fetched t
  end.

(** What the runner does in a world, with results that follow the milestones *)
Definition allowed (metric : string) (w : world) (e : tune_event) : Prop :=
  match e with
  | Submit t => dget t (trials w) = None
  | Start t => dget t (trials w) = Some PENDING
  | Report t r => dget t (trials w) = Some RUNNING /\ on_schedule metric w t r
  | Finish t r => dget t (trials w) = Some RUNNING /\ removal_safe w t
  | Fail t => dget t (trials w) = Some RUNNING /\ removal_safe w t
  | Stop _ t => is_Some (dget t (trials w)) /\ removal_safe w t
  end.

Fixpoint all_allowed (metric : string) (w : world) (es : list tune_event) : Prop :=
  match es with
  | [] => True
  | e :: es' => allowed metric w e /\ all_allowed metric (perform e w).1 es'
  end.

Section History.
Context (metric : string) (op : Q).

Lemma start_ok w t : world_ok metric op w -> dget t (trials w) = Some PENDING ->
  world_ok metric op (mkWorld (sched w) (dset t RUNNING (trials w))).
Proof.
  intros Hw Hpend. pose proof Hw as [Hm Ho Hp Hpar Hb Hi Ht Hba Hst].
  destruct (Ht t PENDING Hpend ltac:(done) ltac:(done)) as (bid & b & Eb & Hin).
  destruct (Hb _ _ Eb) as [[Hn Hs Hk] Ea].
  pose proof (world_update metric op w bid b b (dset t RUNNING (trials w)) (_num_stopped (sched w)) Hw Eb) as H.
  rewrite with_stopped_id in H. unfold at_bracket in H. rewrite list_insert_id in H by done.
  replace (with_brackets (brackets (sched w)) (sched w)) with (sched w) in H by (by destruct (sched w)).
  apply H; [|done | done | intros x Hx; rewrite dget_dset_ne; [done|]; by intros -> | done].
  split; [done | |].
  - intros x r Hx. rewrite dget_dset. case_decide as E; [|by apply Hs]. subst x.
    pose proof (Hs t r Hx) as C. rewrite Hpend in C. by left.
  - intros (x & r & Hx & Hxp). apply Hk. exists x, r. split; [done|]. rewrite dget_dset in Hxp. by case_decide.
Qed.

Lemma perform_ok w e : world_ok metric op w -> allowed metric w e ->
  exists w', perform e w = (w', Ok tt) /\ world_ok metric op w'.
Proof.
  intros Hw Ha. pose proof (wo_trials _ _ _ Hw) as Ht.
  destruct e as [t|t|t r|t r|t|fetched t]; cbn [perform allowed] in *.
  - by apply (submit_ok metric op).
  - eexists; split; [reflexivity|]. by apply start_ok.
  - destruct Ha. by apply (report_ok metric op).
  - destruct Ha as [Hr Hsafe]. destruct (Ht t RUNNING Hr ltac:(done) ltac:(done)) as (bid & b & Eb & Hin).
    destruct (remove_ok metric op w t bid b Hw Eb Hin Hsafe) as (w1 & E & Hw1).
    unfold _process_trial_result. st_simpl. rewrite E. eexists; split; [reflexivity|]. apply Hw1. by left.
  - destruct Ha as [Hr Hsafe]. destruct (Ht t RUNNING Hr ltac:(done) ltac:(done)) as (bid & b & Eb & Hin).
    destruct (remove_ok metric op w t bid b Hw Eb Hin Hsafe) as (w1 & E & Hw1).
    unfold _process_trial_failure, status_of, dgetitem. st_simpl. rewrite Hr. cbn [or_raise].
    rewrite bool_decide_true by done. rewrite E. eexists; split; [reflexivity|]. apply Hw1. by right.
  - destruct Ha as [[s Hs] Hsafe]. unfold stop_trial, runner_stop, status_of, dgetitem. st_simpl. rewrite Hs. cbn [or_raise].
    destruct (decide (s = TERMINATED \/ s = ERROR)) as [Hd|Hd].
    { exists w. by destruct Hd as [->| ->]. }
    destruct (Ht t s Hs) as (bid & b & Eb & Hin); [by intros ->; apply Hd; left | by intros ->; apply Hd; right |].
    destruct (remove_ok metric op w t bid b Hw Eb Hin Hsafe) as (w1 & E & Hw1).
    destruct s; [| | | by destruct Hd; left | by destruct Hd; right].
    + rewrite E. eexists; split; [reflexivity|]. apply Hw1. by left.
    + destruct fetched; rewrite E; (eexists; split; [reflexivity|]); apply Hw1; auto.
    + rewrite E. eexists; split; [reflexivity|]. apply Hw1. by left.
Qed.

Lemma history_ok es : forall w, world_ok metric op w -> all_allowed metric w es ->
  exists w', st_for es perform w = (w', Ok tt) /\ world_ok metric op w'.
Proof.
  induction es as [|e es IH]; intros w Hw Ha; cbn [st_for]; st_simpl; [by exists w|].
  destruct Ha as [Ha Hes]. destruct (perform_ok w e Hw Ha) as (w1 & E & Hw1). rewrite E in Hes |- *. by apply IH.
Qed.

End History.

(** C12. HyperBand never gets stuck. For a reduction factor above two and any
    history in which trials are added, started, report results that have the
    time and the metric and do not skip a milestone, and are finished, failed
    or stopped (with [stop_last_trials], in the last round of a bracket only
    while some other trial has not reached the milestone or no other one is
    paused: [removal_safe]), no call of the scheduler or the runner raises; afterwards every bracket holds at most [n]
    live trials, and a bracket with a paused trial has a live trial that is
    pending or running and has not reached the milestone, so that the paused
    ones will be decided on. *)
Theorem hyperband_never_stuck time_attr metric mode max_t eta stop_last log_max_t h es :
  new_scheduler time_attr (Some metric) mode max_t eta stop_last log_max_t = Ok h ->
  has_props (props h) = true -> (2 < eta)%Q -> (0 <= log_max_t)%Z -> all_allowed metric (mkWorld h []) es ->
  exists w, st_for es perform (mkWorld h []) = (w, Ok tt) /\
    forall bid b, brackets (sched w) !! bid = Some b ->
      (Z.of_nat (length (_live_trials b)) <= _n b)%Z /\
      forall t r, dget t (_live_trials b) = Some r -> dget t (trials w) = Some PAUSED ->
        exists x rx, dget x (_live_trials b) = Some rx /\ below b rx /\
          (dget x (trials w) = Some PENDING \/ dget x (trials w) = Some RUNNING).
Proof.
  intros E Hprops He Hlog Ha. unfold new_scheduler in E. simpl_result.
  destruct (Z.ltb_spec 0 max_t) as [Hmax|]; [|done].
  assert (_metric a0 = Some metric) as Em.
  { unfold new_props in E1. simpl_result. by simpl_result. }
  destruct (has_props_some _ Hprops) as (m & op & _ & Eop).
  match type of Ha with all_allowed _ ?w _ => assert (world_ok metric op w) as Hw end.
  { split; cbn in *; try done; [split_and!; [done | lia | lia] | split; [done | by repeat constructor; cbn; lia]]. }
  destruct (history_ok metric op es _ Hw Ha) as (w & Ew & Hw'). exists w. split; [exact Ew|].
  intros bid b Eb. destruct (wo_brackets _ _ _ Hw' _ _ Eb) as [[Hn Hs Hk] _]. split; [apply (num_n _ _ Hn)|].
  intros t r Ht Hp. destruct Hk as (x & rx & Hx & Hb); [by exists t, r|]. exists x, rx. split; [done|]. split; [done|].
  pose proof (Hs x rx Hx) as H. destruct (dget x (trials w)) as [[]|]; cbn in H; auto; exfalso; [by destruct H as [H _]; apply H .. | done | done].
Qed.
