(* ===== verification/HyperBandExamples.v ===== *)
(** HyperBand on concrete trials: the theorems applied, and histories in which
    brackets get stuck or a call raises. *)

From Stdlib Require Import ZArith QArith Qround Lqa Lia.
From stdpp Require Import base list strings option.
From S2P Require Import Prelude PyDict TrialScheduler HyperBand HyperBandProps HyperBandSafety.

Definition fresh (max_t : Z) (eta : Q) (log_max_t : Z) : world :=
  mkWorld (mkHyperBand eta (Z.to_nat (log_max_t + 1)) max_t [] [[]] [] None 0 0
             (mkProps (Some "m") (Some "max") (Some 1%Q)) "t" true) [].

Definition report (t : string) (time value : Q) : tune_event := Report t [("t", time); ("m", value)].

Definition run (es : list tune_event) (w : world) : world * result unit := st_for es perform w.

(** What is left of each bracket: the live trials with their status, the
    milestone and the halvings left *)
Definition view (w : world) : list (list (string * option status) * Z * nat) :=
  map (fun b => (map (fun t => (t, dget t (trials w))) (current_trials b), _cumul_r b, _halves b)) (brackets (sched w)).

(** ** The theorems applied *)

Lemma Forall_lookup_alt {A} (P : A -> Prop) l : Forall P l -> forall i x, l !! i = Some x -> P x.
Proof. intros H i x. by apply Forall_lookup_1. Qed.

Definition good_history : list tune_event :=
  [Submit "a"; Submit "b"; Submit "c"; Submit "d"; Submit "e"; Start "d"; Start "e"; report "d" 3 1].

Lemma hyperband_never_stuck_witness :
  exists w, run good_history (fresh 9 3 2) = (w, Ok tt) /\
    exists b, brackets (sched w) !! 1%nat = Some b /\ dget "d" (trials w) = Some PAUSED /\
    exists x rx, dget x (_live_trials b) = Some rx /\ below b rx /\
      (dget x (trials w) = Some PENDING \/ dget x (trials w) = Some RUNNING).
Proof.
  destruct (hyperband_never_stuck "t" "m" (Some "max") 9 3 true 2 (sched (fresh 9 3 2)) good_history)
    as (w & E & H); [vm_compute; reflexivity | vm_compute; reflexivity | by_compute | lia | |].
  - cbn [all_allowed good_history report]. repeat split; try (vm_compute; reflexivity).
    + exists 3%Q. by split; [vm_compute | by_compute].
    + by eexists.
    + apply (Forall_lookup_alt (fun b => "d" ∈ dkeys (_live_trials b) -> (0 < _halves b)%nat ->
        (rtime b (Some [("t", 3%Q); ("m", 1%Q)]) < inject_Z (_cumul_r (halve b)))%Q)). by_compute.
  - exists w. split; [exact E|]. assert (w = (run good_history (fresh 9 3 2)).1) as -> by exact (eq_sym (f_equal fst E)).
    eexists. split; [vm_compute; reflexivity|]. split; [vm_compute; reflexivity|].
    eapply (H 1%nat) with (t := "d"); vm_compute; reflexivity.
Defined.

(** Two trials at the milestone of a bracket that keeps one *)
Definition two_done : Bracket :=
  mkBracket [("d", Some [("t", 3%Q); ("m", 1%Q)]); ("e", Some [("t", 3%Q); ("m", 2%Q)])] ["d"; "e"] "t" 3 3 3 9 3 1 18 6 true.
Definition with_two : HyperBandScheduler :=
  mkHyperBand 3 3 9 [two_done] [[Some 0%nat]] [("d", (0, 0)); ("e", (0, 0))]%nat (Some 0%nat) 0 0
    (mkProps (Some "m") (Some "max") (Some 1%Q)) "t" true.

Lemma halving_keeps_best_witness :
  exists k b' sts' act,
    _process_bracket 2 0 (at_bracket with_two 0 two_done [("d", PAUSED); ("e", RUNNING)]) =
      (at_bracket (with_stopped k with_two) 0 b' sts', Ok act) /\ length (_live_trials b') = 1%nat.
Proof.
  assert (forall t r, dget t (_live_trials two_done) = Some r ->
    (t = "d" /\ r = Some [("t", 3%Q); ("m", 1%Q)]) \/ (t = "e" /\ r = Some [("t", 3%Q); ("m", 2%Q)])) as Hlive.
  { intros t r. cbn. repeat case_decide; intros [= <-]; auto. }
  destruct (halving_keeps_best with_two 0 "m" 1 1 (Some "e") two_done [("d", PAUSED); ("e", RUNNING)])
    as (k & b' & sts' & act & E & Hl & _); [by_compute | done | done | | | by_compute | done |].
  - intros t Ht. exists 0%nat. apply dget_is_Some in Ht as [r Hr]. by destruct (Hlive t r Hr) as [[-> _]|[-> _]].
  - split; [split | | | done].
    + by_compute.
    + intros t r [[-> ->]|[-> ->]]%Hlive; split; by eexists.
    + by_compute.
    + by_compute.
    + by_compute.
    + by_compute.
    + intros t r [[-> ->]|[-> ->]]%Hlive _; by_compute.
    + intros t [= <-]. exists (Some [("t", 3%Q); ("m", 2%Q)]). split; [done|].
      split; [apply not_below; by_compute|]. split; [by intros [? _] | done].
    + intros t r [[-> ->]|[-> ->]]%Hlive Hne; [|done]. split; [apply not_below; by_compute | by intros [? _]].
  - exists k, b', sts', act. split; [exact E|]. rewrite Hl. vm_compute. reflexivity.
Defined.

(** ** Histories that get stuck *)

(** With a reduction factor of two the milestone does not rise when [max_t] is
    twice the milestone: after a round all trials of the bracket are paused. *)
Example factor_two_gets_stuck :
  let es := map Submit ["a"; "b"; "c"; "d"; "e"; "f"] ++ map Start ["d"; "e"; "f"] ++
            [report "d" 2 1; report "e" 2 2; report "f" 2 3] in
  view (run es (fresh 4 2 2)).1 !! 1%nat = Some ([("e", Some PAUSED); ("f", Some PAUSED)], 2%Z, 0%nat).
Proof. vm_compute. reflexivity. Qed.

(** Results that skip a milestone, as times in seconds do, have the same effect. *)
Example skipped_milestone_gets_stuck :
  let es := map Submit ["a"; "b"; "c"; "d"; "e"; "f"] ++ map Start ["d"; "e"; "f"] ++
            [report "d" 7 1; report "e" 7 2; report "f" 7 3] in
  view (run es (fresh 9 3 2)).1 !! 1%nat =
    Some ([("e", Some PAUSED); ("f", Some PAUSED)], 6%Z, 0%nat).
Proof. vm_compute. reflexivity. Qed.

(** When the last trial that the others wait for fails in the last round, the
    others stay paused. *)
Example failure_in_last_round_gets_stuck :
  let es := map Submit ["a"; "b"; "c"] ++ map Start ["a"; "b"; "c"] ++
            [report "a" 9 1; report "b" 9 2; Fail "c"] in
  view (run es (fresh 9 3 2)).1 !! 0%nat =
    Some ([("a", Some PAUSED); ("b", Some PAUSED)], 9%Z, 0%nat).
Proof. vm_compute. reflexivity. Qed.

(** Skipping two milestones, a round runs inside the round that stops its bad
    trials, stops the trials that the outer round is about to stop, and the
    outer round raises. *)
Example nested_round_raises :
  let first := ["a"; "b"; "c"; "d"; "e"; "f"; "g"; "h"; "i"; "j"] in
  let six := ["p"; "q"; "r"; "s"; "t"; "u"] in
  let es := map Submit (first ++ six) ++ map Start six ++
            map (fun p => report p.1 20 p.2) (zip six [1; 2; 3; 4; 5; 6]%Q) in
  (run es (fresh 27 3 3)).2 = Err TuneError.
Proof. vm_compute. reflexivity. Qed.

(** The last milestone is [max_t] less the one before, not [max_t]. *)
Example last_milestone_below_max_t :
  let es := map Submit ["a"; "b"; "c"; "d"] ++ [Start "d"; report "d" 3 1; report "d" 6 1] in
  view (run es (fresh 9 3 2)).1 !! 1%nat = Some ([("d", Some TERMINATED)], 6%Z, 0%nat).
Proof. vm_compute. reflexivity. Qed.
