(* ===== verification/VariantGenerator.v ===== *)
(** Tune's search spaces ([tune/suggest/variant_generator.py]): the unresolved
    values of a spec, grid search, and the generation of variants. *)

From Stdlib Require Import ZArith Lia.
From stdpp Require Import base list strings option.
From S2P Require Import Prelude PyDict.

Section Variants.
(** Numbers, strings, booleans, ...; and the objects of [tune/sample.py] *)
Context {Atom Domain : Type}.

(** ** Specs *)

Inductive value : Type :=
| VAtom (a : Atom)
| VDict (entries : list (string * value))
| VList (elements : list value)
| VDomain (d : Domain).

(** A path through dicts and lists *)
Inductive key : Type := KStr (s : string) | KIdx (i : nat).
Abbreviation path := (list key).

#[global] Instance key_eq_dec : EqDecision key.
Proof. solve_decision. Defined.

(** What [_try_resolve] makes of a value that is to be resolved: a domain to
    sample, an expression, or the values of a grid search *)
Inductive unresolved : Type :=
| UDomain (d : Domain)
| UEval (e : value)
| UGrid (values : list value).

(** [domain.categories] of a domain with [is_grid()]; what [sample] does with
    the spec, for the number of samples drawn before *)
Inductive sampled : Type := Sampled (v : value) | Recursive | Failed.
(** [domain[i]]: the categories of a [Categorical]; other domains cannot be
    subscripted *)
Class Categories : Type := categories : Domain -> option (list value).
Context {domain_categories : Categories}.
Variable grid_of : Domain -> option (list value).
Variable sample : nat -> unresolved -> value -> sampled.
Variable value_eqb : value -> value -> bool.

Definition _try_resolve (v : value) : result (option unresolved) :=
  match v with
  | VDomain d => Ok (Some (UDomain d))
  | VDict [(k, x)] =>
      if bool_decide (k = "eval") then Ok (Some (UEval x))
      else if bool_decide (k = "grid_search")
      then match x with VList vs => Ok (Some (UGrid vs)) | _ => Err TuneError end
      else Ok None
  | _ => Ok None
  end.

Definition _is_resolved (v : value) : result bool :=
  u ← _try_resolve v; Ok (match u with None => true | Some _ => false end).

(** The resolved and the unresolved values with their paths; an element of a
    list is treated as the entry of a dict [{i: elem}]. *)
Definition prefixed {A} (k : key) (l : list (path * A)) : list (path * A) := map (fun pv => (k :: pv.1, pv.2)) l.

Fixpoint _split_value (v : value) : result (list (path * value) * list (path * unresolved)) :=
  u ← _try_resolve v;
  match u with
  | Some u => Ok ([], [([], u)])
  | None =>
      match v with
      | VDict entries =>
          (fix go (l : list (string * value)) :=
             match l with
             | [] => Ok ([], [])
             | (k, x) :: l' =>
                 '(rs, us) ← _split_value x;
                 '(rs', us') ← go l';
                 Ok (prefixed (KStr k) rs ++ rs', prefixed (KStr k) us ++ us')
             end) entries
      | VList elements =>
          (fix go (i : nat) (l : list value) :=
             match l with
             | [] => Ok ([], [])
             | x :: l' =>
                 '(rs, us) ← _split_value x;
                 '(rs', us') ← go (S i) l';
                 Ok (prefixed (KIdx i) rs ++ rs', prefixed (KIdx i) us ++ us')
             end) 0 elements
      | _ => Ok ([([], v)], [])
      end
  end.

(** The spec itself is a dict whose entries are split, also when it has a single
    entry named like a grid search. *)
Fixpoint split_entries (l : list (string * value)) : result (list (path * value) * list (path * unresolved)) :=
  match l with
  | [] => Ok ([], [])
  | (k, x) :: l' =>
      '(rs, us) ← _split_value x;
      '(rs', us') ← split_entries l';
      Ok (prefixed (KStr k) rs ++ rs', prefixed (KStr k) us ++ us')
  end.
Definition _split_resolved_unresolved_values (spec : list (string * value)) := split_entries spec.

(** [is_grid()] and the categories *)
Definition grid_values (u : unresolved) : option (list value) :=
  match u with UGrid vs => Some vs | UDomain d => grid_of d | UEval _ => None end.

(** Keys at one position are of one kind, so that comparing paths never mixes them. *)
Definition key_compare (a b : key) : comparison :=
  match a, b with
  | KStr s, KStr s' => String.compare s s'
  | KIdx i, KIdx j => Nat.compare i j
  | KStr _, KIdx _ => Lt
  | KIdx _, KStr _ => Gt
  end.

Definition parse_spec_vars (spec : list (string * value)) :
  result (list (path * value) * list (path * unresolved) * list (path * list value)) :=
  '(resolved, unres) ← _split_resolved_unresolved_values spec;
  let domain_vars := filter (fun pu => grid_values pu.2 = None) unres in
  let grid_vars := omap (fun pu => (fun vs => (pu.1, vs)) <$> grid_values pu.2) unres in
  Ok (resolved, domain_vars, py_sorted (fun a b => is_lt (list_compare key_compare a.1 b.1)) grid_vars).

Definition count_spec_samples (spec : list (string * value)) (num_samples : Z) : result Z :=
  '(_, _, grid_vars) ← parse_spec_vars spec;
  Ok (num_samples * Z.of_nat (foldl (fun n pv => (n * length pv.2)%nat) 1%nat grid_vars))%Z.

(** ** Reading and writing by path *)

Definition get_item (k : key) (v : value) : result value :=
  match k, v with
  | KStr s, VDict l => dgetitem s l
  | KIdx i, VList l => or_raise IndexError (l !! i)
  | KIdx _, VDict _ => Err KeyError
  | KIdx i, VDomain d => match categories d with Some l => or_raise IndexError (l !! i) | None => Err TypeError end
  | _, _ => Err TypeError
  end.
(** Domains cannot be assigned to; writing into a dict among the categories of a
    domain is not modelled. *)
Definition set_item (k : key) (x v : value) : result value :=
  match k, v with
  | KStr s, VDict l => Ok (VDict (dset s x l))
  | KIdx i, VList l => if (i <? length l)%nat then Ok (VList (<[i := x]> l)) else Err IndexError
  | KIdx _, VDict _ => Err KeyError
  | _, _ => Err TypeError
  end.

Fixpoint _get_value (v : value) (p : path) : result value :=
  match p with [] => Ok v | k :: p' => x ← get_item k v; _get_value x p' end.

(** [path[-1]] of an empty path raises. *)
Fixpoint assign_value (p : path) (x v : value) : result value :=
  match p with
  | [] => Err IndexError
  | [k] => set_item k x v
  | k :: p' => child ← get_item k v; child' ← assign_value p' x child; set_item k child' v
  end.

(** ** [_grid_search_generator] *)

(** [increment(i)] on the indices from [i] on: whether all are used up *)
Fixpoint increment (lens idx : list nat) : bool * list nat :=
  match lens, idx with
  | n :: lens', i :: idx' =>
      if (n <=? S i)%nat
      then match idx' with
           | [] => (true, [0])
           | _ => let '(d, r) := increment lens' idx' in (d, 0 :: r)
           end
      else (false, S i :: idx')
  | _, _ => (true, idx)
  end.

Definition assign_choice (grid_vars : list (path * list value)) (idx : list nat) (spec : value) : result value :=
  foldM (fun s pvi => let '((p, vs), i) := pvi in x ← or_raise IndexError (vs !! i); assign_value p x s)
    spec (zip grid_vars idx).

Fixpoint grid_loop (fuel : nat) (spec : value) (grid_vars : list (path * list value)) (idx : list nat) : result (list value) :=
  match list.last idx, list.last grid_vars with
  | Some i, Some pv =>
      if (i <? length pv.2)%nat
      then match fuel with
           | O => Err OutOfFuel
           | S fuel' =>
               s ← assign_choice grid_vars idx spec;
               let '(done, idx') := increment (map (fun pv => length pv.2) grid_vars) idx in
               if done : bool then Ok [s] else rest ← grid_loop fuel' spec grid_vars idx'; Ok (s :: rest)
           end
      else Ok []
  | _, _ => Ok []
  end.

Definition _grid_search_generator (spec : value) (grid_vars : list (path * list value)) : result (list value) :=
  match grid_vars with
  | [] => Ok [spec]
  | _ => grid_loop (S (foldr (fun pv n => (length pv.2 * n)%nat) 1%nat grid_vars)) spec grid_vars (map (fun _ => 0) grid_vars)
  end.

(** ** [_resolve_domain_vars] *)

Definition _MAX_RESOLUTION_PASSES : nat := 20.

(** The number of samples drawn, the spec, what is resolved, and whether an
    expression depends on a value that is not *)
Record resolution : Type := mkResolution {
  drawn : nat;
  r_spec : value;
  r_resolved : dict path value;
  r_error : bool
}.

Definition resolve_one (s : resolution) (pu : path * unresolved) : result resolution :=
  if dmem pu.1 (r_resolved s) then Ok s
  else match sample (drawn s) pu.2 (r_spec s) with
       | Recursive => Ok (mkResolution (S (drawn s)) (r_spec s) (r_resolved s) true)
       | Failed => Err ValueError
       | Sampled x =>
           spec ← assign_value pu.1 x (r_spec s);
           Ok (mkResolution (S (drawn s)) spec (dset pu.1 x (r_resolved s)) (r_error s))
       end.

Fixpoint resolve_passes (passes : nat) (domain_vars : list (path * unresolved)) (s : resolution) : result resolution :=
  match passes with
  | O => Ok s
  | S passes' =>
      s ← foldM resolve_one (mkResolution (drawn s) (r_spec s) (r_resolved s) false) domain_vars;
      if r_error s then resolve_passes passes' domain_vars s else Ok s
  end.

Definition _resolve_domain_vars (n : nat) (spec : value) (domain_vars : list (path * unresolved)) (allow_fail : bool) :
  result resolution :=
  s ← resolve_passes _MAX_RESOLUTION_PASSES domain_vars (mkResolution n spec [] true);
  if r_error s && negb allow_fail then Err PyException else Ok s.

(** ** [_generate_variants]

    The generator as the list of what it yields, with the number of samples
    drawn. *)

Definition entries_of (v : value) : list (string * value) := match v with VDict l => l | _ => [] end.

(** What one inner variant adds to [resolved_vars] *)
Definition collect_grid (spec : value) (rv : dict path value) (pv : path * list value) : result (dict path value) :=
  x ← _get_value spec pv.1; Ok (dset pv.1 x rv).

Definition collect_inner (rv : dict path value) (kv : path * value) : result (dict path value) :=
  let '(k, v) := kv in
  ambiguous ← match dget k rv with
              | Some old => if value_eqb v old then Ok false else _is_resolved old
              | None => Ok false
              end;
  if ambiguous : bool then Err ValueError else Ok (dset k v rv).

Definition yield_inner (grid_vars : list (path * list value)) (acc : list (dict path value * value) * dict path value)
  (inner : dict path value * value) : result (list (dict path value * value) * dict path value) :=
  let '(out, rv) := acc in
  let '(resolved, spec) := inner in
  rv ← foldM (collect_grid spec) rv grid_vars;
  rv ← foldM collect_inner rv resolved;
  Ok (out ++ [(rv, spec)], rv).

(** The body of the loop over the specs of the grid search; [resample] is
    [not constant_grid_search or not all_resolved] *)
Definition resolved_spec_variants (generate : nat -> value -> result (nat * list (dict path value * value))) (resample : bool)
  (to_resolve : list (path * unresolved)) (grid_vars : list (path * list value))
  (acc : nat * list (dict path value * value) * dict path value) (resolved_spec : value) :
  result (nat * list (dict path value * value) * dict path value) :=
  let '(m, out, rv) := acc in
  s ← (if resample then _resolve_domain_vars m resolved_spec to_resolve false else Ok (mkResolution m resolved_spec rv false));
  '(m, inner) ← generate (drawn s) (r_spec s);
  '(out, rv) ← foldM (yield_inner grid_vars) (out, r_resolved s) inner;
  Ok (m, out, rv).

Fixpoint _generate_variants (fuel : nat) (constant_grid_search : bool) (n : nat) (spec : value) :
  result (nat * list (dict path value * value)) :=
  '(_, domain_vars, grid_vars) ← parse_spec_vars (entries_of spec);
  if bool_decide (length domain_vars = 0 /\ length grid_vars = 0) then Ok (n, [([], spec)])
  else match fuel with
  | O => Err OutOfFuel
  | S fuel' =>
      s ← (if constant_grid_search then _resolve_domain_vars n spec domain_vars true
           else Ok (mkResolution n spec [] false));
      let to_resolve := if r_error s then filter (fun pu => dget pu.1 (r_resolved s) = None) domain_vars else domain_vars in
      resolved_specs ← _grid_search_generator (r_spec s) grid_vars;
      acc ← foldM (resolved_spec_variants (_generate_variants fuel' constant_grid_search)
                     (negb constant_grid_search || r_error s) to_resolve grid_vars) (drawn s, [], r_resolved s) resolved_specs;
      Ok (acc.1.1, acc.1.2)
  end.

(** [assert not _unresolved_values(spec)] for every variant; [n] samples were
    drawn before *)
Definition generate_variants (fuel : nat) (n : nat) (spec : list (string * value)) (constant_grid_search : bool) :
  result (nat * list (dict path value * value)) :=
  '(n, vs) ← _generate_variants fuel constant_grid_search n (VDict spec);
  vs ← foldM (fun out v => '(_, us) ← _split_resolved_unresolved_values (entries_of v.2);
                           _ ← py_assert (length us =? 0)%nat; Ok (out ++ [v])) [] vs;
  Ok (n, vs).

End Variants.
