(* ===== verification/VariantProps.v ===== *)
(** Grid search yields the cartesian product: what [_generate_variants] makes of
    a spec whose unresolved values are grid searches over resolved values. *)

From Stdlib Require Import ZArith Lia.
From stdpp Require Import base list strings option.
From S2P Require Import Prelude PyDict VariantGenerator.

(** ** Cartesian products *)

Section Product.
Context {A B C : Type}.

Fixpoint product (ls : list (list A)) : list (list A) :=
  match ls with
  | [] => [[]]
  | l :: ls' => concat (map (fun x => map (cons x) (product ls')) l)
  end.

(** Two loops can be exchanged. *)
Lemma concat_map_swap (F : A -> B -> list C) la lb :
  concat (map (fun a => concat (map (F a) lb)) la) ≡ₚ concat (map (fun b => concat (map (fun a => F a b) la)) lb).
Proof.
  induction la as [|a la IH]; cbn.
  - induction lb; [done|]. by cbn.
  - rewrite IH. clear IH. induction lb as [|b lb IHb]; [done|]. cbn. rewrite <- IHb. solve_Permutation.
Qed.

Lemma concat_map_ext (f g : A -> list B) l : (forall x, x ∈ l -> f x ≡ₚ g x) -> concat (map f l) ≡ₚ concat (map g l).
Proof.
  induction l as [|x l IH]; intros H; [done|]. cbn. rewrite (H x) by left. rewrite IH; [done|]. intros; apply H; by right.
Qed.
End Product.

Lemma concat_map_map {A B C} (f : B -> list C) (g : A -> list B) l :
  concat (map f (concat (map g l))) = concat (map (fun x => concat (map f (g x))) l).
Proof. induction l as [|x l IH]; [done|]. cbn. rewrite map_app, concat_app. by rewrite IH. Qed.

Lemma map_concat {A B} (f : A -> B) l : map f (concat l) = concat (map (map f) l).
Proof. induction l as [|x l IH]; [done|]. cbn. by rewrite map_app, IH. Qed.

Lemma concat_map_single {A B} (f : A -> B) l : concat (map (fun x => [f x]) l) = map f l.
Proof. induction l as [|x l IH]; [done|]. cbn. by rewrite IH. Qed.

Section ProductLemmas.
Context {A B : Type}.

Lemma product_app (l1 l2 : list (list A)) :
  product (l1 ++ l2) = concat (map (fun a => map (app a) (product l2)) (product l1)).
Proof.
  induction l1 as [|l l1 IH]; cbn [app product].
  - cbn. rewrite app_nil_r. symmetry. apply map_id.
  - rewrite IH, concat_map_map. f_equal. apply map_ext. intros x. rewrite map_concat, !map_map. f_equal.
    apply map_ext. intros a. by rewrite map_map.
Qed.

Lemma elem_of_product (ls : list (list A)) xs : xs ∈ product ls <-> Forall2 (fun x l => x ∈ l) xs ls.
Proof.
  revert xs. induction ls as [|l ls IH]; intros xs; cbn.
  - rewrite list_elem_of_singleton. split; [by intros -> | by inversion 1].
  - rewrite list_elem_of_In, in_concat. split.
    + intros (ys & (x & <- & Hx)%in_map_iff & (zs & <- & Hz)%in_map_iff). constructor; [by apply list_elem_of_In|].
      apply IH. by apply list_elem_of_In.
    + inversion 1 as [|x l0 zs ls0 Hx Hz]; subst. exists (map (cons x) (product ls)). split.
      * apply in_map_iff. exists x. split; [done|]. by apply list_elem_of_In.
      * apply in_map, list_elem_of_In. by apply IH.
Qed.

(** The order of the factors matters only up to the order of the choices. *)
Lemma product_Permutation (P : list A -> Prop) (F : list A -> B) ls ls' :
  (forall a a', a ≡ₚ a' -> P a -> F a = F a') ->
  (forall a ls0, ls0 ≡ₚ ls -> Forall2 (fun x l => x ∈ l) a ls0 -> P a) ->
  ls ≡ₚ ls' -> map F (product ls) ≡ₚ map F (product ls').
Proof.
  intros HF Hin Hp. revert P F HF Hin.
  induction Hp as [|l ls ls' Hp IH|l1 l2 ls|ls1 ls2 ls3 Hp1 IH1 Hp2 IH2]; intros P F HF Hin.
  - done.
  - cbn [product]. rewrite !map_concat, !map_map. apply concat_map_ext. intros x Hx. rewrite !map_map.
    apply (IH (fun a => P (x :: a)) (fun a => F (x :: a))).
    + intros a a' Ha. apply HF. by constructor.
    + intros a ls0 Hls Ha. apply (Hin (x :: a) (l :: ls0)); by constructor.
  - cbn [product]. rewrite !map_concat, !map_map.
    transitivity (concat (map (fun x => concat (map (fun y => map (fun r => F (x :: y :: r)) (product ls)) l1)) l2)).
    + apply concat_map_ext. intros x _. rewrite map_map, map_concat, map_map. apply concat_map_ext. intros y _.
      by rewrite map_map.
    + rewrite concat_map_swap. apply concat_map_ext. intros y Hy. rewrite map_map, map_concat, map_map.
      apply concat_map_ext. intros x Hx. rewrite map_map.
      erewrite map_ext_in; [reflexivity|]. intros r Hr. cbn. apply HF; [by constructor|]. apply (Hin _ (l2 :: l1 :: ls)); [done|]. constructor; [done|]. constructor; [done|].
      by apply elem_of_product, list_elem_of_In.
  - transitivity (map F (product ls2)); [by apply (IH1 P)|]. apply (IH2 P); [done|].
    intros a ls0 Hls. apply Hin. by rewrite Hls.
Qed.
End ProductLemmas.

(** ** Counting through the choices *)

Section Count.

Fixpoint unrank (lens : list nat) (k : nat) : list nat :=
  match lens with [] => [] | n :: lens' => (k mod n)%nat :: unrank lens' (k / n) end.

Definition total (lens : list nat) : nat := foldr Nat.mul 1%nat lens.

Lemma total_pos lens : Forall (fun n => 0 < n)%nat lens -> (0 < total lens)%nat.
Proof. induction 1; cbn; [lia|]. unfold total in *. nia. Qed.

(** [increment] counts. *)
Lemma increment_unrank lens k :
  Forall (fun n => 0 < n)%nat lens -> lens <> [] -> (k < total lens)%nat ->
  if (S k <? total lens)%nat then increment lens (unrank lens k) = (false, unrank lens (S k))
  else (increment lens (unrank lens k)).1 = true.
Proof.
  intros Hpos. revert k. induction Hpos as [|n lens Hn Hpos IH]; intros k Hne Hk; [done|].
  cbn [unrank increment total foldr] in *. change (foldr Nat.mul 1 lens)%nat with (total lens) in *.
  pose proof (Nat.div_mod k n ltac:(lia)) as Hdm. pose proof (Nat.mod_upper_bound k n ltac:(lia)) as Hmod.
  destruct (Nat.leb_spec n (S (k mod n))) as [C|C].
  - assert (S k / n = S (k / n) /\ S k mod n = 0)%nat as [-> ->].
    { split; [symmetry; apply (Nat.div_unique _ _ _ 0); lia | symmetry; apply (Nat.mod_unique _ _ (S (k / n))); lia]. }
    destruct lens as [|m lens]; cbn [unrank].
    + change (total []) with 1%nat in *. rewrite (proj2 (Nat.ltb_ge _ _)) by (pose proof (Nat.Div0.mod_le k n); lia). done.
    + specialize (IH (k / n)%nat ltac:(done)). assert (k / n < total (m :: lens))%nat as Hq by (apply Nat.Div0.div_lt_upper_bound; lia).
      specialize (IH Hq). change (k / n mod m :: unrank lens (k / n / m))%nat with (unrank (m :: lens) (k / n)).
      destruct (Nat.ltb_spec (S (k / n)) (total (m :: lens))) as [D|D].
      * rewrite IH. rewrite (proj2 (Nat.ltb_lt _ _)) by nia. done.
      * destruct (increment (m :: lens) (unrank (m :: lens) (k / n))) as [d r]. cbn in IH. subst d.
        rewrite (proj2 (Nat.ltb_ge _ _)) by nia. done.
  - assert (S k / n = k / n /\ S k mod n = S (k mod n))%nat as [-> ->].
    { split; [symmetry; apply (Nat.div_unique _ _ _ (S (k mod n))); lia | symmetry; apply (Nat.mod_unique _ _ (k / n)); lia]. }
    assert (k / n < total lens)%nat by (apply Nat.Div0.div_lt_upper_bound; lia).
    rewrite (proj2 (Nat.ltb_lt _ _)) by nia. done.
Qed.

Lemma seq_divmod (n m : nat) : (0 < n)%nat ->
  map (fun k => (k mod n, k / n)%nat) (seq 0 (n * m)) = concat (map (fun q => map (fun i => (i, q)) (seq 0 n)) (seq 0 m)).
Proof.
  intros Hn. induction m as [|m IH]; [by rewrite Nat.mul_0_r|].
  rewrite Nat.mul_succ_r, seq_app, map_app, IH. rewrite (seq_S m), map_app, concat_app. f_equal. cbn. rewrite app_nil_r.
  apply list_eq. intros i. rewrite !list_lookup_fmap.
  destruct (decide (i < n)%nat) as [Hi|Hi].
  - rewrite !lookup_seq_lt by done. cbn. f_equal. f_equal.
    + symmetry. apply (Nat.mod_unique _ _ m); lia.
    + symmetry. apply (Nat.div_unique _ _ _ i); lia.
  - rewrite !lookup_seq_ge by lia. done.
Qed.

Context {A : Type}.

(** The elements at the given positions *)
Fixpoint pick (ls : list (list A)) (idx : list nat) : list A :=
  match ls, idx with
  | l :: ls', i :: idx' => match l !! i with Some x => x :: pick ls' idx' | None => [] end
  | _, _ => []
  end.

Lemma map_lookup_seq {B} (l : list A) (f : A -> list B) :
  concat (map (fun i => match l !! i with Some x => f x | None => [] end) (seq 0 (length l))) = concat (map f l).
Proof.
  induction l as [|x l IH] using rev_ind; [done|]. rewrite length_app, Nat.add_1_r, seq_S, !map_app, !concat_app. cbn.
  rewrite lookup_app_r, Nat.sub_diag by lia. cbn. f_equal. rewrite <- IH. f_equal.
  apply map_ext_in. intros i Hi%in_seq. by rewrite lookup_app_l by lia.
Qed.

(** Counting visits every choice once. *)
Lemma pick_product ls :
  Forall (fun l => 0 < length l)%nat ls ->
  map (fun k => pick ls (unrank (map length ls) k)) (seq 0 (total (map length ls))) ≡ₚ product ls.
Proof.
  induction 1 as [|l ls Hl Hpos IH]; [done|]. cbn [map unrank pick product total foldr].
  change (foldr Nat.mul 1 (map length ls))%nat with (total (map length ls)).
  transitivity (map (fun iq => match l !! iq.1 with Some x => x :: pick ls (unrank (map length ls) iq.2) | None => [] end)
    (map (fun k => (k mod length l, k / length l)%nat) (seq 0 (length l * total (map length ls))))).
  { by rewrite map_map. }
  rewrite seq_divmod by done. rewrite map_concat, map_map.
  transitivity (concat (map (fun i => concat (map (fun q => match l !! i with
    Some x => [x :: pick ls (unrank (map length ls) q)] | None => [] end) (seq 0 (total (map length ls))))) (seq 0 (length l)))).
  - rewrite <- concat_map_swap. apply concat_map_ext. intros q _. rewrite map_map. cbn.
    rewrite <- (concat_map_single (fun i => match l !! i with Some x => x :: _ | None => [] end)).
    apply concat_map_ext. intros i Hi%list_elem_of_In%in_seq.
    destruct (lookup_lt_is_Some_2 l i) as [x ->]; [lia | done].
  - rewrite <- (map_lookup_seq l). apply concat_map_ext. intros i Hi%list_elem_of_In%in_seq.
    destruct (lookup_lt_is_Some_2 l i) as [x ->]; [lia|]. rewrite concat_map_single, <- (map_map _ (cons x)).
    by apply Permutation_map.
Qed.

End Count.

(** ** Specs with grid searches *)

Section Grid.
Context {Atom Domain : Type} {domain_categories : @Categories Atom Domain}.
Abbreviation V := (@value Atom Domain).
Abbreviation path := (list key).
Implicit Types (v x : V) (f : path -> option V).

(** A dict that is neither an expression nor a grid search *)
Definition plain_keys (ks : list string) : bool :=
  match ks with [k] => negb (bool_decide (k = "eval")) && negb (bool_decide (k = "grid_search")) | _ => true end.

Definition as_grid v : option (list V) :=
  match v with
  | VDict [(k, VList vs)] => if bool_decide (k = "grid_search") then Some vs else None
  | _ => None
  end.

(** Specs without domains and expressions, with non-empty grid searches, of depth
    at most [n] and with at most [g] grid searches inside each other *)
Fixpoint gridded (n g : nat) v : Prop :=
  match n with
  | O => False
  | S n' =>
      match v with
      | VAtom _ => True
      | VDomain _ => False
      | VList l => Forall (gridded n' g) l
      | VDict l =>
          match as_grid v with
          | Some vs => match g with O => False | S g' => vs <> [] /\ Forall (gridded n' g') vs end
          | None => dwf l /\ plain_keys (map fst l) = true /\ Forall (fun kv => gridded n' g kv.2) l
          end
      end
  end.

(** The dict with the same keys and other values *)
Definition with_values (l : list (string * V)) (xs : list V) : V := VDict (zip (map fst l) xs).

(** *** The reference: every grid search is replaced by each of its values *)
Fixpoint expand (n : nat) v : list V :=
  match n with
  | O => []
  | S n' =>
      match v with
      | VList l => map VList (product (map (expand n') l))
      | VDict l =>
          match as_grid v with
          | Some vs => vs
          | None => map (with_values l) (product (map (fun kv => expand n' kv.2) l))
          end
      | _ => [v]
      end
  end.

Lemma as_grid_plain l : plain_keys (map fst l) = true -> as_grid (VDict l) = None.
Proof.
  destruct l as [|[k x] [|? ?]]; cbn; [done| |by destruct x]. intros [_ H%negb_true_iff]%andb_true_iff.
  destruct x; try done. by rewrite H.
Qed.

Lemma gridded_mono n n' g g' v : gridded n g v -> (n <= n')%nat -> (g <= g')%nat -> gridded n' g' v.
Proof.
  revert n' g g' v. induction n as [|n IH]; intros n' g g' v H Hn Hg; [done|].
  destruct n' as [|n']; [lia|]. cbn [gridded] in *. destruct v as [a|l|l|d]; [done| |  |done].
  - destruct (as_grid (VDict l)) as [vs|].
    + destruct g as [|g]; [done|]. destruct g' as [|g']; [lia|]. destruct H as [Hne H]. split; [done|].
      eapply list.Forall_impl; [exact H|]. intros x Hx. apply (IH n' g g'); [done | lia | lia].
    + destruct H as (Hw & Hp & H). split; [done|]. split; [done|]. eapply list.Forall_impl; [exact H|].
      intros x Hx. apply (IH n' g g'); [done | lia | lia].
  - eapply list.Forall_impl; [exact H|]. intros x Hx. apply (IH n' g g'); [done | lia | lia].
Qed.

Lemma zip_keys (l : list (string * V)) (xs : list V) : length xs = length l -> map fst (zip (map fst l) xs) = map fst l.
Proof.
  intros H. change (map fst (zip (map fst l) xs)) with ((zip (map fst l) xs).*1). rewrite fst_zip; [done|].
  rewrite length_map. lia.
Qed.

Lemma product_length {A} (ls : list (list A)) xs : xs ∈ product ls -> length xs = length ls.
Proof. rewrite elem_of_product. apply Forall2_length. Qed.

(** *** The grid searches by path *)

Fixpoint gvars (n : nat) v : list (path * list V) :=
  match n with
  | O => []
  | S n' =>
      match v with
      | VList l => concat (imap (fun i x => prefixed (KIdx i) (gvars n' x)) l)
      | VDict l =>
          match as_grid v with
          | Some vs => [([], vs)]
          | None => concat (map (fun kv => prefixed (KStr kv.1) (gvars n' kv.2)) l)
          end
      | _ => []
      end
  end.

Definition as_unresolved (pv : path * list V) : path * @unresolved Atom Domain := (pv.1, UGrid pv.2).

Lemma prefixed_map k l : map as_unresolved (prefixed k l) = prefixed k (map as_unresolved l).
Proof. unfold prefixed. by rewrite !map_map. Qed.

Lemma try_resolve_gridded n g v : gridded n g v -> _try_resolve v = Ok (UGrid <$> as_grid v).
Proof.
  destruct n as [|n]; [done|]. destruct v as [a|l|l|d]; cbn [gridded]; try done.
  destruct (as_grid (VDict l)) as [vs|] eqn:Eg.
  - intros _. destruct l as [|[k x] [|? ?]]; cbn in *; [done | | by destruct x]. destruct x; try done.
    destruct (decide (k = "grid_search")) as [->|Hne]; [|by rewrite bool_decide_false in Eg].
    rewrite bool_decide_true in Eg by done. by injection Eg as ->.
  - intros (_ & Hp & _). destruct l as [|[k x] [|? ?]]; cbn in *; [done | | done].
    apply andb_true_iff in Hp as [->%negb_true_iff ->%negb_true_iff]. done.
Qed.

Lemma split_entries_ok n (l : list (string * V)) :
  Forall (fun kv => exists rs, _split_value kv.2 = Ok (rs, map as_unresolved (gvars n kv.2))) l ->
  exists rs, split_entries l = Ok (rs, map as_unresolved (concat (map (fun kv => prefixed (KStr kv.1) (gvars n kv.2)) l))).
Proof.
  induction 1 as [|[k x] l (rs & Ex) _ (rs' & IH)]; cbn [split_entries]; [by exists []|].
  cbn [snd] in Ex. rewrite Ex. cbn [mbind result_bind]. rewrite IH. cbn [mbind result_bind map concat fst snd].
  eexists. by rewrite map_app, prefixed_map.
Qed.

Lemma split_value_ok n g v : gridded n g v -> exists rs, _split_value v = Ok (rs, map as_unresolved (gvars n v)).
Proof.
  revert g v. induction n as [|n IH]; intros g v H; [done|]. pose proof (try_resolve_gridded _ _ _ H) as Et.
  cbn [gridded] in H. destruct v as [a|l|l|d]; [by exists [([], VAtom a)] | | | done].
  - cbn [_split_value]. rewrite Et. cbn [mbind result_bind gvars]. destruct (as_grid (VDict l)) as [vs|]; [by exists []|].
    destruct H as (_ & _ & H). destruct (split_entries_ok n l) as (rs & E).
    { eapply list.Forall_impl; [exact H|]. intros kv Hkv. exact (IH g kv.2 Hkv). }
    exists rs. rewrite <- E. cbn [fmap option_fmap option_map]. clear. induction l as [|[k x] l IHl]; [done|].
    cbn [split_entries]. by rewrite <- IHl.
  - cbn [_split_value _try_resolve mbind result_bind gvars].
    assert (forall i, exists rs, (fix go (i : nat) (l : list V) {struct l} :=
             match l with
             | [] => Ok ([], [])
             | x :: l' =>
                 '(rs, us) ← _split_value x;
                 '(rs', us') ← go (S i) l';
                 Ok (prefixed (KIdx i) rs ++ rs', prefixed (KIdx i) us ++ us')
             end) i l = Ok (rs, map as_unresolved (concat (imap (fun j x => prefixed (KIdx (i + j)) (gvars n x)) l)))) as Hgo.
    { clear Et. induction H as [|x l Hx _ IHl]; intros i; [by exists []|]. destruct (IH g x Hx) as (rs & ->).
      cbn [mbind result_bind]. destruct (IHl (S i)) as (rs' & ->). cbn [mbind result_bind imap concat]. eexists.
      rewrite map_app, prefixed_map, Nat.add_0_r. f_equal. f_equal. f_equal. f_equal. f_equal. apply imap_ext. intros j y _. cbn [compose]. by rewrite Nat.add_succ_r. }
    destruct (Hgo 0%nat) as (rs & E). exists rs. exact E.
Qed.

(** *** Replacing grid searches *)

Fixpoint subst (n : nat) f v : V :=
  match n with
  | O => v
  | S n' =>
      match v with
      | VList l => VList (imap (fun i x => subst n' (fun q => f (KIdx i :: q)) x) l)
      | VDict l =>
          match as_grid v with
          | Some _ => default v (f [])
          | None => VDict (map (fun kv => (kv.1, subst n' (fun q => f (KStr kv.1 :: q)) kv.2)) l)
          end
      | _ => v
      end
  end.

Lemma subst_ext n : forall f f' v, (forall q, f q = f' q) -> subst n f v = subst n f' v.
Proof.
  induction n as [|n IH]; intros f f' v H; [done|]. cbn [subst]. destruct v as [a|l|l|d]; try done.
  - destruct (as_grid (VDict l)); [by rewrite H|]. f_equal. apply map_ext. intros [k x]. cbn. f_equal. apply IH. auto.
  - f_equal. apply imap_ext. intros i x _. apply IH. auto.
Qed.

Lemma subst_none n v : subst n (fun _ => None) v = v.
Proof.
  revert v. induction n as [|n IH]; intros v; [done|]. cbn [subst]. destruct v as [a|l|l|d]; try done.
  - destruct (as_grid (VDict l)); [done|]. f_equal. induction l as [|[k x] l IHl]; [done|]. cbn. by rewrite IH, IHl.
  - f_equal. rewrite (imap_ext _ (fun _ x => x)) by (intros; apply IH). induction l as [|x l IHl]; [done|]. cbn. f_equal. exact IHl.
Qed.

Definition upd f (p : path) x : path -> option V := fun q => if decide (q = p) then Some x else f q.

(** The paths of the grid searches, by the kind of value *)
Lemma elem_of_prefixed {A} k (l : list (path * A)) p y : (p, y) ∈ prefixed k l <-> exists q, p = k :: q /\ (q, y) ∈ l.
Proof.
  unfold prefixed. rewrite list_elem_of_In, in_map_iff. split.
  - intros ([q z] & [= <- <-] & Hin). exists q. by rewrite list_elem_of_In.
  - intros (q & -> & Hin). exists (q, y). by rewrite <- list_elem_of_In.
Qed.

Lemma elem_of_gvars_dict n l p vs :
  as_grid (VDict l) = None -> (p, vs) ∈ gvars (S n) (VDict l) <->
  exists k x q, (k, x) ∈ l /\ p = KStr k :: q /\ (q, vs) ∈ gvars n x.
Proof.
  intros Eg. cbn [gvars]. rewrite Eg, list_elem_of_In, in_concat. split.
  - intros (ys & ([k x] & <- & Hin)%in_map_iff & Hy%list_elem_of_In). apply elem_of_prefixed in Hy as (q & -> & Hq).
    exists k, x, q. by rewrite list_elem_of_In.
  - intros (k & x & q & Hin & -> & Hq). eexists. split.
    + apply in_map_iff. exists (k, x). split; [reflexivity|]. by apply list_elem_of_In.
    + apply list_elem_of_In, elem_of_prefixed. eauto.
Qed.

Lemma elem_of_gvars_list n l p vs :
  (p, vs) ∈ gvars (S n) (VList l) <-> exists i x q, l !! i = Some x /\ p = KIdx i :: q /\ (q, vs) ∈ gvars n x.
Proof.
  cbn [gvars]. rewrite list_elem_of_In, in_concat. split.
  - intros (ys & Hys%list_elem_of_In & Hy%list_elem_of_In). apply elem_of_lookup_imap in Hys as (i & x & -> & Hi).
    apply elem_of_prefixed in Hy as (q & -> & Hq). eauto 6.
  - intros (i & x & q & Hi & -> & Hq). eexists. split.
    + apply list_elem_of_In, elem_of_lookup_imap. eauto.
    + apply list_elem_of_In, elem_of_prefixed. eauto.
Qed.

Lemma gvars_nil n v vs : ([], vs) ∈ gvars n v -> as_grid v = Some vs.
Proof.
  destruct n as [|n]; [by intros ?%elem_of_nil|]. destruct v as [a|l|l|d]; try (by intros ?%elem_of_nil).
  - destruct (as_grid (VDict l)) as [vs'|] eqn:Eg.
    + cbn [gvars]. rewrite Eg. by intros [= <-]%list_elem_of_singleton.
    + by intros (k & x & q & _ & ? & _)%elem_of_gvars_dict.
  - by intros (i & x & q & _ & ? & _)%elem_of_gvars_list.
Qed.

Lemma gvars_cons n v k p vs : (k :: p, vs) ∈ gvars n v -> as_grid v = None.
Proof.
  destruct n as [|n]; [by intros ?%elem_of_nil|]. destruct v as [a|l|l|d]; try done.
  destruct (as_grid (VDict l)) as [vs'|] eqn:Eg; [|done]. cbn [gvars]. rewrite Eg. by intros ?%list_elem_of_singleton.
Qed.

(** Dicts whose values are changed by a function of the key *)
Definition map_entries (F : string -> V -> V) (l : list (string * V)) := map (fun kv => (kv.1, F kv.1 kv.2)) l.

Lemma dget_map_entries F k l : dget k (map_entries F l) = F k <$> dget k l.
Proof. induction l as [|[k' x] l IH]; [done|]. cbn. case_decide; [by subst | done]. Qed.

Lemma dset_map_entries F G k y l :
  dwf l -> k ∈ dkeys l -> (forall x, G k x = y) -> (forall k' x, k' <> k -> G k' x = F k' x) ->
  dset k y (map_entries F l) = map_entries G l.
Proof.
  intros Hw Hin Hy Hne. induction l as [|[k' x] l IH]; [by apply elem_of_nil in Hin|].
  apply dwf_cons in Hw as [Hk Hw]. rewrite dkeys_cons in Hin. cbn. case_decide as D.
  - subst k'. f_equal; [by rewrite Hy|]. apply map_ext_in. intros [k' x'] Hx. cbn. rewrite Hne; [done|].
    intros ->. apply Hk. apply list_elem_of_fmap. exists (k, x'). split; [done|]. by apply list_elem_of_In.
  - f_equal; [by rewrite Hne|]. apply IH; [done|]. by apply elem_of_cons in Hin as [?|?].
Qed.

Lemma upd_cons n f k q x z : subst n (fun q0 => upd f (k :: q) x (k :: q0)) z = subst n (upd (fun q0 => f (k :: q0)) q x) z.
Proof. apply subst_ext. intros q0. unfold upd. repeat case_decide; congruence. Qed.

Lemma upd_other n f k k' q x z : k <> k' -> subst n (fun q0 => upd f (k :: q) x (k' :: q0)) z = subst n (fun q0 => f (k' :: q0)) z.
Proof. intros H. apply subst_ext. intros q0. unfold upd. rewrite decide_False; congruence. Qed.

(** Storing the child that the update is in *)
Lemma set_entry n f l k q y x :
  dwf l -> (k, y) ∈ l ->
  dset k (subst n (upd (fun q0 => f (KStr k :: q0)) q x) y) (map_entries (fun k z => subst n (fun q => f (KStr k :: q)) z) l) =
  map_entries (fun k' z => subst n (fun q0 => upd f (KStr k :: q) x (KStr k' :: q0)) z) l.
Proof.
  intros Hw Hin. set (y' := subst _ _ _).
  rewrite (dset_map_entries _ (fun k' z => if decide (k' = k) then y' else subst n (fun q => f (KStr k' :: q)) z));
    [| done | | intros; by rewrite decide_True | intros; by rewrite decide_False].
  - apply map_ext_in. intros [k' z] Hz%list_elem_of_In. cbn. f_equal. case_decide as D; [|rewrite upd_other; congruence].
    subst k'. rewrite upd_cons. pose proof (elem_dget k z l Hw Hz) as Hz'. rewrite (elem_dget k y l Hw Hin) in Hz'. by injection Hz' as <-.
  - apply list_elem_of_fmap. by exists (k, y).
Qed.

Lemma set_element n f l i q y x :
  l !! i = Some y ->
  set_item (KIdx i) (subst n (upd (fun q0 => f (KIdx i :: q0)) q x) y) (VList (imap (fun j z => subst n (fun q0 => f (KIdx j :: q0)) z) l)) =
  Ok (VList (imap (fun j z => subst n (fun q0 => upd f (KIdx i :: q) x (KIdx j :: q0)) z) l)).
Proof.
  intros Hi. pose proof (lookup_lt_Some _ _ _ Hi) as Hlt. cbn [set_item]. rewrite length_imap, (proj2 (Nat.ltb_lt _ _) Hlt).
  f_equal. f_equal. apply list_eq. intros j. rewrite list_lookup_imap. destruct (decide (j = i)) as [->|Hj].
  - rewrite list_lookup_insert_eq by (by rewrite length_imap). rewrite Hi. cbn. by rewrite upd_cons.
  - rewrite list_lookup_insert_ne by done. rewrite list_lookup_imap. destruct (l !! j); [|done]. cbn. f_equal.
    symmetry. apply upd_other. congruence.
Qed.

Lemma subst_here n g f v vs x : gridded n g v -> ([], vs) ∈ gvars n v -> subst n (upd f [] x) v = x.
Proof. intros Hv Hp%gvars_nil. destruct n; [done|]. destruct v; try done. cbn [subst]. by rewrite Hp. Qed.

(** Assigning at the path of a grid search replaces this one. *)
Lemma assign_subst n g v f p vs x :
  gridded n g v -> (p, vs) ∈ gvars n v -> p <> [] -> assign_value p x (subst n f v) = Ok (subst n (upd f p x) v).
Proof.
  revert g v f p. induction n as [|n IH]; intros g v f p Hv Hp Hne; [done|].
  destruct p as [|k0 p0]; [done|]. pose proof (gvars_cons _ _ _ _ _ Hp) as Eg. cbn [gridded] in Hv.
  destruct v as [a|l|l|d]; [by apply elem_of_nil in Hp | | | done].
  - rewrite Eg in Hv. destruct Hv as (Hw & _ & Hl). apply elem_of_gvars_dict in Hp as (k & y & q & Hin & [= -> ->] & Hq); [|done].
    rewrite list.Forall_forall in Hl. pose proof (Hl _ Hin) as Hgy. cbn in Hgy. pose proof (set_entry n f l k q y x Hw Hin) as Hset.
    cbn [subst]. rewrite Eg. fold (map_entries (fun k z => subst n (fun q => f (KStr k :: q)) z) l).
    destruct q as [|k1 q1]; [rewrite (subst_here n g _ y vs) in Hset by done; cbn [assign_value set_item]; by rewrite Hset|].
    change (assign_value (KStr k :: k1 :: q1) x ?s) with
      (child ← get_item (KStr k) s; child' ← assign_value (k1 :: q1) x child; set_item (KStr k) child' s).
    cbn [get_item]. unfold dgetitem. rewrite dget_map_entries, (elem_dget k y l Hw Hin). cbn [fmap option_fmap option_map or_raise mbind result_bind].
    rewrite (IH g y _ _ Hgy Hq) by done. cbn [mbind result_bind set_item]. by rewrite Hset.
  - apply elem_of_gvars_list in Hp as (i & y & q & Hi & [= -> ->] & Hq). rewrite list.Forall_forall in Hv.
    pose proof (Hv y (list_elem_of_lookup_2 _ _ _ Hi)) as Hgy. pose proof (set_element n f l i q y x Hi) as Hset. cbn [subst].
    destruct q as [|k1 q1]; [rewrite (subst_here n g _ y vs) in Hset by done; exact Hset|].
    change (assign_value (KIdx i :: k1 :: q1) x ?s) with
      (child ← get_item (KIdx i) s; child' ← assign_value (k1 :: q1) x child; set_item (KIdx i) child' s).
    cbn [get_item]. rewrite list_lookup_imap, Hi. cbn [fmap option_fmap option_map or_raise mbind result_bind].
    rewrite (IH g y _ _ Hgy Hq) by done. exact Hset.
Qed.

Lemma gridded_dict n g l : as_grid (VDict l) = None -> gridded (S n) g (VDict l) ->
  dwf l /\ plain_keys (map fst l) = true /\ Forall (fun kv => gridded n g kv.2) l.
Proof. cbn [gridded]. by intros ->. Qed.

(** Reading at the path of a grid search *)
Lemma get_subst n g v f p vs x :
  gridded n g v -> (p, vs) ∈ gvars n v -> f p = Some x -> _get_value (subst n f v) p = Ok x.
Proof.
  revert g v f p. induction n as [|n IH]; intros g v f p Hv Hp Hf; [done|]. destruct p as [|k0 p0].
  - apply gvars_nil in Hp. destruct v; try done. cbn [subst]. rewrite Hp, Hf. done.
  - pose proof (gvars_cons _ _ _ _ _ Hp) as Eg. destruct v as [a|l|l|d]; [by apply elem_of_nil in Hp | | | done].
    + apply elem_of_gvars_dict in Hp as (k & y & q & Hin & [= -> ->] & Hq); [|done].
      apply gridded_dict in Hv as (Hw & _ & Hl); [|done]. rewrite list.Forall_forall in Hl.
      cbn [subst]. rewrite Eg. cbn [_get_value get_item]. unfold dgetitem.
      change (map _ l) with (map_entries (fun k z => subst n (fun q => f (KStr k :: q)) z) l).
      rewrite dget_map_entries, (elem_dget k y l Hw Hin). cbn [fmap option_fmap option_map or_raise mbind result_bind].
      by apply (IH g y _ _ (Hl _ Hin)).
    + apply elem_of_gvars_list in Hp as (i & y & q & Hi & [= -> ->] & Hq). cbn [gridded] in Hv. rewrite list.Forall_forall in Hv.
      cbn [subst _get_value get_item]. rewrite list_lookup_imap, Hi. cbn [fmap option_fmap option_map or_raise mbind result_bind].
      apply (IH g y); [|done..]. by eapply Hv, list_elem_of_lookup_2.
Qed.

(** *** Choices for the grid searches *)

Definition choices (gv : list (path * list V)) : list (list (path * V)) :=
  product (map (fun pv => map (pair pv.1) pv.2) gv).

Definition chosen (a : list (path * V)) : path -> option V := fun q => dget q a.

Lemma choices_paths gv a : a ∈ choices gv -> map fst a = map fst gv.
Proof.
  unfold choices. rewrite elem_of_product. revert a. induction gv as [|[p vs] gv IH]; intros a Ha; inversion Ha as [|x l b ls Hx Hb]; subst; [done|].
  cbn. apply list_elem_of_fmap in Hx as (y & -> & _). cbn. f_equal. by apply IH.
Qed.

Lemma choices_prefixed k gv : choices (prefixed k gv) = map (prefixed k) (choices gv).
Proof.
  unfold choices, prefixed. induction gv as [|[p vs] gv IH]; [done|]. cbn [map product fst snd]. rewrite IH, map_concat.
  rewrite !map_map. f_equal. apply map_ext. intros x. by rewrite !map_map.
Qed.

Lemma dget_prefixed k (a : list (path * V)) q : dget (k :: q) (prefixed k a) = dget q a.
Proof.
  induction a as [|[p x] a IH]; [done|]. cbn [prefixed map dget fst snd].
  repeat case_decide; simplify_eq; done.
Qed.

Lemma dget_prefixed_ne k k' (a : list (path * V)) q : k <> k' -> dget (k' :: q) (prefixed k a) = None.
Proof. intros H. induction a as [|[p x] a IH]; [done|]. cbn. rewrite decide_False by congruence. exact IH. Qed.

Definition children n (es : list (key * V)) : list (path * list V) :=
  concat (map (fun kx => prefixed kx.1 (gvars n kx.2)) es).

Lemma choices_children_other n es k q a : k ∉ map fst es -> a ∈ choices (children n es) -> dget (k :: q) a = None.
Proof.
  intros Hk Ha. apply dget_None. unfold dkeys. intros Hin. apply choices_paths in Ha.
  change (map fst a) with a.*1 in Ha. assert (k :: q ∈ map fst (children n es)) as H by (by rewrite <- Ha).
  apply list_elem_of_fmap in H as ([p vs] & Hp & H%list_elem_of_In). apply in_concat in H as (b & ([k' x] & <- & He)%in_map_iff & Hb).
  apply list_elem_of_In, elem_of_prefixed in Hb as (q' & -> & _). cbn in Hp. injection Hp as -> ->.
  apply Hk, list_elem_of_fmap. exists (k', x). by rewrite list_elem_of_In.
Qed.

(** Choosing for the children of a dict or list is choosing for each. *)
Lemma subst_children n es :
  NoDup (map fst es) ->
  Forall (fun kx => map (fun a => subst n (chosen a) kx.2) (choices (gvars n kx.2)) = expand n kx.2) es ->
  map (fun a => map (fun kx => subst n (fun q => chosen a (kx.1 :: q)) kx.2) es) (choices (children n es)) =
  product (map (fun kx => expand n kx.2) es).
Proof.
  intros Hnd H. induction H as [|[k x] es Hx _ IH]; [done|]. cbn [map fst] in Hnd. apply list.NoDup_cons in Hnd as [Hk Hnd].
  specialize (IH Hnd). cbn [fst snd] in Hx. cbn [map fst snd product]. rewrite <- IH, <- Hx. clear IH Hx.
  unfold children. cbn [map concat fst snd]. fold (children n es).
  unfold choices at 1. rewrite map_app, product_app. change (product (map _ (prefixed k (gvars n x)))) with (choices (prefixed k (gvars n x))).
  change (product (map _ (children n es))) with (choices (children n es)).
  rewrite choices_prefixed, !map_map, map_concat, map_map. f_equal. apply map_ext. intros b. rewrite !map_map.
  apply map_ext_in. intros c Hc%list_elem_of_In. unfold chosen. f_equal.
  - apply subst_ext. intros q. rewrite dget_app, dget_prefixed. destruct (dget q b); [done|].
    by eapply choices_children_other.
  - apply map_ext_in. intros [k' y] Hy. cbn [fst snd]. apply subst_ext. intros q. rewrite dget_app, dget_prefixed_ne; [done|].
    intros <-. apply Hk, list_elem_of_fmap. exists (k, y). by rewrite list_elem_of_In.
Qed.

Definition keyed (l : list V) : list (key * V) := imap (fun i x => (KIdx i, x)) l.

Lemma gvars_list n l : gvars (S n) (VList l) = children n (keyed l).
Proof. cbn [gvars]. unfold children, keyed. f_equal. change (map ?h ?z) with (h <$> z). by rewrite fmap_imap. Qed.

Definition keyed_entries (l : list (string * V)) : list (key * V) := map (fun kv => (KStr kv.1, kv.2)) l.

Lemma gvars_dict n l : as_grid (VDict l) = None -> gvars (S n) (VDict l) = children n (keyed_entries l).
Proof. intros Eg. cbn [gvars]. rewrite Eg. unfold children, keyed_entries. by rewrite map_map. Qed.

Lemma NoDup_keyed l : NoDup (map fst (keyed l)).
Proof.
  unfold keyed. change (map ?h ?z) with (h <$> z). rewrite fmap_imap. apply list.NoDup_alt. intros i j k.
  rewrite !list_lookup_imap. destruct (l !! i), (l !! j); cbn; congruence.
Qed.

Lemma NoDup_keyed_entries l : dwf l -> NoDup (map fst (keyed_entries l)).
Proof.
  intros H. unfold keyed_entries. rewrite map_map. cbn. rewrite <- (map_map fst KStr).
  change (NoDup (KStr <$> l.*1)). apply NoDup_fmap; [|exact H]. intros ? ? [= ->]. done.
Qed.

(** All choices together are the variants. *)
Lemma subst_choices n g v :
  gridded n g v -> map (fun a => subst n (chosen a) v) (choices (gvars n v)) = expand n v.
Proof.
  revert g v. induction n as [|n IH]; intros g v H; [done|]. destruct v as [a|l|l|d]; [done | | | done].
  - destruct (as_grid (VDict l)) as [vs|] eqn:Eg.
    + cbn [gvars expand]. rewrite Eg. unfold choices. cbn [map product fst snd]. rewrite concat_map_single, !map_map.
      erewrite map_ext; [apply map_id|]. intros x. cbn [subst]. by rewrite Eg.
    + apply gridded_dict in H as (Hw & _ & Hl); [|done]. rewrite gvars_dict by done. cbn [expand subst]. rewrite Eg.
      rewrite <- (map_map (fun kv => (KStr kv.1, kv.2)) (fun kx => expand n kx.2)). fold (keyed_entries l).
      rewrite <- (subst_children n (keyed_entries l)).
      * rewrite map_map. apply map_ext. intros a. unfold with_values, keyed_entries. f_equal. rewrite map_map. cbn [fst snd].
        clear. induction l as [|[k x] l IHl]; [done|]. cbn. by rewrite <- IHl.
      * by apply NoDup_keyed_entries.
      * unfold keyed_entries. apply List.Forall_map. eapply list.Forall_impl; [exact Hl|]. intros kv Hkv. exact (IH g kv.2 Hkv).
  - cbn [gridded] in H. rewrite gvars_list. cbn [expand subst].
    assert (map (expand n) l = map (fun kx => expand n kx.2) (keyed l)) as ->.
    { unfold keyed. change (map (fun kx => expand n kx.2) ?z) with ((fun kx => expand n kx.2) <$> z). rewrite fmap_imap. cbn.
      symmetry. apply (imap_const (expand n)). }
    rewrite <- (subst_children n (keyed l) (NoDup_keyed l)).
    + rewrite map_map. apply map_ext. intros a. f_equal. unfold keyed. change (map ?h (imap ?i ?z)) with (h <$> imap i z). by rewrite fmap_imap.
    + unfold keyed. apply list.Forall_forall. intros kx (i & x & -> & Hi)%elem_of_lookup_imap. cbn [snd]. apply (IH g).
      rewrite list.Forall_forall in H. by eapply H, list_elem_of_lookup_2.
Qed.

Lemma NoDup_prefixed {A} k (l : list (path * A)) : NoDup (map fst l) -> NoDup (map fst (prefixed k l)).
Proof.
  intros H. unfold prefixed. rewrite map_map. cbn. rewrite <- (map_map fst (cons k)). change (NoDup (cons k <$> l.*1)).
  apply NoDup_fmap; [|exact H]. by intros ? ? [= ->].
Qed.

Lemma NoDup_children n es :
  NoDup (map fst es) -> Forall (fun kx => NoDup (map fst (gvars n kx.2))) es -> NoDup (map fst (children n es)).
Proof.
  intros Hnd H. induction H as [|[k x] es Hx _ IH]; [constructor|]. cbn [map fst] in Hnd. apply list.NoDup_cons in Hnd as [Hk Hnd].
  unfold children. cbn [map concat fst snd]. fold (children n es). rewrite map_app. apply list.NoDup_app. split_and!.
  - by apply NoDup_prefixed.
  - intros p Hp Hp'. apply list_elem_of_fmap in Hp as ([p0 vs] & -> & Hp). apply elem_of_prefixed in Hp as (q & -> & _).
    apply list_elem_of_fmap in Hp' as ([p1 vs'] & Heq & H%list_elem_of_In). cbn in Heq. subst p1.
    apply in_concat in H as (b & ([k' y] & <- & He)%in_map_iff & Hb). apply list_elem_of_In, elem_of_prefixed in Hb as (q' & [= -> ->] & _).
    apply Hk, list_elem_of_fmap. exists (k', y). by rewrite list_elem_of_In.
  - by apply IH.
Qed.

Lemma NoDup_gvars n g v : gridded n g v -> NoDup (map fst (gvars n v)).
Proof.
  revert g v. induction n as [|n IH]; intros g v H; [done|]. destruct v as [a|l|l|d]; [constructor | | | constructor].
  - destruct (as_grid (VDict l)) as [vs|] eqn:Eg; [cbn [gvars]; rewrite Eg; apply NoDup_singleton|].
    apply gridded_dict in H as (Hw & _ & Hl); [|done]. rewrite gvars_dict by done.
    apply NoDup_children; [by apply NoDup_keyed_entries|]. apply List.Forall_map. eapply list.Forall_impl; [exact Hl|].
    intros kv Hkv. exact (IH g kv.2 Hkv).
  - rewrite gvars_list. apply NoDup_children; [apply NoDup_keyed|]. apply list.Forall_forall.
    intros kx (i & x & -> & Hi)%elem_of_lookup_imap. cbn [gridded] in H. rewrite list.Forall_forall in H. apply (IH g). by eapply H, list_elem_of_lookup_2.
Qed.

Lemma gvars_nonempty n g v p vs : gridded n g v -> (p, vs) ∈ gvars n v -> vs <> [].
Proof.
  revert g v p. induction n as [|n IH]; intros g v p H Hp; [done|]. destruct v as [a|l|l|d]; [by apply elem_of_nil in Hp | | | done].
  - destruct (as_grid (VDict l)) as [vs'|] eqn:Eg.
    + cbn [gvars gridded] in *. rewrite Eg in *. apply list_elem_of_singleton in Hp as [= -> ->]. destruct g; [done|]. tauto.
    + apply elem_of_gvars_dict in Hp as (k & x & q & Hin & -> & Hq); [|done]. apply gridded_dict in H as (_ & _ & Hl); [|done].
      rewrite list.Forall_forall in Hl. exact (IH g _ _ (Hl _ Hin) Hq).
  - apply elem_of_gvars_list in Hp as (i & x & q & Hi & -> & Hq). cbn [gridded] in H. rewrite list.Forall_forall in H.
    apply (IH g x q); [|done]. by eapply H, list_elem_of_lookup_2.
Qed.

(** The order of the variables does not matter. *)
Lemma choices_Permutation n v gv gv' :
  NoDup (map fst gv) -> gv ≡ₚ gv' ->
  map (fun a => subst n (chosen a) v) (choices gv) ≡ₚ map (fun a => subst n (chosen a) v) (choices gv').
Proof.
  intros Hnd Hp. unfold choices. apply (product_Permutation (fun a => NoDup (map fst a))).
  - intros a a' Ha Hn. apply subst_ext. intros q. unfold chosen. destruct (dget q a) as [x|] eqn:E.
    + symmetry. apply elem_dget; [unfold dwf, dkeys; by rewrite <- Ha|]. rewrite <- Ha. by apply dget_elem.
    + symmetry. rewrite dget_None in E |- *. unfold dkeys in *. by rewrite <- Ha.
  - intros a ls (gv0 & -> & Hgv)%Permutation_map_inv Ha.
    assert (map fst a = map fst gv0) as ->; [|by rewrite <- Hgv].
    apply (choices_paths gv0). unfold choices. by apply elem_of_product.
  - by apply Permutation_map.
Qed.

(** *** The generator of grid searches *)

Abbreviation lens gv := (map (fun pv : path * list V => length pv.2) gv).
Abbreviation pairs gv := (map (fun pv : path * list V => map (pair pv.1) pv.2) gv).

Lemma assign_choice_ok n g v gv idx a :
  gridded n g v -> Forall (fun pv => pv ∈ gvars n v /\ pv.1 <> []) gv -> NoDup (map fst a ++ map fst gv) ->
  Forall2 (fun i m => i < m)%nat idx (lens gv) ->
  assign_choice gv idx (subst n (chosen a) v) = Ok (subst n (chosen (a ++ pick (pairs gv) idx)) v).
Proof.
  intros Hg Hgv. unfold assign_choice. revert idx a. induction Hgv as [|[p vs] gv [Hp Hne] _ IH]; intros idx a Hnd Hi.
  { inversion Hi; subst. cbn. by rewrite app_nil_r. }
  inversion Hi as [|i m idx' ms Him Hidx]; subst. cbn [zip zip_with foldM fst snd pick map]. cbn [fst snd] in *.
  destruct (lookup_lt_is_Some_2 vs i Him) as [x Hx]. rewrite Hx. cbn [or_raise mbind result_bind].
  rewrite (assign_subst n g v _ p vs) by done. cbn [mbind result_bind].
  change (map (pair p) vs !! i) with ((pair p <$> vs) !! i). rewrite list_lookup_fmap, Hx. cbn [fmap option_fmap option_map].
  change (a ++ (p, x) :: ?r) with (a ++ ([(p, x)] ++ r)). rewrite (app_assoc a).
  rewrite (subst_ext n _ (chosen (a ++ [(p, x)]))).
  - apply IH; [|done]. rewrite map_app, <- app_assoc. exact Hnd.
  - intros q. unfold upd, chosen. rewrite dget_app. cbn [dget]. destruct (decide (q = p)) as [->|Hq].
    + rewrite (proj2 (dget_None p a)); [done|]. intros Hin. apply list.NoDup_app in Hnd as (_ & Hd & _).
      apply (Hd p Hin). left.
    + by destruct (dget q a).
Qed.

Lemma unrank_valid ms k : Forall (fun m => 0 < m)%nat ms -> Forall2 (fun i m => i < m)%nat (unrank ms k) ms.
Proof. intros H. revert k. induction H; intros k; constructor; [|done]. apply Nat.mod_upper_bound. lia. Qed.

Lemma unrank_zero gv : map (fun _ => 0%nat) gv = unrank (lens gv) 0.
Proof.
  induction gv as [|pv gv IH]; [done|]. cbn [map unrank]. rewrite Nat.Div0.mod_0_l, Nat.Div0.div_0_l. by f_equal.
Qed.

Lemma last_valid gv idx : gv <> [] -> Forall2 (fun i m => i < m)%nat idx (lens gv) ->
  exists i pv, list.last idx = Some i /\ list.last gv = Some pv /\ (i < length pv.2)%nat.
Proof.
  intros Hne H. remember (lens gv) as ms eqn:E. revert gv Hne E. induction H as [|i m idx ms Him H IH]; intros gv Hne E.
  - by destruct gv.
  - destruct gv as [|pv gv]; [done|]. cbn in E. injection E as -> ->. destruct gv as [|pv' gv].
    + inversion H; subst. cbn. eauto.
    + destruct (IH (pv' :: gv)) as (j & pw & Hj & Hpw & Hlt); [done | done|]. exists j, pw. inversion H; subst. done.
Qed.

Lemma grid_loop_ok n g v gv k fuel :
  gridded n g v -> gv <> [] -> Forall (fun pv => pv ∈ gvars n v /\ pv.1 <> []) gv -> NoDup (map fst gv) ->
  (k < total (lens gv))%nat -> (total (lens gv) - k <= fuel)%nat ->
  grid_loop fuel v gv (unrank (lens gv) k) =
  Ok (map (fun j => subst n (chosen (pick (pairs gv) (unrank (lens gv) j))) v) (seq k (total (lens gv) - k))).
Proof.
  intros Hg Hne Hgv Hnd. assert (Forall (fun m => 0 < m)%nat (lens gv)) as Hpos.
  { apply List.Forall_map. eapply list.Forall_impl; [exact Hgv|]. intros [p vs] [Hp _]. apply gvars_nonempty with (g := g) in Hp; [|done].
    destruct vs; [done|]. cbn. lia. }
  revert k. induction fuel as [|fuel IH]; intros k Hk Hf; [lia|]. cbn [grid_loop].
  pose proof (unrank_valid _ k Hpos) as Hv. destruct (last_valid gv _ Hne Hv) as (i & pv & -> & -> & Hlt).
  rewrite (proj2 (Nat.ltb_lt _ _) Hlt). rewrite <- (subst_none n v) at 1. change (fun _ => None) with (chosen []).
  rewrite (assign_choice_ok n g v gv _ []) by done. cbn [mbind result_bind app].
  pose proof (increment_unrank (lens gv) k Hpos) as Hinc. specialize (Hinc ltac:(by destruct gv) Hk).
  destruct (Nat.ltb_spec (S k) (total (lens gv))) as [C|C].
  - rewrite Hinc, IH by lia. cbn [mbind result_bind]. replace (total (lens gv) - k)%nat with (S (total (lens gv) - S k)) by lia. done.
  - destruct (increment _ _) as [d r]. cbn in Hinc. subst d. replace (total (lens gv) - k)%nat with 1%nat by lia. done.
Qed.

Lemma total_lens gv : foldr (fun pv m => (length pv.2 * m)%nat) 1%nat gv = total (lens gv).
Proof. unfold total. induction gv as [|pv gv IH]; [done|]. cbn. by rewrite IH. Qed.

Lemma grid_search_generator_ok n g v gv :
  gridded n g v -> Forall (fun pv => pv ∈ gvars n v /\ pv.1 <> []) gv -> NoDup (map fst gv) ->
  exists ks, _grid_search_generator v gv = Ok (map (fun a => subst n (chosen a) v) ks) /\ ks ≡ₚ choices gv.
Proof.
  intros Hg Hgv Hnd. destruct gv as [|pv gv]; [exists [[]]; split; [|done]; cbn; f_equal; f_equal; symmetry; apply subst_none|].
  assert (Forall (fun l => 0 < length l)%nat (pairs (pv :: gv))) as Hpos.
  { apply List.Forall_map. eapply list.Forall_impl; [exact Hgv|]. intros [p vs] [Hp _]. apply gvars_nonempty with (g := g) in Hp; [|done].
    destruct vs; [done|]. cbn. lia. }
  assert (map length (pairs (pv :: gv)) = lens (pv :: gv)) as Hl by (rewrite map_map; apply map_ext; intros; apply length_map).
  pose proof (pick_product (pairs (pv :: gv)) Hpos) as Hpick. rewrite Hl in Hpick.
  eexists. split; [|exact Hpick]. unfold _grid_search_generator. rewrite total_lens, unrank_zero.
  rewrite (grid_loop_ok n g v) by (try done; try lia; rewrite <- Hl; apply total_pos, List.Forall_map; exact Hpos).
  by rewrite Nat.sub_0_r, map_map.
Qed.

(** *** One level of grid searches leaves nothing to resolve *)

Lemma with_values_plain l xs : plain_keys (map fst l) = true -> length xs = length l -> as_grid (with_values l xs) = None.
Proof. intros Hp Hl. apply as_grid_plain. by rewrite zip_keys. Qed.

Lemma expand_gridded n g v x : gridded n (S g) v -> x ∈ expand n v -> gridded n g x.
Proof.
  revert v x. induction n as [|n IH]; intros v x H Hx; [done|]. destruct v as [a|l|l|d]; [by apply list_elem_of_singleton in Hx as -> | | | done].
  - destruct (as_grid (VDict l)) as [vs|] eqn:Eg.
    + cbn [gridded expand] in *. rewrite Eg in *. destruct H as [_ H]. rewrite list.Forall_forall in H.
      apply (gridded_mono n (S n) g g); [by apply H | lia | lia].
    + apply gridded_dict in H as (Hw & Hp & Hl); [|done]. cbn [expand] in Hx. rewrite Eg in Hx.
      apply list_elem_of_fmap in Hx as (xs & -> & Hxs). pose proof (product_length _ _ Hxs) as Hlen. rewrite length_map in Hlen.
      apply elem_of_product in Hxs. unfold with_values. cbn [gridded]. fold (with_values l xs). rewrite with_values_plain by done.
      split_and!; [unfold dwf, dkeys; change (NoDup (map fst (zip (map fst l) xs))); by rewrite zip_keys | by rewrite zip_keys|].
      apply list.Forall_forall. intros [k y] Hy%elem_of_zip_r. cbn [snd]. apply list_elem_of_lookup in Hy as [i Hi].
      destruct (Forall2_lookup_l _ _ _ _ _ Hxs Hi) as (ys & Hys & Hin). change (map ?h l) with (h <$> l) in Hys. rewrite list_lookup_fmap in Hys.
      destruct (l !! i) as [kv|] eqn:Ei; [|done]. injection Hys as <-. rewrite list.Forall_forall in Hl.
      eapply IH; [|exact Hin]. by eapply Hl, list_elem_of_lookup_2.
  - cbn [gridded expand] in *. apply list_elem_of_fmap in Hx as (xs & -> & Hxs). apply elem_of_product in Hxs.
    apply list.Forall_forall. intros y [i Hi]%list_elem_of_lookup. destruct (Forall2_lookup_l _ _ _ _ _ Hxs Hi) as (ys & Hys & Hin).
    change (map ?h l) with (h <$> l) in Hys. rewrite list_lookup_fmap in Hys. destruct (l !! i) as [z|] eqn:Ei; [|done].
    injection Hys as <-. rewrite list.Forall_forall in H. eapply IH; [|exact Hin]. by eapply H, list_elem_of_lookup_2.
Qed.

Lemma gvars_settled n v : gridded n 0 v -> gvars n v = [].
Proof.
  intros H. destruct (gvars n v) as [|[p vs] r] eqn:E; [done|]. exfalso. assert ((p, vs) ∈ gvars n v) as Hp by (rewrite E; left).
  clear E r. revert v p H Hp. induction n as [|n IH]; intros v p H Hp; [done|].
  destruct v as [a|l|l|d]; [by apply elem_of_nil in Hp | | | done].
  - destruct (as_grid (VDict l)) as [vs'|] eqn:Eg; [cbn [gridded] in H; by rewrite Eg in H|].
    apply elem_of_gvars_dict in Hp as (k & x & q & Hin & -> & Hq); [|done]. apply gridded_dict in H as (_ & _ & Hl); [|done].
    rewrite list.Forall_forall in Hl. exact (IH _ _ (Hl _ Hin) Hq).
  - apply elem_of_gvars_list in Hp as (i & x & q & Hi & -> & Hq). cbn [gridded] in H. rewrite list.Forall_forall in H.
    apply (IH x q); [|done]. by eapply H, list_elem_of_lookup_2.
Qed.

(** Replacing below the top of a dict keeps the dict. *)
Lemma expand_dict n g l x : as_grid (VDict l) = None -> gridded (S n) g (VDict l) -> x ∈ expand (S n) (VDict l) ->
  exists l', x = VDict l' /\ as_grid (VDict l') = None.
Proof.
  intros Eg H Hx. apply gridded_dict in H as (_ & Hp & _); [|done]. cbn [expand] in Hx. rewrite Eg in Hx.
  apply list_elem_of_fmap in Hx as (xs & -> & Hxs). eexists. split; [reflexivity|]. apply with_values_plain; [done|].
  by rewrite (product_length _ _ Hxs), length_map.
Qed.

End Grid.

(** ** Generating the variants *)

Section Generate.
Context {Atom Domain : Type} {domain_categories : @Categories Atom Domain}.
Abbreviation V := (@value Atom Domain).
Variable grid_of : Domain -> option (list V).
Variable sample : nat -> @unresolved Atom Domain -> V -> @sampled Atom Domain.
Variable value_eqb : V -> V -> bool.
Abbreviation path := (list key).
Abbreviation gen := (_generate_variants grid_of sample value_eqb).
Implicit Types (spec : list (string * V)) (gv : list (path * list V)).

Lemma grid_vars_all gv : omap (fun pu => (fun vs => (pu.1, vs)) <$> grid_values grid_of pu.2) (map as_unresolved gv) = gv.
Proof. induction gv as [|[p vs] gv IH]; [done|]. cbn. by rewrite IH. Qed.

Lemma domain_vars_none gv : filter (fun pu => grid_values grid_of pu.2 = None) (map as_unresolved gv) = [].
Proof. induction gv as [|[p vs] gv IH]; [done|]. cbn [map]. by rewrite filter_cons_False. Qed.

(** What is left to resolve of a spec with grid searches only *)
Lemma parse_spec_vars_ok n g spec :
  as_grid (VDict spec) = None -> gridded (S n) g (VDict spec) ->
  exists rs gv, parse_spec_vars grid_of spec = Ok (rs, [], gv) /\ gv ≡ₚ gvars (S n) (VDict spec).
Proof.
  intros Eg H. destruct (gridded_dict _ _ _ Eg H) as (_ & _ & Hl). destruct (split_entries_ok n spec) as (rs & E).
  { eapply list.Forall_impl; [exact Hl|]. intros kv Hkv. exact (split_value_ok n g kv.2 Hkv). }
  assert (gvars (S n) (VDict spec) = concat (map (fun kv => prefixed (KStr kv.1) (gvars n kv.2)) spec)) as Ev.
  { cbn [gvars]. by rewrite Eg. }
  rewrite <- Ev in E. unfold parse_spec_vars, _split_resolved_unresolved_values. rewrite E. cbn [mbind result_bind].
  rewrite domain_vars_none, grid_vars_all. do 2 eexists. split; [reflexivity|]. apply py_sorted_Permutation.
Qed.

(** A spec without grid searches is its only variant. *)
Lemma generate_settled n fuel c m spec :
  as_grid (VDict spec) = None -> gridded (S n) 0 (VDict spec) -> gen fuel c m (VDict spec) = Ok (m, [([], VDict spec)]).
Proof.
  intros Eg H. destruct (parse_spec_vars_ok n 0 spec Eg H) as (rs & gv & E & Hgv). rewrite gvars_settled in Hgv by done.
  apply Permutation_nil_r in Hgv as ->.
  destruct fuel; cbn [_generate_variants entries_of]; rewrite E; cbn [mbind result_bind]; by rewrite bool_decide_true.
Qed.

Lemma resolve_nothing m v allow : _resolve_domain_vars sample m v [] allow = Ok (mkResolution m v [] false).
Proof. done. Qed.

(** [resolved_vars] gets the value of every grid variable. *)
Lemma collect_grid_ok v gv rv :
  NoDup (map fst gv) -> Forall (fun pv => exists x, _get_value v pv.1 = Ok x) gv ->
  exists rv', foldM (collect_grid v) rv gv = Ok rv' /\
    (forall p, p ∉ map fst gv -> dget p rv' = dget p rv) /\
    Forall (fun pv => exists x, _get_value v pv.1 = Ok x /\ dget pv.1 rv' = Some x) gv.
Proof.
  intros Hnd H. revert rv. induction H as [|[p vs] gv (x & Hx) _ IH]; intros rv; [by exists rv|].
  cbn [map fst] in Hnd. apply list.NoDup_cons in Hnd as [Hp Hnd]. cbn [foldM]. cbn [fst] in Hx.
  change (collect_grid v rv (p, vs)) with (x ← _get_value v p; Ok (dset p x rv)). rewrite Hx.
  cbn [mbind result_bind]. destruct (IH Hnd (dset p x rv)) as (rv' & E & Hother & Hall). exists rv'. split; [exact E|]. split.
  - intros q Hq. cbn [map fst] in Hq. apply not_elem_of_cons in Hq as [Hqp Hq]. rewrite Hother by done. by apply dget_dset_ne.
  - constructor; [|done]. exists x. cbn [fst]. split; [done|]. rewrite Hother by done. apply dget_dset_eq.
Qed.

Definition records_choice gv (r : dict path V * V) : Prop :=
  Forall (fun pv => exists x, x ∈ pv.2 /\ _get_value r.2 pv.1 = Ok x /\ dget pv.1 r.1 = Some x) gv.

Lemma chosen_elem gv a p vs : NoDup (map fst gv) -> a ∈ choices gv -> (p, vs) ∈ gv -> exists x, x ∈ vs /\ chosen a p = Some x.
Proof.
  intros Hnd Ha Hp. pose proof (choices_paths _ _ Ha) as Hk. unfold choices in Ha. apply elem_of_product in Ha.
  apply list_elem_of_lookup in Hp as [i Hi]. destruct (Forall2_lookup_r _ _ _ i (map (pair p) vs) Ha) as (y & Hy & Hin).
  { change (map ?h gv) with (h <$> gv). by rewrite list_lookup_fmap, Hi. }
  apply list_elem_of_fmap in Hin as (x & -> & Hx). exists x. split; [done|]. apply elem_dget; [|by eapply list_elem_of_lookup_2].
  unfold dwf, dkeys. change (a.*1) with (map fst a). by rewrite Hk.
Qed.

(** The body of the loop over the specs of the grid search *)
Lemma variants_loop n spec gv c fuel m out rv ks :
  as_grid (VDict spec) = None -> gridded (S n) 1 (VDict spec) -> NoDup (map fst gv) -> gv ≡ₚ gvars (S n) (VDict spec) ->
  Forall (fun a => a ∈ choices gv) ks ->
  exists l rv', foldM (resolved_spec_variants sample value_eqb (gen fuel c) (negb c || false) [] gv)
      (m, out, rv) (map (fun a => subst (S n) (chosen a) (VDict spec)) ks) = Ok (m, out ++ l, rv') /\
    map snd l = map (fun a => subst (S n) (chosen a) (VDict spec)) ks /\ Forall (records_choice gv) l.
Proof.
  intros Eg H Hnd Hgv Hks. revert out rv. induction Hks as [|a ks Ha _ IH]; intros out rv.
  { exists [], rv. cbn. by rewrite app_nil_r. }
  cbn [map foldM]. set (s := subst (S n) (chosen a) (VDict spec)) in *.
  assert (s ∈ expand (S n) (VDict spec)) as Hs.
  { rewrite <- (subst_choices (S n) 1 (VDict spec) H). assert (s ∈ map (fun a => subst (S n) (chosen a) (VDict spec)) (choices gv)) as Hin.
    { apply list_elem_of_fmap. by exists a. }
    by rewrite (choices_Permutation (S n) (VDict spec) gv _ Hnd Hgv) in Hin. }
  destruct (expand_dict n 1 spec s Eg H Hs) as (l' & Es & El'). pose proof (expand_gridded _ _ _ _ H Hs) as Hset. rewrite Es in Hset.
  assert (Forall (fun pv => exists x, x ∈ pv.2 /\ _get_value s pv.1 = Ok x) gv) as Hget.
  { apply list.Forall_forall. intros [p vs] Hp. destruct (chosen_elem gv a p vs Hnd Ha Hp) as (x & Hx & Hc). exists x. split; [done|].
    apply (get_subst (S n) 1 _ _ _ vs); [done | by rewrite <- Hgv | done]. }
  destruct (collect_grid_ok s gv (if negb c || false then [] else rv) Hnd) as (rv' & Erv & _ & Hall).
  { eapply list.Forall_impl; [exact Hget|]. intros pv (x & _ & ?). eauto. }
  destruct (IH (out ++ [(rv', s)]) rv') as (l & rv'' & E & Hl & Hrec). exists ((rv', s) :: l), rv''.
  assert (forall rv0, rv0 = (if negb c || false then [] else rv) ->
    foldM (yield_inner value_eqb gv) (out, rv0) [([], s)] = Ok (out ++ [(rv', s)], rv')) as Hy.
  { intros rv0 ->. cbn [foldM yield_inner]. rewrite Erv. done. }
  assert (gen fuel c m s = Ok (m, [([], s)])) as Hgen by (rewrite Es; by eapply generate_settled).
  split; [|split; [cbn; by rewrite Hl|]].
  - assert (resolved_spec_variants sample value_eqb (gen fuel c) (negb c || false) [] gv (m, out, rv) s = Ok (m, out ++ [(rv', s)], rv')) as ->.
    { unfold resolved_spec_variants. destruct c; cbn [negb orb] in *; [|rewrite resolve_nothing]; cbn [mbind result_bind drawn r_spec r_resolved];
        rewrite Hgen; cbn [mbind result_bind]; by rewrite Hy. }
    cbn [mbind result_bind]. by rewrite E, <- app_assoc.
  - constructor; [|done]. unfold records_choice. cbn [fst snd]. rewrite list.Forall_forall in Hall, Hget |- *.
    intros pv Hp. destruct (Hget pv Hp) as (x & Hx & Hgx). destruct (Hall pv Hp) as (x' & Hgx' & Hd). exists x. split; [done|]. split; [done|]. congruence.
Qed.

Lemma count_total gv : foldl (fun k (pv : path * list V) => (k * length pv.2)%nat) 1%nat gv = total (map (fun pv => length pv.2) gv).
Proof.
  assert (forall k, foldl (fun k (pv : path * list V) => (k * length pv.2)%nat) k gv = (k * total (map (fun pv => length pv.2) gv))%nat) as H.
  { unfold total. induction gv as [|pv gv IH]; intros k; cbn; [lia|]. rewrite IH. lia. }
  rewrite H. lia.
Qed.

Lemma length_choices gv : length (choices gv) = total (map (fun pv => length pv.2) gv).
Proof.
  unfold choices, total. induction gv as [|[p vs] gv IH]; [done|]. cbn [map product foldr fst snd]. rewrite <- IH.
  induction vs as [|x vs IHvs]; [done|]. cbn. by rewrite length_app, length_map, IHvs.
Qed.

(** Everything [_generate_variants] yields *)
Lemma generate_ok n spec c fuel m :
  as_grid (VDict spec) = None -> gridded (S n) 1 (VDict spec) ->
  exists rs gv l, parse_spec_vars grid_of spec = Ok (rs, [], gv) /\ gen (S fuel) c m (VDict spec) = Ok (m, l) /\
    map snd l ≡ₚ expand (S n) (VDict spec) /\ length l = length (choices gv) /\ Forall (records_choice gv) l.
Proof.
  intros Eg H. destruct (parse_spec_vars_ok n 1 spec Eg H) as (rs & gv & E & Hgv). exists rs, gv.
  assert (NoDup (map fst gv)) as Hnd by (rewrite Hgv; by eapply NoDup_gvars).
  cbn [_generate_variants entries_of]. rewrite E. cbn [mbind result_bind].
  destruct (bool_decide_reflect (length (@nil (path * @unresolved Atom Domain)) = 0 /\ length gv = 0)) as [[_ C]|C].
  { apply nil_length_inv in C. subst gv. exists [([], VDict spec)]. split; [done|]. split; [done|].
    apply Permutation_nil_l in Hgv. pose proof (subst_choices (S n) 1 (VDict spec) H) as Hex. rewrite <- Hgv in Hex.
    rewrite <- Hex. cbn [map choices product]. split; [|split; [done | repeat constructor]].
    cbn [snd]. change (chosen []) with (fun _ : path => @None V). by rewrite subst_none. }
  assert (Forall (fun pv => pv ∈ gvars (S n) (VDict spec) /\ pv.1 <> []) gv) as Hin.
  { apply list.Forall_forall. intros [p vs] Hp. rewrite Hgv in Hp. split; [done|].
    apply elem_of_gvars_dict in Hp as (k & x & q & _ & -> & _); done. }
  destruct (grid_search_generator_ok (S n) 1 (VDict spec) gv H Hin Hnd) as (ks & Egs & Hks).
  destruct (variants_loop n spec gv c fuel m [] [] ks Eg H Hnd Hgv) as (l & rv' & El & Hl & Hrec).
  { apply list.Forall_forall. intros a Ha. by rewrite <- Hks. }
  exists l. split; [done|]. split; [|split; [|split; [|done]]].
  - destruct c; [rewrite resolve_nothing|]; cbn [mbind result_bind r_error r_spec drawn r_resolved]; rewrite Egs; cbn [mbind result_bind];
      cbn [app] in El; rewrite El; done.
  - rewrite Hl, Hks, <- (subst_choices (S n) 1 (VDict spec) H). by apply choices_Permutation.
  - by rewrite <- (length_map snd l), Hl, length_map, Hks.
Qed.

Lemma check_variants_ok n (vs out : list (dict path V * V)) :
  Forall (fun r => exists l, r.2 = VDict l /\ as_grid (VDict l) = None /\ gridded (S n) 0 (VDict l)) vs ->
  foldM (fun out (v : dict path V * V) => '(_, us) ← _split_resolved_unresolved_values (entries_of v.2);
                      _ ← py_assert (length us =? 0)%nat; Ok (out ++ [v])) out vs = Ok (out ++ vs).
Proof.
  intros H. revert out. induction H as [|[rv v] vs (l & Ev & Eg & Hg) _ IH]; intros out; cbn [foldM]; [by rewrite app_nil_r|].
  cbn [snd] in *. subst v. cbn [entries_of]. unfold _split_resolved_unresolved_values.
  destruct (split_entries_ok n l) as (rs & E).
  { destruct (gridded_dict _ _ _ Eg Hg) as (_ & _ & Hl). eapply list.Forall_impl; [exact Hl|]. intros kv Hkv. exact (split_value_ok n 0 kv.2 Hkv). }
  assert (gvars (S n) (VDict l) = concat (map (fun kv => prefixed (KStr kv.1) (gvars n kv.2)) l)) as Ev by (cbn [gvars]; by rewrite Eg).
  rewrite E, <- Ev, gvars_settled by done. cbn [map length Nat.eqb py_assert mbind result_bind]. by rewrite IH, <- app_assoc.
Qed.

(** Everything [generate_variants] returns *)
Lemma generate_checked_ok n spec c fuel m :
  as_grid (VDict spec) = None -> gridded (S n) 1 (VDict spec) ->
  exists rs gv l, parse_spec_vars grid_of spec = Ok (rs, [], gv) /\
    generate_variants grid_of sample value_eqb (S fuel) m spec c = Ok (m, l) /\
    map snd l ≡ₚ expand (S n) (VDict spec) /\ length l = length (choices gv) /\ Forall (records_choice gv) l.
Proof.
  intros Eg H. destruct (generate_ok n spec c fuel m Eg H) as (rs & gv & l & E & Egen & Hl & Hlen & Hrec).
  exists rs, gv, l. split; [done|]. split; [|done].
  unfold generate_variants. rewrite Egen. cbn [mbind result_bind]. rewrite (check_variants_ok n _ []); [done|].
  apply list.Forall_forall. intros r Hr. assert (r.2 ∈ expand (S n) (VDict spec)) as Hin.
  { rewrite <- Hl. apply list_elem_of_fmap. by exists r. }
  destruct (expand_dict n 1 spec r.2 Eg H Hin) as (l' & Er & Eg'). exists l'. split; [done|]. split; [done|].
  rewrite <- Er. exact (expand_gridded _ _ _ _ H Hin).
Qed.

(** C24. Grid search: for a spec whose unresolved values are grid searches over
    resolved values, anywhere in nested dicts and lists, [generate_variants]
    returns, with either setting of [constant_grid_search], exactly the cartesian
    product: every way to replace each grid search by one of its values, once each.
    [count_spec_samples] says how many there are, and the resolved variables
    yielded with a variant tell the value chosen at each path. *)
Theorem grid_search_cartesian n spec c fuel m num_samples :
  as_grid (VDict spec) = None -> gridded (S n) 1 (VDict spec) ->
  exists rs gv l, parse_spec_vars grid_of spec = Ok (rs, [], gv) /\
    generate_variants grid_of sample value_eqb (S fuel) m spec c = Ok (m, l) /\
    map snd l ≡ₚ expand (S n) (VDict spec) /\
    count_spec_samples grid_of spec num_samples = Ok (num_samples * Z.of_nat (length l))%Z /\
    Forall (records_choice gv) l.
Proof.
  intros Eg H. destruct (generate_checked_ok n spec c fuel m Eg H) as (rs & gv & l & E & Egen & Hl & Hlen & Hrec).
  exists rs, gv, l. split; [done|]. split; [done|]. split; [done|]. split; [|done].
  unfold count_spec_samples. rewrite E. cbn [mbind result_bind]. by rewrite count_total, <- length_choices, Hlen.
Qed.

End Generate.

(** ** Examples *)

Section Examples.
#[local] Instance no_categories : @Categories Z unit := fun _ => None.
Definition grid (l : list (@value Z unit)) : @value Z unit := VDict [("grid_search", VList l)].
Definition num (z : Z) : @value Z unit := VAtom z.
Definition num_eqb (a b : @value Z unit) : bool :=
  match a, b with VAtom x, VAtom y => bool_decide (x = y) | _, _ => false end.
Definition variants_of (spec : list (string * @value Z unit)) :=
  generate_variants (fun _ => None) (fun _ _ _ => Failed) num_eqb 5 0 spec false.

Definition example_spec : list (string * @value Z unit) :=
  [("lr", grid [num 1; num 2; num 3]); ("layers", VList [num 64; grid [num 32; num 16]]); ("seed", num 7)].

Lemma grid_search_cartesian_witness :
  exists l, variants_of example_spec = Ok (0%nat, l) /\ map snd l ≡ₚ expand 4 (VDict example_spec) /\ length (expand 4 (VDict example_spec)) = 6%nat.
Proof.
  destruct (grid_search_cartesian (fun _ => None) (fun _ _ _ => Failed) num_eqb 3 example_spec false 4 0 1) as (rs & gv & l & _ & E & Hl & _).
  - reflexivity.
  - cbn. split; [by_compute|]. split; [done|].
    repeat first [apply list.Forall_nil_2 | apply list.Forall_cons | split | discriminate | exact I | progress cbn].
  - exists l. split; [exact E|]. split; [exact Hl | reflexivity].
Defined.

(** A grid search may have a grid search as a value. *)
Example nested_grid_search :
  variants_of [("a", grid [grid [num 1; num 2]; num 3])] =
  Ok (0%nat, [([([KStr "a"], num 1)], VDict [("a", num 1)]); ([([KStr "a"], num 2)], VDict [("a", num 2)]);
      ([([KStr "a"], num 3)], VDict [("a", num 3)])]).
Proof. reflexivity. Qed.

(** Inside a dict that is a value of a grid search, the variables of the first
    inner variant are still recorded when the second comes, which is refused as
    ambiguous. *)
Example conditional_grid_search_raises :
  variants_of [("a", grid [VDict [("b", grid [num 1; num 2])]; num 3])] = Err ValueError.
Proof. reflexivity. Qed.
End Examples.
