(* ===== verification/BasicVariant.v ===== *)
(** Tune's default search algorithm ([tune/suggest/basic_variant.py] and the rest
    of [tune/suggest/variant_generator.py]): presets, the names of trials, the
    iterators over variants and trials, and [BasicVariantGenerator]. *)

From Stdlib Require Import ZArith Lia Ascii.
From stdpp Require Import base list strings option pretty.
From S2P Require Import Prelude PyDict VariantGenerator.

Section Basic.
Context {Atom Domain : Type} {domain_categories : @Categories Atom Domain}.
Abbreviation V := (@value Atom Domain).
Abbreviation path := (list key).
Abbreviation variant := (dict path V * V)%type.
Variable grid_of : Domain -> option (list V).
Variable sample : nat -> @unresolved Atom Domain -> V -> @sampled Atom Domain.
Variable value_eqb : V -> V -> bool.
(** The integer a value is, [str(v)], and ["{:.5}".format(v)] of a float *)
Variable as_int : V -> Z.
Variable py_str : V -> string.
Variable float_format : Atom -> option string.
(** How deeply unresolved values are nested at most *)
Variable fuel : nat.

(** ** Presets *)

(** [deep_update(d, u)] for the dict [u] *)
Fixpoint deep_update (u : V) (d : V) : result V :=
  match u with
  | VDict entries =>
      (fix go (l : list (string * V)) (d : V) : result V :=
         match l with
         | [] => Ok d
         | (k, v) :: l' =>
             d ← match v with
                 | VDict _ =>
                     child ← match d with VDict e => Ok (dget_or k (VDict []) e) | _ => Err AttributeError end;
                     child ← deep_update v child;
                     set_item (KStr k) child d
                 | _ => set_item (KStr k) v d
                 end;
             go l' d
         end) entries d
  | _ => Err AttributeError
  end.

Definition num_samples_of (spec : list (string * V)) : Z :=
  match dget "num_samples" spec with Some v => as_int v | None => 1%Z end.

(** The samples counted and the number of samples left, with one more preset *)
Definition count_preset (spec : list (string * V)) (acc : Z * Z) (preset : V) : result (Z * Z) :=
  config ← dgetitem "config" spec;
  config ← deep_update preset config;
  k ← count_spec_samples grid_of (dset "config" config spec) 1;
  Ok (acc.1 + k, acc.2 - 1)%Z.

(** [None] as the presets cannot be iterated over. *)
Definition count_variants (spec : list (string * V)) (presets : option (list V)) : result Z :=
  match presets with
  | None => Err TypeError
  | Some ps =>
      '(total_samples, total_num_samples) ← foldM (count_preset spec) (0, num_samples_of spec)%Z ps;
      if (0 <? total_num_samples)%Z
      then k ← count_spec_samples grid_of spec total_num_samples; Ok (total_samples + k)%Z
      else Ok total_samples
  end.

(** The check of a preset value against its domain only logs a warning. *)
Definition assign_preset (spec : list (string * V)) (pv : path * V) : result (list (string * V)) :=
  config ← dgetitem "config" spec;
  _ ← match _get_value config pv.1 with Err IndexError => Err ValueError | r => r end;
  config ← assign_value pv.1 pv.2 config;
  Ok (dset "config" config spec).

Definition get_preset_variants (n : nat) (spec : list (string * V)) (config : V) (constant_grid_search : bool) :
  result (nat * list variant) :=
  '(resolved, _, _) ← parse_spec_vars grid_of (entries_of config);
  spec ← foldM assign_preset spec resolved;
  _generate_variants grid_of sample value_eqb fuel constant_grid_search n (VDict spec).

(** ** Names *)

Definition replace_slash (s : string) : string :=
  String.string_of_list_ascii (map (fun c => if Ascii.eqb c "/"%char then "_"%char else c) (String.list_ascii_of_string s)).

Definition _clean_value (v : V) : string :=
  match v with
  | VAtom a => match float_format a with Some s => s | None => replace_slash (py_str v) end
  | _ => replace_slash (py_str v)
  end.

(** The list indices of a path and its last string *)
Definition pieces (p : path) : list string :=
  reverse (foldl (fun '(out, last_string) k =>
    match k with
    | KIdx i => (out ++ [pretty i], last_string)
    | KStr s => if last_string : bool then (out ++ [s], false) else (out, last_string)
    end) ([], true) (reverse p)).1.

Definition format_vars (resolved_vars : dict path V) : string :=
  String.concat "," (omap (fun pv =>
    if bool_decide (head pv.1 ∈ [Some (KStr "run"); Some (KStr "env"); Some (KStr "resources_per_trial")]) then None
    else Some (replace_slash (String.concat "_" (pieces pv.1)) +:+ "=" +:+ _clean_value pv.2))
    (py_sorted (fun a b => is_lt (list_compare key_compare a.1 b.1)) resolved_vars)).

Definition str_key (k : key) : string := match k with KStr s => s | KIdx i => pretty i end.

Definition flatten_resolved_vars (resolved_vars : dict path V) : dict string V :=
  foldl (fun d pv =>
    let ps := if bool_decide (head pv.1 = Some (KStr "config")) then tail pv.1 else pv.1 in
    dset (String.concat "/" (map str_key ps)) pv.2 d) [] resolved_vars.

(** [resolve_nested_dict]: the leaves of nested dicts by path *)
Fixpoint resolve_nested_dict (v : V) : list (path * V) :=
  match v with
  | VDict entries =>
      (fix go (l : list (string * V)) :=
         match l with
         | [] => []
         | (k, x) :: l' =>
             match x with VDict _ => prefixed (KStr k) (resolve_nested_dict x) | _ => [([KStr k], x)] end ++ go l'
         end) entries
  | _ => []
  end.

(** ["%05d" % n] *)
Definition zeros (k : nat) : string := String.string_of_list_ascii (replicate k "0"%char).
Definition pad5 (n : nat) : string := zeros (5 - String.length (pretty n)) +:+ pretty n.

(** ** [_VariantIterator]

    [lazy] keeps one value loaded ahead; the values of the generator are those
    not yet taken from it. *)
Record _VariantIterator : Type := mkVariantIterator {
  lazy_eval : bool;
  iterable : list variant;
  next_value : option variant;
  _has_next : bool
}.

Definition _load_value (it : _VariantIterator) : _VariantIterator :=
  match iterable it with
  | [] => mkVariantIterator (lazy_eval it) [] (next_value it) false
  | v :: l => mkVariantIterator (lazy_eval it) l (Some v) (_has_next it)
  end.

Definition variant_iterator (lazy : bool) (values : list variant) : _VariantIterator :=
  if lazy then _load_value (mkVariantIterator true values None true)
  else mkVariantIterator false values None (negb (bool_decide (values = []))).

Definition variant_next : ST _VariantIterator variant :=
  it ← st_get;
  if lazy_eval it
  then current_value ← st_lift (or_raise AttributeError (next_value it)); _ ← st_modify _load_value; mret current_value
  else match iterable it with
       | [] => st_raise IndexError
       | v :: l => _ ← st_put (mkVariantIterator false l (next_value it) (negb (bool_decide (l = [])))); mret v
       end.

(** ** [_TrialIterator] *)

(** A trial as the arguments of [create_trial_from_spec] *)
Record Trial : Type := mkTrial {
  t_spec : V;
  t_output_path : string;
  t_evaluated_params : dict string V;
  t_trial_id : string;
  t_experiment_tag : string
}.

Record _TrialIterator : Type := mkTrialIterator {
  uuid_prefix : string;
  num_samples_left : Z;
  unresolved_spec : list (string * V);
  constant_grid_search : bool;
  output_path : string;
  points_to_evaluate : list V;
  counter : nat;
  it_lazy_eval : bool;
  variants : option _VariantIterator
}.
Definition set_variants vs it := mkTrialIterator (uuid_prefix it) (num_samples_left it) (unresolved_spec it) (constant_grid_search it)
  (output_path it) (points_to_evaluate it) (counter it) (it_lazy_eval it) vs.
Definition set_samples_left k it := mkTrialIterator (uuid_prefix it) k (unresolved_spec it) (constant_grid_search it)
  (output_path it) (points_to_evaluate it) (counter it) (it_lazy_eval it) (variants it).
Definition set_points ps it := mkTrialIterator (uuid_prefix it) (num_samples_left it) (unresolved_spec it) (constant_grid_search it)
  (output_path it) ps (counter it) (it_lazy_eval it) (variants it).
Definition set_counter c it := mkTrialIterator (uuid_prefix it) (num_samples_left it) (unresolved_spec it) (constant_grid_search it)
  (output_path it) (points_to_evaluate it) c (it_lazy_eval it) (variants it).

Definition trial_iterator (uuid_prefix : string) (num_samples : Z) (unresolved_spec : list (string * V)) (constant : bool)
  (output_path : string) (points : list V) (lazy : bool) (start : nat) : _TrialIterator :=
  mkTrialIterator uuid_prefix num_samples unresolved_spec constant output_path points start lazy None.

Definition create_trial (resolved_vars : dict path V) (spec : V) : ST _TrialIterator Trial :=
  it ← st_get;
  let trial_id := uuid_prefix it +:+ pad5 (counter it) in
  let experiment_tag := pretty (counter it) +:+
    (if bool_decide (resolved_vars = []) then "" else "_" +:+ format_vars resolved_vars) in
  _ ← st_put (set_counter (S (counter it)) it);
  mret (mkTrial spec (output_path it) (flatten_resolved_vars resolved_vars) trial_id experiment_tag).

(** [next(self.variants)] and the trial of the variant *)
Definition take_variant : ST _TrialIterator Trial :=
  it ← st_get;
  vs ← st_lift (or_raise TypeError (variants it));
  let '(vs, r) := variant_next vs in
  _ ← st_modify (set_variants (Some vs));
  '(resolved_vars, spec) ← st_lift r;
  create_trial resolved_vars spec.

(** [__next__], after [n] samples were drawn *)
Definition trial_next (n : nat) : ST _TrialIterator (nat * Trial) :=
  it ← st_get;
  if negb (dmem "run" (unresolved_spec it)) then st_raise TuneError
  else if match variants it with Some vs => _has_next vs | None => false end
  then t ← take_variant; mret (n, t)
  else match points_to_evaluate it with
       | config :: ps =>
           _ ← st_modify (set_points ps);
           _ ← st_modify (fun it => set_samples_left (num_samples_left it - 1) it);
           '(n, vs) ← st_lift (get_preset_variants n (unresolved_spec it) config (constant_grid_search it));
           _ ← st_modify (set_variants (Some (variant_iterator (it_lazy_eval it) vs)));
           t ← take_variant; mret (n, t)
       | [] =>
           if (0 <? num_samples_left it)%Z
           then '(n, vs) ← st_lift (generate_variants grid_of sample value_eqb fuel n (unresolved_spec it) (constant_grid_search it));
                _ ← st_modify (set_variants (Some (variant_iterator (it_lazy_eval it) vs)));
                _ ← st_modify (fun it => set_samples_left (num_samples_left it - 1) it);
                t ← take_variant; mret (n, t)
           else st_raise StopIteration
       end.

(** ** [BasicVariantGenerator]

    The iterators are objects that [_iterators] and the chains share: [_iterators]
    is their store, a chain is the list of its iterators by position.  An
    iterator that raised [StopIteration] raises it again, so that a chain need
    not forget it. *)

Record Experiment : Type := mkExperiment { e_spec : list (string * V); e_dir_name : string }.

Record BasicVariantGenerator : Type := mkGenerator {
  _trial_generator : list nat;
  _iterators : list _TrialIterator;
  _trial_iter : option (list nat);
  _finished : bool;
  _points_to_evaluate : list V;
  _uuid_prefix : string;
  _total_samples : Z;
  max_concurrent : Z;
  _constant_grid_search : bool;
  _live_trials : list string;
  g_drawn : nat
}.

Definition basic_variant_generator (points : list V) (max_concurrent : Z) (constant : bool) (prefix : string) : BasicVariantGenerator :=
  mkGenerator [] [] None false points prefix 0 max_concurrent constant [] 0.

Definition SERIALIZATION_THRESHOLD : Z := 1000000.

Definition add_experiment (experiment : Experiment) : ST BasicVariantGenerator unit :=
  g ← st_get;
  grid_vals ← st_lift (count_spec_samples grid_of (e_spec experiment) 1);
  let lazy := (SERIALIZATION_THRESHOLD <? grid_vals)%Z in
  let previous_samples := _total_samples g in
  total ← st_lift (count_variants (e_spec experiment) (Some (_points_to_evaluate g)));
  let iterator := trial_iterator (_uuid_prefix g) (num_samples_of (e_spec experiment)) (e_spec experiment)
    (_constant_grid_search g) (e_dir_name experiment) (_points_to_evaluate g) lazy (Z.to_nat previous_samples) in
  st_put (mkGenerator (_trial_generator g ++ [length (_iterators g)]) (_iterators g ++ [iterator]) (_trial_iter g) (_finished g)
    (_points_to_evaluate g) (_uuid_prefix g) (previous_samples + total) (max_concurrent g) (_constant_grid_search g)
    (_live_trials g) (g_drawn g)).

Definition add_configurations (experiments : list Experiment) : ST BasicVariantGenerator unit :=
  st_for experiments add_experiment.

Definition set_iterator (i : nat) (it : _TrialIterator) (g : BasicVariantGenerator) : BasicVariantGenerator :=
  mkGenerator (_trial_generator g) (<[i := it]> (_iterators g)) (_trial_iter g) (_finished g) (_points_to_evaluate g) (_uuid_prefix g)
    (_total_samples g) (max_concurrent g) (_constant_grid_search g) (_live_trials g) (g_drawn g).
Definition set_drawn (n : nat) (g : BasicVariantGenerator) : BasicVariantGenerator :=
  mkGenerator (_trial_generator g) (_iterators g) (_trial_iter g) (_finished g) (_points_to_evaluate g) (_uuid_prefix g)
    (_total_samples g) (max_concurrent g) (_constant_grid_search g) (_live_trials g) n.
Definition set_trial_iter (c : option (list nat)) (g : BasicVariantGenerator) : BasicVariantGenerator :=
  mkGenerator (_trial_generator g) (_iterators g) c (_finished g) (_points_to_evaluate g) (_uuid_prefix g)
    (_total_samples g) (max_concurrent g) (_constant_grid_search g) (_live_trials g) (g_drawn g).
Definition set_live_trials (l : list string) (g : BasicVariantGenerator) : BasicVariantGenerator :=
  mkGenerator (_trial_generator g) (_iterators g) (_trial_iter g) (_finished g) (_points_to_evaluate g) (_uuid_prefix g)
    (_total_samples g) (max_concurrent g) (_constant_grid_search g) l (g_drawn g).

(** [next(chain)]: the first iterator of the chain that is not exhausted *)
Fixpoint chain_next (chain : list nat) : ST BasicVariantGenerator Trial :=
  match chain with
  | [] => st_raise StopIteration
  | i :: chain' =>
      g ← st_get;
      it ← st_lift (or_raise IndexError (_iterators g !! i));
      let '(it, r) := trial_next (g_drawn g) it in
      _ ← st_modify (set_iterator i it);
      match r with
      | Ok (n, t) => _ ← st_modify (set_drawn n); mret t
      | Err StopIteration => chain_next chain'
      | Err e => st_raise e
      end
  end.

Definition set_add (x : string) (l : list string) : list string := if bool_decide (x ∈ l) then l else l ++ [x].

Definition exhausted (g : BasicVariantGenerator) : BasicVariantGenerator :=
  mkGenerator [] (_iterators g) None true (_points_to_evaluate g) (_uuid_prefix g) (_total_samples g) (max_concurrent g)
    (_constant_grid_search g) (_live_trials g) (g_drawn g).

Definition next_trial : ST BasicVariantGenerator (option Trial) :=
  g ← st_get;
  if ((0 <? max_concurrent g) && (max_concurrent g <=? Z.of_nat (length (_live_trials g))))%Z then mret None
  else
    _ ← match _trial_iter g with None => st_modify (set_trial_iter (Some (_trial_generator g))) | Some _ => mret tt end;
    st_try (chain ← st_gets (fun g => default [] (_trial_iter g));
            trial ← chain_next chain;
            _ ← st_modify (fun g => set_live_trials (set_add (t_trial_id trial) (_live_trials g)) g);
            mret (Some trial))
      (fun e => bool_decide (e = StopIteration))
      (fun _ => _ ← st_modify exhausted; mret None).

Definition on_trial_complete (trial_id : string) : ST BasicVariantGenerator unit :=
  st_modify (fun g => set_live_trials (filter (fun x => x <> trial_id) (_live_trials g)) g).

(** [get_state()]: the attributes but [_trial_generator], or [False] *)
Definition get_state (g : BasicVariantGenerator) : option BasicVariantGenerator :=
  if existsb it_lazy_eval (_iterators g) then None
  else Some (mkGenerator [] (_iterators g) (_trial_iter g) (_finished g) (_points_to_evaluate g) (_uuid_prefix g) (_total_samples g)
         (max_concurrent g) (_constant_grid_search g) (_live_trials g) (g_drawn g)).

(** [set_state(state)] on a generator without iterators; the random state is
    global. *)
Definition set_state (state : BasicVariantGenerator) : ST BasicVariantGenerator unit :=
  st_modify (fun g =>
    mkGenerator (_trial_generator g ++ seq 0 (length (_iterators state))) (_iterators state) (_trial_iter state) (_finished state)
      (_points_to_evaluate state) (_uuid_prefix state) (_total_samples state) (max_concurrent state) (_constant_grid_search state)
      (_live_trials state) (g_drawn g)).

End Basic.
