(* ===== verification/BasicVariantProps.v ===== *)
(** [BasicVariantGenerator] hands out as many trials as [total_samples] says, with
    ids of their own, whatever the order of requests and completions. *)

From Stdlib Require Import ZArith Lia Ascii.
From stdpp Require Import base list strings option pretty.
From S2P Require Import Prelude PyDict VariantGenerator VariantProps BasicVariant.

(** ** Trial ids are distinct *)

Section Ids.

Lemma zeros_S k : zeros (S k) = String "0" (zeros k).
Proof. done. Qed.

(** No number but zero is printed with a zero in front. *)
Lemma pretty_N_go_head x s :
  (0 < x)%N -> exists c r, pretty_N_go x s = String c r /\ c <> "0"%char /\ (String.length s <= String.length r)%nat.
Proof.
  revert s. induction x as [x IH] using (well_founded_induction N.lt_wf_0); intros s Hx.
  rewrite pretty_N_go_step by done. destruct (decide (x < 10)%N) as [Hs|Hs].
  - rewrite N.div_small by done. rewrite pretty_N_go_0. eexists _, s. split; [reflexivity|]. split; [|lia].
    rewrite N.mod_small by done. assert (x ∈ [1; 2; 3; 4; 5; 6; 7; 8; 9])%N as Hin.
    { rewrite !elem_of_cons. lia. }
    repeat (apply elem_of_cons in Hin as [->|Hin]; [done|]). by apply elem_of_nil in Hin.
  - destruct (IH (x `div` 10)%N ltac:(apply N.div_lt; lia) (String (pretty_N_char (x `mod` 10)) s)) as (c & r & E & Hc & Hl).
    { apply N.div_str_pos. lia. }
    exists c, r. split; [done|]. split; [done|]. cbn in Hl. lia.
Qed.

Lemma pretty_nat_head (n : nat) c r : pretty n = String c r -> c = "0"%char -> r = "".
Proof.
  destruct (decide (n = 0)%nat) as [->|Hn]; [by intros [= <- <-]|]. unfold pretty, pretty_nat, pretty, pretty_N.
  rewrite decide_False by lia. destruct (pretty_N_go_head (N.of_nat n) "" ltac:(lia)) as (c' & r' & E & Hc & _). rewrite E. congruence.
Qed.

Lemma pretty_nat_nonempty (n : nat) : pretty n <> "".
Proof.
  destruct (decide (n = 0)%nat) as [->|Hn]; [done|]. unfold pretty, pretty_nat, pretty, pretty_N.
  rewrite decide_False by lia. destruct (pretty_N_go_head (N.of_nat n) "" ltac:(lia)) as (c' & r' & E & _ & _). by rewrite E.
Qed.

Lemma zeros_pretty_inj j k (n m : nat) : zeros j +:+ pretty n = zeros k +:+ pretty m -> n = m.
Proof.
  revert k. induction j as [|j IH]; intros [|k] E.
  - apply (inj pretty). exact E.
  - rewrite zeros_S in E. change (pretty n = String "0" (zeros k +:+ pretty m)) in E. apply pretty_nat_head in E; [|done].
    destruct k; [|done]. by apply pretty_nat_nonempty in E.
  - rewrite zeros_S in E. symmetry in E. change (pretty m = String "0" (zeros j +:+ pretty n)) in E. apply pretty_nat_head in E; [|done].
    destruct j; [|done]. by apply pretty_nat_nonempty in E.
  - rewrite !zeros_S in E. injection E as E. by eapply IH.
Qed.

Lemma pad5_inj (n m : nat) : pad5 n = pad5 m -> n = m.
Proof. apply zeros_pretty_inj. Qed.

Lemma trial_id_inj prefix (n m : nat) : prefix +:+ pad5 n = prefix +:+ pad5 m -> n = m.
Proof. intros H%(inj (String.append prefix)). by apply pad5_inj. Qed.

End Ids.

Section Basic.
Context {Atom Domain : Type} {domain_categories : @Categories Atom Domain}.
Abbreviation V := (@value Atom Domain).
Abbreviation path := (list key).
Abbreviation variant := (dict path V * V)%type.
Variable grid_of : Domain -> option (list V).
Variable sample : nat -> @unresolved Atom Domain -> V -> @sampled Atom Domain.
Variable value_eqb : V -> V -> bool.
Variable as_int : V -> Z.
Variable py_str : V -> string.
Variable float_format : Atom -> option string.
Variable fuel : nat.
Abbreviation gen := (generate_variants grid_of sample value_eqb fuel).
Abbreviation gen_preset := (get_preset_variants grid_of sample value_eqb fuel).
Abbreviation iter_next := (trial_next grid_of sample value_eqb py_str float_format fuel).
Implicit Types (spec : list (string * V)) (vi : @_VariantIterator Atom Domain) (it : @_TrialIterator Atom Domain).

(** ** What the generator relies on: variants are counted before they are made *)

Definition preset_counted spec (p : V) (k : nat) : Prop :=
  (0 < k)%nat /\
  (exists config config', dgetitem "config" spec = Ok config /\ deep_update p config = Ok config' /\
     count_spec_samples grid_of (dset "config" config' spec) 1 = Ok (Z.of_nat k)) /\
  (forall n c, exists n' l, gen_preset n spec p c = Ok (n', l) /\ length l = k).

Class CountedVariants spec (points : list V) (size : nat) (sizes : list nat) : Prop := {
  run_given : dmem "run" spec = true;
  size_pos : (0 < size)%nat;
  size_counted : forall k, count_spec_samples grid_of spec k = Ok (k * Z.of_nat size)%Z;
  size_generated : forall n c, exists n' l, gen n spec c = Ok (n', l) /\ length l = size;
  presets_counted : Forall2 (preset_counted spec) points sizes
}.

(** Specs whose unresolved values are grid searches over resolved values are such:
    their variants are the cartesian product. *)
#[global] Instance gridded_counted n spec :
  as_grid (VDict spec) = None -> gridded (S n) 1 (VDict spec) -> dmem "run" spec = true -> fuel <> 0%nat ->
  CountedVariants spec [] (length (expand (S n) (VDict spec))) [].
Proof.
  intros Eg H Hrun Hf. assert (exists f, fuel = S f) as [f Ef] by (exists (pred fuel); lia).
  destruct (parse_spec_vars_ok grid_of n 1 spec Eg H) as (rs & gv & E & Hgv).
  assert (forall m c, exists l, gen m spec c = Ok (m, l) /\ length l = length (expand (S n) (VDict spec)) /\ length l = length (choices gv)) as Hgen.
  { intros m c. destruct (generate_checked_ok grid_of sample value_eqb n spec c f m Eg H) as (rs' & gv' & l & E' & Egen & Hl & Hlen & _).
    rewrite E in E'. injection E' as <- <-. rewrite <- Ef in Egen. exists l. split; [done|]. by rewrite <- (Permutation_length Hl), length_map. }
  destruct (Hgen 0%nat false) as (l0 & _ & Hl0 & Hc0). constructor; [done | | | | constructor].
  - rewrite <- Hl0, Hc0, length_choices. apply total_pos, List.Forall_map. rewrite Hgv. apply list.Forall_forall.
    intros [p vs] Hp. pose proof (gvars_nonempty _ _ _ _ _ H Hp). destruct vs; [done|]. cbn. lia.
  - intros k. unfold count_spec_samples. rewrite E. cbn [mbind result_bind]. by rewrite count_total, <- length_choices, <- Hc0, Hl0.
  - intros m c. destruct (Hgen m c) as (l & Egen & Hl & _). eauto.
Qed.

(** ** Iterators over variants *)

Definition variants_ok (vi : @_VariantIterator Atom Domain) : Prop :=
  if lazy_eval vi then if _has_next vi then is_Some (next_value vi) else iterable vi = []
  else _has_next vi = negb (bool_decide (iterable vi = [])).

Definition variants_left (vi : @_VariantIterator Atom Domain) : nat :=
  if lazy_eval vi then if _has_next vi then S (length (iterable vi)) else 0 else length (iterable vi).

Lemma variant_iterator_ok lazy (l : list variant) :
  variants_ok (variant_iterator lazy l) /\ variants_left (variant_iterator lazy l) = length l.
Proof. destruct lazy, l; cbn; split; eauto. Qed.

Lemma has_next_left vi : variants_ok vi -> _has_next vi = (0 <? variants_left vi)%nat.
Proof.
  unfold variants_ok, variants_left. destruct vi as [lz l nv h]. cbn. destruct lz, h; try done; try (by intros ->); by destruct l.
Qed.

Lemma variant_next_ok vi :
  variants_ok vi -> (0 < variants_left vi)%nat ->
  exists vi' v, variant_next vi = (vi', Ok v) /\ variants_ok vi' /\ variants_left vi = S (variants_left vi').
Proof.
  destruct vi as [lz l nv h]. unfold variants_ok, variants_left, variant_next. cbn [lazy_eval iterable next_value _has_next].
  st_simpl. destruct lz; cbn [lazy_eval].
  - destruct h; [|lia]. intros [v ->] _. cbn. unfold _load_value. cbn.
    destruct l as [|w l]; cbn; (eexists _, v; split; [reflexivity|]; cbn; split; [by eauto | done]).
  - intros -> Hl. destruct l as [|v l]; [cbn in Hl; lia|]. cbn. eexists _, v. split; [reflexivity|]. cbn. done.
Qed.

(** ** Iterators over trials *)

Definition psum (l : list nat) : nat := foldr Nat.add 0%nat l.

(** [r] trials are to come. *)
Definition iter_ok it (r : nat) : Prop :=
  exists size sizes, CountedVariants (unresolved_spec it) (points_to_evaluate it) size sizes /\
    (forall vs, BasicVariant.variants it = Some vs -> variants_ok vs) /\
    r = (match BasicVariant.variants it with Some vs => variants_left vs | None => 0 end + psum sizes +
         Z.to_nat (num_samples_left it - Z.of_nat (length (points_to_evaluate it))) * size)%nat.

Definition trial_id_of it : string := uuid_prefix it +:+ pad5 (counter it).

Lemma take_variant_ok it vi :
  BasicVariant.variants it = Some vi -> variants_ok vi -> (0 < variants_left vi)%nat ->
  exists vi' t, take_variant py_str float_format it = (set_counter (S (counter it)) (set_variants (Some vi') it), Ok t) /\
    variants_ok vi' /\ variants_left vi = S (variants_left vi') /\ t_trial_id t = trial_id_of it.
Proof.
  intros Hv Hok Hl. destruct (variant_next_ok vi Hok Hl) as (vi' & [rv v] & E & Hok' & Hl'). exists vi'.
  unfold take_variant, create_trial. st_simpl. rewrite Hv. cbn [or_raise]. rewrite E. eexists. split; [reflexivity|]. done.
Qed.

(** A request is answered as long as trials are to come. *)
Lemma trial_next_ok n it r :
  iter_ok it (S r) ->
  exists n' it' t, iter_next n it = (it', Ok (n', t)) /\ iter_ok it' r /\ t_trial_id t = trial_id_of it /\
    counter it' = S (counter it) /\ uuid_prefix it' = uuid_prefix it.
Proof.
  intros (size & sizes & Hc & Hvs & Hr). unfold trial_next.
  assert (dmem "run" (unresolved_spec it) = true) as Hrun by apply Hc.
  destruct (match BasicVariant.variants it with Some vi => _has_next vi | None => false end) eqn:Eh.
  - destruct (BasicVariant.variants it) as [vi|] eqn:Ev; [|done]. specialize (Hvs vi eq_refl). rewrite has_next_left in Eh by done.
    apply Nat.ltb_lt in Eh. destruct (take_variant_ok it vi Ev Hvs Eh) as (vi' & t & E & Hok' & Hl' & Hid).
    st_simpl. rewrite Hrun. cbn [negb]. rewrite Ev, has_next_left by done. rewrite (proj2 (Nat.ltb_lt _ _) Eh). rewrite E.
    eexists _, _, t. split; [reflexivity|]. split; [|done]. exists size, sizes. cbn. split; [done|]. split; [by intros ? [= <-]|]. lia.
  - assert (match BasicVariant.variants it with Some vi => variants_left vi | None => 0%nat end = 0%nat) as Hz.
    { destruct (BasicVariant.variants it) as [vi|]; [|done]. rewrite has_next_left in Eh by auto. apply Nat.ltb_ge in Eh. lia. }
    rewrite Hz in Hr. st_simpl. rewrite Hrun, Eh. cbn [negb].
    destruct (points_to_evaluate it) as [|p ps] eqn:Ep.
    + cbn [length] in Hr. rewrite Z.sub_0_r in Hr. pose proof (presets_counted (CountedVariants := Hc)) as Hps. inversion Hps; subst sizes. cbn in Hr.
      assert (0 < num_samples_left it)%Z as Hleft by (destruct (Z.to_nat (num_samples_left it)) eqn:Ez; lia).
      rewrite (proj2 (Z.ltb_lt _ _) Hleft). destruct (size_generated (CountedVariants := Hc) n (constant_grid_search it)) as (n' & l & El & Hlen).
      rewrite El. destruct (variant_iterator_ok (it_lazy_eval it) l) as [Hvok Hvl].
      destruct (take_variant_ok (set_samples_left (num_samples_left it - 1) (set_variants (Some (variant_iterator (it_lazy_eval it) l)) it)) _ eq_refl Hvok)
        as (vi' & t & E & Hok' & Hl' & Hid). { rewrite Hvl, Hlen. apply Hc. }
      cbn [num_samples_left set_variants] in *. rewrite E. eexists _, _, t. split; [reflexivity|]. split; [|done].
      exists size, []. cbn. rewrite Ep. split; [done|]. split; [by intros ? [= <-]|]. cbn. rewrite Z.sub_0_r.
      assert (Z.to_nat (num_samples_left it) = S (Z.to_nat (num_samples_left it - 1))) as Hs by lia. rewrite Hs in Hr. lia.
    + pose proof (presets_counted (CountedVariants := Hc)) as Hps. inversion Hps as [|? k ? sizes' Hk Hks]; subst.
      destruct Hk as (Hkpos & _ & Hgen). destruct (Hgen n (constant_grid_search it)) as (n' & l & El & Hlen). rewrite El.
      destruct (variant_iterator_ok (it_lazy_eval it) l) as [Hvok Hvl].
      destruct (take_variant_ok (set_variants (Some (variant_iterator (it_lazy_eval it) l)) (set_samples_left (num_samples_left it - 1) (set_points ps it))) _ eq_refl Hvok)
        as (vi' & t & E & Hok' & Hl' & Hid). { rewrite Hvl, Hlen. done. }
      cbn [num_samples_left set_points] in *. rewrite E. eexists _, _, t. split; [reflexivity|]. split; [|done].
      exists size, sizes'. cbn. split; [|split; [by intros ? [= <-]|]].
      * constructor; [apply Hc.. | done].
      * cbn [length psum foldr] in Hr. unfold psum.
        assert (num_samples_left it - 1 - Z.of_nat (length ps) = num_samples_left it - Z.of_nat (S (length ps)))%Z as -> by lia.
        change (foldr Nat.add 0 sizes')%nat with (psum sizes') in *. lia.
Qed.

(** After the last trial the iterator stops, and stays as it is. *)
Lemma trial_next_stops n it : iter_ok it 0 -> iter_next n it = (it, Err StopIteration).
Proof.
  intros (size & sizes & Hc & Hvs & Hr). unfold trial_next. st_simpl. rewrite (run_given (CountedVariants := Hc)). cbn [negb].
  assert (match BasicVariant.variants it with Some vi => _has_next vi | None => false end = false) as ->.
  { destruct (BasicVariant.variants it) as [vi|]; [|done]. rewrite has_next_left by auto. apply Nat.ltb_ge. nia. }
  destruct (points_to_evaluate it) as [|p ps] eqn:Ep.
  - cbn [length] in Hr. rewrite Z.sub_0_r in Hr. pose proof (size_pos (CountedVariants := Hc)).
    rewrite (proj2 (Z.ltb_ge _ _)); [done|]. destruct (Z.to_nat (num_samples_left it)) eqn:Ez; [lia|]. nia.
  - pose proof (presets_counted (CountedVariants := Hc)) as Hps. inversion Hps as [|? k ? sizes' (Hk & _) Hks]; subst. cbn [psum foldr] in Hr. nia.
Qed.

(** ** The generator *)

Abbreviation G := (@BasicVariantGenerator Atom Domain).
Abbreviation chain := (chain_next grid_of sample value_eqb py_str float_format fuel).
Abbreviation next := (next_trial grid_of sample value_eqb py_str float_format fuel).
Implicit Types (g : G) (its : list (@_TrialIterator Atom Domain)).

Definition set_iterators its g : G :=
  mkGenerator (_trial_generator g) its (_trial_iter g) (_finished g) (_points_to_evaluate g) (_uuid_prefix g)
    (_total_samples g) (max_concurrent g) (_constant_grid_search g) (_live_trials g) (g_drawn g).

(** The iterators to come continue the numbering: the next trial has number [k]
    and the last one [total - 1]. *)
Fixpoint contiguous (prefix : string) (k : nat) its (total : nat) : Prop :=
  match its with
  | [] => k = total
  | it :: its' => exists r, iter_ok it r /\ counter it = k /\ uuid_prefix it = prefix /\ contiguous prefix (k + r) its' total
  end.

Lemma contiguous_le prefix k its total : contiguous prefix k its total -> (k <= total)%nat.
Proof. revert k. induction its as [|it its IH]; intros k; [cbn; lia|]. intros (r & _ & _ & _ & H). apply IH in H. lia. Qed.

Lemma chain_skip g pre it post c :
  _iterators g = pre ++ it :: post -> iter_ok it 0 -> chain (length pre :: c) g = chain c g.
Proof.
  intros Hg Hit. cbn [chain_next]. st_simpl. rewrite Hg, list_lookup_middle by done. cbn [or_raise].
  rewrite trial_next_stops by done. unfold set_iterator. rewrite list_insert_id by (rewrite Hg; by apply list_lookup_middle).
  by destruct g.
Qed.

Lemma chain_next_ok g prefix total suf pre k :
  _iterators g = pre ++ suf -> contiguous prefix k suf total ->
  (k = total /\ chain (seq (length pre) (length suf)) g = (g, Err StopIteration)) \/
  ((k < total)%nat /\ exists n t pre' suf', chain (seq (length pre) (length suf)) g = (set_drawn n (set_iterators (pre ++ pre' ++ suf') g), Ok t) /\
     Forall (fun it => iter_ok it 0) pre' /\ contiguous prefix (S k) suf' total /\ t_trial_id t = prefix +:+ pad5 k /\
     length (pre' ++ suf') = length suf).
Proof.
  revert pre k. induction suf as [|it suf IH]; intros pre k Hg Hc; [left; by cbn in Hc|].
  destruct Hc as (r & Hit & Hk & Hp & Hc). cbn [length seq]. destruct r as [|r].
  - rewrite Nat.add_0_r in Hc. rewrite (chain_skip g pre it suf) by done.
    specialize (IH (pre ++ [it]) k). rewrite length_app, Nat.add_1_r, <- app_assoc in IH.
    destruct (IH Hg Hc) as [?|(Hlt & n & t & pre' & suf' & E & Hpre & Hsuf & Hid & Hlen)]; [by left|]. right. split; [done|].
    exists n, t, (it :: pre'), suf'. rewrite <- app_assoc in E. split; [exact E|]. split; [by constructor|]. cbn. by rewrite Hlen.
  - right. pose proof (contiguous_le _ _ _ _ Hc). split; [lia|].
    destruct (trial_next_ok (g_drawn g) it r Hit) as (n & it' & t & E & Hit' & Hid & Hcnt & Hpre).
    exists n, t, [], (it' :: suf). cbn [chain_next]. st_simpl. rewrite Hg, list_lookup_middle by done. cbn [or_raise]. rewrite E.
    split; [|split; [constructor|]; split; [|split; [by rewrite Hid; unfold trial_id_of; rewrite Hp, Hk | done]]].
    + unfold set_iterator. rewrite Hg. cbn [app]. f_equal. unfold set_drawn, set_iterators. cbn. f_equal.
      rewrite <- (Nat.add_0_r (length pre)). rewrite insert_app_r. done.
    + exists r. split; [done|]. split; [congruence|]. split; [congruence|]. by replace (S k + r)%nat with (k + S r)%nat by lia.
Qed.

(** [k] trials of [total] have been handed out. *)
Definition gen_ok (prefix : string) (total k : nat) g : Prop :=
  exists pre suf, _iterators g = pre ++ suf /\ Forall (fun it => iter_ok it 0) pre /\ contiguous prefix k suf total /\
    ((k = total /\ _trial_iter g = None /\ _trial_generator g = []) \/
     default (_trial_generator g) (_trial_iter g) = seq 0 (length (_iterators g))).

Definition full g : bool := ((0 <? max_concurrent g) && (max_concurrent g <=? Z.of_nat (length (_live_trials g))))%Z.

Lemma chain_skip_all g done_ pre suf c :
  _iterators g = done_ ++ pre ++ suf -> Forall (fun it => iter_ok it 0) pre ->
  chain (seq (length done_) (length pre) ++ c) g = chain c g.
Proof.
  intros Hg H. revert done_ Hg. induction H as [|it pre Hit _ IH]; intros done_ Hg; [done|]. cbn [length seq app].
  rewrite (chain_skip g done_ it (pre ++ suf)) by done. specialize (IH (done_ ++ [it])).
  rewrite length_app, Nat.add_1_r, <- app_assoc in IH. by apply IH.
Qed.

(** The chain of all iterators *)
Lemma chain_all_ok g prefix total k pre suf :
  _iterators g = pre ++ suf -> Forall (fun it => iter_ok it 0) pre -> contiguous prefix k suf total ->
  (k = total /\ chain (seq 0 (length (_iterators g))) g = (g, Err StopIteration)) \/
  ((k < total)%nat /\ exists n t pre' suf', chain (seq 0 (length (_iterators g))) g = (set_drawn n (set_iterators (pre' ++ suf') g), Ok t) /\
     Forall (fun it => iter_ok it 0) pre' /\ contiguous prefix (S k) suf' total /\ t_trial_id t = prefix +:+ pad5 k /\
     length (pre' ++ suf') = length (_iterators g)).
Proof.
  intros Hg Hpre Hsuf. rewrite Hg, length_app, seq_app, Nat.add_0_l.
  rewrite (chain_skip_all g [] pre suf) by done.
  destruct (chain_next_ok g prefix total suf pre k Hg Hsuf) as [?|(Hlt & n & t & pre' & suf' & E & Hpre' & Hsuf' & Hid & Hlen)]; [by left|].
  right. split; [done|]. exists n, t, (pre ++ pre'), suf'. rewrite <- app_assoc. split; [exact E|].
  split; [by apply list.Forall_app|]. split; [done|]. split; [done|]. by rewrite <- Hlen, <- length_app.
Qed.

Lemma next_full g : full g = true -> next g = (g, Ok None).
Proof. unfold full, next_trial. intros H. st_simpl. by rewrite H. Qed.

Lemma next_chain g c :
  full g = false -> default (_trial_generator g) (_trial_iter g) = c ->
  next g = match chain c (set_trial_iter (Some c) g) with
           | (g', Ok t) => (set_live_trials (set_add (t_trial_id t) (_live_trials g')) g', Ok (Some t))
           | (g', Err e) => if bool_decide (e = StopIteration) then (exhausted g', Ok None) else (g', Err e)
           end.
Proof.
  intros Hf Hc. unfold next_trial. st_simpl. unfold full in Hf. rewrite Hf.
  destruct (_trial_iter g) as [c0|] eqn:Ec; unfold default in Hc; cbn in Hc; subst c.
  - assert (set_trial_iter (Some c0) g = g) as -> by (destruct g; cbn in *; by rewrite <- Ec).
    rewrite Ec. unfold default. cbn [from_option id]. by destruct (chain c0 g) as [g' [t|e]].
  - unfold default. cbn [_trial_iter set_trial_iter from_option id]. by destruct (chain _ _) as [g' [t|e]].
Qed.

Lemma next_some prefix total k g :
  gen_ok prefix total k g -> full g = false -> (k < total)%nat ->
  exists g' t, next g = (g', Ok (Some t)) /\ gen_ok prefix total (S k) g' /\ t_trial_id t = prefix +:+ pad5 k /\
    _live_trials g' = set_add (t_trial_id t) (_live_trials g) /\ max_concurrent g' = max_concurrent g.
Proof.
  intros (pre & suf & Hg & Hpre & Hsuf & Hch) Hf Hk. destruct Hch as [[-> _]|Hch]; [lia|].
  set (g1 := set_trial_iter (Some (seq 0 (length (_iterators g)))) g).
  destruct (chain_all_ok g1 prefix total k pre suf Hg Hpre Hsuf) as [[-> _]|(_ & n & t & pre' & suf' & E & Hpre' & Hsuf' & Hid & Hlen)]; [lia|].
  change (_iterators g1) with (_iterators g) in *. exists (set_live_trials (set_add (t_trial_id t) (_live_trials g)) (set_drawn n (set_iterators (pre' ++ suf') g1))), t.
  split; [|split; [|done]].
  - rewrite (next_chain g _ Hf Hch). fold g1. rewrite E. done.
  - exists pre', suf'. cbn. split; [done|]. split; [done|]. split; [done|]. right. by rewrite Hlen.
Qed.

Lemma next_none prefix total g :
  gen_ok prefix total total g -> full g = false ->
  exists g', next g = (g', Ok None) /\ gen_ok prefix total total g' /\ _live_trials g' = _live_trials g /\
    max_concurrent g' = max_concurrent g /\ _finished g' = true.
Proof.
  intros (pre & suf & Hg & Hpre & Hsuf & Hch) Hf.
  assert (forall g1, _iterators g1 = _iterators g -> _live_trials g1 = _live_trials g -> max_concurrent g1 = max_concurrent g ->
    gen_ok prefix total total (exhausted g1) /\ _live_trials (exhausted g1) = _live_trials g /\
    max_concurrent (exhausted g1) = max_concurrent g /\ _finished (exhausted g1) = true) as Hex.
  { intros g1 Hi Hl Hm. split; [|done]. exists pre, suf. cbn. rewrite Hi. split; [done|]. split; [done|]. split; [done|]. by left. }
  destruct Hch as [(_ & Ei & Egn)|Hch].
  { rewrite (next_chain g [] Hf); [|by rewrite Ei, Egn]. eexists. split; [reflexivity|]. by apply Hex. }
  set (g1 := set_trial_iter (Some (seq 0 (length (_iterators g)))) g).
  destruct (chain_all_ok g1 prefix total total pre suf Hg Hpre Hsuf) as [[_ E]|[? _]]; [|lia].
  change (_iterators g1) with (_iterators g) in *. exists (exhausted g1). split; [|by apply Hex].
  rewrite (next_chain g _ Hf Hch). fold g1. by rewrite E.
Qed.

(** ** Requests and completions in any order *)

Inductive request : Type := Next | Complete (trial_id : string).

(** The trials handed out so far, with one more request *)
Definition serve (ts : list (@Trial Atom Domain)) (r : request) : ST G (list (@Trial Atom Domain)) :=
  match r with
  | Next => o ← next; mret (match o with Some t => ts ++ [t] | None => ts end)
  | Complete trial_id => _ ← on_trial_complete trial_id; mret ts
  end.

Definition served (prefix : string) (total : nat) (maxc : Z) g (ts : list (@Trial Atom Domain)) : Prop :=
  gen_ok prefix total (length ts) g /\ max_concurrent g = maxc /\
  map t_trial_id ts = map (fun k => prefix +:+ pad5 k) (seq 0 (length ts)) /\
  ((0 < maxc)%Z -> (Z.of_nat (length (_live_trials g)) <= maxc)%Z).

Lemma gen_ok_le prefix total k g : gen_ok prefix total k g -> (k <= total)%nat.
Proof. intros (pre & suf & _ & _ & H & _). by eapply contiguous_le. Qed.

Lemma length_set_add x l : (length (set_add x l) <= S (length l))%nat.
Proof. unfold set_add. case_bool_decide; [lia|]. rewrite length_app. cbn. lia. Qed.

Lemma serve_ok prefix total maxc g ts r :
  served prefix total maxc g ts -> exists g' ts', serve ts r g = (g', Ok ts') /\ served prefix total maxc g' ts'.
Proof.
  intros (Hg & Hm & Hids & Hl). destruct r as [|trial_id].
  - unfold serve. st_simpl. destruct (full g) eqn:Ef; [rewrite next_full by done; exists g, ts; done|].
    pose proof (gen_ok_le _ _ _ _ Hg) as Hle. destruct (decide (length ts = total)) as [He|Hne].
    + rewrite He in Hg. destruct (next_none prefix total g Hg Ef) as (g' & -> & Hg' & Hl' & Hm' & _). exists g', ts. split; [done|].
      split; [by rewrite He|]. split; [congruence|]. split; [done|]. by rewrite Hl'.
    + destruct (next_some prefix total _ g Hg Ef ltac:(lia)) as (g' & t & -> & Hg' & Hid & Hl' & Hm'). exists g', (ts ++ [t]). split; [done|].
      unfold served. rewrite length_app, Nat.add_1_r. split; [done|]. split; [congruence|]. split.
      * rewrite seq_S, !map_app, Hids. cbn. by rewrite Hid.
      * intros H0. rewrite Hl'. pose proof (length_set_add (t_trial_id t) (_live_trials g)). unfold full in Ef. rewrite Hm in Ef.
        rewrite (proj2 (Z.ltb_lt _ _) H0) in Ef. cbn in Ef. apply Z.leb_gt in Ef. lia.
  - exists (set_live_trials (filter (fun x => x <> trial_id) (_live_trials g)) g), ts. split; [done|]. split; [exact Hg|]. split; [done|].
    split; [done|]. intros H0. cbn. specialize (Hl H0). pose proof (length_filter (fun x => x <> trial_id) (_live_trials g)). lia.
Qed.

(** ** Adding experiments *)

Lemma count_variants_ok spec points size sizes :
  CountedVariants spec points size sizes ->
  count_variants grid_of as_int spec (Some points) =
  Ok (Z.of_nat (psum sizes + Z.to_nat (num_samples_of as_int spec - Z.of_nat (length points)) * size)).
Proof.
  intros Hc. unfold count_variants.
  assert (forall acc k, foldM (count_preset grid_of spec) (acc, k) points = Ok (acc + Z.of_nat (psum sizes), k - Z.of_nat (length points))%Z) as Hf.
  { pose proof (presets_counted (CountedVariants := Hc)) as H. clear Hc.
    induction H as [|p k points sizes (_ & (cf & cf' & E1 & E2 & E3) & _) _ IH]; intros acc m; cbn [foldM length psum foldr].
    - do 2 f_equal; lia.
    - assert (count_preset grid_of spec (acc, m) p = Ok (acc + Z.of_nat k, m - 1)%Z) as ->.
      { unfold count_preset. rewrite E1. cbn [mbind result_bind]. rewrite E2. cbn [mbind result_bind]. by rewrite E3. }
      cbn [mbind result_bind].
      rewrite IH. unfold psum. do 2 f_equal; lia. }
  rewrite Hf. cbn [mbind result_bind]. destruct (Z.ltb_spec 0 (num_samples_of as_int spec - Z.of_nat (length points))) as [C|C].
  - rewrite size_counted. cbn [mbind result_bind]. f_equal. rewrite Nat2Z.inj_add, Nat2Z.inj_mul, Z2Nat.id by lia. lia.
  - f_equal. assert (Z.to_nat (num_samples_of as_int spec - Z.of_nat (length points)) = 0)%nat as -> by lia. lia.
Qed.

Lemma contiguous_snoc prefix k its total it r :
  contiguous prefix k its total -> iter_ok it r -> counter it = total -> uuid_prefix it = prefix ->
  contiguous prefix k (its ++ [it]) (total + r).
Proof.
  revert k. induction its as [|it0 its IH]; intros k; cbn [app contiguous].
  - intros -> Hit Hc Hp. exists r. done.
  - intros (r0 & Hit0 & Hc0 & Hp0 & H) Hit Hc Hp. exists r0. split_and!; [done..|]. by apply IH.
Qed.

Abbreviation add_all := (add_configurations grid_of as_int).

(** A generator that has only been given experiments *)
Definition fresh (points : list V) (maxc : Z) (prefix : string) g : Prop :=
  contiguous prefix 0 (_iterators g) (Z.to_nat (_total_samples g)) /\ (0 <= _total_samples g)%Z /\
  _trial_generator g = seq 0 (length (_iterators g)) /\ _trial_iter g = None /\ _live_trials g = [] /\
  _points_to_evaluate g = points /\ max_concurrent g = maxc /\ _uuid_prefix g = prefix.

(** An experiment with as many trials as [k] says *)
Definition counted points (e : @Experiment Atom Domain) (k : nat) : Prop :=
  exists size sizes, CountedVariants (e_spec e) points size sizes /\
    k = (psum sizes + Z.to_nat (num_samples_of as_int (e_spec e) - Z.of_nat (length points)) * size)%nat.

Lemma add_experiment_ok points maxc prefix g e k :
  fresh points maxc prefix g -> counted points e k ->
  exists g', add_experiment grid_of as_int e g = (g', Ok tt) /\ fresh points maxc prefix g' /\
    _total_samples g' = (_total_samples g + Z.of_nat k)%Z.
Proof.
  intros (Hc & Ht & Hgen & Hit & Hl & Hp & Hm & Hu) (size & sizes & He & ->). unfold add_experiment. st_simpl.
  rewrite size_counted, Hp, (count_variants_ok _ _ _ _ He). eexists. split; [reflexivity|]. split; [|done]. unfold fresh. cbn [_iterators _total_samples _trial_generator _trial_iter _live_trials _points_to_evaluate max_concurrent _uuid_prefix].
  split; [|split; [apply Z.add_nonneg_nonneg; [done | apply Nat2Z.is_nonneg]|]].
  - rewrite Z2Nat.inj_add, Nat2Z.id by (done || apply Nat2Z.is_nonneg). apply contiguous_snoc; [done | | done | done].
    exists size, sizes. cbn. split; [done|]. split; [done|]. done.
  - split; [|done]. rewrite length_app, Nat.add_1_r, seq_S, Hgen. done.
Qed.

Lemma add_configurations_ok points maxc prefix g exps ks :
  fresh points maxc prefix g -> Forall2 (counted points) exps ks ->
  exists g', add_all exps g = (g', Ok tt) /\ fresh points maxc prefix g' /\ _total_samples g' = (_total_samples g + Z.of_nat (psum ks))%Z.
Proof.
  intros Hg H. revert g Hg. induction H as [|e k exps ks He _ IH]; intros g Hg; [exists g; cbn; split_and!; [done..|lia]|].
  unfold add_configurations. cbn [st_for]. st_simpl. destruct (add_experiment_ok _ _ _ _ _ _ Hg He) as (g' & -> & Hg' & Ht).
  destruct (IH g' Hg') as (g2 & E2 & Hg2 & Ht2). exists g2. split; [exact E2|]. split; [done|].
  rewrite Ht2, Ht. change (psum (k :: ks)) with (k + psum ks)%nat. lia.
Qed.

Lemma fresh_served points maxc prefix g :
  fresh points maxc prefix g -> served prefix (Z.to_nat (_total_samples g)) maxc g [].
Proof.
  intros (Hc & Ht & Hgen & Hit & Hl & Hp & Hm & Hu). split; [|split; [done|]; split; [done|]; intros ?; rewrite Hl; cbn; lia].
  exists [], (_iterators g). split; [done|]. split; [constructor|]. split; [done|]. right. by rewrite Hit.
Qed.

Lemma requests_ok prefix total maxc requests g ts :
  served prefix total maxc g ts ->
  exists g' ts', st_fold serve ts requests g = (g', Ok ts') /\ served prefix total maxc g' ts'.
Proof.
  revert g ts. induction requests as [|r requests IH]; intros g ts H; [by exists g, ts|]. cbn [st_fold]. st_simpl.
  destruct (serve_ok _ _ _ _ _ r H) as (g' & ts' & -> & H'). by apply IH.
Qed.

(** Trials are handed out one by one until there are [total_samples] of them, for
    experiments whose variants can be counted, points to evaluate included. *)
Lemma counted_trials_handed_out points maxc constant prefix exps ks requests :
  Forall2 (counted points) exps ks ->
  exists g0 g ts,
    add_all exps (basic_variant_generator points maxc constant prefix) = (g0, Ok tt) /\
    _total_samples g0 = Z.of_nat (psum ks) /\
    st_fold serve [] requests g0 = (g, Ok ts) /\
    NoDup (map t_trial_id ts) /\ (length ts <= psum ks)%nat /\
    ((0 < maxc)%Z -> (Z.of_nat (length (_live_trials g)) <= maxc)%Z) /\
    ((next g).2 = Ok None <-> full g = true \/ length ts = psum ks) /\
    (full g = false -> (length ts < psum ks)%nat -> exists t, (next g).2 = Ok (Some t) /\ t_trial_id t ∉ map t_trial_id ts).
Proof.
  intros Hexps. destruct (add_configurations_ok points maxc prefix (basic_variant_generator points maxc constant prefix) exps ks) as (g0 & E0 & Hg0 & Ht0); [done | done|].
  change (_total_samples g0 = 0 + Z.of_nat (psum ks))%Z in Ht0. rewrite Z.add_0_l in Ht0. destruct (requests_ok _ _ _ requests _ _ (fresh_served _ _ _ _ Hg0)) as (g & ts & E & Hg & Hm & Hids & Hl).
  rewrite Ht0, Nat2Z.id in Hg. exists g0, g, ts. do 3 (split; [done|]). pose proof (gen_ok_le _ _ _ _ Hg) as Hle.
  split; [|split; [done|]; split; [done|]].
  - rewrite Hids. change (NoDup ((fun k => prefix +:+ pad5 k) <$> seq 0 (length ts))). apply NoDup_fmap; [|apply NoDup_seq].
    intros a b. apply trial_id_inj.
  - destruct (full g) eqn:Ef; [rewrite next_full by done; split; [tauto | done]|].
    destruct (decide (length ts = psum ks)) as [He|Hne].
    + rewrite He in Hg. destruct (next_none _ _ g Hg Ef) as (g' & -> & _). split; [tauto | lia].
    + destruct (next_some _ _ _ g Hg Ef ltac:(lia)) as (g' & t & -> & _ & Hid & _). split; [split; [done | intros [?|?]; [done | lia]]|].
      intros _ _. exists t. split; [done|]. rewrite Hids, Hid. intros (k & Hk & Hin)%list_elem_of_fmap.
      apply trial_id_inj in Hk. apply elem_of_seq in Hin. lia.
Qed.

(** ** Grid search experiments *)

(** The unresolved values of the spec are grid searches over resolved values,
    anywhere in nested dicts and lists, and it names a trainable. *)
Definition grid_experiment (n : nat) (e : @Experiment Atom Domain) : Prop :=
  as_grid (VDict (e_spec e)) = None /\ gridded (S n) 1 (VDict (e_spec e)) /\ dmem "run" (e_spec e) = true.

(** The cartesian product of the grid searches, as often as [num_samples] says *)
Definition grid_trials (n : nat) (e : @Experiment Atom Domain) : nat :=
  (Z.to_nat (num_samples_of as_int (e_spec e)) * length (expand (S n) (VDict (e_spec e))))%nat.

Lemma grid_experiments_counted n exps :
  fuel <> 0%nat -> Forall (grid_experiment n) exps -> Forall2 (counted []) exps (map (grid_trials n) exps).
Proof.
  intros Hf H. induction H as [|e exps (Eg & H & Hrun) _ IH]; constructor; [|exact IH].
  exists (length (expand (S n) (VDict (e_spec e)))), []. split; [by apply gridded_counted|]. unfold grid_trials. cbn. by rewrite Z.sub_0_r.
Qed.

(** C25. [BasicVariantGenerator] without points to evaluate, given once, before the
    first request, experiments whose unresolved values are grid searches over
    resolved values: [total_samples] is the sum over the experiments of
    [num_samples] times the size of the cartesian product of the grid searches.
    For any order of requests and completions no request raises, the trials handed
    out have distinct ids and are never more than that, and when [max_concurrent]
    is positive at most so many are live.  [next_trial] answers [None] exactly when
    that limit is reached or all the trials have been handed out, and a trial with
    a new id otherwise. *)
Theorem trials_handed_out n maxc constant prefix exps requests :
  fuel <> 0%nat -> Forall (grid_experiment n) exps ->
  let total := psum (map (grid_trials n) exps) in
  exists g0 g ts,
    add_all exps (basic_variant_generator [] maxc constant prefix) = (g0, Ok tt) /\
    _total_samples g0 = Z.of_nat total /\
    st_fold serve [] requests g0 = (g, Ok ts) /\
    NoDup (map t_trial_id ts) /\ (length ts <= total)%nat /\
    ((0 < maxc)%Z -> (Z.of_nat (length (_live_trials g)) <= maxc)%Z) /\
    ((next g).2 = Ok None <-> full g = true \/ length ts = total) /\
    (full g = false -> (length ts < total)%nat -> exists t, (next g).2 = Ok (Some t) /\ t_trial_id t ∉ map t_trial_id ts).
Proof. intros Hf Hexps. by apply counted_trials_handed_out, grid_experiments_counted. Qed.

End Basic.
