(* ===== verification/BasicVariantExamples.v ===== *)
(** The documented example of [BasicVariantGenerator], and what its presets and
    later experiments lead to. *)

From Stdlib Require Import ZArith Lia.
From stdpp Require Import base list strings option pretty.
From S2P Require Import Prelude PyDict VariantGenerator VariantProps BasicVariant BasicVariantProps.

Section Examples.
Abbreviation V := (@value Z unit).
#[local] Existing Instance no_categories.

(** A domain is sampled as 9. *)
Definition draw (n : nat) (u : @unresolved Z unit) (spec : V) : @sampled Z unit := Sampled (num 9).
Definition int_of (v : V) : Z := match v with VAtom z => z | _ => 1%Z end.
Definition show (v : V) : string := match v with VAtom z => pretty z | _ => "?" end.
Definition no_grids (d : unit) : option (list V) := None.

Definition doc_spec : list (string * V) :=
  [("run", num 0); ("num_samples", num 4); ("config", VDict [("a", grid [num 1; num 2]); ("b", VDomain tt)])].
Definition doc_points : list V := [VDict [("a", num 2); ("b", num 2)]; VDict [("a", num 1)]; VDict [("b", num 2)]].
Definition doc_experiment : @Experiment Z unit := mkExperiment doc_spec "doc".

Definition doc_add := add_configurations no_grids int_of.
Definition doc_next := next_trial no_grids draw num_eqb show (fun _ => None) 5.
Definition doc_serve := serve no_grids draw num_eqb show (fun _ => None) 5.
Definition doc_generator := basic_variant_generator (Atom := Z) (Domain := unit) doc_points 0 false "t_".

(** Four samples make six trials. *)
Example documented_example :
  match st_fold doc_serve [] (replicate 8 Next) (doc_add [doc_experiment] doc_generator).1 with
  | (g, Ok ts) => (_total_samples g, _finished g, map (fun t => (t_trial_id t, t_experiment_tag t)) ts)
  | (_, Err _) => (0%Z, false, [])
  end =
  (6%Z, true, [("t_00000", "0"); ("t_00001", "1_b=9"); ("t_00002", "2_a=1"); ("t_00003", "3_a=2");
               ("t_00004", "4_a=1,b=9"); ("t_00005", "5_a=2,b=9")]).
Proof. vm_compute. reflexivity. Qed.

(** Two experiments with grid searches: 2 samples of a product of 2 and 3 values,
    and one sample of 2 values *)
Definition grid_experiments : list (@Experiment Z unit) :=
  [mkExperiment [("run", num 0); ("num_samples", num 2); ("config", VDict [("a", grid [num 1; num 2]); ("b", grid [num 3; num 4; num 5])])] "g1";
   mkExperiment [("run", num 0); ("config", VDict [("a", grid [num 1; num 2])])] "g2"].

Lemma trials_handed_out_witness :
  exists g0 g ts,
    doc_add grid_experiments (basic_variant_generator [] 2 false "t_") = (g0, Ok tt) /\ _total_samples g0 = 14%Z /\
    st_fold doc_serve [] [Next; Next; Next; Complete "t_00000"; Next] g0 = (g, Ok ts) /\ NoDup (map t_trial_id ts) /\
    (Z.of_nat (length (_live_trials g)) <= 2)%Z.
Proof.
  destruct (trials_handed_out no_grids draw num_eqb int_of show (fun _ => None) 5 3 2 false "t_" grid_experiments
    [Next; Next; Next; Complete "t_00000"; Next]) as (g0 & g & ts & E0 & Et & E & Hnd & _ & Hl & _).
  - done.
  - constructor; [|constructor; [|constructor]]; (split; [reflexivity|]; split; [|reflexivity]);
      cbn; (split; [by_compute|]; split; [done|]);
      repeat first [apply list.Forall_nil_2 | apply list.Forall_cons | split | discriminate | exact I | progress cbn]; by_compute.
  - exists g0, g, ts. split; [exact E0|]. split; [exact Et|]. split; [exact E|]. split; [exact Hnd|]. apply Hl. lia.
Defined.

(** A grid search inside a grid search is counted as one of its values. *)
Example nested_grid_undercounted :
  let e := mkExperiment [("run", num 0); ("config", VDict [("a", grid [num 1; grid [num 2; num 3]])])] "n" in
  match st_fold doc_serve [] (replicate 5 Next) (doc_add [e] (basic_variant_generator [] 0 false "t_")).1 with
  | (g, Ok ts) => (_total_samples g, length ts)
  | (_, Err _) => (0%Z, 0%nat)
  end = (2%Z, 3%nat).
Proof. vm_compute. reflexivity. Qed.

(** Experiments added after the first request are lost: the iterator in use is
    that of the old chain, and its end clears the new one. *)
Example later_experiments_are_lost :
  let small := mkExperiment [("run", num 0); ("config", VDict [])] "small" in
  let g := (doc_next (doc_add [small] (basic_variant_generator (Atom := Z) (Domain := unit) [] 0 false "t_")).1).1 in
  match st_fold doc_serve [] (replicate 4 Next) (doc_add [small; small] g).1 with
  | (g, Ok ts) => (_total_samples g, _finished g, length ts)
  | (_, Err _) => (0%Z, false, 0%nat)
  end = (3%Z, true, 0%nat).
Proof. vm_compute. reflexivity. Qed.

(** A preset for a key that is not in the search space raises [KeyError], not the
    [ValueError] that explains it. *)
Example unknown_preset_raises_KeyError :
  get_preset_variants no_grids draw num_eqb 5 0 doc_spec (VDict [("c", num 1)]) false = Err KeyError.
Proof. reflexivity. Qed.

(** A list cannot be the preset of a grid search or a domain: its elements are
    looked up inside it. *)
Example list_preset_raises :
  get_preset_variants no_grids draw num_eqb 5 0 doc_spec (VDict [("a", VList [num 1])]) false = Err KeyError /\
  get_preset_variants no_grids draw num_eqb 5 0 doc_spec (VDict [("b", VList [num 1])]) false = Err TypeError.
Proof. split; reflexivity. Qed.

(** [count_variants] without presets raises. *)
Example count_variants_default_raises : count_variants no_grids int_of doc_spec None = Err TypeError.
Proof. reflexivity. Qed.

End Examples.
