(* ===== verification/WorkflowFs.v ===== *)
(** The file system storage of workflows ([workflow/storage/filesystem.py]):
    files that are replaced atomically through a backup and a temporary file,
    with a crash possible before every change of the disk. *)

From Stdlib Require Import ZArith Lia Ascii.
From stdpp Require Import base list strings option gmap.
From S2P Require Import Prelude Hoare.

Section Files.
Context {Content : Type}.

(** ** The disk *)

(** The components of a path; directories are those on the way to a file. *)
Abbreviation path := (list string).

(** A file that is being written holds a part of its content. *)
Inductive file : Type := Whole (c : Content) | Partial.

(** [left]: the changes the process makes before it dies, [None] if it does not
    die; [uuid] counts the random names made so far. *)
Record disk : Type := mkDisk { files : gmap path file; uuid : nat; left : option nat }.

Definition set_files (f : gmap path file) (d : disk) : disk := mkDisk f (uuid d) (left d).

(** A change of the disk *)
Definition change (f : gmap path file -> gmap path file) : ST disk unit :=
  d ← st_get;
  match left d with
  | Some O => st_raise Crashed
  | Some (S n) => st_put (mkDisk (f (files d)) (uuid d) (Some n))
  | None => st_put (set_files (f (files d)) d)
  end.

Definition unlink (p : path) : ST disk unit := change (delete p).
Definition rename (p q : path) : ST disk unit :=
  change (fun fs => match fs !! p with Some x => <[q := x]> (delete p fs) | None => fs end).
Definition write_file (p : path) (x : file) : ST disk unit := change (insert p x).
Definition exists_file (p : path) : ST disk bool := st_gets (fun d => bool_decide (is_Some (files d !! p))).

(** ** Names *)

(** The hexadecimal digits of the [n]-th [uuid.uuid4().hex] *)
Variable uuid_hex : nat -> string.

Fixpoint find_last_dot (s : string) : option nat :=
  match s with
  | "" => None
  | String c s' => match find_last_dot s' with
                   | Some i => Some (S i)
                   | None => if Ascii.eqb c "."%char then Some 0 else None
                   end
  end.

(** [path.stem]: the name without its suffix *)
Definition stem (name : string) : string :=
  match find_last_dot name with
  | Some (S i) => if (S (S i) =? String.length name)%nat then name else String.substring 0 (S i) name
  | _ => name
  end.

Definition with_name (p : path) (f : string -> string) : path :=
  match reverse p with [] => [] | name :: dir => reverse (f name :: dir) end.

Definition backup_name (name : string) : string := "." +:+ name +:+ ".backup".
Definition temporary_name (hex name : string) : string := stem name +:+ "." +:+ name +:+ "." +:+ hex.
Definition backup_path (p : path) : path := with_name p backup_name.
Definition temporary_path (hex : string) (p : path) : path := with_name p (temporary_name hex).

Definition new_uuid : ST disk string :=
  d ← st_get; _ ← st_put (mkDisk (files d) (S (uuid d)) (left d)); mret (uuid_hex (uuid d)).

(** ** [_file_exists] and [_open_atomic] *)

Definition _file_exists (p : path) : ST disk bool :=
  e ← exists_file p;
  if e : bool then mret true
  else b ← exists_file (backup_path p);
       if b : bool then _ ← rename (backup_path p) p; mret true else mret false.

(** Mode ["r"], with the whole file read *)
Definition open_atomic_r (p : path) : ST disk Content :=
  e ← _file_exists p;
  if e : bool
  then f ← st_gets (fun d => files d !! p);
       match f with Some (Whole c) => mret c | _ => st_raise ValueError end
  else st_raise KeyNotFoundError.

(** What [except Exception] catches *)
Definition catchable (e : exn) : bool :=
  negb (bool_decide (e = Crashed)) && negb (bool_decide (e = OutOfFuel)) && negb (bool_decide (e = KeyboardInterrupt)).

(** The temporary file: written and renamed, or removed when serializing the data
    raises an [Exception]. Another [BaseException] leaves [write_ok] set: the
    part that was written is renamed too, and the error is raised after the
    [finally] block, so that it is returned here. *)
Definition fill_temporary (tmp p : path) (data : result Content) : ST disk (result unit) :=
  _ ← write_file tmp Partial;
  match data with
  | Ok c => _ ← write_file tmp (Whole c); _ ← rename tmp p; mret (Ok tt)
  | Err e =>
      if catchable e then _ ← unlink tmp; st_raise e
      else if bool_decide (e = KeyboardInterrupt) then _ ← rename tmp p; mret (Err e)
      else st_raise e
  end.
Definition write_temporary (p : path) (data : result Content) : ST disk (result unit) :=
  hex ← new_uuid; fill_temporary (temporary_path hex p) p data.

(** Mode ["x"] *)
Definition open_atomic_x (p : path) (data : result Content) : ST disk unit :=
  e ← exists_file p;
  if e : bool then st_raise FileExistsError else r ← write_temporary p data; st_lift r.

(** Mode ["w"] *)
Definition unlink_if_exists (p : path) : ST disk unit :=
  e ← exists_file p; if e : bool then unlink p else mret tt.
Definition make_backup (p : path) : ST disk unit :=
  e ← exists_file p;
  if e : bool then _ ← unlink_if_exists (backup_path p); rename p (backup_path p) else mret tt.
Definition open_atomic_w (p : path) (data : result Content) : ST disk unit :=
  _ ← make_backup p;
  r ← write_temporary p data;
  _ ← unlink_if_exists (backup_path p);
  st_lift r.

(** ** [FilesystemStorageImpl] *)

Variable root : path.

(** [os.path.join] drops empty components. *)
Definition make_key (names : list string) : path := root ++ filter (fun n => n <> "") names.

Definition put (key : path) (data : result Content) : ST disk unit := open_atomic_w key data.
Definition get (key : path) : ST disk Content := open_atomic_r key.

(** The names of the files and directories in a directory *)
Definition child (dir p : path) : option string :=
  if bool_decide (take (length dir) p = dir) then p !! length dir else None.
Definition children (dir : path) (fs : gmap path file) : list string :=
  remove_dups (omap (fun pf => child dir pf.1) (map_to_list fs)).
Definition scan_prefix (dir : path) : ST disk (list string) :=
  d ← st_get;
  if bool_decide (is_Some (files d !! dir)) then st_raise NotADirectoryError else mret (children dir (files d)).

(** A directory is removed with everything in it, a file by itself. *)
Definition delete_prefix (dir : path) : ST disk unit :=
  d ← st_get;
  if bool_decide (children dir (files d) = [])
  then if bool_decide (is_Some (files d !! dir)) then unlink dir else st_raise FileNotFoundError
  else st_for (filter (fun p => child dir p <> None) (map fst (map_to_list (files d)))) unlink.

(** ** What readers see *)

(** A reader finds a file, or else restores its backup. *)
Definition view (fs : gmap path file) (p : path) : option file :=
  match fs !! p with Some x => Some x | None => fs !! backup_path p end.

End Files.

(** ** Names do not clash *)

Section Names.

Definition hex_digit (c : ascii) : bool :=
  let n := nat_of_ascii c in ((48 <=? n) && (n <=? 57) || (97 <=? n) && (n <=? 102))%nat.

Fixpoint all_chars (f : ascii -> bool) (s : string) : bool :=
  match s with "" => true | String c s' => f c && all_chars f s' end.

(** 32 hexadecimal digits *)
Definition is_hex (s : string) : Prop := all_chars hex_digit s = true /\ String.length s = 32%nat.

(** The name of no backup and no temporary file *)
Definition regular (name : string) : Prop :=
  (forall s, name <> "." +:+ s) /\ (forall a hex, is_hex hex -> name <> a +:+ "." +:+ hex).

Fixpoint last_char (s : string) : option ascii :=
  match s with "" => None | String c "" => Some c | String _ s' => last_char s' end.

Lemma app_nonempty a b : b <> "" -> a +:+ b <> "".
Proof. by destruct a. Qed.

Lemma last_char_app a b : b <> "" -> last_char (a +:+ b) = last_char b.
Proof.
  intros Hb. induction a as [|c a IH]; [done|]. change (String c a +:+ b) with (String c (a +:+ b)). cbn.
  rewrite IH. pose proof (app_nonempty a b Hb). by destruct (a +:+ b).
Qed.

Lemma last_char_all f s : all_chars f s = true -> s <> "" -> exists c, last_char s = Some c /\ f c = true.
Proof.
  intros H Hne. induction s as [|c s IH]; [done|].
  cbn in H. apply andb_true_iff in H as [Hc H]. destruct s as [|c' s]; [by exists c|]. destruct (IH H) as (x & Hx & Hd); [done|]. by exists x.
Qed.

Lemma last_char_hex s : is_hex s -> exists c, last_char s = Some c /\ hex_digit c = true.
Proof. intros [H Hl]. apply last_char_all; [done|]. by destruct s. Qed.

Lemma hex_nonempty s : is_hex s -> s <> "".
Proof. intros [_ H] ->. done. Qed.

(** A name is regular when it begins with no dot and does not end with a
    hexadecimal digit. *)
Lemma regular_intro name c x s :
  name = String x s -> x <> "."%char -> last_char name = Some c -> hex_digit c = false -> regular name.
Proof.
  intros -> Hx Hl Hc. split.
  - intros t E. by injection E as ->.
  - intros a hex Hh E. rewrite E in Hl. rewrite last_char_app, last_char_app in Hl; [| by apply hex_nonempty | by apply app_nonempty, hex_nonempty].
    destruct (last_char_hex hex Hh) as (d & Hd & Hd'). congruence.
Qed.

Lemma backup_not_regular n : ~ regular (backup_name n).
Proof. intros [H _]. by eapply (H (n +:+ ".backup")). Qed.

Lemma temporary_not_regular hex n : is_hex hex -> ~ regular (temporary_name hex n).
Proof.
  intros Hh [_ H]. apply (H (stem n +:+ "." +:+ n) hex Hh). unfold temporary_name. by rewrite !app_string_assoc.
Qed.

Lemma backup_temporary hex n m : is_hex hex -> backup_name n <> temporary_name hex m.
Proof.
  intros Hh E. unfold backup_name, temporary_name in E. pose proof (hex_nonempty hex Hh) as Hne.
  assert (last_char ("." +:+ n +:+ ".backup") = Some "p"%char) as E1 by (rewrite !last_char_app; done || by apply app_nonempty).
  rewrite E in E1. rewrite !last_char_app in E1 by (repeat apply app_nonempty; done).
  destruct (last_char_hex hex Hh) as (c & Hc & Hd). rewrite Hc in E1. injection E1 as ->. done.
Qed.

Lemma backup_name_inj n m : backup_name n = backup_name m -> n = m.
Proof. unfold backup_name. intros E%(inj (String.append ".")). by apply app_string_inj_r in E. Qed.

Definition regular_path (p : list string) : Prop := exists dir name, p = dir ++ [name] /\ regular name.

Lemma with_name_snoc dir name f : with_name (dir ++ [name]) f = dir ++ [f name].
Proof. unfold with_name. rewrite reverse_snoc, reverse_cons. by rewrite reverse_involutive. Qed.

Lemma with_name_length p f : length (with_name p f) = length p.
Proof.
  unfold with_name. destruct (reverse p) as [|n dir] eqn:E; apply (f_equal length) in E; rewrite length_reverse in E; cbn in E; [by rewrite E|].
  by rewrite length_reverse, E.
Qed.

(** The files that belong to two regular paths are apart. *)
Lemma paths_apart p q :
  regular_path p -> regular_path q ->
  (backup_path p <> q) /\ (p <> q -> backup_path p <> backup_path q) /\
  (forall hex, is_hex hex -> temporary_path hex p <> q /\ temporary_path hex p <> backup_path q).
Proof.
  intros (dp & np & -> & Hp) (dq & nq & -> & Hq). unfold backup_path, temporary_path. rewrite !with_name_snoc. split_and!.
  - intros [_ <-]%app_inj_tail. by eapply backup_not_regular.
  - intros Hne [-> E]%app_inj_tail. apply Hne. by apply backup_name_inj in E as ->.
  - intros hex Hh. rewrite !with_name_snoc. split; intros [_ E]%app_inj_tail.
    + rewrite <- E in Hq. by eapply temporary_not_regular.
    + symmetry in E. by eapply backup_temporary.
Qed.

End Names.

(** ** Atomic replacement *)

Section Atomic.
Context {Content : Type}.
Variable uuid_hex : nat -> string.
Hypothesis uuid_is_hex : forall n, is_hex (uuid_hex n).
Abbreviation path := (list string).
Abbreviation disk := (@disk Content).
Implicit Types (d : disk) (p q : path).

(** No path is longer than [n]. *)
Definition bounded (n : nat) (fs : gmap path (@file Content)) : Prop := forall q, is_Some (fs !! q) -> (length q <= n)%nat.

Lemma bounded_delete n fs q : bounded n fs -> bounded n (delete q fs).
Proof. intros H r [x Hx]. apply lookup_delete_Some in Hx as [_ Hx]. apply H. eauto. Qed.

Lemma bounded_insert n fs q x : bounded n fs -> (length q <= n)%nat -> bounded n (<[q := x]> fs).
Proof. intros H Hq r [y Hy]. apply lookup_insert_Some in Hy as [[<- _]|[_ Hy]]; [done|]. apply H. eauto. Qed.

(** A change happens, or the process dies before it. *)
Lemma change_spec (I I' : gmap path (@file Content) -> Prop) f :
  (forall fs, I fs -> I' (f fs)) ->
  triple_exn (fun d => I (files d)) (change f) (fun _ d => I' (files d)) (fun e d => e = Crashed /\ I (files d)).
Proof. intros H d Hd. unfold change. st_simpl. destruct (left d) as [[|n]|]; cbn; auto. Qed.

Variables (p : path) (Hp : regular_path p).
Variable fs0 : gmap path (@file Content).

(** Readers see at [p] what [x] is, and the files of other paths are as before. *)
Definition shows (x : option (@file Content)) (fs : gmap path (@file Content)) : Prop :=
  view fs p = x /\ (forall q, regular_path q -> q <> p -> fs !! q = fs0 !! q /\ fs !! backup_path q = fs0 !! backup_path q) /\
  forall n, (length p <= n)%nat -> bounded n fs0 -> bounded n fs.

(** Changing a file that no reader sees *)
Lemma shows_frame x fs fs' :
  (fs' !! p = fs !! p) -> (fs' !! backup_path p = fs !! backup_path p \/ is_Some (fs' !! p)) ->
  (forall q, regular_path q -> q <> p -> fs' !! q = fs !! q /\ fs' !! backup_path q = fs !! backup_path q) ->
  (forall n, (length p <= n)%nat -> bounded n fs -> bounded n fs') ->
  shows x fs -> shows x fs'.
Proof.
  intros H1 H2 H3 H4 (Hx & Hq & Hb). split; [|split; [|by auto]].
  - rewrite <- Hx. unfold view. rewrite H1. destruct (fs !! p) as [y|] eqn:E; [done|]. destruct H2 as [->|[? H2]]; [done|]. congruence.
  - intros q Hr Hne. destruct (H3 q Hr Hne) as [-> ->]. by apply Hq.
Qed.

Lemma apart q : regular_path q -> q <> p -> backup_path p <> q /\ backup_path p <> backup_path q /\ p <> backup_path q.
Proof.
  intros Hq Hne. destruct (paths_apart p q Hp Hq) as (H1 & H2 & _). split_and!; [done | by apply H2 |].
  destruct (paths_apart q p Hq Hp) as (H3 & _). by intros ->.
Qed.

Lemma backup_ne : backup_path p <> p.
Proof. by destruct (paths_apart p p Hp Hp). Qed.

Lemma unlink_backup_shows x fs : is_Some (fs !! p) -> shows x fs -> shows x (delete (backup_path p) fs).
Proof.
  intros Hs. pose proof backup_ne. apply shows_frame.
  - by rewrite lookup_delete_ne.
  - right. by rewrite lookup_delete_ne.
  - intros q Hq Hne. destruct (apart q Hq Hne) as (? & ? & ?). by rewrite !lookup_delete_ne.
  - intros n _. apply bounded_delete.
Qed.

Lemma write_temporary_shows x hex y fs :
  is_hex hex -> shows x fs -> shows x (<[temporary_path hex p := y]> fs).
Proof.
  intros Hh. destruct (paths_apart p p Hp Hp) as (_ & _ & H). destruct (H hex Hh) as [H1 H2]. apply shows_frame.
  - by rewrite lookup_insert_ne.
  - left. by rewrite lookup_insert_ne.
  - intros q Hq Hne. destruct (paths_apart p q Hp Hq) as (_ & _ & H3). destruct (H3 hex Hh) as [? ?]. by rewrite !lookup_insert_ne.
  - intros n Hn Hb. apply bounded_insert; [done|]. unfold temporary_path. by rewrite with_name_length.
Qed.

Lemma unlink_temporary_shows x hex fs :
  is_hex hex -> shows x fs -> shows x (delete (temporary_path hex p) fs).
Proof.
  intros Hh. destruct (paths_apart p p Hp Hp) as (_ & _ & H). destruct (H hex Hh) as [H1 H2]. apply shows_frame.
  - by rewrite lookup_delete_ne.
  - left. by rewrite lookup_delete_ne.
  - intros q Hq Hne. destruct (paths_apart p q Hp Hq) as (_ & _ & H3). destruct (H3 hex Hh) as [? ?]. by rewrite !lookup_delete_ne.
  - intros n _. apply bounded_delete.
Qed.

(** The backup is made by renaming, so that readers go on seeing the file. *)
Lemma rename_to_backup_shows x y fs :
  fs !! p = Some y -> shows x fs -> shows x (<[backup_path p := y]> (delete p fs)).
Proof.
  intros Hy (Hx & Hq & Hbd). pose proof backup_ne as Hb. split; [|split].
  - rewrite <- Hx. unfold view. rewrite Hy, lookup_insert_ne, lookup_delete_eq by done. by rewrite lookup_insert_eq.
  - intros q Hr Hne. destruct (apart q Hr Hne) as (? & ? & ?).
    rewrite !lookup_insert_ne, !lookup_delete_ne by done. by apply Hq.
  - intros n Hn H0. apply bounded_insert; [by apply bounded_delete, Hbd|]. unfold backup_path. by rewrite with_name_length.
Qed.

(** The commit *)
Lemma rename_temporary_shows x hex y fs :
  is_hex hex -> fs !! temporary_path hex p = Some y -> shows x fs ->
  shows (Some y) (<[p := y]> (delete (temporary_path hex p) fs)).
Proof.
  intros Hh Hy (Hx & Hq & Hb). destruct (paths_apart p p Hp Hp) as (_ & _ & H). destruct (H hex Hh) as [H1 H2]. split; [|split].
  - unfold view. by rewrite lookup_insert_eq.
  - intros q Hr Hne. destruct (apart q Hr Hne) as (? & ? & ?). destruct (paths_apart p q Hp Hr) as (_ & _ & Ht).
    destruct (Ht hex Hh) as [? ?]. rewrite !lookup_insert_ne, !lookup_delete_ne by done. by apply Hq.
  - intros n Hn H0. apply bounded_insert; [by apply bounded_delete, Hb | done].
Qed.

Variable data : result Content.
Hypothesis not_interrupted : data <> Err KeyboardInterrupt.

(** What readers may see after a crash: the old file or the new one *)
Definition old_or_new (fs : gmap path (@file Content)) : Prop :=
  shows (view fs0 p) fs \/ exists c, data = Ok c /\ shows (Some (Whole c)) fs.

Abbreviation old_shown := (fun d => shows (view fs0 p) (files d)).

Lemma change_old (f : gmap path (@file Content) -> gmap path (@file Content)) (I : gmap path (@file Content) -> Prop) :
  (forall fs, shows (view fs0 p) fs -> I (f fs)) ->
  triple_exn old_shown (change f) (fun _ d => I (files d)) (fun e d => (e = Crashed \/ data = Err e) /\ old_shown d).
Proof.
  intros Hf. eapply exn_conseq; [apply (change_spec (shows (view fs0 p)) I f Hf) | done | done |]. intros e d [-> ?]. auto.
Qed.

Lemma fill_temporary_spec hex :
  is_hex hex ->
  triple_exn old_shown (fill_temporary (temporary_path hex p) p data)
    (fun r d => r = Ok tt /\ exists c, data = Ok c /\ shows (Some (Whole c)) (files d) /\ is_Some (files d !! p))
    (fun e d => (e = Crashed \/ data = Err e) /\ old_shown d).
Proof.
  intros Hh. unfold fill_temporary.
  eapply exn_bind; [apply (change_old _ (shows (view fs0 p))); intros fs; by apply write_temporary_shows|]. intros ?.
  pose proof change_old as Hch. destruct data as [c|e].
  - eapply exn_bind.
    + apply (Hch _ (fun fs => shows (view fs0 p) fs /\ fs !! temporary_path hex p = Some (Whole c))).
      intros fs Hfs. split; [by apply write_temporary_shows | by rewrite lookup_insert_eq].
    + intros ?. eapply exn_bind; [eapply exn_conseq; [apply (change_spec (fun fs => shows (view fs0 p) fs /\ fs !! temporary_path hex p = Some (Whole c))
        (fun fs => shows (Some (Whole c)) fs /\ is_Some (fs !! p))) | done | intros u d Hd; exact Hd |]|].
      * intros fs [Hfs E]. rewrite E. split; [by eapply rename_temporary_shows | by rewrite lookup_insert_eq].
      * intros e d [-> [Hd _]]. auto.
      * intros ? d Hd. cbn. eauto.
  - apply exn_if; intros Hc.
    + eapply exn_bind; [apply (Hch _ (shows (view fs0 p))); intros fs; by apply unlink_temporary_shows|]. intros ? d Hd. split; [by right | exact Hd].
    + rewrite bool_decide_false by (intros ->; done). intros d Hd. split; [by right | exact Hd].
Qed.

Lemma write_temporary_spec :
  triple_exn old_shown (write_temporary uuid_hex p data)
    (fun r d => r = Ok tt /\ exists c, data = Ok c /\ shows (Some (Whole c)) (files d) /\ is_Some (files d !! p))
    (fun e d => (e = Crashed \/ data = Err e) /\ old_shown d).
Proof. intros d Hd. apply (fill_temporary_spec (uuid_hex (uuid d)) (uuid_is_hex _) (mkDisk (files d) (S (uuid d)) (left d)) Hd). Qed.

Lemma unlink_backup_spec x :
  triple_exn (fun d => shows x (files d) /\ is_Some (files d !! p)) (unlink_if_exists (backup_path p))
    (fun _ d => shows x (files d) /\ is_Some (files d !! p)) (fun e d => e = Crashed /\ shows x (files d)).
Proof.
  unfold unlink_if_exists. eapply exn_bind; [apply exn_gets|]. intros b. apply exn_pre with (P' := fun d => shows x (files d) /\ is_Some (files d !! p)); [tauto|].
  apply exn_if; intros _; [|by intros d Hd].
  eapply exn_conseq; [apply (change_spec (fun fs => shows x fs /\ is_Some (fs !! p)) (fun fs => shows x fs /\ is_Some (fs !! p))) | done | done | by intros e d (? & ? & ?)].
  intros fs [Hs Hi]. split; [by apply unlink_backup_shows|]. rewrite lookup_delete_ne by apply backup_ne. done.
Qed.

Lemma make_backup_spec :
  triple_exn old_shown (make_backup p) (fun _ => old_shown) (fun e d => e = Crashed /\ old_shown d).
Proof.
  unfold make_backup. eapply exn_bind; [apply exn_gets|]. intros b. apply exn_if; intros ->; [|by intros d [_ Hd]].
  apply exn_pre with (P' := fun d => old_shown d /\ is_Some (files d !! p)).
  { intros d [Hb Hd]. split; [done|]. by eapply bool_decide_eq_true_1. }
  eapply exn_bind.
  - eapply exn_conseq; [apply (unlink_backup_spec (view fs0 p)) | done | done | done].
  - intros ?. eapply exn_conseq; [apply (change_spec (fun fs => shows (view fs0 p) fs /\ is_Some (fs !! p)) (shows (view fs0 p))) | done | done | by intros e d (? & ? & ?)].
    intros fs [Hs [y Hy]]. rewrite Hy. by apply rename_to_backup_shows.
Qed.

(** [put] either completes, and readers see the new file, or raises the exception
    of serializing the data, and they see the old one, or the process dies, and
    they see one of the two. *)
Lemma put_spec :
  triple_exn (fun d => files d = fs0) (put uuid_hex p data)
    (fun _ d => exists c, data = Ok c /\ shows (Some (Whole c)) (files d) /\ is_Some (files d !! p))
    (fun e d => (e = Crashed /\ old_or_new (files d)) \/ (data = Err e /\ shows (view fs0 p) (files d))).
Proof.
  unfold put, open_atomic_w. apply exn_pre with (P' := old_shown); [by intros d ->|].
  eapply exn_bind; [eapply exn_conseq; [apply make_backup_spec | done | done |]|].
  { intros e d [-> ?]. left. split; [done|]. by left. }
  intros ?. eapply exn_bind; [eapply exn_conseq; [apply write_temporary_spec | done | done |]|].
  { intros e d [[->|E] H]; [left; split; [done|]; by left | by right]. }
  intros r d (-> & c & Ec & Hd & Hs). pose proof (unlink_backup_spec (Some (Whole c)) d (conj Hd Hs)) as H. st_simpl.
  destruct (unlink_if_exists (backup_path p) d) as [d' [[]|e]]; [exists c; tauto|]. left. destruct H as [-> H]. split; [done|]. right. eauto.
Qed.

End Atomic.

(** ** Reading *)

Section Reading.
Context {Content : Type}.
Variable uuid_hex : nat -> string.
Hypothesis uuid_is_hex : forall n, is_hex (uuid_hex n).
Abbreviation path := (list string).
Abbreviation disk := (@disk Content).
Implicit Types (d : disk) (p q : path).

(** Readers see the same files, and a file that is there stays there. *)
Definition restored (fs fs' : gmap path (@file Content)) : Prop :=
  (forall q, regular_path q -> view fs' q = view fs q /\ (is_Some (fs !! q) -> is_Some (fs' !! q))) /\
  forall n, bounded n fs -> bounded n fs'.

#[global] Instance restored_preorder : PreOrder restored.
Proof.
  split; [by intros fs|]. intros fs1 fs2 fs3 [H1 B1] [H2 B2]. split; [|by auto].
  intros q Hq. destruct (H1 q Hq) as [E1 S1], (H2 q Hq) as [E2 S2]. rewrite E2, E1. auto.
Qed.

(** What is read of a file that readers see as [x] *)
Definition read_result (x : option (@file Content)) : result Content :=
  match x with Some (Whole c) => Ok c | Some Partial => Err ValueError | None => Err KeyNotFoundError end.

(** Restoring a backup changes nothing for readers. *)
Lemma restore_backup_restored fs p x :
  regular_path p -> fs !! p = None -> fs !! backup_path p = Some x -> restored fs (<[p := x]> (delete (backup_path p) fs)).
Proof.
  intros Hp Hn Hx. split.
  2: { intros n Hb. apply bounded_insert; [by apply bounded_delete|]. specialize (Hb (backup_path p)). unfold backup_path in Hb.
       rewrite with_name_length in Hb. apply Hb. eauto. }
  intros q Hq. unfold view. destruct (decide (q = p)) as [->|Hne].
  - rewrite lookup_insert_eq, Hn, Hx. eauto.
  - destruct (paths_apart p q Hp Hq) as (H1 & H2 & _). destruct (paths_apart q p Hq Hp) as (H3 & _).
    rewrite !lookup_insert_ne, !lookup_delete_ne by (done || by apply H2 || congruence). done.
Qed.

Lemma file_exists_spec p fs :
  regular_path p ->
  triple_exn (fun d => files d = fs) (_file_exists p)
    (fun b d => restored fs (files d) /\ if b : bool then files d !! p = view fs p /\ is_Some (view fs p) else view fs p = None)
    (fun e d => e = Crashed /\ left d <> None /\ restored fs (files d)).
Proof.
  intros Hp d <-. unfold _file_exists, exists_file, rename, change. st_simpl.
  case_bool_decide as He; [split; [done|]; destruct He as [x Hx]; unfold view; rewrite Hx; eauto|].
  case_bool_decide as Hb.
  - destruct Hb as [x Hx]. apply eq_None_not_Some in He.
    pose proof (restore_backup_restored _ p x Hp He Hx) as Hr. assert (view (files d) p = Some x) as Hv by (unfold view; by rewrite He).
    destruct (left d) as [[|n]|] eqn:El; cbn; rewrite ?Hx.
    + split; [done|]. by rewrite El.
    + rewrite lookup_insert_eq, Hv. eauto.
    + rewrite lookup_insert_eq, Hv. eauto.
  - split; [done|]. unfold view. apply eq_None_not_Some in He, Hb. by rewrite He.
Qed.

(** Reading gives what readers see and changes nothing they see. *)
Lemma get_spec p fs :
  regular_path p ->
  triple_exn (fun d => files d = fs) (get p)
    (fun c d => restored fs (files d) /\ view fs p = Some (Whole c))
    (fun e d => restored fs (files d) /\ ((e = Crashed /\ left d <> None) \/ read_result (view fs p) = Err e)).
Proof.
  intros Hp. unfold get, open_atomic_r. eapply exn_bind; [eapply exn_conseq; [apply (file_exists_spec p fs Hp) | intros d Hd; exact Hd | intros b d Hd; exact Hd |]|].
  { intros e d (-> & ? & ?). auto. }
  intros b. apply exn_if; intros ->.
  - intros d [Hs [Hp1 [x Hx]]]. st_simpl. rewrite Hp1, Hx. destruct x as [c|]; cbn; auto.
  - intros d [Hs Hn]. cbn. rewrite Hn. auto.
Qed.

(** A new process reads the file. *)
Definition read_back d p : result Content := (get p (mkDisk (files d) (uuid d) None)).2.

Lemma read_back_view d p : regular_path p -> read_back d p = read_result (view (files d) p).
Proof.
  intros Hp. unfold read_back. set (d' := mkDisk (files d) (uuid d) None). pose proof (get_spec p (files d) Hp d' eq_refl) as H.
  assert (left (get p d').1 = None) as Hl.
  { unfold get, open_atomic_r, _file_exists, exists_file, rename, change. st_simpl. repeat case_match; subst; done || (by simplify_eq). }
  destruct (get p d') as [d'' [c|e]]; cbn in *; [by destruct H as [_ ->]|]. by destruct H as [_ [[_ ?]| ->]].
Qed.

(** Without a crash [put] raises only what serializing the data raises. *)
Abbreviation alive := (fun d : disk => left d = None).

Lemma change_alive f (R : exn -> disk -> Prop) : triple_exn alive (change f) (fun _ => alive) R.
Proof. intros d H. unfold change. st_simpl. by rewrite H. Qed.

Lemma unlink_if_exists_alive p (R : exn -> disk -> Prop) : triple_exn alive (unlink_if_exists p) (fun _ => alive) R.
Proof.
  unfold unlink_if_exists. eapply exn_bind; [apply exn_gets|]. intros b. apply exn_if; intros _; [|by intros d [_ Hd]].
  eapply exn_pre; [|apply change_alive]. by intros d [_ Hd].
Qed.

Lemma put_alive p data : triple_exn alive (put uuid_hex p data) (fun _ => alive) (fun e _ => data = Err e).
Proof.
  unfold put, open_atomic_w. eapply exn_bind with (M := fun _ => alive).
  { unfold make_backup. eapply exn_bind; [apply exn_gets|]. intros b. apply exn_if; intros _; [|by intros d [_ Hd]].
    eapply exn_pre; [|eapply exn_bind; [apply unlink_if_exists_alive|]; intros ?; apply change_alive]. by intros d [_ Hd]. }
  intros _. eapply exn_bind with (M := fun r d => alive d /\ forall e, r = Err e -> data = Err e).
  2: { intros r. eapply exn_bind with (M := fun _ d => alive d /\ forall e, r = Err e -> data = Err e).
       - intros d [Hd Hr]. pose proof (unlink_if_exists_alive (backup_path p) (fun _ _ => False) d Hd) as H.
         by destruct (unlink_if_exists (backup_path p) d) as [d' [u|e]].
       - intros _ d [Hd Hr]. destruct r as [[]|e]; [done|]. cbn. auto. }
  unfold write_temporary. eapply exn_bind with (M := fun _ => alive); [by intros d Hd|]. intros hex. unfold fill_temporary.
  eapply exn_bind; [apply change_alive|]. intros ?. destruct data as [c|e].
  - eapply exn_bind; [apply change_alive|]. intros ?. eapply exn_bind; [apply change_alive|]. by intros ? d Hd.
  - apply exn_if; intros _; [eapply exn_bind; [apply change_alive|]; by intros ? d Hd|].
    apply exn_if; intros _; [|by intros d Hd]. eapply exn_bind; [apply change_alive|]. intros ? d Hd. split; [done|]. by intros e' [= ->].
Qed.

Lemma put_no_crash p data d : left d = None -> data <> Err Crashed -> (put uuid_hex p data d).2 <> Err Crashed.
Proof.
  intros Hl Hd. pose proof (put_alive p data d Hl) as H. destruct (put uuid_hex p data d) as [d' [a|e]]; [done|]. cbn. congruence.
Qed.

(** C16. A file of the workflow storage is replaced atomically: whenever the
    process dies while it writes a file, a later reader finds the file as it was
    or as it was to be, never a part of it and never nothing; a [put] that
    returns has stored the data, one whose data cannot be serialized has changed
    nothing; no other file is affected. This holds from any state of the disk,
    so also after earlier crashes. Serializing must not be interrupted by a
    [BaseException] that is no [Exception]: then the part that was written
    replaces the file ([interrupted_write_commits]). *)
Theorem put_is_atomic p data d :
  regular_path p -> data <> Err Crashed -> data <> Err KeyboardInterrupt ->
  let '(d', r) := put uuid_hex p data d in
  match r with
  | Ok _ => exists c, data = Ok c /\ read_back d' p = Ok c
  | Err e => (e = Crashed /\ left d <> None /\ (read_back d' p = read_back d p \/ exists c, data = Ok c /\ read_back d' p = Ok c)) \/
             (data = Err e /\ read_back d' p = read_back d p)
  end /\
  forall q, regular_path q -> q <> p -> read_back d' q = read_back d q.
Proof.
  intros Hp Hc Hk. pose proof (put_spec uuid_hex uuid_is_hex p Hp (files d) data Hk d eq_refl) as H. pose proof (put_no_crash p data d) as Hn.
  assert (forall d' x, shows p (files d) x (files d') -> read_back d' p = read_result x /\ forall q, regular_path q -> q <> p -> read_back d' q = read_back d q) as Hsh.
  { intros d' x (Hx & Hq & _). rewrite read_back_view, Hx by done. split; [done|]. intros q Hr Hne. rewrite !read_back_view by done. unfold view. by destruct (Hq q Hr Hne) as [-> ->]. }
  rewrite (read_back_view d p Hp). destruct (put uuid_hex p data d) as [d' [[]|e]].
  - destruct H as (c & -> & H & _). destruct (Hsh _ _ H) as [H1 H2]. split; [|done]. eauto.
  - destruct H as [[-> H]|[-> H]].
    + assert (left d <> None) by (intros Hl; by apply (Hn Hl Hc)).
      destruct H as [H|(c & -> & H)]; destruct (Hsh _ _ H) as [H1 H2]; (split; [|done]); left; (split; [done|]); (split; [done|]); [by left | right; eauto].
    + destruct (Hsh _ _ H) as [H1 H2]. split; [|done]. by right.
Qed.

End Reading.
