(* ===== verification/WorkflowStorage.v ===== *)
(** The storage of one workflow ([workflow/workflow_storage.py]) over the file
    system: the files of its steps, what a step's files tell about it, and the
    counters that make step ids unique. *)

From Stdlib Require Import ZArith Lia.
From stdpp Require Import base list strings option gmap pretty.
From S2P Require Import Prelude WorkflowFs.

(** [[f(x) for x in l]] *)
Fixpoint st_map {S A B} (f : A -> ST S B) (l : list A) : ST S (list B) :=
  match l with
  | [] => mret []
  | x :: l' => y ← f x; ys ← st_map f l'; mret (y :: ys)
  end.

Section Storage.
(** Python values, exceptions, functions, and arguments with places for the
    outputs of input workflows *)
Context {Val Exc Func Args : Type}.
Abbreviation StepID := string.

(** [WorkflowStepRuntimeOptions] of a step of type [FUNCTION] *)
Record options : Type := mkOptions { catch_exceptions : bool; max_retries : nat }.

Inductive WorkflowStatus : Type := RUNNING | CANCELED | SUCCESSFUL | FAILED | RESUMABLE.
#[global] Instance WorkflowStatus_eq_dec : EqDecision WorkflowStatus.
Proof. solve_decision. Defined.

(** What the files hold: the JSON files of inputs, outputs, counters, progress and
    status, the pickled values, exceptions, functions and arguments, and files
    that nothing here reads *)
Inductive content : Type :=
| CInputs (workflows : list StepID) (step_options : options)
| COutputs (output_step_id : StepID) (dynamic_output_step_id : option StepID)
| CCount (n : nat)
| CProgress (step_id : StepID)
| CStatus (status : WorkflowStatus)
| CVal (v : Val)
| CExc (e : Exc)
| CFunc (f : Func)
| CArgs (a : Args)
| CMetadata.

(** The result of a step: a value or an exception *)
Inductive out : Type := OVal (v : Val) | OExc (e : Exc).

Abbreviation disk := (@disk content).
Variable uuid_hex : nat -> string.
Variable root : list string.
Variable _workflow_id : string.

(** ** Keys *)

Definition OBJECTS_DIR := "objects".
Definition STEPS_DIR := "steps".
Definition STEP_INPUTS_METADATA := "inputs.json".
Definition STEP_USER_METADATA := "user_step_metadata.json".
Definition STEP_PRERUN_METADATA := "pre_step_metadata.json".
Definition STEP_POSTRUN_METADATA := "post_step_metadata.json".
Definition STEP_OUTPUTS_METADATA := "outputs.json".
Definition STEP_ARGS := "args.pkl".
Definition STEP_OUTPUT := "output.pkl".
Definition STEP_EXCEPTION := "exception.pkl".
Definition STEP_FUNC_BODY := "func_body.pkl".
Definition WORKFLOW_META := "workflow_meta.json".
Definition WORKFLOW_USER_METADATA := "user_run_metadata.json".
Definition WORKFLOW_PRERUN_METADATA := "pre_run_metadata.json".
Definition WORKFLOW_POSTRUN_METADATA := "post_run_metadata.json".
Definition WORKFLOW_PROGRESS := "progress.json".
Definition DUPLICATE_NAME_COUNTER := "duplicate_name_counter".

(** [_key_step_input_metadata] and the like: a file of a step; the driver's step id
    is empty *)
Definition step_file (step_id : StepID) (name : string) : list string := [_workflow_id; STEPS_DIR; step_id; name].
Definition _key_step_prefix (step_id : StepID) : list string := [_workflow_id; STEPS_DIR; step_id; ""].
Definition _key_workflow_progress : list string := [_workflow_id; STEPS_DIR; WORKFLOW_PROGRESS].
Definition _key_workflow_metadata : list string := [_workflow_id; WORKFLOW_META].
Definition _key_workflow_user_metadata : list string := [_workflow_id; WORKFLOW_USER_METADATA].
Definition _key_workflow_prerun_metadata : list string := [_workflow_id; WORKFLOW_PRERUN_METADATA].
Definition _key_workflow_postrun_metadata : list string := [_workflow_id; WORKFLOW_POSTRUN_METADATA].
Definition _key_num_steps_with_name (name : string) : list string := [_workflow_id; DUPLICATE_NAME_COUNTER; name].

(** ** [_put], [_get] and [_scan] *)

Definition _put (paths : list string) (data : content) : ST disk unit :=
  st_try (put uuid_hex (make_key root paths) (Ok data)) catchable (fun _ => st_raise DataSaveError).

Definition _get (paths : list string) : ST disk content :=
  st_try (get (make_key root paths)) (fun e => catchable e && negb (bool_decide (e = KeyNotFoundError)))
    (fun _ => st_raise DataLoadError).

(** [no_exception=True]: the value or the error *)
Definition get_no_exception (paths : list string) : ST disk (result content) :=
  st_try (c ← _get paths; mret (Ok c)) catchable (fun e => mret (Err e)).

Definition _scan (paths : list string) : ST disk (list string) :=
  st_try (scan_prefix (make_key root paths)) catchable (fun _ => st_raise DataLoadError).

(** ** Outputs of steps *)

Definition load_step_output (step_id : StepID) : ST disk out :=
  output ← get_no_exception (step_file step_id STEP_OUTPUT);
  exception ← get_no_exception (step_file step_id STEP_EXCEPTION);
  match output, exception with
  | Ok (CVal v), _ => mret (OVal v)
  | _, Ok (CExc e) => mret (OExc e)
  | Err e, _ => st_raise e
  | _, _ => st_raise DataLoadError
  end.

(** [outer_most_step_id] in [None] or [""] is the empty string here. *)
Definition _update_dynamic_output (outer_most_step_id dynamic_output_step_id : StepID) : ST disk unit :=
  if bool_decide (outer_most_step_id = "") then mret tt
  else
    metadata ← _get (step_file outer_most_step_id STEP_OUTPUTS_METADATA);
    match metadata with
    | COutputs output_step_id dynamic =>
        if negb (bool_decide (dynamic_output_step_id = output_step_id)) && negb (bool_decide (Some dynamic_output_step_id = dynamic))
        then _put (step_file outer_most_step_id STEP_OUTPUTS_METADATA) (COutputs output_step_id (Some dynamic_output_step_id))
        else mret tt
    | _ => st_raise TypeError
    end.

(** [save_step_output] for a nested workflow, a value and an exception *)
Definition save_nested_output (step_id nested_step_id : StepID) : ST disk unit :=
  _ ← st_lift (py_assert (negb (bool_decide (step_id = nested_step_id))));
  _put (step_file step_id STEP_OUTPUTS_METADATA) (COutputs nested_step_id None).
Definition save_value (step_id : StepID) (v : Val) (outer_most_step_id : StepID) : ST disk unit :=
  _ ← _put (step_file step_id STEP_OUTPUT) (CVal v);
  _update_dynamic_output outer_most_step_id step_id.
Definition save_exception (step_id : StepID) (e : Exc) : ST disk unit :=
  _put (step_file step_id STEP_EXCEPTION) (CExc e).

Definition load_step_func_body (step_id : StepID) : ST disk Func :=
  c ← _get (step_file step_id STEP_FUNC_BODY);
  match c with CFunc f => mret f | _ => st_raise DataLoadError end.

Definition load_step_args (step_id : StepID) : ST disk Args :=
  c ← _get (step_file step_id STEP_ARGS);
  match c with CArgs a => mret a | _ => st_raise DataLoadError end.

(** ** Step ids *)

(** [WorkflowStorage.gen_step_id] *)
Definition gen_step_index (step_name : string) : ST disk nat :=
  let key := _key_num_steps_with_name step_name in
  st_try (c ← _get key;
          match c with
          | CCount val => _ ← _put key (CCount (S val)); mret (S val)
          | _ => st_raise TypeError
          end)
    (fun e => bool_decide (e = KeyNotFoundError))
    (fun _ => _ ← _put key (CCount 0); mret 0%nat).

(** [WorkflowManagementActor.gen_step_id] *)
Definition step_id_of (step_name : string) (idx : nat) : StepID :=
  if (idx =? 0)%nat then step_name else step_name +:+ "_" +:+ pretty idx.
Definition gen_step_id (step_name : string) : ST disk StepID :=
  idx ← gen_step_index step_name; mret (step_id_of step_name idx).

(** ** Inspecting a step *)

(** [StepInspectResult]: the output is there, or it comes from another step, or
    the inputs are as found *)
Inductive StepInspectResult : Type :=
| OutputObjectValid
| OutputStepId (output_step_id : StepID)
| Inputs (args_valid func_body_valid : bool) (workflows : option (list StepID)) (step_options : option options).

Definition _locate_output_step_id (step_id : StepID) : ST disk StepID :=
  metadata ← _get (step_file step_id STEP_OUTPUTS_METADATA);
  match metadata with
  | COutputs output_step_id (Some dynamic) => mret (if bool_decide (dynamic = "") then output_step_id else dynamic)
  | COutputs output_step_id None => mret output_step_id
  | _ => st_raise TypeError
  end.

Definition get_entrypoint_step_id : ST disk StepID :=
  st_try (_locate_output_step_id "") catchable (fun _ => st_raise ValueError).

Definition inspect_step (step_id : StepID) : ST disk StepInspectResult :=
  keys ← _scan (_key_step_prefix step_id);
  if bool_decide (STEP_OUTPUT ∈ keys) then mret OutputObjectValid
  else if bool_decide (STEP_OUTPUTS_METADATA ∈ keys)
  then output_step_id ← _locate_output_step_id step_id; mret (OutputStepId output_step_id)
  else
    let args_valid := bool_decide (STEP_ARGS ∈ keys) in
    let func_body_valid := bool_decide (STEP_FUNC_BODY ∈ keys) in
    st_try (metadata ← _get (step_file step_id STEP_INPUTS_METADATA);
            match metadata with
            | CInputs workflows step_options => mret (Inputs args_valid func_body_valid (Some workflows) (Some step_options))
            | _ => st_raise TypeError
            end) catchable
      (fun _ => mret (Inputs args_valid func_body_valid None None)).

(** ** Progress, status and deletion *)

Definition save_metadata (step_id : StepID) (name : string) : ST disk unit := _put (step_file step_id name) CMetadata.

Definition advance_progress (finished_step_id : StepID) : ST disk unit := _put _key_workflow_progress (CProgress finished_step_id).

Definition get_latest_progress : ST disk StepID :=
  c ← _get _key_workflow_progress;
  match c with CProgress step_id => mret step_id | _ => st_raise TypeError end.

Definition save_workflow_user_metadata : ST disk unit := _put _key_workflow_user_metadata CMetadata.
Definition save_workflow_prerun_metadata : ST disk unit := _put _key_workflow_prerun_metadata CMetadata.
Definition save_workflow_postrun_metadata : ST disk unit := _put _key_workflow_postrun_metadata CMetadata.

Definition save_workflow_meta (status : WorkflowStatus) : ST disk unit := _put _key_workflow_metadata (CStatus status).

Definition load_workflow_meta : ST disk (option WorkflowStatus) :=
  st_try (c ← _get _key_workflow_metadata;
          match c with CStatus s => mret (Some s) | _ => st_raise TypeError end)
    (fun e => bool_decide (e = KeyNotFoundError)) (fun _ => mret None).

(** [list_workflow]: the status of every workflow in the storage *)
Definition list_workflow : ST disk (list (string * WorkflowStatus)) :=
  workflow_ids ← scan_prefix (make_key root [""]);
  st_map (fun workflow_id => c ← _get [workflow_id; WORKFLOW_META];
                             match c with CStatus s => mret (workflow_id, s) | _ => st_raise TypeError end) workflow_ids.

Definition delete_workflow : ST disk unit :=
  let prefix := make_key root [_workflow_id] in
  scan ← scan_prefix prefix;
  _ ← st_try (delete_prefix prefix) (fun e => bool_decide (e = FileNotFoundError)) (fun _ => mret tt);
  if bool_decide (scan = []) then st_raise WorkflowNotFoundError else mret tt.

End Storage.
