(* ===== verification/WorkflowManager.v ===== *)
(** The workflow management actor ([workflow/workflow_access.py]) and the calls that
    go through it ([workflow/execution.py]): which workflows run, the status of
    their steps and the status in the storage. The manager is modelled against an
    interface of the storage, which [WorkflowStorage] implements. *)

From Stdlib Require Import ZArith Lia.
From stdpp Require Import base list strings option gmap pretty.
From S2P Require Import Prelude PyDict Hoare WorkflowFs WorkflowStorage.

(** ** What the manager uses of the storage *)

Class StoreOps (S : Type) : Type := {
  save_meta : string -> WorkflowStatus -> ST S unit;
  load_meta : string -> ST S (option WorkflowStatus);
  list_meta : ST S (list (string * WorkflowStatus));
  save_prerun : string -> ST S unit;
  save_postrun : string -> ST S unit;
  entrypoint : string -> ST S string
}.

(** The statuses and entry points are a map that only [save_meta] changes. *)
Class Store (S : Type) `{!StoreOps S} : Type := {
  store_ok : S -> Prop;
  status_of : S -> string -> option WorkflowStatus;
  entry_of : S -> string -> option string;
  unchanged (s s' : S) : Prop := forall w, status_of s' w = status_of s w /\ entry_of s' w = entry_of s w;
  save_meta_law s w st : store_ok s -> exists s', save_meta w st s = (s', Ok tt) /\ store_ok s' /\
    forall w', status_of s' w' = (if decide (w' = w) then Some st else status_of s w') /\ entry_of s' w' = entry_of s w';
  load_meta_law s w : store_ok s -> exists s', load_meta w s = (s', Ok (status_of s w)) /\ store_ok s' /\ unchanged s s';
  save_prerun_law s w : store_ok s -> exists s', save_prerun w s = (s', Ok tt) /\ store_ok s' /\ unchanged s s';
  save_postrun_law s w : store_ok s -> exists s', save_postrun w s = (s', Ok tt) /\ store_ok s' /\ unchanged s s';
  entrypoint_law s w : store_ok s -> exists s', entrypoint w s = (s', or_raise ValueError (entry_of s w)) /\ store_ok s' /\ unchanged s s'
}.

Section Manager.
Context {S : Type} `{!StoreOps S} {Ref : Type}.
Abbreviation StepID := string.

(** ** [WorkflowManagementActor] *)

Record LatestWorkflowOutput : Type := mkOutput { output : Ref; workflow_id : string; step_id : StepID }.
Record manager : Type := mkManager {
  _store : S;
  _workflow_outputs : dict string LatestWorkflowOutput;
  _step_output_cache : dict (string * string) LatestWorkflowOutput;
  _step_status : dict string (dict StepID WorkflowStatus)
}.

Definition in_store {A} (m : ST S A) : ST manager A :=
  st_zoom _store (fun s g => mkManager s (_workflow_outputs g) (_step_output_cache g) (_step_status g)) m.
Definition set_outputs f : ST manager unit :=
  st_modify (fun g => mkManager (_store g) (f (_workflow_outputs g)) (_step_output_cache g) (_step_status g)).
Definition set_cache f : ST manager unit :=
  st_modify (fun g => mkManager (_store g) (_workflow_outputs g) (f (_step_output_cache g)) (_step_status g)).
Definition set_status f : ST manager unit :=
  st_modify (fun g => mkManager (_store g) (_workflow_outputs g) (_step_output_cache g) (f (_step_status g))).

Definition get_cached_step_output (wid : string) (sid : StepID) : ST manager (option Ref) :=
  st_gets (fun g => output <$> dget (wid, sid) (_step_output_cache g)).

(** The reference to the output of the task that resumes a step *)
Variable resume_workflow_step : string -> StepID -> option Ref -> Ref.

Definition run_or_resume (wid : string) (ignore_existing : bool) : ST manager Ref :=
  outputs ← st_gets _workflow_outputs;
  if dmem wid outputs && negb ignore_existing then st_raise RuntimeError
  else
    _ ← in_store (save_prerun wid);
    sid ← in_store (entrypoint wid);
    let result := resume_workflow_step wid sid (output <$> dget wid outputs) in
    let latest_output := mkOutput result wid sid in
    _ ← set_outputs (dset wid latest_output);
    _ ← set_cache (dset (wid, sid) latest_output);
    _ ← in_store (save_meta wid RUNNING);
    _ ← set_status (fun d => if dmem wid d then d else dset wid [] d);
    mret result.

Definition update_step_status (wid : string) (sid : StepID) (status : WorkflowStatus) : ST manager unit :=
  _ ← set_status (dsetdefault wid []);
  steps ← st_gets (fun g => dget_or wid [] (_step_status g));
  let steps := if bool_decide (status = SUCCESSFUL) then ddel sid steps else dset sid status steps in
  _ ← set_status (dset wid steps);
  _ ← (if bool_decide (status = RUNNING) then mret tt else set_cache (ddel (wid, sid)));
  if negb (bool_decide (status = FAILED)) && negb (length steps =? 0)%nat then mret tt
  else
    _ ← (if bool_decide (status = FAILED)
         then _ ← set_outputs (ddel wid); in_store (save_meta wid FAILED)
         else in_store (save_meta wid SUCCESSFUL));
    _ ← set_status (ddel wid);
    in_store (save_postrun wid).

Definition cancel_workflow (wid : string) : ST manager unit :=
  statuses ← st_gets _step_status;
  statuses ← st_lift (ddelitem wid statuses);
  _ ← set_status (fun _ => statuses);
  outputs ← st_gets _workflow_outputs;
  outputs ← st_lift (ddelitem wid outputs);
  _ ← set_outputs (fun _ => outputs);
  in_store (save_meta wid CANCELED).

Definition is_workflow_running (wid : string) : ST manager bool :=
  st_gets (fun g => dmem wid (_step_status g) && dmem wid (_workflow_outputs g)).
Definition list_running_workflow : ST manager (list string) := st_gets (fun g => dkeys (_step_status g)).
Definition get_running_workflow : ST manager (list string) := st_gets (fun g => dkeys (_workflow_outputs g)).
Definition report_failure (wid : string) : ST manager unit := set_outputs (ddel wid).
Definition report_success (wid : string) : ST manager unit := set_outputs (ddel wid).

(** [get_output]: the reference at hand, one to be dereferenced, or that of a task
    that loads the output of a step. The comparisons of the metadata with the
    statuses [CANCELED] and [RESUMABLE] are never true. *)
Inductive located : Type := Direct (r : Ref) | Dereferenced (r : Ref) | Load (sid : StepID).
Definition get_output (wid : string) (name : option StepID) : ST manager located :=
  outputs ← st_gets _workflow_outputs;
  match dget wid outputs, name with
  | Some o, None => mret (Direct (output o))
  | _, _ =>
      meta ← in_store (load_meta wid);
      match meta, name with
      | None, _ => st_raise ValueError
      | Some _, None => sid ← in_store (entrypoint wid); mret (Load sid)
      | Some _, Some sid =>
          cached ← get_cached_step_output wid sid;
          match cached with Some r => mret (Dereferenced r) | None => mret (Load sid) end
      end
  end.

(** ** [execution.py] *)

Definition get_status (wid : string) : ST manager WorkflowStatus :=
  running ← is_workflow_running wid;
  if running : bool then mret RUNNING
  else
    meta ← in_store (load_meta wid);
    match meta with
    | None => st_raise WorkflowNotFoundError
    | Some RUNNING => mret RESUMABLE
    | Some status => mret status
    end.

(** [cancel]; [reachable] if there is a manager *)
Definition cancel (reachable : bool) (wid : string) : ST manager unit :=
  st_try (if reachable then cancel_workflow wid else st_raise ValueError)
    (fun e => bool_decide (e = ValueError)) (fun _ => in_store (save_meta wid CANCELED)).

Definition list_all (status_filter : list WorkflowStatus) : ST manager (list (string * WorkflowStatus)) :=
  runnings ← list_running_workflow;
  if bool_decide (status_filter = [RUNNING]) then mret (map (fun r => (r, RUNNING)) runnings)
  else
    l ← in_store list_meta;
    mret (filter (fun ks => ks.2 ∈ status_filter)
            (map (fun '(k, s) => (k, if bool_decide (s = RUNNING) && negb (bool_decide (k ∈ runnings)) then RESUMABLE else s)) l)).

Definition resume_all (with_failed : bool) : ST manager (list (string * Ref)) :=
  all_failed ← list_all (RESUMABLE :: if with_failed then [FAILED] else []);
  ret ← st_map (fun '(wid, _) => st_try (r ← run_or_resume wid false; mret [(wid, r)]) catchable (fun _ => mret [])) all_failed;
  mret (concat ret).

End Manager.
(** ** The storage of the file system *)

Definition disk_ops {Val Exc Func Args} (uuid_hex : nat -> string) (root : list string) : StoreOps (@disk (@content Val Exc Func Args)) := {|
  save_meta w st := save_workflow_meta uuid_hex root w st;
  load_meta w := load_workflow_meta root w;
  list_meta := list_workflow root;
  save_prerun w := save_workflow_prerun_metadata uuid_hex root w;
  save_postrun w := save_workflow_postrun_metadata uuid_hex root w;
  entrypoint w := get_entrypoint_step_id root w
|}.
Arguments manager : clear implicits.
Arguments LatestWorkflowOutput : clear implicits.
