(* ===== verification/WorkflowExec.v ===== *)
(** Running and resuming workflows ([workflow/step_executor.py],
    [workflow/recovery.py], [workflow/execution.py] and the class [Workflow] of
    [workflow/common.py]), over the manager of [WorkflowManager] and the storage
    of [WorkflowStorage]. *)

From Stdlib Require Import ZArith Lia.
From stdpp Require Import base list strings option gmap pretty.
From S2P Require Import Prelude PyDict WorkflowFs WorkflowStorage WorkflowManager.

Section Exec.
Context {Val Exc Func Args : Type}.
Abbreviation StepID := string.
Abbreviation content := (@content Val Exc Func Args).
Abbreviation disk := (@disk content).
Abbreviation out := (@out Val Exc).
Variable uuid_hex : nat -> string.
Variable root : list string.
Variable workflow_id : string.

(** ** Workflows *)

(** A [Workflow] object that has no step id yet; [oid] is its identity, so that an
    object that is the input of several others is one step. *)
Inductive pywf : Type :=
  PyWF (oid : nat) (name : string) (func_body : Func) (args : Args) (inputs : list pywf) (opts : options).
Definition oid (w : pywf) := let 'PyWF i _ _ _ _ _ := w in i.
Definition name (w : pywf) := let 'PyWF _ s _ _ _ _ := w in s.
Definition func_body (w : pywf) := let 'PyWF _ _ f _ _ _ := w in f.
Definition args (w : pywf) := let 'PyWF _ _ _ a _ _ := w in a.
Definition inputs (w : pywf) := let 'PyWF _ _ _ _ l _ := w in l.
Definition opts (w : pywf) := let 'PyWF _ _ _ _ _ o := w in o.

(** [result.data.step_options.catch_exceptions = True] *)
Definition set_catch (w : pywf) : pywf :=
  PyWF (oid w) (name w) (func_body w) (args w) (inputs w) (mkOptions true (max_retries (opts w))).

(** What a call of a step's function does *)
Inductive outcome : Type := Returned (v : Val) | Raised (e : Exc) | ReturnedWorkflow (w : pywf).

(** The [i]-th attempt to call a function on arguments with the outputs of the
    input workflows in their places; [(result, exception)], [None] and a Python
    exception raised by the storage, as values *)
Variable call : Func -> Args -> list Val -> nat -> outcome.
Variable result_and_exception : option Val -> option Exc -> Val.
Variable none : Val.
Variable of_exn : exn -> Exc.

(** Every object in the tree *)
Fixpoint nodes (w : pywf) : list pywf := w :: concat (map nodes (inputs w)).

(** [_iter_workflows_in_dag] *)
Definition enqueue (acc : list pywf * list nat) (p : pywf) : list pywf * list nat :=
  if bool_decide (oid p ∈ acc.2) then acc else (acc.1 ++ [p], acc.2 ++ [oid p]).
Fixpoint bfs (fuel : nat) (q : list pywf) (visited : list nat) : list pywf :=
  match fuel, q with
  | S n, w :: q' => let '(q'', visited') := foldl enqueue (q', visited) (inputs w) in w :: bfs n q'' visited'
  | _, _ => []
  end.
Definition _iter_workflows_in_dag (w : pywf) : list pywf := bfs (length (nodes w)) [w] [oid w].

(** A [Workflow] with step ids. The inputs of a workflow that recovers a step are
    workflows that recover its inputs, or their outputs; it has no function of
    its own and loads that of the step. *)
Inductive workflow : Type :=
  Wf (step_id : StepID) (body : option Func) (wf_args : Args) (wf_inputs : list (workflow + Val)) (wf_opts : options).
Definition step_id_of_workflow (w : workflow) : StepID := let 'Wf i _ _ _ _ := w in i.

(** ** [commit_step] *)

(** The step ids of the objects of a workflow *)
Definition gen_ids (ws : list pywf) : ST disk (dict nat StepID) :=
  ids ← st_map (fun w => id ← gen_step_id uuid_hex root workflow_id (name w); mret (oid w, id)) ws; mret ids.
Definition id_in (ids : dict nat StepID) (w : pywf) : StepID := default "" (dget (oid w) ids).

Fixpoint with_ids (ids : dict nat StepID) (w : pywf) : workflow :=
  Wf (id_in ids w) (Some (func_body w)) (args w) (map (fun x => inl (with_ids ids x)) (inputs w)) (opts w).

Definition write_file_of (step_id : StepID) (file_name : string) (c : content) : ST disk unit :=
  _put uuid_hex root (step_file workflow_id step_id file_name) c.

Definition _write_step_inputs (ids : dict nat StepID) (w : pywf) : ST disk unit :=
  let step_id := id_in ids w in
  _ ← write_file_of step_id STEP_INPUTS_METADATA (CInputs (map (id_in ids) (inputs w)) (opts w));
  _ ← write_file_of step_id STEP_USER_METADATA CMetadata;
  _ ← write_file_of step_id STEP_FUNC_BODY (CFunc (func_body w));
  write_file_of step_id STEP_ARGS (CArgs (args w)).

(** [commit_step] of a step that returned a workflow: the workflow with its ids *)
Definition commit_nested (step_id : StepID) (w : pywf) : ST disk workflow :=
  ids ← gen_ids (_iter_workflows_in_dag w);
  _ ← st_for (_iter_workflows_in_dag w) (_write_step_inputs ids);
  _ ← save_nested_output uuid_hex root workflow_id step_id (id_in ids w);
  mret (with_ids ids w).

(** ** The state of an execution *)

(** The manager with the storage, and the results of the workflow objects that were
    executed; a task that resumes a step is referred to by the step. *)
Abbreviation manager := (manager disk StepID).
Record world : Type := mkWorld { w_manager : manager; executed : dict StepID out }.
Definition w_disk (w : world) : disk := _store (w_manager w).
Definition on_manager {A} (m : ST manager A) : ST world A := st_zoom w_manager (fun g w => mkWorld g (executed w)) m.
Definition on_disk {A} (m : ST disk A) : ST world A := on_manager (in_store m).
#[local] Instance ops : StoreOps disk := disk_ops uuid_hex root.

Definition _record_step_status (step_id : StepID) (status : WorkflowStatus) : ST world unit :=
  on_manager (update_step_status workflow_id step_id status).

(** ** [_wrap_run] *)

(** One attempt; [_recover_workflow_step] loads the function of the step. *)
Definition attempt (step_id : StepID) (body : option Func) (a : Args) (vs : list Val) (i : nat) : ST disk outcome :=
  match body with
  | Some f => mret (call f a vs i)
  | None => st_try (f ← load_step_func_body root workflow_id step_id; mret (call f a vs i))
              catchable (fun e => mret (Raised (of_exn e)))
  end.
Fixpoint retry (k i : nat) (run : nat -> ST disk outcome) (last : outcome) : ST disk outcome :=
  match k with
  | O => mret last
  | S k' => o ← run i; match o with Raised _ => retry k' (S i) run o | _ => mret o end
  end.

(** The persisted output of a step of type [FUNCTION], or the exception *)
Inductive wrapped : Type := WVal (v : Val) | WExc (e : Exc) | WNested (w : pywf).
Definition wrap (catches : bool) (o : outcome) : wrapped :=
  match o with
  | Returned v => WVal (if catches then result_and_exception (Some v) None else v)
  | Raised e => if catches then WVal (result_and_exception None (Some e)) else WExc e
  | ReturnedWorkflow w => WNested (if catches then set_catch w else w)
  end.
Definition _wrap_run (step_id : StepID) (body : option Func) (a : Args) (vs : list Val) (o : options) : ST world wrapped :=
  r ← on_disk (retry (max_retries o) 0 (attempt step_id body a vs) (Returned none));
  let w := wrap (catch_exceptions o) r in
  _ ← match w with WExc _ => _record_step_status step_id FAILED | _ => mret tt end;
  mret w.

(** ** [execute_workflow] *)

(** [WorkflowStepContext]: [None] is the empty string *)
Record context : Type := mkContext { outer_most_step_id : StepID; last_step_of_workflow : bool }.

(** The outputs of the input workflows, or the exception of the first that failed *)
Fixpoint resolve (os : list out) : list Val + Exc :=
  match os with
  | [] => inl []
  | OExc e :: _ => inr e
  | OVal v :: os' => match resolve os' with inl vs => inl (v :: vs) | inr e => inr e end
  end.

Definition save_output (c : context) (step_id : StepID) (v : Val) : ST disk unit :=
  _ ← save_value uuid_hex root workflow_id step_id v (outer_most_step_id c);
  if last_step_of_workflow c then advance_progress uuid_hex root workflow_id step_id else mret tt.

(** The context of a nested workflow *)
Definition nested_context (c : context) (step_id : StepID) : context :=
  mkContext (if bool_decide (outer_most_step_id c = "") then step_id else outer_most_step_id c) (last_step_of_workflow c).

(** [_workflow_step_executor]: the result, or the nested workflow that gives it *)
Definition run_step (c : context) (step_id : StepID) (body : option Func) (a : Args) (vs : list Val) (o : options) :
  ST world (out + workflow) :=
  _ ← on_disk (write_file_of step_id STEP_PRERUN_METADATA CMetadata);
  r ← _wrap_run step_id body a vs o;
  match r with
  | WExc e => _ ← on_disk (save_exception uuid_hex root workflow_id step_id e); mret (inl (OExc e))
  | WVal v =>
      _ ← on_disk (write_file_of step_id STEP_POSTRUN_METADATA CMetadata);
      _ ← on_disk (save_output c step_id v);
      _ ← _record_step_status step_id SUCCESSFUL;
      mret (inl (OVal v))
  | WNested w =>
      _ ← on_disk (write_file_of step_id STEP_POSTRUN_METADATA CMetadata);
      nested ← on_disk (commit_nested step_id w); mret (inr nested)
  end.

Definition record (step_id : StepID) (o : out) : ST world out :=
  _ ← st_modify (fun w => mkWorld (w_manager w) (dset step_id o (executed w))); mret o.

Fixpoint execute_workflow (fuel : nat) (c : context) (w : workflow) : ST world out :=
  match fuel with
  | O => st_raise OutOfFuel
  | S n =>
      let 'Wf step_id body a ins o := w in
      done ← st_gets (fun s => dget step_id (executed s));
      match done with
      | Some r => mret r
      | None =>
          os ← st_map (fun x => match x with
                                | inl w' => execute_workflow n (mkContext "" false) w'
                                | inr v => mret (OVal v)
                                end) ins;
          _ ← _record_step_status step_id RUNNING;
          match resolve os with
          | inr e => record step_id (OExc e)
          | inl vs =>
              r ← run_step c step_id body a vs o;
              match r with
              | inl res => record step_id res
              | inr nested =>
                  res ← execute_workflow n (nested_context c step_id) nested;
                  _ ← _record_step_status step_id SUCCESSFUL;
                  record step_id res
              end
          end
      end
  end.

(** ** Recovery *)

Abbreviation resumed := (workflow + StepID)%type.

(** An input of a step to recover: a workflow, or the output that is there *)
Definition load_input (r : resumed) : ST disk (workflow + Val) :=
  match r with
  | inl w => mret (inl w)
  | inr s => o ← load_step_output root workflow_id s;
             match o with OVal v => mret (inr v) | OExc _ => st_raise PyException end
  end.

Definition construct_inputs (construct : StepID -> dict StepID resumed -> ST disk (resumed * dict StepID resumed)) :
  list StepID -> dict StepID resumed -> ST disk (list (workflow + Val) * dict StepID resumed) :=
  fix go ids input_map :=
    match ids with
    | [] => mret ([], input_map)
    | id :: ids' =>
        '(r, input_map) ← match dget id input_map with
                          | Some r => mret (r, input_map)
                          | None => '(r, m) ← construct id input_map; mret (r, dset id r m)
                          end;
        x ← load_input r;
        '(xs, input_map) ← go ids' input_map;
        mret (x :: xs, input_map)
    end.

Fixpoint _construct_resume_workflow_from_step (fuel : nat) (step_id : StepID) (input_map : dict StepID resumed) :
  ST disk (resumed * dict StepID resumed) :=
  match fuel with
  | O => st_raise OutOfFuel
  | S n =>
      result ← inspect_step root workflow_id step_id;
      match result with
      | OutputObjectValid => mret (inr step_id, input_map)
      | OutputStepId output_step_id => _construct_resume_workflow_from_step n output_step_id input_map
      | Inputs true true (Some workflows) (Some o) =>
          '(ins, input_map) ← construct_inputs (_construct_resume_workflow_from_step n) workflows input_map;
          a ← load_step_args root workflow_id step_id;
          mret (inl (Wf step_id None a ins o), input_map)
      | Inputs _ _ _ _ => st_raise WorkflowStepNotRecoverableError
      end
  end.

Definition _resume_workflow_step_executor (fuel : nat) (step_id : StepID) : ST world out :=
  r ← st_try (on_disk (_construct_resume_workflow_from_step fuel step_id [])) catchable (fun _ => st_raise WorkflowNotResumableError);
  match r.1 with
  | inl w => execute_workflow fuel (mkContext "" true) w
  | inr s => on_disk (load_step_output root workflow_id s)
  end.

(** A new manager *)
Definition in_new_process {A} (m : ST world A) : ST disk A := fun d =>
  let '(w, r) := m (mkWorld (mkManager d [] [] []) []) in (w_disk w, r).

(** [execution.resume] through a new manager, with the task that it starts, which goes
    on when the status is saved *)
Definition resume (fuel : nat) : ST disk out := in_new_process (
  step_id ← on_manager (run_or_resume (fun _ step_id _ => step_id) workflow_id false);
  _resume_workflow_step_executor fuel step_id).

(** [execution.run] *)
Definition run (fuel : nat) (entry_workflow : pywf) : ST disk out :=
  _ ← save_workflow_user_metadata uuid_hex root workflow_id;
  wf_exists ← st_try (_ ← get_entrypoint_step_id root workflow_id; mret true) catchable (fun _ => mret false);
  _ ← (if wf_exists : bool then mret tt else _ ← commit_nested "" entry_workflow; mret tt);
  resume fuel.

(** [get_latest_output]: the output that the latest progress leads to *)
Fixpoint follow_output (fuel : nat) (step_id : StepID) : ST disk out :=
  match fuel with
  | O => st_raise OutOfFuel
  | S n =>
      result ← inspect_step root workflow_id step_id;
      match result with
      | OutputObjectValid => load_step_output root workflow_id step_id
      | OutputStepId output_step_id => follow_output n output_step_id
      | Inputs _ _ _ _ => st_raise ValueError
      end
  end.
Definition get_latest_output (fuel : nat) : ST disk out :=
  st_try (step_id ← get_latest_progress root workflow_id; follow_output fuel step_id) catchable
    (fun _ => st_raise WorkflowNotResumableError).

(** ** What a workflow computes, without storage *)

Fixpoint eval (n : nat) (w : pywf) : option out :=
  match n with
  | O => None
  | S n' =>
      os ← mapM (eval n') (inputs w);
      match resolve os with
      | inr e => Some (OExc e)
      | inl vs =>
          match wrap (catch_exceptions (opts w)) (call (func_body w) (args w) vs 0) with
          | WVal v => Some (OVal v)
          | WExc e => Some (OExc e)
          | WNested w' => eval n' w'
          end
      end
  end.

End Exec.
