(* ===== verification/WorkflowFiles.v ===== *)
(** The files of a workflow's steps as the storage operations change them: each
    operation happens as a whole or, when the process dies, not at all. *)

From Stdlib Require Import ZArith Lia Ascii.
From stdpp Require Import base list strings option gmap pretty.
From S2P Require Import Prelude PyDict Hoare WorkflowFs WorkflowStorage.

(** The names of the files of a step *)
Definition step_names : list string :=
  [STEP_INPUTS_METADATA; STEP_USER_METADATA; STEP_PRERUN_METADATA; STEP_POSTRUN_METADATA; STEP_OUTPUTS_METADATA; STEP_ARGS;
   STEP_OUTPUT; STEP_EXCEPTION; STEP_FUNC_BODY; WORKFLOW_PROGRESS].

Lemma step_names_ok nm : nm ∈ step_names -> regular nm /\ nm <> "".
Proof.
  intros H. unfold step_names in H.
  repeat (apply elem_of_cons in H as [->|H]; [split; [eapply regular_intro; [reflexivity | done | reflexivity | reflexivity] | done]|]).
  by apply elem_of_nil in H.
Qed.

(** ** Names and ids of steps *)

(** Names that can be those of directories: one path component, neither that of
    a backup or temporary file nor that of a file of a step *)
Definition file_name (n : string) : Prop :=
  n <> "" /\ all_chars (fun c => negb (Ascii.eqb c "/")) n = true /\ regular n /\ n ∉ step_names.

(** The names that the steps of a workflow have.  The second step named [n] gets
    the id [n_1], the third [n_2]: none of the names is another one of them with a
    number appended in this way, or the ids of different steps would collide. *)
Class StepNames : Type := {
  good_name : string -> Prop;
  good_file_name n : good_name n -> file_name n;
  good_apart n n' (j : nat) : good_name n -> good_name n' -> (1 <= j)%nat -> n <> n' +:+ "_" +:+ pretty j
}.

Lemma good_nonempty {names : StepNames} n : good_name n -> n <> "".
Proof. intros H%good_file_name. apply H. Qed.

(** Ids whose directories are apart from the driver's files *)
Definition id_ok (id : string) : Prop := id <> "" /\ regular id /\ id ∉ step_names.

(** A string ends in hexadecimal digits after its last other character. *)
Lemma last_non_hex x y c c' d d' :
  hex_digit c = false -> hex_digit c' = false -> all_chars hex_digit d = true -> all_chars hex_digit d' = true ->
  x +:+ String c d = y +:+ String c' d' -> x = y /\ c = c' /\ d = d'.
Proof.
  intros Hc Hc' Hd Hd'.
  assert (forall (a b : string) c d, hex_digit c = false -> all_chars hex_digit (a +:+ String c d) = true -> False) as Hno.
  { clear. intros a _ c d Hc. induction a as [|z a IH]; [change (hex_digit c && all_chars hex_digit d = true -> False); by rewrite Hc|].
    change (hex_digit z && all_chars hex_digit (a +:+ String c d) = true -> False). intros [_ H]%andb_true_iff. auto. }
  revert y. induction x as [|z x IH]; intros [|z' y] E.
  - by injection E as -> ->.
  - injection E as -> E. exfalso. rewrite E in Hd. by apply (Hno y "" c' d').
  - injection E as -> E. exfalso. rewrite <- E in Hd'. by apply (Hno x "" c d).
  - injection E as -> E. destruct (IH y E) as (-> & -> & ->). done.
Qed.

Lemma pretty_N_char_hex x : hex_digit (pretty_N_char x) = true.
Proof. unfold pretty_N_char. by repeat case_match. Qed.

Lemma pretty_hex (n : nat) : all_chars hex_digit (pretty n) = true.
Proof.
  unfold pretty, pretty_nat, pretty, pretty_N. destruct (decide (N.of_nat n = 0)%N); [done|].
  assert (forall x s, all_chars hex_digit s = true -> all_chars hex_digit (pretty_N_go x s) = true) as H; [|by apply H].
  intros x. induction x as [x IH] using (well_founded_induction N.lt_wf_0). intros s Hs.
  destruct (decide (0 < x)%N) as [Hx|Hx]; [|assert (x = 0%N) as -> by lia; by rewrite pretty_N_go_0].
  rewrite pretty_N_go_step by done. apply IH; [apply N.div_lt; lia|]. cbn. by rewrite pretty_N_char_hex.
Qed.

Lemma pretty_nonempty (n : nat) : pretty n <> "".
Proof.
  unfold pretty, pretty_nat, pretty, pretty_N. destruct (decide (N.of_nat n = 0)%N); [done|].
  rewrite pretty_N_go_step by lia.
  assert (forall x c s, pretty_N_go x (String c s) <> "") as H; [|apply H].
  intros x. induction x as [x IH] using (well_founded_induction N.lt_wf_0). intros c s.
  destruct (decide (0 < x)%N) as [Hx|Hx]; [|assert (x = 0%N) as -> by lia; by rewrite pretty_N_go_0].
  rewrite pretty_N_go_step by done. apply IH. apply N.div_lt; lia.
Qed.

Lemma step_names_last nm : nm ∈ step_names -> exists c, last_char nm = Some c /\ hex_digit c = false.
Proof.
  intros H. unfold step_names in H. repeat (apply elem_of_cons in H as [->|H]; [eexists; split; reflexivity|]). by apply elem_of_nil in H.
Qed.

Lemma step_id_ok {names : StepNames} n i : good_name n -> id_ok (step_id_of n i).
Proof.
  intros (Hne & _ & Hr & Hs)%good_file_name. unfold step_id_of. destruct (Nat.eqb_spec i 0) as [->|Hi]; [done|].
  split_and!.
  - by destruct n.
  - destruct n as [|c n]; [done|]. split.
    + intros s E. injection E as -> _. destruct Hr as [Hr _]. by apply (Hr n).
    + intros a hex [Hh _] E. change (String c n +:+ "_" +:+ pretty i) with (String c n +:+ String "_" (pretty i)) in E.
      change (a +:+ "." +:+ hex) with (a +:+ String "." hex) in E.
      apply last_non_hex in E as (_ & ? & _); [done | done | done | apply pretty_hex | done].
  - intros (c & Hl & Hc)%step_names_last. pose proof (pretty_nonempty i) as Hi'.
    rewrite last_char_app in Hl by (by apply app_nonempty). rewrite last_char_app in Hl by done.
    destruct (last_char_all hex_digit (pretty i) (pretty_hex i) (pretty_nonempty i)) as (c' & Hl' & Hc'). congruence.
Qed.

(** Ids of different steps are different. *)
Lemma step_id_of_inj {names : StepNames} n i n' j : good_name n -> good_name n' -> step_id_of n i = step_id_of n' j -> n = n' /\ i = j.
Proof.
  intros Hn Hn'. unfold step_id_of. destruct (Nat.eqb_spec i 0) as [->|Hi], (Nat.eqb_spec j 0) as [->|Hj]; intros E; [done | | |].
  - by apply good_apart in E; [|done..|lia].
  - symmetry in E. by apply good_apart in E; [|done..|lia].
  - change (n +:+ String "_" (pretty i) = n' +:+ String "_" (pretty j)) in E.
    apply last_non_hex in E as (-> & _ & E); [|done | done | apply pretty_hex | apply pretty_hex]. by apply (inj pretty) in E.
Qed.

Section Files.
Context {names : StepNames} {Val Exc Func Args : Type}.
Abbreviation content := (@content Val Exc Func Args).
Abbreviation disk := (@disk content).
Abbreviation fsys := (gmap (list string) (@file content)).
Variable uuid_hex : nat -> string.
Hypothesis uuid_is_hex : forall n, is_hex (uuid_hex n).
Variable root : list string.
Variable wf : string.
Hypothesis wf_nonempty : wf <> "".
Implicit Types (fs : fsys) (id nm : string).

(** ** Keys *)

Lemma make_key_step id nm :
  nm <> "" -> make_key root (step_file wf id nm) = root ++ (if bool_decide (id = "") then [wf; STEPS_DIR; nm] else [wf; STEPS_DIR; id; nm]).
Proof.
  intros H. unfold make_key, step_file. f_equal. rewrite !filter_cons. rewrite decide_True by done. rewrite decide_True by done.
  case_bool_decide; [rewrite decide_False by (intros Hn; by apply Hn) | rewrite decide_True by done]; by rewrite decide_True, filter_nil.
Qed.

Lemma make_key_count n : n <> "" -> make_key root (_key_num_steps_with_name wf n) = root ++ [wf; DUPLICATE_NAME_COUNTER; n].
Proof.
  intros H. unfold make_key, _key_num_steps_with_name. f_equal. rewrite !filter_cons. rewrite decide_True by done. rewrite decide_True by done.
  by rewrite decide_True, filter_nil.
Qed.

Lemma make_key_inj id nm id' nm' :
  nm <> "" -> nm' <> "" -> make_key root (step_file wf id nm) = make_key root (step_file wf id' nm') -> id = id' /\ nm = nm'.
Proof.
  intros H H'. rewrite !make_key_step by done. intros E%app_inv_head. repeat case_bool_decide; by simplify_eq.
Qed.

Lemma make_key_regular id nm : nm ∈ step_names -> regular_path (make_key root (step_file wf id nm)).
Proof.
  intros [Hr Hn]%step_names_ok. rewrite make_key_step by done. case_bool_decide.
  - exists (root ++ [wf; STEPS_DIR]), nm. by rewrite <- app_assoc.
  - exists (root ++ [wf; STEPS_DIR; id]), nm. by rewrite <- app_assoc.
Qed.

Lemma make_key_count_regular n : good_name n -> regular_path (make_key root (_key_num_steps_with_name wf n)).
Proof. intros (Hn & _ & Hr & _)%good_file_name. rewrite make_key_count by done. exists (root ++ [wf; DUPLICATE_NAME_COUNTER]), n. by rewrite <- app_assoc. Qed.

Lemma make_key_count_step id nm n :
  nm ∈ step_names -> n <> "" -> make_key root (step_file wf id nm) <> make_key root (_key_num_steps_with_name wf n).
Proof.
  intros [_ Hn]%step_names_ok H. rewrite make_key_step, make_key_count by done. intros E%app_inv_head. case_bool_decide; by simplify_eq.
Qed.

Lemma make_key_length paths : length paths = 4%nat -> (length (make_key root paths) <= length root + 4)%nat.
Proof. intros <-. unfold make_key. rewrite length_app. pose proof (length_filter (fun n => n <> "") paths). lia. Qed.

Lemma make_key_length_count n : (length (make_key root (_key_num_steps_with_name wf n)) <= length root + 4)%nat.
Proof. unfold make_key. rewrite length_app. pose proof (length_filter (fun n => n <> "") (_key_num_steps_with_name wf n)) as H. cbn [length _key_num_steps_with_name] in H. lia. Qed.

(** ** Contents *)

Definition whole_content (x : option (@file content)) : option content := match x with Some (Whole c) => Some c | _ => None end.
Definition sf fs id nm : option content := whole_content (view fs (make_key root (step_file wf id nm))).
Definition vis fs id nm : Prop := is_Some (fs !! make_key root (step_file wf id nm)).
Definition cnt fs n : option content := whole_content (view fs (make_key root (_key_num_steps_with_name wf n))).

(** The directory of a step *)
Definition step_dir id : list string := root ++ [wf; STEPS_DIR; id].

(** Readers never see a part of a file, no file is below those of the steps, and
    the directories of steps are no files. *)
Definition whole fs : Prop :=
  (forall q, regular_path q -> view fs q <> Some Partial) /\ bounded (length root + 4) fs /\
  forall id, id_ok id -> view fs (step_dir id) = None.

(** The file [nm] of step [id] is replaced by [x]. *)
Record file_change id nm (x : option content) fs fs' : Prop := {
  fc_here : sf fs' id nm = x;
  fc_other id' nm' : nm' ∈ step_names -> (id', nm') <> (id, nm) -> sf fs' id' nm' = sf fs id' nm' /\ (vis fs id' nm' -> vis fs' id' nm');
  fc_count n : good_name n -> cnt fs' n = cnt fs n
}.

Record count_change n (x : option content) fs fs' : Prop := {
  cc_here : cnt fs' n = x;
  cc_file id' nm' : nm' ∈ step_names -> sf fs' id' nm' = sf fs id' nm' /\ (vis fs id' nm' -> vis fs' id' nm');
  cc_count n' : good_name n' -> n' <> n -> cnt fs' n' = cnt fs n'
}.

Lemma step_dir_regular id : id_ok id -> regular_path (step_dir id).
Proof. intros (_ & Hr & _). exists (root ++ [wf; STEPS_DIR]), id. unfold step_dir. by rewrite <- app_assoc. Qed.

Lemma step_dir_file id id' nm : nm ∈ step_names -> id_ok id' -> make_key root (step_file wf id nm) <> step_dir id'.
Proof.
  intros Hn (_ & _ & Hid). rewrite make_key_step by (by apply step_names_ok). unfold step_dir. intros E%app_inv_head.
  case_bool_decide; by simplify_eq.
Qed.

Lemma step_dir_count n id' : n <> "" -> make_key root (_key_num_steps_with_name wf n) <> step_dir id'.
Proof. intros Hn. rewrite make_key_count by done. unfold step_dir. intros E%app_inv_head. by simplify_eq. Qed.

Lemma restored_files fs fs' :
  restored fs fs' ->
  (forall id nm, nm ∈ step_names -> sf fs' id nm = sf fs id nm /\ (vis fs id nm -> vis fs' id nm)) /\
  (forall n, good_name n -> cnt fs' n = cnt fs n) /\ (whole fs -> whole fs').
Proof.
  intros [H Hb]. split_and!.
  - intros id nm Hn. destruct (H _ (make_key_regular id nm Hn)) as [E S]. unfold sf, vis. by rewrite E.
  - intros n Hn. destruct (H _ (make_key_count_regular n Hn)) as [E _]. unfold cnt. by rewrite E.
  - intros (Hw & Hd & Hn). split; [|split; [by apply Hb|]].
    + intros q Hq. destruct (H q Hq) as [-> _]. by apply Hw.
    + intros id Hid. destruct (H _ (step_dir_regular id Hid)) as [-> _]. by apply Hn.
Qed.

Lemma shows_whole p fs x fs' :
  (length p <= length root + 4)%nat -> (forall id, id_ok id -> p <> step_dir id) ->
  whole fs -> x <> Some Partial -> shows p fs x fs' -> whole fs'.
Proof.
  intros Hl Hp0 (Hw & Hd & Hn) Hx (Hp & Ho & Hb). split; [|split; [by apply Hb|]].
  - intros q Hq. destruct (decide (q = p)) as [->|Hne]; [by rewrite Hp|]. unfold view. destruct (Ho q Hq Hne) as [-> ->]. by apply Hw.
  - intros id Hid. unfold view. destruct (Ho _ (step_dir_regular id Hid)) as [-> ->]; [|by apply Hn]. intros E. by apply (Hp0 id).
Qed.

Lemma shows_file_change id nm x fs fs' :
  nm ∈ step_names -> shows (make_key root (step_file wf id nm)) fs x fs' -> file_change id nm (whole_content x) fs fs'.
Proof.
  intros Hn (Hp & Ho & _). pose proof (step_names_ok _ Hn) as [_ Hne]. split.
  - unfold sf. by rewrite Hp.
  - intros id' nm' Hn' Hd. pose proof (step_names_ok _ Hn') as [_ Hne']. unfold sf, vis, view.
    destruct (Ho _ (make_key_regular id' nm' Hn')) as [-> ->]; [|done].
    intros E. apply make_key_inj in E as [-> ->]; done.
  - intros n Hg. unfold cnt, view. destruct (Ho _ (make_key_count_regular n Hg)) as [-> ->]; [|done].
    intros E. symmetry in E. apply make_key_count_step in E; [done | done | by apply good_nonempty].
Qed.

Lemma shows_count_change n x fs fs' :
  good_name n -> shows (make_key root (_key_num_steps_with_name wf n)) fs x fs' -> count_change n (whole_content x) fs fs'.
Proof.
  intros Hn (Hp & Ho & _). split.
  - unfold cnt. by rewrite Hp.
  - intros id' nm' Hn'. unfold sf, vis, view. destruct (Ho _ (make_key_regular id' nm' Hn')) as [-> ->]; [|done].
    apply make_key_count_step; [done | by apply good_nonempty].
  - intros n' Hg Hd. unfold cnt, view. destruct (Ho _ (make_key_count_regular n' Hg)) as [-> ->]; [|done].
    rewrite !make_key_count by (by apply good_nonempty). intros E%app_inv_head. by simplify_eq.
Qed.

(** ** Reading and writing *)

Lemma put_key_spec paths c fs0 :
  regular_path (make_key root paths) -> (length (make_key root paths) <= length root + 4)%nat ->
  (forall id, id_ok id -> make_key root paths <> step_dir id) -> whole fs0 ->
  triple_exn (fun d => files d = fs0) (_put uuid_hex root paths c)
    (fun _ d => shows (make_key root paths) fs0 (Some (Whole c)) (files d) /\ is_Some (files d !! make_key root paths) /\ whole (files d))
    (fun e d => e = Crashed /\ whole (files d) /\
       (shows (make_key root paths) fs0 (view fs0 (make_key root paths)) (files d) \/ shows (make_key root paths) fs0 (Some (Whole c)) (files d))).
Proof.
  intros Hr Hl Hd Hw. unfold _put. eapply exn_try; [eapply exn_conseq; [apply (put_spec uuid_hex uuid_is_hex _ Hr fs0 (Ok c) ltac:(done)) | done | | intros e d H; exact H]| |].
  - intros [] d (c' & [= <-] & Hs & Hi). split_and!; [done | done |]. by apply (shows_whole _ _ _ _ Hl Hd Hw) in Hs.
  - intros e He d [[-> _]|[? _]]; done.
  - intros e d _ [[-> H]|[? _]]; [|done]. split; [done|]. destruct H as [H|(c' & [= <-] & H)].
    + split; [|by left]. apply (shows_whole _ _ _ _ Hl Hd Hw) in H; [done|]. by apply Hw.
    + split; [|by right]. by apply (shows_whole _ _ _ _ Hl Hd Hw) in H.
Qed.

Lemma write_spec id nm c fs0 :
  nm ∈ step_names -> whole fs0 ->
  triple_exn (fun d => files d = fs0) (_put uuid_hex root (step_file wf id nm) c)
    (fun _ d => file_change id nm (Some c) fs0 (files d) /\ vis (files d) id nm /\ whole (files d))
    (fun e d => e = Crashed /\ whole (files d) /\ (file_change id nm (sf fs0 id nm) fs0 (files d) \/ file_change id nm (Some c) fs0 (files d))).
Proof.
  intros Hn Hw. eapply exn_conseq; [apply (put_key_spec _ c fs0 (make_key_regular id nm Hn) (make_key_length (step_file wf id nm) eq_refl) (fun id' H' => step_dir_file id id' nm Hn H') Hw) | done | |].
  - intros [] d (Hs & Hi & Hw'). split; [|done]. by apply shows_file_change in Hs.
  - intros e d (-> & Hw' & H). split; [done|]. split; [done|]. destruct H as [H|H]; apply shows_file_change in H; auto.
Qed.

Lemma write_count_spec n c fs0 :
  good_name n -> whole fs0 ->
  triple_exn (fun d => files d = fs0) (_put uuid_hex root (_key_num_steps_with_name wf n) c)
    (fun _ d => count_change n (Some c) fs0 (files d) /\ whole (files d))
    (fun e d => e = Crashed /\ whole (files d) /\ (count_change n (cnt fs0 n) fs0 (files d) \/ count_change n (Some c) fs0 (files d))).
Proof.
  intros Hn Hw. eapply exn_conseq; [apply (put_key_spec _ c fs0 (make_key_count_regular n Hn) (make_key_length_count _) (fun id' _ => step_dir_count n id' (good_nonempty n Hn)) Hw) | done | |].
  - intros [] d (Hs & Hi & Hw'). split; [|done]. by apply shows_count_change in Hs.
  - intros e d (-> & Hw' & H). split; [done|]. split; [done|]. destruct H as [H|H]; apply shows_count_change in H; auto.
Qed.

Lemma get_key_spec paths fs0 :
  regular_path (make_key root paths) -> whole fs0 ->
  triple_exn (fun d => files d = fs0) (_get root paths)
    (fun c d => restored fs0 (files d) /\ whole_content (view fs0 (make_key root paths)) = Some c)
    (fun e d => restored fs0 (files d) /\ (e = Crashed \/ (e = KeyNotFoundError /\ whole_content (view fs0 (make_key root paths)) = None))).
Proof.
  intros Hr (Hw & _ & _). unfold _get. eapply exn_try; [eapply exn_conseq; [apply (get_spec _ fs0 Hr) | done | | intros e d H; exact H]| |].
  - intros c d [H E]. split; [done|]. by rewrite E.
  - intros e He d [H [[-> _]|E]]; [done|]. specialize (Hw _ Hr). destruct (view fs0 (make_key root paths)) as [[c|]|]; cbn in E; [done..|].
    by injection E as <-.
  - intros e d He [H [[-> _]|E]]; [auto|]. specialize (Hw _ Hr). destruct (view fs0 (make_key root paths)) as [[c|]|]; cbn in E; [done..|].
    injection E as <-. auto.
Qed.

(** ** Operations that keep an invariant

    [P] may speak of the files above only. *)

Class Stable (P : fsys -> Prop) : Prop := {
  stable_restored fs fs' : restored fs fs' -> P fs -> P fs';
  stable_whole fs : P fs -> whole fs
}.

Lemma read_stable (P : fsys -> Prop) `{!Stable P} id nm :
  nm ∈ step_names ->
  triple_exn (fun d => P (files d)) (_get root (step_file wf id nm)) (fun c d => sf (files d) id nm = Some c /\ P (files d))
    (fun e d => P (files d) /\ (e = Crashed \/ (e = KeyNotFoundError /\ sf (files d) id nm = None))).
Proof.
  intros Hn d Hd. pose proof (get_key_spec _ (files d) (make_key_regular id nm Hn) (stable_whole _ Hd) d eq_refl) as H.
  destruct (_get root (step_file wf id nm) d) as [d' [c|e]]; destruct H as [Hr Hc].
  - destruct (restored_files _ _ Hr) as (E & _). destruct (E id nm Hn) as [E' _]. split; [by rewrite E' | by eapply stable_restored].
  - split; [by eapply stable_restored|]. destruct Hc as [->|[-> Hc]]; [by left|]. right. split; [done|].
    destruct (restored_files _ _ Hr) as (E & _). destruct (E id nm Hn) as [E' _]. by rewrite E'.
Qed.

Lemma read_count_stable (P : fsys -> Prop) `{!Stable P} n :
  good_name n ->
  triple_exn (fun d => P (files d)) (_get root (_key_num_steps_with_name wf n)) (fun c d => cnt (files d) n = Some c /\ P (files d))
    (fun e d => P (files d) /\ (e = Crashed \/ (e = KeyNotFoundError /\ cnt (files d) n = None))).
Proof.
  intros Hn d Hd. pose proof (get_key_spec _ (files d) (make_key_count_regular n Hn) (stable_whole _ Hd) d eq_refl) as H.
  destruct (_get root (_key_num_steps_with_name wf n) d) as [d' [c|e]]; destruct H as [Hr Hc].
  - destruct (restored_files _ _ Hr) as (_ & E & _). split; [by rewrite E | by eapply stable_restored].
  - split; [by eapply stable_restored|]. destruct Hc as [->|[-> Hc]]; [by left|]. right. split; [done|].
    destruct (restored_files _ _ Hr) as (_ & E & _). by rewrite E.
Qed.

(** What a step's directory lists *)
Lemma scan_step (P : fsys -> Prop) `{!Stable P} id :
  id_ok id ->
  triple_exn (fun d => P (files d)) (_scan root (_key_step_prefix wf id))
    (fun keys d => P (files d) /\ forall nm, nm ∈ step_names -> nm ∈ keys <-> vis (files d) id nm)
    (fun e d => False).
Proof.
  intros Hid0. pose proof Hid0 as (Hid & _ & _). unfold _scan. set (dir := make_key root (_key_step_prefix wf id)).
  assert (dir = root ++ [wf; STEPS_DIR; id]) as Edir.
  { unfold dir, make_key, _key_step_prefix. f_equal. rewrite !filter_cons. rewrite decide_True by done. rewrite decide_True by done.
    rewrite decide_True by done. by rewrite decide_False, filter_nil by (intros Hn; by apply Hn). }
  intros d Hd. unfold st_try, scan_prefix. st_simpl. pose proof (stable_whole _ Hd) as (_ & Hb & Hdir).
  case_bool_decide as Hf.
  { specialize (Hdir id Hid0). unfold step_dir, view in Hdir. rewrite <- Edir in Hdir. destruct Hf as [x Hx]. by rewrite Hx in Hdir. }
  split; [done|]. intros nm Hnm. pose proof (step_names_ok _ Hnm) as [_ Hne].
  assert (make_key root (step_file wf id nm) = dir ++ [nm]) as Ek by (rewrite make_key_step, bool_decide_false, Edir, <- app_assoc by done; done).
  assert (length dir = length root + 3)%nat as Hlen by (rewrite Edir, length_app; done).
  unfold vis. rewrite Ek. unfold children. rewrite elem_of_remove_dups, list_elem_of_omap. split.
  - intros ([q x] & Hq%elem_of_map_to_list & Hc). unfold child in Hc. cbn [fst] in Hc. case_bool_decide as Ht; [|done].
    specialize (Hb q (mk_is_Some _ _ Hq)). assert (q = dir ++ [nm]) as <-; [|eauto].
    rewrite <- (take_drop (length dir) q), Ht. f_equal. apply lookup_lt_Some in Hc as Hl.
    destruct (drop (length dir) q) as [|y r] eqn:Ed; [apply (f_equal length) in Ed; rewrite length_drop in Ed; cbn in Ed; lia|].
    assert (q !! length dir = Some y) as Hy by (rewrite <- (Nat.add_0_r (length dir)), <- lookup_drop, Ed; done).
    rewrite Hy in Hc. injection Hc as ->. apply (f_equal length) in Ed. rewrite length_drop in Ed. cbn in Ed. destruct r; [done|]. cbn in Ed. lia.
  - intros [x Hx]. exists (dir ++ [nm], x). split; [by apply elem_of_map_to_list|]. unfold child. cbn [fst].
    rewrite take_app_length, bool_decide_true by done. by rewrite list_lookup_middle.
Qed.

(** A write: what holds before, what after, and in between when the process dies *)
Lemma write_stable (P P' C : fsys -> Prop) `{!Stable P} id nm c :
  nm ∈ step_names ->
  (forall fs fs', P fs -> whole fs' -> file_change id nm (sf fs id nm) fs fs' -> C fs') ->
  (forall fs fs', P fs -> whole fs' -> file_change id nm (Some c) fs fs' -> C fs') ->
  (forall fs fs', P fs -> whole fs' -> file_change id nm (Some c) fs fs' -> vis fs' id nm -> P' fs') ->
  triple_exn (fun d => P (files d)) (_put uuid_hex root (step_file wf id nm) c) (fun _ d => P' (files d)) (fun e d => e = Crashed /\ C (files d)).
Proof.
  intros Hn H1 H2 H3 d Hd. pose proof (write_spec id nm c (files d) Hn (stable_whole _ Hd) d eq_refl) as H.
  destruct (_put uuid_hex root (step_file wf id nm) c d) as [d' [[]|e]].
  - destruct H as (Hc & Hv & Hw). by eapply H3.
  - destruct H as (-> & Hw & [H|H]); (split; [done|]); [by eapply H1 | by eapply H2].
Qed.

Lemma write_count_stable (P P' : fsys -> Prop) `{!Stable P} n c :
  good_name n ->
  (forall fs fs', P fs -> whole fs' -> count_change n (cnt fs n) fs fs' -> P' fs') ->
  (forall fs fs', P fs -> whole fs' -> count_change n (Some c) fs fs' -> P' fs') ->
  triple_exn (fun d => P (files d)) (_put uuid_hex root (_key_num_steps_with_name wf n) c)
    (fun _ d => P' (files d) /\ cnt (files d) n = Some c) (fun e d => e = Crashed /\ P' (files d)).
Proof.
  intros Hn H1 H2 d Hd. pose proof (write_count_spec n c (files d) Hn (stable_whole _ Hd) d eq_refl) as H.
  destruct (_put uuid_hex root (_key_num_steps_with_name wf n) c d) as [d' [[]|e]].
  - destruct H as (Hc & Hw). split; [by eapply H2 | apply Hc].
  - destruct H as (-> & Hw & [H|H]); (split; [done|]); [by eapply H1 | by eapply H2].
Qed.

End Files.
