(* ===== verification/WorkflowInv.v ===== *)
(** What the storage of a workflow holds at every moment: the steps that are
    stored whole, what they compute, and the invariant of the files. *)

From Stdlib Require Import ZArith Lia.
From stdpp Require Import base list strings option gmap pretty.
From S2P Require Import Prelude PyDict Hoare WorkflowFs WorkflowStorage WorkflowExec WorkflowFiles.

(** ** The reference semantics *)

Section Eval.
Context {Val Exc Func Args : Type}.
Abbreviation pywf := (@pywf Func Args).
Variable call : Func -> Args -> list Val -> nat -> @outcome Val Exc Func Args.
Variable result_and_exception : option Val -> option Exc -> Val.
Abbreviation eval := (eval call result_and_exception).
Implicit Types (p q : pywf).

Lemma mapM_mono {A B} (f g : A -> option B) l os :
  (forall x o, f x = Some o -> g x = Some o) -> mapM f l = Some os -> mapM g l = Some os.
Proof. intros H. rewrite !mapM_Some. intros Hl. eapply Forall2_impl; [exact Hl|]. cbn. auto. Qed.

Lemma eval_mono n p o : eval n p = Some o -> eval (S n) p = Some o.
Proof.
  revert p o. induction n as [|n IH]; intros p o; [done|]. intros H. cbn [WorkflowExec.eval] in H.
  apply bind_Some in H as (os & Hos & H). set (m := S n). cbn [WorkflowExec.eval].
  rewrite (mapM_mono _ (eval m) _ _ IH Hos). cbn [mbind option_bind]. destruct (resolve os) as [vs|e]; [|done].
  destruct (wrap _ _ _); [done..|]. by apply IH.
Qed.

Lemma eval_mono_le n m p o : (n <= m)%nat -> eval n p = Some o -> eval m p = Some o.
Proof. induction 1; [done|]. intros. by apply eval_mono, IHle. Qed.

Lemma eval_fun n m p o o' : eval n p = Some o -> eval m p = Some o' -> o = o'.
Proof.
  intros H H'. destruct (Nat.le_ge_cases n m) as [L|L]; [apply (eval_mono_le _ _ _ _ L) in H | apply (eval_mono_le _ _ _ _ L) in H']; congruence.
Qed.

(** [p]'s result is that of [q], which takes fewer steps; or at most as many. *)
Definition reduces p q : Prop := forall n o, eval (S n) p = Some o -> eval n q = Some o.
Definition leads p q : Prop := forall n o, eval n p = Some o -> eval n q = Some o.

Lemma reduces_leads p q : reduces p q -> leads p q.
Proof. intros H [|n] o; [done|]. intros E. by apply eval_mono, H. Qed.

Lemma reduces_trans p q r : reduces p q -> reduces q r -> reduces p r.
Proof. intros H H' n o E. apply H in E. destruct n as [|n]; [done|]. by apply eval_mono, H'. Qed.

(** What one step does when its inputs have results *)
Definition step_result p (vs : list Val) : wrapped :=
  wrap result_and_exception (catch_exceptions (opts p)) (call (func_body p) (args p) vs 0).

Lemma eval_step n p os vs :
  mapM (eval n) (inputs p) = Some os -> resolve os = inl vs ->
  eval (S n) p = match step_result p vs with WVal v => Some (OVal v) | WExc e => Some (OExc e) | WNested q => eval n q end.
Proof. intros H E. cbn [WorkflowExec.eval]. rewrite H. cbn [mbind option_bind]. by rewrite E. Qed.

Lemma nested_reduces n p os vs q :
  mapM (eval n) (inputs p) = Some os -> resolve os = inl vs -> step_result p vs = WNested q -> reduces p q.
Proof.
  intros H E Hq m o Hm. pose proof Hm as Hm'. cbn [WorkflowExec.eval] in Hm. apply bind_Some in Hm as (os' & Hos & _).
  assert (os' = os) as ->.
  { pose proof (mapM_mono _ (eval (n `max` m)) _ _ (fun x y => eval_mono_le _ _ x y (Nat.le_max_l _ _)) H).
    pose proof (mapM_mono _ (eval (n `max` m)) _ _ (fun x y => eval_mono_le _ _ x y (Nat.le_max_r _ _)) Hos). congruence. }
  rewrite (eval_step _ _ _ _ Hos E), Hq in Hm'. done.
Qed.

End Eval.

(** ** The invariant *)

Section Inv.
Context {names : StepNames} {Val Exc Func Args : Type}.
Abbreviation content := (@content Val Exc Func Args).
Abbreviation disk := (@disk content).
Abbreviation fsys := (gmap (list string) (@file content)).
Abbreviation pywf := (@pywf Func Args).
Variable root : list string.
Variable wf : string.
Hypothesis wf_nonempty : wf <> "".
Variable call : Func -> Args -> list Val -> nat -> @outcome Val Exc Func Args.
Variable result_and_exception : option Val -> option Exc -> Val.
Variable entry : pywf.
Abbreviation eval := (eval call result_and_exception).
Abbreviation reduces := (reduces call result_and_exception).
Abbreviation leads := (leads call result_and_exception).
Abbreviation sf := (sf root wf).
Abbreviation vis := (vis root wf).
Abbreviation cnt := (cnt root wf).
Abbreviation whole := (whole root wf).
Implicit Types (fs : fsys) (id nm : string) (p q : pywf).

(** A step that is stored with all its inputs *)
Inductive repr fs : string -> pywf -> Prop :=
| Repr id p ids :
    sf fs id STEP_INPUTS_METADATA = Some (CInputs ids (opts p)) ->
    sf fs id STEP_FUNC_BODY = Some (CFunc (func_body p)) -> vis fs id STEP_FUNC_BODY ->
    sf fs id STEP_ARGS = Some (CArgs (args p)) -> vis fs id STEP_ARGS ->
    (1 <= max_retries (opts p))%nat -> Forall2 (repr fs) ids (inputs p) -> repr fs id p.

(** The files that no operation changes once they are there *)
Definition core : list string := [STEP_INPUTS_METADATA; STEP_FUNC_BODY; STEP_ARGS].

(** Files are only added; outputs and counters may change, but stay. *)
Record ext fs fs' : Prop := {
  ext_core id nm c : nm ∈ core -> sf fs id nm = Some c -> sf fs' id nm = Some c;
  ext_vis id nm : nm ∈ core -> vis fs id nm -> vis fs' id nm;
  ext_outputs id nm : nm = STEP_OUTPUT \/ nm = STEP_OUTPUTS_METADATA -> is_Some (sf fs id nm) -> is_Some (sf fs' id nm);
  ext_count n k : good_name n -> cnt fs n = Some (CCount k) -> exists k', (k <= k')%nat /\ cnt fs' n = Some (CCount k')
}.

#[global] Instance ext_preorder : PreOrder ext.
Proof.
  split.
  - intros fs. split; eauto.
  - intros fs1 fs2 fs3 H H'. split.
    + intros. eapply (ext_core _ _ H'); [done|]. by eapply (ext_core _ _ H).
    + intros. apply (ext_vis _ _ H'); [done|]. by apply (ext_vis _ _ H).
    + intros. apply (ext_outputs _ _ H'); [done|]. by apply (ext_outputs _ _ H).
    + intros n k Hn Hk. destruct (ext_count _ _ H n k Hn Hk) as (k' & L & Hk'). destruct (ext_count _ _ H' n k' Hn Hk') as (k'' & L' & Hk'').
      exists k''. split; [lia | done].
Qed.

Lemma repr_mono fs fs' : ext fs fs' -> forall id p, repr fs id p -> repr fs' id p.
Proof.
  intros He. fix IH 3. intros id p [id' p' ids Hi Hf Hf' Ha Ha' Hm Hl].
  assert (forall nm, nm ∈ [STEP_INPUTS_METADATA; STEP_FUNC_BODY; STEP_ARGS] -> nm ∈ core) as Hc by done.
  econstructor; [eapply (ext_core _ _ He); [apply Hc; set_solver | exact Hi]
    | eapply (ext_core _ _ He); [apply Hc; set_solver | exact Hf] | eapply (ext_vis _ _ He); [apply Hc; set_solver | exact Hf']
    | eapply (ext_core _ _ He); [apply Hc; set_solver | exact Ha] | eapply (ext_vis _ _ He); [apply Hc; set_solver | exact Ha'] | exact Hm |].
  clear Hi. induction Hl; constructor; [by apply IH | assumption].
Qed.

(** A stored step determines what it computes. *)
Lemma repr_eval fs n : forall id p q, repr fs id p -> repr fs id q -> eval n p = eval n q.
Proof.
  induction n as [|n IH]; intros id p q Hp Hq; [done|].
  inversion Hp as [? ? ids Hi Hf _ Ha _ _ Hl]; subst. inversion Hq as [? ? ids' Hi' Hf' _ Ha' _ _ Hl']; subst.
  rewrite Hi in Hi'. rewrite Hf in Hf'. rewrite Ha in Ha'. injection Hi' as <- Ho. injection Hf' as Hf'. injection Ha' as Ha'.
  cbn [WorkflowExec.eval]. rewrite Ho, Hf', Ha'. assert (mapM (eval n) (inputs p) = mapM (eval n) (inputs q)) as ->; [|done].
  clear -IH Hl Hl'. revert Hl'. generalize (inputs q). induction Hl as [|id p' ids ps H _ IHl]; intros qs H'; inversion H' as [|? q' ? qs' Hq Hqs]; subst; [done|].
  cbn [mapM]. by rewrite (IH _ _ _ H Hq), (IHl _ Hqs).
Qed.

(** The id was given to a step. *)
Definition allocated fs id : Prop :=
  exists n i k, id = step_id_of n i /\ good_name n /\ cnt fs n = Some (CCount k) /\ (i <= k)%nat.

(** What a file of a step may hold; the driver's step has an empty id. *)
Definition file_ok fs id nm (c : content) : Prop :=
  (id = "" /\ (nm = WORKFLOW_PROGRESS \/ nm = STEP_OUTPUTS_METADATA /\ exists t, c = COutputs t None /\ repr fs t entry)) \/
  (allocated fs id /\
   (nm = STEP_OUTPUT -> exists p n v, repr fs id p /\ c = CVal v /\ eval n p = Some (OVal v)) /\
   (nm = STEP_OUTPUTS_METADATA ->
      exists p t q d, repr fs id p /\ c = COutputs t d /\ repr fs t q /\ reduces p q /\
        forall t', d = Some t' -> exists q', repr fs t' q' /\ reduces p q')).

Record Inv fs : Prop := {
  inv_whole : whole fs;
  inv_count n c : good_name n -> cnt fs n = Some c -> exists k, c = CCount k;
  inv_file id nm c : nm ∈ step_names -> sf fs id nm = Some c -> file_ok fs id nm c
}.

Lemma vis_sf fs id nm : nm ∈ step_names -> whole fs -> vis fs id nm -> is_Some (sf fs id nm).
Proof.
  intros Hn (Hw & _) [x Hx]. specialize (Hw _ (make_key_regular root wf wf_nonempty id nm Hn)). unfold WorkflowFiles.sf, view in *.
  rewrite Hx in *. destruct x; [cbn; eauto | done].
Qed.

Lemma allocated_ok fs id : allocated fs id -> id_ok id.
Proof. intros (n & i & k & -> & Hn & _). by apply step_id_ok. Qed.

Lemma allocated_mono fs fs' id : ext fs fs' -> allocated fs id -> allocated fs' id.
Proof.
  intros He (n & i & k & -> & Hn & Hk & L). destruct (ext_count _ _ He n k Hn Hk) as (k' & L' & Hk'). exists n, i, k'. split_and!; [done.. | lia].
Qed.

Lemma file_ok_mono fs fs' id nm c : ext fs fs' -> file_ok fs id nm c -> file_ok fs' id nm c.
Proof.
  intros He. pose proof (repr_mono _ _ He) as Hm. intros [(-> & H)|(Ha & H1 & H2)]; [left | right].
  - split; [done|]. destruct H as [H|(? & t & H & H')]; eauto 10.
  - split_and!; [by eapply allocated_mono | |].
    + intros E. destruct (H1 E) as (p & n & v & Hp & H). exists p, n, v. eauto.
    + intros E. destruct (H2 E) as (p & t & q & d & Hp & -> & Hq & Hr & Hd). exists p, t, q, d. split_and!; [eauto.. |].
      intros t' Ht. destruct (Hd t' Ht) as (q' & Hq' & ?). eauto.
Qed.

Lemma repr_allocated fs id p : Inv fs -> repr fs id p -> allocated fs id.
Proof.
  intros Hi [id' p' ids H _ _ _ _ _ _]. apply (inv_file _ Hi) in H; [|unfold step_names; set_solver].
  destruct H as [(_ & [H|[H _]])|[H _]]; done.
Qed.

(** ** Changes that keep the invariant *)

(** The files of the steps and the counters are as before. *)
Record same_files fs fs' : Prop := {
  same_sf id nm : nm ∈ step_names -> sf fs' id nm = sf fs id nm /\ (vis fs id nm -> vis fs' id nm);
  same_cnt n : good_name n -> cnt fs' n = cnt fs n;
  same_whole : whole fs -> whole fs'
}.

Lemma restored_same fs fs' : restored fs fs' -> same_files fs fs'.
Proof. by intros (H & Hc & Hw)%(restored_files root wf wf_nonempty). Qed.

Lemma same_ext fs fs' : same_files fs fs' -> ext fs fs'.
Proof.
  intros [H Hc _]. split.
  - intros id nm c Hn E. destruct (H id nm) as [-> _]; [|done]. revert Hn. unfold core, step_names. set_solver.
  - intros id nm Hn. apply H. revert Hn. unfold core, step_names. set_solver.
  - intros id nm Hn. destruct (H id nm) as [-> _]; [|done]. unfold step_names. set_solver.
  - intros n k Hn E. exists k. rewrite Hc by done. done.
Qed.

Lemma same_inv fs fs' : same_files fs fs' -> Inv fs -> Inv fs'.
Proof.
  intros Hr Hi. pose proof (same_ext _ _ Hr) as He. destruct Hr as [H Hc Hw]. split.
  - by apply Hw, Hi.
  - intros n c Hn. rewrite Hc by done. by apply (inv_count _ Hi).
  - intros id nm c Hn. destruct (H id nm Hn) as [-> _]. intros E. eapply file_ok_mono; [done|]. by apply (inv_file _ Hi).
Qed.

Lemma restored_ext fs fs' : restored fs fs' -> ext fs fs'.
Proof. by intros H%restored_same%same_ext. Qed.

Lemma restored_inv fs fs' : restored fs fs' -> Inv fs -> Inv fs'.
Proof. by intros H%restored_same; apply same_inv. Qed.

(** A file that readers see changes, or is added. *)
Lemma file_change_ext id nm (x : option content) fs fs' :
  nm ∈ step_names -> whole fs -> (nm ∈ core -> sf fs id nm = None) -> is_Some x \/ x = sf fs id nm ->
  file_change root wf id nm x fs fs' -> ext fs fs'.
Proof.
  intros Hn Hw Hc Hx H. split.
  - intros id' nm' c Hn' E. assert (nm' ∈ step_names) by (revert Hn'; unfold core, step_names; set_solver).
    destruct (decide ((id', nm') = (id, nm))) as [[= -> ->]|Hd]; [by rewrite Hc in E|]. destruct (fc_other _ _ _ _ _ _ _ H id' nm') as [-> _]; done.
  - intros id' nm' Hn' E. assert (nm' ∈ step_names) by (revert Hn'; unfold core, step_names; set_solver).
    destruct (decide ((id', nm') = (id, nm))) as [[= -> ->]|Hd]; [|by apply (fc_other _ _ _ _ _ _ _ H)].
    destruct (vis_sf fs id nm Hn Hw E) as [c E']. by rewrite Hc in E'.
  - intros id' nm' Hn' E. assert (nm' ∈ step_names) by (revert Hn'; unfold step_names; set_solver).
    destruct (decide ((id', nm') = (id, nm))) as [[= -> ->]|Hd].
    + rewrite (fc_here _ _ _ _ _ _ _ H). destruct Hx as [Hx | ->]; done.
    + destruct (fc_other _ _ _ _ _ _ _ H id' nm') as [-> _]; done.
  - intros n k Hg E. exists k. rewrite (fc_count _ _ _ _ _ _ _ H) by done. done.
Qed.

Lemma file_change_inv id nm (x : option content) fs fs' :
  nm ∈ step_names -> Inv fs -> whole fs' -> ext fs fs' -> (forall c, x = Some c -> file_ok fs' id nm c) ->
  file_change root wf id nm x fs fs' -> Inv fs'.
Proof.
  intros Hn Hi Hw He Hx H. split; [done | |].
  - intros n c Hg. rewrite (fc_count _ _ _ _ _ _ _ H) by done. by apply (inv_count _ Hi).
  - intros id' nm' c Hn' E. destruct (decide ((id', nm') = (id, nm))) as [[= -> ->]|Hd].
    + apply Hx. by rewrite <- (fc_here _ _ _ _ _ _ _ H).
    + destruct (fc_other _ _ _ _ _ _ _ H id' nm' Hn' Hd) as [E' _]. rewrite E' in E. eapply file_ok_mono; [done|]. by apply (inv_file _ Hi).
Qed.

Lemma count_change_ext n k (x : option content) fs fs' :
  Inv fs -> x = cnt fs n \/ x = Some (CCount k) -> (forall j, cnt fs n = Some (CCount j) -> (j <= k)%nat) ->
  count_change root wf n x fs fs' -> ext fs fs'.
Proof.
  intros Hi Hx Hk H. split.
  - intros id nm c Hn E. destruct (cc_file _ _ _ _ _ _ H id nm) as [-> _]; [|done]. revert Hn. unfold core, step_names. set_solver.
  - intros id nm Hn. apply (cc_file _ _ _ _ _ _ H). revert Hn. unfold core, step_names. set_solver.
  - intros id nm Hn. destruct (cc_file _ _ _ _ _ _ H id nm) as [-> _]; [|done]. unfold step_names. set_solver.
  - intros n' j Hg E. destruct (decide (n' = n)) as [->|Hd].
    + rewrite (cc_here _ _ _ _ _ _ H). destruct Hx as [-> | ->]; [by exists j|]. exists k. split; [by apply Hk | done].
    + exists j. rewrite (cc_count _ _ _ _ _ _ H) by done. done.
Qed.

Lemma count_change_inv n k (x : option content) fs fs' :
  Inv fs -> whole fs' -> ext fs fs' -> x = cnt fs n \/ x = Some (CCount k) -> count_change root wf n x fs fs' -> Inv fs'.
Proof.
  intros Hi Hw He Hx H. split; [done | |].
  - intros n' c Hg. destruct (decide (n' = n)) as [->|Hd].
    + rewrite (cc_here _ _ _ _ _ _ H). destruct Hx as [-> | ->]; [by apply (inv_count _ Hi)|]. intros [= <-]. eauto.
    + rewrite (cc_count _ _ _ _ _ _ H) by done. by apply (inv_count _ Hi).
  - intros id nm c Hn. destruct (cc_file _ _ _ _ _ _ H id nm Hn) as [-> _]. intros E. eapply file_ok_mono; [done|]. by apply (inv_file _ Hi).
Qed.

End Inv.
