(* ===== verification/WorkflowDag.v ===== *)
(** The objects of a workflow: [_iter_workflows_in_dag] visits each exactly once. *)

From Stdlib Require Import ZArith Lia.
From stdpp Require Import base list strings option gmap pretty.
From S2P Require Import Prelude PyDict WorkflowFs WorkflowStorage WorkflowExec WorkflowFiles.

Section Dag.
Context {names : StepNames} {Func Args : Type}.
Abbreviation pywf := (@pywf Func Args).
Implicit Types (w x y p : pywf).

Section Ind.
Variable P : pywf -> Prop.
Hypothesis step : forall w, Forall P (inputs w) -> P w.
Fixpoint pywf_ind' w : P w :=
  match w with
  | PyWF i s f a l o =>
      step (PyWF i s f a l o) ((fix go l := match l return Forall P l with [] => @List.Forall_nil _ P | x :: l' => @List.Forall_cons _ P x l' (pywf_ind' x) (go l') end) l)
  end.
End Ind.

Lemma nodes_unfold w : nodes w = w :: concat (map nodes (inputs w)).
Proof. by destruct w. Qed.

Lemma node_self w : w ∈ nodes w.
Proof. rewrite nodes_unfold. by left. Qed.

Lemma node_below w x : x ∈ concat (map nodes (inputs w)) <-> exists y, y ∈ inputs w /\ x ∈ nodes y.
Proof.
  rewrite list_elem_of_In, in_concat. split.
  - intros (l & Hl & Hx). apply in_map_iff in Hl as (y & <- & Hy). exists y. by rewrite !list_elem_of_In.
  - intros (y & Hy & Hx). exists (nodes y). rewrite in_map_iff. split; [exists y; split; [done|] |]; by apply list_elem_of_In.
Qed.

Lemma node_cases w x : x ∈ nodes w <-> x = w \/ exists y, y ∈ inputs w /\ x ∈ nodes y.
Proof. rewrite nodes_unfold, elem_of_cons, node_below. done. Qed.

Lemma node_input w x y : x ∈ nodes w -> y ∈ inputs x -> y ∈ nodes w.
Proof.
  revert x. induction w as [w IH] using pywf_ind'. intros x Hx Hy. apply node_cases. right. apply node_cases in Hx as [->|(z & Hz & Hx)].
  - exists y. split; [done | apply node_self].
  - exists z. split; [done|]. rewrite Forall_forall in IH. by eapply IH.
Qed.

(** A node below is smaller. *)
Lemma node_size w x : x ∈ nodes w -> (length (nodes x) <= length (nodes w))%nat.
Proof.
  induction w as [w IH] using pywf_ind'. rewrite Forall_forall in IH. intros [->|(y & Hy & Hx)]%node_cases; [done|].
  specialize (IH y Hy Hx). etransitivity; [exact IH|]. rewrite (nodes_unfold w). cbn [length].
  apply list_elem_of_split in Hy as (l1 & l2 & ->). rewrite map_app, concat_app, length_app. cbn [map concat]. rewrite length_app. lia.
Qed.

Lemma below_size w x : x ∈ concat (map nodes (inputs w)) -> (length (nodes x) < length (nodes w))%nat.
Proof.
  intros (y & Hy & Hx)%node_below. apply node_size in Hx. rewrite (nodes_unfold w). cbn [length].
  apply list_elem_of_split in Hy as (l1 & l2 & ->). rewrite map_app, concat_app, length_app. cbn [map concat]. rewrite length_app. lia.
Qed.

(** Workflows whose steps have good names, are tried at least once, and are the
    same object when they have the same identity *)
Definition fine w : Prop :=
  (forall x, x ∈ nodes w -> good_name (name x) /\ (1 <= max_retries (opts x))%nat) /\
  (forall x y, x ∈ nodes w -> y ∈ nodes w -> oid x = oid y -> x = y).

Lemma fine_set_catch w : fine w -> fine (set_catch w).
Proof.
  intros [H1 H2]. assert (forall x, x ∈ nodes (set_catch w) -> x = set_catch w \/ (x ∈ nodes w /\ x <> w)) as Hx.
  { intros x [->|(y & Hy & Hx)]%node_cases; [by left|]. right. split; [apply node_cases; right; eauto|]. intros ->.
    assert (w ∈ concat (map nodes (inputs w))) as Hb by (apply node_below; eauto). apply below_size in Hb. lia. }
  split.
  - intros x [->|[Hn _]]%Hx; [|by apply H1]. apply (H1 w (node_self w)).
  - intros x y [->|[Hn Hw]]%Hx [->|[Hn' Hw']]%Hx E; [done | | |by apply H2].
    + by destruct Hw'; apply H2; [|apply node_self|].
    + by destruct Hw; apply H2; [|apply node_self|].
Qed.

(** ** Breadth-first search *)

Lemma enqueue_all ps : forall (q : list pywf) v, NoDup v ->
  exists new, foldl enqueue (q, v) ps = (q ++ new, v ++ map oid new) /\ NoDup (v ++ map oid new) /\
    (forall x, x ∈ new -> x ∈ ps) /\ forall p, p ∈ ps -> oid p ∈ v ++ map oid new.
Proof.
  induction ps as [|p ps IH]; intros q v Hv; cbn [foldl].
  { exists []. cbn. rewrite !app_nil_r. split_and!; [done | done | set_solver | set_solver]. }
  unfold enqueue at 2. cbn [fst snd]. case_bool_decide as Hp.
  - destruct (IH q v Hv) as (new & -> & Hd & Hn & Ha). exists new. split_and!; [done | done | set_solver|].
    intros x [->|Hx]%elem_of_cons; [apply elem_of_app; by left | by apply Ha].
  - destruct (IH (q ++ [p]) (v ++ [oid p])) as (new & -> & Hd & Hn & Ha).
    { apply list.NoDup_app. split_and!; [done | set_solver | apply list.NoDup_singleton]. }
    exists (p :: new). cbn [map]. rewrite <- !app_assoc in *. cbn in *. split_and!; [done | done | set_solver|].
    intros x [->|Hx]%elem_of_cons; [set_solver | by apply Ha].
Qed.

Lemma length_le_oids (l N : list pywf) : NoDup (map oid l) -> (forall x, x ∈ l -> x ∈ N) -> (length l <= length N)%nat.
Proof.
  intros Hd Hs. rewrite <- (length_map oid l), <- (length_map oid N). apply NoDup_incl_length; [by apply NoDup_ListNoDup|].
  intros i (x & <- & Hx)%in_map_iff. apply in_map. apply list_elem_of_In. by apply Hs, list_elem_of_In.
Qed.

Lemma bfs_spec (N : list pywf) :
  (forall x y, x ∈ N -> y ∈ inputs x -> y ∈ N) ->
  forall n done q, (forall x, x ∈ done ++ q -> x ∈ N) -> NoDup (map oid (done ++ q)) -> (length N <= n + length done)%nat ->
  (forall x y, x ∈ done -> y ∈ inputs x -> oid y ∈ map oid (done ++ q)) ->
  let R := done ++ bfs n q (map oid (done ++ q)) in
  NoDup (map oid R) /\ (forall x, x ∈ R -> x ∈ N) /\ (forall x, x ∈ done ++ q -> x ∈ R) /\
  forall x y, x ∈ R -> y ∈ inputs x -> oid y ∈ map oid R.
Proof.
  intros HN. assert (forall m v, bfs m [] v = @nil pywf) as Hnil by (by intros []). induction n as [|n IH]; intros done q Hs Hd Hf Hi; cbn zeta.
  - assert (q = []) as ->; [|by rewrite Hnil, app_nil_r in *].
    apply length_le_oids in Hs; [|done]. rewrite length_app in Hs. destruct q; [done|]. cbn in Hs. lia.
  - destruct q as [|w q]; [by rewrite Hnil, app_nil_r in *|]. cbn [bfs].
    destruct (enqueue_all (inputs w) q (map oid (done ++ w :: q)) Hd) as (new & -> & Hd' & Hn & Ha).
    specialize (IH (done ++ [w]) (q ++ new)).
    assert ((done ++ [w]) ++ q ++ new = (done ++ w :: q) ++ new) as E by (by rewrite <- !app_assoc).
    rewrite E, map_app in IH. destruct IH as (H1 & H2 & H3 & H4).
    + intros x Hx. apply elem_of_app in Hx as [Hx|Hx]; [by apply Hs|]. apply (HN w); [apply Hs; set_solver | by apply Hn].
    + done.
    + rewrite length_app. cbn. lia.
    + intros x y Hx Hy. apply elem_of_app in Hx as [Hx|Hx%list_elem_of_singleton]; [|subst; by apply Ha].
      apply elem_of_app. left. by eapply Hi.
    + assert (forall R, done ++ w :: R = (done ++ [w]) ++ R) as Ew by (intros; by rewrite <- app_assoc). rewrite (Ew (bfs _ _ _)).
      split_and!; [done | done | | done]. intros x Hx. apply H3. apply elem_of_app. by left.
Qed.

(** Every object is visited, once. *)
Lemma iter_workflows_spec w :
  fine w -> NoDup (map oid (_iter_workflows_in_dag w)) /\ forall x, x ∈ _iter_workflows_in_dag w <-> x ∈ nodes w.
Proof.
  intros [_ Hc]. destruct (bfs_spec (nodes w) (node_input w) (length (nodes w)) [] [w]) as (H1 & H2 & H3 & H4).
  - intros x ->%list_elem_of_singleton. apply node_self.
  - apply list.NoDup_singleton.
  - cbn. lia.
  - set_solver.
  - unfold _iter_workflows_in_dag. cbn [app map] in *. split; [done|]. intros x. split; [by apply H2|].
    assert (forall w' x, w' ∈ bfs (length (nodes w)) [w] [oid w] -> x ∈ nodes w' -> x ∈ bfs (length (nodes w)) [w] [oid w]) as Hall.
    { clear x. induction w' as [w' IH] using pywf_ind'. intros x Hw [->|(y & Hy & Hx)]%node_cases; [done|]. rewrite Forall_forall in IH.
      eapply IH; [done | | done]. destruct (proj1 (list_elem_of_fmap _ _ _) (H4 w' y Hw Hy)) as (z & Ez & Hz).
      rewrite (Hc y z); [done | | by apply H2 | done]. apply (node_input w w'); [by apply H2 | done]. }
    intros Hx. apply (Hall w); [|done]. apply H3. set_solver.
Qed.

End Dag.
