(* ===== verification/WorkflowAlive.v ===== *)
(** A process that is not killed never stops with [Crashed]: every operation of
    the storage and of the executor returns or raises what Python raises. *)

From Stdlib Require Import ZArith Lia.
From stdpp Require Import base list strings option gmap pretty.
From S2P Require Import Prelude PyDict Hoare WorkflowFs WorkflowStorage WorkflowManager WorkflowExec.

(** [m] keeps the process alive. *)
Definition calm {S A} (lives : S -> Prop) (m : ST S A) : Prop :=
  triple_exn lives m (fun _ => lives) (fun e s => lives s /\ e <> Crashed).

Create HintDb calm.

Section Rules.
Context {S : Type} (lives : S -> Prop).

Lemma calm_ret {A} (a : A) : calm lives (mret a).
Proof. by intros s Hs. Qed.
Lemma calm_raise {A} e : e <> Crashed -> calm lives (@st_raise S A e).
Proof. by intros He s Hs. Qed.
Lemma calm_gets {A} (f : S -> A) : calm lives (st_gets f).
Proof. by intros s Hs. Qed.
Lemma calm_bind {A B} (m : ST S A) (k : A -> ST S B) : calm lives m -> (forall a, calm lives (k a)) -> calm lives (m ≫= k).
Proof. intros Hm Hk. eapply exn_bind; [exact Hm|]. exact Hk. Qed.
Lemma calm_try {A} (m : ST S A) c h : calm lives m -> (forall e, e <> Crashed -> calm lives (h e)) -> calm lives (st_try m c h).
Proof.
  intros Hm Hh. eapply exn_try; [exact Hm | |].
  - intros e _ s [Hs He]. by apply (Hh e He s).
  - by intros e s _ H.
Qed.
Lemma calm_for {A} (l : list A) (f : A -> ST S unit) : (forall x, calm lives (f x)) -> calm lives (st_for l f).
Proof. intros H. induction l; cbn [st_for]; [apply calm_ret | apply calm_bind; auto]. Qed.
Lemma calm_map {A B} (f : A -> ST S B) l : (forall x, calm lives (f x)) -> calm lives (st_map f l).
Proof. intros H. induction l; cbn [st_map]; [apply calm_ret|]. apply calm_bind; [auto|]. intros y. apply calm_bind; [auto|]. intros ys. apply calm_ret. Qed.
Lemma calm_lift {A} (r : result A) : r <> Err Crashed -> calm lives (st_lift r).
Proof. intros H s Hs. unfold st_lift. destruct r; [done|]. split; [done | congruence]. Qed.
End Rules.

#[export] Hint Resolve calm_ret calm_raise calm_gets calm_bind calm_try calm_for calm_map calm_lift : calm.

(** The rules, and a case for every [match] *)
Ltac calm :=
  repeat first
    [ solve [eauto 3 with calm nocore]
    | apply calm_bind; [|intros ?]
    | apply calm_try; [|intros ? ?]
    | apply calm_for; intros ?
    | apply calm_map; intros ?
    | apply calm_raise; congruence
    | match goal with |- calm _ (match ?x with _ => _ end) => destruct x eqn:? end
    | match goal with |- calm _ (let '(_, _) := ?x in _) => destruct x end ].

Section Storage.
Context {Val Exc Func Args : Type}.
Abbreviation disk := (@disk (@content Val Exc Func Args)).
Variable uuid_hex : nat -> string.
Variable root : list string.
Variable wf : string.
Abbreviation alive := (fun d : disk => left d = None).

Lemma put_calm p c : calm alive (put uuid_hex p (Ok c)).
Proof. eapply exn_conseq; [apply (put_alive uuid_hex p (Ok c)) | done | done | done]. Qed.

Lemma change_calm f : calm alive (change f).
Proof. apply change_alive. Qed.
#[local] Hint Resolve change_calm : calm.

Lemma get_calm p : calm alive (get (Content := @content Val Exc Func Args) p).
Proof.
  unfold get, open_atomic_r, _file_exists, exists_file, rename. calm.
Qed.
#[local] Hint Resolve put_calm get_calm : calm.

Lemma _put_calm paths c : calm alive (_put uuid_hex root paths c).
Proof. unfold _put. calm. Qed.
Lemma _get_calm paths : calm alive (_get (Val := Val) (Exc := Exc) (Func := Func) (Args := Args) root paths).
Proof. unfold _get. calm. Qed.
Lemma _scan_calm paths : calm alive (_scan (Val := Val) (Exc := Exc) (Func := Func) (Args := Args) root paths).
Proof. unfold _scan, scan_prefix. calm. Qed.
#[local] Hint Resolve _put_calm _get_calm _scan_calm : calm.

Abbreviation load_step_output := (@load_step_output Val Exc Func Args root wf).

Lemma get_no_exception_calm paths :
  triple_exn alive (@get_no_exception Val Exc Func Args root paths) (fun r d => r <> Err Crashed /\ left d = None) (fun e d => left d = None /\ e <> Crashed).
Proof.
  unfold get_no_exception. eapply exn_try.
  - eapply exn_bind; [apply _get_calm|]. intros c d Hd. done.
  - intros e _ d [Hd He]. cbn. split; [congruence | done].
  - by intros e d _ H.
Qed.

Lemma load_step_output_calm id : calm alive (load_step_output id).
Proof.
  eapply exn_bind; [apply get_no_exception_calm|]. intros r. apply exn_pure. intros Hr. eapply exn_bind; [apply get_no_exception_calm|].
  intros x. apply exn_pure. intros Hx.
  destruct r as [[]|e], x as [[]|e']; apply calm_ret || (apply calm_raise; congruence).
Qed.

Lemma update_dynamic_calm o id : calm alive (@_update_dynamic_output Val Exc Func Args uuid_hex root wf o id).
Proof. unfold _update_dynamic_output. calm. Qed.
#[local] Hint Resolve load_step_output_calm update_dynamic_calm : calm.

Lemma locate_calm id : calm alive (@_locate_output_step_id Val Exc Func Args root wf id).
Proof. unfold _locate_output_step_id. calm. Qed.
#[local] Hint Resolve locate_calm : calm.

Lemma entrypoint_calm : calm alive (@get_entrypoint_step_id Val Exc Func Args root wf).
Proof. unfold get_entrypoint_step_id. calm. Qed.

Lemma inspect_calm id : calm alive (@inspect_step Val Exc Func Args root wf id).
Proof. unfold inspect_step. calm. Qed.

Lemma gen_step_id_calm n : calm alive (@gen_step_id Val Exc Func Args uuid_hex root wf n).
Proof. unfold gen_step_id, gen_step_index. calm. Qed.

Lemma load_args_calm id : calm alive (@load_step_args Val Exc Func Args root wf id).
Proof. unfold load_step_args. calm. Qed.
#[local] Hint Resolve entrypoint_calm inspect_calm gen_step_id_calm load_args_calm : calm.

(** ** The executor *)

Variable call : Func -> Args -> list Val -> nat -> @outcome Val Exc Func Args.
Variable result_and_exception : option Val -> option Exc -> Val.
Variable none : Val.
Variable of_exn : exn -> Exc.

Lemma assert_calm b : calm alive (st_lift (py_assert b)).
Proof. apply calm_lift. by destruct b. Qed.
#[local] Hint Resolve assert_calm : calm.

Lemma commit_nested_calm id w : calm alive (@commit_nested Val Exc Func Args uuid_hex root wf id w).
Proof. unfold commit_nested, gen_ids, _write_step_inputs, write_file_of, save_nested_output. calm. Qed.

Lemma retry_calm k : forall i (run : nat -> ST disk (@outcome Val Exc Func Args)) last, (forall i, calm alive (run i)) -> calm alive (retry k i run last).
Proof. induction k as [|k IH]; intros i run last H; cbn [retry]; calm. Qed.

(** The manager and the execution *)
Abbreviation manager := (manager disk string).
Abbreviation aliveM := (fun g : manager => left (_store g) = None).
Abbreviation aliveW := (fun s : @world Val Exc Func Args => left (w_disk s) = None).

Lemma in_store_calm {A : Type} (m : ST disk A) : calm alive m -> calm aliveM (in_store m).
Proof. intros H g Hg. specialize (H (_store g) Hg). unfold in_store, st_zoom. by destruct (m (_store g)) as [d [a|e]]. Qed.
Lemma on_manager_calm {A : Type} (m : ST manager A) : calm aliveM m -> calm aliveW (on_manager m).
Proof. intros H s Hs. specialize (H (w_manager s) Hs). unfold on_manager, st_zoom. by destruct (m (w_manager s)) as [g [a|e]]. Qed.
Lemma on_disk_calm {A : Type} (m : ST disk A) : calm alive m -> calm aliveW (on_disk m).
Proof. intros H. by apply on_manager_calm, in_store_calm. Qed.
Lemma set_outputs_calm f : calm aliveM (set_outputs f).
Proof. by intros g Hg. Qed.
Lemma set_cache_calm f : calm aliveM (set_cache f).
Proof. by intros g Hg. Qed.
Lemma set_status_calm f : calm aliveM (set_status f).
Proof. by intros g Hg. Qed.
#[local] Hint Resolve in_store_calm on_manager_calm on_disk_calm set_outputs_calm set_cache_calm set_status_calm : calm.

Lemma update_step_status_calm sid st : calm aliveM (update_step_status (StoreOps0 := ops uuid_hex root) wf sid st).
Proof. unfold update_step_status. cbn [save_meta save_postrun ops disk_ops]. unfold save_workflow_meta, save_workflow_postrun_metadata. calm. Qed.
#[local] Hint Resolve update_step_status_calm : calm.

Lemma run_or_resume_calm : calm aliveM (run_or_resume (StoreOps0 := ops uuid_hex root) (fun _ sid _ => sid) wf false).
Proof.
  unfold run_or_resume. cbn [save_meta save_prerun entrypoint ops disk_ops]. unfold save_workflow_meta, save_workflow_prerun_metadata. calm.
Qed.
#[local] Hint Resolve run_or_resume_calm : calm.

Lemma wrap_run_calm id body a vs o : calm aliveW (_wrap_run uuid_hex root wf call result_and_exception none of_exn id body a vs o).
Proof.
  unfold _wrap_run, _record_step_status. apply calm_bind; [|intros r; calm]. apply on_disk_calm, retry_calm. intros i. unfold attempt, load_step_func_body. calm.
Qed.

Lemma save_output_calm c id v : calm alive (@save_output Val Exc Func Args uuid_hex root wf c id v).
Proof. unfold save_output, save_value, advance_progress. calm. Qed.
#[local] Hint Resolve commit_nested_calm wrap_run_calm save_output_calm : calm.

Lemma run_step_calm c id body a vs o : calm aliveW (run_step uuid_hex root wf call result_and_exception none of_exn c id body a vs o).
Proof. unfold run_step, write_file_of, save_exception, _record_step_status. calm. Qed.

Lemma record_calm id o : calm aliveW (@record Val Exc Func Args id o).
Proof. by intros s Hs. Qed.
#[local] Hint Resolve run_step_calm record_calm : calm.

Lemma execute_calm n : forall c w, calm aliveW (execute_workflow uuid_hex root wf call result_and_exception none of_exn n c w).
Proof. induction n as [|n IH]; intros c [id body a ins o]; cbn [execute_workflow]; unfold _record_step_status; calm. Qed.

Lemma load_input_calm r : calm alive (@load_input Val Exc Func Args root wf r).
Proof. unfold load_input. calm. Qed.
#[local] Hint Resolve load_input_calm : calm.

Lemma construct_inputs_calm construct ids : (forall id m, calm alive (construct id m)) -> forall m,
  calm alive (@construct_inputs Val Exc Func Args root wf construct ids m).
Proof. intros H. unfold construct_inputs. induction ids as [|id ids IH]; intros m; calm. Qed.

Lemma construct_calm n : forall id m, calm alive (@_construct_resume_workflow_from_step Val Exc Func Args root wf n id m).
Proof.
  induction n as [|n IH]; intros id m; cbn [_construct_resume_workflow_from_step]; calm. by apply construct_inputs_calm.
Qed.
#[local] Hint Resolve execute_calm construct_calm : calm.

Lemma resume_executor_calm n id : calm aliveW (_resume_workflow_step_executor uuid_hex root wf call result_and_exception none of_exn n id).
Proof. unfold _resume_workflow_step_executor. calm. Qed.
#[local] Hint Resolve resume_executor_calm : calm.

Lemma resume_calm n : calm alive (resume uuid_hex root wf call result_and_exception none of_exn n).
Proof.
  unfold resume. set (m := _ ≫= _). assert (calm aliveW m) as H by (unfold m; calm).
  intros d Hd. unfold in_new_process. specialize (H (mkWorld (mkManager d [] [] []) []) Hd). by destruct (m _) as [s [x|e]].
Qed.
#[local] Hint Resolve resume_calm : calm.

(** A run that is not killed does not crash. *)
Lemma run_calm n w : calm alive (run uuid_hex root wf call result_and_exception none of_exn n w).
Proof. unfold run, save_workflow_user_metadata. calm. Qed.

End Storage.
