(* ===== verification/WorkflowCommit.v ===== *)
(** Storing the steps of a workflow ([commit_step] of [workflow/step_executor.py]):
    step ids are new, the files of the steps are written before the file that
    leads to them, and a crash in between leaves the invariant. *)

From Stdlib Require Import ZArith Lia.
From stdpp Require Import base list strings option gmap pretty.
From S2P Require Import Prelude PyDict Hoare WorkflowFs WorkflowStorage WorkflowExec WorkflowFiles WorkflowInv WorkflowDag.

Section Commit.
Context {names : StepNames} {Val Exc Func Args : Type}.
Abbreviation content := (@content Val Exc Func Args).
Abbreviation disk := (@disk content).
Abbreviation fsys := (gmap (list string) (@file content)).
Abbreviation pywf := (@pywf Func Args).
Variable uuid_hex : nat -> string.
Hypothesis uuid_is_hex : forall n, is_hex (uuid_hex n).
Variable root : list string.
Variable wf : string.
Hypothesis wf_nonempty : wf <> "".
Variable call : Func -> Args -> list Val -> nat -> @outcome Val Exc Func Args.
Variable result_and_exception : option Val -> option Exc -> Val.
Variable entry : pywf.
Abbreviation eval := (eval call result_and_exception).
Abbreviation reduces := (reduces call result_and_exception).
Abbreviation leads := (leads call result_and_exception).
Abbreviation sf := (sf root wf).
Abbreviation vis := (vis root wf).
Abbreviation cnt := (cnt root wf).
Abbreviation whole := (whole root wf).
Abbreviation repr := (repr root wf).
Abbreviation ext := (ext root wf).
Abbreviation Inv := (Inv root wf call result_and_exception entry).
Abbreviation file_ok := (file_ok root wf call result_and_exception entry).
Abbreviation allocated := (allocated root wf).
Implicit Types (fs : fsys) (id nm : string) (p q : pywf).

(** ** The invariant of an operation that started with the files [fs0] *)

Definition Good fs0 fs : Prop := Inv fs /\ ext fs0 fs.
Definition crashed fs0 (e : exn) (d : disk) : Prop := e = Crashed /\ Good fs0 (files d).

Lemma good_refl fs : Inv fs -> Good fs fs.
Proof. intros H. split; [done | reflexivity]. Qed.

Lemma good_trans fs0 fs1 fs : ext fs0 fs1 -> Good fs1 fs -> Good fs0 fs.
Proof. intros H [H1 H2]. split; [done | by etransitivity]. Qed.

#[global] Instance good_stable fs0 : Stable root wf (Good fs0).
Proof.
  split.
  - intros fs fs' Hr [Hi He]. split; [by eapply restored_inv|]. etransitivity; [done|]. by apply restored_ext.
  - intros fs [Hi _]. apply Hi.
Qed.

(** Facts that are kept when backups are restored *)
Lemma stable_and (P F : fsys -> Prop) :
  Stable root wf P -> (forall fs fs', P fs -> restored fs fs' -> F fs -> F fs') -> Stable root wf (fun fs => P fs /\ F fs).
Proof.
  intros HP HF. split.
  - intros fs fs' Hr [Hp Hf]. split; [by eapply stable_restored | by eapply HF].
  - intros fs [Hp _]. by eapply stable_whole.
Qed.

(** The files at this moment are the start of what follows. *)
Lemma good_now {A : Type} (F : fsys -> Prop) fs0 (m : ST disk A) Q R :
  (forall fs1, ext fs0 fs1 -> Inv fs1 -> F fs1 -> triple_exn (fun d => Good fs1 (files d)) m Q R) ->
  triple_exn (fun d => Good fs0 (files d) /\ F (files d)) m Q R.
Proof. intros H d [[Hi He] Hf]. by apply (H (files d) He Hi Hf), good_refl. Qed.

Lemma repr_sf fs id p : repr fs id p -> is_Some (sf fs id STEP_INPUTS_METADATA).
Proof. intros [? ? ids ->]. eauto. Qed.

(** A file outside the core is replaced. *)
Lemma write_good fs0 id nm c :
  nm ∈ step_names -> nm ∉ core -> (forall fs, Good fs0 fs -> file_ok fs id nm c) ->
  triple_exn (fun d => Good fs0 (files d)) (_put uuid_hex root (step_file wf id nm) c)
    (fun _ d => Good fs0 (files d) /\ sf (files d) id nm = Some c) (crashed fs0).
Proof.
  intros Hn Hc Hok.
  assert (forall fs fs' x, Good fs0 fs -> whole fs' -> x = sf fs id nm \/ x = Some c -> file_change root wf id nm x fs fs' -> Good fs0 fs') as Hg.
  { intros fs fs' x [Hi He] Hw Hx Hch.
    assert (ext fs fs') as He'.
    { eapply (file_change_ext root wf wf_nonempty id nm x); [done | apply Hi | done | | done]. destruct Hx as [-> | ->]; eauto. }
    split; [|by etransitivity]. eapply file_change_inv; [done.. | | done]. intros c' ->.
    eapply file_ok_mono; [done..|]. destruct Hx as [Hx | [= ->]]; [by apply (inv_file _ _ _ _ _ _ Hi) | by apply Hok]. }
  apply (write_stable uuid_hex uuid_is_hex root wf wf_nonempty (Good fs0) (fun fs => Good fs0 fs /\ sf fs id nm = Some c) (Good fs0)); [done | | |].
  - intros fs fs' Hp Hw Hch. eapply Hg; [done | done | by left | done].
  - intros fs fs' Hp Hw Hch. eapply Hg; [done | done | by right | done].
  - intros fs fs' Hp Hw Hch Hv. split; [eapply Hg; [done | done | by right | done]|]. by apply (fc_here _ _ _ _ _ _ _ Hch).
Qed.

(** A file with no content that the recovery reads *)
Lemma write_note fs0 id nm c p :
  nm ∈ [STEP_USER_METADATA; STEP_PRERUN_METADATA; STEP_POSTRUN_METADATA; STEP_EXCEPTION] -> repr fs0 id p ->
  triple_exn (fun d => Good fs0 (files d)) (_put uuid_hex root (step_file wf id nm) c) (fun _ d => Good fs0 (files d)) (crashed fs0).
Proof.
  intros Hn Hp. eapply exn_conseq; [apply (write_good fs0 id nm c) | done | intros [] d [H _]; exact H | intros e d H; exact H].
  - revert Hn. unfold step_names. set_solver.
  - revert Hn. unfold core. rewrite !elem_of_cons, elem_of_nil.
    intros [->|[->|[->|[->|[]]]]] [?|[?|[?|[]]]]; done.
  - intros fs [Hi He]. right. split_and!.
    + eapply repr_allocated; [done..|]. by eapply repr_mono.
    + intros ->. exfalso. revert Hn. rewrite !elem_of_cons, elem_of_nil. intros [?|[?|[?|[?|[]]]]]; done.
    + intros ->. exfalso. revert Hn. rewrite !elem_of_cons, elem_of_nil. intros [?|[?|[?|[?|[]]]]]; done.
Qed.

(** A file of the workflow itself *)
Lemma write_meta fs0 nm c :
  regular nm -> nm <> "" ->
  triple_exn (fun d => Good fs0 (files d)) (_put uuid_hex root [wf; nm] c) (fun _ d => Good fs0 (files d)) (crashed fs0).
Proof.
  intros Hr Hn. assert (make_key root [wf; nm] = root ++ [wf; nm]) as Ek.
  { unfold make_key. by rewrite !filter_cons, !decide_True, filter_nil by done. }
  assert (forall id nm', nm' ∈ step_names -> make_key root (step_file wf id nm') <> root ++ [wf; nm]) as H1.
  { intros id nm' [_ Hn']%step_names_ok. rewrite make_key_step by done. intros E%app_inv_head. case_bool_decide; by simplify_eq. }
  assert (forall n, good_name n -> make_key root (_key_num_steps_with_name wf n) <> root ++ [wf; nm]) as H2.
  { intros n Hg%good_nonempty. rewrite make_key_count by done. intros E%app_inv_head. by simplify_eq. }
  assert (forall fs fs' x, whole fs' -> shows (root ++ [wf; nm]) fs x fs' -> same_files root wf fs fs') as Hs.
  { intros fs fs' x Hw (_ & Ho & _). split; [| |done].
    - intros id nm' Hn'. unfold WorkflowFiles.sf, WorkflowFiles.vis, view.
      destruct (Ho _ (make_key_regular root wf wf_nonempty id nm' Hn') (H1 id nm' Hn')) as [-> ->]. done.
    - intros n Hg. unfold WorkflowFiles.cnt, view. by destruct (Ho _ (make_key_count_regular root wf wf_nonempty n Hg) (H2 n Hg)) as [-> ->]. }
  assert (forall fs fs', Good fs0 fs -> same_files root wf fs fs' -> Good fs0 fs') as Hgood.
  { intros fs fs' [Hi He] H. split; [by eapply same_inv | etransitivity; [done | by eapply same_ext]]. }
  intros d Hd. pose proof (put_key_spec uuid_hex uuid_is_hex root wf [wf; nm] c (files d)) as H. rewrite Ek in H.
  specialize (H ltac:(by exists (root ++ [wf]), nm; rewrite <- app_assoc) ltac:(rewrite length_app; cbn; lia)
    ltac:(intros id _ E; unfold step_dir in E; apply app_inv_head in E; by simplify_eq) ltac:(apply Hd) d eq_refl).
  destruct (_put uuid_hex root [wf; nm] c d) as [d' [[]|e]].
  - destruct H as (H & _ & Hw). eapply Hgood; [done | by eapply Hs].
  - destruct H as (-> & Hw & H). split; [done|]. eapply Hgood; [done|]. destruct H as [H|H]; by eapply Hs.
Qed.

(** ** New step ids *)

Definition clean fs id : Prop := forall nm, nm ∈ step_names -> sf fs id nm = None.
Definition unused fs (L : list string) : Prop := Forall (fun id => allocated fs id /\ clean fs id) L.

Lemma unused_restored fs fs' L : restored fs fs' -> unused fs L -> unused fs' L.
Proof.
  intros Hr. pose proof (restored_ext root wf wf_nonempty _ _ Hr) as He. apply (restored_files root wf wf_nonempty) in Hr as (H & _).
  intros Hu. eapply list.Forall_impl; [exact Hu|]. intros id [Ha Hc]. split; [by eapply allocated_mono|]. intros nm Hn. destruct (H id nm Hn) as [-> _]. by apply Hc.
Qed.

Definition fresh_index fs n (k : nat) : Prop := match k with O => cnt fs n = None | S j => cnt fs n = Some (CCount j) end.

Lemma fresh_index_clean fs n k : good_name n -> Inv fs -> fresh_index fs n k -> ~ allocated fs (step_id_of n k) /\ clean fs (step_id_of n k).
Proof.
  intros Hn Hi Hk. assert (~ allocated fs (step_id_of n k)) as Ha.
  { intros (n' & i & j & E & Hn' & Hj & L). apply step_id_of_inj in E as [-> ->]; [|done..]. destruct i; cbn in Hk; [congruence|].
    rewrite Hk in Hj. injection Hj as ->. lia. }
  split; [done|]. intros nm Hnm. destruct (sf fs (step_id_of n k) nm) as [c|] eqn:E; [|done]. exfalso.
  apply (inv_file _ _ _ _ _ _ Hi) in E as [[E _]|[H _]]; [|done..]. by destruct (step_id_ok n k Hn) as [? _].
Qed.

Lemma bump fs0 L n k :
  good_name n ->
  triple_exn (fun d => (Good fs0 (files d) /\ unused (files d) L) /\ fresh_index (files d) n k)
    (_put uuid_hex root (_key_num_steps_with_name wf n) (CCount k))
    (fun _ d => Good fs0 (files d) /\ unused (files d) (step_id_of n k :: L) /\ step_id_of n k ∉ L) (crashed fs0).
Proof.
  intros Hn. set (id := step_id_of n k).
  set (P := fun fs => (Good fs0 fs /\ unused fs L) /\ fresh_index fs n k).
  set (P' := fun fs => Good fs0 fs /\ unused fs L /\ clean fs id /\ id ∉ L).
  assert (Stable root wf P) as HP.
  { apply stable_and; [apply stable_and; [apply good_stable | intros ? ? _; apply unused_restored]|].
    intros fs fs' _ (_ & Hc & _)%(restored_files root wf wf_nonempty). unfold fresh_index. by rewrite Hc. }
  assert (forall fs fs' x, P fs -> whole fs' -> x = cnt fs n \/ x = Some (CCount k) -> count_change root wf n x fs fs' -> P' fs') as Hstep.
  { intros fs fs' x (([Hi He] & Hu) & Hk) Hw Hx Hch.
    assert (ext fs fs') as He'.
    { eapply (count_change_ext root wf wf_nonempty call result_and_exception entry n k); [done | done | | done].
      intros j Hj. unfold fresh_index in Hk. destruct k; [congruence|]. rewrite Hk in Hj. injection Hj as ->. lia. }
    destruct (fresh_index_clean fs n k Hn Hi Hk) as [Ha Hc].
    assert (forall id, clean fs id -> clean fs' id) as Hcl.
    { intros i Hcl nm Hnm. destruct (cc_file _ _ _ _ _ _ Hch i nm Hnm) as [-> _]. by apply Hcl. }
    split_and!.
    - split; [by eapply count_change_inv | by etransitivity].
    - eapply list.Forall_impl; [exact Hu|]. intros i [Hai Hci]. split; [by eapply allocated_mono | by apply Hcl].
    - by apply Hcl.
    - intros Hl. unfold unused in Hu. rewrite Forall_forall in Hu. by apply Ha, Hu. }
  eapply exn_conseq.
  - apply (write_count_stable uuid_hex uuid_is_hex root wf wf_nonempty P P' n (CCount k) Hn).
    + intros fs fs' Hp Hw. apply Hstep; auto.
    + intros fs fs' Hp Hw. apply Hstep; auto.
  - intros d Hd. exact Hd.
  - intros [] d ((Hg & Hu & Hc & Hl) & Hk). split_and!; [done | | done]. constructor; [|done]. split; [|done]. exists n, k, k. done.
  - intros e d (-> & Hg & _). done.
Qed.

Lemma gen_step_id_spec fs0 L n :
  good_name n ->
  triple_exn (fun d => Good fs0 (files d) /\ unused (files d) L) (gen_step_id uuid_hex root wf n)
    (fun id d => Good fs0 (files d) /\ unused (files d) (id :: L) /\ id ∉ L) (crashed fs0).
Proof.
  intros Hn. set (P := fun fs => Good fs0 fs /\ unused fs L).
  assert (Stable root wf P) as HP by (apply stable_and; [apply good_stable | intros ? ? _; apply unused_restored]).
  unfold gen_step_id. apply exn_bind_ret.
  unfold gen_step_index. eapply exn_try with (R' := fun e d => crashed fs0 e d \/ (e = KeyNotFoundError /\ P (files d) /\ cnt (files d) n = None)).
  - eapply exn_bind.
    + eapply exn_conseq; [apply (read_count_stable root wf wf_nonempty P n Hn) | intros d Hd; exact Hd | intros c d H; exact H|].
      intros e d (Hp & [->|[-> Hc]]); [left; split; [done | apply Hp] | by right].
    + intros c. apply (exn_have (exists k, c = CCount k)); [intros d [Hc Hp]; apply (inv_count _ _ _ _ _ _ (proj1 (proj1 Hp)) n c Hn Hc)|].
      intros [k ->]. apply exn_bind_ret.
      eapply exn_conseq; [apply (bump fs0 L n (S k) Hn) | intros d [Hc Hp]; exact (conj Hp Hc) | intros [] d H; exact H | intros e d H; by left].
  - intros e He%bool_decide_eq_true_1. subst e. apply exn_bind_ret.
    eapply exn_conseq; [apply (bump fs0 L n 0 Hn) | | intros [] d H; exact H | intros e d H; exact H].
    intros d [[? _]|[_ H]]; done.
  - intros e d He [H|[-> _]]; done.
Qed.

Lemma gen_ids_spec fs0 (ws : list pywf) : Forall (fun w => good_name (name w)) ws -> forall L,
  triple_exn (fun d => Good fs0 (files d) /\ unused (files d) L)
    (st_map (fun w => id ← gen_step_id uuid_hex root wf (name w); mret (oid w, id)) ws)
    (fun (ids : dict nat string) d => Good fs0 (files d) /\ unused (files d) (map snd ids ++ L) /\ NoDup (map snd ids) /\
       (forall id, id ∈ map snd ids -> id ∉ L) /\ map fst ids = map oid ws) (crashed fs0).
Proof.
  induction 1 as [|w ws Hw _ IH]; intros L; cbn [st_map].
  - intros d [Hg Hu]. cbn. split_and!; [done | done | constructor | set_solver | done].
  - eapply (exn_bind _ _ (fun y d => y.1 = oid w /\ y.2 ∉ L /\ Good fs0 (files d) /\ unused (files d) (y.2 :: L))).
    + apply exn_bind_ret. eapply exn_conseq; [apply (gen_step_id_spec fs0 L _ Hw) | intros d H; exact H | | intros e d H; exact H].
      intros id d (Hg & Hu & Hl). done.
    + intros [o id]. cbn [fst snd]. apply exn_pure. intros ->. apply exn_pure. intros Hl. apply exn_bind_ret.
      eapply exn_conseq; [apply (IH (id :: L)) | intros d H; exact H | | intros e d H; exact H].
      intros ids d (Hg & Hu & Hd & Hn & Hf). cbn [map fst snd]. split_and!.
      * done.
      * unfold unused in *. rewrite list.Forall_app in Hu. rewrite <- app_comm_cons, list.Forall_cons, list.Forall_app. rewrite list.Forall_cons in Hu. tauto.
      * constructor; [|done]. intros Hi. specialize (Hn _ Hi). set_solver.
      * intros i [->|Hi]%elem_of_cons; [done|]. specialize (Hn _ Hi). set_solver.
      * by rewrite Hf.
Qed.

(** The ids of the objects are those that were given. *)
Lemma ids_of (ids : dict nat string) :
  NoDup (map fst ids) -> map (fun k => default "" (dget k ids)) (map fst ids) = map snd ids.
Proof.
  induction ids as [|[k v] ids IH]; cbn [map fst snd]; [done|]. intros [Hk Hd]%list.NoDup_cons. f_equal.
  - cbn. by rewrite decide_True.
  - rewrite <- (IH Hd). apply map_ext_in. intros k' Hk'. cbn. rewrite decide_False; [done|]. intros ->. by apply Hk, list_elem_of_In.
Qed.

Lemma id_in_map ids ws :
  NoDup (map oid ws) -> map fst ids = map oid ws -> map (@id_in Func Args ids) ws = map snd ids.
Proof. intros Hd E. rewrite <- ids_of by (by rewrite E). rewrite E, map_map. done. Qed.

(** ** Writing the files of new steps *)

Section Write.
Variable fs1 : fsys.
Variable ids : dict nat string.

(** The files of a step, in the order in which they are written *)
Definition files_of (x : pywf) : list (string * string * content) :=
  let id := id_in ids x in
  [(id, STEP_INPUTS_METADATA, CInputs (map (id_in ids) (inputs x)) (opts x)); (id, STEP_USER_METADATA, CMetadata);
   (id, STEP_FUNC_BODY, CFunc (func_body x)); (id, STEP_ARGS, CArgs (args x))].

Definition written fs (f : string * string * content) : Prop := sf fs f.1.1 f.1.2 = Some f.2 /\ vis fs f.1.1 f.1.2.

(** The files [l] are not there yet, the others of [all] are. *)
Variable all : list (string * string * content).
Hypothesis all_new : forall f, f ∈ all -> f.1.2 ∈ [STEP_INPUTS_METADATA; STEP_USER_METADATA; STEP_FUNC_BODY; STEP_ARGS] /\ allocated fs1 f.1.1.
Definition writing (l : list (string * string * content)) fs : Prop :=
  Good fs1 fs /\ (forall f, f ∈ l -> f ∈ all /\ sf fs f.1.1 f.1.2 = None) /\ (forall f, f ∈ all -> f ∈ l \/ written fs f).

Lemma new_name f : f ∈ all -> f.1.2 ∈ step_names.
Proof. intros [H _]%all_new. revert H. unfold step_names. set_solver. Qed.

#[local] Instance writing_stable l : Stable root wf (writing l).
Proof.
  apply stable_and; [apply good_stable|]. intros fs fs' _ (H & _)%(restored_files root wf wf_nonempty) [Hl Ha]. split.
  - intros f [Hf E]%Hl. destruct (H f.1.1 f.1.2 (new_name f Hf)) as [-> _]. done.
  - intros f Hf. destruct (Ha f Hf) as [?|[E Hv]]; [by left | right]. destruct (H f.1.1 f.1.2 (new_name f Hf)) as [E' Hv'].
    split; [by rewrite E' | by apply Hv'].
Qed.

Lemma write_new f l :
  NoDup (map fst (f :: l)) ->
  triple_exn (fun d => writing (f :: l) (files d)) (write_file_of uuid_hex root wf f.1.1 f.1.2 f.2)
    (fun _ d => writing l (files d)) (crashed fs1).
Proof.
  intros [Hd _]%list.NoDup_cons. destruct f as [[id nm] c]. cbn [fst snd] in *.
  apply (exn_have ((id, nm, c) ∈ all)); [intros d (_ & Hl & _); apply Hl; by left|]. intros Hf.
  pose proof (new_name _ Hf) as Hn. destruct (all_new _ Hf) as [Hnm Hal]. cbn [fst snd] in *.
  assert (forall fs fs' x, writing ((id, nm, c) :: l) fs -> whole fs' -> x = sf fs id nm \/ x = Some c -> file_change root wf id nm x fs fs' -> Good fs1 fs') as Hg.
  { intros fs fs' x ([Hi He] & Hl & Ha) Hw Hx Hch. assert (sf fs id nm = None) as E by (apply (Hl (id, nm, c)); by left).
    assert (ext fs fs') as He'.
    { eapply (file_change_ext root wf wf_nonempty id nm x); [done | apply Hi | done | | done]. destruct Hx as [-> | ->]; eauto. }
    split; [|by etransitivity]. eapply file_change_inv; [done.. | | done]. intros c' ->. destruct Hx as [Hx | [= ->]]; [congruence|].
    right. split_and!; [eapply allocated_mono; [|exact Hal]; by etransitivity | |]; intros ->; exfalso; revert Hnm;
      rewrite !elem_of_cons, elem_of_nil; intros [?|[?|[?|[?|[]]]]]; done. }
  apply (write_stable uuid_hex uuid_is_hex root wf wf_nonempty (writing ((id, nm, c) :: l)) (writing l) (Good fs1)); [done | | |].
  - intros fs fs' Hp Hw Hch. eapply Hg; [done | done | by left | done].
  - intros fs fs' Hp Hw Hch. eapply Hg; [done | done | by right | done].
  - intros fs fs' Hp Hw Hch Hv. split; [eapply Hg; [done | done | by right | done]|]. destruct Hp as (_ & Hl & Ha). split.
    + intros f Hf'. destruct (Hl f) as [Hfa E]; [by right|]. split; [done|].
      destruct (fc_other _ _ _ _ _ _ _ Hch f.1.1 f.1.2 (new_name f Hfa)) as [-> _]; [|done].
      intros E'. apply Hd. apply list_elem_of_fmap. exists f. split; [|done]. by destruct f as [[? ?] ?].
    + intros f Hf'. destruct (decide (f.1 = (id, nm))) as [Ef|Ef].
      * destruct (Ha f Hf') as [[->|Hin]%elem_of_cons|[E _]].
        -- right. split; [by apply (fc_here _ _ _ _ _ _ _ Hch) | done].
        -- by left.
        -- exfalso. destruct (Hl (id, nm, c)) as [_ E']; [by left|]. destruct f as [[? ?] ?]. cbn in *. simplify_eq. 
      * destruct (Ha f Hf') as [[->|Hin]%elem_of_cons|[E Hv']]; [done | by left | right].
        destruct (fc_other _ _ _ _ _ _ _ Hch f.1.1 f.1.2 (new_name f Hf')) as [E' Hv'']; [by destruct f as [[? ?] ?]|].
        split; [by rewrite E' | by apply Hv''].
Qed.

Lemma new_tail f (l : list (string * string * content)) : NoDup (map fst (f :: l)) -> NoDup (map fst l).
Proof. by intros [_ H]%list.NoDup_cons. Qed.

Lemma write_steps ws :
  NoDup (map fst (concat (map files_of ws))) ->
  triple_exn (fun d => writing (concat (map files_of ws)) (files d)) (st_for ws (_write_step_inputs uuid_hex root wf ids))
    (fun _ d => writing [] (files d)) (crashed fs1).
Proof.
  intros Hd. set (J := fun l d => NoDup (map fst (concat (map files_of l))) /\ writing (concat (map files_of l)) (@files content d)).
  eapply exn_conseq; [apply (exn_for J ws) | done | intros u d [_ H]; exact H | intros e d H; exact H].
  clear Hd ws. intros x ws. unfold J. apply exn_pure.
  change (concat (map files_of (x :: ws))) with (files_of x ++ concat (map files_of ws)).
  generalize (concat (map files_of ws)). intros rest. unfold files_of. cbn [app]. intros Hd. unfold _write_step_inputs.
  do 3 (eapply exn_bind; [apply (write_new _ _ Hd) | intros ?; apply new_tail in Hd]).
  eapply exn_conseq; [apply (write_new _ _ Hd) | intros d H; exact H | | intros e d H; exact H].
  intros u d H. apply new_tail in Hd. done.
Qed.

End Write.

Lemma files_of_nodup ids ws : NoDup (map (id_in ids) ws) -> NoDup (map fst (concat (map (files_of ids) ws))).
Proof.
  induction ws as [|x ws IH]; [constructor|]. intros [Hx Hd]%list.NoDup_cons. cbn [map concat]. rewrite map_app. apply list.NoDup_app. split_and!.
  - unfold files_of. cbn [map fst]. repeat (apply list.NoDup_cons; split; [rewrite ?elem_of_cons, ?elem_of_nil; naive_solver|]). constructor.
  - intros k Hk Hin. apply Hx. apply list_elem_of_fmap in Hin as (f & -> & Hf).
    apply list_elem_of_In, in_concat in Hf as (l & Hl & Hf). apply in_map_iff in Hl as (y & <- & Hy). apply list_elem_of_In in Hf.
    assert (id_in ids x = id_in ids y) as ->; [|apply list_elem_of_fmap; exists y; by rewrite list_elem_of_In].
    assert (forall z f, f ∈ files_of ids z -> f.1.1 = id_in ids z) as Hz.
    { intros z g Hg. unfold files_of in Hg. rewrite !elem_of_cons, elem_of_nil in Hg. by destruct Hg as [->|[->|[->|[->|[]]]]]. }
    rewrite <- (Hz y f Hf). apply list_elem_of_fmap in Hk as (g & -> & Hg). by rewrite (Hz x g Hg).
  - by apply IH.
Qed.

(** All steps of a workflow are stored. *)
Lemma written_repr fs ids w :
  (forall x, x ∈ nodes w -> (1 <= max_retries (opts x))%nat /\ Forall (written fs) (files_of ids x)) ->
  forall x, x ∈ nodes w -> repr fs (id_in ids x) x.
Proof.
  intros H x. induction x as [x IH] using pywf_ind'. intros Hx. rewrite Forall_forall in IH.
  destruct (H x Hx) as [Hr Hf]. unfold files_of in Hf. rewrite !list.Forall_cons in Hf.
  destruct Hf as ((E1 & _) & _ & (E3 & V3) & (E4 & V4) & _). cbn [fst snd] in *.
  econstructor; [done.. | ]. apply Forall2_fmap_l. apply Forall_Forall2_diag. apply Forall_forall. intros y Hy.
  apply IH; [done|]. by eapply node_input.
Qed.

(** ** Workflows whose steps are stored *)

(** The workflow object [w] computes what [p] does, as far as [n] steps can tell;
    its inputs may be the outputs of inputs of [p], or steps that lead to them. *)
Fixpoint wf_for (n : nat) fs (w : @workflow Val Func Args) p : Prop :=
  match n with
  | O => True
  | S n' =>
      let 'Wf id body a ins o := w in
      repr fs id p /\ (body = Some (func_body p) \/ body = None) /\ a = args p /\ o = opts p /\
      Forall2 (fun x q => match x with
                          | inl w' => exists q', wf_for n' fs w' q' /\ leads q q'
                          | inr v => exists k, eval k q = Some (OVal v)
                          end) ins (inputs p)
  end.

Lemma wf_for_mono n fs fs' : ext fs fs' -> forall w p, wf_for n fs w p -> wf_for n fs' w p.
Proof.
  intros He. induction n as [|n IH]; intros [id body a ins o] p; cbn [wf_for]; [done|]. intros (Hp & Hb & Ha & Ho & Hl).
  split_and!; [by eapply repr_mono | done | done | done|]. eapply Forall2_impl; [exact Hl|]. intros [w'|v] q; [|done].
  intros (q' & Hw & Hq). eauto.
Qed.

Lemma with_ids_wf_for fs ids w : (forall x, x ∈ nodes w -> repr fs (id_in ids x) x) -> forall n, wf_for n fs (with_ids ids w) w.
Proof.
  intros H n. revert w H. induction n as [|n IH]; intros w H; [done|]. destruct w as [i s f a l o]. cbn [with_ids wf_for].
  split_and!; [apply (H _ (node_self _)) | by left | done | done|]. cbn [inputs]. apply Forall2_fmap_l, Forall_Forall2_diag, Forall_forall.
  intros q Hq. exists q. split; [|by intros ? ?]. apply IH. intros x Hx. apply H. apply node_cases. right. by exists q.
Qed.

(** ** [commit_step] *)

Lemma in_files_of ids ws f : f ∈ concat (map (files_of ids) ws) -> exists x, x ∈ ws /\ f ∈ files_of ids x.
Proof. intros (l & Hl & Hf)%list_elem_of_In%in_concat. apply in_map_iff in Hl as (x & <- & Hx). exists x. by rewrite !list_elem_of_In. Qed.

Lemma store_steps fs1 ids w :
  let ws := _iter_workflows_in_dag w in
  fine w -> NoDup (map (id_in ids) ws) -> unused fs1 (map (id_in ids) ws) ->
  triple_exn (fun d => Good fs1 (files d) /\ files d = fs1) (st_for ws (_write_step_inputs uuid_hex root wf ids))
    (fun _ d => Good fs1 (files d) /\ forall x, x ∈ nodes w -> repr (files d) (id_in ids x) x) (crashed fs1).
Proof.
  intros ws Hfine Hd Hu. pose proof (iter_workflows_spec w Hfine) as [_ Hiter]. fold ws in Hiter.
  unfold unused in Hu. rewrite Forall_forall in Hu. set (all := concat (map (files_of ids) ws)).
  assert (forall f, f ∈ all -> f.1.2 ∈ [STEP_INPUTS_METADATA; STEP_USER_METADATA; STEP_FUNC_BODY; STEP_ARGS] /\
    allocated fs1 f.1.1 /\ clean fs1 f.1.1) as Hall.
  { intros f (x & Hx & Hf)%in_files_of. destruct (Hu (id_in ids x)) as [Ha Hc]; [apply list_elem_of_fmap; eauto|].
    unfold files_of in Hf. rewrite !elem_of_cons, elem_of_nil in Hf.
    destruct Hf as [->|[->|[->|[->|[]]]]]; cbn [fst snd]; (split; [set_solver | done]). }
  eapply exn_conseq.
  - apply (write_steps fs1 ids all) with (ws := ws); [intros f Hf; split; apply (Hall f Hf) | by apply files_of_nodup].
  - intros d [Hg E]. split; [done|]. fold all. split; [|by left]. intros f Hf. split; [done|]. rewrite E. apply (Hall f Hf).
    destruct (Hall f Hf) as [Hn _]. revert Hn. unfold step_names. set_solver.
  - intros u d (Hg & _ & Hw). split; [done|]. apply written_repr. intros x Hx. split; [by apply Hfine|].
    apply Forall_forall. intros f Hf. destruct (Hw f) as [H|H]; [|by apply elem_of_nil in H | done].
    unfold all. apply list_elem_of_In, in_concat. exists (files_of ids x).
    split; [apply in_map, list_elem_of_In, Hiter, Hx | by apply list_elem_of_In].
  - intros e d H. exact H.
Qed.

Lemma commit_nested_spec fs0 step_id w :
  fine w -> step_id = "" \/ (exists p, repr fs0 step_id p) ->
  (forall fs t, Good fs0 fs -> repr fs t w -> file_ok fs step_id STEP_OUTPUTS_METADATA (COutputs t None)) ->
  triple_exn (fun d => Good fs0 (files d)) (commit_nested uuid_hex root wf step_id w)
    (fun nested d => Good fs0 (files d) /\ (forall n, wf_for n (files d) nested w) /\ is_Some (sf (files d) step_id STEP_OUTPUTS_METADATA))
    (crashed fs0).
Proof.
  intros Hfine Hid Hok. pose proof (iter_workflows_spec w Hfine) as [Hnd Hiter]. 
  set (ws := _iter_workflows_in_dag w) in *. unfold commit_nested. fold ws.
  eapply (exn_bind _ _ (fun ids d => Good fs0 (files d) /\ (unused (files d) (map snd ids) /\ NoDup (map snd ids) /\ map fst ids = map oid ws))).
  { unfold gen_ids. apply (exn_bind_ret _ _ (fun x => x)). eapply exn_conseq; [apply (gen_ids_spec fs0 ws) with (L := []) | | | intros e d H; exact H].
    - apply Forall_forall. intros x Hx. by apply Hfine, Hiter.
    - intros d Hg. split; [done | constructor].
    - intros ids d (H1 & H2 & H3 & _ & H4). rewrite app_nil_r in H2. done. }
  intros ids d ([Hi He] & Hu & Hds & Hf). remember (files d) as fs1 eqn:E1.
  pose proof (id_in_map ids ws Hnd Hf) as Hids. rewrite <- Hids in Hu, Hds.
  enough (triple_exn (fun d => Good fs1 (files d) /\ files d = fs1)
    (_ ← st_for ws (_write_step_inputs uuid_hex root wf ids); _ ← save_nested_output uuid_hex root wf step_id (id_in ids w); mret (with_ids ids w))
    (fun nested d => Good fs0 (files d) /\ (forall n, wf_for n (files d) nested w) /\ is_Some (sf (files d) step_id STEP_OUTPUTS_METADATA))
    (crashed fs0)) as H by (apply H; split; [rewrite <- E1; by apply good_refl | done]).
  clear d Hi E1. eapply exn_bind.
  { eapply exn_conseq; [apply (store_steps fs1 ids w Hfine Hds Hu) | intros d H; exact H | intros u d H; exact H|].
    intros e d [-> Hg]. split; [done | by eapply good_trans]. }
  intros u. cbn beta. apply (exn_bind_ret _ _ (fun _ => with_ids ids w)).
  apply (good_now (fun fs => forall x, x ∈ nodes w -> repr fs (id_in ids x) x)). intros fs2 He2 Hi2 Hr.
  assert (repr fs2 (id_in ids w) w) as Hw by apply Hr, node_self. assert (ext fs0 fs2) as He' by (by etransitivity).
  unfold save_nested_output. eapply exn_bind.
  - apply exn_lift. intros e Ee. exfalso. unfold py_assert in Ee. case_bool_decide as E; [|done]. destruct Hid as [->|[p Hp]].
    + apply (repr_allocated root wf wf_nonempty call result_and_exception entry) in Hw; [|done]. apply allocated_ok in Hw as [? _]. done.
    + destruct (repr_sf _ _ _ Hp) as [c Hc].
      assert (clean fs1 (id_in ids w)) as Hcl.
      { unfold unused in Hu. rewrite Forall_forall in Hu. apply Hu. apply list_elem_of_fmap. exists w. split; [done|]. apply Hiter, node_self. }
      rewrite <- E in Hcl. apply (ext_core _ _ _ _ He) in Hc; [|unfold core; set_solver].
      rewrite Hcl in Hc by (unfold step_names; set_solver). done.
  - intros u'. apply exn_pure. intros _. eapply exn_conseq; [apply (write_good fs2) | intros d H; exact H | |].
    + unfold step_names. set_solver.
    + unfold core. set_solver.
    + intros fs [Hi Hg]. apply Hok; [split; [done | by etransitivity]|]. by eapply repr_mono.
    + intros [] d [Hg Hs]. split_and!; [by eapply good_trans | | by rewrite Hs].
      apply with_ids_wf_for. intros x Hx. eapply repr_mono; [done | apply Hg | by apply Hr].
    + intros e d [-> Hg]. split; [done | by eapply good_trans].
Qed.

End Commit.
