(* ===== verification/WorkflowRecovery.v ===== *)
(** Running and resuming a workflow: whatever the storage holds after crashes, a
    run that does not crash gives the result that the workflow has. *)

From Stdlib Require Import ZArith Lia.
From stdpp Require Import base list strings option gmap pretty.
From S2P Require Import Prelude PyDict Hoare WorkflowFs WorkflowStorage WorkflowManager WorkflowExec WorkflowFiles WorkflowInv WorkflowDag WorkflowCommit WorkflowAlive.

Section Run.
Context {names : StepNames} {Val Exc Func Args : Type}.
Abbreviation content := (@content Val Exc Func Args).
Abbreviation disk := (@disk content).
Abbreviation fsys := (gmap (list string) (@file content)).
Abbreviation pywf := (@pywf Func Args).
Variable uuid_hex : nat -> string.
Hypothesis uuid_is_hex : forall n, is_hex (uuid_hex n).
Variable root : list string.
Variable wf : string.
Hypothesis wf_nonempty : wf <> "".
Variable call : Func -> Args -> list Val -> nat -> @outcome Val Exc Func Args.
Variable result_and_exception : option Val -> option Exc -> Val.
Variable none : Val.
Variable of_exn : exn -> Exc.
Variable entry : pywf.
Abbreviation eval := (eval call result_and_exception).
Abbreviation reduces := (reduces call result_and_exception).
Abbreviation leads := (leads call result_and_exception).
Abbreviation sf := (sf root wf).
Abbreviation vis := (vis root wf).
Abbreviation cnt := (cnt root wf).
Abbreviation whole := (whole root wf).
Abbreviation repr := (repr root wf).
Abbreviation ext := (ext root wf).
Abbreviation Inv := (Inv root wf call result_and_exception entry).
Abbreviation file_ok := (file_ok root wf call result_and_exception entry).
Abbreviation allocated := (allocated root wf).
Abbreviation Good := (Good root wf call result_and_exception entry).
Abbreviation crashed := (crashed root wf call result_and_exception entry).
Abbreviation wf_for := (wf_for root wf call result_and_exception).
Implicit Types (fs : fsys) (id nm : string) (p q : pywf).


(** Functions do the same every time they are called, and the workflows that they
    return are fine, their steps' names included. *)
Hypothesis call_again : forall f a vs i, call f a vs i = call f a vs 0.
Hypothesis call_fine : forall f a vs i w, call f a vs i = ReturnedWorkflow w -> fine w.
Abbreviation step_result := (step_result call result_and_exception).

(** ** Reading what is stored *)

(** A name is one of a list. *)
Ltac in_names := unfold core, step_names; set_solver.

#[local] Instance good_is_stable fs0 : Stable root wf (Good fs0).
Proof. by apply good_stable. Qed.

Lemma core_names nm : nm ∈ core -> nm ∈ step_names.
Proof. in_names. Qed.

Lemma read_known fs0 id nm c0 :
  nm ∈ core -> sf fs0 id nm = Some c0 ->
  triple_exn (fun d => Good fs0 (files d)) (_get root (step_file wf id nm)) (fun c d => c = c0 /\ Good fs0 (files d)) (crashed fs0).
Proof.
  intros Hn Hc. eapply exn_conseq; [apply (read_stable root wf wf_nonempty (Good fs0) id nm (core_names nm Hn)) | intros d H; exact H | |].
  - intros c d [E [Hi He]]. split; [|done]. apply (ext_core _ _ _ _ He) in Hc; [congruence | done].
  - intros e d [[Hi He] [->|[-> E]]]; [done|]. apply (ext_core _ _ _ _ He) in Hc; [congruence | done].
Qed.

Lemma load_func_spec fs0 id p :
  repr fs0 id p ->
  triple_exn (fun d => Good fs0 (files d)) (load_step_func_body root wf id) (fun f d => f = func_body p /\ Good fs0 (files d)) (crashed fs0).
Proof.
  intros [id' p' ids _ Hf _ _ _ _ _]. unfold load_step_func_body. eapply exn_bind; [eapply read_known; [|exact Hf]; in_names|].
  intros c. apply exn_pure. intros ->. intros d Hd. done.
Qed.

Lemma load_args_spec fs0 id p :
  repr fs0 id p ->
  triple_exn (fun d => Good fs0 (files d)) (load_step_args root wf id) (fun a d => a = args p /\ Good fs0 (files d)) (crashed fs0).
Proof.
  intros [id' p' ids _ _ _ Ha _ _ _]. unfold load_step_args. eapply exn_bind; [eapply read_known; [|exact Ha]; in_names|].
  intros c. apply exn_pure. intros ->. intros d Hd. done.
Qed.

Lemma get_no_exception_spec fs0 id nm :
  nm ∈ step_names ->
  triple_exn (fun d => Good fs0 (files d)) (get_no_exception root (step_file wf id nm))
    (fun r d => Good fs0 (files d) /\ match r with Ok c => sf (files d) id nm = Some c | Err _ => sf (files d) id nm = None end) (crashed fs0).
Proof.
  intros Hn. unfold get_no_exception. eapply exn_try.
  - apply exn_bind_ret. eapply exn_conseq; [apply (read_stable root wf wf_nonempty (Good fs0) id nm Hn) | intros d H; exact H | | intros e d H; exact H].
    intros c d [E Hg]. done.
  - intros e He d [Hg [->|[-> E]]]; done.
  - intros e d He [Hg [->|[-> E]]]; done.
Qed.

Lemma load_output_spec fs0 id p :
  repr fs0 id p -> is_Some (sf fs0 id STEP_OUTPUT) ->
  triple_exn (fun d => Good fs0 (files d)) (load_step_output root wf id)
    (fun o d => Good fs0 (files d) /\ exists v n, o = OVal v /\ eval n p = Some (OVal v)) (crashed fs0).
Proof.
  intros Hp Ho. unfold load_step_output. eapply (exn_bind _ _ (fun r d => (exists v n, r = Ok (CVal v) /\ eval n p = Some (OVal v)) /\ Good fs0 (files d))).
  - eapply exn_conseq; [apply (get_no_exception_spec fs0 id STEP_OUTPUT); in_names | intros d H; exact H | | intros e d H; exact H].
    intros r d [[Hi He] Hr]. split; [|done]. destruct (ext_outputs _ _ _ _ He id _ (or_introl eq_refl) Ho) as [c Hc].
    destruct r as [c'|e]; [|congruence]. apply (inv_file _ _ _ _ _ _ Hi) in Hr; [|in_names].
    destruct Hr as [(_ & [?|[? _]])|(_ & H & _)]; [done..|]. destruct (H eq_refl) as (p' & n & v & Hp' & -> & Ev). exists v, n. split; [done|].
    rewrite <- Ev. eapply repr_eval; [|done]. by eapply repr_mono.
  - intros r. apply exn_pure. intros (v & n & -> & Ev). eapply exn_bind.
    + apply (get_no_exception_spec fs0 id STEP_EXCEPTION); in_names.
    + intros x d [Hg _]. cbn. eauto.
Qed.

(** ** Inspecting a step *)

Lemma locate_spec fs0 id p :
  repr fs0 id p -> is_Some (sf fs0 id STEP_OUTPUTS_METADATA) ->
  triple_exn (fun d => Good fs0 (files d)) (_locate_output_step_id root wf id)
    (fun t d => Good fs0 (files d) /\ exists q, repr (files d) t q /\ reduces p q) (crashed fs0).
Proof.
  intros Hp Ho. unfold _locate_output_step_id. eapply exn_bind.
  - eapply (exn_conseq _ _ _ (fun c d => Good fs0 (files d) /\ sf (files d) id STEP_OUTPUTS_METADATA = Some c));
      [apply (read_stable root wf wf_nonempty (Good fs0) id STEP_OUTPUTS_METADATA); in_names | intros d H; exact H | intros c d [? ?]; done |].
    intros e d [[Hi He] [->|[-> E]]]; [done|]. destruct (ext_outputs _ _ _ _ He id _ (or_intror eq_refl) Ho) as [c Hc]. congruence.
  - intros c d [[Hi He] Hc]. assert (repr (files d) id p) as Hp' by (by eapply repr_mono).
    apply (inv_file _ _ _ _ _ _ Hi) in Hc; [|in_names]. destruct Hc as [(-> & _)|(Ha & _ & H)].
    { exfalso. apply (repr_allocated root wf wf_nonempty call result_and_exception entry) in Hp'; [|done]. by apply allocated_ok in Hp' as [? _]. }
    destruct (H eq_refl) as (p' & t & q & dyn & Hr & -> & Hq & Hred & Hd).
    assert (forall q, reduces p' q -> reduces p q) as Hpp by (intros x Hx n o En; apply Hx; rewrite <- En; by eapply repr_eval).
    destruct dyn as [t'|]; cbn; [|split; [done | by exists q; auto]].
    destruct (Hd t' eq_refl) as (q' & Hq' & Hr'). case_bool_decide; (split; [done|]); [exists q | exists q']; auto.
Qed.

Lemma entrypoint_spec fs0 :
  triple_exn (fun d => Good fs0 (files d)) (get_entrypoint_step_id root wf)
    (fun t d => Good fs0 (files d) /\ repr (files d) t entry /\ is_Some (sf (files d) "" STEP_OUTPUTS_METADATA))
    (fun e d => Good fs0 (files d) /\ (e = Crashed \/ (e = ValueError /\ sf (files d) "" STEP_OUTPUTS_METADATA = None))).
Proof.
  unfold get_entrypoint_step_id. eapply exn_try with (R' := fun e d => Good fs0 (files d) /\ (e = Crashed \/ (e = KeyNotFoundError /\ sf (files d) "" STEP_OUTPUTS_METADATA = None))).
  - unfold _locate_output_step_id. eapply exn_bind; [apply (read_stable root wf wf_nonempty (Good fs0) "" STEP_OUTPUTS_METADATA); in_names|].
    intros c d [Hc [Hi He]]. pose proof Hc as Hc'. apply (inv_file _ _ _ _ _ _ Hi) in Hc; [|in_names].
    destruct Hc as [(_ & [?|(_ & t & -> & Ht)])|(Ha & _)]; [done | cbn; split; [done | split; [done | by exists (COutputs t None)]] |]. by apply allocated_ok in Ha as [? _].
  - intros e He d [Hg [->|[-> H]]]; [done|]. cbn. auto.
  - intros e d He [Hg [->|[-> H]]]; [auto | done].
Qed.

(** What the inspection of a stored step tells *)
Definition inspected fs0 p id (r : StepInspectResult) fs : Prop :=
  match r with
  | OutputObjectValid => is_Some (sf fs id STEP_OUTPUT)
  | OutputStepId t => exists q, repr fs t q /\ reduces p q
  | Inputs a f ws o => exists ids, r = Inputs true true (Some ids) (Some (opts p)) /\ Forall2 (repr fs0) ids (inputs p)
  end.

Lemma inspect_step_spec fs0 id p :
  repr fs0 id p ->
  triple_exn (fun d => Good fs0 (files d)) (inspect_step root wf id)
    (fun r d => Good fs0 (files d) /\ inspected fs0 p id r (files d)) (crashed fs0).
Proof.
  intros Hp. unfold inspect_step. apply (exn_have (id_ok id)).
  { intros d [Hi He]. eapply allocated_ok, repr_allocated; [done..|]. by eapply repr_mono. }
  intros Hid. eapply exn_bind; [eapply exn_conseq; [apply (scan_step root wf wf_nonempty (Good fs0) id Hid) | intros d H; exact H | intros keys d H; exact H | done]|].
  intros keys. apply exn_if; intros Ho.
  { apply bool_decide_eq_true_1 in Ho. intros d [Hg Hk]. cbn. split; [done|]. apply vis_sf; [done | in_names | apply Hg|]. apply Hk; [in_names | done]. }
  apply exn_if; intros Hm.
  - apply bool_decide_eq_true_1 in Hm. apply (exn_bind_ret _ _ OutputStepId).
    eapply (exn_pre _ (fun d => Good fs0 (files d) /\ is_Some (sf (files d) id STEP_OUTPUTS_METADATA))).
    { intros d [Hg Hk]. split; [done|]. apply vis_sf; [done | in_names | apply Hg|]. apply Hk; [in_names | done]. }
    apply (good_now root wf call result_and_exception entry (fun fs => is_Some (sf fs id STEP_OUTPUTS_METADATA))). intros fs1 He Hi Hs. eapply exn_conseq.
    + apply (locate_spec fs1 id p); [by eapply repr_mono | done].
    + intros d H. exact H.
    + intros t d [Hg Hq]. split; [by eapply good_trans | done].
    + intros e d [-> Hg]. split; [done | by eapply good_trans].
  - apply (exn_have (STEP_ARGS ∈ keys /\ STEP_FUNC_BODY ∈ keys)).
    { intros d [[Hi He] Hk]. pose proof (repr_mono root wf wf_nonempty _ _ He _ _ Hp) as Hp'. rewrite !Hk by in_names. by inversion Hp'. }
    intros [Ha Hf]. rewrite !bool_decide_true by done. inversion Hp as [? ? ids Hi _ _ _ _ _ Hl]; subst.
    eapply exn_try with (R' := crashed fs0).
    + eapply exn_bind; [eapply exn_pre; [|eapply read_known; [|exact Hi]; in_names]; by intros d [Hg _]|].
      intros c. apply exn_pure. intros -> d Hg. cbn. eauto.
    + intros e He d [-> _]. done.
    + intros e d _ H. exact H.
Qed.

(** ** Running a step *)

Lemma retry_spec (P : disk -> Prop) (E : exn -> disk -> Prop) x run k : forall i last, (1 <= k)%nat \/ last = x ->
  (forall i, triple_exn P (run i) (fun o d => o = x /\ P d) E) -> triple_exn P (retry k i run last) (fun o d => o = x /\ P d) E.
Proof.
  induction k as [|k IH]; intros i last Hk Hr; cbn [retry].
  - destruct Hk as [? | ->]; [lia|]. by intros d Hd.
  - eapply exn_bind; [apply Hr|]. intros o. apply exn_pure. intros ->. destruct x as [v|e|w]; [by intros d Hd | apply IH; auto | by intros d Hd].
Qed.

Lemma attempts_spec fs0 id p body vs :
  repr fs0 id p -> body = Some (func_body p) \/ body = None ->
  triple_exn (fun d => Good fs0 (files d)) (retry (max_retries (opts p)) 0 (attempt root wf call of_exn id body (args p) vs) (Returned none))
    (fun r d => r = call (func_body p) (args p) vs 0 /\ Good fs0 (files d)) (crashed fs0).
Proof.
  intros Hp Hb. apply (retry_spec _ _ (call (func_body p) (args p) vs 0)); [left; by destruct Hp|]. intros i. unfold attempt. destruct Hb as [->| ->].
  - intros d Hd. cbn. by rewrite call_again.
  - eapply exn_try with (R' := crashed fs0).
    + eapply exn_bind; [by apply load_func_spec|]. intros f. apply exn_pure. intros -> d Hd. cbn. by rewrite call_again.
    + intros e He d [-> _]. done.
    + intros e d _ H. exact H.
Qed.

(** ** Saving an output *)

(** The context of a step that computes [p]: the outermost step, if any, leads to it. *)
Definition ctx_ok fs (c : context) p : Prop :=
  outer_most_step_id c = "" \/
  (is_Some (sf fs (outer_most_step_id c) STEP_OUTPUTS_METADATA) /\ exists p0, repr fs (outer_most_step_id c) p0 /\ reduces p0 p).

Lemma update_dynamic_spec fs0 c id p :
  ctx_ok fs0 c p -> repr fs0 id p ->
  triple_exn (fun d => Good fs0 (files d)) (_update_dynamic_output uuid_hex root wf (outer_most_step_id c) id)
    (fun _ d => Good fs0 (files d)) (crashed fs0).
Proof.
  intros Hc Hp. unfold _update_dynamic_output. apply exn_if; [by intros _ d Hd|]. intros Hne%bool_decide_eq_false_1.
  destruct Hc as [?|(Ho & p0 & Hp0 & Hred)]; [done|]. set (oid := outer_most_step_id c) in *. eapply exn_bind.
  - eapply (exn_conseq _ _ _ (fun c d => Good fs0 (files d) /\ sf (files d) oid STEP_OUTPUTS_METADATA = Some c));
      [apply (read_stable root wf wf_nonempty (Good fs0) oid STEP_OUTPUTS_METADATA); in_names | intros d H; exact H | intros x d [? ?]; done |].
    intros e d [[Hi He] [->|[-> E]]]; [done|]. destruct (ext_outputs _ _ _ _ He oid _ (or_intror eq_refl) Ho) as [x Hx]. congruence.
  - intros m. apply (good_now root wf call result_and_exception entry (fun fs => sf fs oid STEP_OUTPUTS_METADATA = Some m)). intros fs1 He Hi Hm.
    apply (inv_file _ _ _ _ _ _ Hi) in Hm; [|in_names]. destruct Hm as [(? & _)|(Ha & _ & H)]; [done|].
    destruct (H eq_refl) as (p' & t & q & dyn & Hr & -> & Hq & Hpq & Hd). apply exn_if; intros _.
    + eapply exn_conseq; [apply (write_good uuid_hex uuid_is_hex root wf wf_nonempty call result_and_exception entry fs1) | intros d Hg; exact Hg | |]; [in_names | unfold core; set_solver | | |].
      * intros fs [Hi' He']. pose proof (repr_mono root wf wf_nonempty _ _ He') as Hm.
        assert (ext fs0 fs) as He0 by (by etransitivity). right. split_and!; [by eapply allocated_mono; [exact He'|] | done|]. intros _.
        exists p', t, q, (Some id). split_and!; [by apply Hm | done | by apply Hm | done|]. intros t' [= <-]. exists p.
        split; [by eapply repr_mono|]. intros n o En. apply Hred. rewrite <- En. eapply (repr_eval root wf call result_and_exception fs); [eapply repr_mono; [| exact He0 | exact Hp0]; done | by apply Hm].
      * intros u d [Hg _]. by eapply good_trans.
      * intros e d [-> Hg]. split; [done | by eapply good_trans].
    + intros d Hg. by eapply good_trans.
Qed.

Lemma progress_key : make_key root (_key_workflow_progress wf) = make_key root (step_file wf "" WORKFLOW_PROGRESS).
Proof. rewrite make_key_step by done. unfold make_key, _key_workflow_progress. by rewrite !filter_cons, !decide_True, filter_nil by done. Qed.

Lemma save_output_spec fs0 c id p v n :
  repr fs0 id p -> ctx_ok fs0 c p -> eval n p = Some (OVal v) ->
  triple_exn (fun d => Good fs0 (files d)) (save_output uuid_hex root wf c id v) (fun _ d => Good fs0 (files d)) (crashed fs0).
Proof.
  intros Hp Hc Hv. unfold save_output, save_value. eapply exn_bind; [eapply exn_bind|].
  - eapply exn_conseq; [apply (write_good uuid_hex uuid_is_hex root wf wf_nonempty call result_and_exception entry fs0 id STEP_OUTPUT (CVal v)) | intros d H; exact H | intros u d [H _]; exact H | intros e d H; exact H].
    + in_names.
    + unfold core. set_solver.
    + intros fs [Hi He]. pose proof (repr_mono root wf wf_nonempty _ _ He _ _ Hp) as Hp'. right. split_and!; [by eapply repr_allocated | | done].
      intros _. by exists p, n, v.
  - intros u. apply (update_dynamic_spec fs0 c id p Hc Hp).
  - intros u. apply exn_if; [intros _ | by intros _ d Hd]. unfold advance_progress, _put. rewrite progress_key.
    eapply exn_conseq; [apply (write_good uuid_hex uuid_is_hex root wf wf_nonempty call result_and_exception entry fs0 "" WORKFLOW_PROGRESS) | intros d H; exact H | intros u' d [H _]; exact H | intros e d H; exact H].
    + in_names.
    + unfold core. set_solver.
    + intros fs _. left. auto.
Qed.

(** ** [execute_workflow] *)

Definition exec_ok fs (e : dict string (@out Val Exc)) : Prop :=
  forall id r, dget id e = Some r -> exists p n, repr fs id p /\ eval n p = Some r.
Abbreviation world := (@world Val Exc Func Args).
Definition GoodW fs0 (s : world) : Prop := Good fs0 (files (w_disk s)) /\ exec_ok (files (w_disk s)) (executed s).
Definition crashedW fs0 (e : exn) (s : world) : Prop := crashed fs0 e (w_disk s).

Lemma exec_ok_mono fs fs' e : ext fs fs' -> exec_ok fs e -> exec_ok fs' e.
Proof. intros He H id r E. destruct (H id r E) as (p & n & Hp & Ev). exists p, n. split; [by eapply repr_mono | done]. Qed.

Abbreviation manager := (manager disk string).

(** Calls of the manager and of the storage *)
Lemma on_manager_spec {A : Type} fs0 (m : ST manager A) (Q : A -> fsys -> Prop) :
  (forall fs1, ext fs0 fs1 -> Inv fs1 ->
     triple_exn (fun g => Good fs1 (files (_store g))) m (fun a g => Good fs1 (files (_store g)) /\ Q a (files (_store g)))
       (fun e g => crashed fs1 e (_store g))) ->
  triple_exn (GoodW fs0) (on_manager m) (fun a s => GoodW fs0 s /\ Q a (files (w_disk s))) (crashedW fs0).
Proof.
  intros H s [[Hi He] Hx]. specialize (H _ He Hi (w_manager s) (good_refl _ _ _ _ _ _ Hi)). unfold on_manager, st_zoom.
  destruct (m (w_manager s)) as [g [a|e]].
  - destruct H as [[Hi' He'] Hq]. split; [|done]. split; [split; [done | by etransitivity] | by eapply exec_ok_mono].
  - destruct H as [-> Hg]. split; [done | by eapply good_trans].
Qed.

Lemma in_store_spec {A : Type} (m : ST disk A) (P : disk -> Prop) Q R :
  triple_exn P m Q R -> triple_exn (fun g : manager => P (_store g)) (in_store m) (fun a g => Q a (_store g)) (fun e g => R e (_store g)).
Proof. intros H g Hg. specialize (H (_store g) Hg). unfold in_store, st_zoom. by destruct (m (_store g)) as [d [a|e]]. Qed.

Lemma on_disk_spec {A : Type} fs0 (m : ST disk A) (Q : A -> fsys -> Prop) :
  (forall fs1, ext fs0 fs1 -> Inv fs1 ->
     triple_exn (fun d => Good fs1 (files d)) m (fun a d => Good fs1 (files d) /\ Q a (files d)) (crashed fs1)) ->
  triple_exn (GoodW fs0) (on_disk m) (fun a s => GoodW fs0 s /\ Q a (files (w_disk s))) (crashedW fs0).
Proof. intros H. apply on_manager_spec. intros fs1 He Hi. exact (in_store_spec _ _ _ _ (H fs1 He Hi)). Qed.

(** A write that other facts do not depend on *)
Lemma on_disk_good {A : Type} fs0 (m : ST disk A) :
  (forall fs1, ext fs0 fs1 -> Inv fs1 -> triple_exn (fun d => Good fs1 (files d)) m (fun _ d => Good fs1 (files d)) (crashed fs1)) ->
  triple_exn (GoodW fs0) (on_disk m) (fun _ => GoodW fs0) (crashedW fs0).
Proof.
  intros H. eapply exn_conseq; [apply (on_disk_spec fs0 m (fun _ _ => True)) | intros s Hs; exact Hs | intros a s [Hs _]; exact Hs | intros e s Hs; exact Hs].
  intros fs1 He Hi. eapply exn_conseq; [by apply H | intros d Hd; exact Hd | done | intros e d Hd; exact Hd].
Qed.

Lemma write_meta_file fs0 nm c :
  nm ∈ [WORKFLOW_META; WORKFLOW_USER_METADATA; WORKFLOW_PRERUN_METADATA; WORKFLOW_POSTRUN_METADATA] ->
  triple_exn (fun d => Good fs0 (files d)) (_put uuid_hex root [wf; nm] c) (fun _ d => Good fs0 (files d)) (crashed fs0).
Proof.
  intros Hn. apply write_meta; [done.. | |]; rewrite !elem_of_cons, elem_of_nil in Hn; destruct Hn as [->|[->|[->|[->|[]]]]];
    done || (eapply regular_intro; [reflexivity | done | reflexivity | reflexivity]).
Qed.

(** The status that a step reports *)
Lemma record_status_spec fs0 sid st :
  triple_exn (GoodW fs0) (_record_step_status uuid_hex root wf sid st) (fun _ => GoodW fs0) (crashedW fs0).
Proof.
  unfold _record_step_status. eapply exn_conseq; [apply (on_manager_spec fs0 _ (fun _ _ => True)) | intros s Hs; exact Hs | intros u s [Hs _]; exact Hs | intros e s Hs; exact Hs].
  intros fs1 _ _. set (P := fun g : manager => Good fs1 (files (_store g))). set (E := fun e (g : manager) => crashed fs1 e (_store g)).
  assert (forall nm c, nm ∈ [WORKFLOW_META; WORKFLOW_USER_METADATA; WORKFLOW_PRERUN_METADATA; WORKFLOW_POSTRUN_METADATA] ->
    triple_exn P (in_store (_put uuid_hex root [wf; nm] c)) (fun _ => P) E) as Hput by (intros nm c Hn; exact (in_store_spec _ _ _ _ (write_meta_file fs1 nm c Hn))).
  eapply (exn_conseq _ P _ _ (fun _ => P) _ E); [|done | done | done]. unfold update_step_status.
  eapply (exn_bind _ _ (fun _ => P)); [by intros g Hg | intros ?]. eapply (exn_bind _ _ (fun _ => P)); [by intros g Hg | intros steps].
  eapply (exn_bind _ _ (fun _ => P)); [by intros g Hg | intros ?].
  eapply (exn_bind _ _ (fun _ => P)); [apply exn_if; intros _; by intros g Hg | intros ?]. apply exn_if; intros _; [by intros g Hg|].
  eapply (exn_bind _ _ (fun _ => P)).
  { apply exn_if; intros _; [eapply (exn_bind _ _ (fun _ => P)); [by intros g Hg | intros ?] |]; apply Hput; set_solver. }
  intros ?. eapply (exn_bind _ _ (fun _ => P)); [by intros g Hg | intros ?]. apply Hput. set_solver.
Qed.

Lemma record_spec fs0 id p n o :
  repr fs0 id p -> eval n p = Some o -> triple_exn (GoodW fs0) (record id o) (fun r s => r = o /\ GoodW fs0 s) (crashedW fs0).
Proof.
  intros Hp Ho s [[Hi He] Hx]. cbn. split; [done|]. split; [done|]. cbn. intros id' r. rewrite dget_dset.
  destruct (decide (id = id')) as [<-|]; [|by apply Hx]. intros [= <-]. exists p, n. split; [by eapply repr_mono | done].
Qed.

Lemma goodW_trans fs0 fs1 s : ext fs0 fs1 -> GoodW fs1 s -> GoodW fs0 s.
Proof. intros He [Hg Hx]. split; [by eapply good_trans | done]. Qed.

Lemma goodW_now {A : Type} (F : fsys -> Prop) fs0 (m : ST world A) (Q : A -> Prop) :
  (forall fs1, ext fs0 fs1 -> Inv fs1 -> F fs1 -> triple_exn (GoodW fs1) m (fun a s => Q a /\ GoodW fs1 s) (crashedW fs1)) ->
  triple_exn (fun s => GoodW fs0 s /\ F (files (w_disk s))) m (fun a s => Q a /\ GoodW fs0 s) (crashedW fs0).
Proof.
  intros H s [[[Hi He] Hx] Hf]. specialize (H _ He Hi Hf s (conj (good_refl _ _ _ _ _ _ Hi) Hx)).
  destruct (m s) as [s' [a|e]]; [split; [apply H | eapply goodW_trans; [done | apply H]]|]. destruct H as [-> Hg]. split; [done | by eapply good_trans].
Qed.

(** ** [_workflow_step_executor] *)

Lemma wrap_run_spec fs0 id p body vs :
  repr fs0 id p -> body = Some (func_body p) \/ body = None ->
  triple_exn (GoodW fs0) (_wrap_run uuid_hex root wf call result_and_exception none of_exn id body (args p) vs (opts p))
    (fun r s => r = step_result p vs /\ GoodW fs0 s) (crashedW fs0).
Proof.
  intros Hp Hb. unfold _wrap_run. eapply (exn_bind _ _ (fun r s => r = call (func_body p) (args p) vs 0 /\ GoodW fs0 s)).
  - eapply exn_conseq; [apply (on_disk_spec fs0 _ (fun r _ => r = call (func_body p) (args p) vs 0)) | intros s Hs; exact Hs | intros r s [? ?]; done | intros e s Hs; exact Hs].
    intros fs1 He Hi. eapply exn_conseq; [apply (attempts_spec fs1 id p body vs); [by eapply repr_mono | done] | intros d Hd; exact Hd | intros r d [? ?]; done | intros e d Hd; exact Hd].
  - intros r. apply exn_pure. intros ->. fold (step_result p vs). eapply (exn_bind _ _ (fun _ => GoodW fs0)); [|by intros u s Hs].
    destruct (step_result p vs); [by intros s Hs | apply record_status_spec | by intros s Hs].
Qed.

Lemma step_result_fine p vs q : step_result p vs = WNested q -> fine q.
Proof.
  unfold WorkflowInv.step_result, wrap. destruct (call _ _ _ _) as [v|e|w] eqn:E; [by destruct (catch_exceptions _).. |].
  intros [= <-]. apply call_fine in E. destruct (catch_exceptions _); [by apply fine_set_catch | done].
Qed.

Lemma ctx_ok_mono fs fs' c p : ext fs fs' -> ctx_ok fs c p -> ctx_ok fs' c p.
Proof.
  intros He [?|(Hs & p0 & Hp0 & Hr)]; [by left | right]. split; [eapply ext_outputs; [done | by right | done]|].
  exists p0. split; [by eapply repr_mono | done].
Qed.

Lemma note_spec fs0 id nm c p :
  nm ∈ [STEP_USER_METADATA; STEP_PRERUN_METADATA; STEP_POSTRUN_METADATA; STEP_EXCEPTION] -> repr fs0 id p ->
  triple_exn (GoodW fs0) (on_disk (_put uuid_hex root (step_file wf id nm) c)) (fun _ => GoodW fs0) (crashedW fs0).
Proof. intros Hn Hp. apply on_disk_good. intros fs1 He Hi. eapply write_note; [done.. | by eapply repr_mono]. Qed.

Lemma run_step_spec fs0 c id p body vs os n :
  repr fs0 id p -> body = Some (func_body p) \/ body = None -> ctx_ok fs0 c p ->
  mapM (eval n) (inputs p) = Some os -> resolve os = inl vs ->
  triple_exn (GoodW fs0)
    (run_step uuid_hex root wf call result_and_exception none of_exn c id body (args p) vs (opts p))
    (fun r s => GoodW fs0 s /\
       match r with
       | inl o => eval (S n) p = Some o
       | inr nested => exists q, (forall k, wf_for k (files (w_disk s)) nested q) /\ step_result p vs = WNested q /\
           is_Some (sf (files (w_disk s)) id STEP_OUTPUTS_METADATA)
       end) (crashedW fs0).
Proof.
  intros Hp Hb Hc Hos Hvs. pose proof (eval_step call result_and_exception n p os vs Hos Hvs) as Hev. unfold run_step, write_file_of.
  eapply exn_bind; [eapply note_spec; [set_solver | done]|]. intros u. eapply exn_bind; [by apply wrap_run_spec|].
  intros r. apply exn_pure. intros ->. destruct (step_result p vs) as [v|e|w] eqn:Er.
  - eapply exn_bind; [eapply note_spec; [set_solver | done]|]. intros u'. eapply exn_bind.
    { apply on_disk_good. intros fs1 He Hi. eapply save_output_spec; [by eapply repr_mono | by eapply ctx_ok_mono | done]. }
    intros u''. eapply exn_bind; [apply record_status_spec|]. by intros ? s Hs.
  - unfold save_exception. eapply exn_bind; [eapply note_spec; [set_solver | done]|]. by intros ? s Hs.
  - eapply exn_bind; [eapply note_spec; [set_solver | done]|]. intros u'. apply (exn_bind_ret _ _ inr).
    apply (on_disk_spec fs0 _ (fun nested fs => exists q, (forall k, wf_for k fs nested q) /\ WNested w = WNested q /\ is_Some (sf fs id STEP_OUTPUTS_METADATA))).
    intros fs1 He1 Hi1. assert (repr fs1 id p) as Hp1 by (by eapply repr_mono).
    eapply exn_conseq; [eapply (commit_nested_spec uuid_hex uuid_is_hex root wf wf_nonempty call result_and_exception entry fs1 id w) | intros d H; exact H | | intros e d H; exact H].
    + by eapply step_result_fine.
    + right. by exists p.
    + intros fs t [Hi He] Ht. pose proof (repr_mono root wf wf_nonempty _ _ He _ _ Hp1) as Hp'. right. split_and!; [by eapply repr_allocated | done|].
      intros _. exists p, t, w, None. split_and!; [done.. | by eapply nested_reduces | done].
    + intros nested d (Hg & Hw & Hs). split; [done|]. by exists w.
Qed.

(** ** The inputs and the workflow *)

Lemma inputs_spec {X : Type} fs0 n (f : X -> ST world (@out Val Exc)) (Rel : X -> pywf -> Prop) ins qs :
  (forall x q o, Rel x q -> eval n q = Some o -> triple_exn (GoodW fs0) (f x) (fun r s => r = o /\ GoodW fs0 s) (crashedW fs0)) ->
  Forall2 Rel ins qs -> forall os, mapM (eval n) qs = Some os ->
  triple_exn (GoodW fs0) (st_map f ins) (fun os' s => os' = os /\ GoodW fs0 s) (crashedW fs0).
Proof.
  intros Hf. induction 1 as [|x q ins qs Hx _ IH]; intros os; cbn [st_map mapM].
  - intros [= <-] s Hs. done.
  - intros (o & Ho & (os' & Hos & [= <-])%bind_Some)%bind_Some. eapply exn_bind; [by apply (Hf x q o)|]. intros y. apply exn_pure. intros ->.
    eapply exn_bind; [by apply (IH os')|]. intros ys. apply exn_pure. intros -> s Hs. done.
Qed.

Lemma execute_spec n : forall fs0 c w p o,
  wf_for n fs0 w p -> ctx_ok fs0 c p -> eval n p = Some o ->
  triple_exn (GoodW fs0) (execute_workflow uuid_hex root wf call result_and_exception none of_exn n c w)
    (fun r s => r = o /\ GoodW fs0 s) (crashedW fs0).
Proof.
  induction n as [|n IH]; intros fs0 c [id body a ins op] p o Hw Hc Ho; [done|].
  cbn [WorkflowCommit.wf_for] in Hw. destruct Hw as (Hp & Hb & -> & -> & Hins). cbn [execute_workflow].
  eapply exn_bind; [apply exn_gets|]. intros done. destruct done as [r|].
  { intros s [E Hs]. cbn. split; [|done]. symmetry in E. destruct Hs as [[Hi He] Hx]. destruct (Hx id r E) as (p' & k & Hp' & Ek).
    eapply eval_fun; [|exact Ho]. rewrite <- Ek. eapply repr_eval; [|exact Hp']. by eapply repr_mono. }
  pose proof Ho as Ho'. cbn [WorkflowExec.eval] in Ho'. apply bind_Some in Ho' as (os & Hos & Hres).
  eapply exn_bind; [eapply exn_pre; [|eapply inputs_spec; [| exact Hins | exact Hos]]; [by intros s [_ Hs]|]|].
  { intros [w'|v] q oq Hx Hq; cbn beta iota in *.
    - destruct Hx as (q' & Hw' & Hl). apply (IH fs0 _ w' q' oq); [done | by left | by apply Hl].
    - destruct Hx as [k Hk]. intros s Hs. cbn. split; [by eapply eval_fun | done]. }
  intros os'. apply exn_pure. intros ->. eapply exn_bind; [apply record_status_spec|]. intros ?. destruct (resolve os) as [vs|e] eqn:Hvs.
  2:{ injection Hres as <-. by eapply record_spec. }
  eapply exn_bind; [by eapply run_step_spec|]. intros [res|nested].
  - eapply exn_pre with (P' := fun s => (eval (S n) p = Some res) /\ GoodW fs0 s); [by intros s [? ?]|]. apply exn_pure. intros Hr.
    assert (res = o) as -> by congruence. by eapply record_spec.
  - apply (goodW_now (fun fs => exists q, (forall k, wf_for k fs nested q) /\ step_result p vs = WNested q /\ is_Some (sf fs id STEP_OUTPUTS_METADATA)) fs0 _ (fun r => r = o)).
    intros fs1 He Hi (q & Hq & Hnest & Hs). pose proof (nested_reduces _ _ _ _ _ _ _ Hos Hvs Hnest) as Hred.
    eapply exn_bind.
    + apply (IH fs1 (nested_context c id) nested q o); [apply Hq | | by apply Hred]. right. unfold nested_context. cbn [outer_most_step_id].
      case_bool_decide as Ec; [split; [done|]; exists p; split; [by eapply repr_mono | done]|].
      destruct (ctx_ok_mono _ _ _ _ He Hc) as [?|(Hs' & p0 & Hp0 & Hr)]; [done|]. split; [done|]. exists p0. split; [done | by eapply reduces_trans].
    + intros res. apply exn_pure. intros ->. eapply exn_bind; [apply record_status_spec|]. intros ?. eapply record_spec; [by eapply repr_mono | exact Ho].
Qed.

(** ** [_construct_resume_workflow_from_step] *)

Lemma good_then {A : Type} (F : fsys -> Prop) fs0 (m : ST disk A) (Q : A -> fsys -> Prop) :
  (forall fs1, ext fs0 fs1 -> Inv fs1 -> F fs1 ->
     triple_exn (fun d => Good fs1 (files d)) m (fun a d => Good fs1 (files d) /\ Q a (files d)) (crashed fs1)) ->
  triple_exn (fun d => Good fs0 (files d) /\ F (files d)) m (fun a d => Good fs0 (files d) /\ Q a (files d)) (crashed fs0).
Proof.
  intros H d [[Hi He] Hf]. specialize (H _ He Hi Hf d (good_refl _ _ _ _ _ _ Hi)).
  destruct (m d) as [d' [a|e]]; [split; [eapply good_trans; [done | apply H] | apply H]|]. destruct H as [-> Hg]. split; [done | by eapply good_trans].
Qed.

(** A workflow, or a step with an output, for [q] *)
Definition resumed_ok fs (r : @workflow Val Func Args + string) q : Prop :=
  exists q', leads q q' /\
    match r with inl w => forall n, wf_for n fs w q' | inr id => repr fs id q' /\ is_Some (sf fs id STEP_OUTPUT) end.
Definition map_ok fs (m : dict string (@workflow Val Func Args + string)) : Prop :=
  forall id r, dget id m = Some r -> exists q, repr fs id q /\ resumed_ok fs r q.
Definition input_ok fs (x : @workflow Val Func Args + Val) q : Prop :=
  match x with
  | inl w => exists q', (forall n, wf_for n fs w q') /\ leads q q'
  | inr v => exists k, eval k q = Some (OVal v)
  end.

Lemma resumed_ok_mono fs fs' r q : ext fs fs' -> resumed_ok fs r q -> resumed_ok fs' r q.
Proof.
  intros He (q' & Hl & H). exists q'. split; [done|]. destruct r as [w|id].
  - intros n. by eapply wf_for_mono.
  - destruct H as [Hr Ho]. split; [by eapply repr_mono|]. eapply ext_outputs; [done | by left | done].
Qed.

Lemma map_ok_mono fs fs' m : ext fs fs' -> map_ok fs m -> map_ok fs' m.
Proof.
  intros He H id r E. destruct (H id r E) as (q & Hq & Hr). exists q. split; [by eapply repr_mono | by eapply resumed_ok_mono].
Qed.

Lemma input_ok_mono fs fs' x q : ext fs fs' -> input_ok fs x q -> input_ok fs' x q.
Proof. intros He. destruct x as [w|v]; [|done]. intros (q' & H & Hl). exists q'. split; [|done]. intros n. by eapply wf_for_mono. Qed.

Lemma load_input_spec fs0 r q n o :
  resumed_ok fs0 r q -> eval n q = Some o ->
  triple_exn (fun d => Good fs0 (files d)) (load_input root wf r)
    (fun x d => Good fs0 (files d) /\ input_ok (files d) x q) (crashed fs0).
Proof.
  intros (q' & Hl & H) Ho. destruct r as [w|id]; cbn [load_input].
  - intros d [Hi He]. cbn. split; [done|]. exists q'. split; [|done]. intros k. by eapply wf_for_mono.
  - destruct H as [Hr Hs]. eapply exn_bind; [by apply (load_output_spec fs0 id q')|]. intros r d [Hg (v & k & -> & Hv)]. cbn. split; [done|].
    exists n. rewrite Ho. f_equal. by eapply eval_fun; [apply Hl|].
Qed.

Abbreviation construct := (_construct_resume_workflow_from_step root wf).

Section Inputs.
Variable n : nat.
Hypothesis construct_ok : forall fs0 id q o m,
  repr fs0 id q -> eval n q = Some o -> map_ok fs0 m ->
  triple_exn (fun d => Good fs0 (files d)) (construct n id m)
    (fun x d => Good fs0 (files d) /\ resumed_ok (files d) x.1 q /\ map_ok (files d) x.2) (crashed fs0).

Lemma construct_input fs0 id q o m :
  repr fs0 id q -> eval n q = Some o -> map_ok fs0 m ->
  triple_exn (fun d => Good fs0 (files d))
    (match dget id m with Some r => mret (r, m) | None => '(r, m') ← construct n id m; mret (r, dset id r m') end)
    (fun x d => Good fs0 (files d) /\ resumed_ok (files d) x.1 q /\ map_ok (files d) x.2) (crashed fs0).
Proof.
  intros Hq Ho Hm. destruct (dget id m) as [r|] eqn:E.
  - intros d [Hi He]. cbn. split; [done|]. split; [|by eapply map_ok_mono]. destruct (Hm id r E) as (q' & Hq' & Hr).
    eapply resumed_ok_mono; [done|]. destruct Hr as (q2 & Hl & H). exists q2. split; [|done].
    intros k x Hx. apply Hl. rewrite <- Hx. by eapply repr_eval.
  - eapply exn_bind; [by eapply construct_ok|]. intros [r m'] d ([Hi He] & Hr & Hm'). cbn in *. split; [done|]. split; [done|].
    intros id' r'. rewrite dget_dset. destruct (decide (id = id')) as [<-|]; [|by apply Hm']. intros [= <-]. exists q. split; [by eapply repr_mono | done].
Qed.

Lemma construct_inputs_spec ids : forall fs0 qs os m,
  Forall2 (repr fs0) ids qs -> mapM (eval n) qs = Some os -> map_ok fs0 m ->
  triple_exn (fun d => Good fs0 (files d)) (construct_inputs root wf (construct n) ids m)
    (fun x d => Good fs0 (files d) /\ Forall2 (input_ok (files d)) x.1 qs /\ map_ok (files d) x.2) (crashed fs0).
Proof.
  induction ids as [|id ids IH]; intros fs0 qs os m Hq Hos Hm; inversion Hq as [|? q ? qs' Hq1 Hq2]; subst; cbn [construct_inputs].
  - intros d [Hi He]. cbn. split; [done|]. split; [constructor | by eapply map_ok_mono].
  - cbn [mapM] in Hos. apply bind_Some in Hos as (o & Ho & (os' & Hos & _)%bind_Some).
    eapply exn_bind; [by eapply construct_input|]. intros [r m']. cbn [fst snd].
    apply (good_then (fun fs => resumed_ok fs r q /\ map_ok fs m') fs0 _ (fun x fs => Forall2 (input_ok fs) x.1 (q :: qs') /\ map_ok fs x.2)).
    intros fs1 He1 Hi1 (Hr & Hm'). eapply exn_bind; [by eapply load_input_spec|]. intros x.
    apply (good_then (fun fs => input_ok fs x q) fs1 _ (fun x fs => Forall2 (input_ok fs) x.1 (q :: qs') /\ map_ok fs x.2)).
    intros fs2 He2 Hi2 Hx. eapply exn_bind.
    + apply (IH fs2 qs' os' m'); [|done | by eapply map_ok_mono].
      eapply Forall2_impl; [exact Hq2|]. intros i y Hy. eapply repr_mono; [done | | exact Hy]. by etransitivity.
    + intros [xs m2] d (Hg & Hxs & Hm2). cbn in *. split; [done|]. split; [|done]. constructor; [|done]. eapply input_ok_mono; [apply Hg | done].
Qed.
End Inputs.

Lemma construct_spec n : forall fs0 id p o m,
  repr fs0 id p -> eval n p = Some o -> map_ok fs0 m ->
  triple_exn (fun d => Good fs0 (files d)) (construct n id m)
    (fun x d => Good fs0 (files d) /\ resumed_ok (files d) x.1 p /\ map_ok (files d) x.2) (crashed fs0).
Proof.
  induction n as [|n IH]; intros fs0 id p o m Hp Ho Hm; [done|]. cbn [_construct_resume_workflow_from_step].
  eapply exn_bind; [by apply inspect_step_spec|]. intros r.
  apply (good_then (inspected fs0 p id r) fs0 _ (fun x fs => resumed_ok fs x.1 p /\ map_ok fs x.2)). intros fs1 He1 Hi1 Hins.
  assert (repr fs1 id p) as Hp1 by (by eapply repr_mono). assert (map_ok fs1 m) as Hm1 by (by eapply map_ok_mono).
  destruct r as [|t|a f ws op]; cbn [inspected] in Hins.
  - intros d [Hi He]. cbn. split; [done|]. split; [|by eapply map_ok_mono]. exists p. split; [by intros ? ?|]. split; [by eapply repr_mono|].
    eapply ext_outputs; [done | by left | done].
  - destruct Hins as (q & Hq & Hred). eapply exn_conseq; [apply (IH fs1 t q o m Hq (Hred _ _ Ho) Hm1) | intros d H; exact H | | intros e d H; exact H].
    intros x d (Hg & (q' & Hl & Hr) & Hx). split; [done|]. split; [|done]. exists q'. split; [|done].
    intros k y Hy. apply Hl. by eapply reduces_leads.
  - destruct Hins as (ids & [= -> -> -> ->] & Hids). pose proof Ho as Ho'. cbn [WorkflowExec.eval] in Ho'. apply bind_Some in Ho' as (os & Hos & _).
    eapply exn_bind; [apply (construct_inputs_spec n IH ids fs1 (inputs p) os m); [|done | done]|].
    { eapply Forall2_impl; [exact Hids|]. intros i q Hi. by eapply repr_mono. }
    intros [ins m']. cbn [fst snd]. apply (good_then (fun fs => Forall2 (input_ok fs) ins (inputs p) /\ map_ok fs m') fs1 _ (fun x fs => resumed_ok fs x.1 p /\ map_ok fs x.2)).
    intros fs2 He2 Hi2 (Hin & Hm2). assert (repr fs2 id p) as Hp2 by (by eapply repr_mono).
    eapply exn_bind; [by apply load_args_spec|]. intros a. apply exn_pure. intros -> d [Hi He]. cbn. split; [done|]. split; [|by eapply map_ok_mono].
    exists p. split; [by intros ? ?|]. intros [|k]; [done|]. cbn [WorkflowCommit.wf_for]. split_and!; [by eapply repr_mono | by right | done | done|].
    eapply Forall2_impl; [exact Hin|]. intros [w|v] q; [|done]. intros (q' & Hw & Hl). exists q'. split; [|done]. eapply wf_for_mono; [done | exact He | apply Hw].
Qed.

(** ** [run] and [resume] *)

Variable fuel : nat.
Variable o : @out Val Exc.
Hypothesis entry_fine : fine entry.
Hypothesis entry_result : eval fuel entry = Some o.
Abbreviation run := (run uuid_hex root wf call result_and_exception none of_exn fuel entry).
Abbreviation resume := (resume uuid_hex root wf call result_and_exception none of_exn fuel).

Lemma resume_executor_spec fs0 id :
  repr fs0 id entry ->
  triple_exn (GoodW fs0) (_resume_workflow_step_executor uuid_hex root wf call result_and_exception none of_exn fuel id)
    (fun r s => r = o /\ GoodW fs0 s) (crashedW fs0).
Proof.
  intros Hp. unfold _resume_workflow_step_executor. eapply exn_bind.
  - eapply exn_try with (R' := crashedW fs0).
    + apply (on_disk_spec fs0 _ (fun x fs => resumed_ok fs x.1 entry)). intros fs1 He Hi.
      eapply exn_conseq; [apply (construct_spec fuel fs1 id entry o []); [by eapply repr_mono | done | done] | intros d H; exact H | | intros e d H; exact H].
      intros x d (Hg & Hr & _). done.
    + intros e He s [-> _]. done.
    + intros e s _ H. exact H.
  - intros [r m]. cbn [fst]. apply (goodW_now (fun fs => resumed_ok fs r entry) fs0 _ (fun x => x = o)). intros fs1 He Hi (q & Hl & Hr).
    destruct r as [w|t].
    + apply (execute_spec fuel fs1 _ w q o); [apply Hr | by left | by apply Hl].
    + destruct Hr as [Hr Hs]. eapply exn_conseq; [apply (on_disk_spec fs1 _ (fun x _ => exists v n, x = OVal v /\ eval n q = Some (OVal v))) | intros s H; exact H | | intros e s H; exact H].
      * intros fs2 He2 Hi2. apply (load_output_spec fs2 t q); [by eapply repr_mono|]. eapply ext_outputs; [done | by left | done].
      * intros x s [Hg (v & n & -> & Hv)]. split; [|done]. by eapply eval_fun; [|apply Hl].
Qed.

(** A new manager saves the status and finds the first step. *)
Lemma start_task_spec fs0 d :
  Good fs0 (files d) ->
  let '(g, r) := run_or_resume (StoreOps0 := ops uuid_hex root) (fun _ sid _ => sid) wf false (mkManager d [] [] []) in
  Good fs0 (files (_store g)) /\
  match r with
  | Ok t => repr (files (_store g)) t entry
  | Err e => e = Crashed \/ (e = ValueError /\ sf (files (_store g)) "" STEP_OUTPUTS_METADATA = None)
  end.
Proof.
  set (E := fun e (g : manager) => Good fs0 (files (_store g)) /\ (e = Crashed \/ (e = ValueError /\ sf (files (_store g)) "" STEP_OUTPUTS_METADATA = None))).
  enough (triple_exn (fun g : manager => _workflow_outputs g = [] /\ Good fs0 (files (_store g)))
    (run_or_resume (StoreOps0 := ops uuid_hex root) (fun _ sid _ => sid) wf false)
    (fun t g => Good fs0 (files (_store g)) /\ repr (files (_store g)) t entry) E) as H.
  { intros Hg. specialize (H (mkManager d [] [] []) (conj eq_refl Hg)). by destruct (run_or_resume _ _ _ _) as [g [t|e]]. }
  unfold run_or_resume. eapply exn_bind; [apply exn_gets|]. intros outs. apply (exn_have (outs = [])); [by intros g [-> [-> _]]|]. intros ->. cbn [dmem dget andb].
  eapply (exn_bind _ _ (fun _ g => Good fs0 (files (_store g)))).
  { eapply exn_conseq; [apply in_store_spec, (write_meta_file fs0 WORKFLOW_PRERUN_METADATA CMetadata); set_solver | by intros g (_ & _ & Hg) | done |].
    intros e g [-> Hg]. split; auto. }
  intros u. eapply exn_bind; [exact (in_store_spec _ _ _ _ (entrypoint_spec fs0))|]. intros t.
  do 2 (eapply (exn_bind _ _ (fun _ g => Good fs0 (files (_store g)) /\ repr (files (_store g)) t entry)); [intros g Hg; split; apply Hg | intros ?]).
  eapply (exn_bind _ _ (fun _ g => Good fs0 (files (_store g)) /\ repr (files (_store g)) t entry)); [|intros ?].
  - assert (triple_exn (fun d => Good fs0 (files d) /\ repr (files d) t entry) (_put uuid_hex root [wf; WORKFLOW_META] (CStatus RUNNING))
      (fun _ d => Good fs0 (files d) /\ repr (files d) t entry) (crashed fs0)) as Hput.
    { apply (good_then (fun fs => repr fs t entry) fs0 _ (fun _ fs => repr fs t entry)). intros fs1 He Hi Ht.
      eapply exn_conseq; [apply (write_meta_file fs1 WORKFLOW_META (CStatus RUNNING)); set_solver | intros d' H; exact H | | intros e d' H; exact H].
      intros ? d' Hg. split; [done | by eapply repr_mono; [done | apply Hg |]]. }
    eapply exn_conseq; [exact (in_store_spec _ _ _ _ Hput) | intros g Hg; exact Hg | intros ? g Hg; exact Hg|].
    intros e g [-> Hg]. split; auto.
  - eapply (exn_bind _ _ (fun _ g => Good fs0 (files (_store g)) /\ repr (files (_store g)) t entry)); [by intros g Hg | intros ?]. by intros g Hg.
Qed.

Lemma resume_spec fs0 :
  triple_exn (fun d => Good fs0 (files d)) resume (fun r d => r = o /\ Good fs0 (files d))
    (fun e d => Good fs0 (files d) /\ (e = Crashed \/ (e = ValueError /\ sf (files d) "" STEP_OUTPUTS_METADATA = None))).
Proof.
  intros d Hd. unfold WorkflowExec.resume, in_new_process, on_manager. st_simpl. cbn [w_manager executed].
  pose proof (start_task_spec fs0 d Hd) as H. destruct (run_or_resume _ _ _ _) as [g [t|e]]; [|exact H]. destruct H as [[Hi He] Ht].
  assert (GoodW (files (_store g)) (mkWorld g [])) as Hw by (split; [by apply good_refl | done]).
  pose proof (resume_executor_spec (files (_store g)) t Ht _ Hw) as H.
  destruct (_resume_workflow_step_executor _ _ _ _ _ _ _ _ _ _) as [s [r|e]].
  - destruct H as [-> [Hg _]]. split; [done | eapply good_trans; [exact He | exact Hg]].
  - destruct H as [-> Hg]. split; [eapply good_trans; [exact He | exact Hg] | by left].
Qed.

Lemma run_spec fs0 : triple_exn (fun d => Good fs0 (files d)) run (fun r d => r = o /\ Good fs0 (files d)) (crashed fs0).
Proof.
  unfold WorkflowExec.run. eapply exn_bind; [apply (write_meta_file fs0 WORKFLOW_USER_METADATA); set_solver|]. intros u.
  eapply (exn_bind _ _ (fun b d => Good fs0 (files d) /\ (b = true -> is_Some (sf (files d) "" STEP_OUTPUTS_METADATA)))).
  { eapply exn_try.
    - apply (exn_bind_ret _ _ (fun _ => true)). eapply exn_conseq; [apply (entrypoint_spec fs0) | intros d H; exact H | | intros e d H; exact H].
      intros t d (Hg & _ & Hs). done.
    - intros e He d [Hg _]. done.
    - intros e d He [Hg [->|[-> _]]]; done. }
  intros b. eapply (exn_bind _ _ (fun _ d => Good fs0 (files d) /\ is_Some (sf (files d) "" STEP_OUTPUTS_METADATA))).
  - apply exn_if; intros E.
    + intros d [Hg Hb]. cbn. auto.
    + apply (exn_bind_ret _ _ (fun _ => tt)). eapply exn_conseq;
        [apply (commit_nested_spec uuid_hex uuid_is_hex root wf wf_nonempty call result_and_exception entry fs0 "" entry entry_fine)
        | intros d [H _]; exact H | | intros e d H; exact H].
      * by left.
      * intros fs t _ Ht. left. eauto 10.
      * intros nested d (Hg & _ & Hs). done.
  - intros ? d [[Hi He] Hs]. pose proof (resume_spec (files d) d (good_refl _ _ _ _ _ _ Hi)) as H.
    destruct (resume d) as [d' [r|e]].
    + destruct H as [-> Hg]. split; [done | by eapply good_trans].
    + destruct H as [Hg [->|[-> Hn]]]; [split; [done | by eapply good_trans]|]. destruct Hg as [_ Hg].
      destruct (ext_outputs _ _ _ _ Hg "" _ (or_intror eq_refl) Hs) as [x Hx]. congruence.
Qed.

(** ** Any number of crashes *)

(** A process that starts the workflow or resumes it, and dies after so many
    changes of the disk, or not at all *)
Definition process (start : bool) (changes : option nat) (d : disk) : disk * result (@out Val Exc) :=
  (if start then run else resume) (mkDisk (files d) (uuid d) changes).
Definition processes (l : list (bool * option nat)) (d : disk) : disk := foldl (fun d '(start, changes) => (process start changes d).1) d l.

Lemma inv_empty : Inv ∅.
Proof.
  assert (forall k, view (∅ : fsys) k = None) as Hv by (intros k; unfold view; by rewrite !lookup_empty). split.
  - split; [|split]; [intros q _; by rewrite Hv | intros q [x Hx]; by rewrite lookup_empty in Hx | intros id _; apply Hv].
  - intros n c _. unfold WorkflowFiles.cnt. by rewrite Hv.
  - intros id nm c _. unfold WorkflowFiles.sf. by rewrite Hv.
Qed.

Lemma process_inv start changes d : Inv (files d) -> Inv (files (process start changes d).1).
Proof.
  intros Hi. unfold process. set (d0 := mkDisk (files d) (uuid d) changes). assert (Good (files d) (files d0)) as Hg by (by apply good_refl).
  destruct start.
  - pose proof (run_spec (files d) d0 Hg) as H. destruct (run d0) as [d' [r|e]]; cbn; apply H.
  - pose proof (resume_spec (files d) d0 Hg) as H. destruct (resume d0) as [d' [r|e]]; cbn; apply H.
Qed.

Lemma processes_inv l d : Inv (files d) -> Inv (files (processes l d)).
Proof. revert d. induction l as [|[start changes] l IH]; intros d Hi; [done|]. cbn. by apply IH, process_inv. Qed.

(** C9. Workflows survive crashes: take a workflow whose steps are deterministic
    and whose result (without any storage) is [o].  The names of its steps, and of
    the steps of the workflows that they return, can be those of directories, and
    none of them is another one with [_<number>] appended (the class [StepNames];
    otherwise the ids of different steps collide); every step may be tried at least
    once, and steps with the same identity are the same object.  Take any sequence
    of processes that start or resume the workflow in the same storage, each of
    which dies after an arbitrary number of changes of the disk, or not.  Then a
    further process that starts it, and is not killed, returns exactly [o]; if it
    is killed, it has returned [o] or nothing; and a process that resumes it
    returns [o] too, unless the workflow was never stored. *)
Theorem workflow_recovers l start changes :
  let d := processes l (mkDisk ∅ 0 None) in
  match (process start changes d).2 with
  | Ok r => r = o
  | Err e => e = Crashed /\ changes <> None \/ e = ValueError /\ start = false /\ sf (files d) "" STEP_OUTPUTS_METADATA = None
  end.
Proof.
  intros d. pose proof (processes_inv l (mkDisk ∅ 0 None) inv_empty) as Hi. fold d in Hi. unfold process.
  set (d0 := mkDisk (files d) (uuid d) changes). assert (Good (files d) (files d0)) as Hg by (by apply good_refl). destruct start.
  - pose proof (run_spec (files d) d0 Hg) as H. pose proof (run_calm uuid_hex root wf call result_and_exception none of_exn fuel entry d0) as Hc.
    destruct (run d0) as [d' [r|e]]; cbn; [apply H|]. destruct H as [-> _]. left. split; [done|]. intros ->. by destruct Hc as [_ ?].
  - pose proof (resume_spec (files d) d0 Hg) as H. pose proof (resume_calm uuid_hex root wf call result_and_exception none of_exn fuel d0) as Hc.
    destruct (resume d0) as [d' [r|e]]; cbn; [apply H|]. destruct H as [[_ He] [->|[-> Hn]]].
    + left. split; [done|]. intros ->. by destruct Hc as [_ ?].
    + right. split_and!; [done | done|]. apply eq_None_not_Some. intros Hs.
      destruct (ext_outputs _ _ _ _ He "" _ (or_intror eq_refl) Hs) as [x Hx]. congruence.
Qed.

End Run.
