(* ===== verification/WorkflowManagerProps.v ===== *)
(** The manager of workflows does for every workflow what an abstract tracker of
    that workflow alone does, however the calls for different workflows
    interleave; the file system storage is a storage as the manager expects it. *)

From Stdlib Require Import ZArith Lia.
From stdpp Require Import base list strings option gmap pretty.
From S2P Require Import Prelude PyDict Hoare WorkflowFs WorkflowStorage WorkflowAlive WorkflowManager.

(** ** The tracker of one workflow *)

Section Tracker.
Context {Ref : Type}.

(** The output held, the outputs cached by step, the steps that were reported and
    have not succeeded, and the status in the storage *)
Record tracked : Type := mkTracked {
  held : option (LatestWorkflowOutput Ref);
  cached : gmap string (LatestWorkflowOutput Ref);
  steps : option (gset string);
  status : option WorkflowStatus
}.

Inductive event : Type :=
| Resume (ignore_existing : bool)
| Update (sid : string) (st : WorkflowStatus)
| Cancel
| Report (success : bool)
| Output (name : option string).

(** What a call returns: nothing, the reference of a task, or where an output is *)
Inductive answer : Type := Nothing | Started (r : Ref) | Found (l : @located Ref).

(** The first step of the workflow [w], if it is stored, and the task that resumes
    one of its steps when an output is held *)
Variable w : string.
Variable entry : option string.
Variable resume : string -> option Ref -> Ref.

(** [CANCELED] and [RESUMABLE] are like any other status: such a workflow can be
    resumed. *)
Definition track (t : tracked) (e : event) : tracked * result answer :=
  match e with
  | Resume ignore =>
      if bool_decide (is_Some (held t)) && negb ignore then (t, Err RuntimeError)
      else match entry with
           | None => (t, Err ValueError)
           | Some sid =>
               let r := resume sid (output <$> held t) in
               (mkTracked (Some (mkOutput r w sid)) (<[sid := mkOutput r w sid]> (cached t)) (Some (default ∅ (steps t))) (Some RUNNING), Ok (Started r))
           end
  | Update sid FAILED => (mkTracked None (delete sid (cached t)) None (Some FAILED), Ok Nothing)
  | Update sid SUCCESSFUL =>
      let open := default ∅ (steps t) ∖ {[sid]} in
      if decide (open = ∅) then (mkTracked (held t) (delete sid (cached t)) None (Some SUCCESSFUL), Ok Nothing)
      else (mkTracked (held t) (delete sid (cached t)) (Some open) (status t), Ok Nothing)
  | Update sid RUNNING => (mkTracked (held t) (cached t) (Some (default ∅ (steps t) ∪ {[sid]})) (status t), Ok Nothing)
  | Update sid _ => (mkTracked (held t) (delete sid (cached t)) (Some (default ∅ (steps t) ∪ {[sid]})) (status t), Ok Nothing)
  | Cancel =>
      match steps t, held t with
      | None, _ => (t, Err KeyError)
      | Some _, Some _ => (mkTracked None (cached t) None (Some CANCELED), Ok Nothing)
      | Some _, None => (mkTracked None (cached t) None (status t), Err KeyError)
      end
  | Report _ => (mkTracked None (cached t) (steps t) (status t), Ok Nothing)
  | Output name =>
      (t, match held t, status t, name with
          | Some o, _, None => Ok (Found (Direct (output o)))
          | _, None, _ => Err ValueError
          | None, Some _, None => sid ← or_raise ValueError entry; Ok (Found (Load sid))
          | _, Some _, Some sid =>
              Ok (Found (match cached t !! sid with Some o => Dereferenced (output o) | None => Load sid end))
          end)
  end.

(** A workflow whose steps are reported in order: never none running in between *)
Lemma orderly_success o ss : forall (open : gset string) (c : gmap string (LatestWorkflowOutput Ref)),
  open ≠ ∅ -> NoDup ss -> open = list_to_set ss ->
  foldl (fun t s => (track t (Update s SUCCESSFUL)).1) (mkTracked o c (Some open) (Some RUNNING)) ss =
  mkTracked o (foldl (fun c s => delete s c) c ss) None (Some SUCCESSFUL).
Proof.
  induction ss as [|s ss IH]; intros open c Hne Hd E; [done|]. apply list.NoDup_cons in Hd as [Hs Hd]. cbn.
  assert (open ∖ {[s]} = list_to_set ss) as Es by (rewrite E; cbn; set_solver).
  case_decide as Ho; cbn.
  - destruct ss as [|s' ss]; [done|]. exfalso. rewrite Es in Ho. cbn in Ho. set_solver.
  - by apply IH.
Qed.

End Tracker.
Arguments tracked : clear implicits.
Arguments answer : clear implicits.

Section Refinement.
Context {S : Type} `{!StoreOps S} `{!Store S} {Ref : Type}.
Variable resume_workflow_step : string -> string -> option Ref -> Ref.
Abbreviation manager := (manager S Ref).
Abbreviation tracked := (tracked Ref).
Abbreviation answer := (answer Ref).
Abbreviation outputs := (LatestWorkflowOutput Ref).
Implicit Types (g : manager) (w : string).

(** The tables of a manager given by its fields *)
Ltac tables := cbn [_store _workflow_outputs _step_output_cache _step_status].

(** ** The manager refines the trackers *)

Definition handle w (e : event) : ST manager answer :=
  match e with
  | Resume ignore => r ← run_or_resume resume_workflow_step w ignore; mret (Started r)
  | Update sid st => _ ← update_step_status w sid st; mret Nothing
  | Cancel => _ ← cancel_workflow w; mret Nothing
  | Report true => _ ← report_success w; mret Nothing
  | Report false => _ ← report_failure w; mret Nothing
  | Output name => l ← get_output w name; mret (Found l)
  end.

(** The cached outputs of the steps of [w] *)
Definition cache_of (d : dict (string * string) outputs) w : gmap string outputs :=
  list_to_map (omap (fun '(k, o) => if decide (k.1 = w) then Some (k.2, o) else None) d).

Definition open_steps (d : dict string (dict string WorkflowStatus)) w : option (gset string) :=
  (fun x => list_to_set (dkeys x)) <$> dget w d.

Definition tracks g w : tracked :=
  mkTracked (dget w (_workflow_outputs g)) (cache_of (_step_output_cache g) w) (open_steps (_step_status g) w) (status_of (_store g) w).

Definition manager_ok g : Prop :=
  store_ok (_store g) /\ dwf (_workflow_outputs g) /\ dwf (_step_output_cache g) /\ dwf (_step_status g) /\
  forall w d, dget w (_step_status g) = Some d -> dwf d.

(** What the tracker of [w] does on a call *)
Abbreviation tracker g w := (track w (entry_of (_store g) w) (resume_workflow_step w)).

(** What a call does to the tables and the statuses *)
Record effect g g' w (t : tracked) : Prop := {
  effect_ok : manager_ok g';
  effect_here : tracks g' w = t;
  effect_other w' : w' <> w -> tracks g' w' = tracks g w';
  effect_entry w' : entry_of (_store g') w' = entry_of (_store g) w'
}.

(** A call answers and acts as the tracker does. *)
Definition simulates g w (e : event) : Prop :=
  exists g', handle w e g = (g', (tracker g w (tracks g w) e).2) /\ effect g g' w (tracker g w (tracks g w) e).1.

Lemma lookup_cache_of d w sid : cache_of d w !! sid = dget (w, sid) d.
Proof.
  unfold cache_of. induction d as [|[[w' sid'] o] d IH]; [done|]. cbn [omap list_omap dget fst snd].
  destruct (decide (w' = w)) as [->|Hw].
  - cbn [list_to_map foldr uncurry]. destruct (decide (sid' = sid)) as [->|Hs].
    + rewrite lookup_insert_eq. by rewrite decide_True.
    + rewrite lookup_insert_ne by done. rewrite decide_False by congruence. exact IH.
  - rewrite decide_False by congruence. exact IH.
Qed.
Lemma cache_of_dset d w sid o : cache_of (dset (w, sid) o d) w = <[sid := o]> (cache_of d w).
Proof.
  apply map_eq. intros x. rewrite lookup_cache_of, dget_dset. destruct (decide (sid = x)) as [->|Hx].
  - by rewrite lookup_insert_eq, decide_True.
  - rewrite lookup_insert_ne, lookup_cache_of by done. by rewrite decide_False by congruence.
Qed.
Lemma cache_of_dset_ne d w w' sid o : w' <> w -> cache_of (dset (w, sid) o d) w' = cache_of d w'.
Proof. intros H. apply map_eq. intros x. rewrite !lookup_cache_of, dget_dset_ne by congruence. done. Qed.
Lemma cache_of_ddel d w sid : dwf d -> cache_of (ddel (w, sid) d) w = delete sid (cache_of d w).
Proof.
  intros Hd. apply map_eq. intros x. rewrite lookup_cache_of, dget_ddel by done. destruct (decide (sid = x)) as [->|Hx].
  - by rewrite lookup_delete_eq, decide_True.
  - rewrite lookup_delete_ne, lookup_cache_of by done. by rewrite decide_False by congruence.
Qed.
Lemma cache_of_ddel_ne d w w' sid : w' <> w -> cache_of (ddel (w, sid) d) w' = cache_of d w'.
Proof. intros H. apply map_eq. intros x. rewrite !lookup_cache_of, dget_ddel_ne by congruence. done. Qed.

Lemma keys_dset (d : dict string WorkflowStatus) k v : list_to_set (dkeys (dset k v d)) =@{gset string} list_to_set (dkeys d) ∪ {[k]}.
Proof. apply set_eq. intros x. rewrite elem_of_list_to_set, elem_dkeys_dset, elem_of_union, elem_of_singleton, elem_of_list_to_set. tauto. Qed.
Lemma keys_ddel (d : dict string WorkflowStatus) k : dwf d -> list_to_set (dkeys (ddel k d)) =@{gset string} list_to_set (dkeys d) ∖ {[k]}.
Proof. intros H. apply set_eq. intros x. rewrite elem_of_list_to_set, elem_dkeys_ddel, elem_of_difference, elem_of_singleton, elem_of_list_to_set by done. tauto. Qed.
Lemma keys_empty (d : dict string WorkflowStatus) : list_to_set (dkeys d) =@{gset string} ∅ <-> d = [].
Proof. destruct d as [|[k v] d]; [done|]. cbn. split; [set_solver | done]. Qed.

(** The tables for [w] after a report of one of its steps *)
Definition reported w sid st (d : dict string (dict string WorkflowStatus)) : dict string WorkflowStatus :=
  let steps := default [] (dget w d) in if bool_decide (st = SUCCESSFUL) then ddel sid steps else dset sid st steps.

Lemma dget_setdefault w w' (d : dict string (dict string WorkflowStatus)) x :
  dget w' (dset w x (dsetdefault w [] d)) = (if decide (w = w') then Some x else dget w' d) /\ (dwf d -> dwf (dset w x (dsetdefault w [] d))).
Proof.
  rewrite dget_dset. unfold dsetdefault. split; [|intros Hd; apply dwf_dset; by destruct (dmem w d); [|apply dwf_dset]].
  case_decide as Hne; [done|]. destruct (dmem w d); [done|]. by rewrite dget_dset_ne.
Qed.

Lemma update_tables g w sid st :
  let g1 := mkManager (_store g) (_workflow_outputs g) (if bool_decide (st = RUNNING) then _step_output_cache g else ddel (w, sid) (_step_output_cache g))
              (dset w (reported w sid st (_step_status g)) (dsetdefault w [] (_step_status g))) in
  update_step_status w sid st g =
  if negb (bool_decide (st = FAILED)) && negb (length (reported w sid st (_step_status g)) =? 0)%nat then (g1, Ok tt)
  else (_ ← (if bool_decide (st = FAILED) then _ ← set_outputs (ddel w); in_store (save_meta w FAILED) else in_store (save_meta w SUCCESSFUL));
        _ ← set_status (ddel w); in_store (save_postrun w)) g1.
Proof.
  assert (dget_or w [] (dsetdefault w [] (_step_status g)) = default [] (dget w (_step_status g))) as E.
  { unfold dget_or, dsetdefault, dmem. destruct (dget w (_step_status g)) eqn:E; [by rewrite E|]. by rewrite dget_dset_eq. }
  unfold update_step_status, set_status, set_cache, reported. cbv zeta. st_simpl. cbn [_step_status _store _workflow_outputs _step_output_cache]. rewrite E.
  destruct st; cbn; try reflexivity; by destruct (length _ =? 0)%nat.
Qed.

Lemma tables_ok g w sid st :
  manager_ok g ->
  let d := dset w (reported w sid st (_step_status g)) (dsetdefault w [] (_step_status g)) in
  dwf (reported w sid st (_step_status g)) /\ dwf d /\ (forall w' x, dget w' d = Some x -> dwf x) /\
  (forall w', w' <> w -> dget w' d = dget w' (_step_status g)).
Proof.
  intros (Hs & Ho & Hc & Hd & Hw) d. assert (dwf (reported w sid st (_step_status g))) as Hr.
  { unfold reported. assert (dwf (default [] (dget w (_step_status g)))) as H by (destruct (dget w _) eqn:E; [by eapply Hw | constructor]).
    case_bool_decide; [by apply dwf_ddel | by apply dwf_dset]. }
  pose proof (fun w' => proj1 (dget_setdefault w w' (_step_status g) (reported w sid st (_step_status g)))) as E. split_and!.
  - done.
  - by apply dget_setdefault.
  - intros w' x. unfold d. rewrite E. case_decide; [by intros [= <-] | by apply Hw].
  - intros w' Hne. unfold d. rewrite E. by rewrite decide_False by done.
Qed.

(** The last report: the status is saved and the steps are forgotten. *)
Lemma finish_spec g w (st : WorkflowStatus) outs :
  store_ok (_store g) -> dwf outs -> dwf (_step_output_cache g) -> dwf (_step_status g) -> (forall w' x, dget w' (_step_status g) = Some x -> dwf x) ->
  exists g', (_ ← in_store (save_meta w st); _ ← set_status (ddel w); in_store (save_postrun w))
               (mkManager (_store g) outs (_step_output_cache g) (_step_status g)) = (g', Ok tt) /\
    manager_ok g' /\ tracks g' w = mkTracked (dget w outs) (cache_of (_step_output_cache g) w) None (Some st) /\
    (forall w', w' <> w -> tracks g' w' =
       mkTracked (dget w' outs) (cache_of (_step_output_cache g) w') (open_steps (_step_status g) w') (status_of (_store g) w')) /\
    forall w', entry_of (_store g') w' = entry_of (_store g) w'.
Proof.
  intros Hs Ho Hc Hd Hw. destruct (save_meta_law (_store g) w st Hs) as (s1 & E1 & Hs1 & H1). destruct (save_postrun_law s1 w Hs1) as (s2 & E2 & Hs2 & H2).
  eexists. split; [unfold in_store, set_status; st_simpl; cbn [_store _step_status]; rewrite E1; cbn [_store _step_status]; rewrite E2; reflexivity|].
  unfold manager_ok, tracks, open_steps. tables. split_and!; try done.
  - by apply dwf_ddel.
  - intros w' x. rewrite dget_ddel by done. case_decide; [done | by apply Hw].
  - rewrite dget_ddel_eq by done. destruct (H2 w) as [-> _], (H1 w) as [-> _]. by rewrite decide_True.
  - intros w' Hne. rewrite dget_ddel_ne by done. destruct (H2 w') as [-> _], (H1 w') as [-> _]. by rewrite decide_False.
  - intros w'. destruct (H2 w') as [_ ->], (H1 w') as [_ ->]. done.
Qed.

(** The tracked steps after a report *)
Lemma open_reported g w sid st :
  manager_ok g -> let open := default ∅ (steps (tracks g w)) in
  list_to_set (dkeys (reported w sid st (_step_status g))) = if decide (st = SUCCESSFUL) then open ∖ {[sid]} else open ∪ {[sid]}.
Proof.
  intros (_ & _ & _ & _ & Hw) open. assert (dwf (default [] (dget w (_step_status g)))) as Hd by (destruct (dget w _) eqn:E; [by eapply Hw | constructor]).
  assert (open = list_to_set (dkeys (default [] (dget w (_step_status g))))) as ->
    by (unfold open, tracks, open_steps; cbn [steps]; by destruct (dget w (_step_status g))).
  unfold reported. rewrite bool_decide_decide. destruct (decide (st = SUCCESSFUL)); [by apply keys_ddel | apply keys_dset].
Qed.

Lemma update_spec g w sid st :
  manager_ok g -> exists g', update_step_status w sid st g = (g', Ok tt) /\ effect g g' w (tracker g w (tracks g w) (Update sid st)).1.
Proof.
  intros Hg. destruct (tables_ok g w sid st Hg) as (Hr & Hd & Hx & Hne). pose proof (open_reported g w sid st Hg) as Hopen. cbv zeta in Hopen.
  pose proof Hg as (Hs & Ho & Hc & _ & _). rewrite update_tables.
  set (c := if bool_decide (st = RUNNING) then _ else _). set (d := dset w (reported w sid st (_step_status g)) _) in *.
  assert (dwf c) as Hdc by (unfold c; case_bool_decide; [done | by apply dwf_ddel]).
  assert (cache_of c w = if decide (st = RUNNING) then cached (tracks g w) else delete sid (cached (tracks g w))) as Hch.
  { unfold c. rewrite bool_decide_decide. destruct (decide (st = RUNNING)); [done | by apply cache_of_ddel]. }
  assert (forall w', w' <> w -> cache_of c w' = cache_of (_step_output_cache g) w') as Hco.
  { intros w' H. unfold c. case_bool_decide; [done | by apply cache_of_ddel_ne]. }
  assert (open_steps d w = Some (list_to_set (dkeys (reported w sid st (_step_status g))))) as Hhere by (unfold open_steps, d; by rewrite dget_dset_eq).
  assert (forall w', w' <> w -> open_steps d w' = open_steps (_step_status g) w') as Hst by (intros w' H; unfold open_steps; by rewrite Hne).
  clearbody c. case_bool_decide as Hf; cbn [negb andb].
  - subst st. destruct (finish_spec (mkManager (_store g) (_workflow_outputs g) c d) w FAILED (ddel w (_workflow_outputs g))) as (g' & E & H1 & H2 & H3 & H4);
      [done | by apply dwf_ddel | done..|]. cbn [_store _step_output_cache _step_status] in *.
    exists g'. split; [exact E|]. split; [done | | |done].
    + rewrite H2, dget_ddel_eq, Hch by done. done.
    + intros w' H. rewrite H3, dget_ddel_ne, Hco, Hst by done. done.
  - destruct (Nat.eqb_spec (length (reported w sid st (_step_status g))) 0) as [E0|E0]; cbn [negb].
    + apply nil_length_inv in E0. rewrite E0 in Hopen. destruct (decide (st = SUCCESSFUL)) as [->|Hst']; [|cbn in Hopen; set_solver].
      destruct (finish_spec (mkManager (_store g) (_workflow_outputs g) c d) w SUCCESSFUL (_workflow_outputs g)) as (g' & E & H1 & H2 & H3 & H4); [done..|].
      cbn [_store _step_output_cache _step_status] in *. exists g'. cbn [track]. rewrite decide_True by (by rewrite <- Hopen).
      split; [exact E|]. split; [done | | |done].
      * by rewrite H2, Hch.
      * intros w' H. rewrite H3, Hco, Hst by done. done.
    + eexists. split; [reflexivity|].
      split; [done | | |done].
      * unfold tracks at 1. tables. rewrite Hhere, Hch, Hopen.
        destruct st; cbn [track]; try done. rewrite (decide_False (P := _ = ∅)); [done|].
        rewrite decide_True in Hopen by done. intros E. rewrite E in Hopen. cbn in Hopen. apply keys_empty in Hopen. by rewrite Hopen in E0.
      * intros w' H. unfold tracks. tables. by rewrite Hco, Hst by done.
Qed.

Lemma update_sim g w sid st : manager_ok g -> simulates g w (Update sid st).
Proof.
  intros Hg. destruct (update_spec g w sid st Hg) as (g' & E & H). exists g'. split; [|exact H]. unfold handle. st_simpl. rewrite E.
  destruct st; cbn [track]; try done. by case_decide.
Qed.

(** A state with the same statuses and entry points *)
Lemma store_change g s' :
  manager_ok g -> store_ok s' -> unchanged (_store g) s' ->
  let g' := mkManager s' (_workflow_outputs g) (_step_output_cache g) (_step_status g) in
  manager_ok g' /\ (forall w, tracks g' w = tracks g w) /\ forall w, entry_of (_store g') w = entry_of (_store g) w.
Proof.
  intros (_ & Ho & Hc & Hd & Hw) Hs H. cbn. split_and!; [done | | apply H]. intros w. unfold tracks. cbn. by destruct (H w) as [-> _].
Qed.

Lemma run_or_resume_sim g w ignore : manager_ok g -> simulates g w (Resume ignore).
Proof.
  intros Hg. pose proof Hg as (Hs & Ho & Hc & Hd & Hw). unfold simulates, handle, run_or_resume, track. cbn [held tracks]. st_simpl.
  assert (bool_decide (is_Some (dget w (_workflow_outputs g))) = dmem w (_workflow_outputs g)) as ->.
  { unfold dmem. destruct (dget w (_workflow_outputs g)); [by apply bool_decide_true | apply bool_decide_false; intros [? ?]; done]. }
  destruct (dmem w (_workflow_outputs g) && negb ignore) eqn:Em; [by exists g|].
  unfold in_store. st_simpl. destruct (save_prerun_law (_store g) w Hs) as (s1 & E1 & Hs1 & H1). rewrite E1. cbn [_store].
  destruct (entrypoint_law s1 w Hs1) as (s2 & E2 & Hs2 & H2). rewrite E2. destruct (H1 w) as [_ He]. rewrite He.
  assert (unchanged (_store g) s2) as H12 by (intros x; destruct (H2 x) as [-> ->]; apply H1).
  destruct (entry_of (_store g) w) as [t|]; cbn [or_raise].
  - destruct (save_meta_law s2 w RUNNING Hs2) as (s3 & E3 & Hs3 & H3).
    eexists. split; [unfold set_outputs, set_cache, set_status; st_simpl; cbn [_store]; rewrite E3; reflexivity|].
    tables.
    assert (forall w', dget w' (if dmem w (_step_status g) then _step_status g else dset w [] (_step_status g)) =
      if decide (w = w') then Some (default [] (dget w (_step_status g))) else dget w' (_step_status g)) as Hst.
    { intros w'. unfold dmem. destruct (dget w (_step_status g)) eqn:E; [case_decide; [by subst | done] | by rewrite dget_dset]. }
    split; [split_and! | | |].
    + done.
    + by apply dwf_dset.
    + by apply dwf_dset.
    + cbn. destruct (dmem w (_step_status g)); [done | by apply dwf_dset].
    + cbn. intros w' x. rewrite Hst. case_decide; [|by apply Hw]. intros [= <-]. destruct (dget w (_step_status g)) eqn:E; [by eapply Hw | constructor].
    + unfold tracks, open_steps. cbn [_store _workflow_outputs _step_output_cache _step_status steps]. rewrite dget_dset_eq, cache_of_dset, Hst, decide_True by done.
      destruct (H3 w) as [-> _]. rewrite decide_True by done. cbn [fmap option_fmap option_map]. f_equal. f_equal. by destruct (dget w (_step_status g)).
    + intros w' Hne. unfold tracks, open_steps. tables.
      rewrite dget_dset_ne, cache_of_dset_ne, Hst, decide_False by done.
      destruct (H3 w') as [-> _]. rewrite decide_False by done. by destruct (H12 w') as [-> _].
    + intros w'. cbn. destruct (H3 w') as [_ ->]. apply H12.
  - eexists. split; [reflexivity|]. destruct (store_change g s2 Hg Hs2 H12) as (H & H' & H''). by split.
Qed.

Lemma cancel_sim g w : manager_ok g -> simulates g w Cancel.
Proof.
  intros Hg. pose proof Hg as (Hs & Ho & Hc & Hd & Hw). unfold simulates, handle, cancel_workflow, set_status, set_outputs, in_store, track.
  cbn [held steps tracks]. unfold open_steps. st_simpl.
  unfold ddelitem at 1. unfold dmem at 1. destruct (dget w (_step_status g)) as [d|] eqn:E; cbn; [|by exists g].
  assert (forall w', w' <> w -> open_steps (ddel w (_step_status g)) w' = open_steps (_step_status g) w') as Hst
    by (intros w' Hne; unfold open_steps; by rewrite dget_ddel_ne).
  assert (open_steps (ddel w (_step_status g)) w = None) as Hno by (unfold open_steps; by rewrite dget_ddel_eq).
  assert (forall w' x, dget w' (ddel w (_step_status g)) = Some x -> dwf x) as Hst'.
  { intros w' x. rewrite dget_ddel by done. case_decide; [done | by apply Hw]. }
  unfold ddelitem, dmem. destruct (dget w (_workflow_outputs g)) as [o|] eqn:Em; cbn.
  - destruct (save_meta_law (_store g) w CANCELED Hs) as (s1 & E1 & Hs1 & H1). rewrite E1. eexists. split; [reflexivity|].
    split; [split_and!; cbn; [done | by apply dwf_ddel | done | by apply dwf_ddel | done] | | |].
    + unfold tracks. tables. rewrite dget_ddel_eq, Hno by done. destruct (H1 w) as [-> _]. by rewrite decide_True.
    + intros w' Hne. unfold tracks. tables. rewrite dget_ddel_ne, Hst by done. destruct (H1 w') as [-> _]. by rewrite decide_False.
    + intros w'. cbn. apply H1.
  - eexists. split; [reflexivity|]. split; [split_and!; cbn; [done | done | done | by apply dwf_ddel | done] | | |done].
    + unfold tracks. tables. by rewrite Em, Hno.
    + intros w' Hne. unfold tracks. tables. by rewrite Hst.
Qed.

Lemma report_sim g w b : manager_ok g -> simulates g w (Report b).
Proof.
  intros (Hs & Ho & Hc & Hd & Hw). exists (mkManager (_store g) (ddel w (_workflow_outputs g)) (_step_output_cache g) (_step_status g)). split; [by destruct b|].
  split; [split_and!; [done | by apply dwf_ddel | done | done | done] | | |done].
  - unfold tracks. tables. by rewrite dget_ddel_eq.
  - intros w' Hne. unfold tracks. tables. by rewrite dget_ddel_ne.
Qed.

(** Looking for an output changes nothing that is tracked. *)
Lemma output_sim g w name : manager_ok g -> simulates g w (Output name).
Proof.
  intros Hg. pose proof Hg as (Hs & _). unfold simulates, handle, get_output, get_cached_step_output, in_store, track. cbn [held cached status tracks]. st_simpl.
  assert (forall s', store_ok s' -> unchanged (_store g) s' ->
    effect g (mkManager s' (_workflow_outputs g) (_step_output_cache g) (_step_status g)) w (tracks g w)) as Heff.
  { intros s' Hs' H. destruct (store_change g s' Hg Hs' H) as (H1 & H2 & H3). by split. }
  destruct (load_meta_law (_store g) w Hs) as (s1 & E1 & Hs1 & H1). pose proof (Heff s1 Hs1 H1) as He1.
  destruct (entrypoint_law s1 w Hs1) as (s2 & E2 & Hs2 & H2). destruct (H1 w) as [_ Ew]. rewrite Ew in E2.
  assert (unchanged (_store g) s2) as H12 by (intros x; destruct (H2 x) as [-> ->]; apply H1). pose proof (Heff s2 Hs2 H12) as He2.
  assert (effect g g w (tracks g w)) as He0 by (by split).
  destruct (dget w (_workflow_outputs g)) as [o|] eqn:Eo, name as [sid|], (status_of (_store g) w) as [st|]; cbn [output];
    try (exists g; split; [reflexivity | exact He0]); rewrite E1; try (eexists; split; [reflexivity | done]); cbn [_store].
  - rewrite lookup_cache_of. cbn. destruct (dget (w, sid) (_step_output_cache g)); eexists; (split; [reflexivity | done]).
  - rewrite lookup_cache_of. cbn. destruct (dget (w, sid) (_step_output_cache g)); eexists; (split; [reflexivity | done]).
  - rewrite E2. destruct (entry_of (_store g) w); eexists; (split; [reflexivity | done]).
Qed.

Lemma handle_sim g w e : manager_ok g -> simulates g w e.
Proof.
  destruct e; auto using run_or_resume_sim, update_sim, cancel_sim, report_sim, output_sim.
Qed.

(** ** Sequences of calls *)

(** The calls, each on what the others left, with their results *)
Fixpoint handle_all (es : list (string * event)) g : manager * list (result answer) :=
  match es with
  | [] => (g, [])
  | (w, e) :: es' => let '(g', r) := handle w e g in let '(g'', rs) := handle_all es' g' in (g'', r :: rs)
  end.

(** The calls for one workflow, tracked alone *)
Fixpoint track_all w (entry : option string) (es : list (string * event)) (t : tracked) : tracked * list (result answer) :=
  match es with
  | [] => (t, [])
  | (w', e) :: es' => if decide (w' = w)
                      then let '(t', r) := track w entry (resume_workflow_step w) t e in let '(t'', rs) := track_all w entry es' t' in (t'', r :: rs)
                      else track_all w entry es' t
  end.
Definition results_of (w : string) (es : list (string * event)) (rs : list (result answer)) : list (result answer) :=
  (filter (fun x => x.1.1 = w) (zip es rs)).*2.

(** C17. The manager refines one tracker per workflow: whatever calls for whatever
    workflows arrive in whatever order, for every workflow the output held, with
    its reference, the outputs cached for its steps, the steps counted as running
    and the status in the storage are those of a tracker that sees only the calls
    for this workflow; and these calls return or raise what the tracker says:
    [run_or_resume] the reference that the task of the entry step was given, which
    is the one it holds and caches, [get_output] the reference held or cached, or
    the step to load from.  The tracker resumes a workflow whatever its status is,
    a cancelled one too. *)
Theorem manager_refines_trackers es g w :
  manager_ok g ->
  let '(g', rs) := handle_all es g in
  (tracks g' w, results_of w es rs) = track_all w (entry_of (_store g) w) es (tracks g w).
Proof.
  revert g. induction es as [|[w1 e] es IH]; intros g Hg; [done|]. cbn [handle_all track_all].
  destruct (handle_sim g w1 e Hg) as (g1 & E & [Hok Hhere Hother Hentry]). rewrite E. specialize (IH g1 Hok).
  destruct (handle_all es g1) as [g2 rs] eqn:E2. unfold results_of in *. cbn [zip_with]. rewrite filter_cons. cbn [fst].
  destruct (decide (w1 = w)) as [->|Hne].
  - rewrite Hhere, Hentry in IH. destruct (track w _ _ (tracks g w) e) as [t x]. cbn in *. by rewrite <- IH.
  - rewrite Hother, Hentry in IH by done. exact IH.
Qed.

End Refinement.

(** ** The file system storage implements the interface *)

Section Disk.
Context {Val Exc Func Args : Type}.
Abbreviation content := (@content Val Exc Func Args).
Abbreviation disk := (@disk content).
Variable uuid_hex : nat -> string.
Hypothesis uuid_is_hex : forall n, is_hex (uuid_hex n).
Variable root : list string.
Implicit Types (d : disk) (w : string).

#[local] Instance ops : StoreOps disk := disk_ops uuid_hex root.

(** A key that ends in a name *)
Lemma key_last paths nm : nm <> "" -> exists dir, make_key root (paths ++ [nm]) = dir ++ [nm] /\ make_key root (paths ++ [nm]) = root ++ filter (fun n => n <> "") paths ++ [nm].
Proof.
  intros Hn. exists (root ++ filter (fun n => n <> "") paths). unfold make_key. rewrite filter_app, filter_cons, decide_True, filter_nil by done.
  by rewrite <- app_assoc.
Qed.

Lemma key_regular paths nm : regular nm -> nm <> "" -> regular_path (make_key root (paths ++ [nm])).
Proof. intros Hr Hn. destruct (key_last paths nm Hn) as (dir & E & _). exists dir, nm. done. Qed.

Lemma key_names paths nm paths' nm' : nm <> "" -> nm' <> "" -> make_key root (paths ++ [nm]) = make_key root (paths' ++ [nm']) -> nm = nm'.
Proof. intros Hn Hn'. destruct (key_last paths nm Hn) as (dir & -> & _), (key_last paths' nm' Hn') as (dir' & -> & _). by intros [_ ->]%app_inj_tail. Qed.

Definition meta_key w : list string := make_key root (_key_workflow_metadata w).
Definition entry_key w : list string := make_key root (step_file w "" STEP_OUTPUTS_METADATA).

Lemma meta_key_inj w w' : meta_key w = meta_key w' -> w = w'.
Proof.
  unfold meta_key, _key_workflow_metadata. change [w; WORKFLOW_META] with ([w] ++ [WORKFLOW_META]). change [w'; WORKFLOW_META] with ([w'] ++ [WORKFLOW_META]).
  destruct (key_last [w] WORKFLOW_META) as (_ & _ & ->); [done|]. destruct (key_last [w'] WORKFLOW_META) as (_ & _ & ->); [done|].
  intros E%app_inv_head. apply app_inj_tail in E as [E _]. rewrite !filter_cons, !filter_nil in E. repeat case_decide; by simplify_eq/= || (by rewrite ?dec_stable).
Qed.

Definition disk_ok d : Prop :=
  left d = None /\ (forall q, regular_path q -> view (files d) q <> Some Partial) /\
  forall w c, view (files d) (meta_key w) = Some (Whole c) -> exists st, c = CStatus st.
Definition disk_status d w : option WorkflowStatus := match view (files d) (meta_key w) with Some (Whole (CStatus st)) => Some st | _ => None end.
Definition disk_entry d w : option string :=
  match view (files d) (entry_key w) with
  | Some (Whole (COutputs t (Some dynamic))) => Some (if bool_decide (dynamic = "") then t else dynamic)
  | Some (Whole (COutputs t None)) => Some t
  | _ => None
  end.

Lemma meta_regular w : regular_path (meta_key w).
Proof. apply (key_regular [w] WORKFLOW_META); [eapply regular_intro; [reflexivity | done | reflexivity | reflexivity] | done]. Qed.
Lemma entry_regular w : regular_path (entry_key w).
Proof. apply (key_regular [w; STEPS_DIR; ""] STEP_OUTPUTS_METADATA); [eapply regular_intro; [reflexivity | done | reflexivity | reflexivity] | done]. Qed.

(** A file is written by a process that is not killed. *)
Lemma disk_put d paths nm c :
  disk_ok d -> regular nm -> nm <> "" ->
  exists d', _put uuid_hex root (paths ++ [nm]) c d = (d', Ok tt) /\ left d' = None /\
    view (files d') (make_key root (paths ++ [nm])) = Some (Whole c) /\
    forall q, regular_path q -> q <> make_key root (paths ++ [nm]) -> view (files d') q = view (files d) q.
Proof.
  intros (Hl & _) Hr Hn. pose proof (_put_calm uuid_hex root (paths ++ [nm]) c d Hl) as Hc. unfold _put in *.
  set (k := make_key root (paths ++ [nm])) in *. pose proof (put_spec uuid_hex uuid_is_hex k (key_regular paths nm Hr Hn) (files d) (Ok c) ltac:(done) d eq_refl) as H.
  unfold st_try in *. destruct (put uuid_hex k (Ok c) d) as [d' [[]|e]].
  - destruct H as (c' & [= <-] & (Hv & Ho & _) & _). exists d'. split_and!; [done | done | done|]. intros q Hq Hne. unfold view. by destruct (Ho q Hq Hne) as [-> ->].
  - destruct H as [[-> _]|[? _]]; [|done]. by destruct Hc as [_ ?].
Qed.

(** A file is read: backups may be restored, no reader sees a difference. *)
Lemma disk_get d paths nm :
  disk_ok d -> regular nm -> nm <> "" ->
  let k := make_key root (paths ++ [nm]) in
  exists d', _get root (paths ++ [nm]) d = (d', match view (files d) k with Some (Whole c) => Ok c | _ => Err KeyNotFoundError end) /\
    left d' = None /\ forall q, regular_path q -> view (files d') q = view (files d) q.
Proof.
  intros (Hl & Hw & _) Hr Hn k. pose proof (key_regular paths nm Hr Hn) as Hk. fold k in Hk.
  pose proof (_get_calm root (paths ++ [nm]) d Hl) as Hc. unfold _get in *. fold k in Hc |- *. pose proof (get_spec k (files d) Hk d eq_refl) as H.
  unfold st_try in *. destruct (get k d) as [d' [c|e]].
  - destruct H as [[Hv _] E]. exists d'. rewrite E. split_and!; [done | done|]. intros q Hq. by apply Hv.
  - destruct H as [[Hv _] [[-> _]|E]]; [by destruct Hc as [_ ?]|]. specialize (Hw k Hk). exists d'.
    destruct (view (files d) k) as [[c|]|]; cbn in E; [done | done|]. injection E as <-. cbn in *. split_and!; [done | apply Hc|]. intros q Hq. by apply Hv.
Qed.

Lemma views_unchanged d d' : disk_ok d -> left d' = None -> (forall q, regular_path q -> view (files d') q = view (files d) q) ->
  disk_ok d' /\ forall w, disk_status d' w = disk_status d w /\ disk_entry d' w = disk_entry d w.
Proof.
  intros (_ & Hw & Hm) Hl H. split; [split_and!; [done | |]|].
  - intros q Hq. rewrite H by done. by apply Hw.
  - intros w c. rewrite H by apply meta_regular. apply Hm.
  - intros w. unfold disk_status, disk_entry. by rewrite !H by (apply meta_regular || apply entry_regular).
Qed.

Lemma put_note d w nm c : nm ∈ [WORKFLOW_PRERUN_METADATA; WORKFLOW_POSTRUN_METADATA] -> disk_ok d ->
  exists d', _put uuid_hex root [w; nm] c d = (d', Ok tt) /\ disk_ok d' /\ forall x, disk_status d' x = disk_status d x /\ disk_entry d' x = disk_entry d x.
Proof.
  intros Hn Hd. assert (regular nm /\ nm <> "" /\ nm <> WORKFLOW_META /\ nm <> STEP_OUTPUTS_METADATA) as (Hr & Hne & H1 & H2).
  { rewrite !elem_of_cons, elem_of_nil in Hn. destruct Hn as [->|[->|[]]]; (split; [eapply regular_intro; [reflexivity | done | reflexivity | reflexivity] | done]). }
  destruct (disk_put d [w] nm c Hd Hr Hne) as (d' & E & Hl & Hv & Ho). exists d'. split; [exact E|].
  assert (forall x, meta_key x <> make_key root ([w] ++ [nm])) as Hm.
  { intros x Ex. apply (key_names [x] WORKFLOW_META [w] nm) in Ex; [by apply H1 | done | done]. }
  assert (forall x, entry_key x <> make_key root ([w] ++ [nm])) as He.
  { intros x Ex. apply (key_names [x; STEPS_DIR; ""] STEP_OUTPUTS_METADATA [w] nm) in Ex; [by apply H2 | done | done]. }
  destruct Hd as (_ & Hw & Hms). split; [split_and!; [done | |]|].
  - intros q Hq. destruct (decide (q = make_key root ([w] ++ [nm]))) as [->|Hq']; [by rewrite Hv|]. rewrite Ho by done. by apply Hw.
  - intros x c' Hx. rewrite Ho in Hx by (apply meta_regular || apply Hm). by eapply Hms.
  - intros x. unfold disk_status, disk_entry. rewrite !Ho by (apply meta_regular || apply entry_regular || apply Hm || apply He). done.
Qed.

Lemma put_meta d w st : disk_ok d ->
  exists d', save_workflow_meta uuid_hex root w st d = (d', Ok tt) /\ disk_ok d' /\
    forall x, disk_status d' x = (if decide (x = w) then Some st else disk_status d x) /\ disk_entry d' x = disk_entry d x.
Proof.
  intros Hd. destruct (disk_put d [w] WORKFLOW_META (CStatus st) Hd) as (d' & E & Hl & Hv & Ho);
    [eapply regular_intro; [reflexivity | done | reflexivity | reflexivity] | done|]. change (make_key root ([w] ++ [WORKFLOW_META])) with (meta_key w) in *.
  exists d'. split; [exact E|]. assert (forall x, x <> w -> meta_key x <> meta_key w) as Hm by (intros x Hx Ex; by apply Hx, meta_key_inj).
  assert (forall x, entry_key x <> meta_key w) as He.
  { intros x Ex. apply (key_names [x; STEPS_DIR; ""] STEP_OUTPUTS_METADATA [w] WORKFLOW_META) in Ex; done. }
  destruct Hd as (_ & Hw & Hms). split; [split_and!; [done | |]|].
  - intros q Hq. destruct (decide (q = meta_key w)) as [->|Hq']; [by rewrite Hv|]. rewrite Ho by done. by apply Hw.
  - intros x c Hx. destruct (decide (x = w)) as [->|Hne]; [rewrite Hv in Hx; injection Hx as <-; eauto|].
    rewrite Ho in Hx by (apply meta_regular || by apply Hm). by eapply Hms.
  - intros x. unfold disk_status, disk_entry. split; [|by rewrite Ho by (apply entry_regular || apply He)].
    case_decide as Hx; [subst; by rewrite Hv|]. by rewrite Ho by (apply meta_regular || by apply Hm).
Qed.

Lemma get_meta d w : disk_ok d ->
  exists d', load_workflow_meta root w d = (d', Ok (disk_status d w)) /\ disk_ok d' /\ forall x, disk_status d' x = disk_status d x /\ disk_entry d' x = disk_entry d x.
Proof.
  intros Hd. destruct (disk_get d [w] WORKFLOW_META Hd) as (d' & E & Hl & Hv);
    [eapply regular_intro; [reflexivity | done | reflexivity | reflexivity] | done|]. change (make_key root ([w] ++ [WORKFLOW_META])) with (meta_key w) in *.
  exists d'. destruct (views_unchanged d d' Hd Hl Hv) as [Hd' Hs]. split; [|done]. unfold load_workflow_meta. st_simpl.
  change (_key_workflow_metadata w) with ([w] ++ [WORKFLOW_META]). rewrite E. unfold disk_status. destruct Hd as (_ & Hw & Hms).
  specialize (Hw _ (meta_regular w)). specialize (Hms w). destruct (view (files d) (meta_key w)) as [[c|]|]; [|done | done].
  by destruct (Hms c eq_refl) as [st ->].
Qed.

Lemma get_entry d w : disk_ok d ->
  exists d', get_entrypoint_step_id root w d = (d', or_raise ValueError (disk_entry d w)) /\ disk_ok d' /\ forall x, disk_status d' x = disk_status d x /\ disk_entry d' x = disk_entry d x.
Proof.
  intros Hd. destruct (disk_get d [w; STEPS_DIR; ""] STEP_OUTPUTS_METADATA Hd) as (d' & E & Hl & Hv);
    [eapply regular_intro; [reflexivity | done | reflexivity | reflexivity] | done|]. change (make_key root ([w; STEPS_DIR; ""] ++ _)) with (entry_key w) in *.
  exists d'. destruct (views_unchanged d d' Hd Hl Hv) as [Hd' Hs]. split; [|done]. unfold get_entrypoint_step_id, _locate_output_step_id. st_simpl.
  change (step_file w "" STEP_OUTPUTS_METADATA) with ([w; STEPS_DIR; ""] ++ [STEP_OUTPUTS_METADATA]). rewrite E. unfold disk_entry.
  destruct (view (files d) (entry_key w)) as [[[]|]|]; try done. by destruct dynamic_output_step_id.
Qed.

Definition disk_store : Store disk.
Proof.
  refine {| store_ok := disk_ok; status_of := disk_status; entry_of := disk_entry |}.
  - intros d w st Hd. by apply put_meta.
  - intros d w Hd. by apply get_meta.
  - intros d w Hd. exact (put_note d w WORKFLOW_PRERUN_METADATA CMetadata (list_elem_of_here _ _) Hd).
  - intros d w Hd. exact (put_note d w WORKFLOW_POSTRUN_METADATA CMetadata (list_elem_of_further _ _ _ (list_elem_of_here _ _)) Hd).
  - intros d w Hd. by apply get_entry.
Defined.

End Disk.
