(* ===== verification/WorkflowExamples.v ===== *)
(** Workflows that run, crash and are resumed; step names that give one id twice. *)

From Stdlib Require Import ZArith Lia Ascii.
From stdpp Require Import base list strings option gmap pretty.
From S2P Require Import Prelude PyDict WorkflowFs WorkflowStorage WorkflowExec WorkflowFiles WorkflowInv WorkflowDag WorkflowRecovery WorkflowManager WorkflowManagerProps.

(** ** A recursive factorial *)

(** Functions by name: a factorial and a countdown that return workflows, a
    multiplication, a failure *)
Inductive func : Type := FLoop | FFact | FMul | FFail.
Abbreviation wf := (@pywf func (list Z)).
Abbreviation test_disk := (@disk (@content Z string func (list Z))).

Fixpoint zeros_hex (k : nat) : string := match k with O => "" | S k' => String "0" (zeros_hex k') end.
Definition test_uuid (n : nat) : string := zeros_hex 32.

Definition step (oid : nat) (name : string) (f : func) (a : list Z) (ins : list wf) : wf :=
  PyWF oid name f a ins (mkOptions false 3).

Definition test_call (f : func) (a vs : list Z) (i : nat) : @outcome Z string func (list Z) :=
  match f with
  | FLoop => match a ++ vs with
             | [n] => if (n <=? 0)%Z then Returned 7%Z else ReturnedWorkflow (step 1 "loop" FLoop [n - 1]%Z [])
             | _ => Raised "arguments"
             end
  | FMul => Returned (foldr Z.mul 1 (a ++ vs))%Z
  | FFail => Raised "failed"
  | FFact => match a ++ vs with
             | [n] => if (n <=? 1)%Z then Returned 1%Z
                      else ReturnedWorkflow (step 1 "mul" FMul [n] [step 2 "fact" FFact [n - 1]%Z []])
             | _ => Raised "arguments"
             end
  end.

Definition test_run := run test_uuid ["root"] "w" test_call (fun _ _ => 0%Z) 0%Z (fun _ => "storage") 50.
Definition test_process := process test_uuid ["root"] "w" test_call (fun _ _ => 0%Z) 0%Z (fun _ => "storage").
Definition empty_disk (changes : option nat) : test_disk := mkDisk ∅ 0 changes.

Definition fact4 : wf := step 0 "fact" FFact [4%Z] [].

Example factorial_runs : (test_run fact4 (empty_disk None)).2 = Ok (OVal 24%Z).
Proof. vm_compute. reflexivity. Qed.

(** Wherever the first run and the first resumption die, the next run gives the result. *)
Definition crash_and_resume (i j : nat) : result (@out Z string) :=
  let d1 := (test_process fact4 50 true (Some i) (empty_disk None)).1 in
  let d2 := (test_process fact4 50 false (Some j) d1).1 in
  (test_process fact4 50 true None d2).2.
Example crashes_recovered :
  forallb (fun i => forallb (fun j => match crash_and_resume (23 * i) (31 * j) with Ok (OVal z) => Z.eqb z 24 | _ => false end) (seq 0 4)) (seq 0 6) = true.
Proof. vm_compute. reflexivity. Qed.

(** ** The hypotheses of the recovery theorem *)

Lemma no_underscore n : all_chars (fun c => negb (Ascii.eqb c "_")) n = true -> forall a s, n <> a +:+ "_" +:+ s.
Proof.
  intros H a s ->. induction a as [|c a IH].
  - change ("" +:+ "_" +:+ s) with (String "_" s) in H. done.
  - change (String c a +:+ "_" +:+ s) with (String c (a +:+ "_" +:+ s)) in H. cbn in H. apply andb_true_iff in H as [_ H]. by apply IH.
Qed.

Definition test_name_list : list string := ["mul"; "fact"; "loop"].

Lemma test_file_name n : n ∈ test_name_list -> file_name n.
Proof.
  unfold test_name_list. rewrite !elem_of_cons, elem_of_nil. intros [->|[->|[->|[]]]]; split_and!; try done.
  1,3,5: eapply regular_intro; [reflexivity | done | reflexivity | reflexivity].
  all: eapply bool_decide_eq_true_1; reflexivity.
Qed.

Lemma test_names_apart n n' (j : nat) : n ∈ test_name_list -> n' ∈ test_name_list -> (1 <= j)%nat -> n <> n' +:+ "_" +:+ pretty j.
Proof.
  unfold test_name_list. rewrite !elem_of_cons, elem_of_nil. intros [->|[->|[->|[]]]] _ _; by apply no_underscore.
Qed.

#[local] Instance test_names : StepNames :=
  {| good_name := fun n => n ∈ test_name_list; good_file_name := test_file_name; good_apart := test_names_apart |}.

Lemma test_uuid_is_hex n : is_hex (test_uuid n).
Proof. done. Qed.

Lemma test_fine n : fine (step 1 "mul" FMul [n] [step 2 "fact" FFact [n - 1]%Z []]).
Proof.
  split.
  - intros x Hx. cbn in Hx. rewrite !elem_of_cons, elem_of_nil in Hx.
    destruct Hx as [->|[->|[]]]; cbn; (split; [unfold test_name_list; set_solver | lia]).
  - intros x y Hx Hy. cbn in Hx, Hy. rewrite !elem_of_cons, elem_of_nil in Hx, Hy. by destruct Hx as [->|[->|[]]], Hy as [->|[->|[]]].
Qed.

Lemma single_fine i n f a : n ∈ test_name_list -> fine (step i n f a []).
Proof.
  intros Hn. split.
  - intros x Hx. cbn in Hx. rewrite elem_of_cons, elem_of_nil in Hx. destruct Hx as [->|[]]; cbn. split; [done | lia].
  - intros x y Hx Hy. cbn in Hx, Hy. rewrite elem_of_cons, elem_of_nil in Hx, Hy. by destruct Hx as [->|[]], Hy as [->|[]].
Qed.

Lemma fact4_fine : fine fact4.
Proof. apply single_fine. unfold test_name_list. set_solver. Qed.

Lemma test_call_fine f a vs i w : test_call f a vs i = ReturnedWorkflow w -> fine w.
Proof.
  destruct f; cbn; [| | done | done]; destruct (a ++ vs) as [|n [|]]; try done.
  - destruct (n <=? 0)%Z; [done|]. intros [= <-]. apply single_fine. unfold test_name_list. set_solver.
  - destruct (n <=? 1)%Z; [done|]. intros [= <-]. apply test_fine.
Qed.

(** Two processes die; the third returns the factorial. *)
Example workflow_recovers_witness :
  (test_process fact4 50 true None
     (processes test_uuid ["root"] "w" test_call (fun _ _ => 0%Z) 0%Z (fun _ => "storage") fact4 50 [(true, Some 40%nat); (false, Some 7%nat)] (empty_disk None))).2
  = Ok (OVal 24%Z).
Proof.
  pose proof (workflow_recovers test_uuid test_uuid_is_hex ["root"] "w" ltac:(done) test_call (fun _ _ => 0%Z) 0%Z (fun _ => "storage") fact4
    (fun _ _ _ _ => eq_refl) test_call_fine 50 (OVal 24%Z) fact4_fine ltac:(vm_compute; reflexivity)
    [(true, Some 40%nat); (false, Some 7%nat)] true None) as H. cbn zeta in H. unfold test_process, empty_disk.
  destruct (process _ _ _ _ _ _ _ _ _ _ _ _).2 as [r|e]; [by rewrite H|]. exfalso. by destruct H as [[_ ?]|(_ & ? & _)].
Defined.

(** ** Step ids are not unique when a name looks like a numbered one *)

Example step_ids_collide :
  (st_map (gen_step_id test_uuid ["root"] "w") ["a"; "a_1"; "a"] (empty_disk None)).2 = Ok ["a"; "a_1"; "a_1"].
Proof. vm_compute. reflexivity. Qed.

(** ** Listing workflows when one was never started *)

(** Resuming a workflow that does not exist leaves a directory without a status; then
    listing the workflows, and so resuming all of them, raises. *)
Example list_workflow_raises :
  let d := (test_process fact4 50 false None (empty_disk None)).1 in
  (test_process fact4 50 false None (empty_disk None)).2 = Err ValueError /\ (list_workflow ["root"] d).2 = Err KeyNotFoundError.
Proof. vm_compute. done. Qed.

(** ** A file that is only there as a backup is not listed *)

Definition loop2 : wf := step 0 "loop" FLoop [2%Z] [].

(** The process dies while it records which step gave the output of [loop]: the
    record before is restored by whoever reads it, but the inspection does not
    read it, and takes the step for one that has not finished. *)
Example backup_not_listed :
  let d := (test_process loop2 50 true (Some 90%nat) (empty_disk None)).1 in
  let d' := mkDisk (files d) (uuid d) None in
  (inspect_step ["root"] "w" "loop" d').2 = Ok (Inputs true true (Some []) (Some (mkOptions false 3))) /\
  (_locate_output_step_id ["root"] "w" "loop" d').2 = Ok "loop_1" /\
  (test_process loop2 50 true None d).2 = Ok (OVal 7%Z).
Proof. vm_compute. done. Qed.

(** ** A file that is overwritten when the process dies *)

Definition old_disk : @disk nat := mkDisk {[ ["root"; "x.json"] := Whole 1%nat ]} 0 (Some 2%nat).

Lemma x_json_regular : regular_path ["root"; "x.json"].
Proof. exists ["root"], "x.json". split; [done|]. eapply regular_intro; [reflexivity | done | reflexivity | reflexivity]. Qed.

Example put_is_atomic_witness :
  let '(d', r) := put test_uuid ["root"; "x.json"] (Ok 2%nat) old_disk in
  r = Err Crashed /\ (read_back d' ["root"; "x.json"] = read_back old_disk ["root"; "x.json"] \/ read_back d' ["root"; "x.json"] = Ok 2%nat).
Proof.
  pose proof (put_is_atomic test_uuid test_uuid_is_hex ["root"; "x.json"] (Ok 2%nat) old_disk x_json_regular ltac:(done) ltac:(done)) as H.
  assert ((put test_uuid ["root"; "x.json"] (Ok 2%nat) old_disk).2 = Err Crashed) as E by (vm_compute; reflexivity).
  destruct (put _ _ _ _) as [d' r]. cbn in E. subst r. split; [done|].
  destruct H as [[(_ & _ & [H|(c & [= <-] & H)])|[? _]] _]; [by left | by right | done].
Defined.

(** An interrupt while the data are serialized: the part that was written
    replaces the file, and the backup is removed. *)
Example interrupted_write_commits :
  let '(d', r) := put test_uuid ["root"; "x.json"] (Err KeyboardInterrupt) (mkDisk (files old_disk) 0 None) in
  r = Err KeyboardInterrupt /\ files d' !! ["root"; "x.json"] = Some Partial /\
  files d' !! backup_path ["root"; "x.json"] = None /\ read_back d' ["root"; "x.json"] = Err ValueError.
Proof. vm_compute. repeat split. Qed.

(** ** The manager *)

(** A storage where the workflow [w] starts with the step [a] *)
Definition stored_key : list string := entry_key ["root"] "w".
Definition stored_disk : test_disk := mkDisk {[ stored_key := Whole (COutputs "a" None) ]} 0 None.
Definition test_manager : manager test_disk nat := mkManager stored_disk [] [] [].

Lemma stored_view q : regular_path q -> view (files stored_disk) q = if decide (q = stored_key) then Some (Whole (COutputs "a" None)) else None.
Proof.
  intros Hq. unfold view, stored_disk. cbn [files]. destruct (decide (q = stored_key)) as [->|H].
  - by rewrite lookup_singleton_eq.
  - rewrite lookup_singleton_ne by done. destruct ({[stored_key := _]} !! backup_path q) eqn:E; [|done].
    apply lookup_singleton_Some in E as [E _]. by destruct (paths_apart q stored_key Hq (entry_regular ["root"] "w")) as [[] _].
Qed.

Lemma test_manager_ok :
  manager_ok (StoreOps0 := disk_ops test_uuid ["root"]) (Store0 := disk_store test_uuid test_uuid_is_hex ["root"]) test_manager.
Proof.
  split_and!; [|constructor | constructor | constructor | done]. split_and!; [done | |].
  - intros q Hq. change (view (files stored_disk) q <> Some Partial). rewrite stored_view by done. by case_decide.
  - intros w c H. change (view (files stored_disk) (meta_key ["root"] w) = Some (Whole c)) in H. rewrite stored_view in H by apply meta_regular.
    case_decide as Hk; [|done]. by apply (key_names ["root"] [w] WORKFLOW_META ["w"; STEPS_DIR; ""] STEP_OUTPUTS_METADATA) in Hk.
Qed.

(** Two workflows in turn, on the file system: [w] is started with task 42 and
    again with task 43, [v] is not stored. *)
Definition test_task (w sid : string) (current : option nat) : nat := match current with Some r => S r | None => 42%nat end.
Definition test_events : list (string * event) :=
  [("w", Resume false); ("v", Resume false); ("v", Update "a" RUNNING); ("w", Update "a" RUNNING); ("w", Resume false); ("w", Resume true);
   ("v", Update "a" SUCCESSFUL); ("w", Output None); ("w", Output (Some "a")); ("w", Cancel); ("w", Output (Some "a")); ("w", Update "a" FAILED)].

Example manager_refines_trackers_witness :
  let '(g', rs) := handle_all (StoreOps0 := disk_ops test_uuid ["root"]) test_task test_events test_manager in
  tracks (StoreOps0 := disk_ops test_uuid ["root"]) (Store0 := disk_store test_uuid test_uuid_is_hex ["root"]) g' "w" = mkTracked None ∅ None (Some FAILED) /\
  results_of "w" test_events rs =
    [Ok (Started 42); Ok Nothing; Err RuntimeError; Ok (Started 43); Ok (Found (Direct 43)); Ok (Found (Dereferenced 43)); Ok Nothing;
     Ok (Found (Dereferenced 43)); Ok Nothing]%nat.
Proof.
  pose proof (manager_refines_trackers (StoreOps0 := disk_ops test_uuid ["root"]) (Store0 := disk_store test_uuid test_uuid_is_hex ["root"])
    test_task test_events test_manager "w" test_manager_ok) as H.
  destruct (handle_all _ _ _) as [g' rs]. split; [exact (f_equal fst H) | exact (f_equal snd H)].
Defined.

(** Calls for one workflow, stored with the entry point [a] *)
Abbreviation test_track := (track "w" (Some "a") (test_task "w")).
Definition tracker_after (es : list event) (t : tracked nat) : tracked nat := foldl (fun t e => (test_track t e).1) t es.
Definition untracked (st : option WorkflowStatus) : tracked nat := mkTracked None ∅ None st.

(** The manager forgets a workflow when it restarts; then cancelling it raises. *)
Example cancel_needs_tracking : test_track (untracked (Some RUNNING)) Cancel = (untracked (Some RUNNING), Err KeyError).
Proof. reflexivity. Qed.

(** A step that still runs when its workflow is cancelled overwrites the status. *)
Example cancel_is_overwritten :
  status (tracker_after [Resume false; Update "a" RUNNING; Cancel] (untracked None)) = Some CANCELED /\
  status (tracker_after [Resume false; Update "a" RUNNING; Cancel; Update "a" SUCCESSFUL] (untracked None)) = Some SUCCESSFUL.
Proof. vm_compute. done. Qed.

(** A cancelled workflow is resumed like any other. *)
Example canceled_can_be_resumed : status (tracker_after [Resume false] (untracked (Some CANCELED))) = Some RUNNING.
Proof. reflexivity. Qed.

(** The status says that the workflow succeeded as soon as the steps recorded so far
    have; a step that ends before it is recorded as running is counted for ever. *)
Example successful_too_early :
  status (tracker_after [Resume false; Update "input" RUNNING; Update "input" SUCCESSFUL] (untracked None)) = Some SUCCESSFUL /\
  steps (tracker_after [Resume false; Update "a" SUCCESSFUL; Update "a" RUNNING] (untracked None)) = Some {["a"]}.
Proof. split; [vm_compute; reflexivity | by vm_compute]. Qed.
